(* ===== verification/_CoqProject ===== *)
-Q . S2P
Prelude.v
Config.v
AccountName.v
Authority.v
Uint128.v
SafeInt.v
AssetSymbol.v
Asset.v
Chainbase.v
Manabar.v
ResourceDynamics.v
Reward.v
MapSum.v
State.v
Ledger.v
Votes.v
Vesting.v
Payouts.v
Delegation.v
Claims.v
Staking.v
Market.v
Transfers.v
Conservation.v
ForkDatabase.v
ForkSwitch.v
WitnessSchedule.v
Rounds.v
Slots.v
Funds.v
Content.v
Voting.v
Cashout.v
Curation.v
CommentPayouts.v
Burn.v
Accounts.v
Recovery.v
Registry.v
Proposals.v
Witnesses.v
Blocks.v
Heads.v
Node.v
