(* ===== verification/Prelude.v ===== *)
(** * A verification library for the freezone block chain

    The program is a fork of the Steem block chain: a node receives blocks,
    keeps the competing branches in a fork database, applies the blocks of the
    best branch to the chain state inside undo sessions, and makes a block
    irreversible once enough witnesses have built on it.  Applying a block
    checks its header, applies its transactions, operation by operation, and
    then runs the steps that end every block: it schedules the witnesses of
    the next round, prints and distributes money, pays out comments, vesting
    withdrawals, conversions and proposals, and clears what has expired.

    ** How the code is modelled

    Definitions are translated from the C++ code under src/libraries, in the
    build without the test network and without MIRA, and keep its names.  A
    function that may throw returns [res], a value or an exception of this
    file; a function that changes the state takes it and returns it.  Integers
    are [Z]; where the code computes in a machine type the wrap-around or the
    check is written out ([u32], [u64], [i64], [safe_add], ...).  A table of
    objects is a finite map by the key of a unique index, and a walk of an
    ordered index is a walk of the sorted rows.  A reference to an object is
    its key.  A call that throws leaves no state behind: the database undoes
    the session, which ForkSwitch.v and Chainbase.v model; where the code
    catches an exception itself the state after it is modelled.

    ** The files

    Foundations
    - Prelude.v: exceptions, the error monad and its loop, machine integers,
      tactics, the hint database [freezone]; MapSum.v: sums over tables.
    - Config.v: constants of protocol/config.hpp and protocol/hardfork.d.
    - Uint128.v: fc/uint128.hpp, uint128.cpp; SafeInt.v: fc/safe.hpp,
      fc/saturation.hpp.
    - AssetSymbol.v, Asset.v: protocol/asset_symbol.hpp, asset.hpp, asset.cpp,
      validation.hpp.
    - AccountName.v, Authority.v: protocol/authority.cpp, sign_state.cpp,
      transaction_util.hpp.
    - Chainbase.v: chainbase/chainbase.hpp, a table with its undo stack.
    - Manabar.v, ResourceDynamics.v, Reward.v: chain/util (manabar.hpp, rd.cpp,
      rd_setup.hpp, reward.cpp, uint256.hpp).

    The chain state and money
    - State.v: the objects of the ledger, the market, vesting and witness
      votes, and the record [db] of their tables.
    - Ledger.v: adjust_balance and its relatives of chain/database.cpp.
    - Market.v: limit orders; Transfers.v: transfers, escrow, conversion,
      savings; Conservation.v: all of them together.
    - Votes.v: witness votes and proxies; Vesting.v, Payouts.v: powering up
      and down; Delegation.v; Claims.v; Staking.v: all of them together.
    - Funds.v: inflation, price feeds, virtual supply; Burn.v: the null account.

    Content
    - Content.v: comments; Voting.v: votes; Cashout.v: payouts
      (chain/steem_evaluator.cpp, database.cpp, comment_rewards.cpp);
      Curation.v and CommentPayouts.v: their theorems.

    Accounts, proposals, witnesses
    - Accounts.v, Recovery.v: the evaluators of accounts, recovery and declined
      votes; Registry.v: their composition with money and votes.
    - Proposals.v: the proposal system (chain/sps_evaluator.cpp,
      util/sps_helper.cpp, util/sps_processor.cpp).
    - Witnesses.v: what witnesses publish; WitnessSchedule.v
      (chain/witness_schedule.cpp) and Rounds.v: who produces blocks.

    Blocks
    - ForkDatabase.v (chain/fork_database.cpp), ForkSwitch.v (pushing, popping
      and switching, the block log); Slots.v (headers, time slots,
      irreversibility); Blocks.v (transactions, block application); Heads.v
      (no operation and no step moves the head); Node.v (all operations and
      steps on one state, chain/database.cpp and protocol/operations.hpp).

    The state grows with the files: [sched] adds the witness schedule to [db],
    [slots] the head of the chain, [funds] the members of the global properties
    that inflation uses, [registry] the tables of accounts, [roster] the urls of
    witnesses; [social] adds comments and votes to [db] and [dao] proposals.  No
    member is in two of them, but for the ledger of the proposal fund and
    constant options of the node.

    Interfaces are type classes: [BlockHash], [Signee] and the UTF-8 test stand
    for cryptography and text libraries, of which nothing is assumed beyond what
    a class states; [Chain] with [ChainLaws] is what ForkSwitch.v needs of block
    application, and Blocks.v proves it while block numbers fit 32 bits and the
    undo history is checked; [Evaluators] with [EvaluatorLaws] is what Blocks.v
    needs of operations and of the steps of a block, and Node.v proves it of all
    that are modelled, with the rest behind [Beyond].

    ** What the theorems show

    - Money: no sequence of operations and of block steps creates or loses
      tokens, and the equations of [validate_invariants] hold
      (Conservation, Staking, Registry, Proposals, Funds, Burn,
      CommentPayouts); orders are matched within their limits; amounts,
      prices and reward curves are computed without overflow or rejected.
    - Stake: witness tallies, proxied votes, delegations and withdrawals are
      what the tables say, after every sequence of operations (Staking).
    - Content: the tallies of a comment are the sums over its votes, and
      payouts come out of the fund (Curation, CommentPayouts).
    - Accounts: an account whose owner key was stolen can be recovered for
      thirty days; a signature check accepts only what the authority tree
      allows (Recovery, Authority).
    - Consensus: the fork database keeps a forest and its head is the first
      block of the highest number; pushing a block either applies it or leaves
      the state as it was; a switch ends on the new branch or, when nothing became
      irreversible on the way, back on the old one;
      schedules are fair in virtual time; a block fills its slot; a block is
      irreversible when three quarters of the witnesses confirmed it; a
      transaction is applied once (ForkDatabase, ForkSwitch, Rounds, Slots,
      Blocks, Node).
    - Storage: the undo stack of chainbase implements a stack of snapshots.
    - Termination: the loops over payouts, delegations, comments and proposals
      end, with the work they have to do.
    - Errors: what the code does where it goes wrong is stated as theorems too
      (a vote that stops payouts, dust in the null account, proposals removed
      by others, an unchecked block size).

    ** Fuel

    A loop that is not structural takes fuel, and running out of it is the
    exception [fuel_exhausted], which the code does not have.  The fuel is the
    length of the name plus one (account names), the number of digits
    (prices), 128 shifts each way (division), two passes (the decay of a pool),
    the number of payouts due (withdrawals), of rows (delegations), of comments
    (replies and payouts), and the sum of two block numbers (branches of the
    fork database, popped blocks).  The theorems of termination, or the
    instances of [NoFuel], show that this is enough where the loops are used
    under the stated invariants.

    ** Not modelled

    Virtual operations, notifications, log messages and benchmark calls; the
    code of test networks; pending transactions and block production by
    plugins; the vote evaluator before hardfork 20; creation and sale of
    tokens (chain/smt_evaluator.cpp) and automated actions; custom operations
    and proof of work with its rewards, which belong to the first hardforks;
    the authorities that an operation requires; one-off migrations of hardforks, genesis and
    replay; resource credits (plugins/rc), which do not take part in
    consensus; MIRA, JSON, serialization beyond asset symbols, cryptography,
    the network, the wallet and the APIs. *)

From stdpp Require Export base tactics numbers list option.
From Stdlib Require Export ZArith Lia.

#[global] Open Scope Z_scope.

(** ** Exceptions and the error monad

    The program signals failure by throwing.  An operation that may throw
    returns [res A]: [Ok a] for a normal return and [Throw e] for the
    exception [e].  A handler that throws leaves no state behind, because the
    caller unwinds the open undo session. *)

Inductive exn : Set :=
| assert_exception          (* FC_ASSERT *)
| overflow_exception        (* fc::safe, upper bound *)
| underflow_exception       (* fc::safe, lower bound *)
| divide_by_zero_exception  (* fc::safe *)
| domain_error              (* std::domain_error *)
| overflow_error            (* std::overflow_error, thrown by the big-integer library *)
| bad_lexical_cast          (* boost::bad_lexical_cast *)
| out_of_range              (* std::out_of_range: key not found *)
| logic_error               (* std::logic_error: uniqueness constraint *)
| unlinkable_block_exception
| pop_empty_chain
| undo_database_exception
| transaction_tapos_exception
| transaction_expiration_exception
| tx_missing_active_auth
| tx_missing_owner_auth
| tx_missing_posting_auth
| tx_missing_other_auth
| tx_irrelevant_sig
| order_match_exception
| order_fill_exception
(** Not an exception of the program: a loop of the model ran out of fuel.
    Theorems about those loops show that it does not occur. *)
| fuel_exhausted.

Inductive res (A : Type) : Type :=
| Ok (a : A)
| Throw (e : exn).
Arguments Ok {A} a.
Arguments Throw {A} e.

#[global] Instance res_ret : MRet res := @Ok.
#[global] Instance res_bind : MBind res := fun A B k m =>
  match m with
  | Ok a => k a
  | Throw e => Throw e
  end.
#[global] Instance res_fmap : FMap res := fun A B f m =>
  match m with
  | Ok a => Ok (f a)
  | Throw e => Throw e
  end.

#[global] Instance exn_eq_dec : EqDecision exn.
Proof. solve_decision. Defined.
#[global] Instance res_eq_dec {A} `{EqDecision A} : EqDecision (res A).
Proof. solve_decision. Defined.

(** [FC_ASSERT( b )]. *)
Definition fc_assert (b : bool) : res unit :=
  if b then Ok tt else Throw assert_exception.

(** A guard that throws a named exception when [b] is false. *)
Definition check (e : exn) (b : bool) : res unit :=
  if b then Ok tt else Throw e.

(** Dereference of a pointer or iterator obtained by a lookup. *)
Definition from_option_exn {A} (e : exn) (o : option A) : res A :=
  match o with
  | Some a => Ok a
  | None => Throw e
  end.

Definition is_ok {A} (m : res A) : bool :=
  match m with Ok _ => true | Throw _ => false end.

Definition value_of {A} (d : A) (m : res A) : A :=
  match m with Ok a => a | Throw _ => d end.

Lemma value_of_Ok {A} (d : A) m : is_ok m = true → m = Ok (value_of d m).
Proof. by destruct m. Qed.

Lemma bind_Ok {A B} (m : res A) (k : A → res B) b :
  m ≫= k = Ok b ↔ ∃ a, m = Ok a ∧ k a = Ok b.
Proof. destruct m; simpl; naive_solver. Qed.

Lemma Ok_bind {A B} (a : A) (k : A → res B) : Ok a ≫= k = k a.
Proof. done. Qed.

Lemma fc_assert_Ok b u : fc_assert b = Ok u ↔ b = true.
Proof. destruct b, u; simpl; naive_solver. Qed.

Lemma check_Ok e b u : check e b = Ok u ↔ b = true.
Proof. destruct b, u; simpl; naive_solver. Qed.

Lemma from_option_exn_Ok {A} e (o : option A) a :
  from_option_exn e o = Ok a ↔ o = Some a.
Proof. destruct o; simpl; naive_solver. Qed.

(** Left fold that stops at the first exception: a [for] loop whose body may
    throw. *)
Fixpoint res_fold {A S} (f : S → A → res S) (s : S) (l : list A) : res S :=
  match l with
  | [] => Ok s
  | a :: l => s' ← f s a; res_fold f s' l
  end.

(** Rule for such a loop: what each turn keeps holds at the end. *)
Lemma res_fold_ind {A S} (P : S → Prop) (f : S → A → res S) s l s' :
  P s → (∀ s a s1, a ∈ l → P s → f s a = Ok s1 → P s1) → res_fold f s l = Ok s' → P s'.
Proof.
  revert s. induction l as [|a l IH]; simpl; intros s Hs Hf H; [by injection H as <-|].
  apply bind_Ok in H as (s1 & H1 & H). apply (IH s1); [|intros; eapply Hf; [by right|done..]|done].
  eapply Hf; [by left|done..].
Qed.

(** The same with what was done before each turn. *)
Lemma res_fold_prefix {A S} (P : S → Prop) (f : S → A → res S) s l s' :
  P s → (∀ pre a post s1 s2, l = pre ++ a :: post → res_fold f s pre = Ok s1 → P s1 → f s1 a = Ok s2 → P s2) →
  res_fold f s l = Ok s' → P s'.
Proof.
  revert s. induction l as [|a l IH]; simpl; intros s Hs Hf H; [by injection H as <-|].
  apply bind_Ok in H as (s1 & H1 & H). apply (IH s1); [by apply (Hf [] a l s s1)| |done].
  intros pre b post s2 s3 -> H2. apply (Hf (a :: pre) b post); [done|]. cbn. rewrite H1. exact H2.
Qed.

(** Computations that do not run out of fuel.  [no_fuel] proves it for a
    function whose calls have the property. *)
Class NoFuel {A} (m : res A) : Prop := fuel_is_enough : m ≠ Throw fuel_exhausted.

#[global] Instance no_fuel_ret {A} (a : A) : NoFuel (mret a).
Proof. discriminate. Qed.
#[global] Instance no_fuel_Ok {A} (a : A) : NoFuel (Ok a).
Proof. discriminate. Qed.
#[global] Instance no_fuel_assert b : NoFuel (fc_assert b).
Proof. destruct b; discriminate. Qed.
#[global] Instance no_fuel_option {A} e (o : option A) : e ≠ fuel_exhausted → NoFuel (from_option_exn e o).
Proof. intros He. destruct o; [discriminate|]. intros [= H]. by apply He. Qed.
#[global] Instance no_fuel_bind {A B} (m : res A) (k : A → res B) :
  NoFuel m → (∀ a, NoFuel (k a)) → NoFuel (m ≫= k).
Proof. intros Hm Hk. destruct m as [a|e]; [apply Hk|]. intros H. apply Hm. by injection H as ->. Qed.
Lemma no_fuel_bind_Ok {A B} (m : res A) (k : A → res B) :
  NoFuel m → (∀ a, m = Ok a → NoFuel (k a)) → NoFuel (m ≫= k).
Proof. intros Hm Hk. destruct m as [a|e]; [by apply Hk|]. intros H. apply Hm. by injection H as ->. Qed.
#[global] Instance no_fuel_fold {A S} (f : S → A → res S) s l : (∀ s a, NoFuel (f s a)) → NoFuel (res_fold f s l).
Proof. intros Hf. revert s. induction l as [|a l IH]; intros s; simpl; apply _. Qed.

Ltac no_fuel_step :=
  first [ exact _ | discriminate | apply no_fuel_option; discriminate | apply no_fuel_bind; [|intros ?] | case_match ].
Ltac no_fuel := repeat no_fuel_step.

(** [res_inv] takes a hypothesis saying that a computation returned normally
    apart into the hypotheses for its steps. *)
Ltac res_inv_step :=
  match goal with
  | H : _ ≫= _ = Ok _ |- _ =>
      let a := fresh "a" in let Ha := fresh "Ha" in
      apply bind_Ok in H; destruct H as (a & Ha & H); simpl in H
  | H : fc_assert _ = Ok _ |- _ => apply fc_assert_Ok in H
  | H : check _ _ = Ok _ |- _ => apply check_Ok in H
  | H : from_option_exn _ _ = Ok _ |- _ => apply from_option_exn_Ok in H
  | H : mret _ = Ok _ |- _ => unfold mret, res_ret in H
  | H : Ok _ = Ok _ |- _ => injection H as H; try subst
  | H : Throw _ = Ok _ |- _ => discriminate H
  | u : unit |- _ => destruct u
  end.
Ltac res_inv := repeat (res_inv_step; simpl in * |-).

(** Boolean guards to propositions. *)
Ltac bool_step :=
  match goal with
  | H : _ && _ = true |- _ => apply andb_true_iff in H; destruct H
  | H : negb _ = true |- _ => apply negb_true_iff in H
  | H : _ || _ = false |- _ => apply orb_false_iff in H; destruct H
  | H : (_ <? _)%Z = true |- _ => apply Z.ltb_lt in H
  | H : (_ <? _)%Z = false |- _ => apply Z.ltb_ge in H
  | H : (_ <=? _)%Z = true |- _ => apply Z.leb_le in H
  | H : (_ <=? _)%Z = false |- _ => apply Z.leb_gt in H
  | H : (_ =? _)%Z = true |- _ => apply Z.eqb_eq in H
  | H : (_ =? _)%Z = false |- _ => apply Z.eqb_neq in H
  | H : bool_decide _ = true |- _ => apply bool_decide_eq_true in H
  | H : bool_decide _ = false |- _ => apply bool_decide_eq_false in H
  end.
Ltac bools := repeat bool_step.

(** ** Machine integers

    A [w]-bit integer is a [Z]; arithmetic on it is arithmetic on [Z]
    followed by [wrapu] (unsigned) or [wraps] (two's complement). *)

Definition wrapu (w x : Z) : Z := x mod 2 ^ w.
Definition wraps (w x : Z) : Z := (x + 2 ^ (w - 1)) mod 2 ^ w - 2 ^ (w - 1).

Definition u8 : Z → Z := wrapu 8.
Definition u16 : Z → Z := wrapu 16.
Definition u32 : Z → Z := wrapu 32.
Definition u64 : Z → Z := wrapu 64.
Definition i32 : Z → Z := wraps 32.
Definition i64 : Z → Z := wraps 64.

Abbreviation uint8_max := (2 ^ 8 - 1) (only parsing).
Abbreviation uint16_max := (2 ^ 16 - 1) (only parsing).
Abbreviation uint32_max := (2 ^ 32 - 1) (only parsing).
Abbreviation uint64_max := (2 ^ 64 - 1) (only parsing).
Abbreviation int64_max := (2 ^ 63 - 1) (only parsing).
Abbreviation int64_min := (- 2 ^ 63) (only parsing).
Abbreviation int32_max := (2 ^ 31 - 1) (only parsing).

Definition in_u (w x : Z) : Prop := 0 <= x < 2 ^ w.
Definition in_s (w x : Z) : Prop := - 2 ^ (w - 1) <= x < 2 ^ (w - 1).

#[global] Instance in_u_dec w x : Decision (in_u w x).
Proof. unfold in_u. apply _. Defined.
#[global] Instance in_s_dec w x : Decision (in_s w x).
Proof. unfold in_s. apply _. Defined.

Lemma wrapu_small w x : in_u w x → wrapu w x = x.
Proof. intros. by apply Z.mod_small. Qed.

Lemma wrapu_in w x : 0 <= w → in_u w (wrapu w x).
Proof. intros. apply Z.mod_pos_bound. by apply Z.pow_pos_nonneg. Qed.

Lemma pow2_half w : 0 < w → 2 ^ w = 2 * 2 ^ (w - 1).
Proof. intros. rewrite <- Z.pow_succ_r by lia. f_equal; lia. Qed.

Lemma wraps_small w x : 0 < w → in_s w x → wraps w x = x.
Proof.
  intros Hw [Hl Hu]. unfold wraps. pose proof (pow2_half w Hw).
  rewrite Z.mod_small; lia.
Qed.

Lemma wraps_in w x : 0 < w → in_s w (wraps w x).
Proof.
  intros Hw. unfold wraps, in_s. pose proof (pow2_half w Hw).
  pose proof (Z.mod_pos_bound (x + 2 ^ (w - 1)) (2 ^ w) ltac:(apply Z.pow_pos_nonneg; lia)).
  lia.
Qed.

Lemma wraps_wrapu w x : 0 < w → wraps w (wrapu w x) = wraps w x.
Proof.
  intros Hw. unfold wraps, wrapu. by rewrite Z.add_mod_idemp_l by (apply Z.pow_nonzero; lia).
Qed.

Lemma wrapu_wraps w x : 0 < w → wrapu w (wraps w x) = wrapu w x.
Proof.
  intros Hw. unfold wraps, wrapu. rewrite Zminus_mod_idemp_l. f_equal; lia.
Qed.

(** Bit patterns. *)
Lemma lor_add_disjoint x y : Z.land x y = 0 → Z.lor x y = x + y.
Proof. intros H. rewrite <- (Z.add_lor_land x y). rewrite H. lia. Qed.

(** [x] is a multiple of [2^n] and [y] fits below it. *)
Lemma lor_low_high x y n :
  0 <= n → 0 <= y < 2 ^ n → x mod 2 ^ n = 0 → Z.lor x y = x + y.
Proof.
  intros Hn Hy Hx. apply lor_add_disjoint, Z.bits_inj'. intros i Hi.
  rewrite Z.land_spec, Z.bits_0.
  destruct (decide (i < n)).
  - rewrite <- (Z.mod_pow2_bits_low x n i), Hx, Z.bits_0 by lia. done.
  - rewrite <- (Z.mod_small y (2 ^ n)), Z.mod_pow2_bits_high, andb_false_r by lia. done.
Qed.

Lemma in_u_bits w x : 0 <= w → (∀ i, w <= i → Z.testbit x i = false) → in_u w x.
Proof.
  intros Hw H. cut (x = x mod 2 ^ w); [intros ->; apply wrapu_in; done|].
  apply Z.bits_inj'. intros i Hi. destruct (decide (i < w)).
  - by rewrite Z.mod_pow2_bits_low by lia.
  - rewrite Z.mod_pow2_bits_high by lia. apply H. lia.
Qed.

Lemma in_u_high w x i : in_u w x → 0 <= w <= i → Z.testbit x i = false.
Proof. intros Hx Hi. rewrite <- (wrapu_small w x Hx). unfold wrapu. apply Z.mod_pow2_bits_high. lia. Qed.

(** [int_unfold] exposes the bounds behind the machine-integer predicates so
    that [lia] sees them. *)
Ltac int_unfold :=
  unfold u8, u16, u32, u64, i32, i64, in_u, in_s, wrapu, wraps in *;
  change (2 ^ (8 - 1)) with 128 in *;
  change (2 ^ (16 - 1)) with 32768 in *;
  change (2 ^ (32 - 1)) with 2147483648 in *;
  change (2 ^ (64 - 1)) with 9223372036854775808 in *;
  change (2 ^ 8) with 256 in *;
  change (2 ^ 16) with 65536 in *;
  change (2 ^ 31) with 2147483648 in *;
  change (2 ^ 32) with 4294967296 in *;
  change (2 ^ 63) with 9223372036854775808 in *;
  change (2 ^ 64) with 18446744073709551616 in *;
  change (2 ^ 127) with 170141183460469231731687303715884105728 in *;
  change (2 ^ 128) with 340282366920938463463374607431768211456 in *.

(** [mlia]: linear arithmetic with wrap-arounds and divisions by constants. *)
Ltac mlia :=
  int_unfold; Z.div_mod_to_equations; lia.

Definition b2z (b : bool) : Z := if b then 1 else 0.

Definition zsum : list Z → Z := foldr Z.add 0.

Lemma zsum_app l l' : zsum (l ++ l') = zsum l + zsum l'.
Proof. induction l as [|x l IH]; cbn in *; lia. Qed.

Create HintDb freezone discriminated.
#[export] Hint Resolve wrapu_in wraps_in : freezone.
