(* ===== verification/Config.v ===== *)
(** * Configuration constants

    The constants of protocol/config.hpp that the other files use, in the
    build without the test network. *)

From S2P Require Import Prelude.
#[local] Open Scope Z_scope.

Definition freezone_100_PERCENT : Z := 10000.
(** [fc::time_point_sec::maximum()] *)
Definition time_point_sec_maximum : Z := 4294967295.

(** ** Resource dynamics *)

Definition freezone_RD_MIN_DECAY_BITS : Z := 6.
Definition freezone_RD_DECAY_DENOM_SHIFT : Z := 36.
Definition freezone_RD_MAX_POOL_BITS : Z := 64.
Definition freezone_RD_MAX_BUDGET_1 : Z :=
  Z.shiftl 1 (freezone_RD_MAX_POOL_BITS + freezone_RD_MIN_DECAY_BITS - freezone_RD_DECAY_DENOM_SHIFT) - 1.
Definition freezone_RD_MAX_BUDGET_2 : Z := Z.shiftl 1 (64 - freezone_RD_DECAY_DENOM_SHIFT) - 1.
Definition freezone_RD_MAX_BUDGET_3 : Z := int32_max.
Definition freezone_RD_MAX_BUDGET : Z :=
  i32 (Z.min freezone_RD_MAX_BUDGET_1 (Z.min freezone_RD_MAX_BUDGET_2 freezone_RD_MAX_BUDGET_3)).
Definition freezone_RD_MIN_DECAY : Z := Z.shiftl 1 freezone_RD_MIN_DECAY_BITS.
Definition freezone_RD_MIN_BUDGET : Z := 1.
Definition freezone_RD_MAX_DECAY : Z := 4294967295.

(** ** Accounts, hardforks and periods *)

Definition freezone_HARDFORK_0_1 : Z := 1.
Definition freezone_HARDFORK_0_2 : Z := 2.
Definition freezone_HARDFORK_0_3 : Z := 3.
Definition freezone_HARDFORK_0_4 : Z := 4.
Definition freezone_HARDFORK_0_5 : Z := 5.
Definition freezone_HARDFORK_0_6 : Z := 6.
Definition freezone_HARDFORK_0_7 : Z := 7.
Definition freezone_HARDFORK_0_8 : Z := 8.
Definition freezone_HARDFORK_0_9 : Z := 9.
Definition freezone_HARDFORK_0_10 : Z := 10.
Definition freezone_HARDFORK_0_11 : Z := 11.
Definition freezone_HARDFORK_0_12 : Z := 12.
Definition freezone_HARDFORK_0_14 : Z := 14.
Definition freezone_HARDFORK_0_15 : Z := 15.
Definition freezone_HARDFORK_0_16 : Z := 16.
Definition freezone_HARDFORK_0_17 : Z := 17.
Definition freezone_HARDFORK_0_19 : Z := 19.
Definition freezone_HARDFORK_0_20 : Z := 20.
Definition freezone_HARDFORK_0_21 : Z := 21.
Definition freezone_HARDFORK_0_22 : Z := 22.
Definition freezone_SST_HARDFORK : Z := 23.
Definition freezone_HARDFORK_0_20_TIME : Z := 1537887600.

Definition freezone_BLOCKS_PER_DAY : Z := 24 * 60 * 60 / 3.
Definition freezone_SECONDS_PER_YEAR : Z := 60 * 60 * 24 * 365.
Definition freezone_SBD_INTEREST_COMPOUND_INTERVAL_SEC : Z := 60 * 60 * 24 * 30.
Definition freezone_SAVINGS_WITHDRAW_TIME : Z := 3 * 24 * 60 * 60.
Definition freezone_SAVINGS_WITHDRAW_REQUEST_LIMIT : Z := 100.
Definition freezone_CONVERSION_DELAY_PRE_HF_16 : Z := 7 * 24 * 60 * 60.
Definition freezone_CONVERSION_DELAY : Z := 12 * 7 * 60 * 60.
Definition freezone_MAX_LIMIT_ORDER_EXPIRATION : Z := 60 * 60 * 24 * 28.
Definition freezone_LIQUIDITY_TIMEOUT_SEC : Z := 60 * 60 * 24 * 7.
Definition freezone_MIN_LIQUIDITY_REWARD_PERIOD_SEC : Z := 60.
Definition freezone_MIN_LIQUIDITY_REWARD_PERIOD_SEC_HF10 : Z := 60 * 30.

(** ** Vesting and witness voting *)

Definition freezone_MAX_PROXY_RECURSION_DEPTH : nat := 4.
Definition freezone_VESTING_WITHDRAW_INTERVALS_PRE_HF_16 : Z := 104.
Definition freezone_VESTING_WITHDRAW_INTERVALS : Z := 13.
Definition freezone_VESTING_WITHDRAW_INTERVAL_SECONDS : Z := 60 * 60 * 24 * 7.
Definition SST_VESTING_WITHDRAW_INTERVAL_SECONDS : Z := 60 * 60 * 24 * 7.
Definition freezone_MAX_WITHDRAW_ROUTES : Z := 10.
Definition freezone_VOTING_MANA_REGENERATION_SECONDS : Z := 5 * 60 * 60 * 24.
Definition freezone_MAX_ACCOUNT_WITNESS_VOTES : Z := 30.
Definition SST_INITIAL_VESTING_PER_UNIT : Z := 1000000.

(** ** Blocks and witnesses *)

Definition freezone_MAX_UNDO_HISTORY : Z := 10000.
Definition freezone_BLOCK_INTERVAL : Z := 3.
Definition freezone_START_MINER_VOTING_BLOCK : Z := freezone_BLOCKS_PER_DAY * 30.
Definition freezone_MAX_WITNESSES : Z := 21.
Definition freezone_IRREVERSIBLE_THRESHOLD : Z := 75 * 100.
Definition freezone_ACCOUNT_SUBSIDY_PRECISION : Z := freezone_100_PERCENT.
Definition freezone_WITNESS_SUBSIDY_BUDGET_PERCENT : Z := 125 * 100.
Definition freezone_WITNESS_SUBSIDY_DECAY_PERCENT : Z := freezone_MAX_WITNESSES * freezone_100_PERCENT.
Definition freezone_DECAY_BACKSTOP_PERCENT : Z := 90 * 100.

(** ** Inflation, feeds and rewards per block *)

Definition freezone_BLOCKS_PER_YEAR : Z := 365 * 24 * 60 * 60 / freezone_BLOCK_INTERVAL.
Definition freezone_START_VESTING_BLOCK : Z := freezone_BLOCKS_PER_DAY * 7.
Definition freezone_INFLATION_RATE_START_PERCENT : Z := 978.
Definition freezone_INFLATION_RATE_STOP_PERCENT : Z := 95.
Definition freezone_INFLATION_NARROWING_PERIOD : Z := 250000.
Definition freezone_MINING_REWARD : Z := 1000.
Definition freezone_APR_PERCENT_MULTIPLY_PER_BLOCK : Z :=
  Z.lor (Z.lor (Z.shiftl 0x5ccc 0x20) (Z.shiftl 0xe802 0x10)) 0xde5f.
Definition freezone_APR_PERCENT_SHIFT_PER_BLOCK : Z := 87.
Definition freezone_CURATE_APR_PERCENT : Z := 3875.
Definition freezone_CONTENT_APR_PERCENT : Z := 3875.
Definition freezone_PRODUCER_APR_PERCENT : Z := 750.
Definition freezone_FEED_INTERVAL_BLOCKS : Z := 60 * 60 / freezone_BLOCK_INTERVAL.
Definition freezone_FEED_HISTORY_WINDOW_PRE_HF_16 : Z := 24 * 7.
Definition freezone_FEED_HISTORY_WINDOW : Z := 12 * 7.
Definition freezone_MAX_FEED_AGE_SECONDS : Z := 60 * 60 * 24 * 7.
Definition freezone_MIN_FEEDS : Z := freezone_MAX_WITNESSES / 3.
Definition freezone_MAX_TIME_UNTIL_EXPIRATION : Z := 60 * 60.

(** ** Comments, votes and their rewards *)

Definition freezone_FIRST_CASHOUT_TIME : Z := freezone_HARDFORK_0_7.
Definition freezone_CASHOUT_WINDOW_SECONDS_PRE_HF17 : Z := 60 * 60 * 12.
Definition freezone_CASHOUT_WINDOW_SECONDS : Z := 60 * 60 * 24 * 7.
Definition freezone_SECOND_CASHOUT_WINDOW : Z := 60 * 60 * 24 * 30.
Definition freezone_UPVOTE_LOCKOUT_SECONDS : Z := 60 * 60 * 12.
Definition freezone_MAX_VOTE_CHANGES : Z := 5.
Definition freezone_MIN_VOTE_INTERVAL_SEC : Z := 3.
Definition freezone_VOTE_DUST_THRESHOLD : Z := 50000000.
Definition freezone_MIN_ROOT_COMMENT_INTERVAL : Z := 60 * 5.
Definition freezone_MIN_REPLY_INTERVAL_HF20 : Z := 3.
Definition freezone_MIN_COMMENT_EDIT_INTERVAL : Z := 3.
Definition freezone_POST_AVERAGE_WINDOW : Z := 60 * 60 * 24.
Definition freezone_POST_WEIGHT_CONSTANT : Z := (4 * freezone_100_PERCENT) * (4 * freezone_100_PERCENT).
Definition freezone_MAX_COMMENT_DEPTH_PRE_HF17 : Z := 6.
Definition freezone_MAX_COMMENT_DEPTH : Z := 65535.
Definition freezone_RECENT_RSHARES_DECAY_TIME_HF17 : Z := 30 * 24 * 60 * 60.
Definition freezone_RECENT_RSHARES_DECAY_TIME_HF19 : Z := 15 * 24 * 60 * 60.
Definition freezone_CONTENT_CONSTANT_HF0 : Z := 2000000000000.
Definition freezone_MIN_PAYOUT_SBD : Z := 20.
Definition freezone_1_PERCENT : Z := freezone_100_PERCENT / 100.

(** ** Account creation and recovery *)

Definition freezone_MAX_ACCOUNT_CREATION_FEE : Z := 1000000000.
Definition freezone_CREATE_ACCOUNT_WITH_freezone_MODIFIER : Z := 30.
Definition freezone_CREATE_ACCOUNT_DELEGATION_RATIO : Z := 5.
Definition freezone_CREATE_ACCOUNT_DELEGATION_TIME : Z := 30 * 24 * 60 * 60.
Definition freezone_OWNER_AUTH_RECOVERY_PERIOD : Z := 30 * 24 * 60 * 60.
Definition freezone_ACCOUNT_RECOVERY_REQUEST_EXPIRATION_PERIOD : Z := 24 * 60 * 60.
Definition freezone_OWNER_UPDATE_LIMIT : Z := 60 * 60.
Definition freezone_OWNER_AUTH_HISTORY_TRACKING_START_BLOCK_NUM : Z := 3186477.
