(* ===== verification/AccountName.v ===== *)
(** * Account names

    [is_valid_account_name] of protocol/authority.cpp, which scans the name
    with indices, against the grammar documented in authority.hpp: labels
    separated by dots. *)

From S2P Require Import Prelude.
From Stdlib Require Import Ascii String.
#[local] Open Scope Z_scope.

Definition freezone_MIN_ACCOUNT_NAME_LENGTH : nat := 3.
Definition freezone_MAX_ACCOUNT_NAME_LENGTH : nat := 16.

Definition code (c : ascii) : nat := nat_of_ascii c.
Definition is_letter (c : ascii) : bool := (97 <=? code c)%nat && (code c <=? 122)%nat.
Definition is_digit (c : ascii) : bool := (48 <=? code c)%nat && (code c <=? 57)%nat.
Definition is_let_dig (c : ascii) : bool := is_letter c || is_digit c.
Definition is_let_dig_hyp (c : ascii) : bool := is_let_dig c || Ascii.eqb c "-".

(** [name[i]]; the scan stays within the name. *)
Definition char_at (name : list ascii) (i : nat) : ascii := nth i name "000"%char.

(** [name.find_first_of( '.', begin )], with the length for [npos]. *)
Fixpoint find_dot (name : list ascii) (i : nat) : nat :=
  match name with
  | [] => i
  | c :: name => if Ascii.eqb c "." then i else find_dot name (S i)
  end.
Definition find_first_of_dot (name : list ascii) (begin : nat) : nat := find_dot (drop begin name) begin.

(** One iteration of the loop checks the label from [begin] to [end]. *)
Definition label_ok (name : list ascii) (begin end_ : nat) : bool :=
  negb (end_ - begin <? 3)%nat
  && is_letter (char_at name begin)
  && is_let_dig (char_at name (end_ - 1))
  && forallb (λ i, is_let_dig_hyp (char_at name i)) (seq (begin + 1) (end_ - 1 - (begin + 1))).

(** The loop; each iteration moves [begin] past a dot, so as many iterations
    as the name has characters are enough. *)
Fixpoint name_loop (fuel : nat) (name : list ascii) (begin : nat) : option bool :=
  match fuel with
  | O => None
  | S fuel =>
      let len := List.length name in
      let end_ := find_first_of_dot name begin in
      if negb (label_ok name begin end_) then Some false
      else if (end_ =? len)%nat then Some true
      else name_loop fuel name (end_ + 1)
  end.

Definition is_valid_account_name (name : list ascii) : option bool :=
  let len := List.length name in
  if (len <? freezone_MIN_ACCOUNT_NAME_LENGTH)%nat then Some false
  else if (freezone_MAX_ACCOUNT_NAME_LENGTH <? len)%nat then Some false
  else name_loop (S len) name 0.

(** ** The grammar *)

Inductive label : list ascii → Prop :=
| label_intro c mid e :
    is_letter c = true → is_let_dig e = true → Forall (λ x, is_let_dig_hyp x = true) mid → (1 <= List.length mid)%nat →
    label (c :: mid ++ [e]).

Inductive subdomain : list ascii → Prop :=
| subdomain_one l : label l → subdomain l
| subdomain_dot l s : label l → subdomain s → subdomain (l ++ "."%char :: s).

Definition valid_name (name : list ascii) : Prop :=
  (freezone_MIN_ACCOUNT_NAME_LENGTH <= List.length name <= freezone_MAX_ACCOUNT_NAME_LENGTH)%nat ∧ subdomain name.

(** ** Scanning one label *)

Definition no_dot (l : list ascii) : Prop := Forall (λ c, Ascii.eqb c "." = false) l.

Lemma let_dig_hyp_no_dot c : is_let_dig_hyp c = true → Ascii.eqb c "." = false.
Proof. intros H. apply not_true_iff_false. intros ->%Ascii.eqb_eq. done. Qed.

Lemma label_no_dot l : label l → no_dot l.
Proof.
  intros [c mid e Hc He Hm _]. constructor.
  { apply let_dig_hyp_no_dot. unfold is_let_dig_hyp, is_let_dig. by rewrite Hc. }
  apply Forall_app. split.
  - eapply Forall_impl; [|exact Hm]. intros x Hx. by apply let_dig_hyp_no_dot.
  - constructor; [|constructor]. apply let_dig_hyp_no_dot. unfold is_let_dig_hyp. by rewrite He.
Qed.

(** The scan splits the rest of the name at its first dot. *)
Lemma find_dot_spec s i :
  ∃ l r, s = l ++ r ∧ no_dot l ∧ find_dot s i = (i + List.length l)%nat
    ∧ (r = [] ∨ ∃ r', r = "."%char :: r').
Proof.
  revert i. induction s as [|c s IH]; intros i; cbn [find_dot].
  { exists [], []. split_and!; [done|constructor|simpl; lia|by left]. }
  destruct (Ascii.eqb c ".") eqn:E.
  - exists [], (c :: s). apply Ascii.eqb_eq in E as ->. split_and!; [done|constructor|simpl; lia|right; eauto].
  - destruct (IH (S i)) as (l & r & -> & Hl & -> & Hr). exists (c :: l), r.
    split_and!; [done|by constructor|simpl; lia|done].
Qed.

Lemma char_at_app pre l r i :
  (i < List.length l)%nat → char_at (pre ++ l ++ r) (List.length pre + i) = nth i l "000"%char.
Proof.
  intros Hi. unfold char_at. rewrite app_nth2_plus || (rewrite app_nth2 by lia; f_equal).
  by rewrite app_nth1.
Qed.

Lemma label_ok_spec pre l r :
  label_ok (pre ++ l ++ r) (List.length pre) (List.length pre + List.length l) = true ↔ label l.
Proof.
  set (b := List.length pre). unfold label_ok.
  replace (b + List.length l - b)%nat with (List.length l) by lia.
  rewrite !andb_true_iff, negb_true_iff, Nat.ltb_ge, forallb_forall.
  setoid_rewrite in_seq. split.
  - intros [[[H3 Hc] He] Hm].
    destruct l as [|c l']; [simpl in H3; lia|].
    destruct l' as [|e mid _] using rev_ind; [simpl in H3; lia|].
    cbn [List.length] in *. rewrite length_app in *. cbn [List.length] in *.
    assert (∀ i, (i < S (List.length mid + 1))%nat →
      char_at (pre ++ (c :: mid ++ [e]) ++ r) (b + i) = nth i (c :: mid ++ [e]) "000"%char) as Hat.
    { intros i Hi. apply char_at_app. simpl. rewrite length_app. simpl. lia. }
    constructor; [| | |lia].
    + specialize (Hat 0%nat ltac:(lia)). rewrite Nat.add_0_r in Hat. rewrite Hat in Hc. done.
    + replace (b + S (List.length mid + 1) - 1)%nat with (b + S (List.length mid))%nat in He by lia.
      rewrite Hat in He by lia. cbn [nth] in He. by rewrite nth_middle in He.
    + apply List.Forall_forall. intros x (i & Hi & Hx)%(In_nth _ _ "000"%char).
      specialize (Hm (b + S i)%nat ltac:(lia)). rewrite Hat in Hm by lia.
      cbn [nth] in Hm. rewrite app_nth1 in Hm by done. by rewrite Hx in Hm.
  - intros [c mid e Hc He Hmid Hlen].
    assert (∀ i, (i < S (List.length mid + 1))%nat →
      char_at (pre ++ (c :: mid ++ [e]) ++ r) (b + i) = nth i (c :: mid ++ [e]) "000"%char) as Hat.
    { intros i Hi. apply char_at_app. simpl. rewrite length_app. simpl. lia. }
    cbn [List.length]. rewrite length_app. cbn [List.length]. split_and!.
    + lia.
    + pose proof (Hat 0%nat ltac:(lia)) as H0. rewrite Nat.add_0_r in H0. by rewrite H0.
    + replace (b + S (List.length mid + 1) - 1)%nat with (b + S (List.length mid))%nat by lia.
      rewrite Hat by lia. cbn [nth]. by rewrite nth_middle.
    + intros i Hi. replace i with (b + S (i - b - 1))%nat by lia. rewrite Hat by lia.
      cbn [nth]. rewrite app_nth1 by lia. rewrite List.Forall_forall in Hmid. apply Hmid, nth_In. lia.
Qed.

(** A label followed by a dot or the end is found by the scan. *)
Lemma no_dot_split l r l' r' :
  no_dot l → no_dot l' → l ++ r = l' ++ r' →
  (r = [] ∨ ∃ x, r = "."%char :: x) → (r' = [] ∨ ∃ x, r' = "."%char :: x) → l = l' ∧ r = r'.
Proof.
  revert l'. induction l as [|c l IH]; intros [|c' l'] Hl Hl' E Hr Hr'; simpl in *.
  - done.
  - destruct Hr as [->|[x ->]]; [done|]. injection E as <- _. apply Forall_cons_iff in Hl' as [Hl' _]. done.
  - destruct Hr' as [->|[x ->]]; [done|]. injection E as -> _. apply Forall_cons_iff in Hl as [Hl _]. done.
  - injection E as <- E. apply Forall_cons_iff in Hl as [_ Hl], Hl' as [_ Hl'].
    destruct (IH l' Hl Hl' E Hr Hr') as [-> ->]. done.
Qed.

Lemma subdomain_split s :
  subdomain s ↔ ∃ l r, s = l ++ r ∧ label l ∧ (r = [] ∨ ∃ r', r = "."%char :: r' ∧ subdomain r').
Proof.
  split.
  - intros [l Hl|l s' Hl Hs]; [exists l, []|exists l, ("."%char :: s')]; rewrite ?app_nil_r; eauto 8.
  - intros (l & r & -> & Hl & [->|(r' & -> & Hr)]); [rewrite app_nil_r; by constructor|by constructor].
Qed.

Lemma name_loop_spec fuel pre s :
  (List.length s < fuel)%nat →
  ∃ b, name_loop fuel (pre ++ s) (List.length pre) = Some b ∧ (b = true ↔ subdomain s).
Proof.
  revert pre s. induction fuel as [|fuel IH]; intros pre s Hf; [lia|]. cbn [name_loop].
  unfold find_first_of_dot. rewrite drop_app_length.
  destruct (find_dot_spec s (List.length pre)) as (l & r & -> & Hl & -> & Hr).
  destruct (label_ok _ _ _) eqn:E; cbn [negb].
  - apply label_ok_spec in E. rewrite !length_app. destruct Hr as [->|[r' ->]].
    + rewrite (proj2 (Nat.eqb_eq _ _)) by (simpl; lia). exists true. split; [done|].
      rewrite app_nil_r. split; [by constructor|done].
    + rewrite (proj2 (Nat.eqb_neq _ _)) by (simpl; lia).
      rewrite length_app in Hf. simpl in Hf.
      destruct (IH (pre ++ l ++ ["."%char]) r' ltac:(lia)) as (b & Hb & Hiff). exists b. split.
      * rewrite <- Hb. f_equal; [by rewrite <- !app_assoc|]. rewrite !length_app. simpl. lia.
      * rewrite Hiff, (subdomain_split (l ++ _)). split.
        -- intros Hs. exists l, ("."%char :: r'). eauto 8.
        -- intros (l0 & r0 & Heq & Hl0 & Hr0).
           destruct (no_dot_split l ("."%char :: r') l0 r0) as [<- <-]; [done|by apply label_no_dot|done|eauto| |].
           { destruct Hr0 as [->|(x & -> & _)]; eauto. }
           destruct Hr0 as [?|(x & [= <-] & ?)]; done.
  - exists false. split; [done|]. split; [done|]. intros Hs. exfalso.
    apply subdomain_split in Hs as (l0 & r0 & Heq & Hl0 & Hr0).
    destruct (no_dot_split l r l0 r0) as [<- <-]; [done|by apply label_no_dot|done|done| |].
    { destruct Hr0 as [->|(x & -> & _)]; eauto. }
    apply (label_ok_spec pre l r) in Hl0. congruence.
Qed.

(** ** Theorem *)

(** C30: the name check implements the documented grammar: it always returns,
    and accepts exactly the names of 3 to 16 characters that are one or more
    labels separated by single dots, each label of at least three characters,
    beginning with a lowercase letter, ending with a letter or digit, and with
    letters, digits or hyphens between. *)
Theorem account_name_grammar name :
  ∃ b, is_valid_account_name name = Some b ∧ (b = true ↔ valid_name name).
Proof.
  unfold is_valid_account_name, valid_name.
  destruct (Nat.ltb_spec (List.length name) freezone_MIN_ACCOUNT_NAME_LENGTH); [exists false; split; [done|]; intuition (done || lia)|].
  destruct (Nat.ltb_spec freezone_MAX_ACCOUNT_NAME_LENGTH (List.length name)); [exists false; split; [done|]; intuition (done || lia)|].
  destruct (name_loop_spec (S (List.length name)) [] name ltac:(lia)) as (b & Hb & Hiff).
  exists b. split; [exact Hb|]. rewrite Hiff. intuition lia.
Qed.

(** The check on strings that the operations use. *)
Definition valid_account_name (name : string) : bool :=
  match is_valid_account_name (list_ascii_of_string name) with Some b => b | None => false end.

Definition validate_account_name (name : string) : res unit := fc_assert (valid_account_name name).

Example names_checked :
  valid_account_name "alice" = true ∧ valid_account_name "a-b.c0d" = true ∧ valid_account_name "ab.cde" = false
  ∧ valid_account_name "abc." = false ∧ valid_account_name "abc-" = false ∧ valid_account_name "Bob" = false.
Proof. by vm_compute. Qed.
