(* ===== verification/Authority.v ===== *)
(** * Authorities and signatures

    protocol/authority.cpp, sign_state.cpp and [verify_authority] of
    transaction_util.hpp: an authority is a weighted threshold over keys and
    over accounts, whose own authority must be satisfied in turn.
    [sign_state] evaluates it with a depth limit, a membership limit and a
    budget of account lookups, remembering which signatures it used and which
    accounts it has approved. *)

From S2P Require Import Prelude AccountName.
From stdpp Require Import gmap strings.
#[local] Open Scope Z_scope.

Definition freezone_MAX_SIG_CHECK_DEPTH : nat := 2.
Definition freezone_MAX_SIG_CHECK_ACCOUNTS : Z := 125.
Definition freezone_MAX_AUTHORITY_MEMBERSHIP : Z := 40.

(** A public key is used only through equality and order; it is represented by
    its encoding as a number. *)
Abbreviation public_key := Z.
Abbreviation name := string.

(** The flat maps are listed in key order. *)
Record authority : Type := Authority {
  weight_threshold : Z;              (* uint32_t *)
  account_auths : list (name * Z);   (* weights are uint16_t *)
  key_auths : list (public_key * Z)
}.

(** ** authority.cpp *)

(** [operator []] of a flat map: overwrites, or inserts in order. *)
Fixpoint put_auth {A} (ltb eqb : A → A → bool) (k : A) (w : Z) (l : list (A * Z)) : list (A * Z) :=
  match l with
  | [] => [(k, w)]
  | (k', w') :: l =>
      if eqb k k' then (k, w) :: l
      else if ltb k k' then (k, w) :: (k', w') :: l
      else (k', w') :: put_auth ltb eqb k w l
  end.

Definition add_key_authority (k : public_key) (w : Z) (a : authority) : authority :=
  Authority (weight_threshold a) (account_auths a) (put_auth Z.ltb Z.eqb k w (key_auths a)).
Definition add_account_authority (k : name) (w : Z) (a : authority) : authority :=
  Authority (weight_threshold a) (put_auth String.ltb String.eqb k w (account_auths a)) (key_auths a).

Definition get_keys (a : authority) : list public_key := (key_auths a).*1.

Definition is_impossible (a : authority) : bool :=
  let auth_weights := foldl (λ t i, u64 (t + i.2)) 0 (account_auths a) in
  let auth_weights := foldl (λ t i, u64 (t + i.2)) auth_weights (key_auths a) in
  auth_weights <? weight_threshold a.

Definition num_auths (a : authority) : Z := u32 (Z.of_nat (length (account_auths a) + length (key_auths a))).
Definition clear (a : authority) : authority := Authority (weight_threshold a) [] [].

Definition authority_validate (a : authority) : res unit :=
  res_fold (λ _ i, fc_assert (valid_account_name i.1)) tt (account_auths a).

(** ** sign_state.cpp *)

(** [provided_signatures] maps each signing key to whether it was used.
    [account_auth_count] is the counter that [check_authority] passes by
    pointer. *)
Record sign_state : Type := SignState {
  provided_signatures : gmap public_key bool;
  approved_by : gset name;
  account_auth_count : Z
}.

Section SignState.

Context (get_active : name → res authority) (available_keys : gset public_key).
Context (max_membership max_account_auths : Z).

Definition signed_by (k : public_key) (s : sign_state) : bool * sign_state :=
  let mark := SignState (<[k := true]> (provided_signatures s)) (approved_by s) (account_auth_count s) in
  match provided_signatures s !! k with
  | None => if decide (k ∈ available_keys) then (true, mark) else (false, s)
  | Some _ => (true, mark)
  end.

(** A loop of [check_authority_impl] either returns a value or falls through
    with the weight and membership reached. *)
Inductive loop_result : Type :=
| Return (b : bool)
| Fall (total_weight membership : Z).

Fixpoint key_loop (threshold : Z) (keys : list (public_key * Z)) (total_weight membership : Z) (s : sign_state)
    : loop_result * sign_state :=
  match keys with
  | [] => (Fall total_weight membership, s)
  | (k, w) :: keys =>
      let '(b, s) := signed_by k s in
      let total_weight := if b then u32 (total_weight + w) else total_weight in
      if b && (threshold <=? total_weight) then (Return true, s)
      else
        let membership := membership + 1 in
        if (0 <? max_membership) && (max_membership <=? membership) then (Return false, s)
        else key_loop threshold keys total_weight membership s
  end.

Definition approve (n : name) (s : sign_state) : sign_state :=
  SignState (provided_signatures s) ({[n]} ∪ approved_by s) (account_auth_count s).
Definition count_account (s : sign_state) : sign_state :=
  SignState (provided_signatures s) (approved_by s) (u32 (account_auth_count s + 1)).

(** [check] is the recursive call one level deeper, [None] at the depth
    limit. *)
Fixpoint account_loop (check : option (authority → sign_state → res (bool * sign_state)))
    (threshold : Z) (accts : list (name * Z)) (total_weight membership : Z) (s : sign_state)
    : res (loop_result * sign_state) :=
  match accts with
  | [] => mret (Fall total_weight membership, s)
  | (n, w) :: accts =>
      let next total_weight s :=
        let membership := membership + 1 in
        if (0 <? max_membership) && (max_membership <=? membership) then mret (Return false, s)
        else account_loop check threshold accts total_weight membership s in
      let add s :=
        let total_weight := u32 (total_weight + w) in
        if threshold <=? total_weight then mret (Return true, s) else next total_weight s in
      if decide (n ∈ approved_by s) then add s
      else
        match check with
        | None => account_loop check threshold accts total_weight membership s
        | Some check =>
            if (0 <? max_account_auths) && (max_account_auths <=? account_auth_count s)
            then mret (Return false, s)
            else
              let s := count_account s in
              auth ← get_active n;
              '(b, s) ← check auth s;
              if (b : bool) then add (approve n s) else next total_weight s
        end
  end.

(** [depth] is what remains of [max_recursion]. *)
Fixpoint check_authority_impl (depth : nat) (auth : authority) (s : sign_state) : res (bool * sign_state) :=
  let check := match depth with O => None | S depth => Some (check_authority_impl depth) end in
  match key_loop (weight_threshold auth) (key_auths auth) 0 0 s with
  | (Return b, s) => mret (b, s)
  | (Fall total_weight membership, s) =>
      '(r, s) ← account_loop check (weight_threshold auth) (account_auths auth) total_weight membership s;
      match r with
      | Return b => mret (b, s)
      | Fall total_weight _ => mret (weight_threshold auth <=? total_weight, s)
      end
  end.

Definition set_count (c : Z) (s : sign_state) : sign_state :=
  SignState (provided_signatures s) (approved_by s) c.

(** The two overloads of [check_authority]. *)
Definition check_authority_of (max_recursion : nat) (id : name) (s : sign_state) : res (bool * sign_state) :=
  if decide (id ∈ approved_by s) then mret (true, s)
  else
    auth ← get_active id;
    check_authority_impl max_recursion auth (set_count 1 s).

Definition check_authority (max_recursion : nat) (auth : authority) (s : sign_state) : res (bool * sign_state) :=
  check_authority_impl max_recursion auth (set_count 0 s).

End SignState.

(** Returns whether a signature was removed. *)
Definition remove_unused_signatures (s : sign_state) : bool * sign_state :=
  let kept := filter (λ kb, kb.2 = true) (provided_signatures s) in
  (bool_decide (kept ≠ provided_signatures s), SignState kept (approved_by s) (account_auth_count s)).

Definition make_sign_state (sigs : gset public_key) : sign_state :=
  SignState (gset_to_gmap false sigs) {["temp"]} 0.

(** ** verify_authority (transaction_util.hpp) *)

Record required : Type := Required {
  required_active : list name;
  required_owner : list name;
  required_posting : list name;
  required_other : list authority
}.

Section Verify.

Context (get_active get_owner get_posting : name → res authority).
Context (max_recursion_depth : nat) (max_membership max_account_auths : Z).
Context (active_approvals owner_approvals posting_approvals : gset name).

(** [a || b] on checks that change the state. *)
Definition or_else (a b : sign_state → res (bool * sign_state)) (s : sign_state) : res (bool * sign_state) :=
  '(r, s) ← a s;
  if (r : bool) then mret (true, s) else b s.

Definition assert_check (e : exn) (a : sign_state → res (bool * sign_state)) (s : sign_state) : res sign_state :=
  '(r, s) ← a s;
  _ ← check e r;
  mret s.

(** The evaluation of an authority with nested accounts looked up by
    [getter]. *)
Definition by_auth (getter : name → res authority) (auth_of : name → res authority) (id : name) (s : sign_state)
    : res (bool * sign_state) :=
  auth ← auth_of id;
  check_authority getter ∅ max_membership max_account_auths max_recursion_depth auth s.

Definition by_name (getter : name → res authority) (id : name) (s : sign_state) : res (bool * sign_state) :=
  check_authority_of getter ∅ max_membership max_account_auths max_recursion_depth id s.

Definition reject_unused (s : sign_state) : res unit :=
  check tx_irrelevant_sig (negb (fst (remove_unused_signatures s))).

Definition add_approvals (ids : gset name) (s : sign_state) : sign_state :=
  SignState (provided_signatures s) (ids ∪ approved_by s) (account_auth_count s).

Definition verify_authority (req : required) (sigs : gset public_key) : res unit :=
  if negb (length (required_posting req) =? 0)%nat then
    _ ← fc_assert (length (required_active req) =? 0)%nat;
    _ ← fc_assert (length (required_owner req) =? 0)%nat;
    _ ← fc_assert (length (required_other req) =? 0)%nat;
    let s := add_approvals posting_approvals (make_sign_state sigs) in
    s ← res_fold (λ s id,
          assert_check tx_missing_posting_auth
            (or_else (by_name get_posting id)
               (or_else (by_auth get_posting get_active id) (by_auth get_posting get_owner id))) s)
        s (required_posting req);
    reject_unused s
  else
    let s := add_approvals owner_approvals (add_approvals active_approvals (make_sign_state sigs)) in
    s ← res_fold (λ s auth,
          assert_check tx_missing_other_auth
            (check_authority get_active ∅ max_membership max_account_auths max_recursion_depth auth) s)
        s (required_other req);
    s ← res_fold (λ s id,
          assert_check tx_missing_active_auth
            (or_else (by_name get_active id) (by_auth get_active get_owner id)) s)
        s (required_active req);
    s ← res_fold (λ s id,
          if decide (id ∈ owner_approvals) then mret s
          else assert_check tx_missing_owner_auth (by_auth get_active get_owner id) s)
        s (required_owner req);
    reject_unused s.

End Verify.

(** ** What it means to satisfy an authority *)

Definition weights {A} (l : list (A * Z)) : Z := foldr Z.add 0 l.*2.

Section Soundness.

Context (get_active : name → res authority).
(** The keys that signed (or are available) and the accounts approved from the
    outset. *)
Context (keys : gset public_key) (approved : gset name).

(** Enough weight of distinct members: keys that signed, and accounts that are
    approved or whose authority is satisfied in turn. *)
Inductive satisfied : authority → Prop :=
| satisfied_intro auth ks accts :
    ks `sublist_of` key_auths auth → Forall (λ kw, kw.1 ∈ keys) ks →
    accts `sublist_of` account_auths auth →
    Forall (λ nw, nw.1 ∈ approved ∨ ∃ a, get_active nw.1 = Ok a ∧ satisfied a) accts →
    weight_threshold auth <= weights ks + weights accts →
    satisfied auth.

Definition justified (n : name) : Prop := n ∈ approved ∨ ∃ a, get_active n = Ok a ∧ satisfied a.

Definition wf_authority (a : authority) : Prop :=
  Forall (λ kw, 0 <= kw.2) (key_auths a) ∧ Forall (λ nw, 0 <= nw.2) (account_auths a).

(** What a state knows is justified. *)
Definition sound_state (s : sign_state) : Prop :=
  dom (provided_signatures s) ⊆ keys ∧ ∀ n, n ∈ approved_by s → justified n.

Context (available_keys : gset public_key) (Havail : available_keys ⊆ keys).
Context (max_membership max_account_auths : Z).
Context (Hactive : ∀ n a, get_active n = Ok a → wf_authority a).

Lemma u32_le x : 0 <= x → 0 <= u32 x <= x.
Proof. intros H. split; [apply wrapu_in; lia|]. apply Z.mod_le; lia. Qed.

Lemma signed_by_sound k s b s' :
  sound_state s → signed_by available_keys k s = (b, s') → sound_state s' ∧ (b = true → k ∈ keys).
Proof.
  intros [Hd Ha] H. unfold signed_by in H.
  assert (k ∈ keys → sound_state (SignState (<[k := true]> (provided_signatures s)) (approved_by s) (account_auth_count s))) as Hm.
  { intros Hk. split; [|done]. simpl. rewrite dom_insert. set_solver. }
  destruct (provided_signatures s !! k) as [x|] eqn:E.
  - assert (k ∈ keys) by (apply Hd, elem_of_dom; eauto). injection H as <- <-. auto.
  - case_decide; injection H as <- <-; [|by split].
    assert (k ∈ keys) by set_solver. auto.
Qed.

Lemma key_loop_sound threshold l t m s r s' :
  sound_state s → 0 <= t → Forall (λ kw, 0 <= kw.2) l →
  key_loop available_keys max_membership threshold l t m s = (r, s') →
  sound_state s' ∧ ∃ ks, ks `sublist_of` l ∧ Forall (λ kw, kw.1 ∈ keys) ks ∧
    match r with
    | Return true => threshold <= t + weights ks
    | Return false => True
    | Fall t' _ => 0 <= t' <= t + weights ks
    end.
Proof.
  revert t m s. induction l as [|[k w] l IH]; intros t m s Hs Ht Hw H; cbn [key_loop] in H.
  { injection H as <- <-. split; [done|]. exists []. split; [done|split; [constructor|cbn; lia]]. }
  apply Forall_cons_iff in Hw as [Hw0 Hw]. simpl in Hw0.
  destruct (signed_by available_keys k s) as [b s1] eqn:E.
  destruct (signed_by_sound _ _ _ _ Hs E) as [Hs1 Hk].
  destruct b; cbn [andb] in H.
  - specialize (Hk eq_refl). pose proof (u32_le (t + w) ltac:(lia)) as Hu.
    destruct (Z.leb_spec threshold (u32 (t + w))).
    { injection H as <- <-. split; [done|]. exists [(k, w)].
      split_and!; [apply sublist_skip, sublist_nil_l|constructor; [done|constructor]|cbn; lia]. }
    case_match; [injection H as <- <-; split; [done|]; exists []; split_and!; [apply sublist_nil_l|constructor|done]|].
    apply IH in H as [Hs' (ks & Hsub & Hin & Hr)]; [|done|lia|done]. split; [done|]. exists ((k, w) :: ks).
    split_and!; [by apply sublist_skip|by constructor|]. unfold weights in *. cbn. repeat case_match; cbn in *; lia.
  - case_match; [injection H as <- <-; split; [done|]; exists []; split_and!; [apply sublist_nil_l|constructor|done]|].
    apply IH in H as [Hs' (ks & Hsub & Hin & Hr)]; [|done..]. split; [done|]. exists ks.
    split_and!; [by apply sublist_cons|done|done].
Qed.

Lemma account_loop_sound check threshold l t m s r s' :
  match check with
  | None => True
  | Some f => ∀ auth s b s', wf_authority auth → sound_state s → f auth s = Ok (b, s') →
                sound_state s' ∧ (b = true → satisfied auth)
  end →
  sound_state s → 0 <= t → Forall (λ nw, 0 <= nw.2) l →
  account_loop get_active max_membership max_account_auths check threshold l t m s = Ok (r, s') →
  sound_state s' ∧ ∃ accts, accts `sublist_of` l ∧ Forall (λ nw, justified nw.1) accts ∧
    match r with
    | Return true => threshold <= t + weights accts
    | Return false => True
    | Fall t' _ => 0 <= t' <= t + weights accts
    end.
Proof.
  intros Hcheck. revert t m s. induction l as [|[n w] l IH]; intros t m s Hs Ht Hw H; cbn [account_loop] in H.
  { injection H as <- <-. split; [done|]. exists []. split; [done|split; [constructor|cbn; lia]]. }
  apply Forall_cons_iff in Hw as [Hw0 Hw]. simpl in Hw0. pose proof (u32_le (t + w) ltac:(lia)) as Hu.
  assert (∀ s0 m0, sound_state s0 → (if (0 <? max_membership) && (max_membership <=? m0) then mret (Return false, s0)
      else account_loop get_active max_membership max_account_auths check threshold l t m0 s0) = Ok (r, s') →
      sound_state s' ∧ ∃ accts, accts `sublist_of` (n, w) :: l ∧ Forall (λ nw, justified nw.1) accts ∧
        match r with Return true => threshold <= t + weights accts | Return false => True
        | Fall t' _ => 0 <= t' <= t + weights accts end) as Hskip.
  { intros s0 m0 Hs0 H0. case_match.
    - injection H0 as <- <-. split; [done|]. exists []. split_and!; [apply sublist_nil_l|constructor|done].
    - apply IH in H0 as [Hs' (accts & Hsub & Hin & Hr)]; [|done..]. split; [done|]. exists accts.
      split_and!; [by apply sublist_cons|done|done]. }
  assert (∀ s0, justified n → sound_state s0 → (if threshold <=? u32 (t + w) then mret (Return true, s0)
      else if (0 <? max_membership) && (max_membership <=? m + 1) then mret (Return false, s0)
      else account_loop get_active max_membership max_account_auths check threshold l (u32 (t + w)) (m + 1) s0) = Ok (r, s') →
      sound_state s' ∧ ∃ accts, accts `sublist_of` (n, w) :: l ∧ Forall (λ nw, justified nw.1) accts ∧
        match r with Return true => threshold <= t + weights accts | Return false => True
        | Fall t' _ => 0 <= t' <= t + weights accts end) as Hadd.
  { intros s0 Hj Hs0 H0. destruct (Z.leb_spec threshold (u32 (t + w))).
    { injection H0 as <- <-. split; [done|]. exists [(n, w)].
      split_and!; [apply sublist_skip, sublist_nil_l|constructor; [done|constructor]|cbn; lia]. }
    case_match; [injection H0 as <- <-; split; [done|]; exists []; split_and!; [apply sublist_nil_l|constructor|done]|].
    apply IH in H0 as [Hs' (accts & Hsub & Hin & Hr)]; [|done|lia|done]. split; [done|]. exists ((n, w) :: accts).
    split_and!; [by apply sublist_skip|by constructor|]. unfold weights in *. cbn. repeat case_match; cbn in *; lia. }
  case_decide as Hin; [apply (Hadd s); [by apply Hs|done|done]|].
  destruct check as [f|].
  - destruct ((0 <? max_account_auths) && (max_account_auths <=? account_auth_count s));
      [injection H as <- <-; split; [done|]; exists []; split_and!; [apply sublist_nil_l|constructor|done]|].
    apply bind_Ok in H as (auth & Hauth & H). apply bind_Ok in H as ([b s1] & Hf & H).
    apply Hcheck in Hf as [Hs1 Hb]; [|by eapply Hactive|done]. destruct b; [|by apply (Hskip s1 (m + 1))].
    assert (justified n) as Hj by (right; eauto). apply (Hadd (approve n s1)); [done| |done].
    split; [apply Hs1|]. simpl. intros x. rewrite elem_of_union, elem_of_singleton. intros [->|Hx]; [done|by apply Hs1].
  - apply IH in H as [Hs' (accts & Hsub & Hin' & Hr)]; [|done..]. split; [done|]. exists accts.
    split_and!; [by apply sublist_cons|done|done].
Qed.

Lemma check_authority_impl_sound depth auth s b s' :
  wf_authority auth → sound_state s →
  check_authority_impl get_active available_keys max_membership max_account_auths depth auth s = Ok (b, s') →
  sound_state s' ∧ (b = true → satisfied auth).
Proof.
  revert auth s b s'. induction depth as [|depth IH]; intros auth s b s' [Hk Ha] Hs H; cbn [check_authority_impl] in H;
    destruct (key_loop _ _ _ _ _ _ _) as [r s1] eqn:E1;
    (apply key_loop_sound in E1 as [Hs1 (ks & Hsub & Hin & Hr)]; [|done|lia|done]);
    (destruct r as [[]|t m]; [injection H as <- <-; split; [done|]; intros _;
       apply (satisfied_intro auth ks []); [done|done|apply sublist_nil_l|constructor|cbn in *; lia]
      |injection H as <- <-; done|]);
    apply bind_Ok in H as ([r' s2] & E2 & H);
    (apply account_loop_sound in E2 as [Hs2 (accts & Hsub2 & Hin2 & Hr2)]; [|by intros; eauto|done|lia|done]);
    (destruct r' as [[]|t' m']; injection H as <- <-; (split; [done|]); intros Hb; try done;
       apply (satisfied_intro auth ks accts); try done; bools; lia).
Qed.

End Soundness.

(** ** verify_authority *)

Section VerifySound.

Context (get_active get_owner get_posting : name → res authority).
Context (max_recursion_depth : nat) (max_membership max_account_auths : Z).
Context (active_approvals owner_approvals posting_approvals : gset name).
Context (Ha : ∀ n a, get_active n = Ok a → wf_authority a).
Context (Ho : ∀ n a, get_owner n = Ok a → wf_authority a).
Context (Hp : ∀ n a, get_posting n = Ok a → wf_authority a).

Section OneGetter.

Context (getter : name → res authority) (Hgetter : ∀ n a, getter n = Ok a → wf_authority a).
Context (sigs : gset public_key) (approved : gset name).
Abbreviation sound := (sound_state getter sigs approved).
Abbreviation sat := (satisfied getter sigs approved).

(** A check is sound for [P] when it keeps the state sound and implies [P]. *)
Definition sound_check (P : Prop) (f : sign_state → res (bool * sign_state)) : Prop :=
  ∀ s b s', sound s → f s = Ok (b, s') → sound s' ∧ (b = true → P).

Lemma or_else_sound P Q f g : sound_check P f → sound_check Q g → sound_check (P ∨ Q) (or_else f g).
Proof.
  intros Hf Hg s b s' Hs H. unfold or_else in H. apply bind_Ok in H as ([r s1] & H1 & H).
  destruct (Hf _ _ _ Hs H1) as [Hs1 HP]. destruct r.
  - injection H as <- <-. auto.
  - destruct (Hg _ _ _ Hs1 H) as [? ?]. auto.
Qed.

Lemma check_authority_sound auth :
  wf_authority auth →
  sound_check (sat auth) (check_authority getter ∅ max_membership max_account_auths max_recursion_depth auth).
Proof.
  intros Hw s b s' [Hs1 Hs2] H. unfold check_authority in H.
  eapply check_authority_impl_sound in H; eauto; [set_solver|by split].
Qed.

Lemma by_auth_sound auth_of id :
  (∀ n a, auth_of n = Ok a → wf_authority a) →
  sound_check (∃ a, auth_of id = Ok a ∧ sat a)
    (by_auth max_recursion_depth max_membership max_account_auths getter auth_of id).
Proof.
  intros Hwf s b s' Hs H. unfold by_auth in H. apply bind_Ok in H as (a & Ea & H).
  destruct (check_authority_sound a (Hwf _ _ Ea) s b s' Hs H) as [? ?]. split; [done|]. eauto.
Qed.

Lemma by_name_sound id :
  sound_check (justified getter sigs approved id)
    (by_name max_recursion_depth max_membership max_account_auths getter id).
Proof.
  intros s b s' Hs H. unfold by_name, check_authority_of in H. case_decide.
  - injection H as <- <-. split; [done|]. intros _. by apply Hs.
  - apply bind_Ok in H as (a & Ea & H).
    eapply check_authority_impl_sound in H; [..|exact Hs]; eauto; [|set_solver].
    destruct H as [? Hb]. split; [done|]. intros Et. right. eauto.
Qed.

Lemma assert_check_sound e P f s s' :
  sound_check P f → sound s → assert_check e f s = Ok s' → sound s' ∧ P.
Proof.
  intros Hf Hs H. unfold assert_check in H. apply bind_Ok in H as ([r s1] & H1 & H).
  apply bind_Ok in H as ([] & Hc & H). apply check_Ok in Hc. injection H as <-. subst.
  destruct (Hf _ _ _ Hs H1) as [? ?]. auto.
Qed.

Lemma fold_sound {A} (P : A → Prop) (f : sign_state → A → res sign_state) l s s' :
  res_fold f s l = Ok s' → sound s → (∀ s a s', a ∈ l → sound s → f s a = Ok s' → sound s' ∧ P a) →
  sound s' ∧ Forall P l.
Proof.
  revert s. induction l as [|a l IH]; intros s H Hs Hf; simpl in H.
  { injection H as <-. done. }
  apply bind_Ok in H as (s1 & H1 & H). destruct (Hf s a s1) as [Hs1 HP]; [by left|done|done|].
  destruct (IH s1) as [? ?]; [done|done| |by split; [|constructor]].
  intros. eapply Hf; eauto. by right.
Qed.

Lemma initial_sound s : dom (provided_signatures s) = sigs → approved_by s = approved → sound s.
Proof. intros Hd Hs. split; [by rewrite Hd|]. intros n Hn. left. by rewrite <- Hs. Qed.

End OneGetter.

(** C15: a transaction that passes [verify_authority] is authorised.  If posting
    authority is required, nothing else is, and each required account was
    approved beforehand or its posting, active or owner authority is satisfied
    by the signing keys; otherwise the same holds for each extra authority,
    each required active (by the active or owner authority) and each required
    owner.  Nested accounts are resolved at the level being checked. *)
Theorem verify_authority_sound req sigs :
  Forall wf_authority (required_other req) →
  verify_authority get_active get_owner get_posting max_recursion_depth max_membership max_account_auths
    active_approvals owner_approvals posting_approvals req sigs = Ok tt →
  let temp := {["temp"]} in
  if decide (required_posting req = []) then
    let sat := satisfied get_active sigs (owner_approvals ∪ (active_approvals ∪ temp)) in
    Forall sat (required_other req)
    ∧ Forall (λ id, id ∈ owner_approvals ∪ (active_approvals ∪ temp)
                    ∨ ∃ a, (get_active id = Ok a ∨ get_owner id = Ok a) ∧ sat a) (required_active req)
    ∧ Forall (λ id, id ∈ owner_approvals ∨ ∃ a, get_owner id = Ok a ∧ sat a) (required_owner req)
  else
    required_active req = [] ∧ required_owner req = [] ∧ required_other req = []
    ∧ Forall (λ id, id ∈ posting_approvals ∪ temp
        ∨ ∃ a, (get_posting id = Ok a ∨ get_active id = Ok a ∨ get_owner id = Ok a)
               ∧ satisfied get_posting sigs (posting_approvals ∪ temp) a) (required_posting req).
Proof.
  intros Hother H temp. unfold verify_authority in H.
  case_decide as Hpost.
  - rewrite Hpost in H. cbn [length Nat.eqb negb] in H.
    set (appr := owner_approvals ∪ (active_approvals ∪ temp)).
    apply bind_Ok in H as (s1 & H1 & H). apply bind_Ok in H as (s2 & H2 & H). apply bind_Ok in H as (s3 & H3 & _).
    set (sat := satisfied get_active sigs appr).
    assert (sound_state get_active sigs appr
      (add_approvals owner_approvals (add_approvals active_approvals (make_sign_state sigs)))) as Hs0.
    { apply initial_sound; [apply dom_gset_to_gmap|done]. }
    destruct (fold_sound get_active sigs appr sat _ _ _ _ H1 Hs0
      ltac:(intros s a s' Hin Hs E; eapply assert_check_sound; [|exact Hs|exact E];
            apply check_authority_sound; [done|]; rewrite Forall_forall in Hother; by apply Hother)) as [Hs1 R1].
    destruct (fold_sound get_active sigs appr
      (λ id, justified get_active sigs appr id ∨ ∃ a, get_owner id = Ok a ∧ sat a) _ _ _ _ H2 Hs1
      ltac:(intros s id s' _ Hs E; eapply assert_check_sound; [|exact Hs|exact E];
            apply or_else_sound; [by apply by_name_sound|by apply by_auth_sound])) as [Hs2 R2].
    destruct (fold_sound get_active sigs appr (λ id, id ∈ owner_approvals ∨ ∃ a, get_owner id = Ok a ∧ sat a) _ _ _ _ H3 Hs2
      ltac:(intros s id s' _ Hs E; cbn beta in E; case_decide; [injection E as <-; auto|];
            eapply (assert_check_sound get_active sigs appr _ (∃ a, get_owner id = Ok a ∧ sat a)) in E as [? ?];
            [auto|by apply by_auth_sound|done])) as [_ R3].
    split_and!; [done| |done]. eapply Forall_impl; [exact R2|]. intros id [[?|(a & ? & ?)]|(a & ? & ?)]; eauto 6.
  - destruct (required_posting req) as [|p ps] eqn:Ep; [done|]. cbn [length Nat.eqb negb] in H.
    apply bind_Ok in H as ([] & E1 & H). apply bind_Ok in H as ([] & E2 & H). apply bind_Ok in H as ([] & E3 & H).
    apply fc_assert_Ok, Nat.eqb_eq, nil_length_inv in E1, E2, E3.
    apply bind_Ok in H as (s1 & H1 & _). set (appr := posting_approvals ∪ temp).
    assert (sound_state get_posting sigs appr (add_approvals posting_approvals (make_sign_state sigs))) as Hs0.
    { apply initial_sound; [apply dom_gset_to_gmap|done]. }
    destruct (fold_sound get_posting sigs appr (λ id, justified get_posting sigs appr id
        ∨ ((∃ a, get_active id = Ok a ∧ satisfied get_posting sigs appr a)
           ∨ ∃ a, get_owner id = Ok a ∧ satisfied get_posting sigs appr a)) _ _ _ _ H1 Hs0
      ltac:(intros s id s' _ Hs E; eapply assert_check_sound; [|exact Hs|exact E];
            apply or_else_sound; [by apply by_name_sound|]; apply or_else_sound; by apply by_auth_sound)) as [_ R].
    split_and!; [done..|]. eapply Forall_impl; [exact R|].
    intros id [[?|(a & ? & ?)]|[(a & ? & ?)|(a & ? & ?)]]; eauto 8.
Qed.

End VerifySound.

(** Alice's active authority is two of: her key, and Bob, who has a key. *)
Definition sample_active (n : name) : res authority :=
  if decide (n = "alice") then mret (Authority 2 [("bob", 1)] [(11, 1)])
  else if decide (n = "bob") then mret (Authority 1 [] [(22, 1)])
  else Throw out_of_range.

Lemma sample_active_wf n a : sample_active n = Ok a → wf_authority a.
Proof.
  unfold sample_active. intros H. repeat case_decide; [injection H as <-..|done]; split; repeat constructor; done.
Qed.

Lemma verify_authority_sound_witness :
  satisfied sample_active {[11; 22]} (∅ ∪ (∅ ∪ {["temp"]})) (Authority 2 [("bob", 1)] [(11, 1)]).
Proof.
  destruct (verify_authority_sound sample_active sample_active sample_active 2 40 125 ∅ ∅ ∅
    sample_active_wf sample_active_wf sample_active_wf
    (Required ["alice"] [] [] []) {[11; 22]}) as (_ & H & _); [constructor|vm_compute; reflexivity|].
  cbn in H. apply Forall_cons_iff in H as [[H|(a & [H|H] & Hs)] _]; [exfalso; set_solver| |];
    vm_compute in H; injection H as <-; exact Hs.
Defined.

(** One of the two signatures does not do. *)
Example missing_signature :
  verify_authority sample_active sample_active sample_active 2 40 125 ∅ ∅ ∅ (Required ["alice"] [] [] []) {[11]}
  = Throw tx_missing_active_auth
  ∧ verify_authority sample_active sample_active sample_active 2 40 125 ∅ ∅ ∅ (Required ["alice"] [] [] []) {[11; 22; 33]}
    = Throw tx_irrelevant_sig.
Proof. split; vm_compute; reflexivity. Qed.
