(* ===== verification/Uint128.v ===== *)
(** * fc::uint128

    The 128-bit unsigned integer of libraries/fc/include/fc/uint128.hpp and
    libraries/fc/src/uint128.cpp, as a pair of 64-bit halves with the
    operators written out on the halves.  [to_Z] is the abstraction function;
    every operator is shown to be the corresponding operation on [Z] modulo
    2^128, the shift-subtract long division is shown to terminate with
    quotient and remainder, and decimal printing is shown to be inverted by
    the parsing constructor.  The other components compute with [Z] and wrap
    at 128 bits, which these theorems license. *)

From S2P Require Import Prelude.
From Stdlib Require Import Ascii String.

Record uint128 : Set := U128 { hi : Z; lo : Z }.

Definition wf (a : uint128) : Prop := in_u 64 (hi a) ∧ in_u 64 (lo a).

Definition to_Z (a : uint128) : Z := hi a * 2 ^ 64 + lo a.

Definition u128 : Z → Z := wrapu 128.

(** ** Constructors, comparisons and conversions (uint128.hpp) *)

Definition uint128_of_u64 (l : Z) : uint128 := U128 0 l.

Definition uint128_of_i64 (l : Z) : uint128 :=
  U128 (u64 (- b2z (l <? 0))) (u64 l).

Definition eqb (a o : uint128) : bool := (hi a =? hi o) && (lo a =? lo o).

Definition ltb (a o : uint128) : bool :=
  if hi a =? hi o then lo a <? lo o else hi a <? hi o.

Definition geb (l r : uint128) : bool := eqb l r || ltb r l.

Definition to_integer (a : uint128) : res Z :=
  _ ← fc_assert (hi a =? 0);
  let lo32 := u32 (lo a) in
  _ ← fc_assert (lo a =? lo32);
  mret lo32.

Definition to_uint64 (a : uint128) : res Z :=
  _ ← fc_assert (hi a =? 0);
  mret (lo a).

Definition to_int64 (a : uint128) : res Z :=
  _ ← fc_assert (hi a =? 0);
  _ ← fc_assert (lo a <=? int64_max);
  mret (i64 (lo a)).

(** ** Increment, negation, addition, bitwise operators (uint128.hpp) *)

Definition inc (a : uint128) : uint128 :=
  let lo' := u64 (lo a + 1) in
  U128 (u64 (hi a + b2z (lo' =? 0))) lo'.

Definition dec (a : uint128) : uint128 :=
  U128 (u64 (hi a - b2z (lo a =? 0))) (u64 (lo a - 1)).

Definition bnot (a : uint128) : uint128 :=
  U128 (u64 (Z.lnot (hi a))) (u64 (Z.lnot (lo a))).

Definition neg (a : uint128) : uint128 := inc (bnot a).

Definition or_assign (a u : uint128) : uint128 :=
  U128 (Z.lor (hi a) (hi u)) (Z.lor (lo a) (lo u)).

Definition and_assign (a u : uint128) : uint128 :=
  U128 (Z.land (hi a) (hi u)) (Z.land (lo a) (lo u)).

Definition xor_assign (a u : uint128) : uint128 :=
  U128 (Z.lxor (hi a) (hi u)) (Z.lxor (lo a) (lo u)).

(** The binary [operator |]: its body is [uint128(l)=(r)], an assignment. *)
Definition op_or (l r : uint128) : uint128 := r.

Definition add_assign (a u : uint128) : uint128 :=
  let old := lo a in
  let lo' := u64 (lo a + lo u) in
  U128 (u64 (hi a + u64 (hi u + b2z (lo' <? old)))) lo'.

Definition sub_assign (a u : uint128) : uint128 := add_assign a (neg u).

(** ** Shifts (uint128.cpp) *)

Definition shl_assign (a rhs : uint128) : res uint128 :=
  if geb rhs (uint128_of_u64 128) then mret (U128 0 0)
  else
    n ← to_integer rhs;
    let '(h, l, n) := if 64 <=? n then (lo a, 0, n - 64) else (hi a, lo a, n) in
    if negb (n =? 0) then
      let h := u64 (Z.shiftl h n) in
      let mask := u64 (Z.lnot (Z.shiftr uint64_max n)) in
      let h := Z.lor h (Z.shiftr (Z.land l mask) (64 - n)) in
      mret (U128 h (u64 (Z.shiftl l n)))
    else mret (U128 h l).

Definition shr_assign (a rhs : uint128) : res uint128 :=
  if geb rhs (uint128_of_u64 128) then mret (U128 0 0)
  else
    n ← to_integer rhs;
    let '(h, l, n) := if 64 <=? n then (0, hi a, n - 64) else (hi a, lo a, n) in
    if negb (n =? 0) then
      let l := Z.shiftr l n in
      let mask := u64 (Z.lnot (u64 (Z.shiftl uint64_max n))) in
      let l := Z.lor l (u64 (Z.shiftl (Z.land h mask) (64 - n))) in
      mret (U128 (Z.shiftr h n) l)
    else mret (U128 h l).

(** ** Multiplication (uint128.cpp)

    [limb32 x k] is the cast [(uint32_t)( x >> k )]. *)

Definition limb32 (x k : Z) : Z := u32 (Z.shiftr x k).

Definition add_u64 (a : uint128) (x : Z) : uint128 :=
  add_assign a (uint128_of_u64 (u64 x)).

Definition mul_assign (a b : uint128) : res uint128 :=
  let a0 := limb32 (lo a) 0 in
  let a1 := limb32 (lo a) 32 in
  let a2 := limb32 (hi a) 0 in
  let a3 := limb32 (hi a) 32 in
  let b0 := limb32 (lo b) 0 in
  let b1 := limb32 (lo b) 32 in
  let b2 := limb32 (hi b) 0 in
  let b3 := limb32 (hi b) 32 in
  let t := U128 0 (u64 (a3 * b0)) in
  let t := add_u64 t (a2 * b1) in
  let t := add_u64 t (a1 * b2) in
  let t := add_u64 t (a0 * b3) in
  t ← shl_assign t (uint128_of_u64 32);
  let t := add_u64 t (a2 * b0) in
  let t := add_u64 t (a1 * b1) in
  let t := add_u64 t (a0 * b2) in
  t ← shl_assign t (uint128_of_u64 32);
  let t := add_u64 t (a1 * b0) in
  let t := add_u64 t (a0 * b1) in
  t ← shl_assign t (uint128_of_u64 32);
  mret (add_u64 t (a0 * b0)).

(** [operator /=] goes through the 128-bit integer of the big-integer
    library, whose division truncates and throws on a zero divisor. *)
Definition div_assign (a b : uint128) : res uint128 :=
  let self := hi a * 2 ^ 64 + lo a in
  let other := hi b * 2 ^ 64 + lo b in
  _ ← check overflow_error (negb (other =? 0));
  let self := self / other in
  mret (U128 (u64 (Z.shiftr self 64)) (u64 (Z.shiftr (wrapu 128 (Z.shiftl self 64)) 64))).

Definition full_product (a b : uint128) : res (uint128 * uint128) :=
  let ah := hi a in
  let al := lo a in
  let bh := hi b in
  let bl := lo b in
  s ← mul_assign (uint128_of_u64 al) (uint128_of_u64 bl);
  r ← mul_assign (uint128_of_u64 ah) (uint128_of_u64 bl);
  q ← mul_assign (uint128_of_u64 al) (uint128_of_u64 bh);
  p ← mul_assign (uint128_of_u64 ah) (uint128_of_u64 bh);
  let y0 := lo s in
  let acc := uint128_of_u64 (hi s) in
  let acc := add_u64 acc (lo q) in
  let acc := add_u64 acc (lo r) in
  let y1 := lo acc in
  let acc := uint128_of_u64 (hi acc) in
  let acc := add_u64 acc (hi q) in
  let acc := add_u64 acc (hi r) in
  let acc := add_u64 acc (lo p) in
  let y2 := lo acc in
  let y3 := u64 (hi acc + hi p) in
  mret (U128 y3 y2, U128 y1 y0).

(** ** Long division (uint128.cpp, [divide])

    The first loop doubles the divisor at most 127 times, the second halves
    it back; [divide_Ok] shows that the fuel given is enough. *)

Fixpoint divide_up (fuel : nat) (n d x : uint128) : res (uint128 * uint128) :=
  match fuel with
  | O => Throw fuel_exhausted
  | S fuel =>
      t ← shr_assign d (uint128_of_u64 127);
      if geb n d && eqb (and_assign t (uint128_of_u64 1)) (uint128_of_u64 0) then
        x ← shl_assign x (uint128_of_u64 1);
        d ← shl_assign d (uint128_of_u64 1);
        divide_up fuel n d x
      else mret (d, x)
  end.

Fixpoint divide_down (fuel : nat) (n d x answer : uint128) : res (uint128 * uint128) :=
  match fuel with
  | O => Throw fuel_exhausted
  | S fuel =>
      if negb (eqb x (uint128_of_u64 0)) then
        let '(n, answer) :=
          if geb n d then (sub_assign n d, or_assign answer x) else (n, answer) in
        x ← shr_assign x (uint128_of_u64 1);
        d ← shr_assign d (uint128_of_u64 1);
        divide_down fuel n d x answer
      else mret (answer, n)
  end.

Definition divide (numerator denominator : uint128) : res (uint128 * uint128) :=
  if eqb denominator (uint128_of_u64 0) then Throw domain_error
  else
    '(d, x) ← divide_up 128 numerator denominator (uint128_of_u64 1);
    divide_down 129 numerator d x (uint128_of_u64 0).

Definition mod_assign (a b : uint128) : res uint128 :=
  '(_, remainder) ← divide a b;
  mret remainder.

(** ** Decimal strings (uint128.cpp) *)

Definition digit_table : string := "0123456789abcdefghijklmnopqrstuvwxyz".

(** The conversion loop fills the buffer from its end; [i] is the code's own
    index, which bounds the loop. *)
Fixpoint to_string_loop (i : nat) (ii : uint128) (acc : string) : res string :=
  match i with
  | O => mret acc
  | S i =>
      if eqb ii (uint128_of_u64 0) then mret acc
      else
        '(ii, remainder) ← divide ii (uint128_of_u64 10);
        r ← to_integer remainder;
        match String.get (Z.to_nat r) digit_table with
        | Some c => to_string_loop i ii (String c acc)
        | None => Throw out_of_range
        end
  end.

Definition to_string (a : uint128) : res string :=
  if eqb a (uint128_of_u64 0) then mret "0"%string
  else to_string_loop 127 a EmptyString.

Definition char_code (c : ascii) : Z := Z.of_nat (nat_of_ascii c).

(** The value of one digit character in the given radix, [None] for a
    character that ends the number. *)
Definition digit_value (radix : Z) (c : ascii) : option Z :=
  let ch := char_code c in
  if (65 <=? ch) && (ch <=? 90) then
    (if ch - 65 + 10 <? radix then Some (ch - 65 + 10) else None)
  else if (97 <=? ch) && (ch <=? 122) then
    (if ch - 97 + 10 <? radix then Some (ch - 97 + 10) else None)
  else if (48 <=? ch) && (ch <=? 57) then
    (if ch - 48 <? radix then Some (ch - 48) else None)
  else None.

Fixpoint parse_digits (radix : Z) (a : uint128) (s : string) : res uint128 :=
  match s with
  | EmptyString => mret a
  | String c s =>
      match digit_value radix c with
      | None => mret a
      | Some n =>
          a ← mul_assign a (uint128_of_i64 radix);
          parse_digits radix (add_assign a (uint128_of_u64 n)) s
      end
  end.

(** The radix prefix: [0x] is hexadecimal, another leading [0] octal. *)
Definition radix_prefix (s : string) : Z * string :=
  match s with
  | String "0" (String "x" s) => (16, s)
  | String "0" s => (8, s)
  | _ => (10, s)
  end.

(** The sign: an optional leading minus. *)
Definition minus_prefix (sz : string) : bool * string :=
  match sz with
  | String "-" s => (true, s)
  | _ => (false, sz)
  end.

Definition of_string (sz : string) : res uint128 :=
  let '(minus, s) := minus_prefix sz in
  let '(radix, s) := radix_prefix s in
  a ← parse_digits radix (U128 0 0) s;
  mret (if minus then neg a else a).

#[global] Arguments shl_assign : simpl never.
#[global] Arguments shr_assign : simpl never.
#[global] Arguments add_assign : simpl never.
#[global] Arguments sub_assign : simpl never.
#[global] Arguments mul_assign : simpl never.
#[global] Arguments add_u64 : simpl never.
#[global] Arguments divide : simpl never.

(** ** The abstraction to [Z] *)

Lemma to_Z_in a : wf a → in_u 128 (to_Z a).
Proof. unfold wf, to_Z. intros [? ?]. mlia. Qed.

Lemma to_Z_inj a b : wf a → wf b → to_Z a = to_Z b → a = b.
Proof.
  destruct a as [ha la], b as [hb lb]. unfold wf, to_Z; simpl. intros [] [] ?.
  assert (ha = hb ∧ la = lb) as [-> ->] by mlia. done.
Qed.

Lemma of_u64_spec l : in_u 64 l → wf (uint128_of_u64 l) ∧ to_Z (uint128_of_u64 l) = l.
Proof. unfold wf, to_Z; simpl. intros. split; [split; mlia|lia]. Qed.

Lemma of_i64_spec l :
  in_s 64 l → wf (uint128_of_i64 l) ∧ to_Z (uint128_of_i64 l) = u128 l.
Proof.
  intros Hl. unfold wf, to_Z, uint128_of_i64, u128, b2z; simpl.
  destruct (Z.ltb_spec l 0); split; [split; mlia|mlia|split; mlia|mlia].
Qed.

Lemma eqb_spec a b : wf a → wf b → eqb a b = (to_Z a =? to_Z b).
Proof.
  intros [Ha Ha'] [Hb Hb']. unfold eqb, to_Z. apply eq_iff_eq_true.
  rewrite andb_true_iff, !Z.eqb_eq. mlia.
Qed.

Lemma ltb_spec a b : wf a → wf b → ltb a b = (to_Z a <? to_Z b).
Proof.
  intros [Ha Ha'] [Hb Hb']. unfold ltb, to_Z. apply eq_iff_eq_true.
  destruct (Z.eqb_spec (hi a) (hi b)); rewrite !Z.ltb_lt; mlia.
Qed.

Lemma geb_spec a b : wf a → wf b → geb a b = (to_Z b <=? to_Z a).
Proof.
  intros. unfold geb. rewrite eqb_spec, ltb_spec by done. apply eq_iff_eq_true.
  rewrite orb_true_iff, Z.eqb_eq, Z.ltb_lt, Z.leb_le. lia.
Qed.

Lemma to_integer_spec a :
  wf a → to_Z a < 2 ^ 32 → to_integer a = Ok (to_Z a).
Proof.
  intros [Ha Ha'] Hlt. unfold to_integer, to_Z in *.
  assert (hi a = 0) as Hh by mlia. rewrite Hh in *. simpl.
  assert (u32 (lo a) = lo a) as -> by mlia. rewrite Z.eqb_refl; simpl.
  unfold mret, res_ret. f_equal; lia.
Qed.

Lemma inc_spec a : wf a → wf (inc a) ∧ to_Z (inc a) = u128 (to_Z a + 1).
Proof.
  intros [Ha Ha']. unfold inc, wf, to_Z, u128, b2z; simpl.
  destruct (Z.eqb_spec (u64 (lo a + 1)) 0); split; [split| |split|]; mlia.
Qed.

Lemma bnot_spec a : wf a → wf (bnot a) ∧ to_Z (bnot a) = 2 ^ 128 - 1 - to_Z a.
Proof.
  intros [Ha Ha']. unfold bnot, wf, to_Z, Z.lnot; simpl. split; [split|]; mlia.
Qed.

Lemma neg_spec a : wf a → wf (neg a) ∧ to_Z (neg a) = u128 (- to_Z a).
Proof.
  intros Ha. unfold neg. destruct (bnot_spec a Ha) as [Hw He].
  destruct (inc_spec _ Hw) as [Hw' ->]. rewrite He. pose proof (to_Z_in a Ha).
  split; [done|]. unfold u128. mlia.
Qed.

Lemma dec_spec a : wf a → wf (dec a) ∧ to_Z (dec a) = u128 (to_Z a - 1).
Proof.
  intros [Ha Ha']. unfold dec, wf, to_Z, u128, b2z; simpl.
  destruct (Z.eqb_spec (lo a) 0); split; [split| |split|]; mlia.
Qed.

Lemma add_assign_spec a b :
  wf a → wf b → wf (add_assign a b) ∧ to_Z (add_assign a b) = u128 (to_Z a + to_Z b).
Proof.
  intros [Ha Ha'] [Hb Hb']. unfold add_assign, wf, to_Z, u128, b2z; simpl.
  destruct (Z.ltb_spec (u64 (lo a + lo b)) (lo a)); split; [split| |split|]; mlia.
Qed.

Lemma sub_assign_spec a b :
  wf a → wf b → wf (sub_assign a b) ∧ to_Z (sub_assign a b) = u128 (to_Z a - to_Z b).
Proof.
  intros Ha Hb. unfold sub_assign. destruct (neg_spec b Hb) as [Hn He].
  destruct (add_assign_spec a (neg b) Ha Hn) as [Hw ->]. rewrite He.
  split; [done|]. unfold u128. mlia.
Qed.

Lemma add_u64_spec a x :
  wf a → in_u 64 x → wf (add_u64 a x) ∧ to_Z (add_u64 a x) = u128 (to_Z a + x).
Proof.
  intros Ha Hx. unfold add_u64.
  assert (u64 x = x) as -> by (by apply wrapu_small).
  destruct (of_u64_spec x Hx) as [Hw He].
  rewrite <- He at 3. by apply add_assign_spec.
Qed.

Lemma pow2_split n : 0 <= n <= 64 → 2 ^ n * 2 ^ (64 - n) = 2 ^ 64.
Proof. intros. rewrite <- Z.pow_add_r by lia. f_equal; lia. Qed.

Lemma shl_mask l n :
  0 < n < 64 → in_u 64 l →
  Z.shiftr (Z.land l (u64 (Z.lnot (Z.shiftr uint64_max n)))) (64 - n) = l / 2 ^ (64 - n).
Proof.
  intros Hn Hl. rewrite <- Z.shiftr_div_pow2 by lia. apply Z.bits_inj'. intros i Hi.
  rewrite !Z.shiftr_spec, Z.land_spec by lia.
  destruct (decide (i + (64 - n) < 64)) as [Hlt|Hge].
  - unfold u64, wrapu.
    rewrite Z.mod_pow2_bits_low, Z.lnot_spec, Z.shiftr_spec by lia.
    change uint64_max with (Z.ones 64).
    rewrite Z.ones_spec_high by lia. apply andb_true_r.
  - rewrite <- (Z.mod_small l (2 ^ 64)), !Z.mod_pow2_bits_high by (done || lia). done.
Qed.

(** The carry from the low to the high half in a left shift. *)
Lemma shl_halves h l n :
  0 < n < 64 → in_u 64 h → in_u 64 l →
  let h' := Z.lor (u64 (Z.shiftl h n))
              (Z.shiftr (Z.land l (u64 (Z.lnot (Z.shiftr uint64_max n)))) (64 - n)) in
  let l' := u64 (Z.shiftl l n) in
  in_u 64 h' ∧ in_u 64 l' ∧ h' * 2 ^ 64 + l' = u128 ((h * 2 ^ 64 + l) * 2 ^ n).
Proof.
  intros Hn Hh Hl. rewrite shl_mask by done. cbv zeta.
  rewrite !Z.shiftl_mul_pow2 by lia.
  pose proof (pow2_split n ltac:(lia)) as Hpq.
  assert (0 < 2 ^ n) as Hp by (apply Z.pow_pos_nonneg; lia).
  assert (0 < 2 ^ (64 - n)) as Hq by (apply Z.pow_pos_nonneg; lia).
  rewrite lor_low_high with (n := n); [|lia| |].
  2: { split; [apply Z.div_pos; mlia|]. apply Z.div_lt_upper_bound; [done|].
       rewrite Z.mul_comm, Hpq. mlia. }
  2: { unfold u64, wrapu. rewrite <- Hpq, Z.mul_comm, Z.mul_mod_distr_l by lia.
       rewrite Z.mul_comm. apply Z.mod_mul. lia. }
  set (p := 2 ^ n) in *. set (q := 2 ^ (64 - n)) in *.
  assert (u64 (h * p) = (h mod q) * p) as ->.
  { unfold u64, wrapu. rewrite <- Hpq, (Z.mul_comm h), Z.mul_mod_distr_l by lia. lia. }
  assert (u64 (l * p) = (l mod q) * p) as ->.
  { unfold u64, wrapu. rewrite <- Hpq, (Z.mul_comm l), Z.mul_mod_distr_l by lia. lia. }
  pose proof (Z.div_mod l q ltac:(lia)) as El.
  pose proof (Z.div_mod h q ltac:(lia)) as Eh.
  pose proof (Z.mod_pos_bound l q Hq). pose proof (Z.mod_pos_bound h q Hq).
  assert (0 <= l / q < p) as Hlq.
  { split; [apply Z.div_pos; mlia|]. apply Z.div_lt_upper_bound; [done|].
    rewrite Z.mul_comm, Hpq. mlia. }
  assert ((h mod q) * p + l / q < 2 ^ 64) by (rewrite <- Hpq; nia).
  assert ((l mod q) * p < 2 ^ 64) by (rewrite <- Hpq; nia).
  split; [unfold in_u; nia|]. split; [unfold in_u; nia|].
  unfold u128, wrapu. apply (Zmod_unique _ _ (h / q)).
  - mlia.
  - change (2 ^ 128) with (2 ^ 64 * 2 ^ 64). rewrite <- !Hpq. clearbody p q.
    remember (h / q) as hd. remember (h mod q) as hm.
    remember (l / q) as ld. remember (l mod q) as lm. rewrite Eh, El. ring.
Qed.

Lemma shr_mask h n :
  0 < n < 64 → in_u 64 h →
  u64 (Z.shiftl (Z.land h (u64 (Z.lnot (u64 (Z.shiftl uint64_max n))))) (64 - n))
  = (h mod 2 ^ n) * 2 ^ (64 - n).
Proof.
  intros Hn Hh. rewrite <- Z.land_ones, <- Z.shiftl_mul_pow2 by lia.
  apply Z.bits_inj'. intros i Hi. unfold u64, wrapu.
  destruct (decide (i < 64)).
  - rewrite Z.mod_pow2_bits_low, !Z.shiftl_spec, !Z.land_spec by lia.
    destruct (decide (i < 64 - n)).
    + rewrite !(Z.testbit_neg_r h) by lia. done.
    + rewrite Z.mod_pow2_bits_low, Z.lnot_spec, Z.mod_pow2_bits_low, Z.shiftl_spec by lia.
      change uint64_max with (Z.ones 64).
      destruct (decide (i - (64 - n) < n)).
      * rewrite (Z.testbit_neg_r (Z.ones 64)), Z.ones_spec_low by lia. done.
      * rewrite Z.ones_spec_low, Z.ones_spec_high by lia. done.
  - rewrite Z.mod_pow2_bits_high, Z.shiftl_spec, Z.land_spec, Z.ones_spec_high by lia.
    by rewrite andb_false_r.
Qed.

(** The bits that move from the high to the low half in a right shift. *)
Lemma shr_halves h l n :
  0 < n < 64 → in_u 64 h → in_u 64 l →
  let l' := Z.lor (Z.shiftr l n)
              (u64 (Z.shiftl (Z.land h (u64 (Z.lnot (u64 (Z.shiftl uint64_max n))))) (64 - n))) in
  let h' := Z.shiftr h n in
  in_u 64 h' ∧ in_u 64 l' ∧ h' * 2 ^ 64 + l' = (h * 2 ^ 64 + l) / 2 ^ n.
Proof.
  intros Hn Hh Hl. rewrite shr_mask by done. cbv zeta.
  rewrite !Z.shiftr_div_pow2 by lia.
  pose proof (pow2_split n ltac:(lia)) as Hpq.
  assert (0 < 2 ^ n) as Hp by (apply Z.pow_pos_nonneg; lia).
  assert (0 < 2 ^ (64 - n)) as Hq by (apply Z.pow_pos_nonneg; lia).
  assert (0 <= l / 2 ^ n < 2 ^ (64 - n)) as Hlp.
  { split; [apply Z.div_pos; mlia|]. apply Z.div_lt_upper_bound; [done|]. rewrite Hpq. mlia. }
  rewrite Z.lor_comm, lor_low_high with (n := 64 - n); [|lia|done|apply Z.mod_mul; lia].
  set (p := 2 ^ n) in *. set (q := 2 ^ (64 - n)) in *. clearbody p q.
  pose proof (Z.div_mod l p ltac:(lia)) as El.
  pose proof (Z.div_mod h p ltac:(lia)) as Eh.
  pose proof (Z.mod_pos_bound l p Hp). pose proof (Z.mod_pos_bound h p Hp).
  assert (0 <= h / p < q).
  { split; [apply Z.div_pos; mlia|]. apply Z.div_lt_upper_bound; [done|]. rewrite Hpq. mlia. }
  split; [unfold in_u; rewrite <- Hpq; nia|]. split; [unfold in_u; rewrite <- Hpq; nia|].
  apply (Zdiv_unique _ _ _ (l mod p)); [done|].
  rewrite <- Hpq. remember (h / p) as hd. remember (h mod p) as hm.
  remember (l / p) as ld. remember (l mod p) as lm. rewrite Eh, El. ring.
Qed.

Lemma shift_big_high h l n :
  64 <= n → u128 ((h * 2 ^ 64 + l) * 2 ^ n) = u128 ((l * 2 ^ 64 + 0) * 2 ^ (n - 64)).
Proof.
  intros Hn. unfold u128, wrapu.
  replace (2 ^ n) with (2 ^ 64 * 2 ^ (n - 64)) by (rewrite <- Z.pow_add_r by lia; f_equal; lia).
  replace ((h * 2 ^ 64 + l) * (2 ^ 64 * 2 ^ (n - 64)))
    with ((l * 2 ^ 64 + 0) * 2 ^ (n - 64) + (h * 2 ^ (n - 64)) * 2 ^ 128)
    by (change (2 ^ 128) with (2 ^ 64 * 2 ^ 64); ring).
  apply Z.mod_add. lia.
Qed.

Lemma shl_assign_spec a rhs :
  wf a → wf rhs →
  ∃ r, shl_assign a rhs = Ok r ∧ wf r ∧ to_Z r = u128 (to_Z a * 2 ^ to_Z rhs).
Proof.
  intros Ha Hr. unfold shl_assign. pose proof (to_Z_in a Ha). pose proof (to_Z_in rhs Hr).
  rewrite geb_spec by (done || apply of_u64_spec; mlia).
  change (to_Z (uint128_of_u64 128)) with 128.
  destruct (Z.leb_spec 128 (to_Z rhs)) as [Hge|Hlt].
  - eexists; split_and!; [done|split; simpl; mlia|]. unfold to_Z at 1; simpl.
    unfold u128, wrapu. replace (to_Z rhs) with ((to_Z rhs - 128) + 128) by lia.
    rewrite Z.pow_add_r, Z.mul_assoc, Z.mod_mul by lia. done.
  - rewrite to_integer_spec by (done || mlia). simpl. destruct Ha as [Hh Hl].
    generalize dependent (to_Z rhs); intros n Hn Hn'. clear rhs Hr.
    destruct a as [h l]; unfold to_Z at 2; simpl in *.
    destruct (Z.leb_spec 64 n); simpl.
    + rewrite shift_big_high by done. destruct (Z.eqb_spec (n - 64) 0) as [E|E]; simpl.
      * rewrite E. eexists; split_and!; [done|split; simpl; mlia|].
        unfold to_Z, u128; simpl. mlia.
      * destruct (shl_halves l 0 (n - 64)) as (? & ? & ?); [mlia..|].
        eexists; split_and!; [done|done|]. unfold to_Z; simpl. done.
    + destruct (Z.eqb_spec n 0) as [->|E]; simpl.
      * eexists; split_and!; [done|done|]. unfold to_Z, u128; simpl. mlia.
      * destruct (shl_halves h l n) as (? & ? & ?); [mlia..|].
        eexists; split_and!; [done|done|]. unfold to_Z; simpl. done.
Qed.

Lemma shr_assign_spec a rhs :
  wf a → wf rhs →
  ∃ r, shr_assign a rhs = Ok r ∧ wf r ∧ to_Z r = to_Z a / 2 ^ to_Z rhs.
Proof.
  intros Ha Hr. unfold shr_assign. pose proof (to_Z_in a Ha). pose proof (to_Z_in rhs Hr).
  rewrite geb_spec by (done || apply of_u64_spec; mlia).
  change (to_Z (uint128_of_u64 128)) with 128.
  destruct (Z.leb_spec 128 (to_Z rhs)) as [Hge|Hlt].
  - eexists; split_and!; [done|split; simpl; mlia|]. unfold to_Z at 1; simpl.
    symmetry. apply Z.div_small. pose proof (Z.pow_le_mono_r 2 _ _ ltac:(lia) Hge). mlia.
  - rewrite to_integer_spec by (done || mlia). simpl. destruct Ha as [Hh Hl].
    generalize dependent (to_Z rhs); intros n Hn Hn'. clear rhs Hr.
    destruct a as [h l]; unfold to_Z at 2; simpl in *.
    destruct (Z.leb_spec 64 n); simpl.
    + replace (2 ^ n) with (2 ^ 64 * 2 ^ (n - 64)) by (rewrite <- Z.pow_add_r by lia; f_equal; lia).
      rewrite <- Z.div_div, Z.div_add_l, (Z.div_small l), Z.add_0_r
        by first [done|apply Z.pow_pos_nonneg; lia|apply Z.pow_nonzero; lia|mlia].
      destruct (Z.eqb_spec (n - 64) 0) as [E|E]; simpl.
      * rewrite E. eexists; split_and!; [done|split; simpl; mlia|].
        unfold to_Z; simpl. rewrite Z.div_1_r. lia.
      * destruct (shr_halves 0 h (n - 64)) as (? & ? & ?); [mlia..|].
        eexists; split_and!; [done|done|]. unfold to_Z; simpl. done.
    + destruct (Z.eqb_spec n 0) as [->|E]; simpl.
      * eexists; split_and!; [done|done|]. unfold to_Z; simpl. rewrite Z.div_1_r. done.
      * destruct (shr_halves h l n) as (? & ? & ?); [mlia..|].
        eexists; split_and!; [done|done|]. unfold to_Z; simpl. done.
Qed.

(** Congruence modulo 2^128, for rewriting inside sums and products. *)
Definition cong128 (x y : Z) : Prop := u128 x = u128 y.

#[export] Instance cong128_equiv : Equivalence cong128.
Proof. split; unfold cong128; congruence. Qed.
#[export] Instance cong128_add : Proper (cong128 ==> cong128 ==> cong128) Z.add.
Proof.
  intros x x' Hx y y' Hy. unfold cong128, u128, wrapu in *.
  by rewrite Z.add_mod, Hx, Hy, <- Z.add_mod.
Qed.
#[export] Instance cong128_mul : Proper (cong128 ==> cong128 ==> cong128) Z.mul.
Proof.
  intros x x' Hx y y' Hy. unfold cong128, u128, wrapu in *.
  by rewrite Z.mul_mod, Hx, Hy, <- Z.mul_mod.
Qed.
Lemma cong128_u128 x : cong128 (u128 x) x.
Proof. unfold cong128, u128, wrapu. by rewrite Z.mod_mod. Qed.
Lemma cong128_shift k x y : x = y + k * 2 ^ 128 → cong128 x y.
Proof. intros ->. unfold cong128, u128, wrapu. by apply Z.mod_add. Qed.
Lemma u128_small x : in_u 128 x → u128 x = x.
Proof. apply wrapu_small. Qed.

Lemma limb32_in x k : in_u 32 (limb32 x k).
Proof. apply wrapu_in. lia. Qed.

Lemma limbs x : in_u 64 x → x = limb32 x 32 * 2 ^ 32 + limb32 x 0.
Proof.
  intros. unfold limb32. rewrite !Z.shiftr_div_pow2 by lia. mlia.
Qed.

Lemma limb_mul x y : in_u 32 x → in_u 32 y → in_u 64 (x * y).
Proof. int_unfold. nia. Qed.

(** [mul_step] replaces the next addition or shift in the goal by its value
    in [Z]. *)
Ltac mul_step :=
  match goal with
  | |- context [add_u64 ?t ?x] =>
      is_var t;
      let H := fresh in let r := fresh "t" in let W := fresh "W" in
      destruct (add_u64_spec t x) as [W H];
      [assumption|apply limb_mul; apply limb32_in|];
      revert W H; generalize (add_u64 t x); intros r W H
  | |- context [shl_assign ?t (uint128_of_u64 32)] =>
      is_var t;
      let H := fresh in let r := fresh "t" in let W := fresh "W" in let E := fresh in
      destruct (shl_assign_spec t (uint128_of_u64 32)) as (r & E & W & H);
      [assumption|apply of_u64_spec; mlia|];
      change (to_Z (uint128_of_u64 32)) with 32 in H; rewrite E; clear E; cbn [mbind res_bind]
  end.

Lemma mul_assign_spec a b :
  wf a → wf b →
  ∃ r, mul_assign a b = Ok r ∧ wf r ∧ to_Z r = u128 (to_Z a * to_Z b).
Proof.
  intros [Hah Hal] [Hbh Hbl]. unfold mul_assign.
  destruct a as [ha la], b as [hb lb]; cbn [hi lo] in *; cbv zeta.
  pose proof (limb_mul _ _ (limb32_in ha 32) (limb32_in lb 0)) as H30.
  pose proof (of_u64_spec (limb32 ha 32 * limb32 lb 0) H30) as [W0 E0].
  unfold uint128_of_u64 in W0, E0 at 1.
  unfold u64 at 1. rewrite (wrapu_small 64 _ H30). revert W0 E0.
  generalize (U128 0 (limb32 ha 32 * limb32 lb 0)). intros t W0 E0.
  repeat mul_step.
  eexists; split_and!; [done|done|].
  match goal with W : wf ?x |- to_Z ?x = _ => rewrite <- (u128_small _ (to_Z_in x W)) end.
  match goal with |- u128 ?x = u128 ?y => change (cong128 x y) end.
  repeat match goal with
    H : to_Z ?x = u128 _ |- _ => is_var x; rewrite H, cong128_u128; clear H end.
  rewrite E0.
  unfold to_Z; cbn [hi lo].
  pose proof (limbs ha Hah) as Eha. pose proof (limbs la Hal) as Ela.
  pose proof (limbs hb Hbh) as Ehb. pose proof (limbs lb Hbl) as Elb.
  revert Eha Ela Ehb Elb.
  generalize (limb32 ha 32), (limb32 ha 0), (limb32 la 32), (limb32 la 0),
    (limb32 hb 32), (limb32 hb 0), (limb32 lb 32), (limb32 lb 0).
  intros a3 a2 a1 a0 b3 b2 b1 b0 -> -> -> ->.
  apply (cong128_shift (- (a3 * b1 + a2 * b2 + a1 * b3
    + (a3 * b2 + a2 * b3) * 2 ^ 32 + a3 * b3 * 2 ^ 64))).
  change (2 ^ 64) with (2 ^ 32 * 2 ^ 32). change (2 ^ 128) with (2 ^ 32 * 2 ^ 32 * (2 ^ 32 * 2 ^ 32)).
  ring.
Qed.

Lemma mul_u64_spec x y :
  in_u 64 x → in_u 64 y →
  ∃ r, mul_assign (uint128_of_u64 x) (uint128_of_u64 y) = Ok r ∧ wf r ∧ to_Z r = x * y.
Proof.
  intros Hx Hy. destruct (of_u64_spec x Hx) as [Wx Ex], (of_u64_spec y Hy) as [Wy Ey].
  destruct (mul_assign_spec _ _ Wx Wy) as (r & E & W & V). exists r. split_and!; [done..|].
  rewrite V, Ex, Ey. apply u128_small. int_unfold; nia.
Qed.

(** The schoolbook recombination of the four half products: with the column
    sums [x] and [y], the top limb does not carry out of 256 bits. *)
Lemma full_product_columns ah al bh bl sh sl rh rl qh ql ph pl xh xl yh yl :
  in_u 64 ah → in_u 64 al → in_u 64 bh → in_u 64 bl → 0 <= ph →
  in_u 64 sl → in_u 64 xl → in_u 64 yl → 0 <= yh →
  sh * 2 ^ 64 + sl = al * bl → rh * 2 ^ 64 + rl = ah * bl →
  qh * 2 ^ 64 + ql = al * bh → ph * 2 ^ 64 + pl = ah * bh →
  xh * 2 ^ 64 + xl = sh + ql + rl → yh * 2 ^ 64 + yl = xh + qh + rh + pl →
  in_u 64 (yh + ph) ∧
  ((yh + ph) * 2 ^ 64 + yl) * 2 ^ 128 + (xl * 2 ^ 64 + sl)
  = (ah * 2 ^ 64 + al) * (bh * 2 ^ 64 + bl).
Proof.
  intros Hah Hal Hbh Hbl Hph Hsl Hxl Hyl Hyh Es Er Eq Ep Ex Ey.
  set (B := 2 ^ 64) in *.
  assert (((yh + ph) * B + yl) * (B * B) + (xl * B + sl)
          = (ah * B + al) * (bh * B + bl)) as E.
  { transitivity (ah * bh * (B * B) + (al * bh + ah * bl) * B + al * bl); [|ring].
    rewrite <- Es, <- Er, <- Eq, <- Ep.
    replace ((yh + ph) * B + yl) with (yh * B + yl + ph * B) by ring. rewrite Ey.
    replace (xl * B) with ((xh * B + xl - xh * B) * B) by ring. rewrite Ex. ring. }
  change (2 ^ 128) with (B * B). split; [|done].
  unfold in_u in *. fold B in Hah, Hal, Hbh, Hbl, Hsl, Hxl, Hyl |- *.
  assert (0 < B) by (by subst B). clearbody B. split; [lia|].
  destruct (Z.lt_ge_cases (yh + ph) B) as [|Hge]; [done|exfalso].
  assert ((ah * B + al) * (bh * B + bl) <= (B * B - 1) * (B * B - 1)).
  { apply Z.mul_le_mono_nonneg; nia. }
  assert (B * (B * (B * B)) <= (yh + ph) * (B * (B * B))) by (apply Z.mul_le_mono_nonneg_r; nia).
  assert (0 <= yl * (B * B)) by nia. nia.
Qed.

Lemma full_product_spec a b :
  wf a → wf b →
  ∃ rh rl, full_product a b = Ok (rh, rl) ∧ wf rh ∧ wf rl
           ∧ to_Z rh * 2 ^ 128 + to_Z rl = to_Z a * to_Z b.
Proof.
  intros [Hah Hal] [Hbh Hbl]. unfold full_product; cbv zeta.
  destruct (mul_u64_spec (lo a) (lo b)) as (s & -> & [Ws Ws'] & Es); [done..|].
  destruct (mul_u64_spec (hi a) (lo b)) as (r & -> & [Wr Wr'] & Er); [done..|].
  destruct (mul_u64_spec (lo a) (hi b)) as (q & -> & [Wq Wq'] & Eq); [done..|].
  destruct (mul_u64_spec (hi a) (hi b)) as (p & -> & [Wp Wp'] & Ep); [done..|].
  cbn [mbind res_bind].
  destruct (of_u64_spec (hi s) Ws) as [W0 E0].
  destruct (add_u64_spec _ _ W0 Wq') as [W1 E1].
  destruct (add_u64_spec _ _ W1 Wr') as [W2 E2].
  generalize dependent (add_u64 (add_u64 (uint128_of_u64 (hi s)) (lo q)) (lo r)).
  intros x W2 E2. pose proof W2 as [Wx Wx'].
  destruct (of_u64_spec (hi x) Wx) as [W3 E3].
  destruct (add_u64_spec _ _ W3 Wq) as [W4 E4].
  destruct (add_u64_spec _ _ W4 Wr) as [W5 E5].
  destruct (add_u64_spec _ _ W5 Wp') as [W6 E6].
  generalize dependent
    (add_u64 (add_u64 (add_u64 (uint128_of_u64 (hi x)) (hi q)) (hi r)) (lo p)).
  intros y [Wy Wy'] E6. rewrite E5, E4, E3 in E6. rewrite E1, E0 in E2.
  assert (to_Z x = hi s + lo q + lo r) as F2 by (rewrite E2; unfold u128; mlia).
  assert (to_Z y = hi x + hi q + hi r + lo p) as F6 by (rewrite E6; unfold u128; mlia).
  destruct (full_product_columns (hi a) (lo a) (hi b) (lo b) (hi s) (lo s) (hi r) (lo r)
    (hi q) (lo q) (hi p) (lo p) (hi x) (lo x) (hi y) (lo y)) as [Hin E];
    try first [done | apply Wp | apply Wy].
  assert (u64 (hi y + hi p) = hi y + hi p) as -> by (by apply wrapu_small).
  eexists _, _. split_and!; [reflexivity|done|done|done].
Qed.

Lemma top_bit_clear d t :
  wf d → wf t → to_Z t = to_Z d / 2 ^ 127 →
  eqb (and_assign t (uint128_of_u64 1)) (uint128_of_u64 0) = (to_Z d <? 2 ^ 127).
Proof.
  intros Hd [Ht Ht'] E. pose proof (to_Z_in d Hd) as Hin.
  destruct t as [ht lt]; unfold to_Z at 1 in E; simpl in *.
  assert (ht = 0) as -> by mlia. unfold eqb; simpl.
  destruct (Z.ltb_spec (to_Z d) (2 ^ 127)).
  - assert (lt = 0) as -> by mlia. done.
  - assert (lt = 1) as -> by mlia. done.
Qed.

Lemma one_spec : wf (uint128_of_u64 1) ∧ to_Z (uint128_of_u64 1) = 1.
Proof. apply of_u64_spec. mlia. Qed.
Lemma zero_spec : wf (uint128_of_u64 0) ∧ to_Z (uint128_of_u64 0) = 0.
Proof. apply of_u64_spec. mlia. Qed.

Lemma divide_up_spec fuel n D d x (k : Z) :
  wf n → wf d → wf x → 0 < D → 0 <= k → 127 < k + Z.of_nat fuel →
  to_Z d = D * 2 ^ k → to_Z x = 2 ^ k →
  ∃ d' x' k', divide_up fuel n d x = Ok (d', x') ∧ wf d' ∧ wf x' ∧ 0 <= k' <= 127
    ∧ to_Z d' = D * 2 ^ k' ∧ to_Z x' = 2 ^ k' ∧ to_Z n < 2 * to_Z d'.
Proof.
  revert d x k. induction fuel as [|fuel IH]; intros d x k Hn Hd Hx HD Hk Hf Ed Ex.
  { exfalso. pose proof (to_Z_in x Hx) as Hin. rewrite Ex in Hin.
    pose proof (Z.pow_le_mono_r 2 128 k ltac:(lia) ltac:(lia)). unfold in_u in Hin. lia. }
  cbn [divide_up]. pose proof one_spec as [W1 E1].
  destruct (shr_assign_spec d (uint128_of_u64 127)) as (t & -> & Wt & Et);
    [done|by apply of_u64_spec|]. change (to_Z (uint128_of_u64 127)) with 127 in Et.
  cbn [mbind res_bind]. rewrite (top_bit_clear d t), geb_spec by done.
  pose proof (to_Z_in n Hn) as Hnin. pose proof (to_Z_in x Hx) as Hxin.
  assert (k <= 127).
  { destruct (Z.le_gt_cases k 127); [done|]. rewrite Ex in Hxin. unfold in_u in Hxin.
    pose proof (Z.pow_le_mono_r 2 128 k ltac:(lia) ltac:(lia)). lia. }
  destruct (Z.leb_spec (to_Z d) (to_Z n)) as [Hle|Hlt]; cbn [andb].
  2: { eexists _, _, k. split_and!; [reflexivity|done..| |]; [done|lia]. }
  destruct (Z.ltb_spec (to_Z d) (2 ^ 127)) as [Hlt'|Hge'].
  2: { eexists _, _, k. split_and!; [reflexivity|done..| |]; [done|mlia]. }
  destruct (shl_assign_spec x (uint128_of_u64 1)) as (x' & -> & Wx' & Ex'); [done..|].
  destruct (shl_assign_spec d (uint128_of_u64 1)) as (d' & -> & Wd' & Ed'); [done..|].
  cbn [mbind res_bind]. rewrite E1 in Ex', Ed'. change (2 ^ 1) with 2 in *.
  assert (to_Z x <= to_Z d) by (rewrite Ex, Ed; pose proof (Z.pow_pos_nonneg 2 k); nia).
  rewrite u128_small in Ex', Ed' by mlia.
  apply (IH d' x' (k + 1)); try done; try lia.
  - rewrite Ed', Ed, Z.pow_add_r by lia. lia.
  - rewrite Ex', Ex, Z.pow_add_r by lia. lia.
Qed.

Lemma to_Z_bits a i :
  wf a → 0 <= i →
  Z.testbit (to_Z a) i = if decide (i < 64) then Z.testbit (lo a) i else Z.testbit (hi a) (i - 64).
Proof.
  intros [Hh Hl] Hi. unfold to_Z.
  rewrite <- (lor_low_high (hi a * 2 ^ 64) (lo a) 64) by (apply Hl || lia || apply Z.mod_mul; lia).
  rewrite <- Z.shiftl_mul_pow2, Z.lor_spec, Z.shiftl_spec by lia. case_decide.
  - by rewrite Z.testbit_neg_r by lia.
  - rewrite (in_u_high 64 (lo a)) by (done || lia). apply orb_false_r.
Qed.

Lemma or_assign_spec a b :
  wf a → wf b → wf (or_assign a b) ∧ to_Z (or_assign a b) = Z.lor (to_Z a) (to_Z b).
Proof.
  intros Ha Hb. assert (wf (or_assign a b)) as Hw.
  { destruct Ha, Hb. split; simpl; apply in_u_bits; try lia; intros;
      rewrite Z.lor_spec, !(in_u_high 64) by (done || lia); done. }
  split; [done|]. apply Z.bits_inj'. intros i Hi.
  rewrite Z.lor_spec, !to_Z_bits by done. case_decide; apply Z.lor_spec.
Qed.

Lemma and_assign_spec a b :
  wf a → wf b → wf (and_assign a b) ∧ to_Z (and_assign a b) = Z.land (to_Z a) (to_Z b).
Proof.
  intros Ha Hb. assert (wf (and_assign a b)) as Hw.
  { destruct Ha, Hb. split; simpl; apply in_u_bits; try lia; intros;
      rewrite Z.land_spec, !(in_u_high 64) by (done || lia); done. }
  split; [done|]. apply Z.bits_inj'. intros i Hi.
  rewrite Z.land_spec, !to_Z_bits by done. case_decide; apply Z.land_spec.
Qed.

Lemma xor_assign_spec a b :
  wf a → wf b → wf (xor_assign a b) ∧ to_Z (xor_assign a b) = Z.lxor (to_Z a) (to_Z b).
Proof.
  intros Ha Hb. assert (wf (xor_assign a b)) as Hw.
  { destruct Ha, Hb. split; simpl; apply in_u_bits; try lia; intros;
      rewrite Z.lxor_spec, !(in_u_high 64) by (done || lia); done. }
  split; [done|]. apply Z.bits_inj'. intros i Hi.
  rewrite Z.lxor_spec, !to_Z_bits by done. case_decide; apply Z.lxor_spec.
Qed.

(** One step down: with [n < 2*d] the quotient bit of weight [2^k] is decided
    by [n >= d]. *)
Lemma divide_down_step fuel N D n d x answer k :
  wf n → wf d → wf x → wf answer → 0 < D → 0 <= k →
  to_Z d = D * 2 ^ k → to_Z x = 2 ^ k → to_Z n < 2 * to_Z d → in_u 128 N →
  N = to_Z answer * D + to_Z n → to_Z answer mod 2 ^ (k + 1) = 0 →
  ∃ n' d' x' a', divide_down (S fuel) n d x answer = divide_down fuel n' d' x' a'
    ∧ wf n' ∧ wf d' ∧ wf x' ∧ wf a'
    ∧ to_Z d' = to_Z d / 2 ∧ to_Z x' = to_Z x / 2 ∧ to_Z n' < to_Z d
    ∧ N = to_Z a' * D + to_Z n' ∧ to_Z a' mod 2 ^ k = 0.
Proof.
  intros Wn Wd Wx Wa HD Hk Ed Ex Hlt HN EN Em. cbn [divide_down].
  pose proof zero_spec as [W0 E0]. pose proof one_spec as [W1 E1].
  assert (0 < 2 ^ k) as Hpk by (apply Z.pow_pos_nonneg; lia).
  rewrite eqb_spec, E0 by done. destruct (Z.eqb_spec (to_Z x) 0); [lia|]; cbn [negb].
  destruct (shr_assign_spec x (uint128_of_u64 1)) as (x' & -> & Wx' & Ex'); [done..|].
  destruct (shr_assign_spec d (uint128_of_u64 1)) as (d' & -> & Wd' & Ed'); [done..|].
  rewrite E1 in Ex', Ed'. change (2 ^ 1) with 2 in Ex', Ed'.
  assert (to_Z answer mod 2 ^ k = 0) as Em'.
  { apply Z.mod_divide in Em; [|lia]. destruct Em as [c Ec]. rewrite Ec, Z.pow_add_r by lia.
    replace (c * (2 ^ k * 2 ^ 1)) with (c * 2 * 2 ^ k) by lia. apply Z.mod_mul. lia. }
  pose proof (to_Z_in _ Wn) as Hnin. pose proof (to_Z_in _ Wa) as Hain.
  rewrite geb_spec by done. destruct (Z.leb_spec (to_Z d) (to_Z n)) as [Hle|Hgt].
  - destruct (sub_assign_spec n d Wn Wd) as [Ws Es].
    destruct (or_assign_spec answer x Wa Wx) as [Wo Eo].
    pose proof (to_Z_in _ Wd) as Hdin.
    rewrite u128_small in Es by mlia.
    rewrite (lor_low_high _ _ (k + 1)), Ex in Eo
      by first [done | lia | rewrite Ex, Z.pow_add_r; lia].
    exists (sub_assign n d), d', x', (or_assign answer x). split_and!; try done; [lia| |].
    + rewrite Es, Eo, Ed, EN. lia.
    + rewrite Eo, Z.add_mod, Em', Z_mod_same_full by lia. done.
  - eexists n, d', x', answer. split_and!; try done; lia.
Qed.

Lemma divide_down_spec (k fuel : nat) N D n d x answer :
  (k + 2 <= fuel)%nat → wf n → wf d → wf x → wf answer → 0 < D →
  to_Z d = D * 2 ^ Z.of_nat k → to_Z x = 2 ^ Z.of_nat k →
  to_Z n < 2 * to_Z d → in_u 128 N →
  N = to_Z answer * D + to_Z n → to_Z answer mod 2 ^ (Z.of_nat k + 1) = 0 →
  ∃ q r, divide_down fuel n d x answer = Ok (q, r) ∧ wf q ∧ wf r
    ∧ N = to_Z q * D + to_Z r ∧ to_Z r < D.
Proof.
  revert fuel n d x answer. induction k as [|k IH];
    intros fuel n d x answer Hf Wn Wd Wx Wa HD Ed Ex Hlt HN EN Em;
    (destruct fuel as [|fuel]; [lia|]);
    destruct (divide_down_step fuel N D n d x answer _ Wn Wd Wx Wa HD (Nat2Z.is_nonneg _)
      Ed Ex Hlt HN EN Em) as (n' & d' & x' & a' & -> & Wn' & Wd' & Wx' & Wa' & Ed' & Ex' & Hn' & EN' & Em').
  - destruct fuel as [|fuel]; [lia|]. cbn [divide_down]. pose proof zero_spec as [W0 E0].
    rewrite eqb_spec, E0, Ex', Ex by done. cbn [negb]. change (2 ^ Z.of_nat 0) with 1 in *.
    eexists _, _. split_and!; [reflexivity|done..|lia].
  - rewrite Nat2Z.inj_succ, Z.pow_succ_r in Ed, Ex by lia.
    assert (to_Z d' = D * 2 ^ Z.of_nat k) as Ed2
      by (rewrite Ed', Ed, Z.mul_assoc, (Z.mul_comm D 2), <- Z.mul_assoc, Z.mul_comm, Z.div_mul; lia).
    apply (IH fuel n' d' x' a'); try done; try lia.
    rewrite Ex', Ex, Z.mul_comm, Z.div_mul; lia.
Qed.

Lemma divide_spec n d :
  wf n → wf d → to_Z d ≠ 0 →
  ∃ q r, divide n d = Ok (q, r) ∧ wf q ∧ wf r
    ∧ to_Z q = to_Z n / to_Z d ∧ to_Z r = to_Z n mod to_Z d.
Proof.
  intros Wn Wd Hd. unfold divide. pose proof zero_spec as [W0 E0]. pose proof one_spec as [W1 E1].
  pose proof (to_Z_in _ Wd) as Hdin. pose proof (to_Z_in _ Wn) as Hnin.
  rewrite eqb_spec, E0 by done. destruct (Z.eqb_spec (to_Z d) 0); [done|].
  destruct (divide_up_spec 128 n (to_Z d) d (uint128_of_u64 1) 0)
    as (d' & x' & k & -> & Wd' & Wx' & Hk & Ed' & Ex' & Hlt); [done..|mlia|lia|lia|lia|done|].
  cbn [mbind res_bind].
  destruct (divide_down_spec (Z.to_nat k) 129 (to_Z n) (to_Z d) n d' x' (uint128_of_u64 0))
    as (q & r & -> & Wq & Wr & E & Hr); rewrite ?Z2Nat.id by lia; try done; try lia; [mlia|].
  exists q, r. pose proof (to_Z_in _ Wr) as Hrin. split_and!; [done..| |].
  - apply (Z.div_unique_pos _ _ _ (to_Z r)); [unfold in_u in Hrin; lia|lia].
  - apply (Z.mod_unique_pos _ _ (to_Z q)); [unfold in_u in Hrin; lia|lia].
Qed.

Lemma div_assign_spec n d :
  wf n → wf d → to_Z d ≠ 0 →
  ∃ q, div_assign n d = Ok q ∧ wf q ∧ to_Z q = to_Z n / to_Z d.
Proof.
  intros Wn Wd Hd. unfold div_assign. fold (to_Z n) (to_Z d).
  rewrite (proj2 (Z.eqb_neq _ _) Hd). cbn [negb check mbind res_bind]. unfold mret, res_ret.
  pose proof (to_Z_in _ Wn) as Hn. pose proof (to_Z_in _ Wd) as Hd'.
  assert (in_u 128 (to_Z n / to_Z d)) as Hq.
  { unfold in_u in *. pose proof (Z.div_pos (to_Z n) (to_Z d)).
    pose proof (Z.div_le_upper_bound (to_Z n) (to_Z d) (to_Z n)). nia. }
  eexists. split; [done|]. split; [split; simpl; apply wrapu_in; lia|].
  unfold to_Z at 1. cbn [hi lo]. rewrite !Z.shiftr_div_pow2, Z.shiftl_mul_pow2 by lia. mlia.
Qed.

(** Results that fit, for the clients of the class. *)
Lemma mul_assign_exact a b :
  wf a → wf b → to_Z a * to_Z b < 2 ^ 128 →
  ∃ r, mul_assign a b = Ok r ∧ wf r ∧ to_Z r = to_Z a * to_Z b.
Proof.
  intros Wa Wb H. destruct (mul_assign_spec a b Wa Wb) as (r & E & W & Er). exists r.
  split; [done|]. split; [done|]. rewrite Er. apply u128_small.
  apply to_Z_in in Wa, Wb. unfold in_u in *. nia.
Qed.

Lemma to_uint64_spec a : wf a → to_Z a < 2 ^ 64 → to_uint64 a = Ok (to_Z a).
Proof.
  intros [Hh Hl] H. unfold to_uint64. replace (hi a) with 0 by (unfold to_Z in H; mlia).
  cbn. f_equal. unfold to_Z in *. mlia.
Qed.

Lemma to_int64_spec a : wf a → to_Z a < 2 ^ 63 → to_int64 a = Ok (to_Z a).
Proof.
  intros [Hh Hl] H. unfold to_int64. assert (hi a = 0) as E by (unfold to_Z in H; mlia).
  unfold to_Z in *. rewrite E in *. cbn [Z.eqb fc_assert mbind res_bind].
  rewrite (proj2 (Z.leb_le _ _)) by mlia. cbn. f_equal. mlia.
Qed.

(** ** Decimal round trip *)

Definition digit_char (r : Z) : ascii := ascii_of_nat (Z.to_nat (48 + r)).

Lemma digit_cases (P : Z → Prop) r :
  0 <= r < 10 →
  P 0 → P 1 → P 2 → P 3 → P 4 → P 5 → P 6 → P 7 → P 8 → P 9 → P r.
Proof.
  intros Hr. assert (r = 0 ∨ r = 1 ∨ r = 2 ∨ r = 3 ∨ r = 4 ∨ r = 5 ∨ r = 6 ∨ r = 7 ∨ r = 8 ∨ r = 9)
    as Hc by lia.
  repeat destruct Hc as [->|Hc]; subst; auto.
Qed.

Lemma digit_table_get r :
  0 <= r < 10 → String.get (Z.to_nat r) digit_table = Some (digit_char r).
Proof. intros Hr. by apply digit_cases with (r := r). Qed.

Lemma digit_value_char r : 0 <= r < 10 → digit_value 10 (digit_char r) = Some r.
Proof. intros Hr. by apply digit_cases with (r := r). Qed.

Lemma digit_char_radix r s :
  0 < r < 10 → radix_prefix (String (digit_char r) s) = (10, String (digit_char r) s).
Proof.
  intros Hr. assert (0 <= r < 10) as Hr' by lia. revert Hr. pattern r.
  apply digit_cases; [done|lia|done..].
Qed.

Lemma digit_char_no_minus r s :
  0 <= r < 10 → minus_prefix (String (digit_char r) s) = (false, String (digit_char r) s).
Proof. intros Hr. pattern r. apply digit_cases; done. Qed.

(** Dividing by ten: the quotient and the digit printed. *)
Lemma divide_ten ii :
  wf ii →
  ∃ q r, divide ii (uint128_of_u64 10) = Ok (q, r) ∧ wf q
    ∧ to_Z q = to_Z ii / 10 ∧ to_integer r = Ok (to_Z ii mod 10).
Proof.
  intros W. destruct (of_u64_spec 10) as [W10 E10]; [mlia|].
  destruct (divide_spec ii (uint128_of_u64 10)) as (q & r & E & Wq & Wr & Eq & Er); [done..|].
  rewrite E10 in Eq, Er. exists q, r. split_and!; [done..|].
  rewrite <- Er. apply to_integer_spec; [done|]. rewrite Er. mlia.
Qed.

Lemma parse_digit_step a r s :
  wf a → 0 <= r < 10 → to_Z a * 10 + r < 2 ^ 128 →
  ∃ a', parse_digits 10 a (String (digit_char r) s) = parse_digits 10 a' s
    ∧ wf a' ∧ to_Z a' = to_Z a * 10 + r.
Proof.
  intros Wa Hr Hlt. cbn [parse_digits]. rewrite digit_value_char by done.
  destruct (of_i64_spec 10) as [W10 E10]; [mlia|].
  destruct (mul_assign_spec a (uint128_of_i64 10)) as (m & -> & Wm & Em); [done..|].
  destruct (of_u64_spec r) as [Wr Er]; [mlia|].
  destruct (add_assign_spec m (uint128_of_u64 r)) as [Wn En]; [done..|].
  pose proof (to_Z_in _ Wa) as Ha. cbn [mbind res_bind].
  eexists. split_and!; [reflexivity|done|]. rewrite En, Em, E10, Er.
  change (u128 10) with 10. unfold u128. mlia.
Qed.

(** Printing then parsing: the digits produced for [ii] carry the parser from
    zero to [ii], and the first of them is not zero. *)
Lemma to_string_loop_spec (i : nat) ii acc :
  wf ii → 0 < to_Z ii < 10 ^ Z.of_nat i →
  ∃ r s, to_string_loop i ii acc = Ok (String (digit_char r) s) ∧ 0 < r < 10
    ∧ ∃ a, parse_digits 10 (U128 0 0) (String (digit_char r) s) = parse_digits 10 a acc
      ∧ wf a ∧ to_Z a = to_Z ii.
Proof.
  revert ii acc. induction i as [|i IH]; intros ii acc W Hi; [simpl in Hi; lia|].
  cbn [to_string_loop]. pose proof zero_spec as [W0 E0].
  rewrite eqb_spec, E0 by done. destruct (Z.eqb_spec (to_Z ii) 0); [lia|].
  destruct (divide_ten ii W) as (q & r & -> & Wq & Eq & Er). cbn [mbind res_bind]. rewrite Er.
  cbn [mbind res_bind]. rewrite digit_table_get by mlia.
  pose proof (to_Z_in _ W) as Hin.
  rewrite Nat2Z.inj_succ, Z.pow_succ_r in Hi by lia.
  destruct (decide (to_Z q = 0)) as [Hq|Hq].
  - assert (to_string_loop i q (String (digit_char (to_Z ii mod 10)) acc)
            = Ok (String (digit_char (to_Z ii mod 10)) acc)) as ->.
    { destruct i; [done|]. cbn [to_string_loop]. rewrite eqb_spec, E0, Hq by done. done. }
    eexists _, _. split; [reflexivity|]. split; [mlia|].
    destruct (parse_digit_step (U128 0 0) (to_Z ii mod 10) acc) as (a & -> & Wa & Ea);
      [done|mlia|change (to_Z (U128 0 0)) with 0; mlia|].
    exists a. split_and!; [done..|]. rewrite Ea. change (to_Z (U128 0 0)) with 0. mlia.
  - destruct (IH q (String (digit_char (to_Z ii mod 10)) acc)) as (r' & s & -> & Hr' & a & Ea & Wa & Va);
      [done|mlia|].
    eexists _, _. split; [reflexivity|]. split; [done|]. rewrite Ea.
    destruct (parse_digit_step a (to_Z ii mod 10) acc) as (a' & -> & Wa' & Ea'); [done|mlia|mlia|].
    exists a'. split_and!; [done..|]. mlia.
Qed.

(** ** Main theorems *)

(** The wrap-around operators of [uint128] (addition, subtraction,
    negation, the four-limb multiplication) are exactly arithmetic modulo
    2^128 on the value [to_Z], and keep both halves within 64 bits. *)
Theorem uint128_ring_refines a b :
  wf a → wf b →
  (wf (add_assign a b) ∧ to_Z (add_assign a b) = u128 (to_Z a + to_Z b)) ∧
  (wf (sub_assign a b) ∧ to_Z (sub_assign a b) = u128 (to_Z a - to_Z b)) ∧
  (wf (neg a) ∧ to_Z (neg a) = u128 (- to_Z a)) ∧
  (∃ r, mul_assign a b = Ok r ∧ wf r ∧ to_Z r = u128 (to_Z a * to_Z b)).
Proof.
  intros. split; [by apply add_assign_spec|]. split; [by apply sub_assign_spec|].
  split; [by apply neg_spec|by apply mul_assign_spec].
Qed.

Lemma uint128_ring_refines_witness :
  to_Z (add_assign (U128 1 uint64_max) (U128 0 1)) = u128 (2 ^ 65).
Proof.
  destruct (uint128_ring_refines (U128 1 uint64_max) (U128 0 1)) as [[_ H] _];
    [split; simpl; int_unfold; lia|split; simpl; int_unfold; lia|exact H].
Defined.

(** [full_product] computes the exact 256-bit product: no carry is lost in
    its column sums. *)
Theorem full_product_exact a b :
  wf a → wf b →
  ∃ rh rl, full_product a b = Ok (rh, rl) ∧ wf rh ∧ wf rl
           ∧ to_Z rh * 2 ^ 128 + to_Z rl = to_Z a * to_Z b.
Proof. apply full_product_spec. Qed.

Lemma full_product_exact_witness :
  ∃ rh rl, full_product (U128 uint64_max uint64_max) (U128 uint64_max uint64_max) = Ok (rh, rl)
    ∧ to_Z rh * 2 ^ 128 + to_Z rl = (2 ^ 128 - 1) * (2 ^ 128 - 1).
Proof.
  destruct (full_product_exact (U128 uint64_max uint64_max) (U128 uint64_max uint64_max))
    as (rh & rl & E & _ & _ & V); [split; simpl; int_unfold; lia..|].
  exists rh, rl. split; [exact E|exact V].
Defined.

(** Shifts by a 128-bit amount never throw; a left shift multiplies by a
    power of two modulo 2^128, a right shift divides, and an amount of 128 or
    more gives zero. *)
Theorem uint128_shift_refines a n :
  wf a → wf n →
  (∃ r, shl_assign a n = Ok r ∧ wf r ∧ to_Z r = u128 (to_Z a * 2 ^ to_Z n)) ∧
  (∃ r, shr_assign a n = Ok r ∧ wf r ∧ to_Z r = to_Z a / 2 ^ to_Z n) ∧
  (128 <= to_Z n → shl_assign a n = Ok (U128 0 0) ∧ shr_assign a n = Ok (U128 0 0)).
Proof.
  intros Ha Hn. split_and!; [by apply shl_assign_spec|by apply shr_assign_spec|].
  intros H. unfold shl_assign, shr_assign. rewrite geb_spec by (done || by apply of_u64_spec).
  change (to_Z (uint128_of_u64 128)) with 128. by rewrite (proj2 (Z.leb_le _ _) H).
Qed.

Lemma uint128_shift_refines_witness :
  shl_assign (U128 0 5) (U128 0 70) = Ok (U128 320 0)
  ∧ shr_assign (U128 0 5) (U128 0 200) = Ok (U128 0 0).
Proof.
  split; [reflexivity|].
  apply (uint128_shift_refines (U128 0 5) (U128 0 200));
    [split; simpl; int_unfold; lia..|unfold to_Z; simpl; lia].
Defined.

(** The shift-subtract long division terminates within its 128 bits and
    returns quotient and remainder; a zero divisor throws.  [operator /=],
    which goes through the big-integer library instead, agrees with it, and
    [operator %=] is the remainder. *)
Theorem divide_correct n d :
  wf n → wf d →
  (to_Z d = 0 → divide n d = Throw domain_error ∧ div_assign n d = Throw overflow_error) ∧
  (to_Z d ≠ 0 → ∃ q r, divide n d = Ok (q, r) ∧ div_assign n d = Ok q ∧ mod_assign n d = Ok r
    ∧ to_Z q = to_Z n / to_Z d ∧ to_Z r = to_Z n mod to_Z d).
Proof.
  intros Wn Wd. split; intros Hd.
  - unfold divide, div_assign. rewrite eqb_spec, (proj2 zero_spec), Hd by apply zero_spec || done.
    split; [done|]. fold (to_Z d). by rewrite Hd.
  - destruct (divide_spec n d Wn Wd Hd) as (q & r & E & Wq & Wr & Eq & Er).
    destruct (div_assign_spec n d Wn Wd Hd) as (q' & E' & Wq' & Eq').
    exists q, r. unfold mod_assign. rewrite E, E'. split_and!; try done.
    f_equal. apply to_Z_inj; [done..|congruence].
Qed.

Lemma divide_correct_witness :
  ∃ q r, divide (U128 7 3) (U128 0 10) = Ok (q, r) ∧ to_Z q = (7 * 2 ^ 64 + 3) / 10 ∧ to_Z r = 5.
Proof.
  destruct (divide_correct (U128 7 3) (U128 0 10)) as [_ H]; [split; simpl; int_unfold; lia..|].
  destruct H as (q & r & E & _ & _ & Eq & Er); [unfold to_Z; simpl; lia|].
  exists q, r. split; [exact E|]. split; [exact Eq|]. rewrite Er. vm_compute. reflexivity.
Defined.

(** Converting a 128-bit integer to its decimal string and constructing one
    from that string gives the integer back, for every value (zero, whose
    leading zero selects the octal radix, included). *)
Theorem uint128_string_roundtrip a :
  wf a → ∃ s, to_string a = Ok s ∧ of_string s = Ok a.
Proof.
  intros W. unfold to_string. pose proof zero_spec as [W0 E0]. pose proof (to_Z_in _ W) as Hin.
  rewrite eqb_spec, E0 by done. destruct (Z.eqb_spec (to_Z a) 0) as [E|E].
  - exists "0"%string. split; [done|]. rewrite (to_Z_inj a (U128 0 0)) by done. done.
  - destruct (to_string_loop_spec 127 a EmptyString W) as (r & s & -> & Hr & a' & Ea & Wa & Va).
    { split; [unfold in_u in Hin; lia|]. eapply Z.lt_le_trans; [apply Hin|]. by vm_compute. }
    exists (String (digit_char r) s). split; [done|]. unfold of_string.
    rewrite digit_char_no_minus, digit_char_radix, Ea by lia. simpl.
    unfold mret, res_ret. f_equal. by apply to_Z_inj.
Qed.

Lemma uint128_string_roundtrip_witness :
  ∃ s, to_string (U128 1 0) = Ok s ∧ of_string s = Ok (U128 1 0).
Proof. apply uint128_string_roundtrip. split; simpl; int_unfold; lia. Defined.

(** [operator |=] is the bitwise or on every pair of values; the binary
    [operator |] is not: it assigns instead, so it gives the or only when the
    left operand has no bit that the right one lacks. *)
Theorem op_or_is_not_or :
  (∀ l r, wf l → wf r → to_Z (or_assign l r) = Z.lor (to_Z l) (to_Z r)
     ∧ (to_Z (op_or l r) = Z.lor (to_Z l) (to_Z r) ↔ Z.ldiff (to_Z l) (to_Z r) = 0))
  ∧ ∃ l r, wf l ∧ wf r ∧ to_Z (op_or l r) ≠ to_Z (or_assign l r).
Proof.
  split.
  - intros l r Hl Hr. split; [by apply or_assign_spec|]. unfold op_or. split; intros H; apply Z.bits_inj'; intros n Hn.
    + apply (f_equal (λ x, Z.testbit x n)) in H. rewrite Z.lor_spec in H.
      rewrite Z.ldiff_spec, Z.bits_0. by destruct (Z.testbit (to_Z l) n), (Z.testbit (to_Z r) n).
    + apply (f_equal (λ x, Z.testbit x n)) in H. rewrite Z.ldiff_spec, Z.bits_0 in H.
      rewrite Z.lor_spec. by destruct (Z.testbit (to_Z l) n), (Z.testbit (to_Z r) n).
  - exists (U128 0 1), (U128 0 2). split_and!; [split; simpl; int_unfold; lia..|by vm_compute].
Qed.
