(* ===== verification/SafeInt.v ===== *)
(** * Checked and saturating 64-bit arithmetic

    [fc::safe<int64_t>] (libraries/fc/include/fc/safe.hpp), the type
    [share_type] every token amount of the chain has, and the saturating
    operators of libraries/fc/include/fc/saturation.hpp used for mana.  The
    checked operators are shown to return the exact result whenever it fits
    in 64 bits and to throw otherwise; the saturating ones, which work on bit
    patterns, to be the clamped sum and difference. *)

From S2P Require Import Prelude.

(** ** fc::safe<int64_t> (safe.hpp) *)

Definition safe_add (a b : Z) : res Z :=
  _ ← check overflow_exception (negb ((0 <? b) && (int64_max - b <? a)));
  _ ← check underflow_exception (negb ((b <? 0) && (a <? int64_min - b)));
  mret (a + b).

Definition safe_sub (a b : Z) : res Z :=
  _ ← check underflow_exception (negb ((0 <? b) && (a <? int64_min + b)));
  _ ← check overflow_exception (negb ((b <? 0) && (int64_max + b <? a)));
  mret (a - b).

(** C++ division truncates towards zero: [Z.quot] and [Z.rem]. *)
Definition safe_mul (a b : Z) : res Z :=
  _ ← (if 0 <? a then
         if 0 <? b then check overflow_exception (negb (Z.quot int64_max b <? a))
         else check underflow_exception (negb (b <? Z.quot int64_min a))
       else
         if 0 <? b then check underflow_exception (negb (a <? Z.quot int64_min b))
         else check overflow_exception
                (negb (negb (a =? 0) && (b <? Z.quot int64_max a))));
  mret (a * b).

Definition safe_div (a b : Z) : res Z :=
  _ ← check divide_by_zero_exception (negb (b =? 0));
  _ ← check overflow_exception (negb ((a =? int64_min) && (b =? -1)));
  mret (Z.quot a b).

Definition safe_mod (a b : Z) : res Z :=
  _ ← check divide_by_zero_exception (negb (b =? 0));
  _ ← check overflow_exception (negb ((a =? int64_min) && (b =? -1)));
  mret (Z.rem a b).

Definition safe_neg (a : Z) : res Z :=
  _ ← check overflow_exception (negb (a =? int64_min));
  mret (- a).

(** ** Saturating operators (saturation.hpp), at [Signed = int64_t] *)

Definition signed_sat_add (x y : Z) : Z :=
  let ux := u64 x in
  let uy := u64 y in
  let r := u64 (ux + uy) in
  let sat := if 0 <=? x then u64 int64_max else u64 int64_min in
  i64 (if i64 (Z.land (u64 (Z.lnot (Z.lxor ux uy))) (Z.lxor ux r)) <? 0 then sat else r).

Definition signed_sat_sub (x y : Z) : Z :=
  let ux := u64 x in
  let uy := u64 y in
  let r := u64 (ux - uy) in
  let sat := if 0 <=? x then u64 int64_max else u64 int64_min in
  i64 (if i64 (Z.land (Z.lxor ux uy) (Z.lxor ux r)) <? 0 then sat else r).

(** ** Lemmas *)

Definition clamp64 (x : Z) : Z := Z.max int64_min (Z.min int64_max x).

Lemma safe_add_Ok a b c :
  in_s 64 a → in_s 64 b → safe_add a b = Ok c ↔ c = a + b ∧ in_s 64 (a + b).
Proof.
  intros Ha Hb. unfold safe_add. split.
  - intros H. res_inv. bools. apply andb_false_iff in Ha0, Ha1.
    destruct Ha0, Ha1; bools; split; try done; mlia.
  - intros [-> Hc]. destruct (Z.ltb_spec 0 b), (Z.ltb_spec (int64_max - b) a); try mlia; simpl;
    destruct (Z.ltb_spec b 0), (Z.ltb_spec a (int64_min - b)); try mlia; done.
Qed.

Lemma safe_sub_Ok a b c :
  in_s 64 a → in_s 64 b → safe_sub a b = Ok c ↔ c = a - b ∧ in_s 64 (a - b).
Proof.
  intros Ha Hb. unfold safe_sub. split.
  - intros H. res_inv. bools. apply andb_false_iff in Ha0, Ha1.
    destruct Ha0, Ha1; bools; split; try done; mlia.
  - intros [-> Hc]. destruct (Z.ltb_spec 0 b), (Z.ltb_spec a (int64_min + b)); try mlia; simpl;
    destruct (Z.ltb_spec b 0), (Z.ltb_spec (int64_max + b) a); try mlia; done.
Qed.

(** The three overflow guards of the product, as comparisons of the product
    itself. *)
Lemma quot_guard_pos M k x : 0 <= M → 0 < k → (Z.quot M k <? x) = (M <? x * k).
Proof.
  intros HM Hk. rewrite Z.quot_div_nonneg by lia. apply eq_iff_eq_true. rewrite !Z.ltb_lt.
  pose proof (Z.div_mod M k ltac:(lia)). pose proof (Z.mod_pos_bound M k Hk). nia.
Qed.
Lemma quot_guard_neg M k x : 0 <= M → 0 < k → (x <? Z.quot (- M) k) = (x * k <? - M).
Proof.
  intros HM Hk. rewrite Z.quot_opp_l, Z.quot_div_nonneg by lia. apply eq_iff_eq_true.
  rewrite !Z.ltb_lt.
  pose proof (Z.div_mod M k ltac:(lia)). pose proof (Z.mod_pos_bound M k Hk). nia.
Qed.
Lemma quot_guard_neg_neg M k x : 0 <= M → k < 0 → (x <? Z.quot M k) = (M <? x * k).
Proof.
  intros HM Hk. replace k with (- - k) at 1 by lia.
  rewrite Z.quot_opp_r, Z.quot_div_nonneg by lia. apply eq_iff_eq_true.
  rewrite !Z.ltb_lt.
  pose proof (Z.div_mod M (- k) ltac:(lia)). pose proof (Z.mod_pos_bound M (- k) ltac:(lia)). nia.
Qed.

Ltac mul_case :=
  unfold mret, res_ret; split;
  [intros ?; first [discriminate|simplify_eq; split; [lia|nia]]
  |intros [-> ?]; first [reflexivity|exfalso; nia]].

Lemma safe_mul_Ok a b c :
  in_s 64 a → in_s 64 b → safe_mul a b = Ok c ↔ c = a * b ∧ in_s 64 (a * b).
Proof.
  intros Ha Hb. unfold safe_mul, in_s in *. change (64 - 1) with 63 in *.
  destruct (Z.ltb_spec 0 a), (Z.ltb_spec 0 b).
  - rewrite quot_guard_pos by lia. destruct (Z.ltb_spec int64_max (a * b)); simpl; mul_case.
  - rewrite quot_guard_neg by lia. destruct (Z.ltb_spec (b * a) (- 2 ^ 63)); simpl; mul_case.
  - rewrite quot_guard_neg by lia. destruct (Z.ltb_spec (a * b) (- 2 ^ 63)); simpl; mul_case.
  - destruct (Z.eqb_spec a 0) as [->|Hne]; simpl; [mul_case|].
    rewrite quot_guard_neg_neg by lia. destruct (Z.ltb_spec int64_max (b * a)); simpl; mul_case.
Qed.

Lemma u64_sign x : in_s 64 x → Z.testbit (u64 x) 63 = (x <? 0).
Proof.
  intros Hx. rewrite Z.testbit_eqb by lia. apply eq_iff_eq_true.
  rewrite Z.eqb_eq, Z.ltb_lt. mlia.
Qed.

Lemma u64_sign_wrap x : Z.testbit (u64 x) 63 = (i64 x <? 0).
Proof. rewrite Z.testbit_eqb by lia. apply eq_iff_eq_true. rewrite Z.eqb_eq, Z.ltb_lt. mlia. Qed.

Lemma i64_neg_bit v : 0 <= v → (i64 v <? 0) = Z.testbit v 63.
Proof. intros. rewrite <- u64_sign_wrap. unfold u64, wrapu. by rewrite Z.mod_pow2_bits_low. Qed.

Lemma u64_in x : in_u 64 (u64 x).
Proof. apply wrapu_in. lia. Qed.
Lemma i64_in x : in_s 64 (i64 x).
Proof. apply wraps_in. lia. Qed.
Lemma i64_u64 x : i64 (u64 x) = i64 x.
Proof. apply wraps_wrapu. lia. Qed.
Lemma i64_small x : in_s 64 x → i64 x = x.
Proof. apply wraps_small. lia. Qed.

(** The overflow test of the saturating addition, as signs. *)
Lemma sat_add_test x y :
  in_s 64 x → in_s 64 y →
  let ux := u64 x in let uy := u64 y in let r := u64 (ux + uy) in
  (i64 (Z.land (u64 (Z.lnot (Z.lxor ux uy))) (Z.lxor ux r)) <? 0)
  = negb (xorb (x <? 0) (y <? 0)) && xorb (x <? 0) (i64 (x + y) <? 0).
Proof.
  intros Hx Hy ux uy r. pose proof (u64_in x). pose proof (u64_in y). pose proof (u64_in (ux + uy)).
  rewrite i64_neg_bit by (apply Z.land_nonneg; left; apply u64_in).
  rewrite Z.land_spec, !Z.lxor_spec. unfold u64 at 1. unfold wrapu at 1.
  rewrite Z.mod_pow2_bits_low, Z.lnot_spec, Z.lxor_spec by lia.
  subst ux uy r. rewrite !u64_sign, u64_sign_wrap by done. f_equal. f_equal.
  f_equal. mlia.
Qed.

Lemma sat_sub_test x y :
  in_s 64 x → in_s 64 y →
  let ux := u64 x in let uy := u64 y in let r := u64 (ux - uy) in
  (i64 (Z.land (Z.lxor ux uy) (Z.lxor ux r)) <? 0)
  = xorb (x <? 0) (y <? 0) && xorb (x <? 0) (i64 (x - y) <? 0).
Proof.
  intros Hx Hy ux uy r. pose proof (u64_in x). pose proof (u64_in y). pose proof (u64_in (ux - uy)).
  rewrite i64_neg_bit
    by (apply Z.land_nonneg; left; apply Z.lxor_nonneg; subst ux uy; int_unfold; lia).
  rewrite Z.land_spec, !Z.lxor_spec. subst ux uy r.
  rewrite !u64_sign, u64_sign_wrap by done. f_equal. f_equal. f_equal. mlia.
Qed.

Lemma signed_sat_add_spec x y :
  in_s 64 x → in_s 64 y → signed_sat_add x y = clamp64 (x + y).
Proof.
  intros Hx Hy. unfold signed_sat_add. cbv zeta. rewrite sat_add_test by done.
  unfold clamp64.
  destruct (Z.ltb_spec x 0), (Z.ltb_spec y 0), (Z.ltb_spec (i64 (x + y)) 0), (Z.leb_spec 0 x);
    simpl; mlia.
Qed.

Lemma signed_sat_sub_spec x y :
  in_s 64 x → in_s 64 y → signed_sat_sub x y = clamp64 (x - y).
Proof.
  intros Hx Hy. unfold signed_sat_sub. cbv zeta. rewrite sat_sub_test by done.
  unfold clamp64.
  destruct (Z.ltb_spec x 0), (Z.ltb_spec y 0), (Z.ltb_spec (i64 (x - y)) 0), (Z.leb_spec 0 x);
    simpl; mlia.
Qed.

(** ** Main theorems *)

(** The one quotient of two 64-bit numbers that is not one. *)
Lemma quot_fits a b :
  in_s 64 a → in_s 64 b → b ≠ 0 → negb ((a =? int64_min) && (b =? -1)) = bool_decide (in_s 64 (Z.quot a b)).
Proof.
  intros Ha Hb Hb0. assert (a = int64_min ∧ b = -1 ↔ ¬ in_s 64 (Z.quot a b)) as Hq.
  { split; [intros [-> ->]; by vm_compute; intros []|]. intros Hn.
    destruct (decide (a = int64_min ∧ b = -1)) as [|Hno]; [done|]. exfalso. apply Hn.
    pose proof (Z.quot_rem' a b). pose proof (Z.rem_bound_abs a b Hb0).
    int_unfold. destruct (Z.eq_dec b (-1)); [subst; change (-1) with (- (1)); rewrite Z.quot_opp_r, Z.quot_1_r by lia; lia|].
    destruct (Z.eq_dec b 1); [subst; rewrite Z.quot_1_r by lia; lia|].
    pose proof (Z.quot_abs a b Hb0). pose proof (Z.quot_lt (Z.abs a) (Z.abs b)).
    destruct (Z.eq_dec a 0); [subst; rewrite Z.quot_0_l by lia; lia|]. lia. }
  apply eq_iff_eq_true. rewrite negb_true_iff, andb_false_iff, !Z.eqb_neq, bool_decide_eq_true.
  destruct (decide (a = int64_min)), (decide (b = -1)), (decide (in_s 64 (Z.quot a b))); tauto.
Qed.

Lemma safe_div_Ok a b c :
  in_s 64 a → in_s 64 b → safe_div a b = Ok c ↔ c = Z.quot a b ∧ b ≠ 0 ∧ in_s 64 (Z.quot a b).
Proof.
  intros Ha Hb. unfold safe_div. destruct (Z.eqb_spec b 0) as [->|Hb0]; [simpl; naive_solver|]. cbn [negb check mbind res_bind].
  rewrite quot_fits by done. case_bool_decide; simpl; unfold mret, res_ret; naive_solver.
Qed.

Lemma safe_mod_Ok a b c :
  in_s 64 a → in_s 64 b → safe_mod a b = Ok c ↔ c = Z.rem a b ∧ b ≠ 0 ∧ in_s 64 (Z.quot a b).
Proof.
  intros Ha Hb. unfold safe_mod. destruct (Z.eqb_spec b 0) as [->|Hb0]; [simpl; naive_solver|]. cbn [negb check mbind res_bind].
  rewrite quot_fits by done. case_bool_decide; simpl; unfold mret, res_ret; naive_solver.
Qed.

Lemma safe_neg_Ok a c : in_s 64 a → safe_neg a = Ok c ↔ c = - a ∧ in_s 64 (- a).
Proof.
  intros Ha. unfold safe_neg. destruct (Z.eqb_spec a int64_min) as [->|Hne]; cbn [negb check mbind res_bind].
  - split; [done|]. intros [_ H]. exfalso. int_unfold. lia.
  - unfold mret, res_ret. split; [intros [= <-]|intros [-> _]; done]. split; [done|]. int_unfold. lia.
Qed.

(** C32: the operators of [share_type] +, -, *, / and the unary minus return the
    exact integer result when it fits in 64 bits and throw otherwise (division
    also for a divisor 0): no such operation on a token amount wraps around.  The
    remainder is exact too, but is refused where the quotient is: for a divisor 0
    and for the smallest number modulo -1, although the remainder 0 would fit. *)
Theorem safe_ops_exact a b :
  in_s 64 a → in_s 64 b →
  (∀ c, safe_add a b = Ok c ↔ c = a + b ∧ in_s 64 (a + b)) ∧
  (∀ c, safe_sub a b = Ok c ↔ c = a - b ∧ in_s 64 (a - b)) ∧
  (∀ c, safe_mul a b = Ok c ↔ c = a * b ∧ in_s 64 (a * b)) ∧
  (∀ c, safe_div a b = Ok c ↔ c = Z.quot a b ∧ b ≠ 0 ∧ in_s 64 (Z.quot a b)) ∧
  (∀ c, safe_neg a = Ok c ↔ c = - a ∧ in_s 64 (- a)) ∧
  (∀ c, safe_mod a b = Ok c ↔ c = Z.rem a b ∧ b ≠ 0 ∧ ¬ (a = int64_min ∧ b = -1)).
Proof.
  intros Ha Hb. split_and!; intros c; [by apply safe_add_Ok|by apply safe_sub_Ok|by apply safe_mul_Ok|by apply safe_div_Ok|by apply safe_neg_Ok|].
  rewrite safe_mod_Ok by done. destruct (decide (b = 0)) as [|Hb0]; [naive_solver|].
  pose proof (quot_fits a b Ha Hb Hb0) as Hq. apply eq_iff_eq_true in Hq.
  rewrite negb_true_iff, andb_false_iff, !Z.eqb_neq, bool_decide_eq_true in Hq.
  destruct (decide (a = int64_min)), (decide (b = -1)); tauto.
Qed.

Lemma safe_ops_exact_witness :
  safe_mul (2 ^ 32) (2 ^ 30) = Ok (2 ^ 62) ∧ ¬ in_s 64 (2 ^ 32 * 2 ^ 31).
Proof.
  destruct (safe_ops_exact (2 ^ 32) (2 ^ 30)) as (_ & _ & H & _); [int_unfold; lia..|].
  split; [apply H; int_unfold; lia|int_unfold; lia].
Defined.

(** The branch-free saturating addition and subtraction on bit patterns
    return the mathematical sum and difference clamped to the [int64_t]
    range. *)
Theorem signed_sat_clamps x y :
  in_s 64 x → in_s 64 y →
  signed_sat_add x y = clamp64 (x + y) ∧ signed_sat_sub x y = clamp64 (x - y).
Proof. intros. split; [by apply signed_sat_add_spec|by apply signed_sat_sub_spec]. Qed.

Lemma signed_sat_clamps_witness :
  signed_sat_add int64_max 1 = int64_max ∧ signed_sat_sub int64_min 1 = int64_min.
Proof.
  split; [apply (signed_sat_clamps int64_max 1)|apply (signed_sat_clamps int64_min 1)];
    int_unfold; lia.
Defined.
