(* ===== verification/AssetSymbol.v ===== *)
(** * Asset symbols

    [asset_symbol_type] of libraries/protocol (asset_symbol.hpp, asset.cpp): a
    32-bit asset number that is either one of three legacy constants or
    [nai_data_digits << 5 | 0x10 | decimals].  Modelled are the Damm check
    digit, the conversions between asset numbers and numeric asset
    identifiers (NAI), the NAI strings, the vesting/liquid pairing and the
    binary serialization. *)

From S2P Require Import Prelude.
From Stdlib Require Import Ascii String.

(** ** Constants (asset_symbol.hpp) *)

Definition NAI_SHIFT : Z := 5.
Definition SST_MAX_NAI : Z := 99999999.
Definition SST_MIN_NAI : Z := 1.
Definition PRECISION_SBD : Z := 3.
Definition PRECISION_freezone : Z := 3.
Definition PRECISION_VESTS : Z := 6.
Definition NAI_SBD : Z := 1.
Definition NAI_freezone : Z := 2.
Definition NAI_VESTS : Z := 3.
Definition ASSET_NUM_SBD : Z :=
  u32 (Z.lor (Z.shiftl (SST_MAX_NAI + NAI_SBD) NAI_SHIFT) PRECISION_SBD).
Definition ASSET_NUM_freezone : Z :=
  u32 (Z.lor (Z.shiftl (SST_MAX_NAI + NAI_freezone) NAI_SHIFT) PRECISION_freezone).
Definition ASSET_NUM_VESTS : Z :=
  u32 (Z.lor (Z.shiftl (SST_MAX_NAI + NAI_VESTS) NAI_SHIFT) PRECISION_VESTS).
Definition ASSET_MAX_DECIMALS : Z := 12.
Definition PRECISION_MASK : Z := 0xF.
Definition CONTROL_MASK : Z := 0x10.
Definition VESTING_MASK : Z := 0x20.
Definition NAI_STRING_LENGTH : Z := 12.

(** A symbol is its [asset_num]. *)
Abbreviation asset_symbol_type := Z (only parsing).

Definition VESTS_SYMBOL : asset_symbol_type := ASSET_NUM_VESTS.
Definition freezone_SYMBOL : asset_symbol_type := ASSET_NUM_freezone.
Definition SBD_SYMBOL : asset_symbol_type := ASSET_NUM_SBD.

Inductive asset_symbol_space := legacy_space | SST_nai_space.

(** ** Operations (asset.cpp) *)

Definition space (s : asset_symbol_type) : asset_symbol_space :=
  if (s =? ASSET_NUM_freezone) || (s =? ASSET_NUM_SBD) || (s =? ASSET_NUM_VESTS)
  then legacy_space else SST_nai_space.

Definition decimals (s : asset_symbol_type) : Z := u8 (Z.land s PRECISION_MASK).

(** [asset_symbol_type::validate]. *)
Definition symbol_validate (s : asset_symbol_type) : res unit :=
  if (s =? ASSET_NUM_freezone) || (s =? ASSET_NUM_SBD) || (s =? ASSET_NUM_VESTS) then mret tt
  else
    let nai_data_digits := Z.shiftr s NAI_SHIFT in
    let nai_1bit := Z.land s CONTROL_MASK in
    let nai_decimal_places := Z.land s PRECISION_MASK in
    fc_assert ((SST_MIN_NAI <=? nai_data_digits) && (nai_data_digits <=? SST_MAX_NAI)
               && (nai_1bit =? CONTROL_MASK) && (nai_decimal_places <=? ASSET_MAX_DECIMALS)).

(** The table of the Damm quasigroup, entries multiplied by ten so that they
    serve as row offsets. *)
Definition damm_table : list Z :=
  [ 0; 30; 10; 70; 50; 90; 80; 60; 40; 20;
   70;  0; 90; 20; 10; 50; 40; 80; 60; 30;
   40; 20;  0; 60; 80; 70; 10; 30; 50; 90;
   10; 70; 50;  0; 90; 80; 30; 40; 20; 60;
   60; 10; 20; 30;  0; 40; 50; 90; 70; 80;
   30; 60; 70; 40; 20;  0; 90; 50; 80; 10;
   50; 80; 60; 90; 70; 20;  0; 10; 30; 40;
   80; 90; 40; 50; 30; 60; 20;  0; 10; 70;
   90; 40; 30; 80; 60; 10; 70; 20;  0; 50;
   20; 50; 80; 10; 40; 30; 60; 70; 90;  0].

(** [t[i]]; the indices the code computes are within the table. *)
Definition damm_t (i : Z) : Z := nth (Z.to_nat i) damm_table 0.

Definition damm_checksum_8digit (value : Z) : res Z :=
  _ ← fc_assert (value <? 100000000);
  let q0 := value / 10 in
  let d0 := value mod 10 in
  let q1 := q0 / 10 in
  let d1 := q0 mod 10 in
  let q2 := q1 / 10 in
  let d2 := q1 mod 10 in
  let q3 := q2 / 10 in
  let d3 := q2 mod 10 in
  let q4 := q3 / 10 in
  let d4 := q3 mod 10 in
  let q5 := q4 / 10 in
  let d5 := q4 mod 10 in
  let d6 := q5 mod 10 in
  let d7 := q5 / 10 in
  let x := damm_t d7 in
  let x := damm_t (x + d6) in
  let x := damm_t (x + d5) in
  let x := damm_t (x + d4) in
  let x := damm_t (x + d3) in
  let x := damm_t (x + d2) in
  let x := damm_t (x + d1) in
  let x := damm_t (x + d0) in
  mret (x / 10).

Definition asset_num_from_nai (nai decimal_places : Z) : res asset_symbol_type :=
  let nai_check_digit := nai mod 10 in
  let nai_data_digits := nai / 10 in
  _ ← fc_assert ((SST_MIN_NAI <=? nai_data_digits) && (nai_data_digits <=? SST_MAX_NAI));
  c ← damm_checksum_8digit nai_data_digits;
  _ ← fc_assert (nai_check_digit =? c);
  if nai_data_digits =? NAI_freezone then
    _ ← fc_assert (decimal_places =? PRECISION_freezone); mret ASSET_NUM_freezone
  else if nai_data_digits =? NAI_SBD then
    _ ← fc_assert (decimal_places =? PRECISION_SBD); mret ASSET_NUM_SBD
  else if nai_data_digits =? NAI_VESTS then
    _ ← fc_assert (decimal_places =? PRECISION_VESTS); mret ASSET_NUM_VESTS
  else
    _ ← fc_assert (decimal_places <=? ASSET_MAX_DECIMALS);
    mret (Z.lor (Z.lor (u32 (Z.shiftl nai_data_digits NAI_SHIFT)) CONTROL_MASK) decimal_places).

Definition to_nai (s : asset_symbol_type) : res Z :=
  let nai_data_digits :=
    if s =? ASSET_NUM_freezone then NAI_freezone
    else if s =? ASSET_NUM_SBD then NAI_SBD
    else if s =? ASSET_NUM_VESTS then NAI_VESTS
    else Z.shiftr s NAI_SHIFT in
  nai_check_digit ← damm_checksum_8digit nai_data_digits;
  mret (u32 (nai_data_digits * 10 + nai_check_digit)).

Definition is_vesting (s : asset_symbol_type) : bool :=
  match space s with
  | legacy_space => s =? ASSET_NUM_VESTS
  | SST_nai_space => negb (Z.land s VESTING_MASK =? 0)
  end.

Definition get_paired_symbol (s : asset_symbol_type) : asset_symbol_type :=
  match space s with
  | legacy_space =>
      if s =? ASSET_NUM_freezone then ASSET_NUM_VESTS
      else if s =? ASSET_NUM_SBD then s
      else ASSET_NUM_freezone
  | SST_nai_space => Z.lxor s VESTING_MASK
  end.

Definition get_vesting_symbol (s : asset_symbol_type) : res asset_symbol_type :=
  match space s with
  | legacy_space =>
      if s =? ASSET_NUM_SBD then Throw assert_exception else mret VESTS_SYMBOL
  | SST_nai_space => mret (Z.lor s VESTING_MASK)
  end.

Definition get_liquid_symbol (s : asset_symbol_type) : asset_symbol_type :=
  match space s with
  | legacy_space => if s =? ASSET_NUM_SBD then SBD_SYMBOL else freezone_SYMBOL
  | SST_nai_space => Z.land s (u32 (Z.lnot VESTING_MASK))
  end.

(** ** NAI strings (asset.cpp)

    [boost::lexical_cast] is not part of the repository: it is the parameter
    [lexical_cast_u32], assumed to read a nonempty string of decimal digits as
    its value when that fits in 32 bits. *)

Definition digit_ascii (d : Z) : ascii := ascii_of_nat (Z.to_nat (d + 48)).

Definition to_nai_string (s : asset_symbol_type) : res string :=
  x ← to_nai s;
  let c10 := digit_ascii (x mod 10) in let x := x / 10 in
  let c9 := digit_ascii (x mod 10) in let x := x / 10 in
  let c8 := digit_ascii (x mod 10) in let x := x / 10 in
  let c7 := digit_ascii (x mod 10) in let x := x / 10 in
  let c6 := digit_ascii (x mod 10) in let x := x / 10 in
  let c5 := digit_ascii (x mod 10) in let x := x / 10 in
  let c4 := digit_ascii (x mod 10) in let x := x / 10 in
  let c3 := digit_ascii (x mod 10) in let x := x / 10 in
  let c2 := digit_ascii x in
  mret (String "@" (String "@" (String c2 (String c3 (String c4 (String c5 (String c6
         (String c7 (String c8 (String c9 (String c10 EmptyString))))))))))).

Definition from_nai_string (lexical_cast_u32 : string → res Z) (p : string) (decimal_places : Z) :
  res asset_symbol_type :=
  _ ← fc_assert (Z.of_nat (String.length p) =? NAI_STRING_LENGTH - 1);
  match p with
  | String "@" (String "@" digits) =>
      nai ← lexical_cast_u32 digits;
      asset_num_from_nai nai decimal_places
  | _ => Throw assert_exception
  end.

(** The value of a string of decimal digits, most significant first. *)
Fixpoint decimal_value (acc : Z) (s : string) : option Z :=
  match s with
  | EmptyString => Some acc
  | String c s =>
      let d := Z.of_nat (nat_of_ascii c) - 48 in
      if (0 <=? d) && (d <=? 9) then decimal_value (acc * 10 + d) s else None
  end.

(** What the code relies on of [lexical_cast<uint32_t>]. *)
Class LexicalCastU32 (lexical_cast_u32 : string → res Z) : Prop := {
  lexical_cast_digits : ∀ s v,
    s ≠ EmptyString → decimal_value 0 s = Some v → v < 2 ^ 32 → lexical_cast_u32 s = Ok v
}.

(** ** Binary serialization (asset_symbol.hpp) *)

Definition U64_of_chars (l : list Z) : Z := foldr (fun c acc => c + 256 * acc) 0 l.

Definition VESTS_SYMBOL_SER : Z :=
  Z.lor 6 (Z.shiftl (U64_of_chars [86; 69; 83; 84; 83]) 8).   (* VESTS *)
Definition freezone_SYMBOL_SER : Z :=
  Z.lor 3 (Z.shiftl (U64_of_chars [83; 84; 69; 69; 77]) 8).   (* STEEM *)
Definition SBD_SYMBOL_SER : Z :=
  Z.lor 3 (Z.shiftl (U64_of_chars [83; 66; 68]) 8).           (* SBD *)

(** Little-endian bytes of an [n]-byte integer, and back. *)
Fixpoint le_bytes (n : nat) (x : Z) : list Z :=
  match n with
  | O => []
  | S n => x mod 256 :: le_bytes n (x / 256)
  end.
Definition le_value (l : list Z) : Z := foldr (fun c acc => c + 256 * acc) 0 l.

(** [Stream::read]: throws when fewer than [n] bytes are left. *)
Definition read (n : nat) (s : list Z) : res (list Z * list Z) :=
  _ ← check out_of_range (bool_decide (n ≤ List.length s)%nat);
  mret (take n s, drop n s).

Definition pack (sym : asset_symbol_type) : list Z :=
  match space sym with
  | legacy_space =>
      let ser := if sym =? ASSET_NUM_freezone then freezone_SYMBOL_SER
                 else if sym =? ASSET_NUM_SBD then SBD_SYMBOL_SER
                 else VESTS_SYMBOL_SER in
      le_bytes 8 ser
  | SST_nai_space => le_bytes 4 sym
  end.

Definition unpack_legacy (ser4 expected asset_num : Z) (s : list Z) :
  res (asset_symbol_type * list Z) :=
  '(b, s) ← read 4 s;
  let ser := ser4 + 2 ^ 32 * le_value b in
  _ ← fc_assert (ser =? expected);
  mret (asset_num, s).

Definition unpack (s : list Z) : res (asset_symbol_type * list Z) :=
  '(b, s) ← read 4 s;
  let ser := le_value b in
  '(sym, s) ←
    (if ser =? Z.land freezone_SYMBOL_SER 0xFFFFFFFF then
       unpack_legacy ser freezone_SYMBOL_SER ASSET_NUM_freezone s
     else if ser =? Z.land SBD_SYMBOL_SER 0xFFFFFFFF then
       unpack_legacy ser SBD_SYMBOL_SER ASSET_NUM_SBD s
     else if ser =? Z.land VESTS_SYMBOL_SER 0xFFFFFFFF then
       unpack_legacy ser VESTS_SYMBOL_SER ASSET_NUM_VESTS s
     else mret (u32 ser, s));
  _ ← symbol_validate sym;
  mret (sym, s).

(** ** Valid symbols *)

(** [symbol_validate] as a proposition: a legacy constant, or an asset number
    with its fields in range. *)
Definition is_legacy (s : asset_symbol_type) : Prop :=
  s = ASSET_NUM_freezone ∨ s = ASSET_NUM_SBD ∨ s = ASSET_NUM_VESTS.
Definition is_sst (s : asset_symbol_type) (digits dec : Z) : Prop :=
  s = digits * 32 + 16 + dec ∧ SST_MIN_NAI <= digits <= SST_MAX_NAI ∧ 0 <= dec <= ASSET_MAX_DECIMALS.

Lemma asset_nums :
  ASSET_NUM_SBD = 3200000003 ∧ ASSET_NUM_freezone = 3200000035 ∧ ASSET_NUM_VESTS = 3200000070.
Proof. done. Qed.

Lemma is_sst_not_legacy s digits dec : is_sst s digits dec → ¬ is_legacy s.
Proof.
  unfold is_sst, is_legacy, SST_MIN_NAI, SST_MAX_NAI, ASSET_MAX_DECIMALS.
  pose proof asset_nums as (-> & -> & ->). lia.
Qed.

Lemma legacy_test s :
  (s =? ASSET_NUM_freezone) || (s =? ASSET_NUM_SBD) || (s =? ASSET_NUM_VESTS) = true ↔ is_legacy s.
Proof. unfold is_legacy. rewrite !orb_true_iff, !Z.eqb_eq. tauto. Qed.

Lemma legacy_test_false s :
  (s =? ASSET_NUM_freezone) || (s =? ASSET_NUM_SBD) || (s =? ASSET_NUM_VESTS) = false ↔ ¬ is_legacy s.
Proof. rewrite <- legacy_test. by rewrite not_true_iff_false. Qed.

Lemma control_bit s : Z.land s CONTROL_MASK = CONTROL_MASK ↔ (s / 16) mod 2 = 1.
Proof.
  change CONTROL_MASK with (2 ^ 4). split; intros H.
  - assert (Z.testbit (Z.land s (2 ^ 4)) 4 = true) as E by (rewrite H; done).
    rewrite Z.land_spec, Z.pow2_bits_true, andb_true_r in E by lia.
    rewrite Z.testbit_eqb in E by lia. apply Z.eqb_eq in E. exact E.
  - apply Z.bits_inj'. intros i Hi. rewrite Z.land_spec.
    destruct (decide (i = 4)) as [->|].
    + rewrite Z.pow2_bits_true, andb_true_r, Z.testbit_eqb by lia. apply Z.eqb_eq. exact H.
    + rewrite Z.pow2_bits_false, andb_false_r by lia. done.
Qed.

Lemma symbol_validate_spec s :
  in_u 32 s →
  symbol_validate s = Ok tt ↔ is_legacy s ∨ ∃ digits dec, is_sst s digits dec.
Proof.
  intros Hs. unfold symbol_validate.
  destruct (_ || _ || _) eqn:Hl; [apply legacy_test in Hl; tauto|].
  apply legacy_test_false in Hl. rewrite fc_assert_Ok, !andb_true_iff, !Z.leb_le, Z.eqb_eq, control_bit.
  change PRECISION_MASK with (Z.ones 4). rewrite Z.land_ones, Z.shiftr_div_pow2 by done.
  unfold is_sst, NAI_SHIFT, SST_MIN_NAI, SST_MAX_NAI, ASSET_MAX_DECIMALS in *.
  change (2 ^ 5) with 32. change (2 ^ 4) with 16. split.
  - intros (((? & ?) & ?) & ?). right. exists (s / 32), (s mod 16). mlia.
  - intros [?|(digits & dec & -> & ? & ?)]; [tauto|].
    split_and!; Z.div_mod_to_equations; lia.
Qed.

(** ** The Damm check digit *)

(** Reference definition: the quasigroup operation and its fold over a list
    of digits, most significant first. *)
Definition damm_op (x d : Z) : Z := damm_t (10 * x + d) / 10.
Definition damm (ds : list Z) : Z := foldl damm_op 0 ds.
Definition of_digits (ds : list Z) : Z := foldl (fun acc d => acc * 10 + d) 0 ds.
Definition is_digit (d : Z) : Prop := 0 <= d <= 9.

Definition digits10 : list Z := [0; 1; 2; 3; 4; 5; 6; 7; 8; 9].

Lemma is_digit_elem d : is_digit d → d ∈ digits10.
Proof.
  unfold is_digit, digits10. intros. rewrite !elem_of_cons.
  assert (d = 0 ∨ d = 1 ∨ d = 2 ∨ d = 3 ∨ d = 4 ∨ d = 5 ∨ d = 6 ∨ d = 7 ∨ d = 8 ∨ d = 9) by lia.
  tauto.
Qed.

(** A property of all digits is decided by running it on the ten of them. *)
Lemma digits_forall (P : Z → bool) :
  forallb P digits10 = true → ∀ d, is_digit d → P d = true.
Proof.
  intros H d Hd. rewrite forallb_forall in H. apply H, list_elem_of_In, is_digit_elem, Hd.
Qed.
Lemma digits_forall2 (P : Z → Z → bool) :
  forallb (fun a => forallb (P a) digits10) digits10 = true →
  ∀ a b, is_digit a → is_digit b → P a b = true.
Proof. intros H a b Ha Hb. exact (digits_forall _ (digits_forall _ H a Ha) b Hb). Qed.
Lemma digits_forall3 (P : Z → Z → Z → bool) :
  forallb (fun a => forallb (fun b => forallb (P a b) digits10) digits10) digits10 = true →
  ∀ a b c, is_digit a → is_digit b → is_digit c → P a b c = true.
Proof. intros H a b c Ha Hb Hc. exact (digits_forall _ (digits_forall2 _ H a b Ha Hb) c Hc). Qed.

Lemma damm_op_digit x d : is_digit x → is_digit d → is_digit (damm_op x d).
Proof.
  intros Hx Hd. unfold is_digit.
  pose proof (digits_forall2 (fun x d => (0 <=? damm_op x d) && (damm_op x d <=? 9))
    ltac:(by vm_compute) x d Hx Hd) as H. simpl in H. bools. lia.
Qed.

(** The table holds ten times the operation. *)
Lemma damm_t_op x d : is_digit x → is_digit d → damm_t (10 * x + d) = 10 * damm_op x d.
Proof.
  intros Hx Hd.
  pose proof (digits_forall2 (fun x d => damm_t (10 * x + d) =? 10 * damm_op x d)
    ltac:(by vm_compute) x d Hx Hd) as H. by apply Z.eqb_eq in H.
Qed.

(** Rows and columns are permutations, and the operation is totally
    antisymmetric. *)
Lemma damm_op_inj_r x d d' :
  is_digit x → is_digit d → is_digit d' → damm_op x d = damm_op x d' → d = d'.
Proof.
  intros Hx Hd Hd' E.
  pose proof (digits_forall3 (fun x d d' => negb (damm_op x d =? damm_op x d') || (d =? d'))
    ltac:(by vm_compute) x d d' Hx Hd Hd') as H. simpl in H.
  rewrite E, Z.eqb_refl in H. by apply Z.eqb_eq in H.
Qed.
Lemma damm_op_inj_l x x' d :
  is_digit x → is_digit x' → is_digit d → damm_op x d = damm_op x' d → x = x'.
Proof.
  intros Hx Hx' Hd E.
  pose proof (digits_forall3 (fun x x' d => negb (damm_op x d =? damm_op x' d) || (x =? x'))
    ltac:(by vm_compute) x x' d Hx Hx' Hd) as H. simpl in H.
  rewrite E, Z.eqb_refl in H. by apply Z.eqb_eq in H.
Qed.
Lemma damm_op_antisym c x y :
  is_digit c → is_digit x → is_digit y →
  damm_op (damm_op c x) y = damm_op (damm_op c y) x → x = y.
Proof.
  intros Hc Hx Hy E.
  pose proof (digits_forall3
    (fun c x y => negb (damm_op (damm_op c x) y =? damm_op (damm_op c y) x) || (x =? y))
    ltac:(by vm_compute) c x y Hc Hx Hy) as H. simpl in H.
  rewrite E, Z.eqb_refl in H. by apply Z.eqb_eq in H.
Qed.
Lemma damm_op_zero x d : is_digit x → is_digit d → damm_op x d = 0 ↔ d = x.
Proof.
  intros Hx Hd.
  pose proof (digits_forall2 (fun x d => Bool.eqb (damm_op x d =? 0) (d =? x))
    ltac:(by vm_compute) x d Hx Hd) as H. simpl in H.
  apply eqb_prop in H. rewrite <- !Z.eqb_eq. by rewrite H.
Qed.

Lemma damm_fold_digit ds x :
  is_digit x → Forall is_digit ds → is_digit (foldl damm_op x ds).
Proof.
  intros Hx Hds. revert x Hx. induction Hds as [|d ds Hd Hds IH]; intros x Hx; [done|].
  apply IH. by apply damm_op_digit.
Qed.

Lemma damm_fold_inj ds x x' :
  is_digit x → is_digit x' → Forall is_digit ds →
  foldl damm_op x ds = foldl damm_op x' ds → x = x'.
Proof.
  intros Hx Hx' Hds. revert x x' Hx Hx'. induction Hds as [|d ds Hd Hds IH]; intros x x' Hx Hx' E;
    [done|]. simpl in E. apply IH in E; [|by apply damm_op_digit..].
  by apply damm_op_inj_l in E.
Qed.

Lemma of_digits_snoc ds d : of_digits (ds ++ [d]) = of_digits ds * 10 + d.
Proof. unfold of_digits. by rewrite foldl_app. Qed.
Lemma damm_snoc ds d : damm (ds ++ [d]) = damm_op (damm ds) d.
Proof. unfold damm. by rewrite foldl_app. Qed.

Lemma snoc_div m d : is_digit d → (m * 10 + d) / 10 = m.
Proof. unfold is_digit. intros. Z.div_mod_to_equations; lia. Qed.
Lemma snoc_mod m d : is_digit d → (m * 10 + d) mod 10 = d.
Proof. unfold is_digit. intros. Z.div_mod_to_equations; lia. Qed.

Lemma of_digits_bound ds :
  Forall is_digit ds → 0 <= of_digits ds < 10 ^ Z.of_nat (List.length ds).
Proof.
  induction ds as [|d ds IH] using rev_ind; [done|]. rewrite Forall_app. intros [Hds Hd].
  inversion_clear Hd. rewrite of_digits_snoc, length_app. simpl.
  rewrite Nat2Z.inj_add, Z.pow_add_r by lia. specialize (IH Hds). unfold is_digit in *. lia.
Qed.

(** The unrolled code is the fold of the quasigroup operation. *)
Lemma damm_checksum_spec d7 d6 d5 d4 d3 d2 d1 d0 :
  let ds := [d7; d6; d5; d4; d3; d2; d1; d0] in
  Forall is_digit ds → damm_checksum_8digit (of_digits ds) = Ok (damm ds).
Proof.
  intros ds Hds. pose proof (of_digits_bound ds Hds) as Hb. simpl in Hb.
  unfold damm_checksum_8digit. rewrite (proj2 (Z.ltb_lt _ _)) by (apply Hb).
  subst ds. repeat match goal with H : Forall _ (_ :: _) |- _ => inversion H; clear H; subst end.
  cbn [fc_assert mbind res_bind]. unfold of_digits; cbn [foldl].
  repeat rewrite ?snoc_div, ?snoc_mod by done. cbv zeta.
  rewrite Z.mul_0_l, Z.add_0_l.
  assert (is_digit 0) as H0 by (unfold is_digit; lia).
  replace (damm_t d7) with (10 * damm_op 0 d7) by (rewrite <- damm_t_op by done; f_equal; lia).
  repeat rewrite damm_t_op by (repeat apply damm_op_digit; done).
  unfold mret, res_ret. f_equal. rewrite Z.mul_comm, Z.div_mul by lia. done.
Qed.

(** Every number of at most eight digits is read off its digits. *)
Lemma digits8 v :
  0 <= v < 100000000 →
  ∃ d7 d6 d5 d4 d3 d2 d1 d0, Forall is_digit [d7; d6; d5; d4; d3; d2; d1; d0]
    ∧ v = of_digits [d7; d6; d5; d4; d3; d2; d1; d0].
Proof.
  intros Hv.
  exists (v / 10000000), (v / 1000000 mod 10), (v / 100000 mod 10), (v / 10000 mod 10),
    (v / 1000 mod 10), (v / 100 mod 10), (v / 10 mod 10), (v mod 10).
  split; [repeat constructor; unfold is_digit; Z.div_mod_to_equations; lia|].
  unfold of_digits; cbn [foldl]. Z.div_mod_to_equations; lia.
Qed.

Lemma damm_checksum_total v :
  0 <= v < 100000000 → ∃ c, damm_checksum_8digit v = Ok c ∧ is_digit c.
Proof.
  intros Hv. destruct (digits8 v Hv) as (d7&d6&d5&d4&d3&d2&d1&d0&Hds&->).
  eexists. split; [by apply damm_checksum_spec|]. by apply damm_fold_digit.
Qed.

(** A nine-digit identifier passes the check exactly when the fold over all
    its digits, check digit included, ends in zero. *)
Lemma from_nai_damm ds c dec s :
  List.length ds = 8%nat → Forall is_digit (ds ++ [c]) →
  asset_num_from_nai (of_digits (ds ++ [c])) dec = Ok s → damm (ds ++ [c]) = 0.
Proof.
  intros Hlen Hds H. rewrite Forall_app in Hds. destruct Hds as [Hds Hc].
  inversion_clear Hc as [|?? Hc' _].
  do 8 (destruct ds as [|? ds]; [done|]). destruct ds; [|done].
  unfold asset_num_from_nai in H. rewrite of_digits_snoc, snoc_div, snoc_mod in H by done.
  apply bind_Ok in H as ([] & _ & H). apply bind_Ok in H as (q & Hq & H).
  rewrite damm_checksum_spec in Hq by done. injection Hq as <-.
  apply bind_Ok in H as ([] & Hq & _). apply fc_assert_Ok, Z.eqb_eq in Hq. subst c.
  rewrite damm_snoc. apply damm_op_zero; [by apply damm_fold_digit..|done].
Qed.

Lemma damm_substitution pre d d' post :
  Forall is_digit (pre ++ d :: post) → is_digit d' →
  damm (pre ++ d :: post) = damm (pre ++ d' :: post) → d = d'.
Proof.
  rewrite Forall_app, Forall_cons_iff. intros (Hpre & Hd & Hpost) Hd'. unfold damm. rewrite !foldl_app.
  simpl. set (x := foldl damm_op 0 pre). intros E.
  assert (is_digit x) by (by apply damm_fold_digit).
  apply damm_fold_inj in E; [|by apply damm_op_digit..|done]. by apply damm_op_inj_r in E.
Qed.

Lemma damm_transposition pre a b post :
  Forall is_digit (pre ++ a :: b :: post) →
  damm (pre ++ a :: b :: post) = damm (pre ++ b :: a :: post) → a = b.
Proof.
  rewrite Forall_app, !Forall_cons_iff. intros (Hpre & Ha & Hb & Hpost). unfold damm. rewrite !foldl_app.
  simpl. set (x := foldl damm_op 0 pre). intros E.
  assert (is_digit x) by (by apply damm_fold_digit).
  apply damm_fold_inj in E; [|by repeat apply damm_op_digit..|done].
  by apply damm_op_antisym in E.
Qed.

(** ** Fields of an asset number *)

Lemma lor_fields digits dec :
  0 <= digits → 0 <= dec < 16 →
  Z.lor (Z.lor (Z.shiftl digits 5) CONTROL_MASK) dec = digits * 32 + 16 + dec.
Proof.
  intros Hd Hdec. rewrite Z.shiftl_mul_pow2 by lia. change (2 ^ 5) with 32.
  rewrite (lor_low_high (digits * 32) CONTROL_MASK 5)
    by (done || by apply Z.mod_mul). change CONTROL_MASK with 16.
  apply (lor_low_high _ _ 4); [done|done|]. change (2 ^ 4) with 16. Z.div_mod_to_equations; lia.
Qed.

Lemma sst_decimals s digits dec : is_sst s digits dec → decimals s = dec.
Proof.
  intros (-> & Hd & Hdec). unfold decimals, ASSET_MAX_DECIMALS in *.
  change PRECISION_MASK with (Z.ones 4). rewrite Z.land_ones by lia. change (2 ^ 4) with 16. mlia.
Qed.

Lemma sst_digits s digits dec : is_sst s digits dec → Z.shiftr s NAI_SHIFT = digits.
Proof.
  intros (-> & Hd & Hdec). unfold ASSET_MAX_DECIMALS, SST_MIN_NAI in *.
  change NAI_SHIFT with 5. rewrite Z.shiftr_div_pow2 by lia. change (2 ^ 5) with 32. mlia.
Qed.

Lemma to_nai_sst s digits dec c :
  is_sst s digits dec → damm_checksum_8digit digits = Ok c → is_digit c →
  to_nai s = Ok (digits * 10 + c).
Proof.
  intros Hs Hc Hdc. unfold to_nai. pose proof (is_sst_not_legacy _ _ _ Hs) as Hl.
  unfold is_legacy in Hl.
  destruct (Z.eqb_spec s ASSET_NUM_freezone); [tauto|].
  destruct (Z.eqb_spec s ASSET_NUM_SBD); [tauto|].
  destruct (Z.eqb_spec s ASSET_NUM_VESTS); [tauto|].
  rewrite (sst_digits _ _ _ Hs), Hc. destruct Hs as (_ & Hd & _).
  cbn [mbind res_bind]. unfold mret, res_ret. f_equal.
  unfold SST_MIN_NAI, SST_MAX_NAI, is_digit in *. mlia.
Qed.

Lemma from_nai_sst digits dec c :
  NAI_VESTS < digits <= SST_MAX_NAI → 0 <= dec <= ASSET_MAX_DECIMALS →
  damm_checksum_8digit digits = Ok c → is_digit c →
  asset_num_from_nai (digits * 10 + c) dec = Ok (digits * 32 + 16 + dec).
Proof.
  unfold NAI_VESTS, SST_MAX_NAI, ASSET_MAX_DECIMALS. intros Hd Hdec Hc Hdc. unfold asset_num_from_nai.
  rewrite snoc_div, snoc_mod by done.
  rewrite (proj2 (Z.leb_le SST_MIN_NAI digits)) by (unfold SST_MIN_NAI; lia).
  rewrite (proj2 (Z.leb_le digits SST_MAX_NAI)) by (unfold SST_MAX_NAI; lia).
  cbn [andb fc_assert mbind res_bind]. rewrite Hc. cbn [mbind res_bind].
  rewrite Z.eqb_refl. cbn [fc_assert mbind res_bind].
  unfold NAI_freezone, NAI_SBD, NAI_VESTS.
  do 3 (rewrite (proj2 (Z.eqb_neq _ _)) by lia).
  rewrite (proj2 (Z.leb_le dec ASSET_MAX_DECIMALS)) by (unfold ASSET_MAX_DECIMALS; lia).
  cbn [fc_assert mbind res_bind]. unfold mret, res_ret. f_equal.
  assert (u32 (Z.shiftl digits NAI_SHIFT) = Z.shiftl digits 5) as ->.
  { change NAI_SHIFT with 5. rewrite Z.shiftl_mul_pow2 by lia. change (2 ^ 5) with 32. mlia. }
  apply lor_fields; lia.
Qed.

(** A symbol that survives the trip through its NAI: every valid one but the
    non-legacy symbols whose data digits are the three reserved ones. *)
Definition nai_symbol (s : asset_symbol_type) : Prop :=
  is_legacy s ∨ ∃ digits dec, is_sst s digits dec ∧ NAI_VESTS < digits.

Lemma nai_roundtrip_lemma s :
  nai_symbol s → ∃ nai, to_nai s = Ok nai ∧ 0 <= nai < 1000000000
    ∧ asset_num_from_nai nai (decimals s) = Ok s.
Proof.
  intros [Hl|(digits & dec & Hs & Hd)]; [destruct Hl as [->|Hl]; [|destruct Hl as [-> | ->] ]|].
  1-3: eexists; split; [vm_compute; reflexivity|by vm_compute].
  pose proof Hs as (Es & Hr & Hdec).
  destruct (damm_checksum_total digits) as (c & Hc & Hdc).
  { unfold SST_MIN_NAI, SST_MAX_NAI in *. lia. }
  exists (digits * 10 + c). split; [by eapply to_nai_sst|].
  rewrite (sst_decimals _ _ _ Hs), Es.
  split; [unfold SST_MIN_NAI, SST_MAX_NAI, is_digit in *; lia|].
  apply from_nai_sst; [lia|done..].
Qed.

Lemma digit_ascii_value d :
  is_digit d → Z.of_nat (nat_of_ascii (digit_ascii d)) - 48 = d.
Proof.
  intros Hd. pose proof (digits_forall
    (fun d => Z.of_nat (nat_of_ascii (digit_ascii d)) - 48 =? d) ltac:(by vm_compute) d Hd) as H.
  by apply Z.eqb_eq in H.
Qed.

Lemma decimal_value_digit acc d s :
  is_digit d → decimal_value acc (String (digit_ascii d) s) = decimal_value (acc * 10 + d) s.
Proof.
  intros Hd. cbn [decimal_value]. rewrite digit_ascii_value by done. unfold is_digit in Hd.
  rewrite (proj2 (Z.leb_le 0 d)), (proj2 (Z.leb_le d 9)) by lia. done.
Qed.

Section NaiString.
Context (lexical_cast_u32 : string → res Z) `{!LexicalCastU32 lexical_cast_u32}.

Lemma nai_string_roundtrip_lemma s :
  nai_symbol s → ∃ str, to_nai_string s = Ok str
    ∧ from_nai_string lexical_cast_u32 str (decimals s) = Ok s.
Proof.
  intros Hs. destruct (nai_roundtrip_lemma s Hs) as (nai & Hn & Hb & Hr).
  unfold to_nai_string. rewrite Hn. cbn [mbind res_bind]. cbv zeta.
  eexists. split; [reflexivity|]. unfold from_nai_string.
  cbn [String.length Z.of_nat Pos.of_succ_nat]. cbn [fc_assert mbind res_bind].
  rewrite (lexical_cast_digits _ nai); [done|done| |lia].
  do 9 (rewrite decimal_value_digit; [|unfold is_digit; Z.div_mod_to_equations; lia]).
  cbn [decimal_value]. f_equal. Z.div_mod_to_equations; lia.
Qed.

End NaiString.

(** ** Serialization *)

Lemma length_le_bytes n x : List.length (le_bytes n x) = n.
Proof. revert x. induction n; intros; simpl; auto. Qed.

Lemma le_value_bytes n x : 0 <= x < 256 ^ Z.of_nat n → le_value (le_bytes n x) = x.
Proof.
  revert x. induction n as [|n IH]; intros x Hx; [simpl in *; lia|].
  rewrite Nat2Z.inj_succ, Z.pow_succ_r in Hx by lia. cbn [le_bytes le_value foldr].
  fold (le_value (le_bytes n (x / 256))). rewrite IH; Z.div_mod_to_equations; lia.
Qed.

Lemma read_app n (b s : list Z) : List.length b = n → read n (b ++ s) = Ok (b, s).
Proof.
  intros <-. unfold read. rewrite bool_decide_eq_true_2 by (rewrite length_app; lia). simpl.
  by rewrite take_app_length, drop_app_length.
Qed.

Lemma symbol_validate_legacy s : is_legacy s → symbol_validate s = Ok tt.
Proof. intros H. unfold symbol_validate. by rewrite (proj2 (legacy_test s) H). Qed.

Lemma unpack_pack_legacy s rest : is_legacy s → unpack (pack s ++ rest) = Ok (s, rest).
Proof.
  intros Hs. pose proof (symbol_validate_legacy s Hs) as Hv. unfold unpack.
  destruct Hs as [->|Hs]; [|destruct Hs as [-> | ->] ];
    cbn [pack space le_bytes]; (etransitivity; [|reflexivity]); by vm_compute.
Qed.

(** No valid symbol outside the legacy space starts with the four bytes of a
    legacy one: its control bit is set. *)
Lemma sst_not_legacy_prefix s digits dec :
  is_sst s digits dec →
  s ≠ Z.land freezone_SYMBOL_SER 0xFFFFFFFF ∧ s ≠ Z.land SBD_SYMBOL_SER 0xFFFFFFFF
  ∧ s ≠ Z.land VESTS_SYMBOL_SER 0xFFFFFFFF.
Proof.
  intros (-> & _ & Hd). unfold ASSET_MAX_DECIMALS in Hd.
  change (Z.land freezone_SYMBOL_SER 0xFFFFFFFF) with 1163154179.
  change (Z.land SBD_SYMBOL_SER 0xFFFFFFFF) with 1145197315.
  change (Z.land VESTS_SYMBOL_SER 0xFFFFFFFF) with 1397052934.
  split_and!; lia.
Qed.

Lemma sst_in_u32 s digits dec : is_sst s digits dec → in_u 32 s.
Proof. intros (-> & ? & ?). unfold SST_MIN_NAI, SST_MAX_NAI, ASSET_MAX_DECIMALS in *. mlia. Qed.

Lemma unpack_pack_sst s digits dec rest :
  is_sst s digits dec → unpack (pack s ++ rest) = Ok (s, rest).
Proof.
  intros Hs. pose proof (sst_in_u32 _ _ _ Hs) as Hin.
  assert (space s = SST_nai_space) as Hsp.
  { unfold space. rewrite (proj2 (legacy_test_false s)); [done|]. by eapply is_sst_not_legacy. }
  unfold unpack, pack. rewrite Hsp, (read_app 4) by apply length_le_bytes.
  cbn [mbind res_bind]. rewrite le_value_bytes by (simpl; mlia).
  destruct (sst_not_legacy_prefix _ _ _ Hs) as (H1 & H2 & H3).
  rewrite (proj2 (Z.eqb_neq _ _) H1), (proj2 (Z.eqb_neq _ _) H2), (proj2 (Z.eqb_neq _ _) H3).
  cbn [mbind res_bind]. unfold mret, res_ret. cbn [mbind res_bind]. unfold u32. rewrite wrapu_small by done.
  rewrite (proj2 (symbol_validate_spec s Hin)); [done|]. eauto.
Qed.

(** ** Vesting and liquid variants *)

Lemma lxor_vesting_digits s digits dec :
  is_sst s digits dec → Z.lxor s VESTING_MASK = Z.lxor digits 1 * 32 + 16 + dec.
Proof.
  intros (-> & Hd & Hdec). unfold SST_MIN_NAI, ASSET_MAX_DECIMALS in *.
  assert (0 <= Z.lxor digits 1) by (apply Z.lxor_nonneg; lia).
  change VESTING_MASK with (Z.shiftl 1 5).
  rewrite <- (lor_fields digits dec), <- (lor_fields (Z.lxor digits 1) dec) by lia.
  rewrite Z.shiftl_lxor. apply Z.bits_inj'. intros i Hi.
  rewrite ?Z.lxor_spec, !Z.lor_spec, !Z.lxor_spec.
  destruct (decide (i = 5)) as [->|Hne].
  - change CONTROL_MASK with (2 ^ 4). rewrite (Z.pow2_bits_false 4) by lia.
    rewrite (in_u_high 4 dec 5) by (unfold in_u; lia). by rewrite !orb_false_r.
  - change (Z.shiftl 1 5) with (2 ^ 5). rewrite Z.pow2_bits_false by lia. by rewrite !xorb_false_r.
Qed.

Lemma lxor_one n : 0 <= n → Z.lxor n 1 = if Z.even n then n + 1 else n - 1.
Proof.
  intros Hn. destruct (Z.even n) eqn:E.
  - apply Z.even_spec in E as [k ->]. rewrite <- Z.add_nocarry_lxor; [done|].
    apply Z.bits_inj'. intros i Hi. rewrite Z.land_spec, Z.bits_0.
    destruct (decide (i = 0)) as [->|]; [by rewrite Z.testbit_even_0|].
    change 1 with (2 ^ 0). rewrite Z.pow2_bits_false, andb_false_r by lia. done.
  - rewrite <- Z.negb_odd in E. apply negb_false_iff, Z.odd_spec in E as [k ->].
    transitivity (Z.lxor (Z.lxor (2 * k) 1) 1).
    + f_equal. rewrite <- Z.add_nocarry_lxor; [done|].
      apply Z.bits_inj'. intros i Hi. rewrite Z.land_spec, Z.bits_0.
      destruct (decide (i = 0)) as [->|]; [by rewrite Z.testbit_even_0|].
      change 1 with (2 ^ 0). rewrite Z.pow2_bits_false, andb_false_r by lia. done.
    + rewrite Z.lxor_assoc, Z.lxor_nilpotent, Z.lxor_0_r. lia.
Qed.

Lemma is_vesting_sst s digits dec : is_sst s digits dec → is_vesting s = Z.odd digits.
Proof.
  intros Hs. unfold is_vesting, space.
  rewrite (proj2 (legacy_test_false s) (is_sst_not_legacy _ _ _ Hs)).
  rewrite <- Z.bit0_odd, <- (sst_digits _ _ _ Hs). change NAI_SHIFT with 5.
  rewrite Z.shiftr_spec by lia. change (0 + 5) with 5. change VESTING_MASK with (2 ^ 5).
  destruct (Z.testbit s 5) eqn:E.
  - apply negb_true_iff, Z.eqb_neq. intros H.
    assert (Z.testbit (Z.land s (2 ^ 5)) 5 = false) as H' by (rewrite H; apply Z.bits_0).
    rewrite Z.land_spec, E, Z.pow2_bits_true in H' by lia. done.
  - apply negb_false_iff, Z.eqb_eq, Z.bits_inj'. intros i Hi. rewrite Z.land_spec, Z.bits_0.
    destruct (decide (i = 5)) as [->|]; [by rewrite E|].
    by rewrite Z.pow2_bits_false, andb_false_r by lia.
Qed.

Lemma paired_sst s digits dec :
  is_sst s digits dec → 2 <= digits →
  is_sst (get_paired_symbol s) (Z.lxor digits 1) dec
  ∧ Z.odd (Z.lxor digits 1) = negb (Z.odd digits) ∧ 2 <= Z.lxor digits 1.
Proof.
  intros Hs H2. unfold get_paired_symbol, space.
  rewrite (proj2 (legacy_test_false s) (is_sst_not_legacy _ _ _ Hs)).
  rewrite (lxor_vesting_digits _ _ _ Hs). destruct Hs as (-> & Hd & Hdec).
  rewrite lxor_one by lia. unfold is_sst, SST_MIN_NAI, SST_MAX_NAI in *.
  rewrite <- (Z.negb_even digits). destruct (Z.even digits) eqn:E; simpl.
  - rewrite Z.add_1_r, Z.odd_succ, E. split_and!; try done; try lia.
    apply Z.even_spec in E as [k ->]. lia.
  - rewrite Z.sub_1_r, Z.odd_pred, E.
    rewrite <- Z.negb_odd in E. apply negb_false_iff, Z.odd_spec in E as [k ->]. split_and!; done || lia.
Qed.

(** ** Main theorems *)

(** C33: the unrolled check-digit routine detects every typing error of the two
    common kinds: if a nine-digit identifier is accepted, the identifier with
    one digit replaced, or with two different neighbouring digits swapped
    (the check digit included), is rejected whatever the precision. *)
Theorem nai_typing_errors_rejected pre a b post d dec dec' s :
  List.length (pre ++ a :: b :: post) = 9%nat →
  Forall is_digit (pre ++ a :: b :: post) → is_digit d →
  asset_num_from_nai (of_digits (pre ++ a :: b :: post)) dec = Ok s →
  (d ≠ a → ¬ is_ok (asset_num_from_nai (of_digits (pre ++ d :: b :: post)) dec')) ∧
  (d ≠ b → ¬ is_ok (asset_num_from_nai (of_digits (pre ++ a :: d :: post)) dec')) ∧
  (a ≠ b → ¬ is_ok (asset_num_from_nai (of_digits (pre ++ b :: a :: post)) dec')).
Proof.
  intros Hlen Hds Hd Hok.
  assert (Hvalid : ∀ ds dec s, List.length ds = 9%nat → Forall is_digit ds →
    asset_num_from_nai (of_digits ds) dec = Ok s → damm ds = 0).
  { intros ds. destruct ds as [|c ds _] using rev_ind; [done|]. intros ?? Hl. rewrite length_app in Hl.
    simpl in Hl. apply from_nai_damm. lia. }
  pose proof (Hvalid _ _ _ Hlen Hds Hok) as H0.
  assert (Hno : ∀ ds, List.length ds = 9%nat → Forall is_digit ds →
    (damm (pre ++ a :: b :: post) = damm ds → False) → ¬ is_ok (asset_num_from_nai (of_digits ds) dec')).
  { intros ds Hl Hf Hne Hk. destruct (asset_num_from_nai (of_digits ds) dec') as [s'|] eqn:E; [|done].
    apply Hne. rewrite H0. symmetry. exact (Hvalid _ _ _ Hl Hf E). }
  rewrite length_app in Hlen; simpl in Hlen.
  pose proof Hds as Hds'. rewrite Forall_app, !Forall_cons_iff in Hds'. destruct Hds' as (Hp & Ha & Hb & Hq).
  split_and!; intros Hne; apply Hno; rewrite ?length_app; simpl; try lia;
    try (rewrite Forall_app, !Forall_cons_iff; split_and!; done).
  - intros E. apply Hne. symmetry. by apply (damm_substitution pre a d (b :: post)).
  - intros E. apply Hne. symmetry.
    eapply (damm_substitution (pre ++ [a]) b d post); rewrite <- ?app_assoc; done.
  - intros E. by apply Hne, (damm_transposition pre a b post).
Qed.

Lemma nai_typing_errors_rejected_witness :
  ¬ is_ok (asset_num_from_nai (of_digits [0;0;0;0;0;0;2;0;1]) 3).
Proof.
  apply (nai_typing_errors_rejected [0;0;0;0;0;0] 0 2 [1] 0 3 3 ASSET_NUM_freezone);
    [reflexivity|repeat constructor; unfold is_digit; lia|unfold is_digit; lia
    |vm_compute; reflexivity|lia].
Defined.

(** C34: for every legacy symbol and every valid symbol whose data digits are
    not the three reserved ones, converting to a numeric asset identifier and
    back gives the symbol; so does the trip through the eleven-character NAI
    string, for any [lexical_cast] that reads decimal digits. *)
Theorem nai_roundtrip lc `{!LexicalCastU32 lc} s :
  nai_symbol s →
  (∃ nai, to_nai s = Ok nai ∧ asset_num_from_nai nai (decimals s) = Ok s) ∧
  (∃ str, to_nai_string s = Ok str ∧ from_nai_string lc str (decimals s) = Ok s).
Proof.
  intros Hs. split; [|by apply nai_string_roundtrip_lemma].
  destruct (nai_roundtrip_lemma s Hs) as (nai & ? & _ & ?). eauto.
Qed.

(** A [lexical_cast] that reads digits, for the witness. *)
Definition sample_lexical_cast (s : string) : res Z :=
  match decimal_value 0 s with
  | Some v => if v <? 2 ^ 32 then Ok v else Throw bad_lexical_cast
  | None => Throw bad_lexical_cast
  end.

#[export] Instance sample_lexical_cast_ok : LexicalCastU32 sample_lexical_cast.
Proof.
  split. intros s v _ H Hv. unfold sample_lexical_cast. rewrite H.
  by rewrite (proj2 (Z.ltb_lt _ _) Hv).
Qed.

Lemma nai_roundtrip_witness :
  ∃ str, to_nai_string (12345678 * 32 + 16 + 5) = Ok str
    ∧ from_nai_string sample_lexical_cast str 5 = Ok (12345678 * 32 + 16 + 5).
Proof.
  destruct (nai_roundtrip sample_lexical_cast (12345678 * 32 + 16 + 5)) as [_ (str & E & H)].
  - right. exists 12345678, 5. unfold is_sst, SST_MIN_NAI, SST_MAX_NAI, ASSET_MAX_DECIMALS, NAI_VESTS. lia.
  - exists str. split; [exact E|exact H].
Defined.

(** A symbol outside the legacy space whose data digits are a reserved one
    passes [validate], but its identifier is read back as the legacy symbol:
    [0x33] (digits 1, three decimals) becomes SBD. *)
Theorem reserved_nai_collision :
  ∃ s nai, symbol_validate s = Ok tt ∧ ¬ is_legacy s ∧ to_nai s = Ok nai
    ∧ asset_num_from_nai nai (decimals s) = Ok SBD_SYMBOL ∧ s ≠ SBD_SYMBOL.
Proof.
  exists 51, (1 * 10 + 3). split_and!; try by vm_compute.
  eapply (is_sst_not_legacy 51 1 3). unfold is_sst, SST_MIN_NAI, SST_MAX_NAI, ASSET_MAX_DECIMALS. lia.
Qed.

(** A valid symbol written to a byte stream is read back unchanged with the
    rest of the stream intact: the eight-byte legacy form and the four-byte
    form cannot be confused. *)
Theorem symbol_pack_roundtrip s rest :
  in_u 32 s → symbol_validate s = Ok tt → unpack (pack s ++ rest) = Ok (s, rest).
Proof.
  intros Hin Hv. apply symbol_validate_spec in Hv; [|done].
  destruct Hv as [Hl|(digits & dec & Hs)]; [by apply unpack_pack_legacy|by eapply unpack_pack_sst].
Qed.

Lemma symbol_pack_roundtrip_witness :
  unpack (pack (5 * 32 + 16 + 3) ++ [1; 2]) = Ok (5 * 32 + 16 + 3, [1; 2]).
Proof. apply symbol_pack_roundtrip; [int_unfold; lia|vm_compute; reflexivity]. Defined.

(** The vesting/liquid pairing is an involution on valid symbols (data
    digits at least 2 outside the legacy space); it keeps the symbol valid,
    keeps its precision outside the legacy space, and toggles [is_vesting]
    for every symbol but SBD, which is its own pair. *)
Theorem paired_symbol_involution s :
  (is_legacy s ∨ ∃ digits dec, is_sst s digits dec ∧ 2 <= digits) →
  get_paired_symbol (get_paired_symbol s) = s
  ∧ symbol_validate (get_paired_symbol s) = Ok tt
  ∧ (s = SBD_SYMBOL ∨ is_vesting (get_paired_symbol s) = negb (is_vesting s)).
Proof.
  intros [Hl|(digits & dec & Hs & H2)].
  - destruct Hl as [->|Hl]; [|destruct Hl as [-> | ->] ]; split_and!;
      first [by vm_compute | by left | right; by vm_compute].
  - destruct (paired_sst _ _ _ Hs H2) as (Hp & Hodd & H2').
    destruct (paired_sst _ _ _ Hp H2') as (Hpp & _ & _).
    split_and!.
    + destruct Hpp as (-> & _). destruct Hs as (-> & _).
      rewrite Z.lxor_assoc, Z.lxor_nilpotent, Z.lxor_0_r. done.
    + apply symbol_validate_spec; [by eapply sst_in_u32|]. eauto.
    + right. rewrite (is_vesting_sst _ _ _ Hp), (is_vesting_sst _ _ _ Hs). done.
Qed.

Lemma paired_symbol_involution_witness :
  get_paired_symbol (get_paired_symbol (6 * 32 + 16 + 2)) = 6 * 32 + 16 + 2.
Proof.
  apply paired_symbol_involution. right. exists 6, 2.
  unfold is_sst, SST_MIN_NAI, SST_MAX_NAI, ASSET_MAX_DECIMALS. lia.
Defined.
