(* ===== verification/Asset.v ===== *)
(** * Assets and prices

    [asset] and [price] of libraries/protocol (asset.hpp, asset.cpp,
    validation.hpp): amounts are [share_type], checked 64-bit integers, and
    operations on two assets require the same symbol.  A price is a pair of
    assets of different symbols; prices are compared by cross multiplication
    in 128 bits, and an asset is converted at a price with 128-bit
    intermediate values and a division that rounds down. *)

From S2P Require Import Prelude.
From S2P Require Import Uint128.
From S2P Require Import SafeInt.
From S2P Require Import AssetSymbol.

Definition MAX_SATOSHIS : Z := 4611686018427387903.
Definition MAX_SHARE_SUPPLY : Z := 1000000000000000.

Record asset : Set := Asset { amount : Z; symbol : Z }.

#[export] Instance asset_eq_dec : EqDecision asset.
Proof. solve_decision. Defined.

(** ** asset (asset.hpp, asset.cpp) *)

Definition asset_validate (a : asset) : res unit :=
  _ ← symbol_validate (symbol a);
  _ ← fc_assert (0 <=? amount a);
  fc_assert (amount a <=? MAX_SATOSHIS).

(** [operator +=] and [operator +]: same result. *)
Definition asset_add (a b : asset) : res asset :=
  _ ← fc_assert (symbol a =? symbol b);
  v ← safe_add (amount a) (amount b);
  mret (Asset v (symbol a)).

Definition asset_sub (a b : asset) : res asset :=
  _ ← fc_assert (symbol a =? symbol b);
  v ← safe_sub (amount a) (amount b);
  mret (Asset v (symbol a)).

Definition asset_mul (a b : asset) : res asset :=
  _ ← fc_assert (symbol a =? symbol b);
  v ← safe_mul (amount a) (amount b);
  mret (Asset v (symbol a)).

Definition asset_neg (a : asset) : res asset :=
  v ← safe_neg (amount a);
  mret (Asset v (symbol a)).

(** The comparisons throw on different symbols; [operator ==] does not. *)
Definition asset_eqb (a b : asset) : bool :=
  (symbol a =? symbol b) && (amount a =? amount b).
Definition asset_ltb (a b : asset) : res bool :=
  _ ← fc_assert (symbol a =? symbol b); mret (amount a <? amount b).
Definition asset_leb (a b : asset) : res bool :=
  _ ← fc_assert (symbol a =? symbol b); mret (amount a <=? amount b).
Definition asset_gtb (a b : asset) : res bool :=
  _ ← fc_assert (symbol a =? symbol b); mret (amount b <? amount a).
Definition asset_geb (a b : asset) : res bool :=
  _ ← fc_assert (symbol a =? symbol b); mret (amount b <=? amount a).
Definition asset_neqb (a b : asset) : res bool :=
  _ ← fc_assert (symbol a =? symbol b); mret (negb (amount a =? amount b)).

(** ** price (asset.hpp, asset.cpp) *)

Record price : Set := Price { base : asset; quote : asset }.

#[export] Instance price_eq_dec : EqDecision price.
Proof. solve_decision. Defined.

(** The default price: two zero assets of the default symbol. *)
Definition null_price : price := Price (Asset 0 freezone_SYMBOL) (Asset 0 freezone_SYMBOL).

Definition price_validate (p : price) : res unit :=
  _ ← fc_assert (0 <? amount (base p));
  _ ← fc_assert (0 <? amount (quote p));
  fc_assert (negb (symbol (base p) =? symbol (quote p))).

(** The checking constructor. *)
Definition make_price (base quote : asset) : res price :=
  let p := Price base quote in
  _ ← price_validate p;
  mret p.

(** [asset / asset]. *)
Definition asset_div (base quote : asset) : res price :=
  _ ← fc_assert (negb (symbol base =? symbol quote));
  make_price base quote.

(** [operator ~]. *)
Definition price_inv (p : price) : res price := make_price (quote p) (base p).

Definition price_max (base quote : Z) : res price :=
  asset_div (Asset MAX_SATOSHIS base) (Asset 1 quote).
Definition price_min (base quote : Z) : res price :=
  asset_div (Asset 1 base) (Asset MAX_SATOSHIS quote).

(** The comparison operators, all expanded from one macro: on different symbol
    pairs the pairs are compared lexicographically, otherwise the 128-bit
    cross products. *)
Definition BQ_eqb (a b : price) : bool :=
  (symbol (base a) =? symbol (base b)) && (symbol (quote a) =? symbol (quote b)).
Definition BQ_ltb (a b : price) : bool :=
  if symbol (base a) =? symbol (base b) then symbol (quote a) <? symbol (quote b)
  else symbol (base a) <? symbol (base b).
Definition cross (a b : price) : Z :=
  u128 (u128 (amount (quote b)) * u128 (amount (base a))).

Definition price_eqb (a b : price) : bool :=
  if BQ_eqb a b then cross a b =? cross b a else false.
Definition price_neqb (a b : price) : bool :=
  if BQ_eqb a b then negb (cross a b =? cross b a) else true.
Definition price_ltb (a b : price) : bool :=
  if BQ_eqb a b then cross a b <? cross b a else BQ_ltb a b.
Definition price_leb (a b : price) : bool :=
  if BQ_eqb a b then cross a b <=? cross b a else BQ_ltb a b.
Definition price_gtb (a b : price) : bool :=
  if BQ_eqb a b then cross b a <? cross a b else BQ_ltb b a.
Definition price_geb (a b : price) : bool :=
  if BQ_eqb a b then cross b a <=? cross a b else BQ_ltb b a.

Definition is_null (p : price) : bool := price_eqb p null_price.

(** [asset * price]: the two branches differ in the direction of the
    conversion, from [den] units to [num] units.  The constructor of
    [share_type] takes the [uint64_t] result by a plain conversion to
    [int64_t]. *)
Definition convert_amount (x num den : Z) : res Z :=
  _ ← fc_assert (0 <? den);
  let result := u128 (u128 x * u128 num) / u128 den in
  _ ← fc_assert (Z.shiftr result 64 =? 0);
  mret (i64 (u64 result)).

Definition asset_mul_price (a : asset) (b : price) : res asset :=
  if symbol a =? symbol (base b) then
    v ← convert_amount (amount a) (amount (quote b)) (amount (base b));
    mret (Asset v (symbol (quote b)))
  else if symbol a =? symbol (quote b) then
    v ← convert_amount (amount a) (amount (base b)) (amount (quote b));
    mret (Asset v (symbol (base b)))
  else Throw assert_exception.

(** ** Tick pricing (validation.hpp)

    The loop divides by ten while it can; a positive 64-bit amount has at most
    19 digits. *)
Fixpoint strip_zeros (fuel : nat) (tmp : Z) : Z :=
  match fuel with
  | O => tmp
  | S fuel => if (9 <? tmp) && (Z.rem tmp 10 =? 0) then strip_zeros fuel (Z.quot tmp 10) else tmp
  end.

Definition tick_symbols (p : price) : bool :=
  if symbol (base p) =? SBD_SYMBOL then symbol (quote p) =? freezone_SYMBOL
  else if symbol (base p) =? freezone_SYMBOL then
    match space (symbol (quote p)) with
    | SST_nai_space => negb (is_vesting (symbol (quote p)))
    | legacy_space => false
    end
  else false.

Definition is_tick_pricing (p : price) : bool :=
  tick_symbols p && (strip_zeros 20 (amount (quote p)) =? 1).

Definition validate_tick_pricing (p : price) : res unit :=
  _ ← fc_assert (tick_symbols p);
  fc_assert (strip_zeros 20 (amount (quote p)) =? 1).

(** ** Lemmas *)

Definition wf_price (p : price) : Prop :=
  0 < amount (base p) < 2 ^ 63 ∧ 0 < amount (quote p) < 2 ^ 63
  ∧ symbol (base p) ≠ symbol (quote p).

Lemma asset_add_Ok a b c :
  in_s 64 (amount a) → in_s 64 (amount b) →
  asset_add a b = Ok c ↔
  symbol a = symbol b ∧ c = Asset (amount a + amount b) (symbol a) ∧ in_s 64 (amount a + amount b).
Proof.
  intros Ha Hb. unfold asset_add. split.
  - intros H. apply bind_Ok in H as ([] & Hs & H). apply bind_Ok in H as (v & Hv & H).
    apply fc_assert_Ok, Z.eqb_eq in Hs. apply safe_add_Ok in Hv as [-> Hv]; [|done..].
    injection H as <-. done.
  - intros (Hs & -> & Hv). rewrite (proj2 (Z.eqb_eq _ _) Hs). cbn [fc_assert mbind res_bind].
    by rewrite (proj2 (safe_add_Ok _ _ _ Ha Hb) (conj eq_refl Hv)).
Qed.

Lemma asset_sub_Ok a b c :
  in_s 64 (amount a) → in_s 64 (amount b) →
  asset_sub a b = Ok c ↔
  symbol a = symbol b ∧ c = Asset (amount a - amount b) (symbol a) ∧ in_s 64 (amount a - amount b).
Proof.
  intros Ha Hb. unfold asset_sub. split.
  - intros H. apply bind_Ok in H as ([] & Hs & H). apply bind_Ok in H as (v & Hv & H).
    apply fc_assert_Ok, Z.eqb_eq in Hs. apply safe_sub_Ok in Hv as [-> Hv]; [|done..].
    injection H as <-. done.
  - intros (Hs & -> & Hv). rewrite (proj2 (Z.eqb_eq _ _) Hs). cbn [fc_assert mbind res_bind].
    by rewrite (proj2 (safe_sub_Ok _ _ _ Ha Hb) (conj eq_refl Hv)).
Qed.

Lemma u128_pos x : 0 <= x < 2 ^ 63 → u128 x = x.
Proof. intros. apply u128_small. mlia. Qed.

Lemma u128_mul_pos x y : 0 <= x < 2 ^ 63 → 0 <= y < 2 ^ 63 → u128 (u128 x * u128 y) = x * y.
Proof. intros. rewrite (u128_pos x), (u128_pos y) by done. apply u128_small. int_unfold. nia. Qed.

(** On positive amounts the cross products do not overflow. *)
Lemma cross_exact a b :
  wf_price a → wf_price b → cross a b = amount (quote b) * amount (base a).
Proof. intros (? & ? & ?) (? & ? & ?). unfold cross. apply u128_mul_pos; lia. Qed.

(** Conversion at a rate [num/den]: rounds down, and throws exactly when the
    quotient does not fit an unsigned 64-bit integer. *)
Lemma convert_amount_Ok x num den r :
  0 <= x < 2 ^ 63 → 0 < num < 2 ^ 63 → 0 < den < 2 ^ 63 →
  convert_amount x num den = Ok r ↔ x * num / den < 2 ^ 64 ∧ r = i64 (x * num / den).
Proof.
  intros Hx Hn Hd. unfold convert_amount. rewrite u128_mul_pos, u128_pos by lia.
  rewrite (proj2 (Z.ltb_lt 0 den)) by lia. cbn [fc_assert mbind res_bind].
  assert (0 <= x * num / den) by (apply Z.div_pos; nia).
  rewrite Z.shiftr_div_pow2 by lia.
  destruct (Z.eqb_spec (x * num / den / 2 ^ 64) 0) as [E|E]; simpl.
  - assert (x * num / den < 2 ^ 64) by mlia.
    assert (u64 (x * num / den) = x * num / den) as -> by (apply wrapu_small; unfold in_u; lia).
    unfold mret, res_ret. naive_solver.
  - split; [done|]. intros [? _]. exfalso. apply E. apply Z.div_small. lia.
Qed.

Lemma div_bounds x d : 0 < d → x / d * d <= x < (x / d + 1) * d.
Proof. intros. pose proof (Z.div_mod x d). pose proof (Z.mod_pos_bound x d). nia. Qed.

Lemma strip_zeros_pow k fuel :
  (k <= fuel)%nat → strip_zeros fuel (10 ^ Z.of_nat k) = 1.
Proof.
  revert fuel. induction k as [|k IH]; intros fuel Hf; [by destruct fuel|].
  destruct fuel as [|fuel]; [lia|]. cbn [strip_zeros].
  rewrite Nat2Z.inj_succ, Z.pow_succ_r by lia.
  assert (0 < 10 ^ Z.of_nat k) by (apply Z.pow_pos_nonneg; lia).
  rewrite (proj2 (Z.ltb_lt _ _)) by lia. rewrite Z.mul_comm, Z.rem_mul by lia. simpl.
  rewrite Z.quot_mul by lia. apply IH. lia.
Qed.

Lemma strip_zeros_one fuel x :
  strip_zeros fuel x = 1 → ∃ k, (k <= fuel)%nat ∧ x = 10 ^ Z.of_nat k.
Proof.
  revert x. induction fuel as [|fuel IH]; intros x H; cbn [strip_zeros] in H.
  - exists 0%nat. split; [lia|done].
  - destruct (Z.ltb_spec 9 x), (Z.eqb_spec (Z.rem x 10) 0); simpl in H;
      try (exists 0%nat; split; [lia|done]).
    apply IH in H as (k & Hk & E). exists (S k). split; [lia|].
    rewrite Nat2Z.inj_succ, Z.pow_succ_r, <- E by lia.
    pose proof (Z.quot_rem' x 10). lia.
Qed.

(** ** Main theorems *)

(** On well-formed prices of one symbol pair, each comparison operator is
    the comparison of the exact rational prices [base/quote] by cross
    multiplication (the 128-bit products never wrap); on any well-formed
    prices the operators are consistent with each other: a total preorder
    whose strict part is [<] and whose equivalence is [==]. *)
Theorem price_order a b c :
  wf_price a → wf_price b → wf_price c →
  (BQ_eqb a b = true →
     (price_ltb a b = true ↔ amount (base a) * amount (quote b) < amount (base b) * amount (quote a)) ∧
     (price_eqb a b = true ↔ amount (base a) * amount (quote b) = amount (base b) * amount (quote a))) ∧
  price_leb a b = (price_ltb a b || price_eqb a b) ∧
  price_gtb a b = negb (price_leb a b) ∧
  price_geb a b = negb (price_ltb a b) ∧
  price_neqb a b = negb (price_eqb a b) ∧
  (price_leb a b = true → price_leb b c = true → price_leb a c = true).
Proof.
  intros Ha Hb Hc. unfold price_ltb, price_leb, price_eqb, price_gtb, price_geb, price_neqb.
  rewrite !cross_exact by done.
  destruct Ha as (Ha1 & Ha2 & Ha3), Hb as (Hb1 & Hb2 & Hb3), Hc as (Hc1 & Hc2 & Hc3).
  split; [intros ->; rewrite Z.ltb_lt, Z.eqb_eq; lia|].
  unfold BQ_eqb, BQ_ltb.
  repeat match goal with |- context [?x =? ?y] =>
    lazymatch x with symbol _ => destruct (Z.eqb_spec x y) end end;
    simpl; try congruence; split_and!; try (apply eq_iff_eq_true);
    rewrite ?orb_true_iff, ?orb_false_r, ?negb_true_iff, ?Z.ltb_lt, ?Z.leb_le, ?Z.ltb_ge, ?Z.leb_gt,
      ?Z.eqb_eq, ?Z.eqb_neq; try lia.
  intros H1 H2.
  (* a/b <= and b/c <= compose because quotes are positive *)
  nia.
Qed.

Lemma price_order_witness :
  price_leb (Price (Asset 1 SBD_SYMBOL) (Asset 3 freezone_SYMBOL))
            (Price (Asset 2 SBD_SYMBOL) (Asset 3 freezone_SYMBOL)) = true.
Proof.
  apply (price_order (Price (Asset 1 SBD_SYMBOL) (Asset 3 freezone_SYMBOL))
    (Price (Asset 2 SBD_SYMBOL) (Asset 4 freezone_SYMBOL))
    (Price (Asset 2 SBD_SYMBOL) (Asset 3 freezone_SYMBOL)));
    repeat split; simpl; first [lia|vm_compute; reflexivity|vm_compute; discriminate].
Defined.

(** Converting a nonnegative amount at a well-formed price succeeds exactly
    when the rounded-down product [amount * to / from] fits 64 bits unsigned
    (and the symbol matches); when it fits 63 bits the result is that
    quotient, so conversion never creates value. *)
Theorem asset_mul_price_rounds_down a p r :
  wf_price p → 0 <= amount a < 2 ^ 63 → symbol a = symbol (base p) →
  let q := amount a * amount (quote p) / amount (base p) in
  (is_ok (asset_mul_price a p) ↔ q < 2 ^ 64) ∧
  (asset_mul_price a p = Ok r → q < 2 ^ 63 →
     symbol r = symbol (quote p) ∧ amount r = q ∧ 0 <= amount r
     ∧ amount r * amount (base p) <= amount a * amount (quote p)
     < (amount r + 1) * amount (base p)).
Proof.
  intros (Hb & Hq & Hs) Ha Es q. unfold asset_mul_price. rewrite Es, Z.eqb_refl.
  pose proof (convert_amount_Ok (amount a) (amount (quote p)) (amount (base p))) as Hc. fold q in Hc.
  split.
  - destruct (convert_amount _ _ _) as [v|e] eqn:E; simpl.
    + destruct (proj1 (Hc v Ha Hq Hb) eq_refl). done.
    + split; [done|]. intros Hlt. by discriminate (proj2 (Hc (i64 q) Ha Hq Hb) (conj Hlt eq_refl)).
  - intros H Hlt. apply bind_Ok in H as (v & Hv & H). injection H as <-. simpl.
    apply Hc in Hv as [_ ->]; [|done..].
    assert (0 <= q) by (apply Z.div_pos; nia). rewrite i64_small by mlia.
    split_and!; [done..| |]; apply div_bounds; lia.
Qed.

Lemma asset_mul_price_rounds_down_witness :
  is_ok (asset_mul_price (Asset 10 SBD_SYMBOL) (Price (Asset 3 SBD_SYMBOL) (Asset 2 freezone_SYMBOL)))
  ∧ asset_mul_price (Asset 10 SBD_SYMBOL) (Price (Asset 3 SBD_SYMBOL) (Asset 2 freezone_SYMBOL))
    = Ok (Asset 6 freezone_SYMBOL).
Proof.
  split; [|vm_compute; reflexivity].
  apply (asset_mul_price_rounds_down (Asset 10 SBD_SYMBOL)
    (Price (Asset 3 SBD_SYMBOL) (Asset 2 freezone_SYMBOL)) (Asset 6 freezone_SYMBOL));
    [repeat split; simpl; first [lia|vm_compute; discriminate]|simpl; lia|reflexivity|vm_compute; reflexivity].
Defined.

(** The quotient is only checked to fit 64 bits _unsigned_ before it is
    stored in a signed amount: two assets and a price that all pass
    validation give a negative amount. *)
Theorem asset_mul_price_sign_overflow :
  ∃ a p r, asset_validate a = Ok tt ∧ price_validate p = Ok tt
    ∧ asset_validate (base p) = Ok tt ∧ asset_validate (quote p) = Ok tt
    ∧ asset_mul_price a p = Ok r ∧ amount r < 0.
Proof.
  exists (Asset MAX_SATOSHIS SBD_SYMBOL), (Price (Asset 1 SBD_SYMBOL) (Asset 3 freezone_SYMBOL)).
  eexists. split_and!; try by vm_compute.
Qed.

(** A price passes the tick-pricing validation exactly when its symbols are
    an allowed pair and its quote amount is a power of ten; the predicate and
    the throwing version agree on every price. *)
Theorem tick_pricing_spec p :
  in_s 64 (amount (quote p)) →
  (is_tick_pricing p = true ↔ tick_symbols p = true ∧ ∃ k, 0 <= k ∧ amount (quote p) = 10 ^ k)
  ∧ is_ok (validate_tick_pricing p) = is_tick_pricing p.
Proof.
  intros Hp. unfold is_tick_pricing, validate_tick_pricing. split.
  - rewrite andb_true_iff, Z.eqb_eq. split; intros [Hs H]; (split; [done|]).
    + apply strip_zeros_one in H as (k & _ & ->). exists (Z.of_nat k). split; [lia|done].
    + destruct H as (k & Hk & E). rewrite E in *. rewrite <- (Z2Nat.id k) by done. apply strip_zeros_pow.
      destruct (Z.le_gt_cases k 20) as [|Hgt]; [lia|]. exfalso.
      pose proof (Z.pow_le_mono_r 10 20 k ltac:(lia) ltac:(lia)).
      change (10 ^ 20) with 100000000000000000000 in *. mlia.
  - by destruct (tick_symbols p), (_ =? 1).
Qed.

Lemma tick_pricing_spec_witness :
  is_tick_pricing (Price (Asset 7 SBD_SYMBOL) (Asset 1000 freezone_SYMBOL)) = true.
Proof.
  apply tick_pricing_spec; [simpl; int_unfold; lia|]. split; [vm_compute; reflexivity|].
  exists 3. split; [lia|reflexivity].
Defined.
