(* ===== verification/Chainbase.v ===== *)
(** * chainbase: an object table with an undo stack

    [generic_index] of libraries/chainbase/include/chainbase/chainbase.hpp: a
    multi-index table of objects, each with an integer id, over a stack of
    undo states that record what the open sessions changed.  The operations
    are written as the code has them, on the three containers of an undo
    state.  The specification is a table with a stack of whole snapshots; the
    theorems show that the deltas implement it (undo restores the snapshot,
    squash forgets one, commit drops the oldest). *)

From S2P Require Import Prelude.
From stdpp Require Import gmap sorting.
#[local] Open Scope Z_scope.

Section Chainbase.

(** [V] is the [value_type] without its id; [conflict v w] holds when [v] and
    [w] share a key of a unique secondary index of the table. *)
Context {V : Type} (conflict : V → V → bool).

Record undo_state : Type := UndoState {
  old_values : gmap Z V;
  removed_values : gmap Z V;
  new_ids : gset Z;
  old_next_id : Z;
  us_revision : Z
}.

(** [stack] lists the deque from its back (the current session) to its
    front. *)
Record generic_index : Type := Index {
  stack : list undo_state;
  revision : Z;
  next_id : Z;
  indices : gmap Z V
}.

(** Whether the table accepts [v] under [id]: no other row holds one of its
    unique keys. *)
Definition fits (id : Z) (v : V) (m : gmap Z V) : bool :=
  bool_decide (map_Forall (λ id' v', id' = id ∨ conflict v v' = false) m).

(** [_indices.emplace] and [_indices.modify]; the caller throws when they
    report failure. *)
Definition table_emplace (id : Z) (v : V) (m : gmap Z V) : res (gmap Z V) :=
  _ ← check logic_error (bool_decide (m !! id = None) && fits id v m);
  mret (<[id := v]> m).

Definition table_modify (id : Z) (v : V) (m : gmap Z V) : res (gmap Z V) :=
  _ ← check logic_error (fits id v m);
  mret (<[id := v]> m).

(** Iteration over an ordered map or set goes by increasing id. *)
Definition id_le (a b : Z * V) : Prop := a.1 <= b.1.
#[local] Instance id_le_dec a b : Decision (id_le a b) := Z_le_dec a.1 b.1.
Definition by_id (m : gmap Z V) : list (Z * V) := merge_sort id_le (map_to_list m).
Definition ids_in_order (s : gset Z) : list Z := merge_sort Z.le (elements s).

(** ** Recording changes *)

Definition on_head (f : undo_state → undo_state) (idx : generic_index) : generic_index :=
  match stack idx with
  | [] => idx
  | head :: st => Index (f head :: st) (revision idx) (next_id idx) (indices idx)
  end.

Definition on_modify_head (id : Z) (v : V) (head : undo_state) : undo_state :=
  if decide (id ∈ new_ids head) then head
  else
    match old_values head !! id with
    | Some _ => head
    | None => UndoState (<[id := v]> (old_values head)) (removed_values head) (new_ids head)
                (old_next_id head) (us_revision head)
    end.

Definition on_remove_head (id : Z) (v : V) (head : undo_state) : undo_state :=
  if decide (id ∈ new_ids head) then
    UndoState (old_values head) (removed_values head) (new_ids head ∖ {[id]})
      (old_next_id head) (us_revision head)
  else
    match old_values head !! id with
    | Some w =>
        (* map::emplace keeps an entry that is already there *)
        UndoState (delete id (old_values head))
          (match removed_values head !! id with
           | Some _ => removed_values head
           | None => <[id := w]> (removed_values head)
           end)
          (new_ids head) (old_next_id head) (us_revision head)
    | None =>
        match removed_values head !! id with
        | Some _ => head
        | None => UndoState (old_values head) (<[id := v]> (removed_values head)) (new_ids head)
                    (old_next_id head) (us_revision head)
        end
    end.

Definition on_create_head (id : Z) (head : undo_state) : undo_state :=
  UndoState (old_values head) (removed_values head) ({[id]} ∪ new_ids head)
    (old_next_id head) (us_revision head).

Definition on_modify (id : Z) (v : V) : generic_index → generic_index := on_head (on_modify_head id v).
Definition on_remove (id : Z) (v : V) : generic_index → generic_index := on_head (on_remove_head id v).
Definition on_create (id : Z) : generic_index → generic_index := on_head (on_create_head id).

Definition set_indices (idx : generic_index) (m : gmap Z V) : generic_index :=
  Index (stack idx) (revision idx) (next_id idx) m.

(** ** The operations on rows *)

Definition emplace (c : Z → V) (idx : generic_index) : res generic_index :=
  let new_id := next_id idx in
  m ← table_emplace new_id (c new_id) (indices idx);
  mret (on_create new_id (Index (stack idx) (revision idx) (next_id idx + 1) m)).

(** [modify] and [remove] take a reference to a row of the table. *)
Definition modify (id : Z) (f : V → V) (idx : generic_index) : res generic_index :=
  v ← from_option_exn out_of_range (indices idx !! id);
  let idx := on_modify id v idx in
  m ← table_modify id (f v) (indices idx);
  mret (set_indices idx m).

Definition remove (id : Z) (idx : generic_index) : res generic_index :=
  v ← from_option_exn out_of_range (indices idx !! id);
  let idx := on_remove id v idx in
  mret (set_indices idx (delete id (indices idx))).

(** ** Sessions *)

Definition start_undo_session (idx : generic_index) : generic_index :=
  let rev := revision idx + 1 in
  Index (UndoState ∅ ∅ ∅ (next_id idx) rev :: stack idx) rev (next_id idx) (indices idx).

Definition restore_old (m : gmap Z V) (item : Z * V) : res (gmap Z V) :=
  match m !! item.1 with
  | Some _ => table_modify item.1 item.2 m
  | None => table_emplace item.1 item.2 m
  end.

(** [_indices.erase( _indices.find( id ) )]: erasing the end iterator is
    undefined, so a missing id is an error of the model. *)
Definition erase_new (m : gmap Z V) (id : Z) : res (gmap Z V) :=
  _ ← from_option_exn out_of_range (m !! id);
  mret (delete id m).

Definition restore_removed (m : gmap Z V) (item : Z * V) : res (gmap Z V) :=
  table_emplace item.1 item.2 m.

Definition undo (idx : generic_index) : res generic_index :=
  match stack idx with
  | [] => mret idx
  | head :: st =>
      m ← res_fold restore_old (indices idx) (by_id (old_values head));
      m ← res_fold erase_new m (ids_in_order (new_ids head));
      m ← res_fold restore_removed m (by_id (removed_values head));
      mret (Index st (revision idx - 1) (old_next_id head) m)
  end.

(** [squash]: the three loops that merge the newer state into the older. *)
Definition squash_old (prev : undo_state) (item : Z * V) : undo_state :=
  if decide (item.1 ∈ new_ids prev) then prev
  else
    match old_values prev !! item.1 with
    | Some _ => prev
    | None => UndoState (<[item.1 := item.2]> (old_values prev)) (removed_values prev) (new_ids prev)
                (old_next_id prev) (us_revision prev)
    end.

Definition squash_new (prev : undo_state) (id : Z) : undo_state :=
  UndoState (old_values prev) (removed_values prev) ({[id]} ∪ new_ids prev)
    (old_next_id prev) (us_revision prev).

Definition emplace_if_absent (id : Z) (v : V) (m : gmap Z V) : gmap Z V :=
  match m !! id with Some _ => m | None => <[id := v]> m end.

Definition squash_removed (prev : undo_state) (item : Z * V) : undo_state :=
  if decide (item.1 ∈ new_ids prev) then
    UndoState (old_values prev) (removed_values prev) (new_ids prev ∖ {[item.1]})
      (old_next_id prev) (us_revision prev)
  else
    match old_values prev !! item.1 with
    | Some w =>
        UndoState (delete item.1 (old_values prev)) (emplace_if_absent item.1 w (removed_values prev))
          (new_ids prev) (old_next_id prev) (us_revision prev)
    | None =>
        UndoState (old_values prev) (emplace_if_absent item.1 item.2 (removed_values prev))
          (new_ids prev) (old_next_id prev) (us_revision prev)
    end.

Definition squash_states (state prev : undo_state) : undo_state :=
  let prev := foldl squash_old prev (by_id (old_values state)) in
  let prev := foldl squash_new prev (ids_in_order (new_ids state)) in
  foldl squash_removed prev (by_id (removed_values state)).

Definition squash (idx : generic_index) : generic_index :=
  match stack idx with
  | [] => idx
  | [_] => Index [] (revision idx) (next_id idx) (indices idx)
  | state :: prev :: st =>
      Index (squash_states state prev :: st) (revision idx - 1) (next_id idx) (indices idx)
  end.

(** [commit]: pops from the front of the deque while its revision is not
    after [rev]. *)
Fixpoint drop_front (rev : Z) (front_first : list undo_state) : list undo_state :=
  match front_first with
  | [] => []
  | us :: rest => if us_revision us <=? rev then drop_front rev rest else us :: rest
  end.

Definition commit (rev : Z) (idx : generic_index) : generic_index :=
  Index (reverse (drop_front rev (reverse (stack idx)))) (revision idx) (next_id idx) (indices idx).

(** [undo_all]: undoes while a session is open; the stack is the measure. *)
Fixpoint undo_n (n : nat) (idx : generic_index) : res generic_index :=
  match n with
  | O => mret idx
  | S n => idx ← undo idx; undo_n n idx
  end.
Definition undo_all (idx : generic_index) : res generic_index := undo_n (length (stack idx)) idx.

Definition set_revision (rev : Z) (idx : generic_index) : res generic_index :=
  _ ← check logic_error match stack idx with [] => true | _ => false end;
  mret (Index (stack idx) rev (next_id idx) (indices idx)).

(** ** Specification: a table with a stack of snapshots *)

Record spec_state : Type := Spec {
  cur : gmap Z V;
  cur_next : Z;
  spec_rev : Z;
  history : list (gmap Z V * Z)
}.

Definition spec_start (sp : spec_state) : spec_state :=
  Spec (cur sp) (cur_next sp) (spec_rev sp + 1) ((cur sp, cur_next sp) :: history sp).

Definition spec_undo (sp : spec_state) : spec_state :=
  match history sp with
  | [] => sp
  | (m, n) :: h => Spec m n (spec_rev sp - 1) h
  end.

(** Forget the latest snapshot.  With a single open session the revision
    stays, as in the code. *)
Definition spec_squash (sp : spec_state) : spec_state :=
  match history sp with
  | [] => sp
  | [_] => Spec (cur sp) (cur_next sp) (spec_rev sp) []
  | _ :: h => Spec (cur sp) (cur_next sp) (spec_rev sp - 1) h
  end.

(** Keep the snapshots of the revisions after [rev]. *)
Definition spec_commit (rev : Z) (sp : spec_state) : spec_state :=
  Spec (cur sp) (cur_next sp) (spec_rev sp) (take (Z.to_nat (spec_rev sp - rev)) (history sp)).

Definition spec_set (m : gmap Z V) (n : Z) (sp : spec_state) : spec_state :=
  Spec m n (spec_rev sp) (history sp).

(** ** What a delta means *)

(** The table before the session of [us], given the table [m] now. *)
Definition revert (us : undo_state) (m : gmap Z V) : gmap Z V :=
  removed_values us ∪ (old_values us ∪ filter (λ kv, kv.1 ∉ new_ids us) m).

(** A delta is consistent with the table it was recorded over. *)
Record wf_delta (us : undo_state) (m : gmap Z V) (n : Z) : Prop := {
  wd_old : ∀ id v, old_values us !! id = Some v → is_Some (m !! id) ∧ id < old_next_id us;
  wd_new : ∀ id, id ∈ new_ids us ↔ is_Some (m !! id) ∧ old_next_id us <= id;
  wd_removed : ∀ id v, removed_values us !! id = Some v → m !! id = None ∧ id < old_next_id us;
  wd_next : old_next_id us <= n
}.

Fixpoint chain (st : list undo_state) (m : gmap Z V) (n rev : Z) (h : list (gmap Z V * Z)) : Prop :=
  match st, h with
  | [], [] => True
  | us :: st, (m', n') :: h =>
      wf_delta us m n ∧ revert us m = m' ∧ old_next_id us = n' ∧ us_revision us = rev
      ∧ chain st m' n' (rev - 1) h
  | _, _ => False
  end.

(** The refinement relation: same table, and the deltas, applied one after the
    other, produce the snapshots. *)
Record refines (idx : generic_index) (sp : spec_state) : Prop := {
  rf_cur : indices idx = cur sp;
  rf_next : next_id idx = cur_next sp;
  rf_rev : revision idx = spec_rev sp;
  rf_below : ∀ id v, indices idx !! id = Some v → id < next_id idx;
  rf_chain : chain (stack idx) (indices idx) (next_id idx) (revision idx) (history sp)
}.

Lemma lookup_revert us m id :
  revert us m !! id =
  match removed_values us !! id with
  | Some v => Some v
  | None =>
      match old_values us !! id with
      | Some v => Some v
      | None => if decide (id ∈ new_ids us) then None else m !! id
      end
  end.
Proof.
  unfold revert. rewrite !lookup_union, map_lookup_filter.
  destruct (removed_values us !! id), (old_values us !! id), (m !! id) eqn:E; simpl;
    try done; case_decide; simpl; repeat case_guard; naive_solver.
Qed.

(** ** Iteration in id order *)

#[local] Instance id_le_total : Total id_le.
Proof. intros a b. unfold id_le. lia. Qed.

Lemma by_id_perm m : by_id m ≡ₚ map_to_list m.
Proof. apply merge_sort_Permutation. Qed.

Lemma by_id_nodup m : NoDup (by_id m).*1.
Proof. rewrite by_id_perm. apply NoDup_fst_map_to_list. Qed.

Lemma by_id_map m : list_to_map (by_id m) = m.
Proof.
  rewrite <- (list_to_map_to_list m) at 2. apply list_to_map_proper; [apply by_id_nodup|apply by_id_perm].
Qed.

Lemma ids_in_order_elem s id : id ∈ ids_in_order s ↔ id ∈ s.
Proof. unfold ids_in_order. by rewrite merge_sort_Permutation, elem_of_elements. Qed.

Lemma ids_in_order_nodup s : NoDup (ids_in_order s).
Proof. unfold ids_in_order. rewrite merge_sort_Permutation. apply NoDup_elements. Qed.

(** ** Recording keeps the meaning of the top delta *)

(** [pointwise id]: compare two reverted tables row by row, by cases on the
    three containers at [id] and elsewhere. *)
Ltac pointwise id :=
  let i := fresh "i" in
  apply map_eq; intros i; rewrite !lookup_revert; simpl;
  destruct (decide (id = i)) as [->|]; simplify_map_eq; try done;
  repeat (case_decide || case_match); simplify_eq; try done;
  repeat match goal with
    | H : context [_ ∈ _ ∖ _] |- _ => rewrite elem_of_difference, elem_of_singleton in H
    | H : context [_ ∈ {[_]} ∪ _] |- _ => rewrite elem_of_union, elem_of_singleton in H
    end;
  try (exfalso; tauto || (intuition congruence)); try congruence.

Lemma wf_delta_modify us m n id v w :
  wf_delta us m n → m !! id = Some v →
  wf_delta (on_modify_head id v us) (<[id := w]> m) n
  ∧ revert (on_modify_head id v us) (<[id := w]> m) = revert us m
  ∧ old_next_id (on_modify_head id v us) = old_next_id us
  ∧ us_revision (on_modify_head id v us) = us_revision us.
Proof.
  intros [Ho Hn Hr Hx] Hid. unfold on_modify_head.
  assert (∀ i, is_Some (<[id:=w]> m !! i) ↔ is_Some (m !! i)) as Hdom.
  { intros i. destruct (decide (id = i)) as [->|]; simplify_map_eq; [|done]. naive_solver. }
  assert (∀ i, <[id:=w]> m !! i = None ↔ m !! i = None) as Hnone.
  { intros i. rewrite !eq_None_not_Some, Hdom. done. }
  destruct (decide (id ∈ new_ids us)) as [Hin|Hin]; [|destruct (old_values us !! id) as [o|] eqn:Eo].
  - split_and!; try done; [split; naive_solver|].
    pointwise id.
  - split_and!; try done; [split; naive_solver|].
    pointwise id.
  - split_and!; try done.
    + split; simpl; [|naive_solver..]. intros i u. rewrite lookup_insert_Some, Hdom.
      intros [[<- _]|[_ Hu]]; [|by apply Ho in Hu]. split; [eauto|].
      destruct (Z.lt_ge_cases id (old_next_id us)); [done|]. exfalso. apply Hin, Hn. eauto.
    + assert (removed_values us !! id = None) as Er.
      { destruct (removed_values us !! id) eqn:E; [|done]. apply Hr in E as [? _]. congruence. }
      pointwise id.
Qed.

Lemma wf_delta_remove us m n id v :
  wf_delta us m n → m !! id = Some v →
  wf_delta (on_remove_head id v us) (delete id m) n
  ∧ revert (on_remove_head id v us) (delete id m) = revert us m
  ∧ old_next_id (on_remove_head id v us) = old_next_id us
  ∧ us_revision (on_remove_head id v us) = us_revision us.
Proof.
  intros [Ho Hn Hr Hx] Hid. unfold on_remove_head.
  assert (removed_values us !! id = None) as Er.
  { destruct (removed_values us !! id) eqn:E; [|done]. apply Hr in E as [? _]. congruence. }
  assert (∀ i, is_Some (delete id m !! i) ↔ i ≠ id ∧ is_Some (m !! i)) as Hdom.
  { intros i. rewrite lookup_delete_is_Some. naive_solver. }
  assert (∀ i u, removed_values us !! i = Some u → delete id m !! i = None ∧ i < old_next_id us) as Hr'.
  { intros i u Hu. apply Hr in Hu as [Hu ?]. split; [|done].
    destruct (decide (id = i)) as [->|]; by simplify_map_eq. }
  destruct (decide (id ∈ new_ids us)) as [Hin|Hin].
  { pose proof (proj1 (Hn id) Hin) as [_ Hge].
    assert (old_values us !! id = None) as Eo.
    { destruct (old_values us !! id) eqn:E; [|done]. apply Ho in E as [_ ?]. lia. }
    split_and!; try done.
    - split; simpl; [|set_solver|done|done]. intros i u Hu. rewrite Hdom.
      pose proof (Ho i u Hu). split; [|tauto]. split; [congruence|tauto].
    - pointwise id. }
  assert (id < old_next_id us) as Hlt.
  { destruct (Z.lt_ge_cases id (old_next_id us)); [done|]. exfalso. apply Hin, Hn. eauto. }
  destruct (old_values us !! id) as [o|] eqn:Eo; rewrite Er; split_and!; try done.
  - split; simpl; [| |intros i u; rewrite lookup_insert_Some; intros [[<- _]|[_ Hu]]; [by rewrite lookup_delete_eq|eauto]|done].
    + intros i u. rewrite lookup_delete_Some, Hdom. intros [? Hu]. destruct (Ho i u Hu).
      split; [split; [congruence|done]|done].
    + intros i. rewrite Hn, Hdom. split; [intros [? ?]; split; [split; [lia|done]|done]|tauto].
  - pointwise id.
  - split; simpl; [| |intros i u; rewrite lookup_insert_Some; intros [[<- _]|[_ Hu]]; [by rewrite lookup_delete_eq|eauto]|done].
    + intros i u Hu. rewrite Hdom. pose proof (Ho i u Hu). split; [|tauto]. split; [congruence|tauto].
    + intros i. rewrite Hn, Hdom. split; [intros [? ?]; split; [split; [lia|done]|done]|tauto].
  - pointwise id.
Qed.

Lemma wf_delta_create us m n id v :
  wf_delta us m n → m !! id = None → n <= id →
  wf_delta (on_create_head id us) (<[id := v]> m) (id + 1)
  ∧ revert (on_create_head id us) (<[id := v]> m) = revert us m.
Proof.
  intros [Ho Hn Hr Hx] Hid Hge. unfold on_create_head.
  assert (old_values us !! id = None) as Eo.
  { destruct (old_values us !! id) eqn:E; [|done]. apply Ho in E as [_ ?]. lia. }
  assert (removed_values us !! id = None) as Er.
  { destruct (removed_values us !! id) eqn:E; [|done]. apply Hr in E as [_ ?]. lia. }
  split.
  - split; simpl; [| | |lia].
    + intros i u Hu. pose proof (Ho i u Hu) as [? ?]. split; [|done].
      rewrite lookup_insert_is_Some'. eauto.
    + intros i. rewrite elem_of_union, elem_of_singleton, Hn, lookup_insert_is_Some'. naive_solver lia.
    + intros i u Hu. pose proof (Hr i u Hu) as [? ?]. split; [|done]. by rewrite lookup_insert_ne by lia.
  - pointwise id.
Qed.

(** ** Squash, row by row *)

Lemma foldl_squash_old l prev :
  NoDup l.*1 →
  let p := foldl squash_old prev l in
  removed_values p = removed_values prev ∧ new_ids p = new_ids prev
  ∧ old_next_id p = old_next_id prev ∧ us_revision p = us_revision prev
  ∧ ∀ id, old_values p !! id =
      match old_values prev !! id with
      | Some w => Some w
      | None => if decide (id ∈ new_ids prev) then None else (list_to_map l : gmap Z V) !! id
      end.
Proof.
  revert prev. induction l as [|[k v] l IH]; intros prev Hnd; simpl.
  { split_and!; try done. intros id. rewrite lookup_empty. by repeat case_match. }
  simpl in Hnd. apply NoDup_cons in Hnd as [Hk Hnd].
  destruct (IH (squash_old prev (k, v)) Hnd) as (E1 & E2 & E3 & E4 & E5).
  assert ((list_to_map l : gmap Z V) !! k = None) as Hlk by (by apply not_elem_of_list_to_map_1).
  unfold squash_old in *; simpl in *.
  destruct (decide (k ∈ new_ids prev)) as [Hin|Hin]; [|destruct (old_values prev !! k) as [w|] eqn:Eo];
    simpl in *; split_and!; try done; intros id; rewrite E5;
    (destruct (decide (k = id)) as [->|]; simplify_map_eq; [|done]).
  - repeat (case_decide || case_match); done.
  - done.
  - repeat (case_decide || case_match); done.
Qed.

Lemma foldl_squash_new l prev :
  let p := foldl squash_new prev l in
  removed_values p = removed_values prev ∧ old_values p = old_values prev
  ∧ old_next_id p = old_next_id prev ∧ us_revision p = us_revision prev
  ∧ ∀ id, id ∈ new_ids p ↔ id ∈ new_ids prev ∨ id ∈ l.
Proof.
  revert prev. induction l as [|k l IH]; intros prev; simpl.
  { split_and!; try done. intros id. rewrite elem_of_nil. tauto. }
  destruct (IH (squash_new prev k)) as (E1 & E2 & E3 & E4 & E5). split_and!; try done.
  intros id. rewrite E5, elem_of_cons. simpl. rewrite elem_of_union, elem_of_singleton. tauto.
Qed.

Lemma foldl_squash_removed l prev :
  NoDup l.*1 →
  let p := foldl squash_removed prev l in
  let b := (list_to_map l : gmap Z V) in
  old_next_id p = old_next_id prev ∧ us_revision p = us_revision prev
  ∧ (∀ id, id ∈ new_ids p ↔ id ∈ new_ids prev ∧ b !! id = None)
  ∧ (∀ id, old_values p !! id =
       match b !! id with
       | Some _ => if decide (id ∈ new_ids prev) then old_values prev !! id else None
       | None => old_values prev !! id
       end)
  ∧ ∀ id, removed_values p !! id =
      match removed_values prev !! id, b !! id with
      | Some w, _ => Some w
      | None, None => None
      | None, Some v =>
          if decide (id ∈ new_ids prev) then None
          else match old_values prev !! id with Some w => Some w | None => Some v end
      end.
Proof.
  revert prev. induction l as [|[k v] l IH]; intros prev Hnd; simpl.
  { split_and!; try done; intros id; rewrite lookup_empty; [tauto|]. by case_match. }
  simpl in Hnd. apply NoDup_cons in Hnd as [Hk Hnd].
  destruct (IH (squash_removed prev (k, v)) Hnd) as (E1 & E2 & E3 & E4 & E5).
  assert ((list_to_map l : gmap Z V) !! k = None) as Hlk by (by apply not_elem_of_list_to_map_1).
  unfold squash_removed, emplace_if_absent in *; simpl in *.
  destruct (decide (k ∈ new_ids prev)) as [Hin|Hin]; [|destruct (old_values prev !! k) as [w|] eqn:Eo];
    simpl in *; split_and!; try done; intros id; first [rewrite E3|rewrite E4|rewrite E5];
    (destruct (decide (k = id)) as [->|]; simplify_map_eq;
     [|rewrite ?lookup_insert_ne by done]);
    rewrite ?elem_of_difference, ?elem_of_singleton;
    repeat (case_decide || case_match); simplify_map_eq; try done; try tauto; try set_solver.
Qed.

(** The merged delta reverts to what the two deltas revert to in turn. *)
Lemma squash_states_revert state prev m n :
  wf_delta state m n → wf_delta prev (revert state m) (old_next_id state) →
  wf_delta (squash_states state prev) m n
  ∧ revert (squash_states state prev) m = revert prev (revert state m)
  ∧ old_next_id (squash_states state prev) = old_next_id prev
  ∧ us_revision (squash_states state prev) = us_revision prev.
Proof.
  intros [Ho Hn Hr Hx] [Ho' Hn' Hr' Hx']. unfold squash_states.
  pose proof (foldl_squash_old (by_id (old_values state)) prev (by_id_nodup _)) as H1.
  set (p1 := foldl squash_old _ _) in *. destruct H1 as (A1 & A2 & A3 & A4 & A5).
  pose proof (foldl_squash_new (ids_in_order (new_ids state)) p1) as H2.
  set (p2 := foldl squash_new _ _) in *. destruct H2 as (B1 & B2 & B3 & B4 & B5).
  pose proof (foldl_squash_removed (by_id (removed_values state)) p2 (by_id_nodup _)) as H3.
  set (p3 := foldl squash_removed _ _) in *. destruct H3 as (C1 & C2 & C3 & C4 & C5).
  rewrite by_id_map in A5, C3, C4, C5.
  setoid_rewrite ids_in_order_elem in B5.
  setoid_rewrite B5 in C3. rewrite B2 in C4, C5. rewrite B1, A1 in C5. rewrite A2 in C3.
  rewrite B3, A3 in C1. rewrite B4, A4 in C2.
  assert (∀ id, id ∈ new_ids p2 ↔ id ∈ new_ids prev ∨ id ∈ new_ids state) as D by (intros; by rewrite B5, A2).
  clearbody p1 p2 p3. clear B1 B2 B3 B4 B5 A1 A2 A3 A4.
  (* everything at one id, by cases on the six containers there *)
  assert (∀ id,
    (∀ v, old_values p3 !! id = Some v → is_Some (m !! id) ∧ id < old_next_id p3)
    ∧ (id ∈ new_ids p3 ↔ is_Some (m !! id) ∧ old_next_id p3 <= id)
    ∧ (∀ v, removed_values p3 !! id = Some v → m !! id = None ∧ id < old_next_id p3)
    ∧ revert p3 m !! id = revert prev (revert state m) !! id) as F.
  { intros id. specialize (Ho id). specialize (Hn id). specialize (Hr id).
    specialize (Ho' id). specialize (Hn' id). specialize (Hr' id).
    specialize (C3 id). specialize (C4 id). specialize (C5 id). specialize (D id). specialize (A5 id).
    rewrite !lookup_revert in *. rewrite C1. rewrite A5 in *.
    setoid_rewrite is_Some_alt in Ho. setoid_rewrite is_Some_alt in Hn.
    setoid_rewrite is_Some_alt in Ho'. setoid_rewrite is_Some_alt in Hn'. setoid_rewrite is_Some_alt.
    destruct (removed_values prev !! id) as [rp|]; destruct (removed_values state !! id) as [rs|];
      destruct (old_values prev !! id) as [op|]; destruct (old_values state !! id) as [os|];
      destruct (m !! id) as [mm|];
      destruct (decide (id ∈ new_ids prev)), (decide (id ∈ new_ids state));
      repeat match goal with
        | H : ∀ v, Some ?x = Some v → _ |- _ => specialize (H x eq_refl)
        | H : ∀ v, None = Some v → _ |- _ => clear H
        end; destruct_and?; try done; try lia;
      repeat case_decide;
      try (exfalso; intuition lia);
      (split; [|split; [|split]];
      [ try (intros ? ?; simplify_eq/=; done || (split; [done|lia]))
      | try (intuition (done || lia))
      | try (intros ? ?; simplify_eq/=; done || (split; [done|lia]))
      | rewrite ?C5, ?C4; try (intuition congruence)]).
    all: intros v _; split; [done|]; destruct (Z.lt_ge_cases id (old_next_id prev)); tauto. }
  split_and!; [|apply map_eq; intros id; apply F|first [done|lia|congruence]..].
  split; [intros id; apply F..|lia].
Qed.

(** ** Undo, loop by loop *)

Lemma table_modify_Ok id v m m' : table_modify id v m = Ok m' → m' = <[id := v]> m.
Proof. unfold table_modify. intros H. by res_inv. Qed.

Lemma table_emplace_Ok id v m m' : table_emplace id v m = Ok m' → m' = <[id := v]> m.
Proof. unfold table_emplace. intros H. by res_inv. Qed.

Lemma insert_union_swap (k : Z) (v : V) (a m : gmap Z V) :
  a !! k = None → a ∪ <[k := v]> m = <[k := v]> a ∪ m.
Proof.
  intros Hk. rewrite <- insert_union_l. apply map_eq. intros i.
  destruct (decide (k = i)) as [->|]; rewrite ?lookup_union, ?lookup_insert_eq, ?lookup_insert_ne, ?lookup_union, ?Hk by done; done.
Qed.

(** A loop that writes the rows of [l] over the table. *)
Lemma res_fold_insert (f : gmap Z V → Z * V → res (gmap Z V)) l m m' :
  (∀ m0 it m1, f m0 it = Ok m1 → m1 = <[it.1 := it.2]> m0) →
  NoDup l.*1 → res_fold f m l = Ok m' → m' = list_to_map l ∪ m.
Proof.
  intros Hf. revert m. induction l as [|[k v] l IH]; intros m Hnd H; simpl in *.
  { injection H as <-. by rewrite (left_id_L ∅ (∪)). }
  apply NoDup_cons in Hnd as [Hk Hnd]. apply bind_Ok in H as (m0 & Hm0 & H).
  apply Hf in Hm0 as ->. apply IH in H as ->; [|done]. simpl.
  apply insert_union_swap. by apply not_elem_of_list_to_map_1.
Qed.

Lemma res_fold_erase l m m' :
  res_fold erase_new m l = Ok m' → m' = filter (λ kv, kv.1 ∉ l) m.
Proof.
  revert m. induction l as [|k l IH]; intros m H; simpl in *.
  { injection H as <-. symmetry. apply map_filter_id. intros. simpl. apply not_elem_of_nil. }
  apply bind_Ok in H as (m0 & Hm0 & H). unfold erase_new in Hm0. res_inv.
  apply IH in H as ->. apply map_eq. intros i. rewrite !map_lookup_filter, lookup_delete.
  destruct (decide (k = i)) as [->|]; simpl.
  - destruct (m !! i); simpl; [|done]. by rewrite option_guard_False by (rewrite elem_of_cons; tauto).
  - destruct (m !! i); simpl; [|done]. apply option_guard_iff. rewrite elem_of_cons. naive_solver.
Qed.

Lemma undo_Ok head st rev n m idx' :
  wf_delta head m n → undo (Index (head :: st) rev n m) = Ok idx' →
  idx' = Index st (rev - 1) (old_next_id head) (revert head m).
Proof.
  intros [Ho Hn Hr Hx] H. unfold undo in H; simpl in H.
  apply bind_Ok in H as (m1 & H1 & H). apply bind_Ok in H as (m2 & H2 & H).
  apply bind_Ok in H as (m3 & H3 & H). injection H as <-. f_equal.
  apply res_fold_insert in H1; [|unfold restore_old; intros ? [? ?] ?; simpl; case_match;
    eauto using table_modify_Ok, table_emplace_Ok|apply by_id_nodup].
  apply res_fold_erase in H2.
  apply res_fold_insert in H3; [|intros ? [? ?] ?; apply table_emplace_Ok|apply by_id_nodup].
  rewrite by_id_map in *. subst. apply map_eq. intros i. rewrite lookup_revert.
  rewrite lookup_union, map_lookup_filter, lookup_union.
  destruct (removed_values head !! i) eqn:Er.
  { by rewrite union_Some_l. }
  destruct (old_values head !! i) as [o|] eqn:Eo.
  - apply Ho in Eo as [_ Hlt]. rewrite union_Some_l, (left_id_L None _). simpl.
    rewrite option_guard_True; [done|]. rewrite ids_in_order_elem, Hn. lia.
  - rewrite !(left_id_L None _). case_decide as Hd; destruct (m !! i) eqn:Em; simpl; try done.
    + by rewrite option_guard_False by (rewrite ids_in_order_elem; tauto).
    + by rewrite option_guard_True by (rewrite ids_in_order_elem; tauto).
Qed.

(** ** Simulation *)

Lemma drop_front_snoc rev l us :
  rev < us_revision us → drop_front rev (l ++ [us]) = drop_front rev l ++ [us].
Proof.
  intros H. induction l as [|x l IH]; simpl; [|by case_match].
  by rewrite (proj2 (Z.leb_gt _ _) H).
Qed.

Lemma drop_front_all rev l : Forall (λ us, us_revision us <= rev) l → drop_front rev l = [].
Proof. induction 1 as [|us l H _ IH]; simpl; [done|]. by rewrite (proj2 (Z.leb_le _ _) H). Qed.

Lemma chain_revisions st m n rev h :
  chain st m n rev h → Forall (λ us, us_revision us <= rev) st.
Proof.
  revert m n rev h. induction st as [|us st IH]; intros m n rev [|[m' n'] h]; simpl; try done.
  intros (_ & _ & _ & Hrev & Hc). constructor; [lia|].
  eapply Forall_impl; [eapply IH, Hc|]. simpl. lia.
Qed.

Lemma commit_takes r st m n rev h :
  chain st m n rev h → reverse (drop_front r (reverse st)) = take (Z.to_nat (rev - r)) st.
Proof.
  revert m n rev h. induction st as [|us st IH]; intros m n rev h Hc; [by rewrite take_nil|].
  destruct (Z.le_gt_cases rev r) as [Hle|Hgt].
  { rewrite drop_front_all.
    2: { apply Forall_reverse. eapply Forall_impl; [eapply chain_revisions, Hc|]. simpl; lia. }
    by replace (Z.to_nat (rev - r)) with 0%nat by lia. }
  destruct h as [|[m' n'] h]; [done|]. destruct Hc as (_ & _ & _ & Hrev & Hc).
  rewrite reverse_cons, drop_front_snoc, reverse_snoc, (IH _ _ _ _ Hc) by lia.
  replace (Z.to_nat (rev - r)) with (S (Z.to_nat (rev - 1 - r))) by lia. done.
Qed.

Lemma chain_take k st m n rev h :
  chain st m n rev h → chain (take k st) m n rev (take k h).
Proof.
  revert k m n rev h. induction st as [|us st IH]; intros [|k] m n rev [|[m' n'] h]; simpl; try done.
  intros (? & ? & ? & ? & ?). split_and!; eauto.
Qed.

Lemma revert_below us m n id v :
  wf_delta us m n → revert us m !! id = Some v → id < old_next_id us.
Proof.
  intros [Ho Hn Hr Hx]. rewrite lookup_revert.
  destruct (removed_values us !! id) eqn:E; [intros _; by apply Hr in E as []|].
  destruct (old_values us !! id) eqn:E'; [intros _; by apply Ho in E' as []|].
  case_decide as Hd; [done|]. intros Hm. destruct (Z.lt_ge_cases id (old_next_id us)); [done|].
  exfalso. apply Hd, Hn. eauto.
Qed.

Lemma chain_wf us st m n rev h : chain (us :: st) m n rev h → wf_delta us m n.
Proof. destruct h as [|[m' n'] h]; [done|]. by intros []. Qed.

(** A change of the current table that the top delta has recorded. *)
Lemma chain_head us us' st m m' n n' rev h :
  chain (us :: st) m n rev h → wf_delta us' m' n' → revert us' m' = revert us m →
  old_next_id us' = old_next_id us → us_revision us' = us_revision us →
  chain (us' :: st) m' n' rev h.
Proof.
  destruct h as [|[m0 n0] h]; [done|]. simpl. intros (_ & <- & <- & <- & Hc) Hwf E1 E2 E3.
  rewrite E1, E2, E3. done.
Qed.

Inductive op : Type :=
  | Emplace (c : Z → V)
  | Modify (id : Z) (f : V → V)
  | Remove (id : Z)
  | Start
  | Undo
  | Squash
  | Commit (rev : Z).

Definition run_op (o : op) (idx : generic_index) : res generic_index :=
  match o with
  | Emplace c => emplace c idx
  | Modify id f => modify id f idx
  | Remove id => remove id idx
  | Start => mret (start_undo_session idx)
  | Undo => undo idx
  | Squash => mret (squash idx)
  | Commit rev => mret (commit rev idx)
  end.

Definition spec_op (o : op) (sp : spec_state) : spec_state :=
  match o with
  | Emplace c => spec_set (<[cur_next sp := c (cur_next sp)]> (cur sp)) (cur_next sp + 1) sp
  | Modify id f => spec_set (alter f id (cur sp)) (cur_next sp) sp
  | Remove id => spec_set (delete id (cur sp)) (cur_next sp) sp
  | Start => spec_start sp
  | Undo => spec_undo sp
  | Squash => spec_squash sp
  | Commit rev => spec_commit rev sp
  end.

Lemma refines_emplace c idx sp idx' :
  refines idx sp → emplace c idx = Ok idx' → refines idx' (spec_op (Emplace c) sp).
Proof.
  destruct idx as [st rev n m]. intros [E1 E2 E3 Hb Hc] H; simpl in *. subst.
  unfold emplace in H; simpl in H. apply bind_Ok in H as (m' & Hm & H). apply table_emplace_Ok in Hm as ->.
  injection H as <-. unfold on_create, on_head. simpl.
  assert (cur sp !! cur_next sp = None) as Hnone.
  { destruct (cur sp !! cur_next sp) eqn:E; [|done]. apply Hb in E. lia. }
  assert (∀ id v, <[cur_next sp := c (cur_next sp)]> (cur sp) !! id = Some v → id < cur_next sp + 1).
  { intros id v. rewrite lookup_insert_Some. intros [[<- _]|[_ ?%Hb]]; lia. }
  destruct st as [|us st]; split; try done.
  - pose proof (chain_wf _ _ _ _ _ _ Hc) as Hwf.
    destruct (wf_delta_create _ _ _ _ (c (cur_next sp)) Hwf Hnone ltac:(lia)).
    eapply chain_head; eauto.
Qed.

Lemma refines_modify id f idx sp idx' :
  refines idx sp → modify id f idx = Ok idx' → refines idx' (spec_op (Modify id f) sp).
Proof.
  destruct idx as [st rev n m]. intros [E1 E2 E3 Hb Hc] H; simpl in *. subst.
  unfold modify in H; simpl in H. apply bind_Ok in H as (v & Hv & H). apply from_option_exn_Ok in Hv.
  apply bind_Ok in H as (m' & Hm & H). apply table_modify_Ok in Hm as ->. injection H as <-.
  assert (alter f id (cur sp) = <[id := f v]> (cur sp)) as Ea.
  { apply map_eq. intros i. destruct (decide (id = i)) as [->|]; by simplify_map_eq. }
  unfold on_modify, on_head; simpl.
  destruct st as [|us st]; split; rewrite ?Ea; try done.
  1, 2: simpl; intros i w; rewrite lookup_insert_Some; intros [[<- _]|[_ ?]]; eauto.
  - pose proof (chain_wf _ _ _ _ _ _ Hc) as Hwf.
    destruct (wf_delta_modify _ _ _ _ _ (f v) Hwf Hv) as (? & ? & ? & ?). eapply chain_head; eauto.
Qed.

Lemma refines_remove id idx sp idx' :
  refines idx sp → remove id idx = Ok idx' → refines idx' (spec_op (Remove id) sp).
Proof.
  destruct idx as [st rev n m]. intros [E1 E2 E3 Hb Hc] H; simpl in *. subst.
  unfold remove in H; simpl in H. apply bind_Ok in H as (v & Hv & H). apply from_option_exn_Ok in Hv.
  injection H as <-. unfold on_remove, on_head; simpl.
  destruct st as [|us st]; split; try done.
  1, 2: simpl; intros i w; rewrite lookup_delete_Some; intros [_ ?]; eauto.
  - pose proof (chain_wf _ _ _ _ _ _ Hc) as Hwf.
    destruct (wf_delta_remove _ _ _ _ _ Hwf Hv) as (? & ? & ? & ?). eapply chain_head; eauto.
Qed.

Lemma refines_start idx sp : refines idx sp → refines (start_undo_session idx) (spec_start sp).
Proof.
  destruct idx as [st rev n m]. intros [E1 E2 E3 Hb Hc]; simpl in *. subst.
  split; simpl; try done. split_and!; try done.
  - split; simpl; try done. intros id. rewrite elem_of_empty. split; [done|]. intros [[v ?%Hb] ?]. lia.
  - apply map_eq. intros i. rewrite lookup_revert. simpl. by rewrite !lookup_empty, decide_False by set_solver.
  - by replace (spec_rev sp + 1 - 1) with (spec_rev sp) by lia.
Qed.

Lemma refines_undo idx sp idx' :
  refines idx sp → undo idx = Ok idx' → refines idx' (spec_undo sp).
Proof.
  destruct idx as [st rev n m]. intros [E1 E2 E3 Hb Hc] H; simpl in *. subst. unfold spec_undo.
  destruct st as [|us st], (history sp) as [|[m' n'] h] eqn:Eh; simpl in Hc; try done.
  { injection H as <-. split; simpl; try done. by rewrite Eh. }
  destruct Hc as (Hwf & <- & <- & Hrev & Hc). eapply undo_Ok in H; [|done]. subst.
  split; simpl; try done. intros id v. by apply (revert_below us _ _ id v Hwf).
Qed.

Lemma refines_squash idx sp : refines idx sp → refines (squash idx) (spec_squash sp).
Proof.
  destruct idx as [st rev n m]. intros [E1 E2 E3 Hb Hc]; simpl in *. subst. unfold squash, spec_squash; simpl.
  destruct st as [|us [|us' st]], (history sp) as [|[m1 n1] [|[m2 n2] h]] eqn:Eh; simpl in Hc; try tauto.
  - split; simpl; try done. by rewrite Eh.
  - split; simpl; done.
  - destruct Hc as (Hwf & <- & <- & Hrev & Hwf' & <- & <- & Hrev' & Hc).
    destruct (squash_states_revert us us' _ _ Hwf Hwf') as (Hw & Hv & Hn & Hr).
    split; simpl; try done. rewrite Hv, Hn, Hr. done.
Qed.

(** C2: the undo machinery of the object tables implements a table with a
    stack of whole snapshots.  Every operation that returns (inserting,
    modifying and removing a row; starting, undoing, squashing and committing
    sessions) takes related states to related states: the recorded deltas
    always reproduce the snapshots exactly, undo returns to the latest one,
    squash forgets it, and commit keeps those of later revisions. *)
Theorem undo_stack_refines_snapshots o idx sp idx' :
  refines idx sp → run_op o idx = Ok idx' → refines idx' (spec_op o sp).
Proof.
  intros HR H. destruct o; simpl in H; try (injection H as <-);
    eauto using refines_emplace, refines_modify, refines_remove, refines_undo, refines_start, refines_squash.
  destruct HR as [E1 E2 E3 Hb Hc]. destruct idx as [st rv n m]; simpl in *. subst.
  split; simpl; try done. rewrite (commit_takes _ _ _ _ _ _ Hc). by apply chain_take.
Qed.

(** ** When undo cannot fail *)

Section Unique.

Context (conflict_sym : ∀ v w, conflict v w = conflict w v).

(** No two rows share a unique key. *)
Definition unique (m : gmap Z V) : Prop :=
  ∀ i j v w, m !! i = Some v → m !! j = Some w → i ≠ j → conflict v w = false.

(** [v] and [w] have the same unique keys. *)
Definition same_keys (v w : V) : Prop := ∀ x, conflict v x = conflict w x.

Definition keeps_keys (o : op) : Prop :=
  match o with
  | Emplace _ | Remove _ => True
  | Modify _ f => ∀ v, same_keys (f v) v
  | _ => False
  end.

Lemma fits_spec id v m :
  fits id v m = true ↔ ∀ i w, m !! i = Some w → i ≠ id → conflict v w = false.
Proof.
  unfold fits. rewrite bool_decide_eq_true. split.
  - intros H i w Hi Hne. destruct (H i w Hi); done.
  - intros H i w Hi. destruct (decide (i = id)); [by left|right; eauto].
Qed.

Lemma unique_insert id v m : unique m → fits id v m = true → unique (<[id := v]> m).
Proof.
  intros Hu Hf i j x y. rewrite fits_spec in Hf. rewrite !lookup_insert_Some.
  intros [[<- <-]|[? Hx]] [[<- <-]|[? Hy]] Hne; try done; first [eauto | rewrite conflict_sym; eauto].
Qed.

Lemma unique_subseteq m m' : m ⊆ m' → unique m' → unique m.
Proof. intros Hs Hu i j v w Hi Hj. eapply Hu; eapply lookup_weaken; eauto. Qed.

(** The current rows, up to keys. *)
Definition similar (m m0 : gmap Z V) : Prop :=
  ∀ i, match m !! i, m0 !! i with
       | Some v, Some w => same_keys v w
       | None, None => True
       | _, _ => False
       end.

Lemma similar_fits m m0 id v w :
  unique m → similar m0 m → m !! id = Some w → same_keys v w → fits id v m0 = true.
Proof.
  intros Hu Hs Hid Hk. apply fits_spec. intros i x Hi Hne. specialize (Hs i). rewrite Hi in Hs.
  destruct (m !! i) as [y|] eqn:Ei; [|done]. rewrite (Hk x), (conflict_sym w x), (Hs w). eauto.
Qed.

Lemma restore_old_total m l m0 :
  unique m → similar m0 m →
  Forall (λ it, ∃ w, m !! it.1 = Some w ∧ same_keys it.2 w) l →
  ∃ m1, res_fold restore_old m0 l = Ok m1 ∧ similar m1 m.
Proof.
  intros Hu. revert m0. induction l as [|[k v] l IH]; intros m0 Hs Hl; simpl; [eauto|].
  apply Forall_cons_iff in Hl as [(w & Hw & Hk) Hl]; simpl in *.
  assert (is_Some (m0 !! k)) as [x Hx].
  { specialize (Hs k). rewrite Hw in Hs. destruct (m0 !! k); [eauto|done]. }
  unfold restore_old at 2; simpl. rewrite Hx. unfold table_modify.
  rewrite (similar_fits m m0 k v w) by done. cbn. apply IH; [|done].
  intros i. specialize (Hs i). destruct (decide (k = i)) as [->|]; simplify_map_eq; done.
Qed.

Lemma erase_new_total l m :
  NoDup l → (∀ id, id ∈ l → is_Some (m !! id)) → ∃ m', res_fold erase_new m l = Ok m'.
Proof.
  revert m. induction l as [|k l IH]; intros m Hnd Hin; simpl; [eauto|].
  apply NoDup_cons in Hnd as [Hk Hnd]. destruct (Hin k) as [v Hv]; [left|].
  unfold erase_new at 2. rewrite Hv. cbn. apply IH; [done|].
  intros id Hid. rewrite lookup_delete_ne by (intros ->; done). apply Hin. by right.
Qed.

Lemma restore_removed_total l m :
  NoDup l.*1 → (∀ id, id ∈ l.*1 → m !! id = None) → unique (list_to_map l ∪ m) →
  ∃ m', res_fold restore_removed m l = Ok m'.
Proof.
  revert m. induction l as [|[k v] l IH]; intros m Hnd Hd Hu; simpl in *; [eauto|].
  apply NoDup_cons in Hnd as [Hk Hnd].
  assert (m !! k = None) as Hmk by (apply Hd; left).
  assert ((list_to_map l : gmap Z V) !! k = None) as Hlk by (by apply not_elem_of_list_to_map_1).
  unfold restore_removed at 2, table_emplace; simpl. rewrite Hmk. simpl.
  replace (fits k v m) with true; [cbn|].
  - apply IH; [done| |].
    + intros id Hid. rewrite lookup_insert_ne by (intros ->; done). apply Hd. by right.
    + rewrite insert_union_swap by done. done.
  - symmetry. apply fits_spec. intros i w Hi Hne. apply (Hu k i v w); [| |done].
    + by rewrite lookup_union, lookup_insert_eq, union_Some_l.
    + rewrite lookup_union, lookup_insert_ne by done.
      assert ((list_to_map l : gmap Z V) !! i = None) as ->; [|by rewrite Hi].
      apply not_elem_of_list_to_map_1. intros Hil. rewrite (Hd i) in Hi; [done|by right].
Qed.

Lemma undo_total head st rev n m :
  wf_delta head m n → unique m → unique (revert head m) →
  (∀ id v w, old_values head !! id = Some v → m !! id = Some w → same_keys v w) →
  undo (Index (head :: st) rev n m) = Ok (Index st (rev - 1) (old_next_id head) (revert head m)).
Proof.
  intros Hwf Hu Hur Hk. pose proof Hwf as [Ho Hn Hr Hx].
  destruct (undo (Index (head :: st) rev n m)) as [idx'|e] eqn:E.
  { by rewrite (undo_Ok _ _ _ _ _ _ Hwf E). }
  exfalso. unfold undo in E; simpl in E.
  destruct (restore_old_total m (by_id (old_values head)) m) as (m1 & E1 & Hs1); [done| | |].
  { intros i. destruct (m !! i); [|done]. intros x. done. }
  { apply Forall_forall. intros [k v] Hin. rewrite by_id_perm in Hin. apply elem_of_map_to_list in Hin.
    simpl. destruct (Ho k v Hin) as [[w Hw] _]. eauto. }
  rewrite E1 in E. cbn in E.
  destruct (erase_new_total (ids_in_order (new_ids head)) m1) as [m2 E2]; [apply ids_in_order_nodup| |].
  { intros id Hid. rewrite ids_in_order_elem in Hid. apply Hn in Hid as [[v Hv] _].
    specialize (Hs1 id). rewrite Hv in Hs1. destruct (m1 !! id); [eauto|done]. }
  rewrite E2 in E. cbn in E.
  apply res_fold_insert in E1; [|unfold restore_old; intros ? [? ?] ?; simpl; case_match;
    eauto using table_modify_Ok, table_emplace_Ok|apply by_id_nodup].
  apply res_fold_erase in E2. rewrite by_id_map in E1. subst.
  destruct (restore_removed_total (by_id (removed_values head))
    (filter (λ kv, kv.1 ∉ ids_in_order (new_ids head)) (old_values head ∪ m))) as [m3 E3].
  - apply by_id_nodup.
  - intros id Hid. apply list_elem_of_fmap in Hid as ([k v] & -> & Hin). rewrite by_id_perm in Hin.
    apply elem_of_map_to_list in Hin. apply Hr in Hin as [Hm _]. simpl.
    rewrite map_lookup_filter, lookup_union, Hm.
    destruct (old_values head !! k) eqn:Eo; [|done]. apply Ho in Eo as [[? ?] _]. congruence.
  - rewrite by_id_map. eapply unique_subseteq; [|exact Hur]. apply map_union_mono_l.
    apply map_subseteq_spec. intros i v. rewrite map_lookup_filter_Some, !lookup_union, map_lookup_filter.
    intros [Hl Hni]. simpl in *. rewrite ids_in_order_elem in Hni.
    destruct (old_values head !! i) eqn:Eo.
    { rewrite union_Some_l in *. done. }
    rewrite (left_id_L None _) in *. rewrite Hl. simpl. by rewrite option_guard_True.
  - rewrite E3 in E. done.
Qed.

(** What a session keeps while it is open: its delta leads back to the table
    [m0] it started from. *)
Record session_inv (st : list undo_state) (rev n0 : Z) (m0 : gmap Z V) (idx : generic_index) : Prop := {
  si_shape : ∃ head, idx = Index (head :: st) (rev + 1) (next_id idx) (indices idx)
    ∧ wf_delta head (indices idx) (next_id idx) ∧ revert head (indices idx) = m0
    ∧ old_next_id head = n0
    ∧ ∀ id v w, old_values head !! id = Some v → indices idx !! id = Some w → same_keys v w;
  si_unique : unique (indices idx);
  si_below : ∀ id v, indices idx !! id = Some v → id < next_id idx
}.

Lemma session_start idx :
  unique (indices idx) → (∀ id v, indices idx !! id = Some v → id < next_id idx) →
  session_inv (stack idx) (revision idx) (next_id idx) (indices idx) (start_undo_session idx).
Proof.
  intros Hu Hb. destruct idx as [st rev n m]. split; simpl in *; [|done..].
  exists (UndoState ∅ ∅ ∅ n (rev + 1)). split_and!; try done.
  - split; simpl; try done. intros id. rewrite elem_of_empty. split; [done|]. intros [[v ?%Hb] ?]. lia.
  - apply map_eq. intros i. rewrite lookup_revert. simpl. by rewrite !lookup_empty, decide_False by set_solver.
Qed.

Lemma session_step st rev n0 m0 o idx idx' :
  keeps_keys o → session_inv st rev n0 m0 idx → run_op o idx = Ok idx' → session_inv st rev n0 m0 idx'.
Proof.
  intros Ho [(head & Ei & Hwf & Hrv & Hn & Hk) Hu Hb] H.
  destruct idx as [st' rev' n m]. simpl in *. injection Ei as -> ->.
  destruct o as [c|id f|id| | | |]; simpl in Ho, H; try done.
  - unfold emplace in H; simpl in H. apply bind_Ok in H as (m' & Hm & H).
    pose proof (table_emplace_Ok _ _ _ _ Hm) as ->. injection H as <-.
    unfold table_emplace in Hm. apply bind_Ok in Hm as ([] & Hc & _). apply check_Ok, andb_true_iff in Hc as [Hnone Hf].
    apply bool_decide_eq_true in Hnone.
    destruct (wf_delta_create head m n n (c n) Hwf Hnone ltac:(lia)) as [Hw Hr].
    split; simpl; [|by apply unique_insert|].
    + exists (on_create_head n head). split_and!; try done; [congruence|]. simpl. intros id v w Hv.
      destruct (wd_old _ _ _ Hwf id v Hv) as [_ Hlt]. pose proof (wd_next _ _ _ Hwf).
      rewrite lookup_insert_ne by lia. eauto.
    + intros id v. rewrite lookup_insert_Some. intros [[<- _]|[_ ?%Hb]]; lia.
  - unfold modify in H; simpl in H. apply bind_Ok in H as (v & Hv & H). apply from_option_exn_Ok in Hv.
    apply bind_Ok in H as (m' & Hm & H). pose proof (table_modify_Ok _ _ _ _ Hm) as ->.
    unfold table_modify in Hm. apply bind_Ok in Hm as ([] & Hc & _). apply check_Ok in Hc. injection H as <-.
    destruct (wf_delta_modify head m n id v (f v) Hwf Hv) as (Hw & Hr & Hn' & _).
    split; simpl; [|by apply unique_insert|].
    + exists (on_modify_head id v head). split_and!; try done; [congruence..|].
      assert (∀ i x y, old_values head !! i = Some x → <[id:=f v]> m !! i = Some y → same_keys x y) as Hk'.
      { intros i x y Hx. rewrite lookup_insert_Some. intros [[<- <-]|[_ Hy]]; [|eauto].
        intros z. rewrite (Ho v z). by apply (Hk id). }
      intros i x y. unfold on_modify_head. repeat case_match; simpl; eauto.
      rewrite lookup_insert_Some. intros [[<- <-]|[_ Hx]]; [|eauto].
      rewrite lookup_insert_eq. intros [= <-] z. by rewrite (Ho v z).
    + intros i w. rewrite lookup_insert_Some. intros [[<- _]|[_ ?]]; eauto.
  - unfold remove in H; simpl in H. apply bind_Ok in H as (v & Hv & H). apply from_option_exn_Ok in Hv.
    injection H as <-. destruct (wf_delta_remove head m n id v Hwf Hv) as (Hw & Hr & Hn' & _).
    split; simpl; [|eapply unique_subseteq; [apply delete_subseteq|done]|].
    + exists (on_remove_head id v head). split_and!; try done; [congruence..|].
      intros i x y Hx. rewrite lookup_delete_Some. intros [_ Hy]. apply (Hk i); [|done].
      revert Hx. unfold on_remove_head. repeat case_match; simpl; try done;
        rewrite lookup_delete_Some; tauto.
    + intros i w. rewrite lookup_delete_Some. intros [_ ?]. eauto.
Qed.

Definition run_ops (ops : list op) (idx : generic_index) : res generic_index :=
  res_fold (λ idx o, run_op o idx) idx ops.

Lemma session_run st rev n0 m0 ops idx idx' :
  Forall keeps_keys ops → session_inv st rev n0 m0 idx → run_ops ops idx = Ok idx' →
  session_inv st rev n0 m0 idx'.
Proof.
  intros Ho. revert idx. unfold run_ops. induction Ho as [|o ops Hko _ IH]; simpl; intros idx Hi H.
  - by injection H as <-.
  - apply bind_Ok in H as (idx1 & H1 & H). eauto using session_step.
Qed.

(** A session can always be undone, and undoing it is exact.  Over a table
    without duplicate keys, after any sequence of insertions, removals and
    modifications that keep the unique keys of a row, [undo] does not throw and
    returns the index, its rows, id counter, revision and older sessions, to
    what it was when the session started. *)
Theorem session_undo_exact ops idx idx' :
  unique (indices idx) → (∀ id v, indices idx !! id = Some v → id < next_id idx) →
  Forall keeps_keys ops → run_ops ops (start_undo_session idx) = Ok idx' →
  undo idx' = Ok idx.
Proof.
  intros Hu Hb Ho H.
  destruct (session_run _ _ _ _ _ _ _ Ho (session_start idx Hu Hb) H) as [(head & Ei & Hwf & Hrv & Hn & Hk) Hu' _].
  rewrite Ei, undo_total; [|done..|by rewrite Hrv|done].
  rewrite Hrv, Hn. destruct idx; simpl. do 2 f_equal. lia.
Qed.

End Unique.
End Chainbase.

(** A table of rows [(key, payload)] with the key as a unique index. *)
Definition keyed_conflict (v w : Z * Z) : bool := v.1 =? w.1.
Definition sample_index : generic_index (V := Z * Z) :=
  Index [] 0 2 (<[0 := (10, 1)]> (<[1 := (11, 5)]> ∅)).
Definition sample_ops : list (op (V := Z * Z)) :=
  [Modify 0 (λ v, (v.1, v.2 + 1)); Emplace (λ id, (20 + id, 7)); Remove 1; Emplace (λ _, (11, 9))].

Lemma undo_stack_refines_snapshots_witness :
  refines sample_index (Spec (indices sample_index) 2 0 []) ∧
  ∃ idx', run_op keyed_conflict (Modify 0 (λ v, (v.1, 3))) sample_index = Ok idx'
    ∧ refines idx' (spec_op (Modify 0 (λ v, (v.1, 3))) (Spec (indices sample_index) 2 0 [])).
Proof.
  assert (refines sample_index (Spec (indices sample_index) 2 0 [])) as HR.
  { split; try done. intros id v. simpl. rewrite !lookup_insert_Some.
    intros [[<- _]|[_ [[<- _]|[_ H]]]]; [lia..|]. by rewrite lookup_empty in H. }
  split; [done|]. eexists. split; [reflexivity|].
  apply (undo_stack_refines_snapshots keyed_conflict _ _ _ _ HR). reflexivity.
Defined.

Lemma session_undo_exact_witness :
  ∃ idx', run_ops keyed_conflict sample_ops (start_undo_session sample_index) = Ok idx'
    ∧ undo keyed_conflict idx' = Ok sample_index.
Proof.
  eexists. split; [reflexivity|].
  apply (session_undo_exact keyed_conflict) with (ops := sample_ops); [| | | |reflexivity].
  - intros v w. unfold keyed_conflict. apply Z.eqb_sym.
  - intros i j v w. simpl. rewrite !lookup_insert_Some, !lookup_empty. unfold keyed_conflict. naive_solver.
  - intros id v. simpl. rewrite !lookup_insert_Some, !lookup_empty. naive_solver lia.
  - repeat constructor; simpl; intros v x; done.
Defined.

(** The session in which a unique key moves: row 0 changes its key from 10 to
    12 and a new row takes 10. *)
Definition rekey_ops : list (op (V := Z * Z)) := [Modify 0 (λ v, (12, v.2)); Emplace (λ _, (10, 0))].

(** Undo can throw.  [undo] writes the old values back before it erases the
    session's new rows; when a session moved a unique key from an old row to a
    new one, writing the old row back violates the uniqueness constraint and the
    session cannot be undone. *)
Theorem undo_throws_on_reused_key :
  ∃ idx', run_ops keyed_conflict rekey_ops (start_undo_session sample_index) = Ok idx'
    ∧ undo keyed_conflict idx' = Throw logic_error.
Proof. eexists. split; reflexivity. Qed.
