(* ===== verification/Manabar.v ===== *)
(** * Manabar: regenerating voting power

    chain/util/manabar.hpp: a bar of mana that refills linearly over
    [regen_time] seconds up to [max_mana], is drained with saturation, and is
    kept per account for votes and for downvotes ([update_manabar]). *)

From S2P Require Import Prelude Config Uint128 SafeInt.
#[local] Open Scope Z_scope.

Record manabar_params : Type := ManabarParams {
  max_mana : Z;     (* int64_t *)
  regen_time : Z    (* uint32_t *)
}.

Record manabar : Type := Manabar {
  current_mana : Z;      (* int64_t *)
  last_update_time : Z   (* uint32_t *)
}.

Definition params_validate (params : manabar_params) : res unit :=
  fc_assert (0 <=? max_mana params).

Definition regenerate_mana (skip_cap_regen : bool) (params : manabar_params) (now : Z) (m : manabar) : res manabar :=
  _ ← params_validate params;
  _ ← fc_assert (last_update_time m <=? now);
  let dt := u32 (now - last_update_time m) in
  if max_mana params <=? current_mana m then mret (Manabar (max_mana params) now)
  else
    let dt := if skip_cap_regen then dt else if regen_time params <? dt then regen_time params else dt in
    let max_mana_dt := uint128_of_u64 (u64 (if 0 <=? max_mana params then max_mana params else 0)) in
    max_mana_dt ← mul_assign max_mana_dt (uint128_of_u64 dt);
    q ← div_assign max_mana_dt (uint128_of_u64 (regen_time params));
    u_regen ← to_uint64 q;
    _ ← fc_assert (u_regen <=? int64_max);
    let new_current_mana := signed_sat_add (current_mana m) (i64 u_regen) in
    mret (Manabar (if max_mana params <? new_current_mana then max_mana params else new_current_mana) now).

Definition has_mana (mana_needed : Z) (m : manabar) : bool :=
  (mana_needed <=? 0) || (mana_needed <=? current_mana m).

Definition has_mana_u64 (mana_needed : Z) (m : manabar) : res bool :=
  _ ← fc_assert (mana_needed <=? int64_max);
  mret (has_mana (i64 mana_needed) m).

(** The default [min_mana] is [std::numeric_limits< uint64_t >::min()], which
    is 0. *)
Definition use_mana (mana_used min_mana : Z) (m : manabar) : manabar :=
  let c := signed_sat_sub (current_mana m) mana_used in
  Manabar (if c <? min_mana then min_mana else c) (last_update_time m).

Definition use_mana_u64 (mana_used min_mana : Z) (m : manabar) : res manabar :=
  _ ← fc_assert (mana_used <=? int64_max);
  mret (use_mana (i64 mana_used) min_mana m).

(** The members of an account that the functions read and write; all of them
    are [int64_t] except the time and the two bars. *)
Record mana_account : Type := ManaAccount {
  ma_vesting_shares : Z;
  ma_received_vesting_shares : Z;
  ma_delegated_vesting_shares : Z;
  ma_next_vesting_withdrawal : Z;
  ma_vesting_withdraw_rate : Z;
  ma_to_withdraw : Z;
  ma_withdrawn : Z;
  voting_manabar : manabar;
  downvote_manabar : manabar
}.

Definition get_effective_vesting_shares (account : mana_account) : Z :=
  let effective_vesting_shares :=
    i64 (i64 (ma_vesting_shares account + ma_received_vesting_shares account)
         - ma_delegated_vesting_shares account) in
  if negb (ma_next_vesting_withdrawal account =? time_point_sec_maximum) then
    i64 (effective_vesting_shares
         - Z.min (ma_vesting_withdraw_rate account) (i64 (ma_to_withdraw account - ma_withdrawn account)))
  else effective_vesting_shares.

Definition set_manabars (account : mana_account) (v d : manabar) : mana_account :=
  ManaAccount (ma_vesting_shares account) (ma_received_vesting_shares account)
    (ma_delegated_vesting_shares account) (ma_next_vesting_withdrawal account)
    (ma_vesting_withdraw_rate account) (ma_to_withdraw account) (ma_withdrawn account) v d.

(** [gpo_time] and [downvote_pool_percent] are the two properties read. *)
Definition update_manabar (gpo_time downvote_pool_percent : Z) (account : mana_account)
    (mana_regen_seconds : Z) (downvote_mana : bool) (new_mana : Z) : res mana_account :=
  let effective_vests := get_effective_vesting_shares account in
  let params := ManabarParams effective_vests (u32 mana_regen_seconds) in
  v ← regenerate_mana false params gpo_time (voting_manabar account);
  let v := use_mana (i64 (- new_mana)) 0 v in
  if downvote_mana then
    p ← mul_assign (uint128_of_i64 effective_vests) (uint128_of_i64 downvote_pool_percent);
    p ← div_assign p (uint128_of_i64 freezone_100_PERCENT);
    dmax ← to_int64 p;
    d ← regenerate_mana false (ManabarParams dmax (u32 mana_regen_seconds)) gpo_time (downvote_manabar account);
    let d := use_mana (Z.quot (i64 (i64 (- new_mana) * downvote_pool_percent)) freezone_100_PERCENT) 0 d in
    mret (set_manabars account v d)
  else mret (set_manabars account v (downvote_manabar account)).

(** ** Specification *)

(** Mana gained after [dt] seconds. *)
Definition gain (params : manabar_params) (dt : Z) : Z :=
  max_mana params * Z.min dt (regen_time params) / regen_time params.

Definition wf_params (params : manabar_params) : Prop :=
  0 <= max_mana params < 2 ^ 63 ∧ 0 < regen_time params < 2 ^ 32.

Definition wf_bar (m : manabar) : Prop :=
  in_s 64 (current_mana m) ∧ in_u 32 (last_update_time m).

Lemma gain_bounds params dt :
  wf_params params → 0 <= dt → 0 <= gain params dt <= max_mana params.
Proof.
  intros [[Hm1 Hm2] [Hr1 Hr2]] Hdt. unfold gain. split.
  - apply Z.div_pos; [|lia]. nia.
  - apply Z.div_le_upper_bound; [lia|]. nia.
Qed.

Lemma gain_zero params : wf_params params → gain params 0 = 0.
Proof. intros [_ [H _]]. unfold gain. rewrite Z.min_l, Z.mul_0_r by lia. apply Z.div_0_l. lia. Qed.

Lemma gain_full params dt :
  wf_params params → regen_time params <= dt → gain params dt = max_mana params.
Proof. intros [_ [H _]] Hdt. unfold gain. rewrite Z.min_r by lia. apply Z.div_mul. lia. Qed.

Lemma gain_mono params a b :
  wf_params params → 0 <= a <= b → gain params a <= gain params b.
Proof.
  intros [[? ?] [? ?]] Hab. unfold gain. apply Z.div_le_mono; [lia|].
  apply Z.mul_le_mono_nonneg_l; lia.
Qed.

(** The refill of two periods differs from that of their union by at most the
    unit lost to rounding. *)
Lemma gain_split params a b :
  wf_params params → 0 <= a → 0 <= b → a + b <= regen_time params →
  gain params a + gain params b <= gain params (a + b) <= gain params a + gain params b + 1.
Proof.
  intros [[Hm1 Hm2] [Hr1 Hr2]] Ha Hb Hab. unfold gain. rewrite !Z.min_l by lia.
  set (M := max_mana params) in *. set (R := regen_time params) in *.
  pose proof (Z.div_mod (M * a) R). pose proof (Z.mod_pos_bound (M * a) R Hr1).
  pose proof (Z.div_mod (M * b) R). pose proof (Z.mod_pos_bound (M * b) R Hr1).
  rewrite Z.mul_add_distr_l. split.
  - apply Z.div_le_lower_bound; [lia|]. nia.
  - assert ((M * a + M * b) / R < M * a / R + M * b / R + 2); [|lia].
    apply Z.div_lt_upper_bound; [lia|]. nia.
Qed.

Lemma regenerate_spec params now m :
  wf_params params → wf_bar m → last_update_time m <= now < 2 ^ 32 →
  regenerate_mana false params now m =
  Ok (Manabar (Z.min (max_mana params) (current_mana m + gain params (now - last_update_time m))) now).
Proof.
  intros Hp [Hc Hl] Hnow. pose proof Hp as [Hm Hr].
  pose proof (gain_bounds params (now - last_update_time m) Hp ltac:(lia)) as Hg.
  unfold regenerate_mana, params_validate.
  rewrite (proj2 (Z.leb_le 0 _)), (proj2 (Z.leb_le (last_update_time m) _)) by lia.
  cbn [fc_assert mbind res_bind].
  replace (u32 (now - last_update_time m)) with (now - last_update_time m) by mlia.
  destruct (Z.leb_spec (max_mana params) (current_mana m)) as [Hge|Hlt].
  { unfold mret, res_ret. do 2 f_equal. lia. }
  set (dt := if regen_time params <? _ then _ else _).
  assert (dt = Z.min (now - last_update_time m) (regen_time params)) as Edt.
  { subst dt. destruct (Z.ltb_spec (regen_time params) (now - last_update_time m)); lia. }
  clearbody dt. replace (u64 (max_mana params)) with (max_mana params) by mlia.
  destruct (of_u64_spec (max_mana params)) as [W1 E1]; [mlia|].
  destruct (of_u64_spec dt) as [W2 E2]; [mlia|].
  destruct (of_u64_spec (regen_time params)) as [W3 E3]; [mlia|].
  destruct (mul_assign_exact _ _ W1 W2) as (p & -> & Wp & Ep); [rewrite E1, E2; int_unfold; nia|].
  cbn [mbind res_bind].
  destruct (div_assign_spec p _ Wp W3) as (q & -> & Wq & Eq); [lia|]. cbn [mbind res_bind].
  assert (to_Z q = gain params (now - last_update_time m)) as Eg.
  { rewrite Eq, Ep, E1, E2, E3, Edt. done. }
  rewrite to_uint64_spec by (done || lia). cbn [mbind res_bind].
  rewrite Eg, (proj2 (Z.leb_le _ int64_max)) by lia. cbn [fc_assert mbind res_bind].
  rewrite i64_small by mlia. rewrite signed_sat_add_spec by (done || mlia).
  unfold mret, res_ret, clamp64. do 2 f_equal.
  destruct (Z.ltb_spec (max_mana params) (Z.max int64_min (Z.min int64_max (current_mana m + gain params (now - last_update_time m)))));
    int_unfold; lia.
Qed.

Lemma use_mana_spec used min m :
  in_s 64 (current_mana m) → in_s 64 used →
  use_mana used min m = Manabar (Z.max min (clamp64 (current_mana m - used))) (last_update_time m).
Proof.
  intros Hc Hu. unfold use_mana. rewrite signed_sat_sub_spec by done. f_equal.
  destruct (Z.ltb_spec (clamp64 (current_mana m - used)) min); lia.
Qed.

(** ** Theorems *)

(** for valid parameters a regeneration does not throw and sets the bar to
    the current mana plus the linear gain, capped at the maximum: it never
    exceeds [max_mana], never loses mana below the maximum, and a bar that is
    not negative is full after [regen_time] seconds. *)
Theorem regenerate_mana_linear params now m :
  wf_params params → wf_bar m → last_update_time m <= now < 2 ^ 32 →
  let c := Z.min (max_mana params) (current_mana m + gain params (now - last_update_time m)) in
  regenerate_mana false params now m = Ok (Manabar c now)
  ∧ c <= max_mana params
  ∧ (current_mana m <= max_mana params → current_mana m <= c)
  ∧ (0 <= current_mana m → regen_time params <= now - last_update_time m → c = max_mana params).
Proof.
  intros Hp Hb Hnow c. split; [by apply regenerate_spec|].
  pose proof (gain_bounds params (now - last_update_time m) Hp ltac:(lia)).
  split; [subst c; lia|]. split; [subst c; lia|].
  intros Hpos Hfull. subst c. rewrite gain_full by (done || lia). lia.
Qed.

Lemma regenerate_mana_linear_witness :
  regenerate_mana false (ManabarParams 1000 100) 150 (Manabar 7 100) = Ok (Manabar 507 150).
Proof.
  destruct (regenerate_mana_linear (ManabarParams 1000 100) 150 (Manabar 7 100)) as [H _];
    [unfold wf_params; simpl; lia|split; simpl; int_unfold; lia|simpl; lia|].
  rewrite H. vm_compute. reflexivity.
Defined.

(** Updating often does not pay.  Regenerating at [t1] and again at [t2]
    leaves at most as much mana as regenerating once at [t2], and at most the
    one unit lost to rounding less. *)
Theorem regenerate_mana_composes params t1 t2 m m1 m2 m' :
  wf_params params → wf_bar m → 0 <= current_mana m →
  last_update_time m <= t1 <= t2 → t2 < 2 ^ 32 →
  regenerate_mana false params t1 m = Ok m1 →
  regenerate_mana false params t2 m1 = Ok m2 →
  regenerate_mana false params t2 m = Ok m' →
  current_mana m2 <= current_mana m' <= current_mana m2 + 1.
Proof.
  intros Hp Hb Hpos Ht Ht2 H1 H2 H'. pose proof Hb as [Hc Hl].
  rewrite regenerate_spec in H1 by (done || lia). injection H1 as <-.
  rewrite regenerate_spec in H' by (done || lia). injection H' as <-.
  pose proof (gain_bounds params (t1 - last_update_time m) Hp ltac:(lia)) as G1.
  rewrite regenerate_spec in H2.
  2: done.
  2: { destruct Hp. split; simpl; int_unfold; lia. }
  2: { simpl. lia. }
  injection H2 as <-. simpl.
  pose proof (gain_bounds params (t2 - t1) Hp ltac:(lia)) as G2.
  destruct (Z.le_gt_cases (t2 - last_update_time m) (regen_time params)) as [Hle|Hgt].
  - pose proof (gain_split params (t1 - last_update_time m) (t2 - t1) Hp ltac:(lia) ltac:(lia) ltac:(lia)) as G.
    replace (t1 - last_update_time m + (t2 - t1)) with (t2 - last_update_time m) in G by lia. lia.
  - rewrite (gain_full params (t2 - last_update_time m)) by (done || lia).
    destruct (Z.le_gt_cases (regen_time params) (t1 - last_update_time m)).
    { rewrite (gain_full params (t1 - last_update_time m)) by (done || lia). lia. }
    pose proof (gain_split params (t1 - last_update_time m) (regen_time params - (t1 - last_update_time m))
                  Hp ltac:(lia) ltac:(lia) ltac:(lia)) as G.
    replace (t1 - last_update_time m + (regen_time params - (t1 - last_update_time m)))
      with (regen_time params) in G by lia.
    rewrite (gain_full params (regen_time params)) in G by (done || lia).
    pose proof (gain_mono params (regen_time params - (t1 - last_update_time m)) (t2 - t1) Hp ltac:(lia)).
    lia.
Qed.

Lemma regenerate_mana_composes_witness :
  regenerate_mana false (ManabarParams 10 3) 2 (Manabar 3 1) = Ok (Manabar 6 2)
  ∧ regenerate_mana false (ManabarParams 10 3) 2 (Manabar 0 0) = Ok (Manabar 6 2)
  ∧ 6 <= 6 <= 6 + 1.
Proof.
  split; [vm_compute; reflexivity|]. split; [vm_compute; reflexivity|].
  apply (regenerate_mana_composes (ManabarParams 10 3) 1 2 (Manabar 0 0) (Manabar 3 1) (Manabar 6 2) (Manabar 6 2));
    [unfold wf_params; simpl; lia|split; simpl; int_unfold; lia|simpl; lia..| | | ];
    vm_compute; reflexivity.
Defined.

(** A vote's mana is charged exactly.  When [has_mana] allows an amount,
    [use_mana] subtracts exactly it and leaves the bar non-negative; without
    the check the bar stops at the minimum. *)
Theorem use_mana_exact needed m :
  wf_bar m → 0 <= current_mana m → in_s 64 needed → 0 <= needed →
  (has_mana needed m = true →
     current_mana (use_mana needed 0 m) = current_mana m - needed ∧ 0 <= current_mana (use_mana needed 0 m))
  ∧ (has_mana needed m = false → current_mana (use_mana needed 0 m) = 0).
Proof.
  intros [Hc _] Hpos Hn Hn0. rewrite use_mana_spec by done. unfold has_mana, clamp64; simpl.
  rewrite orb_true_iff, orb_false_iff, !Z.leb_le, !Z.leb_gt. int_unfold. split; [|lia].
  intros [?|?]; lia.
Qed.

Lemma use_mana_exact_witness : current_mana (use_mana 30 0 (Manabar 100 5)) = 70.
Proof.
  destruct (use_mana_exact 30 (Manabar 100 5)) as [H _];
    [split; simpl; int_unfold; lia|simpl; lia|int_unfold; lia|lia|].
  apply H. reflexivity.
Defined.

(** An account whose share counters describe its shares. *)
Definition wf_mana_account (a : mana_account) : Prop :=
  wf_bar (voting_manabar a) ∧ wf_bar (downvote_manabar a)
  ∧ 0 <= get_effective_vesting_shares a < 2 ^ 63.

Lemma downvote_pool E pct :
  0 <= E < 2 ^ 63 → 0 <= pct <= freezone_100_PERCENT →
  ∃ p q, mul_assign (uint128_of_i64 E) (uint128_of_i64 pct) = Ok p
    ∧ div_assign p (uint128_of_i64 freezone_100_PERCENT) = Ok q
    ∧ to_int64 q = Ok (E * pct / freezone_100_PERCENT)
    ∧ 0 <= E * pct / freezone_100_PERCENT <= E.
Proof.
  unfold freezone_100_PERCENT. intros HE Hp.
  assert (∀ x, 0 <= x < 2 ^ 63 → wf (uint128_of_i64 x) ∧ to_Z (uint128_of_i64 x) = x) as Hi.
  { intros x Hx. destruct (of_i64_spec x) as [W ->]; [mlia|]. split; [done|].
    apply u128_small. mlia. }
  destruct (Hi E HE) as [W1 E1]. destruct (Hi pct ltac:(lia)) as [W2 E2].
  destruct (Hi 10000 ltac:(lia)) as [W3 E3].
  destruct (mul_assign_exact _ _ W1 W2) as (p & Hp' & Wp & Ep); [rewrite E1, E2; int_unfold; nia|].
  destruct (div_assign_spec p _ Wp W3) as (q & Hq & Wq & Eq); [lia|].
  assert (0 <= E * pct / 10000 <= E).
  { split; [apply Z.div_pos; nia|]. apply Z.div_le_upper_bound; nia. }
  exists p, q. split_and!; try done; try lia.
  rewrite to_int64_spec by (done || (rewrite Eq, Ep, E1, E2, E3; lia)).
  by rewrite Eq, Ep, E1, E2, E3.
Qed.

(** Updating an account's bars succeeds for an account with non-negative
    effective shares.  The vote bar becomes the regenerated mana plus the new
    mana, never negative, and the downvote bar the same on the configured
    fraction of the shares; no other member changes. *)
Theorem update_manabar_spec t pct a secs new_mana :
  wf_mana_account a → 0 <= pct <= freezone_100_PERCENT → 0 < secs < 2 ^ 31 →
  last_update_time (voting_manabar a) <= t < 2 ^ 32 → last_update_time (downvote_manabar a) <= t →
  - 2 ^ 48 <= new_mana <= 2 ^ 48 →
  let E := get_effective_vesting_shares a in
  let D := E * pct / freezone_100_PERCENT in
  let refill M bar := Z.min M (current_mana bar + gain (ManabarParams M secs) (t - last_update_time bar)) in
  update_manabar t pct a secs true new_mana =
  Ok (set_manabars a
        (Manabar (Z.max 0 (clamp64 (refill E (voting_manabar a) + new_mana))) t)
        (Manabar (Z.max 0 (clamp64 (refill D (downvote_manabar a)
                                    - Z.quot (- new_mana * pct) freezone_100_PERCENT))) t)).
Proof.
  intros (Hv & Hd & HE) Hpct Hsecs Htv Htd Hnew E D refill. unfold update_manabar.
  fold E. change (get_effective_vesting_shares a) with E in HE.
  replace (u32 secs) with secs by mlia.
  destruct (downvote_pool E pct HE Hpct) as (p & q & H1 & H2 & H3 & HD). fold D in H3, HD.
  assert (wf_params (ManabarParams E secs)) as WE by (split; simpl; lia).
  assert (wf_params (ManabarParams D secs)) as WD by (split; simpl; lia).
  rewrite regenerate_spec by done. cbn [mbind res_bind]. simpl max_mana. fold (refill E (voting_manabar a)).
  rewrite H1. cbn [mbind res_bind]. rewrite H2. cbn [mbind res_bind]. rewrite H3. cbn [mbind res_bind].
  rewrite regenerate_spec by (done || lia). cbn [mbind res_bind]. simpl max_mana. fold (refill D (downvote_manabar a)).
  assert (in_s 64 (refill E (voting_manabar a))) as RE.
  { destruct Hv as [Hv _]. pose proof (gain_bounds _ (t - last_update_time (voting_manabar a)) WE ltac:(lia)).
    simpl in *. unfold refill. int_unfold. lia. }
  assert (in_s 64 (refill D (downvote_manabar a))) as RD.
  { destruct Hd as [Hd _]. pose proof (gain_bounds _ (t - last_update_time (downvote_manabar a)) WD ltac:(lia)).
    simpl in *. unfold refill. int_unfold. lia. }
  clearbody refill. unfold freezone_100_PERCENT in *.
  rewrite (i64_small (- new_mana)) by (int_unfold; lia).
  assert (in_s 64 (- new_mana * pct)) as Hmul by (int_unfold; nia).
  rewrite (i64_small (- new_mana * pct)) by done.
  assert (in_s 64 (Z.quot (- new_mana * pct) 10000)) as Hq.
  { pose proof (Z.quot_rem' (- new_mana * pct) 10000). pose proof (Z.rem_bound_abs (- new_mana * pct) 10000 ltac:(lia)).
    int_unfold. lia. }
  rewrite !use_mana_spec by (done || (int_unfold; lia)). simpl.
  unfold mret, res_ret. do 4 f_equal. f_equal. lia.
Qed.

Lemma update_manabar_spec_witness :
  update_manabar 50 2500 (ManaAccount 1000 0 0 time_point_sec_maximum 0 0 0 (Manabar 10 0) (Manabar 0 0)) 100 true 7
  = Ok (set_manabars (ManaAccount 1000 0 0 time_point_sec_maximum 0 0 0 (Manabar 10 0) (Manabar 0 0))
          (Manabar 517 50) (Manabar 126 50)).
Proof.
  rewrite (update_manabar_spec 50 2500
    (ManaAccount 1000 0 0 time_point_sec_maximum 0 0 0 (Manabar 10 0) (Manabar 0 0)) 100 7);
    [vm_compute; reflexivity| |unfold freezone_100_PERCENT; lia|lia|simpl; lia..].
  split; [split; simpl; int_unfold; lia|]. split; [split; simpl; int_unfold; lia|vm_compute; split; [intros [=]|reflexivity]].
Defined.
