(* ===== verification/ResourceDynamics.v ===== *)
(** * Resource dynamics: the pools behind resource credits

    chain/util/rd.cpp with rd_dynamics.hpp and rd_setup.hpp: a pool receives a
    budget every time unit and decays by a fraction of its size.
    [rd_setup_dynamics_params] computes the equilibrium size from parameters
    the witnesses vote on and re-checks it with two assertions;
    [rd_apply] is the step. *)

From S2P Require Import Prelude Config Uint128 SafeInt.
#[local] Open Scope Z_scope.

Record rd_decay_params : Type := RdDecayParams {
  decay_per_time_unit : Z;              (* uint32_t *)
  decay_per_time_unit_denom_shift : Z   (* uint8_t *)
}.

Record rd_dynamics_params : Type := RdDynamicsParams {
  resource_unit : Z;         (* uint64_t *)
  budget_per_time_unit : Z;  (* int32_t *)
  pool_eq : Z;               (* uint64_t *)
  max_pool_size : Z;         (* uint64_t *)
  decay_params : rd_decay_params;
  min_decay : Z              (* int64_t *)
}.

Record rd_user_params : Type := RdUserParams {
  user_budget : Z;   (* budget_per_time_unit, int32_t *)
  user_decay : Z     (* decay_per_time_unit, uint32_t *)
}.

Record rd_system_params : Type := RdSystemParams {
  system_resource_unit : Z;
  system_denom_shift : Z
}.

Definition rd_validate_user_params (user_params : rd_user_params) : res unit :=
  _ ← fc_assert (freezone_RD_MIN_BUDGET <=? user_budget user_params);
  _ ← fc_assert (user_budget user_params <=? freezone_RD_MAX_BUDGET);
  _ ← fc_assert (freezone_RD_MIN_DECAY <=? user_decay user_params);
  fc_assert (user_decay user_params <=? freezone_RD_MAX_DECAY).

(** The function calls itself once on the negated pool; the negation of the
    least 64-bit integer overflows, which the fuel makes visible. *)
Fixpoint rd_compute_pool_decay_fuel (fuel : nat) (dp : rd_decay_params) (current_pool dt : Z) : res Z :=
  match fuel with
  | O => Throw fuel_exhausted
  | S fuel =>
      if current_pool <? 0 then
        d ← rd_compute_pool_decay_fuel fuel dp (i64 (- current_pool)) dt;
        mret (i64 (- d))
      else
        let decay_amount := uint128_of_u64 (u64 (u64 (decay_per_time_unit dp) * u64 dt)) in
        decay_amount ← mul_assign decay_amount (uint128_of_u64 (u64 current_pool));
        decay_amount ← shr_assign decay_amount (uint128_of_u64 (decay_per_time_unit_denom_shift dp));
        result ← to_uint64 decay_amount;
        mret (if u64 current_pool <? result then current_pool else i64 result)
  end.
Definition rd_compute_pool_decay : rd_decay_params → Z → Z → res Z := rd_compute_pool_decay_fuel 2.

Definition rd_apply (rd : rd_dynamics_params) (pool : Z) : res Z :=
  decay ← rd_compute_pool_decay (decay_params rd) pool 1;
  let budget := budget_per_time_unit rd in
  let max_pool_size := i64 (max_pool_size rd) in
  let decay := Z.max decay (min_decay rd) in
  let new_pool := i64 (i64 (pool + budget) - decay) in
  let new_pool := Z.min new_pool max_pool_size in
  mret (Z.max new_pool 0).

(** The lambda [check_pool_eq]: is decay >= budget at the given pool level. *)
Definition check_pool_eq (dparams : rd_dynamics_params) (pool : Z) : res bool :=
  decay ← rd_compute_pool_decay (decay_params dparams) (i64 pool) 1;
  mret (budget_per_time_unit dparams <=? decay).

(** [dparams_out] is passed by reference: the members the function does not
    assign keep their value. *)
Definition rd_setup_dynamics_params (user_params : rd_user_params) (system_params : rd_system_params)
    (dparams_out : rd_dynamics_params) : res rd_dynamics_params :=
  let dp := RdDecayParams (user_decay user_params) (u8 (system_denom_shift system_params)) in
  _ ← fc_assert (system_denom_shift system_params =? freezone_RD_DECAY_DENOM_SHIFT);
  let temp := uint128_of_i64 (user_budget user_params) in
  temp ← shl_assign temp (uint128_of_u64 (system_denom_shift system_params));
  let temp := add_assign temp (uint128_of_u64 (u32 (user_decay user_params - 1))) in
  temp ← div_assign temp (uint128_of_u64 (user_decay user_params));
  eq ← to_uint64 temp;
  let dparams := RdDynamicsParams (system_resource_unit system_params) (user_budget user_params) eq eq dp
                   (min_decay dparams_out) in
  c ← check_pool_eq dparams (pool_eq dparams);
  _ ← fc_assert c;
  c ← check_pool_eq dparams (u64 (pool_eq dparams - 1));
  _ ← fc_assert (negb c);
  mret dparams.

(** ** The decay as a fraction *)

Lemma decay_dt1 dp pool :
  in_u 32 (decay_per_time_unit dp) → decay_per_time_unit_denom_shift dp = 36 → 0 <= pool < 2 ^ 63 →
  rd_compute_pool_decay dp pool 1 = Ok (decay_per_time_unit dp * pool / 2 ^ 36)
  ∧ 0 <= decay_per_time_unit dp * pool / 2 ^ 36 <= pool.
Proof.
  intros Hd Hs Hp.
  assert (0 <= decay_per_time_unit dp * pool / 2 ^ 36 <= pool) as Hb.
  { split; [apply Z.div_pos; [int_unfold; nia|lia]|]. apply Z.div_le_upper_bound; [lia|]. int_unfold. nia. }
  split; [|done]. unfold rd_compute_pool_decay; cbn [rd_compute_pool_decay_fuel].
  rewrite (proj2 (Z.ltb_ge pool 0)) by lia. rewrite Hs.
  replace (u64 (u64 (decay_per_time_unit dp) * u64 1)) with (decay_per_time_unit dp) by mlia.
  replace (u64 pool) with pool by mlia.
  destruct (of_u64_spec (decay_per_time_unit dp)) as [W1 E1]; [mlia|].
  destruct (of_u64_spec pool) as [W2 E2]; [mlia|].
  destruct (of_u64_spec 36) as [W3 E3]; [mlia|].
  destruct (mul_assign_exact _ _ W1 W2) as (p & -> & Wp & Ep); [rewrite E1, E2; int_unfold; nia|].
  cbn [mbind res_bind].
  destruct (shr_assign_spec p _ Wp W3) as (q & -> & Wq & Eq). cbn [mbind res_bind].
  rewrite E3, Ep, E1, E2 in Eq.
  rewrite to_uint64_spec by (done || lia). cbn [mbind res_bind]. rewrite Eq.
  rewrite (proj2 (Z.ltb_ge _ _)) by lia. rewrite i64_small by mlia. done.
Qed.

(** A parameter set whose numbers are in range. *)
Definition valid_user (u : rd_user_params) : Prop :=
  in_u 32 (user_decay u) ∧ rd_validate_user_params u = Ok tt.

(** Bounds that are enough for the arithmetic; the parameters of one witness,
    which are scaled, exceed those of the validation. *)
Definition usable_user (u : rd_user_params) : Prop :=
  1 <= user_budget u < 2 ^ 30 ∧ 64 <= user_decay u < 2 ^ 32.

Lemma valid_user_budget u : valid_user u → 1 <= user_budget u < 2 ^ 28 ∧ 64 <= user_decay u < 2 ^ 32.
Proof.
  intros [Hd H]. unfold rd_validate_user_params in H. res_inv. bools.
  assert (freezone_RD_MAX_BUDGET = 2 ^ 28 - 1) as EB by done.
  assert (freezone_RD_MIN_DECAY = 64) as ED by done.
  unfold freezone_RD_MIN_BUDGET, in_u in *. lia.
Qed.

Lemma valid_user_bounds u : valid_user u → usable_user u.
Proof. intros [? ?]%valid_user_budget. unfold usable_user. lia. Qed.

(** The equilibrium: ceil( budget * 2^36 / decay ). *)
Definition equilibrium (u : rd_user_params) : Z :=
  (user_budget u * 2 ^ 36 + (user_decay u - 1)) / user_decay u.

Lemma equilibrium_spec u :
  usable_user u →
  user_budget u * 2 ^ 36 <= user_decay u * equilibrium u
  ∧ user_decay u * (equilibrium u - 1) < user_budget u * 2 ^ 36
  ∧ 1 <= equilibrium u < 2 ^ 61.
Proof.
  intros [Hb Hd]. unfold equilibrium.
  set (b := user_budget u) in *. set (d := user_decay u) in *.
  pose proof (Z.div_mod (b * 2 ^ 36 + (d - 1)) d ltac:(lia)) as Hdm.
  pose proof (Z.mod_pos_bound (b * 2 ^ 36 + (d - 1)) d ltac:(lia)) as Hm.
  set (x := (b * 2 ^ 36 + (d - 1)) / d) in *.
  split; [lia|]. split; [nia|]. split; [nia|]. nia.
Qed.

Definition out_params (u : rd_user_params) (sp : rd_system_params) (o : rd_dynamics_params) : rd_dynamics_params :=
  RdDynamicsParams (system_resource_unit sp) (user_budget u) (equilibrium u) (equilibrium u)
    (RdDecayParams (user_decay u) 36) (min_decay o).

Lemma check_pool_eq_spec u sp o pool :
  usable_user u → 0 <= pool < 2 ^ 63 →
  check_pool_eq (out_params u sp o) pool = Ok (user_budget u <=? user_decay u * pool / 2 ^ 36).
Proof.
  intros Hv Hp. unfold check_pool_eq. rewrite i64_small by mlia.
  destruct Hv as [Hb Hd].
  change (decay_params (out_params u sp o)) with (RdDecayParams (user_decay u) 36).
  destruct (decay_dt1 (RdDecayParams (user_decay u) 36) pool) as [-> _]; [simpl; mlia|done..].
Qed.

Lemma rd_setup_usable u sp o :
  usable_user u → system_denom_shift sp = freezone_RD_DECAY_DENOM_SHIFT →
  rd_setup_dynamics_params u sp o = Ok (out_params u sp o)
  ∧ ∀ x, 0 <= x → (user_budget u <= user_decay u * x / 2 ^ 36 ↔ equilibrium u <= x).
Proof.
  intros Hv Hs. pose proof Hv as [Hb Hd].
  destruct (equilibrium_spec u Hv) as (Hge & Hlt & Hx).
  assert (∀ x, 0 <= x → (user_budget u <= user_decay u * x / 2 ^ 36 ↔ equilibrium u <= x)) as Hiff.
  { intros x Hx0. split.
    - intros H. assert (user_budget u * 2 ^ 36 <= user_decay u * x).
      { pose proof (Z.mul_div_le (user_decay u * x) (2 ^ 36) ltac:(lia)). nia. }
      destruct (Z.le_gt_cases (equilibrium u) x); [done|]. nia.
    - intros H. apply Z.div_le_lower_bound; [lia|]. nia. }
  split; [|done]. unfold rd_setup_dynamics_params. rewrite Hs.
  change (freezone_RD_DECAY_DENOM_SHIFT =? freezone_RD_DECAY_DENOM_SHIFT) with true.
  change (u8 freezone_RD_DECAY_DENOM_SHIFT) with 36. cbn [fc_assert mbind res_bind].
  replace (u32 (user_decay u - 1)) with (user_decay u - 1) by mlia.
  destruct (of_i64_spec (user_budget u)) as [W1 E1]; [mlia|].
  rewrite u128_small in E1 by mlia.
  destruct (of_u64_spec freezone_RD_DECAY_DENOM_SHIFT) as [W2 E2]; [by vm_compute|].
  destruct (of_u64_spec (user_decay u - 1)) as [W3 E3]; [mlia|].
  destruct (of_u64_spec (user_decay u)) as [W4 E4]; [mlia|].
  destruct (shl_assign_spec _ _ W1 W2) as (p & -> & Wp & Ep). cbn [mbind res_bind].
  rewrite E1, E2, u128_small in Ep by (unfold freezone_RD_DECAY_DENOM_SHIFT; int_unfold; lia).
  destruct (add_assign_spec p _ Wp W3) as [Wa Ea].
  rewrite Ep, E3, u128_small in Ea by (unfold freezone_RD_DECAY_DENOM_SHIFT; int_unfold; lia).
  destruct (div_assign_spec _ _ Wa W4) as (q & -> & Wq & Eq); [lia|]. cbn [mbind res_bind].
  rewrite Ea, E4 in Eq. change (to_Z q = equilibrium u) in Eq.
  rewrite to_uint64_spec by (done || lia). cbn [mbind res_bind]. rewrite Eq.
  fold (out_params u sp o). change (pool_eq (out_params u sp o)) with (equilibrium u).
  rewrite (check_pool_eq_spec u sp o (equilibrium u)) by (done || lia). cbn [mbind res_bind].
  rewrite (proj2 (Z.leb_le _ _)) by (apply Hiff; lia). cbn [fc_assert mbind res_bind].
  replace (u64 (equilibrium u - 1)) with (equilibrium u - 1) by mlia.
  rewrite (check_pool_eq_spec u sp o (equilibrium u - 1)) by (done || lia). cbn [mbind res_bind].
  rewrite (proj2 (Z.leb_gt _ _)); [done|].
  apply Z.lt_nge. intros H. pose proof (proj1 (Hiff (equilibrium u - 1) ltac:(lia)) H). lia.
Qed.

(** The assertions in [rd_setup_dynamics_params] never trigger: for every
    parameter set that passes validation, with the one supported denominator
    shift, the function returns and sets the pool size to the smallest one at
    which the decay reaches the budget. *)
Theorem rd_setup_never_asserts u sp o :
  valid_user u → system_denom_shift sp = freezone_RD_DECAY_DENOM_SHIFT →
  rd_setup_dynamics_params u sp o = Ok (out_params u sp o)
  ∧ ∀ x, 0 <= x → (user_budget u <= user_decay u * x / 2 ^ 36 ↔ equilibrium u <= x).
Proof. intros Hv%valid_user_bounds. by apply rd_setup_usable. Qed.

Lemma rd_setup_never_asserts_witness :
  rd_setup_dynamics_params (RdUserParams 1000 347321) (RdSystemParams 1 36)
    (RdDynamicsParams 0 0 0 0 (RdDecayParams 0 0) 0)
  = Ok (RdDynamicsParams 1 1000 197855807 197855807 (RdDecayParams 347321 36) 0).
Proof.
  destruct (rd_setup_never_asserts (RdUserParams 1000 347321) (RdSystemParams 1 36)
    (RdDynamicsParams 0 0 0 0 (RdDecayParams 0 0) 0)) as [H _];
    [split; [simpl; int_unfold; lia|reflexivity]|reflexivity|].
  rewrite H. vm_compute. reflexivity.
Defined.

(** ** Convergence *)

Lemma rd_apply_spec u sp o pool :
  valid_user u → min_decay o < user_budget u → 0 <= pool <= equilibrium u →
  let d := Z.max (user_decay u * pool / 2 ^ 36) (min_decay o) in
  rd_apply (out_params u sp o) pool = Ok (Z.min (pool + user_budget u - d) (equilibrium u))
  ∧ (pool < equilibrium u → pool < Z.min (pool + user_budget u - d) (equilibrium u))
  ∧ (pool = equilibrium u → Z.min (pool + user_budget u - d) (equilibrium u) = pool).
Proof.
  intros Hv Hmin Hp d. pose proof (valid_user_bounds u Hv) as [Hb Hd].
  destruct (equilibrium_spec u (valid_user_bounds u Hv)) as (Hge & Hlt & Hx).
  assert (user_decay u * pool / 2 ^ 36 <= user_budget u) as Hle.
  { apply Z.lt_succ_r, Z.div_lt_upper_bound; [lia|]. nia. }
  assert (0 <= user_decay u * pool / 2 ^ 36 <= pool) as Hd0.
  { split; [apply Z.div_pos; nia|]. apply Z.div_le_upper_bound; [lia|]. nia. }
  assert (pool < equilibrium u → user_decay u * pool / 2 ^ 36 < user_budget u) as Hstrict.
  { intros Hlt'. apply Z.div_lt_upper_bound; [lia|]. nia. }
  assert (pool = equilibrium u → user_decay u * pool / 2 ^ 36 = user_budget u) as Heq.
  { intros ->. apply Z.le_antisymm; [done|]. apply Z.div_le_lower_bound; lia. }
  split_and!; [|intros Hl; specialize (Hstrict Hl)|intros He; specialize (Heq He)].
  - unfold rd_apply. change (decay_params (out_params u sp o)) with (RdDecayParams (user_decay u) 36).
    destruct (decay_dt1 (RdDecayParams (user_decay u) 36) pool) as [-> _]; [simpl; mlia|done|lia|].
    cbn [mbind res_bind]. simpl. fold d.
    rewrite (i64_small (equilibrium u)), (i64_small (pool + user_budget u)) by (int_unfold; lia).
    destruct (Z.le_gt_cases (- 2 ^ 62) (min_decay o)).
    + rewrite i64_small by (subst d; int_unfold; lia). unfold mret, res_ret. f_equal. subst d; lia.
    + rewrite i64_small by (subst d; int_unfold; lia). unfold mret, res_ret. f_equal. subst d; lia.
  - subst d. lia.
  - subst d. lia.
Qed.

(** [n] time units. *)
Fixpoint rd_run (n : nat) (rd : rd_dynamics_params) (pool : Z) : res Z :=
  match n with
  | O => mret pool
  | S n => pool ← rd_apply rd pool; rd_run n rd pool
  end.

Lemma rd_run_converges u sp o n pool :
  valid_user u → min_decay o < user_budget u →
  0 <= pool <= equilibrium u → equilibrium u - pool <= Z.of_nat n →
  rd_run n (out_params u sp o) pool = Ok (equilibrium u).
Proof.
  intros Hv Hmin. revert pool. induction n as [|n IH]; intros pool Hp Hn; cbn [rd_run].
  { unfold mret, res_ret. f_equal. lia. }
  destruct (rd_apply_spec u sp o pool Hv Hmin Hp) as (-> & Hlt & Heq). cbn [mbind res_bind].
  apply IH; destruct (Z.eq_dec pool (equilibrium u)); lia.
Qed.

(** A pool below its equilibrium grows strictly every time unit, never
    overshoots, stays at the equilibrium once there, and reaches it: from every
    starting size the dynamics set up from valid parameters end at the
    equilibrium and remain in [0, max_pool_size] without throwing. *)
Theorem rd_pool_converges u sp o rd pool :
  valid_user u → system_denom_shift sp = freezone_RD_DECAY_DENOM_SHIFT → min_decay o < user_budget u →
  rd = out_params u sp o → 0 <= pool <= max_pool_size rd →
  (∃ p, rd_apply rd pool = Ok p ∧ 0 <= p <= max_pool_size rd ∧ (pool < pool_eq rd → pool < p))
  ∧ ∃ n, ∀ k, (n <= k)%nat → rd_run k rd pool = Ok (pool_eq rd).
Proof.
  intros Hv Hs Hmin -> Hp. simpl in *. split.
  - destruct (rd_apply_spec u sp o pool Hv Hmin Hp) as (-> & Hlt & Heq).
    eexists. split; [done|]. destruct (Z.eq_dec pool (equilibrium u)); lia.
  - exists (Z.to_nat (equilibrium u - pool)). intros k Hk. apply rd_run_converges; [done..|lia].
Qed.

Lemma rd_pool_converges_witness :
  ∃ n, ∀ k, (n <= k)%nat →
    rd_run k (out_params (RdUserParams 1000 347321) (RdSystemParams 1 36)
                (RdDynamicsParams 0 0 0 0 (RdDecayParams 0 0) 0)) 5 = Ok 197855807.
Proof.
  destruct (rd_pool_converges (RdUserParams 1000 347321) (RdSystemParams 1 36)
    (RdDynamicsParams 0 0 0 0 (RdDecayParams 0 0) 0)
    (out_params (RdUserParams 1000 347321) (RdSystemParams 1 36)
       (RdDynamicsParams 0 0 0 0 (RdDecayParams 0 0) 0)) 5) as [_ H];
    [split; [simpl; int_unfold; lia|reflexivity]|reflexivity|simpl; lia|reflexivity| |exact H].
  split; [lia|vm_compute; intros [=]].
Defined.
