(* ===== verification/Reward.v ===== *)
(** * Reward curves

    chain/util/reward.cpp and uint256.hpp: the approximate square root, the six
    reward curves on 128-bit shares, and the payout of one claim from a reward
    fund in 256-bit arithmetic. *)

From S2P Require Import Prelude Config Uint128 SafeInt.
#[local] Open Scope Z_scope.

Inductive curve_id : Set :=
  quadratic | bounded | linear | square_root | convergent_linear | convergent_square_root.

#[global] Instance curve_id_eq_dec : EqDecision curve_id.
Proof. solve_decision. Defined.

(** [boost::multiprecision::detail::find_msb] on a 64-bit word: documented to
    return the index of the most significant set bit. *)
Class FindMsb64 (find_msb64 : Z → Z) : Prop :=
  find_msb64_spec : ∀ x, 0 < x < 2 ^ 64 → 0 <= find_msb64 x ∧ 2 ^ find_msb64 x <= x < 2 ^ (find_msb64 x + 1).

Section Reward.

Context (find_msb64 : Z → Z).

Definition find_msb (u : uint128) : Z :=
  let x := if negb (lo u =? 0) then lo u else 1 in
  let places := if negb (hi u =? 0) then 64 else 0 in
  let x := if negb (hi u =? 0) then hi u else x in
  u8 (find_msb64 x + places).

Definition approx_sqrt (x : uint128) : res Z :=
  if (lo x =? 0) && (hi x =? 0) then mret 0
  else
    let msb_x := find_msb x in
    let msb_z := Z.shiftr msb_x 1 in
    msb_x_bit ← shl_assign (uint128_of_u64 1) (uint128_of_u64 msb_x);
    let msb_z_bit := u64 (Z.shiftl 1 msb_z) in
    let mantissa_mask := sub_assign msb_x_bit (uint128_of_i64 1) in
    let mantissa_x := and_assign x mantissa_mask in
    let mantissa_z_hi := if negb (Z.land msb_x 1 =? 0) then msb_z_bit else 0 in
    t ← shr_assign mantissa_x (uint128_of_i64 (msb_x - msb_z));
    let mantissa_z_lo := lo t in
    let mantissa_z := Z.shiftr (Z.lor mantissa_z_hi mantissa_z_lo) 1 in
    mret (Z.lor msb_z_bit mantissa_z).

Definition evaluate_reward_curve (rshares : uint128) (curve : curve_id) (var1 : uint128) : res uint128 :=
  match curve with
  | quadratic =>
      let content_constant := var1 in
      let rshares_plus_s := add_assign rshares content_constant in
      a ← mul_assign rshares_plus_s rshares_plus_s;
      b ← mul_assign content_constant content_constant;
      mret (sub_assign a b)
  | bounded =>
      two_alpha ← mul_assign var1 (uint128_of_i64 2);
      div_assign (U128 (lo rshares) 0) (add_assign two_alpha rshares)
  | linear => mret rshares
  | square_root => z ← approx_sqrt rshares; mret (uint128_of_u64 z)
  | convergent_linear =>
      let s := var1 in
      let r_s := add_assign rshares s in
      a ← mul_assign r_s r_s;
      b ← mul_assign s s;
      four_s ← mul_assign (uint128_of_i64 4) s;
      div_assign (sub_assign a b) (add_assign rshares four_s)
  | convergent_square_root =>
      let s := var1 in
      two_s ← mul_assign (uint128_of_i64 2) s;
      z ← approx_sqrt (add_assign rshares two_s);
      div_assign rshares (uint128_of_u64 z)
  end.

Record comment_reward_context : Type := RewardContext {
  rshares : Z;            (* share_type *)
  reward_weight : Z;      (* uint16_t *)
  total_claims : uint128;
  reward_fund : Z;        (* share_type *)
  reward_curve : curve_id;
  content_constant : uint128
}.

(** [u256] is the 256-bit unsigned integer of the big-integer library: its
    arithmetic is modulo 2^256. *)
Definition u256 : Z → Z := wrapu 256.
Definition to256 (t : uint128) : Z := u256 (u256 (Z.shiftl (hi t) 64) + lo t).

Definition get_rshare_reward (ctx : comment_reward_context) : res Z :=
  _ ← fc_assert (0 <? rshares ctx);
  _ ← fc_assert (ltb (uint128_of_i64 0) (total_claims ctx));
  let rf := u256 (reward_fund ctx) in
  let total_claims := to256 (total_claims ctx) in
  c ← evaluate_reward_curve (uint128_of_i64 (rshares ctx)) (reward_curve ctx) (content_constant ctx);
  let claim := to256 c in
  let claim := u256 (claim * reward_weight ctx) / freezone_100_PERCENT in
  let payout_u256 := u256 (rf * claim) / total_claims in
  _ ← fc_assert (payout_u256 <=? int64_max);
  mret (u64 payout_u256).

(** ** The square root *)

Context `{Hmsb : !FindMsb64 find_msb64}.

Lemma find_msb_spec x :
  wf x → 0 < to_Z x →
  0 <= find_msb x < 128 ∧ 2 ^ find_msb x <= to_Z x < 2 ^ (find_msb x + 1).
Proof.
  intros [Hh Hl] Hx. unfold find_msb, to_Z in *.
  assert (∀ w, 0 < w < 2 ^ 64 → 0 <= find_msb64 w < 64 ∧ 2 ^ find_msb64 w <= w < 2 ^ (find_msb64 w + 1)) as H.
  { intros w Hw. destruct (find_msb64_spec w Hw) as [H0 H1]. split; [|done]. split; [done|].
    apply (Z.pow_lt_mono_r_iff 2); lia. }
  destruct (Z.eqb_spec (hi x) 0) as [E|E]; cbn [negb].
  - rewrite E in *. replace (0 * 2 ^ 64 + lo x) with (lo x) in * by lia.
    rewrite (proj2 (Z.eqb_neq _ _)) by lia. cbn [negb].
    destruct (H (lo x)) as [H0 H1]; [int_unfold; lia|].
    rewrite Z.add_0_r. replace (u8 (find_msb64 (lo x))) with (find_msb64 (lo x)) by mlia. lia.
  - destruct (H (hi x)) as [H0 H1]; [int_unfold; lia|].
    replace (u8 (find_msb64 (hi x) + 64)) with (find_msb64 (hi x) + 64) by mlia.
    replace (find_msb64 (hi x) + 64 + 1) with (find_msb64 (hi x) + 1 + 64) by lia.
    rewrite !(Z.pow_add_r 2 _ 64) by lia. int_unfold. split; [lia|]. nia.
Qed.

(** What the bit manipulation computes. *)
Definition sqrt_value (m X : Z) : Z :=
  let k := m / 2 in
  2 ^ k + ((if Z.odd m then 2 ^ k else 0) + (X - 2 ^ m) / 2 ^ (m - k)) / 2.

Lemma mantissa_bound m X :
  0 <= m → 2 ^ m <= X < 2 ^ (m + 1) → 0 <= (X - 2 ^ m) / 2 ^ (m - m / 2) < 2 ^ (m / 2).
Proof.
  intros Hm HX. assert (0 <= m / 2 <= m) by (Z.div_mod_to_equations; lia).
  rewrite Z.pow_add_r in HX by lia.
  split; [apply Z.div_pos; [lia|apply Z.pow_pos_nonneg; lia]|].
  apply Z.div_lt_upper_bound; [apply Z.pow_pos_nonneg; lia|].
  rewrite <- Z.pow_add_r by lia. replace (m - m / 2 + m / 2) with m by lia. lia.
Qed.

Lemma approx_sqrt_value x :
  wf x → 0 < to_Z x → approx_sqrt x = Ok (sqrt_value (find_msb x) (to_Z x)).
Proof.
  intros W Hx. destruct (find_msb_spec x W Hx) as [Hm HX]. unfold approx_sqrt.
  assert ((lo x =? 0) && (hi x =? 0) = false) as ->.
  { apply not_true_iff_false. intros H. bools. unfold to_Z in Hx. lia. }
  set (m := find_msb x) in *. rewrite Z.shiftr_div_pow2 by lia. change (2 ^ 1) with 2.
  set (k := m / 2). assert (0 <= k < 64 ∧ k <= m) as [Hk Hkm] by (subst k; Z.div_mod_to_equations; lia).
  pose proof (mantissa_bound m (to_Z x) ltac:(lia) HX) as Hlo. fold k in Hlo.
  assert (2 ^ k < 2 ^ 64) as Hk64 by (apply Z.pow_lt_mono_r; lia).
  assert (0 < 2 ^ k) as Hkpos by (apply Z.pow_pos_nonneg; lia).
  assert (0 < 2 ^ m < 2 ^ 128) as Hm128 by (split; [apply Z.pow_pos_nonneg; lia|apply Z.pow_lt_mono_r; lia]).
  destruct (of_u64_spec 1) as [W1 E1]; [mlia|]. destruct (of_u64_spec m) as [Wm Em]; [mlia|].
  destruct (shl_assign_spec _ _ W1 Wm) as (b & -> & Wb & Eb). cbn [mbind res_bind].
  rewrite E1, Em, Z.mul_1_l, u128_small in Eb by (int_unfold; lia).
  destruct (of_i64_spec 1) as [W1' E1']; [mlia|].
  destruct (sub_assign_spec b _ Wb W1') as [Wmask Emask].
  rewrite Eb, E1' in Emask. change (u128 1) with 1 in Emask.
  rewrite u128_small in Emask by (int_unfold; lia).
  destruct (and_assign_spec x _ W Wmask) as [Wmx Emx]. rewrite Emask in Emx.
  replace (2 ^ m - 1) with (Z.ones m) in Emx by (rewrite Z.ones_equiv; lia).
  rewrite Z.land_ones in Emx by lia.
  replace (to_Z x mod 2 ^ m) with (to_Z x - 2 ^ m) in Emx.
  2: { rewrite Z.pow_add_r in HX by lia. change (2 ^ 1) with 2 in HX. apply (Z.mod_unique_pos _ _ 1); lia. }
  destruct (of_i64_spec (m - k)) as [Wd Ed]; [mlia|]. rewrite u128_small in Ed by (int_unfold; lia).
  destruct (shr_assign_spec _ _ Wmx Wd) as (t & -> & Wt & Et). cbn [mbind res_bind].
  rewrite Emx, Ed in Et.
  assert (lo t = (to_Z x - 2 ^ m) / 2 ^ (m - k)) as ->.
  { assert (to_Z t < 2 ^ 64) as Hlt by lia. rewrite <- Et. clear - Wt Hlt.
    destruct Wt as [Ht1 Ht2]. unfold to_Z in *. int_unfold. lia. }
  set (l := (to_Z x - 2 ^ m) / 2 ^ (m - k)) in *.
  rewrite Z.shiftl_1_l. replace (u64 (2 ^ k)) with (2 ^ k) by (symmetry; apply wrapu_small; int_unfold; lia).
  unfold sqrt_value. fold k l. unfold mret, res_ret. f_equal.
  assert (negb (Z.land m 1 =? 0) = Z.odd m) as ->.
  { change 1 with (Z.ones 1). rewrite Z.land_ones, Zmod_odd by lia. by destruct (Z.odd m). }
  set (h := if Z.odd m then 2 ^ k else 0).
  assert (h mod 2 ^ k = 0 ∧ 0 <= h <= 2 ^ k) as [Hh Hhb].
  { subst h. destruct (Z.odd m); [rewrite Z.mod_same by lia|rewrite Z.mod_0_l by lia]; lia. }
  rewrite (lor_low_high h l k), Z.shiftr_div_pow2 by lia. change (2 ^ 1) with 2.
  rewrite (lor_low_high (2 ^ k) _ k); [done|lia| |apply Z.mod_same; lia].
  split; [apply Z.div_pos; lia|]. apply Z.div_lt_upper_bound; lia.
Qed.

Lemma sqrt_value_bounds m X :
  0 <= m → 2 ^ m <= X < 2 ^ (m + 1) →
  8 * (sqrt_value m X) ^ 2 <= 9 * X ∧ X < (sqrt_value m X + 1) ^ 2.
Proof.
  intros Hm HX. unfold sqrt_value. rewrite !Z.pow_2_r.
  pose proof (mantissa_bound m X Hm HX) as Hb.
  set (k := m / 2) in *. assert (0 <= k) by (subst k; Z.div_mod_to_equations; lia).
  assert (0 < 2 ^ k) as HP by (apply Z.pow_pos_nonneg; lia).
  destruct (Z.odd m) eqn:Eo.
  - assert (m = 2 * k + 1) as Em.
    { subst k. pose proof (Zmod_odd m) as Hodd. rewrite Eo in Hodd. Z.div_mod_to_equations; lia. }
    assert (2 ^ m = 2 * (2 ^ k * 2 ^ k)) as E2.
    { rewrite Em, Z.pow_add_r, Z.pow_mul_r by lia. change (2 ^ 2) with 4.
      change 4 with (2 * 2). rewrite Z.pow_mul_l. lia. }
    assert (2 ^ (m - k) = 2 * 2 ^ k) as E3.
    { replace (m - k) with (1 + k) by lia. rewrite Z.pow_add_r by lia. lia. }
    rewrite E3 in *. rewrite E2 in *. set (P := 2 ^ k) in *.
    pose proof (Z.div_mod (X - 2 * (P * P)) (2 * P) ltac:(lia)) as D1.
    pose proof (Z.mod_pos_bound (X - 2 * (P * P)) (2 * P) ltac:(lia)) as M1.
    set (l := (X - 2 * (P * P)) / (2 * P)) in *.
    assert (2 * ((P + l) / 2) <= P + l <= 2 * ((P + l) / 2) + 1) as D2 by (Z.div_mod_to_equations; lia).
    set (t := (P + l) / 2) in *. clearbody t l P. set (r := _ mod _) in *. clearbody r. split; nia.
  - assert (m = 2 * k) as Em.
    { subst k. pose proof (Zmod_odd m) as Hodd. rewrite Eo in Hodd. Z.div_mod_to_equations; lia. }
    assert (2 ^ m = 2 ^ k * 2 ^ k) as E2.
    { rewrite Em. replace (2 * k) with (k + k) by lia. by rewrite Z.pow_add_r by lia. }
    replace (m - k) with k in * by lia. rewrite Z.pow_add_r, E2 in * by lia. set (P := 2 ^ k) in *.
    rewrite Z.add_0_l.
    pose proof (Z.div_mod (X - P * P) P ltac:(lia)) as D1.
    pose proof (Z.mod_pos_bound (X - P * P) P ltac:(lia)) as M1.
    set (l := (X - P * P) / P) in *.
    assert (2 * (l / 2) <= l <= 2 * (l / 2) + 1) as D2 by (Z.div_mod_to_equations; lia).
    set (t := l / 2) in *. clearbody t l P. set (r := _ mod _) in *. clearbody r. split; nia.
Qed.

(** ** The curves *)

Lemma of_i64_nonneg x : 0 <= x < 2 ^ 63 → wf (uint128_of_i64 x) ∧ to_Z (uint128_of_i64 x) = x.
Proof.
  intros Hx. destruct (of_i64_spec x) as [W ->]; [mlia|]. split; [done|]. apply u128_small. mlia.
Qed.

Lemma of_u64_wf x : in_u 64 x → wf (uint128_of_u64 x).
Proof. apply of_u64_spec. Qed.

Lemma approx_sqrt_total x :
  wf x → ∃ z, approx_sqrt x = Ok z ∧ in_u 64 z
    ∧ 8 * z ^ 2 <= 9 * to_Z x ∧ to_Z x < (z + 1) ^ 2 ∧ (0 < to_Z x → 0 < z).
Proof.
  intros W. pose proof (to_Z_in x W) as Hin.
  destruct (Z.eq_dec (to_Z x) 0) as [E|E].
  - exists 0. assert (lo x = 0 ∧ hi x = 0) as [El Eh].
    { destruct W. unfold to_Z in E. int_unfold. lia. }
    unfold approx_sqrt. rewrite El, Eh. split_and!; try done; int_unfold; lia.
  - assert (0 < to_Z x) as Hpos by (unfold in_u in Hin; lia).
    destruct (find_msb_spec x W Hpos) as [Hm HX].
    destruct (sqrt_value_bounds (find_msb x) (to_Z x) ltac:(lia) HX) as [H1 H2].
    exists (sqrt_value (find_msb x) (to_Z x)). rewrite approx_sqrt_value by done.
    assert (1 <= sqrt_value (find_msb x) (to_Z x) < 2 ^ 64) as Hz; [|split_and!; try done; int_unfold; lia].
    pose proof (mantissa_bound (find_msb x) (to_Z x) ltac:(lia) HX) as Hb. unfold sqrt_value.
    set (m := find_msb x) in *. set (l := (to_Z x - 2 ^ m) / _) in *.
    assert (0 <= m / 2 <= 63) by (Z.div_mod_to_equations; lia).
    assert (2 ^ (m / 2) <= 2 ^ 63) by (apply Z.pow_le_mono_r; lia).
    assert (0 < 2 ^ (m / 2)) by (apply Z.pow_pos_nonneg; lia).
    set (h := if Z.odd m then 2 ^ (m / 2) else 0). assert (0 <= h <= 2 ^ (m / 2)) by (subst h; destruct (Z.odd m); lia).
    assert (0 <= (h + l) / 2 < 2 ^ (m / 2)).
    { split; [apply Z.div_pos; lia|apply Z.div_lt_upper_bound; lia]. }
    int_unfold. lia.
Qed.

(** The curves on integers, away from overflow. *)
Definition curve_value (curve : curve_id) (r s c : Z) : Prop :=
  match curve with
  | quadratic => c = r * r + 2 * r * s
  | bounded => c = r * 2 ^ 64 / (2 * s + r)
  | linear => c = r
  | square_root => 8 * c ^ 2 <= 9 * r ∧ r < (c + 1) ^ 2
  | convergent_linear => c = (r * r + 2 * r * s) / (r + 4 * s)
  | convergent_square_root => ∃ z, 8 * z ^ 2 <= 9 * (r + 2 * s) ∧ r + 2 * s < (z + 1) ^ 2 ∧ c = r / z
  end.

Lemma small_add a b : wf a → wf b → to_Z a + to_Z b < 2 ^ 128 → wf (add_assign a b) ∧ to_Z (add_assign a b) = to_Z a + to_Z b.
Proof.
  intros Wa Wb H. destruct (add_assign_spec a b Wa Wb) as [W E]. split; [done|]. rewrite E.
  apply u128_small. apply to_Z_in in Wa, Wb. unfold in_u in *. lia.
Qed.

Lemma small_sub a b : wf a → wf b → to_Z b <= to_Z a → wf (sub_assign a b) ∧ to_Z (sub_assign a b) = to_Z a - to_Z b.
Proof.
  intros Wa Wb H. destruct (sub_assign_spec a b Wa Wb) as [W E]. split; [done|]. rewrite E.
  apply u128_small. apply to_Z_in in Wa, Wb. unfold in_u in *. lia.
Qed.

(** Two facts the quadratic and the convergent curve share. *)
Lemma square_difference rr ss r s :
  wf rr → wf ss → to_Z rr = r → to_Z ss = s → 0 <= r < 2 ^ 63 → 0 <= s < 2 ^ 62 →
  ∃ a b, mul_assign (add_assign rr ss) (add_assign rr ss) = Ok a ∧ mul_assign ss ss = Ok b
    ∧ wf (sub_assign a b) ∧ to_Z (sub_assign a b) = r * r + 2 * r * s.
Proof.
  intros Wr Ws Er Es Hr Hs.
  destruct (small_add rr ss Wr Ws) as [Wa Ea]; [int_unfold; lia|]. rewrite Er, Es in Ea.
  destruct (mul_assign_exact _ _ Wa Wa) as (a & E1 & W1 & Ea1); [rewrite Ea; int_unfold; nia|].
  destruct (mul_assign_exact _ _ Ws Ws) as (b & E2 & W2 & Eb); [rewrite Es; int_unfold; nia|].
  rewrite Ea in Ea1. rewrite Es in Eb.
  destruct (small_sub a b W1 W2) as [W E]; [nia|].
  exists a, b. split_and!; try done. rewrite E, Ea1, Eb. lia.
Qed.

Lemma curve_total curve r s ss :
  0 < r < 2 ^ 63 → 0 <= s < 2 ^ 62 → wf ss → to_Z ss = s →
  ∃ c, evaluate_reward_curve (uint128_of_i64 r) curve ss = Ok c ∧ wf c ∧ curve_value curve r s (to_Z c).
Proof.
  intros Hr Hs Ws Es. destruct (of_i64_nonneg r ltac:(lia)) as [Wr Er].
  assert (∀ k, 0 <= k <= 4 → ∃ p, mul_assign (uint128_of_i64 k) ss = Ok p ∧ wf p ∧ to_Z p = k * s) as Hk.
  { intros k Hk. destruct (of_i64_nonneg k ltac:(lia)) as [Wk Ek].
    destruct (mul_assign_exact _ _ Wk Ws) as (p & ? & ? & E); [rewrite Ek, Es; int_unfold; nia|].
    exists p. rewrite E, Ek, Es. done. }
  destruct curve; cbn [evaluate_reward_curve curve_value].
  - destruct (square_difference _ _ r s Wr Ws Er Es ltac:(lia) Hs) as (a & b & -> & E2 & W & E).
    cbn [mbind res_bind]. rewrite E2. cbn [mbind res_bind]. unfold mret, res_ret. eauto.
  - destruct (of_i64_nonneg 2 ltac:(lia)) as [W2 E2].
    destruct (mul_assign_exact _ _ Ws W2) as (p & -> & Wp & Ep); [rewrite E2, Es; int_unfold; nia|].
    cbn [mbind res_bind]. rewrite E2, Es in Ep.
    destruct (small_add p _ Wp Wr) as [Wa Ea]; [int_unfold; lia|].
    assert (lo (uint128_of_i64 r) = r) as El by (simpl; mlia). rewrite El.
    assert (wf (U128 r 0)) as Wn by (split; simpl; mlia).
    assert (to_Z (U128 r 0) = r * 2 ^ 64) as En by (unfold to_Z; simpl; lia).
    destruct (div_assign_spec _ _ Wn Wa) as (q & -> & Wq & Eq); [lia|].
    exists q. split_and!; [done..|]. rewrite Eq, Ea, Ep, Er, En. f_equal. lia.
  - unfold mret, res_ret. eauto.
  - destruct (approx_sqrt_total _ Wr) as (z & -> & Hz & H1 & H2 & _). cbn [mbind res_bind].
    destruct (of_u64_spec z Hz) as [Wz Ez]. rewrite Er in *. unfold mret, res_ret.
    eexists. split; [done|]. rewrite Ez. done.
  - destruct (square_difference _ _ r s Wr Ws Er Es ltac:(lia) Hs) as (a & b & -> & E2 & W & E).
    cbn [mbind res_bind]. rewrite E2. cbn [mbind res_bind].
    destruct (Hk 4 ltac:(lia)) as (p & -> & Wp & Ep). cbn [mbind res_bind].
    destruct (small_add _ p Wr Wp) as [Wa Ea]; [int_unfold; lia|].
    destruct (div_assign_spec _ _ W Wa) as (q & -> & Wq & Eq); [lia|].
    exists q. split_and!; [done..|]. by rewrite Eq, Ea, E, Ep, Er.
  - destruct (Hk 2 ltac:(lia)) as (p & -> & Wp & Ep). cbn [mbind res_bind].
    destruct (small_add _ p Wr Wp) as [Wa Ea]; [int_unfold; lia|].
    destruct (approx_sqrt_total _ Wa) as (z & -> & Hz & H1 & H2 & H3). cbn [mbind res_bind].
    destruct (of_u64_spec z Hz) as [Wz Ez]. rewrite Ea, Er, Ep in *.
    destruct (div_assign_spec _ _ Wr Wz) as (q & -> & Wq & Eq); [lia|].
    exists q. split_and!; [done..|]. exists z. rewrite Eq, Er, Ez. done.
Qed.

(** ** Theorems *)

(** The square root used by the reward curves is accurate: it is total, at
    least the integer square root of its argument, and its square exceeds the
    argument by at most an eighth. *)
Theorem approx_sqrt_accurate x :
  wf x → ∃ z, approx_sqrt x = Ok z ∧ in_u 64 z ∧ Z.sqrt (to_Z x) <= z ∧ 8 * z ^ 2 <= 9 * to_Z x.
Proof.
  intros W. destruct (approx_sqrt_total x W) as (z & E & Hz & H1 & H2 & _).
  exists z. split_and!; try done. pose proof (to_Z_in x W) as [Hx _].
  apply Z.lt_succ_r, Z.sqrt_lt_square; [done|int_unfold; lia|]. unfold Z.succ. lia.
Qed.

(** No reward curve overflows or throws on the shares a comment can have,
    and each computes its formula; the convergent linear curve, in use for
    authors, is monotone in the shares and lies between half of them and all
    of them. *)
Theorem reward_curves_exact curve r s ss :
  0 < r < 2 ^ 63 → 0 <= s < 2 ^ 62 → wf ss → to_Z ss = s →
  ∃ c, evaluate_reward_curve (uint128_of_i64 r) curve ss = Ok c ∧ wf c ∧ curve_value curve r s (to_Z c)
    ∧ (curve = convergent_linear →
        r / 2 <= to_Z c <= r
        ∧ ∀ r' c', r <= r' < 2 ^ 63 → curve_value convergent_linear r' s c' → to_Z c <= c').
Proof.
  intros Hr Hs Ws Es. destruct (curve_total curve r s ss Hr Hs Ws Es) as (c & E & W & Hc).
  exists c. split_and!; try done. intros ->. unfold curve_value in Hc |- *. rewrite Hc. split.
  - split.
    + apply Z.div_le_lower_bound; [lia|]. pose proof (Z.mul_div_le r 2 ltac:(lia)). nia.
    + apply Z.div_le_upper_bound; [lia|]. nia.
  - intros r' c' Hr' ->. apply Z.div_le_lower_bound; [lia|].
    pose proof (Z.mul_div_le (r * r + 2 * r * s) (r + 4 * s) ltac:(lia)) as Hq.
    set (q := (r * r + 2 * r * s) / (r + 4 * s)) in *.
    assert (q <= r) by (apply Z.div_le_upper_bound; [lia|nia]).
    replace r' with (r + (r' - r)) by lia. assert (0 <= r' - r) by lia. set (d := r' - r) in *.
    pose proof (Z.mul_le_mono_nonneg_r q r d). clearbody q d. nia.
Qed.

(** The claim of one comment. *)
Definition claim_of (ctx : comment_reward_context) : Z :=
  match evaluate_reward_curve (uint128_of_i64 (rshares ctx)) (reward_curve ctx) (content_constant ctx) with
  | Ok c => to_Z c
  | Throw _ => 0
  end.

(** A context of the payout of [fund] over [total] claims. *)
Definition wf_context (fund : Z) (total : uint128) (ctx : comment_reward_context) : Prop :=
  0 < rshares ctx < 2 ^ 63 ∧ wf (content_constant ctx) ∧ to_Z (content_constant ctx) < 2 ^ 62
  ∧ 0 <= reward_weight ctx <= freezone_100_PERCENT
  ∧ reward_fund ctx = fund ∧ total_claims ctx = total.

Lemma to256_spec t : wf t → to256 t = to_Z t.
Proof.
  intros [Hh Hl]. unfold to256, to_Z, u256. rewrite Z.shiftl_mul_pow2 by lia.
  assert (2 ^ 256 = 2 ^ 128 * 2 ^ 128) as E by done.
  rewrite !wrapu_small; unfold in_u in *; rewrite ?E, ?wrapu_small; unfold in_u; rewrite ?E; int_unfold; nia.
Qed.

Lemma get_rshare_reward_spec fund total ctx :
  0 <= fund < 2 ^ 63 → wf total → 0 < to_Z total → wf_context fund total ctx → claim_of ctx <= to_Z total →
  get_rshare_reward ctx
    = Ok (fund * (claim_of ctx * reward_weight ctx / freezone_100_PERCENT) / to_Z total)
  ∧ 0 <= claim_of ctx.
Proof.
  intros Hf Wt Hpos (Hr & Ws & Hs & Hw & Ef & Et) Hle. unfold get_rshare_reward, claim_of in *.
  pose proof (to_Z_in _ Ws) as Hs0.
  destruct (curve_total (reward_curve ctx) (rshares ctx) (to_Z (content_constant ctx)) (content_constant ctx)
    Hr ltac:(unfold in_u in Hs0; lia) Ws eq_refl) as (c & E & Wc & _).
  rewrite E in *. pose proof (to_Z_in _ Wc) as Hc. pose proof (to_Z_in _ Wt) as Htot.
  destruct (of_i64_nonneg 0 ltac:(lia)) as [W0 E0].
  rewrite (proj2 (Z.ltb_lt _ _)) by lia. rewrite Et, Ef, ltb_spec, E0, (proj2 (Z.ltb_lt _ _)) by (done || lia).
  cbn [fc_assert mbind res_bind]. rewrite !to256_spec by done.
  set (C := to_Z c) in *. set (T := to_Z total) in *. clearbody C T. unfold freezone_100_PERCENT in *.
  assert (2 ^ 256 = 2 ^ 128 * 2 ^ 128) as EE by done.
  unfold u256. rewrite (wrapu_small 256 fund), (wrapu_small 256 (C * _)) by (unfold in_u in *; rewrite EE; int_unfold; nia).
  assert (0 <= C * reward_weight ctx / 10000 <= C) as Hcl.
  { split; [apply Z.div_pos; unfold in_u in *; nia|apply Z.div_le_upper_bound; unfold in_u in *; nia]. }
  set (K := C * reward_weight ctx / 10000) in *. clearbody K.
  rewrite (wrapu_small 256 (fund * K)) by (unfold in_u in *; rewrite EE; int_unfold; nia).
  assert (0 <= fund * K / T <= fund) as Hp.
  { split; [apply Z.div_pos; nia|apply Z.div_le_upper_bound; nia]. }
  rewrite (proj2 (Z.leb_le _ _)) by lia. cbn [fc_assert mbind res_bind].
  unfold mret, res_ret. split; [|unfold in_u in Hc; lia]. f_equal. apply wrapu_small. int_unfold. lia.
Qed.

(** Paying out a reward fund never overdraws it.  When the claims of the
    comments of one payout sum to at most the fund's total claims, every
    comment's reward is computed without an exception and the rewards
    together are at most the fund. *)
Theorem rewards_within_fund fund total ctxs :
  0 <= fund < 2 ^ 63 → wf total → 0 < to_Z total → Forall (wf_context fund total) ctxs →
  foldr Z.add 0 (claim_of <$> ctxs) <= to_Z total →
  ∃ ps, Forall2 (λ ctx p, get_rshare_reward ctx = Ok p ∧ 0 <= p) ctxs ps ∧ foldr Z.add 0 ps <= fund.
Proof.
  intros Hf Wt Hpos Hctx Hsum. set (T := to_Z total) in *.
  assert (Forall (λ ctx, 0 <= claim_of ctx) ctxs) as Hnn.
  { eapply Forall_impl; [|exact Hctx]. intros ctx (Hr & Ws & Hs & _). unfold claim_of.
    pose proof (to_Z_in _ Ws) as Hs0.
    destruct (curve_total (reward_curve ctx) (rshares ctx) (to_Z (content_constant ctx)) (content_constant ctx)
      Hr ltac:(unfold in_u in Hs0; lia) Ws eq_refl) as (c & -> & Wc & _).
    apply to_Z_in in Wc. unfold in_u in Wc. lia. }
  cut (∃ ps, Forall2 (λ ctx p, get_rshare_reward ctx = Ok p ∧ 0 <= p) ctxs ps
             ∧ foldr Z.add 0 ps * T <= fund * foldr Z.add 0 (claim_of <$> ctxs)).
  { intros (ps & H1 & H2). exists ps. split; [done|]. nia. }
  induction ctxs as [|ctx ctxs IH]; [exists []; simpl; split; [constructor|lia]|].
  apply Forall_cons_iff in Hctx as [Hx Hctx]. apply Forall_cons_iff in Hnn as [Hn Hnn].
  rewrite fmap_cons in *. cbn [foldr] in *.
  assert (0 <= foldr Z.add 0 (claim_of <$> ctxs)).
  { clear - Hnn. induction Hnn; csimpl; lia. }
  destruct IH as (ps & H1 & H2); [done|lia|done|].
  destruct (get_rshare_reward_spec fund total ctx Hf Wt Hpos Hx ltac:(subst T; lia)) as [E _]. fold T in E.
  destruct Hx as (_ & _ & _ & Hw & _). unfold freezone_100_PERCENT in *.
  assert (0 <= claim_of ctx * reward_weight ctx / 10000 <= claim_of ctx) as Hk.
  { split; [apply Z.div_pos; nia|apply Z.div_le_upper_bound; nia]. }
  set (K := claim_of ctx * reward_weight ctx / 10000) in *.
  exists (fund * K / T :: ps). split; [constructor; [split; [done|apply Z.div_pos; nia]|done]|].
  cbn [foldr]. pose proof (Z.mul_div_le (fund * K) T ltac:(lia)). nia.
Qed.

End Reward.

#[global] Instance log2_find_msb : FindMsb64 Z.log2.
Proof.
  intros x Hx. split; [apply Z.log2_nonneg|]. pose proof (Z.log2_spec x ltac:(lia)).
  by replace (Z.log2 x + 1) with (Z.succ (Z.log2 x)) by lia.
Defined.

Lemma approx_sqrt_accurate_witness :
  ∃ z, approx_sqrt Z.log2 (U128 0 1000000) = Ok z ∧ in_u 64 z ∧ 1000 <= z ∧ 8 * z ^ 2 <= 9 * 1000000.
Proof.
  apply (approx_sqrt_accurate Z.log2 (U128 0 1000000)). split; simpl; int_unfold; lia.
Defined.

Lemma reward_curves_exact_witness :
  ∃ c, evaluate_reward_curve Z.log2 (uint128_of_i64 5000) convergent_linear (U128 0 1000) = Ok c
    ∧ to_Z c = 3888.
Proof.
  destruct (reward_curves_exact Z.log2 convergent_linear 5000 1000 (U128 0 1000)) as (c & E & _ & Hc & _);
    [lia|lia|split; simpl; int_unfold; lia|reflexivity|].
  exists c. split; [exact E|]. rewrite Hc. reflexivity.
Defined.

Definition sample_context (r : Z) : comment_reward_context :=
  RewardContext r freezone_100_PERCENT (U128 0 1000) 777 linear (U128 0 0).

Lemma rewards_within_fund_witness :
  ∃ ps, Forall2 (λ ctx p, get_rshare_reward Z.log2 ctx = Ok p ∧ 0 <= p) [sample_context 400; sample_context 599] ps
    ∧ foldr Z.add 0 ps <= 777.
Proof.
  apply (rewards_within_fund Z.log2 777 (U128 0 1000));
    [lia|split; simpl; int_unfold; lia|vm_compute; reflexivity| |vm_compute; intros [=]].
  repeat constructor; simpl; unfold freezone_100_PERCENT; int_unfold; lia || (vm_compute; reflexivity).
Defined.
