(* ===== verification/MapSum.v ===== *)
(** * Sums over tables

    The sum of a quantity over the rows of a table, with the laws for
    inserting, replacing and removing a row.  The conservation theorems are
    stated with it. *)

From S2P Require Import Prelude.
From stdpp Require Import gmap sorting.
#[local] Open Scope Z_scope.

Section MapSum.

Context {K : Type} `{Countable K} {A : Type}.
Implicit Types (f : K → A → Z) (m : gmap K A).

Definition msum f m : Z := map_fold (λ k a acc, f k a + acc) 0 m.

Lemma msum_empty f : msum f ∅ = 0.
Proof. apply map_fold_empty. Qed.

Lemma msum_insert_new f m k a : m !! k = None → msum f (<[k := a]> m) = f k a + msum f m.
Proof. intros Hk. unfold msum. rewrite map_fold_insert_L; [done|intros; lia|done]. Qed.

(** The contribution of one row, 0 when it is absent. *)
Definition row f m k : Z := match m !! k with Some a => f k a | None => 0 end.

Lemma msum_delete f m k : msum f (delete k m) = msum f m - row f m k.
Proof.
  unfold row. destruct (m !! k) as [a|] eqn:E.
  - rewrite <- (insert_delete_id m k a) at 2 by done. rewrite msum_insert_new; [lia|]. apply lookup_delete_eq.
  - rewrite delete_id by done. lia.
Qed.

Lemma msum_insert f m k a : msum f (<[k := a]> m) = msum f m - row f m k + f k a.
Proof.
  rewrite <- insert_delete_eq, msum_insert_new by apply lookup_delete_eq. rewrite msum_delete. lia.
Qed.

Lemma msum_ext f g m : (∀ k a, m !! k = Some a → f k a = g k a) → msum f m = msum g m.
Proof.
  induction m as [|k a m Hk IH] using map_ind; intros Hfg; [by rewrite !msum_empty|].
  rewrite !msum_insert_new by done. rewrite (Hfg k a) by apply lookup_insert_eq. f_equal.
  apply IH. intros k' a' Hk'. apply Hfg. rewrite lookup_insert_ne by congruence. done.
Qed.

(** Two quantities that differ at one row only. *)
Lemma msum_change f g m k a :
  m !! k = Some a → (∀ k' b, k' ≠ k → f k' b = g k' b) → msum g m = msum f m - f k a + g k a.
Proof.
  intros Hk Hfg. rewrite <- (insert_delete_id m k a) by done.
  rewrite !msum_insert_new by apply lookup_delete_eq.
  rewrite (msum_ext f g (delete k m)); [lia|]. intros k' b. rewrite lookup_delete_Some. intros [Hne _]. by apply Hfg.
Qed.

Lemma msum_nonneg f m : (∀ k a, m !! k = Some a → 0 <= f k a) → 0 <= msum f m.
Proof.
  induction m as [|k a m Hk IH] using map_ind; intros Hf; [by rewrite msum_empty|].
  rewrite msum_insert_new by done. pose proof (Hf k a (lookup_insert_eq _ _ _)).
  assert (0 <= msum f m); [|lia]. apply IH. intros k' a' Hk'. apply Hf.
  rewrite lookup_insert_ne by congruence. done.
Qed.

(** A sum computed by a loop over the rows, in any order. *)
Lemma msum_list f m : msum f m = foldr (λ ka acc, f ka.1 ka.2 + acc) 0 (map_to_list m).
Proof. unfold msum. rewrite map_fold_foldr. apply foldr_ext; [by intros [] ?|done..]. Qed.

End MapSum.

(** A quantity that depends on a part of the rows only. *)
Lemma msum_fmap {K A B} `{Countable K} (h : A → B) (g : K → B → Z) (m : gmap K A) :
  msum g (h <$> m) = msum (λ k a, g k (h a)) m.
Proof.
  induction m as [|k a m Hk IH] using map_ind.
  - rewrite (fmap_empty h). trans 0; [apply msum_empty|symmetry; apply msum_empty].
  - rewrite fmap_insert, msum_insert_new by (by rewrite lookup_fmap, Hk). rewrite IH. by rewrite msum_insert_new.
Qed.

Lemma msum_view {K A B} `{Countable K} (h : A → B) (f : K → A → Z) (g : K → B → Z) (m m' : gmap K A) :
  (∀ k a, f k a = g k (h a)) → h <$> m' = h <$> m → msum f m' = msum f m.
Proof.
  intros Hf E. rewrite !(msum_ext f (λ k a, g k (h a))) by auto.
  by rewrite <- (msum_fmap h g m'), <- (msum_fmap h g m), E.
Qed.

#[global] Arguments msum : simpl never.

(** ** Loops over the rows of a table *)

Section Rows.

Context {K : Type} `{Countable K} {A : Type}.
Implicit Types (m : gmap K A) (l : list (K * A)).

(** [l] lists some rows of [m], each once. *)
Definition rows_of m l : Prop := NoDup l.*1 ∧ ∀ x, x ∈ l → m !! x.1 = Some x.2.

Lemma rows_all m : rows_of m (map_to_list m).
Proof. split; [apply NoDup_fst_map_to_list|]. intros [k a] Hx. by apply elem_of_map_to_list. Qed.

Lemma rows_perm m l l' : l ≡ₚ l' → rows_of m l' → rows_of m l.
Proof. intros E [Hn Hl]. split; [by rewrite E|]. intros x Hx. apply Hl. by rewrite <- E. Qed.

Lemma rows_sort m R `{!∀ x y, Decision (R x y)} l : rows_of m l → rows_of m (merge_sort R l).
Proof. apply rows_perm, merge_sort_Permutation. Qed.

Lemma rows_filter m (f : K * A → bool) l : rows_of m l → rows_of m (List.filter f l).
Proof.
  induction l as [|x l IH]; [done|]. intros [Hn Hl]. cbn [List.filter]. rewrite fmap_cons, NoDup_cons in Hn.
  destruct Hn as [Hx Hn]. destruct IH as [IHn IHl]; [split; [done|]; intros; apply Hl; by right|].
  assert (∀ k, k ∈ (List.filter f l).*1 → k ∈ l.*1) as Hsub.
  { intros k. rewrite !list_elem_of_fmap. intros (y & -> & Hy). exists y. split; [done|].
    apply list_elem_of_In, filter_In in Hy as [Hy _]. by apply list_elem_of_In. }
  destruct (f x).
  - split; [rewrite fmap_cons; constructor; [|done]; intros Hin; by apply Hx, Hsub|].
    intros y [->|Hy]%elem_of_cons; [apply Hl; by left|by apply IHl].
  - by split.
Qed.

Lemma rows_cons m x l : rows_of m (x :: l) → m !! x.1 = Some x.2 ∧ rows_of (delete x.1 m) l.
Proof.
  intros [Hn Hl]. rewrite fmap_cons, NoDup_cons in Hn. destruct Hn as [Hx Hn].
  split; [apply Hl; by left|]. split; [done|]. intros y Hy. rewrite lookup_delete_ne; [apply Hl; by right|].
  intros E. apply Hx. rewrite E. apply list_elem_of_fmap. eauto.
Qed.

End Rows.

#[export] Hint Resolve rows_all rows_sort rows_filter : freezone.
