(* ===== verification/State.v ===== *)
(** * The chain state

    The objects of chain/include/steem/chain that the ledger, the market, the
    vesting system and witness voting keep, the tables that hold them, and the
    writes of one member or one table.

    A table is a map from the key of one of its unique indices to the row; the
    row keeps the object id where an index orders by it.  An [asset] member
    whose symbol the code fixes is kept as its amount, a [share_type]. *)

From S2P Require Import Prelude Config Uint128 AssetSymbol Asset Manabar.
From stdpp Require Import gmap strings.
#[local] Open Scope Z_scope.

(** account_name_type *)
Abbreviation name := string.

Definition freezone_NULL_ACCOUNT : name := "null".
Definition freezone_TREASURY_ACCOUNT : name := "freezone.dao".
Definition freezone_PROXY_TO_SELF_ACCOUNT : name := "".

(** ** Accounts *)

(** An SBD balance with the members that accrue interest on it; an account
    has one for its balance and one for its savings. *)
Record sbd_account : Type := SbdAccount {
  sbd_balance : Z;
  sbd_seconds : uint128;
  sbd_seconds_last_update : Z;
  sbd_last_interest_payment : Z
}.

(** The members of account_object that the modelled code uses.  [stake] groups
    the members about vesting shares, which account_regular_balance_object
    also has and which several templates of the code are generic over. *)
Record account : Type := Account {
  balance : Z;
  savings_balance : Z;
  sbd : sbd_account;
  savings_sbd : sbd_account;
  savings_withdraw_requests : Z;   (* uint8_t *)
  reward_freezone_balance : Z;
  reward_sbd_balance : Z;
  reward_vesting_balance : Z;
  reward_vesting_freezone : Z;
  stake : mana_account;
  withdraw_routes : Z;             (* uint16_t *)
  proxy : name;
  proxied_vsf_votes : list Z;      (* an array of 4 *)
  witnesses_voted_for : Z;         (* uint16_t *)
  can_vote : bool
}.

Definition vesting_shares (a : account) : Z := ma_vesting_shares (stake a).

(** account_regular_balance_object, by name and liquid symbol. *)
Record regular_balance : Type := RegularBalance {
  liquid : Z;
  rb_stake : mana_account
}.

Definition rb_vesting_shares (b : regular_balance) : Z := ma_vesting_shares (rb_stake b).

(** account_rewards_balance_object, by name and liquid symbol. *)
Record rewards_balance : Type := RewardsBalance {
  pending_liquid : Z;
  pending_vesting_shares : Z;
  pending_vesting_value : Z
}.

(** ** Smart social tokens *)

Inductive SST_phase : Set :=
| setup | setup_completed | ico | ico_completed | launch_failed | launch_success.

(** SST_token_object, by liquid symbol. *)
Record sst_token : Type := SstToken {
  phase : SST_phase;
  tk_current_supply : Z;
  tk_vesting_fund : Z;              (* total_vesting_fund_SST *)
  tk_vesting_shares : Z;            (* total_vesting_shares *)
  tk_fund_ballast : Z;              (* total_vesting_fund_ballast *)
  tk_shares_ballast : Z;            (* total_vesting_shares_ballast *)
  tk_pending_shares : Z;            (* pending_rewarded_vesting_shares *)
  tk_pending_value : Z;             (* pending_rewarded_vesting_SST *)
  tk_reward_balance : Z;
  mm_freezone_balance : Z;          (* market_maker *)
  mm_token_balance : Z;
  allow_voting : bool;
  tk_regeneration_seconds : Z       (* vote_regeneration_period_seconds *)
}.

(** SST_ico_object, by symbol. *)
Record sst_ico : Type := SstIco {
  contributed : Z;
  processed_contributions : Z
}.

(** ** Orders, escrows, conversions, savings *)

Record limit_order : Type := LimitOrder {
  lo_id : Z;
  lo_created : Z;
  lo_expiration : Z;
  for_sale : Z;
  sell_price : price
}.

Record escrow : Type := Escrow {
  esc_id : Z;
  esc_to : name;
  esc_agent : name;
  ratification_deadline : Z;
  escrow_expiration : Z;
  esc_sbd_balance : Z;
  esc_freezone_balance : Z;
  pending_fee : asset;
  to_approved : bool;
  agent_approved : bool;
  disputed : bool
}.

Record convert_request : Type := ConvertRequest {
  cr_id : Z;
  cr_amount : asset;
  conversion_date : Z
}.

Record savings_withdraw : Type := SavingsWithdraw {
  sw_to : name;
  sw_amount : asset;
  sw_complete : Z
}.

Record liquidity_reward : Type := LiquidityReward {
  freezone_volume : Z;
  sbd_volume : Z;
  weight : uint128;
  lr_last_update : Z
}.

(** ** Witnesses and staking *)

(** witness_object: the votes and the members of virtual-time scheduling. *)
Record witness : Type := Witness {
  votes : Z;
  virtual_last_update : uint128;
  virtual_position : uint128;
  virtual_scheduled_time : uint128
}.

Record withdraw_route : Type := WithdrawRoute {
  percent : Z;                      (* uint16_t *)
  auto_vest : bool
}.

(** vesting_delegation_object; the amount is of the vesting symbol paired with
    the liquid symbol of the key. *)
Record delegation : Type := Delegation {
  dg_vesting_shares : Z;
  min_delegation_time : Z
}.

Record delegation_expiration : Type := DelegationExpiration {
  de_delegator : name;
  de_vesting_shares : asset;
  de_expiration : Z
}.

Record staking_tables : Type := Staking {
  witnesses : gmap name witness;
  witness_votes : gset (name * name);             (* account, witness *)
  current_virtual_time : uint128;                 (* witness_schedule_object *)
  routes : gmap (name * name) withdraw_route;     (* from_account, to_account *)
  delegations : gmap (name * name * Z) delegation;(* delegator, delegatee, liquid symbol *)
  expirations : gmap Z delegation_expiration;     (* by id *)
  account_creation_fee : Z                        (* median_props *)
}.

(** ** Global properties and the database *)

(** The members of dynamic_global_property_object that the modelled code uses. *)
Record global_properties : Type := GPO {
  head_block_number : Z;
  head_block_time : Z;
  current_supply : Z;
  current_sbd_supply : Z;
  init_sbd_supply : Z;
  virtual_supply : Z;
  total_vesting_fund_freezone : Z;
  total_vesting_shares : Z;
  total_reward_fund_freezone : Z;
  pending_rewarded_vesting_shares : Z;
  pending_rewarded_vesting_freezone : Z;
  sbd_interest_rate : Z;
  sbd_print_rate : Z;
  target_votes_per_period : Z;
  delegation_return_period : Z;
  downvote_pool_percent : Z
}.

Record db : Type := DB {
  accounts : gmap name account;
  regular_balances : gmap (name * Z) regular_balance;
  rewards_balances : gmap (name * Z) rewards_balance;
  sst_tokens : gmap Z sst_token;
  icos : gmap Z sst_ico;
  orders : gmap (name * Z) limit_order;        (* by seller and orderid *)
  escrows : gmap (name * Z) escrow;            (* by from and escrow_id *)
  converts : gmap (name * Z) convert_request;  (* by owner and requestid *)
  withdraws : gmap (name * Z) savings_withdraw;(* by from and request_id *)
  liquidity : gmap name liquidity_reward;      (* by owner *)
  reward_funds : gmap Z Z;                     (* reward_fund_object::reward_balance *)
  staking : staking_tables;
  next_id : Z;                                 (* source of object ids *)
  gpo : global_properties;
  current_median_history : price;
  processed_hardforks : Z                      (* their number *)
}.

(** ** Writes *)

Definition set_accounts (f : gmap name account → gmap name account) (d : db) : db :=
  DB (f (accounts d)) (regular_balances d) (rewards_balances d) (sst_tokens d) (icos d) (orders d) (escrows d)
    (converts d) (withdraws d) (liquidity d) (reward_funds d) (staking d) (next_id d) (gpo d)
    (current_median_history d) (processed_hardforks d).
Definition set_regular_balances f (d : db) : db :=
  DB (accounts d) (f (regular_balances d)) (rewards_balances d) (sst_tokens d) (icos d) (orders d) (escrows d)
    (converts d) (withdraws d) (liquidity d) (reward_funds d) (staking d) (next_id d) (gpo d)
    (current_median_history d) (processed_hardforks d).
Definition set_rewards_balances f (d : db) : db :=
  DB (accounts d) (regular_balances d) (f (rewards_balances d)) (sst_tokens d) (icos d) (orders d) (escrows d)
    (converts d) (withdraws d) (liquidity d) (reward_funds d) (staking d) (next_id d) (gpo d)
    (current_median_history d) (processed_hardforks d).
Definition set_sst_tokens f (d : db) : db :=
  DB (accounts d) (regular_balances d) (rewards_balances d) (f (sst_tokens d)) (icos d) (orders d) (escrows d)
    (converts d) (withdraws d) (liquidity d) (reward_funds d) (staking d) (next_id d) (gpo d)
    (current_median_history d) (processed_hardforks d).
Definition set_orders f (d : db) : db :=
  DB (accounts d) (regular_balances d) (rewards_balances d) (sst_tokens d) (icos d) (f (orders d)) (escrows d)
    (converts d) (withdraws d) (liquidity d) (reward_funds d) (staking d) (next_id d) (gpo d)
    (current_median_history d) (processed_hardforks d).
Definition set_escrows f (d : db) : db :=
  DB (accounts d) (regular_balances d) (rewards_balances d) (sst_tokens d) (icos d) (orders d) (f (escrows d))
    (converts d) (withdraws d) (liquidity d) (reward_funds d) (staking d) (next_id d) (gpo d)
    (current_median_history d) (processed_hardforks d).
Definition set_converts f (d : db) : db :=
  DB (accounts d) (regular_balances d) (rewards_balances d) (sst_tokens d) (icos d) (orders d) (escrows d)
    (f (converts d)) (withdraws d) (liquidity d) (reward_funds d) (staking d) (next_id d) (gpo d)
    (current_median_history d) (processed_hardforks d).
Definition set_withdraws f (d : db) : db :=
  DB (accounts d) (regular_balances d) (rewards_balances d) (sst_tokens d) (icos d) (orders d) (escrows d)
    (converts d) (f (withdraws d)) (liquidity d) (reward_funds d) (staking d) (next_id d) (gpo d)
    (current_median_history d) (processed_hardforks d).
Definition set_liquidity f (d : db) : db :=
  DB (accounts d) (regular_balances d) (rewards_balances d) (sst_tokens d) (icos d) (orders d) (escrows d)
    (converts d) (withdraws d) (f (liquidity d)) (reward_funds d) (staking d) (next_id d) (gpo d)
    (current_median_history d) (processed_hardforks d).
Definition set_staking f (d : db) : db :=
  DB (accounts d) (regular_balances d) (rewards_balances d) (sst_tokens d) (icos d) (orders d) (escrows d)
    (converts d) (withdraws d) (liquidity d) (reward_funds d) (f (staking d)) (next_id d) (gpo d)
    (current_median_history d) (processed_hardforks d).
Definition set_next_id (n : Z) (d : db) : db :=
  DB (accounts d) (regular_balances d) (rewards_balances d) (sst_tokens d) (icos d) (orders d) (escrows d)
    (converts d) (withdraws d) (liquidity d) (reward_funds d) (staking d) n (gpo d) (current_median_history d)
    (processed_hardforks d).
Definition set_gpo (g : global_properties) (d : db) : db :=
  DB (accounts d) (regular_balances d) (rewards_balances d) (sst_tokens d) (icos d) (orders d) (escrows d)
    (converts d) (withdraws d) (liquidity d) (reward_funds d) (staking d) (next_id d) g (current_median_history d)
    (processed_hardforks d).

Definition set_witnesses f (d : db) : db := set_staking (λ t,
  Staking (f (witnesses t)) (witness_votes t) (current_virtual_time t) (routes t) (delegations t) (expirations t)
    (account_creation_fee t)) d.
Definition set_witness_votes f (d : db) : db := set_staking (λ t,
  Staking (witnesses t) (f (witness_votes t)) (current_virtual_time t) (routes t) (delegations t) (expirations t)
    (account_creation_fee t)) d.
Definition set_routes f (d : db) : db := set_staking (λ t,
  Staking (witnesses t) (witness_votes t) (current_virtual_time t) (f (routes t)) (delegations t) (expirations t)
    (account_creation_fee t)) d.
Definition set_delegations f (d : db) : db := set_staking (λ t,
  Staking (witnesses t) (witness_votes t) (current_virtual_time t) (routes t) (f (delegations t)) (expirations t)
    (account_creation_fee t)) d.
Definition set_expirations f (d : db) : db := set_staking (λ t,
  Staking (witnesses t) (witness_votes t) (current_virtual_time t) (routes t) (delegations t) (f (expirations t))
    (account_creation_fee t)) d.

Definition set_supplies (s sbd v fund : Z) (g : global_properties) : global_properties :=
  GPO (head_block_number g) (head_block_time g) s sbd (init_sbd_supply g) v fund (total_vesting_shares g)
    (total_reward_fund_freezone g) (pending_rewarded_vesting_shares g) (pending_rewarded_vesting_freezone g)
    (sbd_interest_rate g) (sbd_print_rate g) (target_votes_per_period g) (delegation_return_period g)
    (downvote_pool_percent g).
Definition set_vesting (fund shares pending_shares pending_freezone : Z) (g : global_properties) : global_properties :=
  GPO (head_block_number g) (head_block_time g) (current_supply g) (current_sbd_supply g) (init_sbd_supply g)
    (virtual_supply g) fund shares (total_reward_fund_freezone g) pending_shares pending_freezone
    (sbd_interest_rate g) (sbd_print_rate g) (target_votes_per_period g) (delegation_return_period g)
    (downvote_pool_percent g).

Definition set_balance (v : Z) (a : account) : account :=
  Account v (savings_balance a) (sbd a) (savings_sbd a) (savings_withdraw_requests a) (reward_freezone_balance a)
    (reward_sbd_balance a) (reward_vesting_balance a) (reward_vesting_freezone a) (stake a) (withdraw_routes a)
    (proxy a) (proxied_vsf_votes a) (witnesses_voted_for a) (can_vote a).
Definition set_savings_balance (v : Z) (a : account) : account :=
  Account (balance a) v (sbd a) (savings_sbd a) (savings_withdraw_requests a) (reward_freezone_balance a)
    (reward_sbd_balance a) (reward_vesting_balance a) (reward_vesting_freezone a) (stake a) (withdraw_routes a)
    (proxy a) (proxied_vsf_votes a) (witnesses_voted_for a) (can_vote a).
Definition set_sbd (s : sbd_account) (a : account) : account :=
  Account (balance a) (savings_balance a) s (savings_sbd a) (savings_withdraw_requests a) (reward_freezone_balance a)
    (reward_sbd_balance a) (reward_vesting_balance a) (reward_vesting_freezone a) (stake a) (withdraw_routes a)
    (proxy a) (proxied_vsf_votes a) (witnesses_voted_for a) (can_vote a).
Definition set_savings_sbd (s : sbd_account) (a : account) : account :=
  Account (balance a) (savings_balance a) (sbd a) s (savings_withdraw_requests a) (reward_freezone_balance a)
    (reward_sbd_balance a) (reward_vesting_balance a) (reward_vesting_freezone a) (stake a) (withdraw_routes a)
    (proxy a) (proxied_vsf_votes a) (witnesses_voted_for a) (can_vote a).
Definition set_withdraw_requests (n : Z) (a : account) : account :=
  Account (balance a) (savings_balance a) (sbd a) (savings_sbd a) n (reward_freezone_balance a) (reward_sbd_balance a)
    (reward_vesting_balance a) (reward_vesting_freezone a) (stake a) (withdraw_routes a) (proxy a)
    (proxied_vsf_votes a) (witnesses_voted_for a) (can_vote a).
Definition set_rewards (rf rs rv rvf : Z) (a : account) : account :=
  Account (balance a) (savings_balance a) (sbd a) (savings_sbd a) (savings_withdraw_requests a) rf rs rv rvf (stake a)
    (withdraw_routes a) (proxy a) (proxied_vsf_votes a) (witnesses_voted_for a) (can_vote a).
Definition set_stake (s : mana_account) (a : account) : account :=
  Account (balance a) (savings_balance a) (sbd a) (savings_sbd a) (savings_withdraw_requests a)
    (reward_freezone_balance a) (reward_sbd_balance a) (reward_vesting_balance a) (reward_vesting_freezone a) s
    (withdraw_routes a) (proxy a) (proxied_vsf_votes a) (witnesses_voted_for a) (can_vote a).
Definition set_withdraw_routes (n : Z) (a : account) : account :=
  Account (balance a) (savings_balance a) (sbd a) (savings_sbd a) (savings_withdraw_requests a)
    (reward_freezone_balance a) (reward_sbd_balance a) (reward_vesting_balance a) (reward_vesting_freezone a)
    (stake a) n (proxy a) (proxied_vsf_votes a) (witnesses_voted_for a) (can_vote a).
Definition set_proxy (p : name) (a : account) : account :=
  Account (balance a) (savings_balance a) (sbd a) (savings_sbd a) (savings_withdraw_requests a)
    (reward_freezone_balance a) (reward_sbd_balance a) (reward_vesting_balance a) (reward_vesting_freezone a)
    (stake a) (withdraw_routes a) p (proxied_vsf_votes a) (witnesses_voted_for a) (can_vote a).
Definition set_proxied (l : list Z) (a : account) : account :=
  Account (balance a) (savings_balance a) (sbd a) (savings_sbd a) (savings_withdraw_requests a)
    (reward_freezone_balance a) (reward_sbd_balance a) (reward_vesting_balance a) (reward_vesting_freezone a)
    (stake a) (withdraw_routes a) (proxy a) l (witnesses_voted_for a) (can_vote a).
Definition set_voted_for (n : Z) (a : account) : account :=
  Account (balance a) (savings_balance a) (sbd a) (savings_sbd a) (savings_withdraw_requests a)
    (reward_freezone_balance a) (reward_sbd_balance a) (reward_vesting_balance a) (reward_vesting_freezone a)
    (stake a) (withdraw_routes a) (proxy a) (proxied_vsf_votes a) n (can_vote a).

Definition set_ma_vesting (v : Z) (m : mana_account) : mana_account :=
  ManaAccount v (ma_received_vesting_shares m) (ma_delegated_vesting_shares m) (ma_next_vesting_withdrawal m)
    (ma_vesting_withdraw_rate m) (ma_to_withdraw m) (ma_withdrawn m) (voting_manabar m) (downvote_manabar m).
Definition set_vesting_shares (v : Z) (a : account) : account := set_stake (set_ma_vesting v (stake a)) a.
Definition set_rb_vesting_shares (v : Z) (b : regular_balance) : regular_balance :=
  RegularBalance (liquid b) (set_ma_vesting v (rb_stake b)).

Definition set_tk_current_supply (v : Z) (t : sst_token) : sst_token :=
  SstToken (phase t) v (tk_vesting_fund t) (tk_vesting_shares t) (tk_fund_ballast t) (tk_shares_ballast t)
    (tk_pending_shares t) (tk_pending_value t) (tk_reward_balance t) (mm_freezone_balance t) (mm_token_balance t)
    (allow_voting t) (tk_regeneration_seconds t).
Definition set_tk_vesting (fund shares pending_shares pending_value : Z) (t : sst_token) : sst_token :=
  SstToken (phase t) (tk_current_supply t) fund shares (tk_fund_ballast t) (tk_shares_ballast t)
    pending_shares pending_value (tk_reward_balance t) (mm_freezone_balance t) (mm_token_balance t)
    (allow_voting t) (tk_regeneration_seconds t).

(** ** Lookups *)

Definition has_hardfork (hardfork : Z) (d : db) : bool := hardfork <? processed_hardforks d.
Definition now (d : db) : Z := head_block_time (gpo d).

Definition get_account (n : name) (d : db) : res account := from_option_exn out_of_range (accounts d !! n).

Definition put_account (n : name) (a : account) : db → db := set_accounts <[n := a]>.
