(* ===== verification/Ledger.v ===== *)
(** * The ledger: balances and supplies

    The functions every operation moves money with (chain/database.cpp):
    [adjust_balance], [modify_balance], [adjust_savings_balance],
    [adjust_reward_balance], [adjust_supply], [create_sbd] and the balances of
    smart social tokens.  [gap] is the difference between what the tables hold
    of a symbol and what was issued of it; every primitive changes it by
    exactly the amount it is asked to move. *)

From S2P Require Import Prelude Config Uint128 SafeInt AssetSymbol Asset Manabar MapSum State.
From stdpp Require Import gmap strings.
#[local] Open Scope Z_scope.

(** The key of a smart social token balance. *)
Definition liquid_symbol (s : Z) : Z := if is_vesting s then get_paired_symbol s else s.

Definition get_SST_balance (n : name) (s : Z) (d : db) : asset :=
  match regular_balances d !! (n, liquid_symbol s) with
  | None => Asset 0 s
  | Some bo => Asset (if is_vesting s then rb_vesting_shares bo else liquid bo) s
  end.

Definition get_balance (n : name) (s : Z) (d : db) : res asset :=
  match space s with
  | SST_nai_space => mret (get_SST_balance n s d)
  | legacy_space =>
      a ← get_account n d;
      if s =? freezone_SYMBOL then mret (Asset (balance a) s)
      else if s =? SBD_SYMBOL then mret (Asset (sbd_balance (sbd a)) s)
      else Throw assert_exception
  end.

Definition get_savings_balance (a : account) (s : Z) : res asset :=
  if s =? freezone_SYMBOL then mret (Asset (savings_balance a) s)
  else if s =? SBD_SYMBOL then mret (Asset (sbd_balance (savings_sbd a)) s)
  else Throw assert_exception.

(** ** Supply *)

Definition adjust_supply (delta : asset) (adjust_vesting : bool) (d : db) : res db :=
  match space (symbol delta) with
  | SST_nai_space =>
      SST ← from_option_exn out_of_range (sst_tokens d !! symbol delta);
      SST_new_supply ← safe_add (tk_current_supply SST) (amount delta);
      _ ← fc_assert (0 <=? SST_new_supply);
      mret (set_sst_tokens <[symbol delta := set_tk_current_supply SST_new_supply SST]> d)
  | legacy_space =>
      let check_supply := has_hardfork freezone_HARDFORK_0_20 d in
      let g := gpo d in
      let adjust_vesting := adjust_vesting && negb (head_block_number g <? freezone_BLOCKS_PER_DAY * 7) in
      if symbol delta =? freezone_SYMBOL then
        new_vesting ← (if adjust_vesting && (0 <? amount delta) then safe_mul (amount delta) 9 else mret 0);
        dv ← safe_add (amount delta) new_vesting;
        s ← safe_add (current_supply g) dv;
        v ← safe_add (virtual_supply g) dv;
        fund ← safe_add (total_vesting_fund_freezone g) new_vesting;
        _ ← (if check_supply then fc_assert (0 <=? s) else mret tt);
        mret (set_gpo (set_supplies s (current_sbd_supply g) v fund g) d)
      else if symbol delta =? SBD_SYMBOL then
        sb ← safe_add (current_sbd_supply g) (amount delta);
        x ← asset_mul_price (Asset sb SBD_SYMBOL) (current_median_history d);
        v ← asset_add x (Asset (current_supply g) freezone_SYMBOL);
        _ ← (if check_supply then fc_assert (0 <=? sb) else mret tt);
        mret (set_gpo (set_supplies (current_supply g) sb (amount v) (total_vesting_fund_freezone g) g) d)
      else Throw assert_exception
  end.

(** ** Balances of the legacy symbols *)

(** The interest clause of [modify_balance] and [adjust_savings_balance]: adds
    the SBD-seconds since the last update and, at most once a month, pays
    interest on them, issuing it. *)
Definition accrue_interest (s : sbd_account) (d : db) : res (sbd_account * db) :=
  if sbd_seconds_last_update s =? now d then mret (s, d)
  else
    t ← mul_assign (uint128_of_i64 (sbd_balance s)) (uint128_of_i64 (now d - sbd_seconds_last_update s));
    let secs := add_assign (sbd_seconds s) t in
    let upd := now d in
    if ltb (uint128_of_i64 0) secs
       && (freezone_SBD_INTEREST_COMPOUND_INTERVAL_SEC <? upd - sbd_last_interest_payment s) then
      interest ← div_assign secs (uint128_of_u64 freezone_SECONDS_PER_YEAR);
      interest ← mul_assign interest (uint128_of_u64 (sbd_interest_rate (gpo d)));
      interest ← div_assign interest (uint128_of_i64 freezone_100_PERCENT);
      i ← to_uint64 interest;
      let interest_paid := Asset (i64 i) SBD_SYMBOL in
      bal ← safe_add (sbd_balance s) (amount interest_paid);
      let g := gpo d in
      sb ← safe_add (current_sbd_supply g) (amount interest_paid);
      x ← asset_mul_price interest_paid (current_median_history d);
      v ← asset_add (Asset (virtual_supply g) freezone_SYMBOL) x;
      mret (SbdAccount bal (U128 0 0) upd (now d),
            set_gpo (set_supplies (current_supply g) sb (amount v) (total_vesting_fund_freezone g) g) d)
    else mret (SbdAccount (sbd_balance s) secs upd (sbd_last_interest_payment s), d).

(** Adds [delta] to an SBD balance after the interest clause. *)
Definition modify_sbd (delta : Z) (check_balance : bool) (s : sbd_account) (d : db) : res (sbd_account * db) :=
  '(s, d) ← accrue_interest s d;
  bal ← safe_add (sbd_balance s) delta;
  _ ← (if check_balance then fc_assert (0 <=? bal) else mret tt);
  mret (SbdAccount bal (sbd_seconds s) (sbd_seconds_last_update s) (sbd_last_interest_payment s), d).

Definition modify_balance (n : name) (delta : asset) (check_balance : bool) (d : db) : res db :=
  a ← get_account n d;
  if symbol delta =? freezone_SYMBOL then
    b ← safe_add (balance a) (amount delta);
    _ ← (if check_balance then fc_assert (0 <=? b) else mret tt);
    mret (put_account n (set_balance b a) d)
  else if symbol delta =? SBD_SYMBOL then
    '(s, d) ← modify_sbd (amount delta) check_balance (sbd a) d;
    mret (put_account n (set_sbd s a) d)
  else if symbol delta =? VESTS_SYMBOL then
    v ← safe_add (vesting_shares a) (amount delta);
    _ ← (if check_balance then fc_assert (0 <=? v) else mret tt);
    mret (put_account n (set_vesting_shares v a) d)
  else Throw assert_exception.

Definition adjust_savings_balance (n : name) (delta : asset) (d : db) : res db :=
  let check_balance := has_hardfork freezone_HARDFORK_0_20 d in
  a ← get_account n d;
  if symbol delta =? freezone_SYMBOL then
    b ← safe_add (savings_balance a) (amount delta);
    _ ← (if check_balance then fc_assert (0 <=? b) else mret tt);
    mret (put_account n (set_savings_balance b a) d)
  else if symbol delta =? SBD_SYMBOL then
    '(s, d) ← modify_sbd (amount delta) check_balance (savings_sbd a) d;
    mret (put_account n (set_savings_sbd s a) d)
  else Throw assert_exception.

(** Rewards: liquid, or the value of newly vested shares together with them. *)
Definition modify_reward_balance (n : name) (value_delta share_delta : asset) (check_balance : bool) (d : db) : res db :=
  a ← get_account n d;
  if symbol value_delta =? freezone_SYMBOL then
    if amount share_delta =? 0 then
      rf ← safe_add (reward_freezone_balance a) (amount value_delta);
      _ ← (if check_balance then fc_assert (0 <=? rf) else mret tt);
      mret (put_account n (set_rewards rf (reward_sbd_balance a) (reward_vesting_balance a) (reward_vesting_freezone a) a) d)
    else
      rvf ← safe_add (reward_vesting_freezone a) (amount value_delta);
      _ ← fc_assert (symbol share_delta =? VESTS_SYMBOL);
      rv ← safe_add (reward_vesting_balance a) (amount share_delta);
      _ ← (if check_balance then fc_assert (0 <=? rv) else mret tt);
      mret (put_account n (set_rewards (reward_freezone_balance a) (reward_sbd_balance a) rv rvf a) d)
  else if symbol value_delta =? SBD_SYMBOL then
    _ ← fc_assert (amount share_delta =? 0);
    rs ← safe_add (reward_sbd_balance a) (amount value_delta);
    _ ← (if check_balance then fc_assert (0 <=? rs) else mret tt);
    mret (put_account n (set_rewards (reward_freezone_balance a) rs (reward_vesting_balance a) (reward_vesting_freezone a) a) d)
  else Throw assert_exception.

(** ** Balances of smart social tokens *)

(** What the template [adjust_SST_balance] needs of its balance operator: the
    row [initialize_assets] makes, [add_to_balance], and the balance
    [get_combined_balance] checks. *)
Record balance_operator (B : Type) : Type := BalanceOperator {
  initial_balance : B;
  add_to_balance : B → res B;
  get_combined_balance : B → res Z
}.
#[global] Arguments BalanceOperator {_}.
#[global] Arguments initial_balance {_}.
#[global] Arguments add_to_balance {_}.
#[global] Arguments get_combined_balance {_}.

Definition initial_stake : mana_account := ManaAccount 0 0 0 time_point_sec_maximum 0 0 0 (Manabar 0 0) (Manabar 0 0).

Definition SST_regular_balance_operator (delta : asset) : balance_operator regular_balance :=
  BalanceOperator (RegularBalance 0 initial_stake)
    (λ SST_balance,
       if is_vesting (symbol delta) then
         v ← safe_add (rb_vesting_shares SST_balance) (amount delta);
         mret (set_rb_vesting_shares v SST_balance)
       else
         l ← safe_add (liquid SST_balance) (amount delta);
         mret (RegularBalance l (rb_stake SST_balance)))
    (λ bo, safe_add (if is_vesting (symbol delta) then rb_vesting_shares bo else liquid bo) (amount delta)).

(** The members the deltas are added to have the liquid symbol and its pair;
    adding an asset of another symbol throws. *)
Definition SST_reward_balance_operator (value_delta share_delta : asset) : balance_operator rewards_balance :=
  let is_vesting := negb (amount share_delta =? 0) in
  BalanceOperator (RewardsBalance 0 0 0)
    (λ SST_balance,
       if is_vesting then
         v ← safe_add (pending_vesting_value SST_balance) (amount value_delta);
         _ ← fc_assert (symbol share_delta =? get_paired_symbol (symbol value_delta));
         s ← safe_add (pending_vesting_shares SST_balance) (amount share_delta);
         mret (RewardsBalance (pending_liquid SST_balance) s v)
       else
         l ← safe_add (pending_liquid SST_balance) (amount value_delta);
         mret (RewardsBalance l (pending_vesting_shares SST_balance) (pending_vesting_value SST_balance)))
    (λ bo, safe_add (if is_vesting then pending_vesting_value bo else pending_liquid bo) (amount value_delta)).

(** The [validate()] of a new row only returns whether the symbols pair up, and
    the code drops its result: it has no effect. *)
Definition adjust_SST_balance {B} (op : balance_operator B) (n : name) (delta : asset) (check_account : bool)
    (d : db) (table : gmap (name * Z) B) : res (gmap (name * Z) B) :=
  let key := (n, liquid_symbol (symbol delta)) in
  match table !! key with
  | None =>
      _ ← fc_assert (0 <=? amount delta);
      if amount delta =? 0 then mret table
      else
        _ ← (if check_account then _ ← get_account n d; mret tt else mret tt);
        bo ← add_to_balance op (initial_balance op);
        mret (<[key := bo]> table)
  | Some bo =>
      result ← get_combined_balance op bo;
      _ ← fc_assert (0 <=? result);
      bo' ← add_to_balance op bo;
      mret (<[key := bo']> table)
  end.

(** ** adjust_balance *)

Definition adjust_balance (n : name) (delta : asset) (d : db) : res db :=
  _ ← (if amount delta <? 0 then
         available ← get_balance n (symbol delta) d;
         required ← asset_neg delta;
         b ← asset_geb available required;
         fc_assert b
       else mret tt);
  let check_balance := has_hardfork freezone_HARDFORK_0_20 d in
  match space (symbol delta) with
  | SST_nai_space =>
      if decide (n = freezone_NULL_ACCOUNT) then
        nd ← asset_neg delta;
        adjust_supply nd false d
      else
        m ← adjust_SST_balance (SST_regular_balance_operator delta) n delta false d (regular_balances d);
        mret (set_regular_balances (λ _, m) d)
  | legacy_space => modify_balance n delta check_balance d
  end.

(** The overload by name checks that the account exists before it creates a
    row for a token. *)
Definition adjust_reward_balance (n : name) (value_delta share_delta : asset) (by_name : bool) (d : db) : res db :=
  let check_balance := has_hardfork freezone_HARDFORK_0_20 d in
  _ ← fc_assert (negb (is_vesting (symbol value_delta)) && is_vesting (symbol share_delta));
  match space (symbol value_delta) with
  | SST_nai_space =>
      if decide (n = freezone_NULL_ACCOUNT) then
        nd ← asset_neg value_delta;
        adjust_supply nd false d
      else
        m ← adjust_SST_balance (SST_reward_balance_operator value_delta share_delta) n value_delta by_name d
              (rewards_balances d);
        mret (set_rewards_balances (λ _, m) d)
  | legacy_space => modify_reward_balance n value_delta share_delta check_balance d
  end.

(** Converts freezone into SBD at the print rate, for [to_account]. *)
Definition create_sbd (to_account : name) (freezone : asset) (to_reward_balance : bool) (d : db)
    : res ((asset * asset) * db) :=
  if amount freezone =? 0 then mret ((Asset 0 SBD_SYMBOL, Asset 0 freezone_SYMBOL), d)
  else
    let median_price := current_median_history d in
    if negb (is_null median_price) then
      x ← safe_mul (sbd_print_rate (gpo d)) (amount freezone);
      to_sbd ← safe_div x freezone_100_PERCENT;
      to_freezone ← safe_sub (amount freezone) to_sbd;
      sbd ← asset_mul_price (Asset to_sbd freezone_SYMBOL) median_price;
      d ← (if to_reward_balance then
             d ← adjust_reward_balance to_account sbd (Asset 0 VESTS_SYMBOL) false d;
             adjust_reward_balance to_account (Asset to_freezone freezone_SYMBOL) (Asset 0 VESTS_SYMBOL) false d
           else
             d ← adjust_balance to_account sbd d;
             adjust_balance to_account (Asset to_freezone freezone_SYMBOL) d);
      minus ← safe_neg to_sbd;
      d ← adjust_supply (Asset minus freezone_SYMBOL) false d;
      d ← adjust_supply sbd false d;
      mret ((sbd, Asset to_freezone freezone_SYMBOL), d)
    else
      d ← adjust_balance to_account freezone d;
      mret ((Asset 0 SBD_SYMBOL, freezone), d).

(** ** What is held and what was issued *)

(** The amount of an asset, seen from symbol [s]. *)
Definition amount_of (s : Z) (a : asset) : Z := if symbol a =? s then amount a else 0.

Definition account_held (s : Z) (_ : name) (a : account) : Z :=
  if s =? freezone_SYMBOL then balance a + savings_balance a + reward_freezone_balance a
  else if s =? SBD_SYMBOL then sbd_balance (sbd a) + sbd_balance (savings_sbd a) + reward_sbd_balance a
  else if s =? VESTS_SYMBOL then vesting_shares a + reward_vesting_balance a
  else 0.

Definition regular_held (s : Z) (k : name * Z) (b : regular_balance) : Z :=
  match space s with
  | legacy_space => 0
  | SST_nai_space =>
      if k.2 =? liquid_symbol s then if is_vesting s then rb_vesting_shares b else liquid b else 0
  end.

Definition amount_for_sale (o : limit_order) : asset := Asset (for_sale o) (symbol (base (sell_price o))).
Definition order_held (s : Z) (_ : name * Z) (o : limit_order) : Z := amount_of s (amount_for_sale o).
Definition escrow_held (s : Z) (_ : name * Z) (e : escrow) : Z :=
  amount_of s (Asset (esc_freezone_balance e) freezone_SYMBOL) + amount_of s (Asset (esc_sbd_balance e) SBD_SYMBOL)
  + amount_of s (pending_fee e).
Definition convert_held (s : Z) (_ : name * Z) (c : convert_request) : Z := amount_of s (cr_amount c).
Definition withdraw_held (s : Z) (_ : name * Z) (w : savings_withdraw) : Z := amount_of s (sw_amount w).

(** Rewards not yet claimed; the value of pending vesting shares is counted
    with the token. *)
Definition rewards_held (s : Z) (k : name * Z) (b : rewards_balance) : Z :=
  match space s with
  | legacy_space => 0
  | SST_nai_space =>
      if k.2 =? liquid_symbol s then if is_vesting s then pending_vesting_shares b else pending_liquid b else 0
  end.

(** What a token object itself holds: freezone and tokens of its market maker,
    and the liquid tokens behind vesting shares and rewards. *)
Definition token_held (s : Z) (k : Z) (t : sst_token) : Z :=
  if s =? freezone_SYMBOL then mm_freezone_balance t
  else match space s with
       | legacy_space => 0
       | SST_nai_space =>
           if k =? s then tk_vesting_fund t + tk_pending_value t + tk_reward_balance t + mm_token_balance t else 0
       end.

(** [phase <= SST_phase::launch_failed] *)
Definition not_launched (p : SST_phase) : bool := match p with launch_success => false | _ => true end.

(** Contributions to a token sale that were not paid out. *)
Definition ico_held (tokens : gmap Z sst_token) (s k : Z) (i : sst_ico) : Z :=
  if s =? freezone_SYMBOL then
    match tokens !! k with
    | Some t => if not_launched (phase t) then contributed i - processed_contributions i else contributed i
    | None => 0
    end
  else 0.

(** The funds of the chain itself. *)
Definition global_held (s : Z) (d : db) : Z :=
  if s =? freezone_SYMBOL then
    msum (λ _ b, b) (reward_funds d) + total_vesting_fund_freezone (gpo d) + total_reward_fund_freezone (gpo d)
    + pending_rewarded_vesting_freezone (gpo d)
  else 0.

Definition held (s : Z) (d : db) : Z :=
  msum (account_held s) (accounts d) + msum (regular_held s) (regular_balances d)
  + msum (rewards_held s) (rewards_balances d) + msum (token_held s) (sst_tokens d)
  + msum (ico_held (sst_tokens d) s) (icos d)
  + msum (order_held s) (orders d) + msum (escrow_held s) (escrows d)
  + msum (convert_held s) (converts d) + msum (withdraw_held s) (withdraws d) + global_held s d.

(** The supply of a token, and of the vesting shares of one. *)
Definition sst_issued (s : Z) (tokens : gmap Z sst_token) : Z :=
  match tokens !! s with
  | Some t => tk_current_supply t
  | None =>
      match tokens !! liquid_symbol s with
      | Some t => tk_vesting_shares t + tk_pending_shares t
      | None => 0
      end
  end.

Definition issued (s : Z) (d : db) : Z :=
  if s =? freezone_SYMBOL then current_supply (gpo d)
  else if s =? SBD_SYMBOL then current_sbd_supply (gpo d) + init_sbd_supply (gpo d)
  else if s =? VESTS_SYMBOL then total_vesting_shares (gpo d) + pending_rewarded_vesting_shares (gpo d)
  else sst_issued s (sst_tokens d).

Definition gap (s : Z) (d : db) : Z := held s d - issued s d.

(** ** The primitives move exactly their delta *)

Lemma safe_add_value a b c : safe_add a b = Ok c → c = a + b.
Proof. unfold safe_add. intros H. by res_inv. Qed.

Lemma safe_sub_value a b c : safe_sub a b = Ok c → c = a - b.
Proof. unfold safe_sub. intros H. by res_inv. Qed.

Lemma safe_neg_value a c : safe_neg a = Ok c → c = - a.
Proof. unfold safe_neg. intros H. by res_inv. Qed.

Ltac safe_values :=
  repeat match goal with
    | E : safe_add _ _ = Ok _ |- _ => apply safe_add_value in E
    | E : safe_sub _ _ = Ok _ |- _ => apply safe_sub_value in E
    | E : safe_neg _ = Ok _ |- _ => apply safe_neg_value in E
    end; subst.

Lemma checked_list t l t' : res_fold safe_add t l = Ok t' → t' = t + zsum l.
Proof.
  revert t. induction l as [|x l IH]; simpl; intros t H; [injection H as <-; lia|].
  apply bind_Ok in H as (u & Hu & H). apply safe_add_value in Hu as ->. apply IH in H as ->. lia.
Qed.

Lemma asset_neg_value a c : asset_neg a = Ok c → c = Asset (- amount a) (symbol a).
Proof. unfold asset_neg. intros H. res_inv. by safe_values. Qed.

Lemma asset_add_value a b c : asset_add a b = Ok c → symbol a = symbol b ∧ c = Asset (amount a + amount b) (symbol a).
Proof. unfold asset_add. intros H. res_inv. bools. by safe_values. Qed.

Lemma asset_sub_value a b c : asset_sub a b = Ok c → symbol a = symbol b ∧ c = Asset (amount a - amount b) (symbol a).
Proof. unfold asset_sub. intros H. res_inv. bools. by safe_values. Qed.

Lemma amount_of_neg s a c : asset_neg a = Ok c → amount_of s c = - amount_of s a.
Proof. intros ->%asset_neg_value. unfold amount_of; simpl. case_match; lia. Qed.

(** [unfold_gap]: [gap] as sums over the tables, which the writes of the other
    tables leave alone. *)
Ltac unfold_gap :=
  unfold gap, held, issued, global_held, put_account, set_accounts, set_regular_balances, set_rewards_balances,
    set_sst_tokens, set_orders, set_escrows, set_converts, set_withdraws, set_liquidity, set_staking, set_next_id,
    set_gpo, set_supplies, set_vesting;
  cbn [accounts regular_balances rewards_balances sst_tokens icos orders escrows converts withdraws reward_funds gpo
    current_supply current_sbd_supply init_sbd_supply total_vesting_fund_freezone total_vesting_shares
    total_reward_fund_freezone pending_rewarded_vesting_shares pending_rewarded_vesting_freezone].

(** Replacing one row. *)
Lemma gap_put_account s n a a' d :
  accounts d !! n = Some a →
  gap s (put_account n a' d) = gap s d + account_held s n a' - account_held s n a.
Proof.
  intros Ha. unfold_gap. rewrite msum_insert. unfold row. rewrite Ha. lia.
Qed.

(** [symbols s]: the cases of [s] that the code distinguishes. *)
Lemma symbol_facts : freezone_SYMBOL ≠ SBD_SYMBOL ∧ freezone_SYMBOL ≠ VESTS_SYMBOL ∧ SBD_SYMBOL ≠ VESTS_SYMBOL.
Proof. split_and!; done. Qed.

Lemma space_legacy s : space s = legacy_space ↔ s = freezone_SYMBOL ∨ s = SBD_SYMBOL ∨ s = VESTS_SYMBOL.
Proof.
  unfold space. destruct (_ || _) eqn:E.
  - rewrite !orb_true_iff, !Z.eqb_eq in E. unfold freezone_SYMBOL, SBD_SYMBOL, VESTS_SYMBOL. tauto.
  - rewrite !orb_false_iff, !Z.eqb_neq in E. unfold freezone_SYMBOL, SBD_SYMBOL, VESTS_SYMBOL. naive_solver.
Qed.

Ltac eqb_cases :=
  repeat match goal with
    | |- context [?a =? ?b] => destruct (Z.eqb_spec a b)
    | H : context [?a =? ?b] |- _ => destruct (Z.eqb_spec a b)
    end; subst; try done; try lia.

(** Interest changes the SBD held and issued alike. *)
Lemma accrue_interest_spec s a d s' d' :
  accrue_interest a d = Ok (s', d') →
  ∃ sb v, d' = set_gpo (set_supplies (current_supply (gpo d)) sb v (total_vesting_fund_freezone (gpo d)) (gpo d)) d
    ∧ amount_of s (Asset (sbd_balance s') SBD_SYMBOL) - amount_of s (Asset (sbd_balance a) SBD_SYMBOL)
      = amount_of s (Asset (sb - current_sbd_supply (gpo d)) SBD_SYMBOL).
Proof.
  unfold accrue_interest. intros H.
  assert (∀ d : db, d = set_gpo (set_supplies (current_supply (gpo d)) (current_sbd_supply (gpo d)) (virtual_supply (gpo d))
     (total_vesting_fund_freezone (gpo d)) (gpo d)) d) as Hid by (intros [????????????? []]; done).
  destruct (sbd_seconds_last_update a =? now d).
  { injection H as <- <-. eexists _, _. split; [apply Hid|]. unfold amount_of; simpl. case_match; lia. }
  apply bind_Ok in H as (t & _ & H). case_match.
  - repeat (apply bind_Ok in H as (? & ? & H)). injection H as <- <-. eexists _, _. split; [done|].
    safe_values.
    unfold amount_of; simpl. case_match; lia.
  - injection H as <- <-. eexists _, _. split; [apply Hid|]. unfold amount_of; simpl. case_match; lia.
Qed.

(** [gap] under a change of the supplies. *)
Lemma gap_set_supplies s sup sb v fund d :
  gap s (set_gpo (set_supplies sup sb v fund (gpo d)) d)
  = gap s d + amount_of s (Asset (fund - total_vesting_fund_freezone (gpo d) - (sup - current_supply (gpo d))) freezone_SYMBOL)
    - amount_of s (Asset (sb - current_sbd_supply (gpo d)) SBD_SYMBOL).
Proof.
  unfold amount_of. unfold_gap. cbn [symbol amount].
  destruct symbol_facts as (? & ? & ?). rewrite (Z.eqb_sym freezone_SYMBOL s), (Z.eqb_sym SBD_SYMBOL s).
  destruct (Z.eqb_spec s freezone_SYMBOL) as [->|]; [rewrite (proj2 (Z.eqb_neq _ _)) by done; lia|].
  destruct (Z.eqb_spec s SBD_SYMBOL); lia.
Qed.

Lemma amount_of_add s x y sym : amount_of s (Asset (x + y) sym) = amount_of s (Asset x sym) + amount_of s (Asset y sym).
Proof. unfold amount_of. cbn [symbol amount]. case_match; lia. Qed.

Lemma amount_of_sub s x y sym : amount_of s (Asset (x - y) sym) = amount_of s (Asset x sym) - amount_of s (Asset y sym).
Proof. unfold amount_of. cbn [symbol amount]. case_match; lia. Qed.

Lemma amount_of_zero s sym : amount_of s (Asset 0 sym) = 0.
Proof. unfold amount_of. cbn [symbol amount]. by destruct (sym =? s). Qed.

Lemma amount_of_eta s a sym : symbol a = sym → amount_of s (Asset (amount a) sym) = amount_of s a.
Proof. intros <-. by destruct a. Qed.

(** What an account holds, split by symbol. *)
Lemma account_held_split s n a :
  account_held s n a =
  amount_of s (Asset (balance a + savings_balance a + reward_freezone_balance a) freezone_SYMBOL)
  + amount_of s (Asset (sbd_balance (sbd a) + sbd_balance (savings_sbd a) + reward_sbd_balance a) SBD_SYMBOL)
  + amount_of s (Asset (vesting_shares a + reward_vesting_balance a) VESTS_SYMBOL).
Proof.
  unfold account_held, amount_of. cbn [symbol amount]. destruct symbol_facts as (? & ? & ?).
  rewrite (Z.eqb_sym _ s), (Z.eqb_sym SBD_SYMBOL s), (Z.eqb_sym VESTS_SYMBOL s).
  destruct (Z.eqb_spec s freezone_SYMBOL), (Z.eqb_spec s SBD_SYMBOL), (Z.eqb_spec s VESTS_SYMBOL);
    subst; try done; try lia; congruence.
Qed.

(** [held_diff]: the change of what an account holds when a member is set. *)
Ltac held_diff :=
  rewrite !account_held_split;
  unfold vesting_shares;
  cbn [set_balance set_savings_balance set_sbd set_savings_sbd set_withdraw_requests set_rewards set_vesting_shares
       set_stake set_ma_vesting balance savings_balance sbd savings_sbd reward_freezone_balance reward_sbd_balance
       reward_vesting_balance stake ma_vesting_shares sbd_balance];
  rewrite ?amount_of_add; try lia.

Lemma modify_sbd_spec s delta c a d a' d' :
  modify_sbd delta c a d = Ok (a', d') →
  ∃ sb v, d' = set_gpo (set_supplies (current_supply (gpo d)) sb v (total_vesting_fund_freezone (gpo d)) (gpo d)) d
    ∧ amount_of s (Asset (sbd_balance a') SBD_SYMBOL) - amount_of s (Asset (sbd_balance a) SBD_SYMBOL)
      = amount_of s (Asset (sb - current_sbd_supply (gpo d)) SBD_SYMBOL) + amount_of s (Asset delta SBD_SYMBOL).
Proof.
  unfold modify_sbd. intros H. apply bind_Ok in H as ([a1 d1] & H1 & H).
  apply (accrue_interest_spec s) in H1 as (sb & v & E & Hamt).
  apply bind_Ok in H as (b & Hb & H). apply bind_Ok in H as (_ & _ & H). injection H as <- <-.
  apply safe_add_value in Hb. subst. eexists _, _. split; [done|]. cbn [sbd_balance]. rewrite amount_of_add. lia.
Qed.

Lemma gap_modify_balance s n delta c d d' :
  modify_balance n delta c d = Ok d' → gap s d' = gap s d + amount_of s delta.
Proof.
  unfold modify_balance. intros H. apply bind_Ok in H as (a & Ha & H). apply from_option_exn_Ok in Ha.
  destruct (Z.eqb_spec (symbol delta) freezone_SYMBOL) as [Es|_];
    [|destruct (Z.eqb_spec (symbol delta) SBD_SYMBOL) as [Es|_];
      [|destruct (Z.eqb_spec (symbol delta) VESTS_SYMBOL) as [Es|_]; [|done]]].
  - apply bind_Ok in H as (b & Hb & H). apply bind_Ok in H as (_ & _ & H). injection H as <-.
    apply safe_add_value in Hb as ->. rewrite (gap_put_account _ _ a) by done. held_diff.
    rewrite (amount_of_eta s delta) by done. lia.
  - apply bind_Ok in H as ([s' d1] & H1 & H). injection H as <-.
    apply (modify_sbd_spec s) in H1 as (sb & v & -> & Hamt).
    rewrite (gap_put_account _ _ a) by done. rewrite gap_set_supplies. held_diff.
    rewrite (amount_of_eta s delta) in Hamt by done.
    replace (amount_of s (Asset _ freezone_SYMBOL)) with 0 by (unfold amount_of; cbn [symbol amount]; case_match; lia).
    lia.
  - apply bind_Ok in H as (b & Hb & H). apply bind_Ok in H as (_ & _ & H). injection H as <-.
    apply safe_add_value in Hb as ->. rewrite (gap_put_account _ _ a) by done. held_diff.
    rewrite (amount_of_eta s delta) by done. lia.
Qed.

Lemma gap_adjust_savings_balance s n delta d d' :
  adjust_savings_balance n delta d = Ok d' → gap s d' = gap s d + amount_of s delta.
Proof.
  unfold adjust_savings_balance. intros H. apply bind_Ok in H as (a & Ha & H). apply from_option_exn_Ok in Ha.
  destruct (Z.eqb_spec (symbol delta) freezone_SYMBOL) as [Es|_];
    [|destruct (Z.eqb_spec (symbol delta) SBD_SYMBOL) as [Es|_]; [|done]].
  - apply bind_Ok in H as (b & Hb & H). apply bind_Ok in H as (_ & _ & H). injection H as <-.
    apply safe_add_value in Hb as ->. rewrite (gap_put_account _ _ a) by done. held_diff.
    rewrite (amount_of_eta s delta) by done. lia.
  - apply bind_Ok in H as ([s' d1] & H1 & H). injection H as <-.
    apply (modify_sbd_spec s) in H1 as (sb & v & -> & Hamt).
    rewrite (gap_put_account _ _ a) by done. rewrite gap_set_supplies. held_diff.
    rewrite (amount_of_eta s delta) in Hamt by done.
    replace (amount_of s (Asset _ freezone_SYMBOL)) with 0 by (unfold amount_of; cbn [symbol amount]; case_match; lia).
    lia.
Qed.

Lemma gap_modify_reward_balance s n vd sd c d d' :
  symbol sd = VESTS_SYMBOL → modify_reward_balance n vd sd c d = Ok d' →
  gap s d' = gap s d + (if amount sd =? 0 then amount_of s vd else amount_of s sd).
Proof.
  unfold modify_reward_balance. intros Hsd H. apply bind_Ok in H as (a & Ha & H). apply from_option_exn_Ok in Ha.
  destruct (Z.eqb_spec (symbol vd) freezone_SYMBOL) as [Es|_];
    [|destruct (Z.eqb_spec (symbol vd) SBD_SYMBOL) as [Es|_]; [|done]].
  - destruct (Z.eqb_spec (amount sd) 0).
    + apply bind_Ok in H as (b & Hb & H). apply bind_Ok in H as (_ & _ & H). injection H as <-.
      apply safe_add_value in Hb as ->. rewrite (gap_put_account _ _ a) by done. held_diff.
      rewrite (amount_of_eta s vd) by done. lia.
    + apply bind_Ok in H as (b & Hb & H). apply bind_Ok in H as (_ & _ & H).
      apply bind_Ok in H as (b' & Hb' & H). apply bind_Ok in H as (_ & _ & H). injection H as <-.
      apply safe_add_value in Hb', Hb. subst. rewrite (gap_put_account _ _ a) by done. held_diff.
      rewrite (amount_of_eta s sd) by done. lia.
  - apply bind_Ok in H as (u & Hz & H). apply fc_assert_Ok, Z.eqb_eq in Hz. rewrite (proj2 (Z.eqb_eq _ _) Hz).
    apply bind_Ok in H as (b & Hb & H). apply bind_Ok in H as (_ & _ & H). injection H as <-.
    apply safe_add_value in Hb as ->. rewrite (gap_put_account _ _ a) by done. held_diff.
    rewrite (amount_of_eta s vd) by done. lia.
Qed.

(** Replacing a token object. *)
Definition sst_change (s k : Z) (t t' : sst_token) (tokens : gmap Z sst_token) : Z :=
  if k =? s then tk_current_supply t' - tk_current_supply t
  else if (liquid_symbol s =? k) && bool_decide (tokens !! s = None)
       then tk_vesting_shares t' + tk_pending_shares t' - tk_vesting_shares t - tk_pending_shares t
       else 0.

Lemma sst_issued_put s k t t' tokens :
  tokens !! k = Some t → sst_issued s (<[k := t']> tokens) = sst_issued s tokens + sst_change s k t t' tokens.
Proof.
  intros Hk. unfold sst_issued, sst_change. destruct (Z.eqb_spec k s) as [->|Hne].
  - rewrite lookup_insert_eq, Hk. lia.
  - rewrite lookup_insert_ne by done. destruct (tokens !! s) eqn:Es.
    { rewrite bool_decide_eq_false_2 by done. rewrite andb_false_r. lia. }
    rewrite bool_decide_eq_true_2, andb_true_r by done.
    destruct (Z.eqb_spec (liquid_symbol s) k) as [->|Hl]; [rewrite lookup_insert_eq, Hk; lia|].
    rewrite lookup_insert_ne by done. lia.
Qed.

Lemma gap_put_token s k t t' d :
  sst_tokens d !! k = Some t → space k = SST_nai_space → phase t' = phase t →
  gap s (set_sst_tokens <[k := t']> d)
  = gap s d + token_held s k t' - token_held s k t
    - match space s with legacy_space => 0 | SST_nai_space => sst_change s k t t' (sst_tokens d) end.
Proof.
  intros Hk Hsp Hph. unfold_gap. rewrite msum_insert. unfold row. rewrite Hk.
  rewrite (msum_ext (ico_held (<[k := t']> (sst_tokens d)) s) (ico_held (sst_tokens d) s)).
  2: { intros j i _. unfold ico_held. case_match; [|done]. destruct (decide (k = j)) as [->|Hne].
       - by rewrite lookup_insert_eq, Hk, Hph.
       - by rewrite lookup_insert_ne. }
  rewrite (sst_issued_put s k t t') by done.
  pose proof (space_legacy s) as Hl. destruct (space s) eqn:Es.
  - destruct (proj1 Hl eq_refl) as [-> | [-> | ->]]; repeat (rewrite Z.eqb_refl || rewrite (proj2 (Z.eqb_neq _ _)) by done); lia.
  - destruct (Z.eqb_spec s freezone_SYMBOL); [subst; done|]. destruct (Z.eqb_spec s SBD_SYMBOL); [subst; done|].
    destruct (Z.eqb_spec s VESTS_SYMBOL); [subst; done|]. lia.
Qed.

Lemma token_held_supply s k v t : token_held s k (set_tk_current_supply v t) = token_held s k t.
Proof. done. Qed.

Lemma gap_adjust_supply s delta v d d' :
  adjust_supply delta v d = Ok d' → gap s d' = gap s d - amount_of s delta.
Proof.
  unfold adjust_supply. intros H. destruct (space (symbol delta)) eqn:Esp.
  - destruct (Z.eqb_spec (symbol delta) freezone_SYMBOL) as [Es|_];
      [|destruct (Z.eqb_spec (symbol delta) SBD_SYMBOL) as [Es|_]; [|done]].
    + repeat (apply bind_Ok in H as (? & ? & H)). injection H as <-. safe_values.
      rewrite gap_set_supplies. rewrite <- (amount_of_eta s delta freezone_SYMBOL) by done.
      unfold amount_of. cbn [symbol amount]. repeat case_match; lia.
    + repeat (apply bind_Ok in H as (? & ? & H)). injection H as <-. safe_values.
      rewrite gap_set_supplies. rewrite <- (amount_of_eta s delta SBD_SYMBOL) by done.
      unfold amount_of. cbn [symbol amount]. repeat case_match; lia.
  - apply bind_Ok in H as (t & Hs & H). apply from_option_exn_Ok in Hs.
    apply bind_Ok in H as (ns & Hn & H). apply safe_add_value in Hn as ->.
    apply bind_Ok in H as (_ & _ & H). injection H as <-.
    rewrite (gap_put_token _ _ t) by (done || congruence). unfold sst_change, amount_of.
    cbn [set_tk_current_supply tk_current_supply tk_vesting_shares tk_pending_shares].
    rewrite token_held_supply. destruct (space s) eqn:Es.
    + rewrite (proj2 (Z.eqb_neq _ _)) by congruence. lia.
    + destruct (Z.eqb_spec (symbol delta) s); [lia|]. case_match; lia.
Qed.

Lemma gap_put_regular s k b d :
  gap s (set_regular_balances (λ _, <[k := b]> (regular_balances d)) d)
  = gap s d + regular_held s k b - row (regular_held s) (regular_balances d) k.
Proof. unfold_gap. rewrite msum_insert. lia. Qed.

Lemma gap_put_rewards s k b d :
  gap s (set_rewards_balances (λ _, <[k := b]> (rewards_balances d)) d)
  = gap s d + rewards_held s k b - row (rewards_held s) (rewards_balances d) k.
Proof. unfold_gap. rewrite msum_insert. lia. Qed.

(** Two token symbols with the same key and kind are the same. *)
Lemma liquid_symbol_inj s s' :
  space s = SST_nai_space → space s' = SST_nai_space →
  liquid_symbol s = liquid_symbol s' → is_vesting s = is_vesting s' → s = s'.
Proof.
  intros Hs Hs' Hl Hv. unfold liquid_symbol in Hl. rewrite Hv in Hl. destruct (is_vesting s'); [|done].
  unfold get_paired_symbol in Hl. rewrite Hs, Hs' in Hl.
  rewrite <- (Z.lxor_0_r s), <- (Z.lxor_0_r s'), <- (Z.lxor_nilpotent VESTING_MASK), <- !Z.lxor_assoc.
  by rewrite Hl.
Qed.

(** [add_to_balance] of the two operators. *)
Lemma regular_held_add s n delta b b' :
  space (symbol delta) = SST_nai_space →
  add_to_balance (SST_regular_balance_operator delta) b = Ok b' →
  regular_held s (n, liquid_symbol (symbol delta)) b'
  = regular_held s (n, liquid_symbol (symbol delta)) b + amount_of s delta.
Proof.
  intros Hsp H. unfold regular_held, amount_of. cbn [fst snd].
  destruct (space s) eqn:Es.
  { rewrite (proj2 (Z.eqb_neq _ _)) by congruence. lia. }
  assert (symbol delta ≠ s → liquid_symbol (symbol delta) = liquid_symbol s → is_vesting s ≠ is_vesting (symbol delta)) as Hinj.
  { intros Hne Hl Hv. apply Hne. by apply liquid_symbol_inj. }
  cbn [add_to_balance SST_regular_balance_operator] in H.
  destruct (Z.eqb_spec (symbol delta) s) as [E|E].
  - subst s. rewrite Z.eqb_refl. destruct (is_vesting (symbol delta));
      apply bind_Ok in H as (v & Hv & H); injection H as <-; apply safe_add_value in Hv as ->;
      unfold rb_vesting_shares; simpl; lia.
  - destruct (Z.eqb_spec (liquid_symbol (symbol delta)) (liquid_symbol s)) as [El|_]; [|lia].
    specialize (Hinj E El). destruct (is_vesting (symbol delta)), (is_vesting s); try done;
      apply bind_Ok in H as (v & Hv & H); injection H as <-; unfold rb_vesting_shares; simpl; lia.
Qed.

(** What [adjust_SST_balance] writes: one row, to which the operator was
    applied, or nothing when there is no row and nothing to add. *)
Lemma adjust_SST_balance_Ok {B} (op : balance_operator B) n delta c d table m :
  adjust_SST_balance op n delta c d table = Ok m →
  let key := (n, liquid_symbol (symbol delta)) in
  (table !! key = None ∧ amount delta = 0 ∧ m = table)
  ∨ ∃ b b', (table !! key = Some b ∨ table !! key = None ∧ b = initial_balance op)
      ∧ add_to_balance op b = Ok b' ∧ m = <[key := b']> table.
Proof.
  unfold adjust_SST_balance. intros H. cbn zeta. destruct (table !! _) as [bo|] eqn:Eb.
  - apply bind_Ok in H as (r & _ & H). apply bind_Ok in H as (_ & _ & H). apply bind_Ok in H as (b' & Hb & H).
    injection H as <-. right. eauto 6.
  - apply bind_Ok in H as (_ & _ & H). destruct (Z.eqb_spec (amount delta) 0).
    { injection H as <-. by left. }
    apply bind_Ok in H as (_ & _ & H). apply bind_Ok in H as (b' & Hb & H). injection H as <-.
    right. exists (initial_balance op), b'. auto.
Qed.

Lemma gap_adjust_SST_balance s n delta c d m :
  space (symbol delta) = SST_nai_space →
  adjust_SST_balance (SST_regular_balance_operator delta) n delta c d (regular_balances d) = Ok m →
  gap s (set_regular_balances (λ _, m) d) = gap s d + amount_of s delta.
Proof.
  intros Hsp H. apply adjust_SST_balance_Ok in H as [(_ & E0 & ->)|(b & b' & Hb & Ha & ->)].
  { replace (set_regular_balances (λ _, regular_balances d) d) with d by (by destruct d).
    unfold amount_of. rewrite E0. case_match; lia. }
  rewrite gap_put_regular, (regular_held_add s n delta b b') by done.
  unfold row. destruct Hb as [-> | [-> ->]]; [lia|].
  replace (regular_held s _ (initial_balance _)) with 0; [lia|]. unfold regular_held. repeat case_match; done.
Qed.

(** A reward credits the liquid amount, or the shares when there are any. *)
Lemma rewards_held_add_liquid s n vd sd b b' :
  space (symbol vd) = SST_nai_space → is_vesting (symbol vd) = false → amount sd = 0 →
  add_to_balance (SST_reward_balance_operator vd sd) b = Ok b' →
  rewards_held s (n, symbol vd) b' = rewards_held s (n, symbol vd) b + amount_of s vd.
Proof.
  intros Hsp Hv E0 H. cbn [add_to_balance SST_reward_balance_operator] in H. rewrite E0, Z.eqb_refl in H. cbn [negb] in H.
  unfold rewards_held, amount_of. cbn [fst snd].
  apply bind_Ok in H as (l & Hl & H). injection H as <-. apply safe_add_value in Hl as ->.
  destruct (space s) eqn:Es; [rewrite (proj2 (Z.eqb_neq _ _)) by congruence; lia|].
  cbn [pending_liquid pending_vesting_shares]. unfold liquid_symbol.
  destruct (Z.eqb_spec (symbol vd) s) as [<-|Hne]; [rewrite Hv, Z.eqb_refl; lia|].
  destruct (is_vesting s); [case_match; lia|]. rewrite (proj2 (Z.eqb_neq _ _)) by done. lia.
Qed.

Lemma rewards_held_add s n vd sd b b' :
  space (symbol vd) = SST_nai_space → is_vesting (symbol sd) = true → space (symbol sd) = SST_nai_space →
  amount sd ≠ 0 → add_to_balance (SST_reward_balance_operator vd sd) b = Ok b' →
  rewards_held s (n, symbol vd) b' = rewards_held s (n, symbol vd) b + amount_of s sd.
Proof.
  intros Hsp Hs Hssp E0 H. cbn [add_to_balance SST_reward_balance_operator] in H.
  rewrite (proj2 (Z.eqb_neq _ _) E0) in H. cbn [negb] in H. unfold rewards_held, amount_of. cbn [fst snd].
  apply bind_Ok in H as (v & _ & H). apply bind_Ok in H as ([] & Hp%fc_assert_Ok & H). apply Z.eqb_eq in Hp.
  apply bind_Ok in H as (h & Hh & H). injection H as <-. apply safe_add_value in Hh as ->.
  destruct (space s) eqn:Es; [rewrite (proj2 (Z.eqb_neq _ _)) by congruence; lia|].
  cbn [pending_liquid pending_vesting_shares].
  assert (liquid_symbol (symbol sd) = symbol vd) as Hls.
  { unfold liquid_symbol. rewrite Hs. unfold get_paired_symbol. rewrite Hssp, Hp.
    unfold get_paired_symbol. rewrite Hsp, Z.lxor_assoc, Z.lxor_nilpotent. apply Z.lxor_0_r. }
  destruct (Z.eqb_spec (symbol sd) s) as [<-|Hne]; [rewrite Hls, Z.eqb_refl, Hs; lia|].
  destruct (Z.eqb_spec (symbol vd) (liquid_symbol s)) as [El|_]; [|lia].
  destruct (is_vesting s) eqn:Ev; [|lia]. exfalso. apply Hne. apply liquid_symbol_inj; congruence.
Qed.

Lemma gap_adjust_balance s n delta d d' :
  adjust_balance n delta d = Ok d' → gap s d' = gap s d + amount_of s delta.
Proof.
  unfold adjust_balance. intros H. apply bind_Ok in H as (_ & _ & H).
  destruct (space (symbol delta)) eqn:E; [by apply (gap_modify_balance s) in H|].
  case_decide.
  - apply bind_Ok in H as (nd & Hn & H). apply (gap_adjust_supply s) in H.
    apply (amount_of_neg s) in Hn. lia.
  - apply bind_Ok in H as (m & Hm & H). injection H as <-. by eapply gap_adjust_SST_balance.
Qed.

(** A reward adds its liquid value, or the vesting shares made from it. *)
Lemma gap_adjust_reward_balance s n vd sd b d d' :
  (space (symbol vd) = legacy_space → symbol sd = VESTS_SYMBOL) →
  (space (symbol vd) = SST_nai_space → n = freezone_NULL_ACCOUNT → amount sd = 0) →
  (space (symbol vd) = SST_nai_space → amount sd ≠ 0 → space (symbol sd) = SST_nai_space ∧ amount vd ≠ 0) →
  adjust_reward_balance n vd sd b d = Ok d' →
  gap s d' = gap s d + (if amount sd =? 0 then amount_of s vd else amount_of s sd).
Proof.
  intros Hleg Hnull Hsd H. unfold adjust_reward_balance in H. apply bind_Ok in H as ([] & Hk%fc_assert_Ok & H).
  apply andb_true_iff in Hk as [Hv%negb_true_iff Hs].
  destruct (space (symbol vd)) eqn:E; [by apply (gap_modify_reward_balance s) in H; [|apply Hleg]|].
  case_decide as Hn.
  - apply bind_Ok in H as (nd & Hnd & H). apply (gap_adjust_supply s) in H. rewrite (Hnull eq_refl Hn), Z.eqb_refl.
    apply (amount_of_neg s) in Hnd. lia.
  - apply bind_Ok in H as (m & Hm & H). injection H as <-.
    assert (liquid_symbol (symbol vd) = symbol vd) as El by (unfold liquid_symbol; by rewrite Hv).
    apply adjust_SST_balance_Ok in Hm as [(_ & E0 & ->)|(r & r' & Hr & Ha & ->)].
    { replace (set_rewards_balances (λ _, rewards_balances d) d) with d by (by destruct d).
      destruct (Z.eqb_spec (amount sd) 0) as [|Hne]; [|by apply Hsd in Hne as [_ ?]].
      unfold amount_of. rewrite E0. case_match; lia. }
    rewrite El in *. rewrite gap_put_rewards.
    assert (rewards_held s (n, symbol vd) r'
      = rewards_held s (n, symbol vd) r + (if amount sd =? 0 then amount_of s vd else amount_of s sd)) as ->.
    { destruct (Z.eqb_spec (amount sd) 0) as [E0|Hne].
      - by eapply rewards_held_add_liquid.
      - destruct (Hsd eq_refl Hne) as [Hssp _]. by apply rewards_held_add. }
    unfold row. destruct Hr as [-> | [-> ->]]; [lia|].
    replace (rewards_held s _ (initial_balance _)) with 0; [lia|]. unfold rewards_held. repeat case_match; done.
Qed.

(** ** What the primitives leave alone *)

Record same_tables (d d' : db) : Prop := {
  st_orders : orders d' = orders d;
  st_escrows : escrows d' = escrows d;
  st_converts : converts d' = converts d;
  st_withdraws : withdraws d' = withdraws d;
  st_token_keys : dom (sst_tokens d') = dom (sst_tokens d);
  st_staking : staking d' = staking d;
  st_next_id : next_id d' = next_id d;
  st_now : now d' = now d;
  st_median : current_median_history d' = current_median_history d;
  st_hardforks : processed_hardforks d' = processed_hardforks d
}.

#[global] Instance same_tables_refl : Reflexive same_tables.
Proof. by split. Qed.
#[global] Instance same_tables_trans : Transitive same_tables.
Proof. intros d1 d2 d3 [] []. split; congruence. Qed.

Lemma same_tables_put_account n a d : same_tables d (put_account n a d).
Proof. by split. Qed.
Lemma same_tables_set_supplies s sb v f d : same_tables d (set_gpo (set_supplies s sb v f (gpo d)) d).
Proof. by split. Qed.
Lemma same_tables_regular f d : same_tables d (set_regular_balances f d).
Proof. by split. Qed.
Lemma same_tables_rewards f d : same_tables d (set_rewards_balances f d).
Proof. by split. Qed.
Lemma same_tables_sst k t t' d : sst_tokens d !! k = Some t → same_tables d (set_sst_tokens <[k := t']> d).
Proof. intros Hk. split; try done. simpl. apply dom_insert_lookup_L. eauto. Qed.

#[export] Hint Resolve same_tables_put_account same_tables_set_supplies same_tables_regular same_tables_rewards
  same_tables_sst : freezone.

(** [frame]: every way the function returns ends in one of the updates above. *)
Ltac frame_step :=
  match goal with
  | H : _ ≫= _ = Ok _ |- _ => apply bind_Ok in H as (? & ? & H)
  | H : mret _ = Ok _ |- _ => unfold mret, res_ret in H
  | H : Ok _ = Ok _ |- _ => injection H as H; try subst
  | H : Throw _ = Ok _ |- _ => discriminate H
  | H : (if ?b then _ else _) = Ok _ |- _ => destruct b
  | H : match ?x with _ => _ end = Ok _ |- _ => destruct x
  end.

Lemma same_tables_modify_sbd delta c s d s' d' : modify_sbd delta c s d = Ok (s', d') → same_tables d d'.
Proof. intros H. apply (modify_sbd_spec 0) in H as (? & ? & -> & _). auto with freezone. Qed.

Lemma same_tables_modify_balance n delta c d d' : modify_balance n delta c d = Ok d' → same_tables d d'.
Proof.
  unfold modify_balance. intros H. apply bind_Ok in H as (a & _ & H).
  repeat case_match; try done; repeat (apply bind_Ok in H as (? & ? & H); try case_match); injection H as <-;
    try (by auto with freezone).
  subst. etransitivity; [by eapply same_tables_modify_sbd|auto with freezone].
Qed.

Lemma same_tables_adjust_savings_balance n delta d d' : adjust_savings_balance n delta d = Ok d' → same_tables d d'.
Proof.
  unfold adjust_savings_balance. intros H. apply bind_Ok in H as (a & _ & H).
  repeat case_match; try done; repeat (apply bind_Ok in H as (? & ? & H); try case_match); injection H as <-;
    try (by auto with freezone).
  subst. etransitivity; [by eapply same_tables_modify_sbd|auto with freezone].
Qed.

Lemma same_tables_adjust_supply delta v d d' : adjust_supply delta v d = Ok d' → same_tables d d'.
Proof.
  unfold adjust_supply. intros H. case_match; repeat (frame_step; eauto with freezone).
  match goal with E : from_option_exn _ _ = Ok _ |- _ => apply from_option_exn_Ok in E end. eauto with freezone.
Qed.

Lemma same_tables_adjust_balance n delta d d' : adjust_balance n delta d = Ok d' → same_tables d d'.
Proof.
  unfold adjust_balance. intros H. apply bind_Ok in H as (_ & _ & H). case_match.
  - by eapply same_tables_modify_balance.
  - case_decide; apply bind_Ok in H as (? & _ & H); [by eapply same_tables_adjust_supply|].
    injection H as <-. auto with freezone.
Qed.

Lemma same_tables_modify_reward_balance n vd sd c d d' : modify_reward_balance n vd sd c d = Ok d' → same_tables d d'.
Proof. unfold modify_reward_balance. intros H. repeat (frame_step; auto with freezone). Qed.

Lemma same_tables_adjust_reward_balance n vd sd b d d' : adjust_reward_balance n vd sd b d = Ok d' → same_tables d d'.
Proof.
  unfold adjust_reward_balance. intros H. apply bind_Ok in H as (_ & _ & H). case_match.
  - by eapply same_tables_modify_reward_balance.
  - case_decide; apply bind_Ok in H as (? & _ & H); [by eapply same_tables_adjust_supply|].
    injection H as <-. auto with freezone.
Qed.

(** [create_sbd] issues what it credits: only the freezone it is given is new. *)
Lemma gap_create_sbd s n fz b d r d' :
  symbol fz = freezone_SYMBOL → base (current_median_history d) = Asset (amount (base (current_median_history d))) SBD_SYMBOL →
  quote (current_median_history d) = Asset (amount (quote (current_median_history d))) freezone_SYMBOL →
  create_sbd n fz b d = Ok (r, d') → gap s d' = gap s d + amount_of s fz.
Proof.
  intros Hfz Hb Hq H. unfold create_sbd in H. destruct (Z.eqb_spec (amount fz) 0) as [E0|_].
  { injection H as <- <-. unfold amount_of. rewrite E0. case_match; lia. }
  destruct (negb _); [|apply bind_Ok in H as (d1 & H1 & H); injection H as <- <-; by apply (gap_adjust_balance s) in H1].
  apply bind_Ok in H as (x & _ & H). apply bind_Ok in H as (ts & _ & H). apply bind_Ok in H as (tf & Htf & H).
  apply bind_Ok in H as (sb & Hsb & H). apply bind_Ok in H as (d1 & H1 & H). apply bind_Ok in H as (m & Hm & H).
  apply bind_Ok in H as (d2 & H2 & H). apply bind_Ok in H as (d3 & H3 & H). injection H as <- <-.
  apply safe_sub_value in Htf. apply safe_neg_value in Hm. subst tf m.
  apply (gap_adjust_supply s) in H2, H3.
  assert (symbol sb = SBD_SYMBOL) as Es.
  { unfold asset_mul_price in Hsb. rewrite Hb, Hq in Hsb. cbn [symbol amount] in Hsb.
    change (freezone_SYMBOL =? SBD_SYMBOL) with false in Hsb. rewrite Z.eqb_refl in Hsb.
    apply bind_Ok in Hsb as (? & _ & Hsb). by injection Hsb as <-. }
  assert (gap s d1 = gap s d + amount_of s sb + amount_of s (Asset (amount fz - ts) freezone_SYMBOL)) as Hg.
  { destruct b; apply bind_Ok in H1 as (d0 & H0 & H1).
    - apply (gap_adjust_reward_balance s) in H0, H1; cbn [symbol amount] in *;
        [change (0 =? 0) with true in *; cbn iota in *; lia|rewrite ?Es; done..].
    - apply (gap_adjust_balance s) in H0, H1. lia. }
  rewrite amount_of_sub, (amount_of_eta s fz) in Hg by done.
  replace (amount_of s (Asset (- ts) freezone_SYMBOL)) with (- amount_of s (Asset ts freezone_SYMBOL)) in H2
    by (unfold amount_of; cbn [symbol amount]; destruct (_ =? s); lia).
  lia.
Qed.
