(* ===== verification/Votes.v ===== *)
(** * Witness votes and proxies

    database.cpp: [adjust_proxied_witness_votes], [adjust_witness_votes],
    [adjust_witness_vote], [clear_witness_votes]; steem_evaluator.cpp: the
    evaluators of account_witness_vote and account_witness_proxy.

    An account votes for witnesses itself or lets its votes follow a proxy.
    Its vesting shares are recorded along the chain of proxies, in
    [proxied_vsf_votes[i]] of the proxy reached after [i + 1] steps, for at
    most four steps; the account at the end of the chain votes with its own
    shares and everything proxied to it. *)

From S2P Require Import Prelude Config AccountName Uint128 SafeInt AssetSymbol Asset Manabar MapSum State Ledger.
From stdpp Require Import gmap strings sorting.
#[local] Open Scope Z_scope.

(** ** The weight of an account (account_object.hpp) *)

Definition witness_vote_weight (a : account) : res Z := res_fold safe_add (vesting_shares a) (proxied_vsf_votes a).

(** ** Witnesses (database.cpp) *)

Definition uint128_max_value : uint128 := U128 (2 ^ 64 - 1) (2 ^ 64 - 1).
Definition freezone_VIRTUAL_SCHEDULE_LAP_LENGTH : uint128 := uint128_of_u64 (2 ^ 64 - 1).
Definition freezone_VIRTUAL_SCHEDULE_LAP_LENGTH2 : uint128 := uint128_max_value.

Definition get_witness (n : name) (d : db) : res witness := from_option_exn out_of_range (witnesses (staking d) !! n).

Definition adjust_witness_vote (w : name) (delta : Z) (d : db) : res db :=
  wit ← get_witness w d;
  let time := current_virtual_time (staking d) in
  delta_pos ← mul_assign (uint128_of_i64 (votes wit)) (sub_assign time (virtual_last_update wit));
  let position := add_assign (virtual_position wit) delta_pos in
  v ← safe_add (votes wit) delta;
  _ ← fc_assert (v <=? total_vesting_shares (gpo d));
  let lap := if has_hardfork freezone_HARDFORK_0_2 d then freezone_VIRTUAL_SCHEDULE_LAP_LENGTH2
             else freezone_VIRTUAL_SCHEDULE_LAP_LENGTH in
  laps ← div_assign (sub_assign lap position) (uint128_of_i64 (i64 (v + 1)));
  let scheduled := add_assign time laps in
  let scheduled := if has_hardfork freezone_HARDFORK_0_4 d && ltb scheduled time then uint128_max_value
                   else scheduled in
  mret (set_witnesses <[w := Witness v time position scheduled]> d).

(** The votes of an account, in the order of the index [by_account_witness];
    names are compared byte by byte. *)
Definition name_le (x y : name) : Prop := String.leb x y = true.
#[global] Instance name_le_dec x y : Decision (name_le x y) := bool_eq_dec _ _.

Definition votes_of (n : name) (d : db) : list name :=
  merge_sort name_le (omap (λ p, if decide (p.1 = n) then Some p.2 else None) (elements (witness_votes (staking d)))).

Definition adjust_witness_votes (n : name) (delta : Z) (d : db) : res db :=
  res_fold (λ d w, adjust_witness_vote w delta d) d (votes_of n d).

(** [proxied_vsf_votes[i] += delta]; the array has four members. *)
Definition add_at (i : nat) (delta : Z) (l : list Z) : res (list Z) :=
  x ← from_option_exn out_of_range (l !! i);
  y ← safe_add x delta;
  mret (<[i := y]> l).

(** One delta, of the account's own shares.  [left] is
    [freezone_MAX_PROXY_RECURSION_DEPTH - depth]. *)
Fixpoint adjust_proxied_witness_votes_one (left : nat) (n : name) (delta : Z) (d : db) : res db :=
  a ← get_account n d;
  if decide (proxy a = freezone_PROXY_TO_SELF_ACCOUNT) then adjust_witness_votes n delta d
  else
    match left with
    | O => mret d
    | S left' =>
        let depth := (freezone_MAX_PROXY_RECURSION_DEPTH - left)%nat in
        p ← get_account (proxy a) d;
        l ← add_at depth delta (proxied_vsf_votes p);
        adjust_proxied_witness_votes_one left' (proxy a) delta (put_account (proxy a) (set_proxied l p) d)
    end.

(** [for( i = n - 1; i >= 0; --i ) proxied_vsf_votes[ i + depth ] += delta[ i ]] *)
Fixpoint add_from (n depth : nat) (delta : list Z) (l : list Z) : res (list Z) :=
  match n with
  | O => mret l
  | S i =>
      x ← from_option_exn out_of_range (delta !! i);
      l ← add_at (i + depth) x l;
      add_from i depth delta l
  end.

(** [for( i = n - 1; i >= 0; --i ) total_delta += delta[ i ]] *)
Fixpoint total_delta (n : nat) (delta : list Z) (acc : Z) : res Z :=
  match n with
  | O => mret acc
  | S i =>
      x ← from_option_exn out_of_range (delta !! i);
      acc ← safe_add acc x;
      total_delta i delta acc
  end.

(** A delta of the account's own shares and of each level proxied to it. *)
Fixpoint adjust_proxied_witness_votes (left : nat) (n : name) (delta : list Z) (d : db) : res db :=
  a ← get_account n d;
  let depth := (freezone_MAX_PROXY_RECURSION_DEPTH - left)%nat in
  if decide (proxy a = freezone_PROXY_TO_SELF_ACCOUNT) then
    t ← total_delta (freezone_MAX_PROXY_RECURSION_DEPTH - depth + 1) delta 0;
    adjust_witness_votes n t d
  else
    match left with
    | O => mret d
    | S left' =>
        p ← get_account (proxy a) d;
        l ← add_from (freezone_MAX_PROXY_RECURSION_DEPTH - depth) depth delta (proxied_vsf_votes p);
        adjust_proxied_witness_votes left' (proxy a) delta (put_account (proxy a) (set_proxied l p) d)
    end.

Definition clear_witness_votes (n : name) (d : db) : res db :=
  let d := set_witness_votes (filter (λ p, p.1 ≠ n)) d in
  if has_hardfork freezone_HARDFORK_0_6 d then
    a ← get_account n d;
    mret (put_account n (set_voted_for 0 a) d)
  else mret d.

(** ** account_witness_vote *)

Record account_witness_vote_operation : Type := AccountWitnessVote {
  awv_account : name;
  awv_witness : name;
  awv_approve : bool
}.

Definition account_witness_vote_validate (o : account_witness_vote_operation) : res unit :=
  _ ← validate_account_name (awv_account o);
  validate_account_name (awv_witness o).

(** Before hardfork 2 the votes were added without the virtual-time update. *)
Definition add_votes_plain (w : name) (delta : Z) (d : db) : res db :=
  wit ← get_witness w d;
  v ← safe_add (votes wit) delta;
  mret (set_witnesses <[w := Witness v (virtual_last_update wit) (virtual_position wit) (virtual_scheduled_time wit)]> d).

Definition account_witness_vote_apply (o : account_witness_vote_operation) (d : db) : res db :=
  let n := awv_account o in
  voter ← get_account n d;
  _ ← fc_assert (bool_decide (proxy voter = freezone_PROXY_TO_SELF_ACCOUNT));
  _ ← (if awv_approve o then fc_assert (can_vote voter) else mret tt);
  _ ← get_witness (awv_witness o) d;
  let key := (n, awv_witness o) in
  if decide (key ∉ witness_votes (staking d)) then
    _ ← fc_assert (awv_approve o);
    weight ← witness_vote_weight voter;
    d ← (if has_hardfork freezone_HARDFORK_0_2 d then
           _ ← fc_assert (witnesses_voted_for voter <? freezone_MAX_ACCOUNT_WITNESS_VOTES);
           let d := set_witness_votes (λ s, {[key]} ∪ s) d in
           if has_hardfork freezone_HARDFORK_0_3 d then adjust_witness_vote (awv_witness o) weight d
           else adjust_proxied_witness_votes_one freezone_MAX_PROXY_RECURSION_DEPTH n weight d
         else add_votes_plain (awv_witness o) weight (set_witness_votes (λ s, {[key]} ∪ s) d));
    voter ← get_account n d;
    mret (put_account n (set_voted_for (u16 (witnesses_voted_for voter + 1)) voter) d)
  else
    _ ← fc_assert (negb (awv_approve o));
    weight ← witness_vote_weight voter;
    minus ← safe_neg weight;
    d ← (if has_hardfork freezone_HARDFORK_0_2 d then
           if has_hardfork freezone_HARDFORK_0_3 d then adjust_witness_vote (awv_witness o) minus d
           else adjust_proxied_witness_votes_one freezone_MAX_PROXY_RECURSION_DEPTH n minus d
         else add_votes_plain (awv_witness o) minus d);
    voter ← get_account n d;
    mret (set_witness_votes (λ s, s ∖ {[key]})
            (put_account n (set_voted_for (u16 (witnesses_voted_for voter - 1)) voter) d)).

(** ** account_witness_proxy *)

Record account_witness_proxy_operation : Type := AccountWitnessProxy {
  awp_account : name;
  awp_proxy : name
}.

Definition account_witness_proxy_validate (o : account_witness_proxy_operation) : res unit :=
  _ ← validate_account_name (awp_account o);
  _ ← (if decide (awp_proxy o = freezone_PROXY_TO_SELF_ACCOUNT) then mret tt else validate_account_name (awp_proxy o));
  fc_assert (bool_decide (awp_proxy o ≠ awp_account o)).

(** The walk along the chain of the new proxy.  It stops with an exception
    when it meets an account again or the chain has more than four members,
    so four steps are enough. *)
Fixpoint check_proxy_chain (fuel : nat) (cprox : account) (proxy_chain : gset name) (d : db) : res unit :=
  if decide (proxy cprox = freezone_PROXY_TO_SELF_ACCOUNT) then mret tt
  else
    match fuel with
    | O => Throw fuel_exhausted
    | S fuel =>
        next_proxy ← get_account (proxy cprox) d;
        _ ← fc_assert (bool_decide (proxy cprox ∉ proxy_chain));
        let proxy_chain := {[proxy cprox]} ∪ proxy_chain in
        _ ← fc_assert (bool_decide (size proxy_chain <= freezone_MAX_PROXY_RECURSION_DEPTH)%nat);
        check_proxy_chain fuel next_proxy proxy_chain d
    end.

Fixpoint negate_all (l : list Z) : res (list Z) :=
  match l with
  | [] => mret []
  | x :: l => y ← safe_neg x; l ← negate_all l; mret (y :: l)
  end.

Definition account_witness_proxy_apply (o : account_witness_proxy_operation) (d : db) : res db :=
  let n := awp_account o in
  account ← get_account n d;
  _ ← fc_assert (bool_decide (proxy account ≠ awp_proxy o));
  _ ← fc_assert (can_vote account);
  delta ← negate_all (vesting_shares account :: proxied_vsf_votes account);
  d ← adjust_proxied_witness_votes freezone_MAX_PROXY_RECURSION_DEPTH n delta d;
  if decide (awp_proxy o = freezone_PROXY_TO_SELF_ACCOUNT) then
    account ← get_account n d;
    mret (put_account n (set_proxy (awp_proxy o) account) d)
  else
    new_proxy ← get_account (awp_proxy o) d;
    _ ← check_proxy_chain freezone_MAX_PROXY_RECURSION_DEPTH new_proxy {[n; awp_proxy o]} d;
    d ← clear_witness_votes n d;
    account ← get_account n d;
    let d := put_account n (set_proxy (awp_proxy o) account) d in
    delta ← negate_all delta;
    adjust_proxied_witness_votes freezone_MAX_PROXY_RECURSION_DEPTH n delta d.

(** ** What the votes should be *)

(** Everything an account votes with: its shares and what is proxied to it. *)
Definition voting_power (a : account) : Z := vesting_shares a + zsum (proxied_vsf_votes a).

(** What an account accounts for in the total of votes: all of its power when
    it votes itself; otherwise only what reached the last level of its proxied
    votes, since the rest is counted further along the chain. *)
Definition counted (_ : name) (a : account) : Z :=
  if decide (proxy a = freezone_PROXY_TO_SELF_ACCOUNT) then voting_power a
  else nth (freezone_MAX_PROXY_RECURSION_DEPTH - 1) (proxied_vsf_votes a) 0.

Definition counted_votes (d : db) : Z := msum counted (accounts d).

(** The power behind the votes for a witness. *)
Definition cast (V : gset (name * name)) (w n : name) (a : account) : Z :=
  if decide ((n, w) ∈ V) then voting_power a else 0.

Definition votes_cast (w : name) (d : db) : Z := msum (cast (witness_votes (staking d)) w) (accounts d).

(** The votes recorded for a witness. *)
Definition tally (w : name) (d : db) : Z := from_option votes 0 (witnesses (staking d) !! w).

(** An account that votes through a proxy has no votes of its own. *)
Definition voters_have_no_proxy (d : db) : Prop :=
  ∀ n w a, (n, w) ∈ witness_votes (staking d) → accounts d !! n = Some a → proxy a = freezone_PROXY_TO_SELF_ACCOUNT.

Definition tally_error (w : name) (d : db) : Z := tally w d - votes_cast w d.

(** ** Adjusting the votes of witnesses *)

Lemma adjust_witness_vote_Ok w delta d d' :
  adjust_witness_vote w delta d = Ok d' →
  ∃ x x', witnesses (staking d) !! w = Some x ∧ votes x' = votes x + delta ∧ d' = set_witnesses <[w := x']> d.
Proof.
  unfold adjust_witness_vote. intros H. apply bind_Ok in H as (x & Hx & H). apply from_option_exn_Ok in Hx.
  apply bind_Ok in H as (? & _ & H). apply bind_Ok in H as (v & Hv & H).
  do 2 apply bind_Ok in H as (? & _ & H). injection H as <-. apply safe_add_value in Hv as ->.
  eexists _, _. split_and!; [done| |reflexivity]. done.
Qed.

Lemma adjust_witness_vote_list l delta d d' :
  NoDup l → res_fold (λ d w, adjust_witness_vote w delta d) d l = Ok d' →
  ∃ m, d' = set_witnesses (λ _, m) d ∧ ∀ w, tally w d' = tally w d + if decide (w ∈ l) then delta else 0.
Proof.
  revert d. induction l as [|w0 l IH]; intros d Hn H; simpl in H.
  { injection H as <-. exists (witnesses (staking d)). split; [by destruct d as [??????????? []]|].
    intros w. rewrite decide_False by set_solver. lia. }
  apply bind_Ok in H as (d1 & H1 & H). apply NoDup_cons in Hn as [Hw0 Hn].
  apply adjust_witness_vote_Ok in H1 as (x & x' & Hx & Hv & ->). apply IH in H as (m & -> & Ht); [|done].
  exists m. split; [done|]. intros w. rewrite Ht. unfold tally. simpl. destruct (decide (w = w0)) as [->|Hne].
  - rewrite lookup_insert_eq, Hx. simpl. rewrite decide_False by done. rewrite decide_True by set_solver. lia.
  - rewrite lookup_insert_ne by done. f_equal. apply decide_ext. set_solver.
Qed.

Lemma votes_of_spec n d : NoDup (votes_of n d) ∧ ∀ w, w ∈ votes_of n d ↔ (n, w) ∈ witness_votes (staking d).
Proof.
  unfold votes_of. split.
  - rewrite merge_sort_Permutation. pose proof (NoDup_elements (witness_votes (staking d))) as Hn.
    induction Hn as [|[n' w'] l Hx Hn IH]; simpl; [constructor|]. case_decide; simpl in *; [|done]. subst.
    constructor; [|done]. rewrite list_elem_of_omap. intros ([] & Hin & E). simpl in E. case_decide; [|done].
    simplify_eq. by subst.
  - intros w. rewrite merge_sort_Permutation, list_elem_of_omap. split.
    + intros ([n' w'] & Hin & E). simpl in E. case_decide; [|done]. simplify_eq. subst. by apply elem_of_elements.
    + intros Hin. exists (n, w). rewrite elem_of_elements. split; [done|]. simpl. by rewrite decide_True.
Qed.

Lemma adjust_witness_votes_Ok n delta d d' :
  adjust_witness_votes n delta d = Ok d' →
  ∃ m, d' = set_witnesses (λ _, m) d
    ∧ ∀ w, tally w d' = tally w d + if decide ((n, w) ∈ witness_votes (staking d)) then delta else 0.
Proof.
  destruct (votes_of_spec n d) as [Hn Hw]. intros H.
  apply adjust_witness_vote_list in H as (m & E & Ht); [|done]. exists m. split; [done|].
  intros w. rewrite Ht. f_equal. by apply decide_ext.
Qed.

(** ** Votes along the chain of proxies

    Both overloads walk the chain in the same way: [D k] is the sum of the
    deltas that still fit in [k] levels. *)

Inductive pushed (D : nat → Z) : nat → name → db → db → Prop :=
| pushed_self left n a d d' :
    accounts d !! n = Some a → proxy a = freezone_PROXY_TO_SELF_ACCOUNT →
    adjust_witness_votes n (D (S left)) d = Ok d' → pushed D left n d d'
| pushed_limit n a d :
    accounts d !! n = Some a → proxy a ≠ freezone_PROXY_TO_SELF_ACCOUNT → pushed D O n d d
| pushed_next left n a p l d d' :
    accounts d !! n = Some a → proxy a ≠ freezone_PROXY_TO_SELF_ACCOUNT →
    accounts d !! proxy a = Some p → length l = length (proxied_vsf_votes p) →
    zsum l = zsum (proxied_vsf_votes p) + D (S left) →
    nth (freezone_MAX_PROXY_RECURSION_DEPTH - 1) l 0
      = nth (freezone_MAX_PROXY_RECURSION_DEPTH - 1) (proxied_vsf_votes p) 0 + (D (S left) - D left) →
    pushed D left (proxy a) (put_account (proxy a) (set_proxied l p) d) d' →
    pushed D (S left) n d d'.

Lemma add_at_Ok i x l l' :
  add_at i x l = Ok l' →
  length l' = length l ∧ zsum l' = zsum l + x
  ∧ (∀ j, j ≠ i → nth j l' 0 = nth j l 0) ∧ nth i l' 0 = nth i l 0 + x.
Proof.
  unfold add_at. intros H. apply bind_Ok in H as (y & Hy & H). apply from_option_exn_Ok in Hy.
  apply bind_Ok in H as (z & Hz & H). apply safe_add_value in Hz as ->. injection H as <-.
  split; [apply length_insert|]. revert i Hy. induction l as [|v l IH]; intros [|i] Hy; simplify_eq/=.
  - split_and!; [lia| |done]. by intros [|j].
  - destruct (IH i Hy) as (Hs & Hj & Hi). split_and!; [lia| |done]. intros [|j] Hne; [done|]. apply Hj. congruence.
Qed.

Lemma take_S_zsum (l : list Z) i x : l !! i = Some x → zsum (take (S i) l) = zsum (take i l) + x.
Proof. intros H. rewrite (take_S_r _ _ _ H), zsum_app. cbn. lia. Qed.

Lemma add_from_Ok n depth delta l l' :
  add_from n depth delta l = Ok l' →
  length l' = length l ∧ zsum l' = zsum l + zsum (take n delta)
  ∧ (∀ j, (n + depth <= j)%nat → nth j l' 0 = nth j l 0)
  ∧ ∀ i, n = S i → nth (i + depth) l' 0 = nth (i + depth) l 0 + (zsum (take n delta) - zsum (take i delta)).
Proof.
  revert l. induction n as [|i IH]; intros l H; simpl in H.
  { injection H as <-. rewrite take_0. change (zsum []) with 0. split_and!; [done|lia|done|done]. }
  apply bind_Ok in H as (x & Hx & H). apply from_option_exn_Ok in Hx. apply bind_Ok in H as (l1 & H1 & H).
  apply add_at_Ok in H1 as (L1 & S1 & N1 & X1). apply IH in H as (L2 & S2 & N2 & _).
  rewrite (take_S_zsum delta i x Hx). split_and!; [lia|lia| |].
  - intros j Hj. rewrite N2, N1 by lia. done.
  - intros ? [= <-]. rewrite N2, X1 by lia. lia.
Qed.

Lemma total_delta_Ok n delta acc t : total_delta n delta acc = Ok t → t = acc + zsum (take n delta).
Proof.
  revert acc. induction n as [|i IH]; intros acc H; simpl in H; [injection H as <-; rewrite take_0; cbn; lia|].
  apply bind_Ok in H as (x & Hx & H). apply from_option_exn_Ok in Hx. apply bind_Ok in H as (acc' & H1 & H).
  apply safe_add_value in H1 as ->. apply IH in H as ->. rewrite (take_S_zsum delta i x Hx). lia.
Qed.

Lemma adjust_proxied_pushed left n delta d d' :
  (left <= freezone_MAX_PROXY_RECURSION_DEPTH)%nat → adjust_proxied_witness_votes left n delta d = Ok d' →
  pushed (λ k, zsum (take k delta)) left n d d'.
Proof.
  unfold freezone_MAX_PROXY_RECURSION_DEPTH.
  revert n d. induction left as [|left IH]; intros n d Hl H; cbn [adjust_proxied_witness_votes] in H;
    apply bind_Ok in H as (a & Ha & H); apply from_option_exn_Ok in Ha;
    (case_decide as Ep; [eapply pushed_self; [done..|]; apply bind_Ok in H as (t & ->%total_delta_Ok & H);
      unfold freezone_MAX_PROXY_RECURSION_DEPTH in H; rewrite Z.add_0_l in H;
      refine (eq_trans (f_equal (λ k, adjust_witness_votes n (zsum (take k delta)) d) _) H); lia|]).
  - injection H as <-. by eapply pushed_limit.
  - apply bind_Ok in H as (p & Hp & H). apply from_option_exn_Ok in Hp. apply bind_Ok in H as (l & Hl' & H).
    unfold freezone_MAX_PROXY_RECURSION_DEPTH in Hl'. replace (4 - (4 - S left))%nat with (S left) in Hl' by lia.
    apply add_from_Ok in Hl' as (L & S & _ & N). eapply pushed_next; [done..| |].
    + specialize (N left eq_refl). unfold freezone_MAX_PROXY_RECURSION_DEPTH.
      replace (left + (4 - Datatypes.S left))%nat with (4 - 1)%nat in N by lia. done.
    + apply IH; [lia|done].
Qed.

Lemma adjust_proxied_one_pushed left n delta d d' :
  (left <= freezone_MAX_PROXY_RECURSION_DEPTH)%nat → adjust_proxied_witness_votes_one left n delta d = Ok d' →
  pushed (λ k, match k with O => 0 | S _ => delta end) left n d d'.
Proof.
  unfold freezone_MAX_PROXY_RECURSION_DEPTH.
  revert n d. induction left as [|left IH]; intros n d Hl H; cbn [adjust_proxied_witness_votes_one] in H;
    apply bind_Ok in H as (a & Ha & H); apply from_option_exn_Ok in Ha;
    (case_decide as Ep; [by eapply pushed_self|]).
  - injection H as <-. by eapply pushed_limit.
  - apply bind_Ok in H as (p & Hp & H). apply from_option_exn_Ok in Hp. apply bind_Ok in H as (l & Hl' & H).
    unfold freezone_MAX_PROXY_RECURSION_DEPTH in Hl'. apply add_at_Ok in Hl' as (L & S & N & X).
    eapply pushed_next; [done..| |apply IH; [lia|done]]. unfold freezone_MAX_PROXY_RECURSION_DEPTH.
    destruct left as [|left]; simpl in *; [lia|]. rewrite N by lia. lia.
Qed.

(** What a walk leaves alone: everything but the votes of the witnesses and
    the proxied votes of accounts. *)
Definition only_proxied (m m' : gmap name account) : Prop :=
  ∀ n, match m !! n with
       | None => m' !! n = None
       | Some a => ∃ l, m' !! n = Some (set_proxied l a) ∧ length l = length (proxied_vsf_votes a)
       end.

#[global] Instance only_proxied_refl : Reflexive only_proxied.
Proof. intros m n. destruct (m !! n) as [a|]; [|done]. exists (proxied_vsf_votes a). by destruct a. Qed.

#[global] Instance only_proxied_trans : Transitive only_proxied.
Proof.
  intros m1 m2 m3 H1 H2 n. specialize (H1 n). specialize (H2 n). destruct (m1 !! n) as [a|].
  - destruct H1 as (l & E & Hl). rewrite E in H2. destruct H2 as (l' & E' & Hl'). exists l'. simpl in *.
    split; [done|congruence].
  - by rewrite H1 in H2.
Qed.

Lemma only_proxied_put n p l m :
  m !! n = Some p → length l = length (proxied_vsf_votes p) → only_proxied m (<[n := set_proxied l p]> m).
Proof.
  intros Hp Hl n'. destruct (decide (n' = n)) as [->|].
  - rewrite Hp, lookup_insert_eq. eauto.
  - rewrite lookup_insert_ne by done. apply only_proxied_refl.
Qed.

(** The tables a walk may write. *)
Definition walk_result (d d' : db) : Prop :=
  ∃ m ws, d' = set_accounts (λ _, m) (set_witnesses (λ _, ws) d) ∧ only_proxied (accounts d) m.

Lemma pushed_result D left n d d' : pushed D left n d d' → walk_result d d'.
Proof.
  induction 1 as [left n a d d' Ha Ep H|n a d Ha Ep|left n a p l d d' Ha Ep Hp Hl _ _ H IH].
  - apply adjust_witness_votes_Ok in H as (m & -> & _). exists (accounts d), m. done.
  - exists (accounts d), (witnesses (staking d)). split; [by destruct d as [??????????? []]|done].
  - destruct IH as (m & ws & -> & Hm). exists m, ws. split; [done|].
    etrans; [by apply (only_proxied_put _ _ _ _ Hp Hl)|done].
Qed.

Lemma voters_have_no_proxy_put n p l d :
  accounts d !! n = Some p → voters_have_no_proxy d → voters_have_no_proxy (put_account n (set_proxied l p) d).
Proof.
  intros Hp Hv m w a. simpl. intros Hin. rewrite lookup_insert_Some. intros [[<- <-]|[_ Ha]]; [|by eapply Hv].
  exact (Hv n w p Hin Hp).
Qed.

Lemma votes_cast_put w n a a' d :
  accounts d !! n = Some a →
  votes_cast w (put_account n a' d) = votes_cast w d
    + if decide ((n, w) ∈ witness_votes (staking d)) then voting_power a' - voting_power a else 0.
Proof.
  intros Ha. unfold votes_cast. simpl. rewrite msum_insert. unfold row. rewrite Ha. unfold cast. case_decide; lia.
Qed.

Lemma votes_cast_put_same w n a a' d :
  accounts d !! n = Some a → voting_power a' = voting_power a → votes_cast w (put_account n a' d) = votes_cast w d.
Proof. intros Ha E. rewrite (votes_cast_put w n a) by done. rewrite E. case_decide; lia. Qed.

Lemma counted_votes_put n a a' d :
  accounts d !! n = Some a → counted_votes (put_account n a' d) = counted_votes d + counted n a' - counted n a.
Proof. intros Ha. unfold counted_votes. simpl. rewrite msum_insert. unfold row. rewrite Ha. lia. Qed.

(** The effect of a walk on the total and on the error of each tally. *)
Lemma pushed_spec D left n a d d' :
  D O = 0 → pushed D left n d d' → voters_have_no_proxy d → accounts d !! n = Some a →
  counted_votes d' = counted_votes d
    + (if decide (proxy a = freezone_PROXY_TO_SELF_ACCOUNT) then 0 else D left)
  ∧ ∀ w, tally_error w d' = tally_error w d
    + (if decide ((n, w) ∈ witness_votes (staking d)) then D (S left) else 0).
Proof.
  intros D0 H. revert a. induction H as [left n a d d' Ha Ep H|n a d Ha Ep|left n a p l d d' Ha Ep Hp Hl Hs Hn H IH];
    intros a0 Hv Ha0; assert (a0 = a) as -> by congruence.
  - apply adjust_witness_votes_Ok in H as (m & -> & Ht). rewrite decide_True by done. split; [unfold counted_votes; simpl; lia|].
    intros w. unfold tally_error. rewrite Ht. unfold votes_cast. simpl. lia.
  - rewrite decide_False by done. split; [lia|]. intros w. case_decide as Hin; [|lia]. by apply (Hv _ _ a) in Hin.
  - rewrite decide_False by done.
    destruct (IH (set_proxied l p)) as [Hc He].
    { by apply voters_have_no_proxy_put. }
    { simpl. apply lookup_insert_eq. }
    rewrite (counted_votes_put _ p) in Hc by done. split.
    + rewrite Hc. unfold counted, voting_power, vesting_shares. cbn [set_proxied proxy proxied_vsf_votes stake].
      destruct (decide (proxy p = _)); lia.
    + intros w. rewrite (decide_False (P := (n, w) ∈ _)) by (intros Hin; by apply (Hv _ _ a) in Hin).
      rewrite He. unfold tally_error. rewrite (votes_cast_put _ _ p) by done.
      unfold voting_power, vesting_shares, tally.
      cbn [set_proxied proxied_vsf_votes stake put_account set_accounts staking]. clear He Hc IH. case_decide; lia.
Qed.

(** ** Chains of proxies end *)

Inductive chain_depth (d : db) : name → nat → Prop :=
| depth_end n a :
    accounts d !! n = Some a → proxy a = freezone_PROXY_TO_SELF_ACCOUNT → chain_depth d n O
| depth_next n a k :
    accounts d !! n = Some a → proxy a ≠ freezone_PROXY_TO_SELF_ACCOUNT → chain_depth d (proxy a) k →
    chain_depth d n (S k).

Definition acyclic (d : db) : Prop := ∀ n a, accounts d !! n = Some a → ∃ k, chain_depth d n k.

Lemma chain_depth_det d n k k' : chain_depth d n k → chain_depth d n k' → k = k'.
Proof.
  intros H. revert k'. induction H as [n a Ha Ep|n a k Ha Ep H IH]; intros k'; inversion 1; simplify_eq; [done..|].
  f_equal. by apply IH.
Qed.

Lemma chain_depth_account d n k : chain_depth d n k → is_Some (accounts d !! n).
Proof. inversion 1; eauto. Qed.

(** Chains only depend on who is whose proxy. *)
Definition proxies (d : db) : gmap name name := proxy <$> accounts d.

Lemma proxies_lookup d n a : accounts d !! n = Some a → proxies d !! n = Some (proxy a).
Proof. intros H. unfold proxies. by rewrite lookup_fmap, H. Qed.

Lemma proxies_lookup_Some d n p : proxies d !! n = Some p → ∃ a, accounts d !! n = Some a ∧ proxy a = p.
Proof. unfold proxies. rewrite lookup_fmap, fmap_Some. naive_solver. Qed.

Lemma chain_depth_same d d' n k : proxies d' = proxies d → chain_depth d n k → chain_depth d' n k.
Proof.
  intros E. induction 1 as [n a Ha Ep|n a k Ha Ep H IH]; apply proxies_lookup in Ha; rewrite <- E in Ha;
    apply proxies_lookup_Some in Ha as (a' & Ha & Ea).
  - eapply depth_end; [done|congruence].
  - rewrite <- Ea in *. by eapply depth_next.
Qed.

Lemma acyclic_same d d' : proxies d' = proxies d → acyclic d → acyclic d'.
Proof.
  intros E H n a Ha. apply proxies_lookup in Ha. rewrite E in Ha. apply proxies_lookup_Some in Ha as (b & Hb & _).
  destruct (H n b Hb) as [k Hk]. exists k. by eapply chain_depth_same.
Qed.

Lemma proxies_only_proxied d d' : only_proxied (accounts d) (accounts d') → proxies d' = proxies d.
Proof.
  intros H. apply map_eq. intros n. unfold proxies. rewrite !lookup_fmap. specialize (H n).
  destruct (accounts d !! n) as [a|]; [|by rewrite H]. by destruct H as (l & -> & _).
Qed.

(** A walk writes the accounts after the first of the chain, so an account at
    least as far from the end of its chain is not written. *)
Lemma pushed_above D left n d d' k m j :
  pushed D left n d d' → chain_depth d n k → chain_depth d m j → (k <= j)%nat → accounts d' !! m = accounts d !! m.
Proof.
  intros H. revert k j. induction H as [left n a d d' Ha Ep H|n a d Ha Ep|left n a p l d d' Ha Ep Hp Hl _ _ H IH];
    intros k j Hk Hj Hle.
  - by apply adjust_witness_votes_Ok in H as (ws & -> & _).
  - done.
  - inversion Hk as [|? ? k' Ha' Ep' Hk']; simplify_eq.
    set (d1 := put_account (proxy a) (set_proxied l p) d) in *.
    assert (proxies d1 = proxies d) as E by (by apply proxies_only_proxied, only_proxied_put).
    rewrite (IH k' j) by (try lia; by eapply chain_depth_same). unfold d1. simpl. apply lookup_insert_ne.
    intros <-. pose proof (chain_depth_det _ _ _ _ Hk' Hj). lia.
Qed.

(** ** The invariant *)

(** Four levels of proxied votes per account, votes only from accounts without
    a proxy, and chains of proxies that end. *)
Record votes_shape (d : db) : Prop := VotesShape {
  vs_levels : ∀ n a, accounts d !! n = Some a → length (proxied_vsf_votes a) = freezone_MAX_PROXY_RECURSION_DEPTH;
  vs_voters : voters_have_no_proxy d;
  vs_acyclic : acyclic d
}.

(** Every vesting share is counted once, and each witness has exactly the power
    of the accounts that vote for it.  [k] is 0 except in the middle of a
    payout, when shares were moved that are not yet taken away. *)
Record votes_ok_with (k : Z) (d : db) : Prop := VotesOk {
  vo_shape : votes_shape d;
  vo_total : counted_votes d = total_vesting_shares (gpo d) + k;
  vo_tally : ∀ w, tally_error w d = 0
}.

Abbreviation votes_ok := (votes_ok_with 0).

Lemma levels_only_proxied d d' :
  only_proxied (accounts d) (accounts d') →
  (∀ n a, accounts d !! n = Some a → length (proxied_vsf_votes a) = freezone_MAX_PROXY_RECURSION_DEPTH) →
  ∀ n a, accounts d' !! n = Some a → length (proxied_vsf_votes a) = freezone_MAX_PROXY_RECURSION_DEPTH.
Proof.
  intros H Hl n a' Ha'. specialize (H n). destruct (accounts d !! n) as [a|] eqn:E; [|congruence].
  destruct H as (l & E' & Hlen). rewrite E' in Ha'. injection Ha' as <-. simpl. rewrite Hlen. by eapply Hl.
Qed.

Lemma voters_only_proxied d d' :
  only_proxied (accounts d) (accounts d') → witness_votes (staking d') = witness_votes (staking d) →
  voters_have_no_proxy d → voters_have_no_proxy d'.
Proof.
  intros H E Hv n w a' Hin Ha'. specialize (H n). destruct (accounts d !! n) as [a|] eqn:Ea; [|congruence].
  destruct H as (l & E' & _). rewrite E' in Ha'. injection Ha' as <-. rewrite E in Hin. exact (Hv n w a Hin Ea).
Qed.

Lemma shape_walk d d' : walk_result d d' → votes_shape d → votes_shape d'.
Proof.
  intros (m & ws & -> & Hm) [Hl Hv Hac]. split.
  - by apply (levels_only_proxied d).
  - by apply (voters_only_proxied d).
  - apply (acyclic_same d); [|done]. by apply proxies_only_proxied.
Qed.

Lemma shape_put n a a' d :
  accounts d !! n = Some a → proxy a' = proxy a → length (proxied_vsf_votes a') = length (proxied_vsf_votes a) →
  votes_shape d → votes_shape (put_account n a' d).
Proof.
  intros Ha Ep El [Hl Hv Hac]. split.
  - intros m b. simpl. rewrite lookup_insert_Some. intros [[<- <-]|[_ Hb]]; [rewrite El|]; by eapply Hl.
  - intros m w b. simpl. intros Hin. rewrite lookup_insert_Some. intros [[<- <-]|[_ Hb]]; [rewrite Ep|]; by eapply Hv.
  - apply (acyclic_same d); [|done]. unfold proxies. simpl. rewrite fmap_insert, Ep. apply insert_id.
    by apply proxies_lookup.
Qed.

(** An account's own shares change by [x] and the walk starts from it: the
    invariant is kept, as if everything had been recounted. *)
Lemma votes_ok_walk n k x y a a' d g d' :
  votes_ok_with k d → accounts d !! n = Some a → proxy a' = proxy a → proxied_vsf_votes a' = proxied_vsf_votes a →
  vesting_shares a' = vesting_shares a + x → total_vesting_shares g = total_vesting_shares (gpo d) + y →
  adjust_proxied_witness_votes_one freezone_MAX_PROXY_RECURSION_DEPTH n x (set_gpo g (put_account n a' d)) = Ok d' →
  votes_ok_with (k + x - y) d'.
Proof.
  intros [Hs Ht Hw] Ha Ep Eq Evs Eg H. set (d1 := set_gpo g (put_account n a' d)) in *.
  assert (accounts d1 !! n = Some a') as Ha' by apply lookup_insert_eq.
  apply adjust_proxied_one_pushed in H; [|done]. pose proof (pushed_result _ _ _ _ _ H) as Hr.
  assert (votes_shape d1) as Hs1.
  { destruct (shape_put n a a' d Ha Ep) as [Hl1 Hv1 Hac1]; [congruence|done|]. split; [done..|].
    by apply (acyclic_same (put_account n a' d)). }
  destruct (pushed_spec _ _ _ a' _ _ eq_refl H (vs_voters _ Hs1) Ha') as [Hc He]. clear H.
  change (match freezone_MAX_PROXY_RECURSION_DEPTH with O => 0 | S _ => x end) with x in Hc.
  split; [by eapply shape_walk| |].
  - destruct Hr as (m & ws & -> & _). rewrite Hc. change (counted_votes d1) with (counted_votes (put_account n a' d)).
    rewrite (counted_votes_put n a) by done. cbn [gpo set_accounts set_witnesses set_staking].
    change (gpo d1) with g. unfold counted, voting_power. rewrite Eq, Ep, Evs. destruct (decide (proxy a = _)); lia.
  - intros w. rewrite He. change (tally_error w d1) with (tally_error w (put_account n a' d)).
    specialize (Hw w). unfold tally_error in *. rewrite (votes_cast_put w n a) by done.
    change (tally w (put_account n a' d)) with (tally w d). change (staking d1) with (staking d).
    unfold voting_power. rewrite Eq, Evs. destruct (decide ((n, w) ∈ _)); lia.
Qed.

(** The invariant reads the shares and the proxies of accounts only. *)
Definition voting_view (a : account) : Z * name * list Z := (vesting_shares a, proxy a, proxied_vsf_votes a).

Lemma view_lookup d d' n a' :
  voting_view <$> accounts d' = voting_view <$> accounts d → accounts d' !! n = Some a' →
  ∃ a, accounts d !! n = Some a ∧ voting_view a = voting_view a'.
Proof.
  intros E Ha. assert ((voting_view <$> accounts d') !! n = Some (voting_view a')) as H by (by rewrite lookup_fmap, Ha).
  rewrite E, lookup_fmap, fmap_Some in H. destruct H as (a & ? & ?). eauto.
Qed.

Lemma votes_ok_view k k' d d' :
  voting_view <$> accounts d' = voting_view <$> accounts d →
  witnesses (staking d') = witnesses (staking d) → witness_votes (staking d') = witness_votes (staking d) →
  total_vesting_shares (gpo d') + k' = total_vesting_shares (gpo d) + k → votes_ok_with k d → votes_ok_with k' d'.
Proof.
  intros Ea Ew Ev Et [[Hl Hv Hac] Ht Hw]. split; [split| |].
  - intros n a' Ha. destruct (view_lookup d d' n a' Ea Ha) as (a & Hd & [= _ _ <-]). by eapply Hl.
  - intros n w a' Hin Ha. destruct (view_lookup d d' n a' Ea Ha) as (a & Hd & [= _ <- _]). rewrite Ev in Hin. by eapply Hv.
  - apply (acyclic_same d); [|done]. unfold proxies.
    change proxy with ((λ v : Z * name * list Z, v.1.2) ∘ voting_view). by rewrite !map_fmap_compose, Ea.
  - replace (counted_votes d') with (counted_votes d); [lia|]. symmetry.
    apply (msum_view voting_view counted
      (λ _ v, if decide (v.1.2 = freezone_PROXY_TO_SELF_ACCOUNT) then v.1.1 + zsum v.2 else nth (freezone_MAX_PROXY_RECURSION_DEPTH - 1) v.2 0));
      [done|exact Ea].
  - intros w. rewrite <- (Hw w). unfold tally_error, tally, votes_cast. rewrite Ew, Ev. f_equal.
    apply (msum_view voting_view _
      (λ n v, if decide ((n, w) ∈ witness_votes (staking d)) then v.1.1 + zsum v.2 else 0)); [done|exact Ea].
Qed.

Lemma view_put n a a' d :
  accounts d !! n = Some a → voting_view a' = voting_view a →
  voting_view <$> accounts (put_account n a' d) = voting_view <$> accounts d.
Proof.
  intros Ha E. simpl. rewrite fmap_insert, E. apply insert_id. by rewrite lookup_fmap, Ha.
Qed.

(** ** account_witness_proxy keeps the invariant *)

Lemma negate_all_Ok l l' : negate_all l = Ok l' → l' = Z.opp <$> l.
Proof.
  revert l'. induction l as [|x l IH]; simpl; intros l' H; [by injection H as <-|].
  apply bind_Ok in H as (y & ->%safe_neg_value & H). apply bind_Ok in H as (l1 & ->%IH & H). by injection H as <-.
Qed.

Lemma zsum_opp l : zsum (Z.opp <$> l) = - zsum l.
Proof. induction l as [|x l IH]; cbn in *; [done|]. change (zsum (Z.opp <$> l) = - zsum l) in IH. lia. Qed.

(** The deltas that reach the proxies: all but the last level. *)
Definition carried (a : account) : Z := voting_power a - nth (freezone_MAX_PROXY_RECURSION_DEPTH - 1) (proxied_vsf_votes a) 0.

Lemma power_levels a :
  length (proxied_vsf_votes a) = freezone_MAX_PROXY_RECURSION_DEPTH →
  zsum (take 5 (vesting_shares a :: proxied_vsf_votes a)) = voting_power a
  ∧ zsum (take 4 (vesting_shares a :: proxied_vsf_votes a)) = carried a.
Proof.
  unfold freezone_MAX_PROXY_RECURSION_DEPTH, carried, voting_power. intros H.
  destruct (proxied_vsf_votes a) as [|q0 [|q1 [|q2 [|q3 []]]]]; try done. cbn. lia.
Qed.

(** The chain check passed: without [n] on the way, the chain of the new proxy
    ends. *)
Lemma check_proxy_chain_Ok fuel m c chain d :
  check_proxy_chain fuel c chain d = Ok tt → accounts d !! m = Some c → m ∈ chain →
  ∀ n d', n ∈ chain → m ≠ n → (∀ k, k ≠ n → proxies d' !! k = proxies d !! k) → ∃ k, chain_depth d' m k.
Proof.
  revert m c chain. induction fuel as [|fuel IH]; intros m c chain H Hc Hm n d' Hn Hne E; simpl in H;
    pose proof (proxies_lookup _ _ _ Hc) as Hp; rewrite <- (E m Hne) in Hp;
    apply proxies_lookup_Some in Hp as (c' & Hc' & Ec);
    (case_decide as Es; [exists O; eapply depth_end; [done|congruence]|]); [done|].
  apply bind_Ok in H as (p & Hp & H). apply from_option_exn_Ok in Hp.
  apply bind_Ok in H as (? & Hnew & H). apply fc_assert_Ok, bool_decide_eq_true in Hnew.
  apply bind_Ok in H as (? & _ & H).
  destruct (IH (proxy c) p _ H Hp ltac:(set_solver) n d' ltac:(set_solver)) as [k Hk]; [set_solver|done|].
  exists (S k). rewrite <- Ec in *. by eapply depth_next.
Qed.

(** Four steps are enough for the check. *)
Lemma check_proxy_chain_fuel fuel c chain d :
  (size chain <= freezone_MAX_PROXY_RECURSION_DEPTH < fuel + size chain)%nat →
  check_proxy_chain fuel c chain d ≠ Throw fuel_exhausted.
Proof.
  unfold freezone_MAX_PROXY_RECURSION_DEPTH.
  revert c chain. induction fuel as [|fuel IH]; intros c chain Hs; cbn [check_proxy_chain];
    (destruct (decide (proxy c = _)); [done|]); [lia|].
  unfold get_account. destruct (accounts d !! proxy c) as [p|]; [cbn [from_option_exn mbind res_bind]|discriminate].
  destruct (bool_decide (proxy c ∉ chain)) eqn:Hnew; [cbn [fc_assert mbind res_bind]|discriminate].
  destruct (bool_decide (size ({[proxy c]} ∪ chain) <= _)%nat) eqn:Hle; [cbn [fc_assert mbind res_bind]|discriminate].
  bools. apply IH. split; [done|].
  rewrite size_union, size_singleton by set_solver. lia.
Qed.

(** Setting the proxy of [n]. *)
Lemma proxies_put n p a d :
  accounts d !! n = Some a → proxies (put_account n (set_proxy p a) d) = <[n := p]> (proxies d).
Proof. intros _. unfold proxies. simpl. by rewrite fmap_insert. Qed.

Lemma acyclic_put n p d d' k :
  acyclic d → proxies d' = <[n := p]> (proxies d) → chain_depth d' n k → acyclic d'.
Proof.
  intros Hac E Hn m a' Ha'. destruct (decide (m = n)) as [->|Hne]; [eauto|].
  pose proof (proxies_lookup _ _ _ Ha') as Hp. rewrite E, lookup_insert_ne in Hp by done.
  apply proxies_lookup_Some in Hp as (a & Ha & _). destruct (Hac m a Ha) as [j Hj]. clear a a' Ha Ha'.
  induction Hj as [m a Ha Ep|m a j Ha Ep Hj IH]; apply proxies_lookup in Ha as Hp;
    rewrite <- (lookup_insert_ne (proxies d) n m p), <- E in Hp by done;
    apply proxies_lookup_Some in Hp as (b & Hb & Eb).
  - exists O. eapply depth_end; [done|congruence].
  - rewrite <- Eb in *. destruct (decide (proxy b = n)) as [Hpn|Hpn].
    + exists (S k). eapply depth_next; [done..|]. by rewrite Hpn.
    + destruct (IH Hpn) as [i Hi]. exists (S i). by eapply depth_next.
Qed.

Lemma clear_witness_votes_Ok n a d d' :
  accounts d !! n = Some a → clear_witness_votes n d = Ok d' →
  ∃ v, d' = put_account n (set_voted_for v a) (set_witness_votes (filter (λ p, p.1 ≠ n)) d).
Proof.
  unfold clear_witness_votes. intros Ha H. case_match.
  - unfold get_account in H. simpl in H. rewrite Ha in H. injection H as <-. eauto.
  - injection H as <-. exists (witnesses_voted_for a). unfold put_account, set_accounts. simpl.
    replace (<[n:=_]> (accounts d)) with (accounts d); [done|].
    symmetry. rewrite insert_id; [done|]. rewrite Ha. by destruct a.
Qed.

(** Removing the votes of [n] and changing its proxy and vote counter. *)
Lemma votes_cast_clear w n a a' d :
  accounts d !! n = Some a →
  votes_cast w (put_account n a' (set_witness_votes (filter (λ p, p.1 ≠ n)) d))
  = votes_cast w d - if decide ((n, w) ∈ witness_votes (staking d)) then voting_power a else 0.
Proof.
  intros Ha. unfold votes_cast. simpl. rewrite msum_insert. unfold row. rewrite Ha.
  set (V := witness_votes (staking d)). set (V' := filter _ V).
  assert (∀ b, cast V' w n b = 0) as Hz.
  { intros b. unfold cast. rewrite decide_False; [done|]. unfold V'. rewrite elem_of_filter. naive_solver. }
  rewrite (msum_change (cast V w) (cast V' w) _ n a Ha), !Hz.
  - unfold cast. destruct (decide ((n, w) ∈ V)); lia.
  - intros m b Hm. unfold cast. apply decide_ext. unfold V'. rewrite elem_of_filter. naive_solver.
Qed.

(** The account of [n] after the walk that takes its power away. *)
Lemma walk_keeps_start D left n a d d' :
  votes_shape d → accounts d !! n = Some a → pushed D left n d d' → accounts d' !! n = Some a.
Proof.
  intros Hs Ha H. destruct (vs_acyclic d Hs n a Ha) as [k Hk]. rewrite <- Ha.
  by eapply pushed_above.
Qed.

Lemma votes_ok_unproxy n a d d1 :
  votes_ok d → accounts d !! n = Some a → proxy a ≠ freezone_PROXY_TO_SELF_ACCOUNT →
  adjust_proxied_witness_votes freezone_MAX_PROXY_RECURSION_DEPTH n
    (Z.opp <$> (vesting_shares a :: proxied_vsf_votes a)) d = Ok d1 →
  votes_ok (put_account n (set_proxy freezone_PROXY_TO_SELF_ACCOUNT a) d1).
Proof.
  intros [Hs Ht Hw] Ha Ep H. apply adjust_proxied_pushed in H; [|done].
  pose proof (walk_keeps_start _ _ _ _ _ _ Hs Ha H) as Ha1. pose proof (pushed_result _ _ _ _ _ H) as Hr.
  destruct (pushed_spec _ _ _ a _ _ eq_refl H (vs_voters _ Hs) Ha) as [Hc He]. rewrite decide_False in Hc by done.
  destruct (power_levels a (vs_levels _ Hs n a Ha)) as [_ E4].
  rewrite <- fmap_take, zsum_opp in Hc. unfold freezone_MAX_PROXY_RECURSION_DEPTH in Hc. rewrite E4 in Hc.
  pose proof (shape_walk _ _ Hr Hs) as Hs1. destruct Hr as (m & ws & E1 & Hm).
  set (d2 := put_account n (set_proxy _ a) d1). split; [split| |].
  - intros k b. simpl. rewrite lookup_insert_Some. intros [[<- <-]|[_ Hb]];
      [exact (vs_levels _ Hs1 n a Ha1)|by eapply (vs_levels _ Hs1)].
  - intros k w b. simpl. intros Hin. rewrite lookup_insert_Some. intros [[<- <-]|[_ Hb]]; [done|].
    by eapply (vs_voters _ Hs1).
  - eapply acyclic_put; [exact (vs_acyclic _ Hs1)|by apply (proxies_put n _ a)|].
    eapply depth_end; [apply lookup_insert_eq|done].
  - unfold d2. rewrite (counted_votes_put n a) by done. rewrite Hc.
    replace (gpo (put_account n (set_proxy freezone_PROXY_TO_SELF_ACCOUNT a) d1)) with (gpo d) by (by rewrite E1).
    rewrite <- Ht. unfold counted, carried. rewrite decide_True by done. rewrite decide_False by done.
    change (voting_power (set_proxy freezone_PROXY_TO_SELF_ACCOUNT a)) with (voting_power a). lia.
  - intros w. assert ((n, w) ∉ witness_votes (staking d)) as Hn by (intros Hin; by apply (vs_voters _ Hs _ _ a) in Hin).
    specialize (He w). rewrite decide_False in He by done. rewrite <- (Hw w).
    unfold tally_error in *. unfold d2. rewrite (votes_cast_put_same w n a) by done.
    change (tally w (put_account n (set_proxy freezone_PROXY_TO_SELF_ACCOUNT a) d1)) with (tally w d1). lia.
Qed.

Lemma votes_ok_new_proxy n p v a d d1 d' :
  votes_ok d → accounts d !! n = Some a → p ≠ n → p ≠ freezone_PROXY_TO_SELF_ACCOUNT →
  adjust_proxied_witness_votes freezone_MAX_PROXY_RECURSION_DEPTH n
    (Z.opp <$> (vesting_shares a :: proxied_vsf_votes a)) d = Ok d1 →
  ∀ c, accounts d1 !! p = Some c → check_proxy_chain freezone_MAX_PROXY_RECURSION_DEPTH c {[n; p]} d1 = Ok tt →
  adjust_proxied_witness_votes freezone_MAX_PROXY_RECURSION_DEPTH n (vesting_shares a :: proxied_vsf_votes a)
    (put_account n (set_proxy p (set_voted_for v a)) (set_witness_votes (filter (λ x, x.1 ≠ n)) d1)) = Ok d' →
  votes_ok d'.
Proof.
  intros [Hs Ht Hw] Ha Hpn Hps H c Hp Hchk H'. apply adjust_proxied_pushed in H, H'; [|done..].
  pose proof (walk_keeps_start _ _ _ _ _ _ Hs Ha H) as Ha1. pose proof (pushed_result _ _ _ _ _ H) as Hr.
  destruct (pushed_spec _ _ _ a _ _ eq_refl H (vs_voters _ Hs) Ha) as [Hc He].
  destruct (power_levels a (vs_levels _ Hs n a Ha)) as [E5 E4].
  rewrite <- fmap_take, zsum_opp in Hc.
  pose proof (shape_walk _ _ Hr Hs) as Hs1. destruct Hr as (m & ws & E1 & Hm).
  set (a2 := set_proxy p (set_voted_for v a)) in *.
  set (d2 := put_account n a2 _) in *.
  assert (accounts d2 !! n = Some a2) as Ha2 by apply lookup_insert_eq.
  assert (proxies d2 = <[n := p]> (proxies d1)) as Ep2 by (unfold proxies; simpl; by rewrite fmap_insert).
  assert (votes_shape d2) as Hs2.
  { split.
    - intros k b. simpl. rewrite lookup_insert_Some. intros [[<- <-]|[_ Hb]];
        [exact (vs_levels _ Hs1 n a Ha1)|by eapply (vs_levels _ Hs1)].
    - intros k w b. simpl. rewrite elem_of_filter, lookup_insert_Some. simpl. intros [Hkn Hin] [[<- _]|[_ Hb]]; [done|].
      by eapply (vs_voters _ Hs1).
    - destruct (check_proxy_chain_Ok _ p c _ d1 Hchk Hp ltac:(set_solver) n d2 ltac:(set_solver) Hpn) as [k Hk].
      { intros k Hk. rewrite Ep2. by apply lookup_insert_ne. }
      eapply acyclic_put; [exact (vs_acyclic _ Hs1)|exact Ep2|]. by apply (depth_next d2 n a2 k). }
  destruct (pushed_spec _ _ _ a2 _ _ eq_refl H' (vs_voters _ Hs2) Ha2) as [Hc' He'].
  pose proof (pushed_result _ _ _ _ _ H') as Hr'. split; [by eapply shape_walk| |].
  - destruct Hr' as (m' & ws' & E' & _). rewrite Hc'.
    replace (gpo d') with (gpo d) by (rewrite E'; unfold d2; by rewrite E1). rewrite <- Ht.
    change (counted_votes d2) with (counted_votes (put_account n a2 d1)).
    rewrite (counted_votes_put n a) by done. rewrite Hc.
    unfold freezone_MAX_PROXY_RECURSION_DEPTH. rewrite E4.
    unfold counted. rewrite !(decide_False (P := proxy a2 = _)) by done. unfold carried.
    change (proxied_vsf_votes a2) with (proxied_vsf_votes a).
    change (proxy a2) with p. destruct (decide (proxy a = _)); lia.
  - intros w. rewrite He'. rewrite decide_False.
    2: { simpl. rewrite elem_of_filter. naive_solver. }
    specialize (He w). specialize (Hw w). unfold freezone_MAX_PROXY_RECURSION_DEPTH in He.
    cbv beta in He. rewrite <- fmap_take, zsum_opp, E5 in He.
    unfold tally_error in *. unfold d2. rewrite (votes_cast_clear w n a) by done.
    replace (witness_votes (staking d1)) with (witness_votes (staking d)) by (by rewrite E1).
    change (tally w (put_account n a2 (set_witness_votes (filter (λ x, x.1 ≠ n)) d1))) with (tally w d1).
    destruct (decide ((n, w) ∈ _)); lia.
Qed.

Lemma opp_opp_list (l : list Z) : Z.opp <$> (Z.opp <$> l) = l.
Proof. induction l as [|x l IH]; cbn in *; [done|]. rewrite IH. f_equal. lia. Qed.

Lemma votes_ok_proxy o d d' :
  votes_ok d → account_witness_proxy_validate o = Ok tt → account_witness_proxy_apply o d = Ok d' → votes_ok d'.
Proof.
  intros Hok Hval H. unfold account_witness_proxy_validate in Hval.
  do 2 apply bind_Ok in Hval as (? & _ & Hval). apply fc_assert_Ok, bool_decide_eq_true in Hval.
  unfold account_witness_proxy_apply in H. apply bind_Ok in H as (a & Ha & H). apply from_option_exn_Ok in Ha.
  apply bind_Ok in H as (? & Hne & H). apply fc_assert_Ok, bool_decide_eq_true in Hne.
  apply bind_Ok in H as (? & _ & H). apply bind_Ok in H as (delta & ->%negate_all_Ok & H).
  apply bind_Ok in H as (d1 & H1 & H).
  assert (accounts d1 !! awp_account o = Some a) as Ha1.
  { eapply walk_keeps_start; [apply Hok|done|]. by apply adjust_proxied_pushed in H1. }
  destruct (decide (awp_proxy o = freezone_PROXY_TO_SELF_ACCOUNT)) as [Es|Es].
  - apply bind_Ok in H as (a1 & E & H). apply from_option_exn_Ok in E. assert (a1 = a) as -> by congruence.
    injection H as <-. rewrite Es in *. by apply (votes_ok_unproxy _ a d).
  - apply bind_Ok in H as (c & Hc & H). apply from_option_exn_Ok in Hc. apply bind_Ok in H as ([] & Hchk & H).
    apply bind_Ok in H as (d2 & H2 & H). apply (clear_witness_votes_Ok _ a) in H2 as (v & ->); [|done].
    apply bind_Ok in H as (a2 & E & H). apply from_option_exn_Ok in E. simpl in E. rewrite lookup_insert_eq in E.
    injection E as <-. apply bind_Ok in H as (delta & ->%negate_all_Ok & H). rewrite opp_opp_list in H.
    eapply (votes_ok_new_proxy _ _ v a d d1); [done..|].
    revert H. unfold put_account, set_accounts. simpl. by rewrite insert_insert_eq.
Qed.

(** ** account_witness_vote keeps the invariant *)

Lemma voting_power_weight a w : witness_vote_weight a = Ok w → w = voting_power a.
Proof. apply checked_list. Qed.

(** A vote added or removed. *)
Lemma votes_cast_set (w n w0 : name) (a : account) (V : gset (name * name)) d :
  accounts d !! n = Some a → (∀ p, p ≠ (n, w0) → p ∈ V ↔ p ∈ witness_votes (staking d)) →
  votes_cast w (set_witness_votes (λ _, V) d)
  = votes_cast w d
    + (if decide (w = w0) then
         (if decide ((n, w0) ∈ V) then voting_power a else 0)
         - (if decide ((n, w0) ∈ witness_votes (staking d)) then voting_power a else 0)
       else 0).
Proof.
  intros Ha HV. unfold votes_cast. simpl. set (V0 := witness_votes (staking d)) in *.
  rewrite (msum_change (cast V0 w) (cast V w) _ n a Ha).
  - unfold cast. destruct (decide (w = w0)) as [->|Hw]; [lia|].
    rewrite (decide_ext ((n, w) ∈ V) ((n, w) ∈ V0)) by (apply HV; congruence). lia.
  - intros m b Hm. unfold cast. apply decide_ext. symmetry. apply HV. congruence.
Qed.

Lemma votes_ok_set_vote (n w0 : name) (a : account) (V : gset (name * name)) x x' c d :
  votes_ok d → accounts d !! n = Some a → proxy a = freezone_PROXY_TO_SELF_ACCOUNT →
  (∀ p, p ≠ (n, w0) → p ∈ V ↔ p ∈ witness_votes (staking d)) →
  witnesses (staking d) !! w0 = Some x →
  votes x' = votes x + (if decide ((n, w0) ∈ V) then voting_power a else 0)
                     - (if decide ((n, w0) ∈ witness_votes (staking d)) then voting_power a else 0) →
  votes_ok (put_account n (set_voted_for c a) (set_witnesses <[w0 := x']> (set_witness_votes (λ _, V) d))).
Proof.
  intros [[Hl Hv Hac] Ht Hw] Ha Ep HV Hx Ex'. split.
  - apply (shape_put n a); [done..|]. split; [done| |by apply (acyclic_same d)].
    intros m w b. cbn. intros Hin Hb. destruct (decide ((m, w) = (n, w0))) as [E|E]; [congruence|].
    apply (HV _ E) in Hin. by eapply Hv.
  - rewrite (counted_votes_put n a) by done. change (counted n (set_voted_for c a)) with (counted n a).
    cbn. rewrite <- Ht. unfold counted_votes. cbn. lia.
  - intros w. unfold tally_error. rewrite (votes_cast_put_same w n a) by done.
    change (votes_cast w (set_witnesses <[w0:=x']> (set_witness_votes (λ _, V) d)))
      with (votes_cast w (set_witness_votes (λ _, V) d)).
    rewrite (votes_cast_set w n w0 a) by done. specialize (Hw w). unfold tally_error, tally in *. cbn.
    destruct (decide (w = w0)) as [->|Hne].
    + rewrite lookup_insert_eq. rewrite Hx in Hw. cbn in *. lia.
    + rewrite lookup_insert_ne by done. lia.
Qed.

Lemma votes_ok_vote o d d' :
  votes_ok d → has_hardfork freezone_HARDFORK_0_3 d = true → account_witness_vote_apply o d = Ok d' → votes_ok d'.
Proof.
  intros Hok Hh3 H.
  assert (has_hardfork freezone_HARDFORK_0_2 d = true) as Hh2.
  { unfold has_hardfork, freezone_HARDFORK_0_2, freezone_HARDFORK_0_3 in *. bools. apply Z.ltb_lt. lia. }
  unfold account_witness_vote_apply in H. apply bind_Ok in H as (a & Ha & H). apply from_option_exn_Ok in Ha.
  apply bind_Ok in H as (? & Ep & H). apply fc_assert_Ok, bool_decide_eq_true in Ep.
  do 2 apply bind_Ok in H as (? & _ & H).
  case_decide as Hin.
  - apply bind_Ok in H as (? & _ & H). apply bind_Ok in H as (wt & ->%voting_power_weight & H).
    rewrite Hh2 in H. apply bind_Ok in H as (d1 & H1 & H). apply bind_Ok in H1 as (? & _ & H1).
    change (has_hardfork _ (set_witness_votes _ _)) with (has_hardfork freezone_HARDFORK_0_3 d) in H1. rewrite Hh3 in H1.
    apply adjust_witness_vote_Ok in H1 as (y & y' & Hx & Ex & ->).
    apply bind_Ok in H as (b & Hb & H). apply from_option_exn_Ok in Hb.
    assert (b = a) as -> by (cbn in Hb; congruence). injection H as <-.
    apply (votes_ok_set_vote _ _ a ({[(awv_account o, awv_witness o)]} ∪ witness_votes (staking d)) y y'); try done.
    + set_solver.
    + rewrite decide_True, decide_False by set_solver. lia.
  - apply bind_Ok in H as (? & _ & H). apply bind_Ok in H as (wt & ->%voting_power_weight & H).
    apply bind_Ok in H as (mi & ->%safe_neg_value & H). rewrite Hh2, Hh3 in H. apply bind_Ok in H as (d1 & H1 & H).
    apply adjust_witness_vote_Ok in H1 as (y & y' & Hx & Ex & ->).
    apply bind_Ok in H as (b & Hb & H). apply from_option_exn_Ok in Hb.
    assert (b = a) as -> by (cbn in Hb; congruence). injection H as <-.
    apply (votes_ok_set_vote _ _ a (witness_votes (staking d) ∖ {[(awv_account o, awv_witness o)]}) y y'); try done.
    + set_solver.
    + rewrite decide_False by set_solver. rewrite decide_True by done. lia.
Qed.
