(* ===== verification/Vesting.v ===== *)
(** * Powering up and down

    chain/include/steem/chain/vesting.hpp ([create_vesting2]), the share prices
    of global_property_object.hpp and smt_token_object.hpp, the evaluators of
    transfer_to_vesting, withdraw_vesting and set_withdraw_vesting_route
    (steem_evaluator.cpp), and [process_vesting_withdrawals] (database.cpp).

    Liquid tokens are exchanged for shares of the vesting fund at the ratio of
    the fund and the shares; a withdrawal is paid out weekly, optionally to
    other accounts and as shares. *)

From S2P Require Import Prelude Config AccountName Uint128 SafeInt AssetSymbol Asset Manabar MapSum State Ledger Votes.
From stdpp Require Import gmap strings sorting.
#[local] Open Scope Z_scope.

(** ** The price of a share *)

Definition get_vesting_share_price (g : global_properties) : res price :=
  if (total_vesting_fund_freezone g =? 0) || (total_vesting_shares g =? 0) then
    make_price (Asset 1000 freezone_SYMBOL) (Asset 1000000 VESTS_SYMBOL)
  else make_price (Asset (total_vesting_shares g) VESTS_SYMBOL) (Asset (total_vesting_fund_freezone g) freezone_SYMBOL).

Definition get_reward_vesting_share_price (g : global_properties) : res price :=
  shares ← safe_add (total_vesting_shares g) (pending_rewarded_vesting_shares g);
  fund ← safe_add (total_vesting_fund_freezone g) (pending_rewarded_vesting_freezone g);
  make_price (Asset shares VESTS_SYMBOL) (Asset fund freezone_SYMBOL).

(** [s] is the liquid symbol of the token.  A symbol has at most 12 decimals,
    so the power fits. *)
Definition initial_vesting_share_price (s : Z) : res price :=
  let one_SST := 10 ^ decimals s in
  make_price (Asset (i64 (one_SST * SST_INITIAL_VESTING_PER_UNIT)) (get_paired_symbol s)) (Asset one_SST s).

Definition token_vesting_share_price (s : Z) (t : sst_token) : res price :=
  if (tk_fund_ballast t =? 0) || (tk_shares_ballast t =? 0) then initial_vesting_share_price s
  else
    shares ← safe_add (tk_shares_ballast t) (tk_vesting_shares t);
    fund ← safe_add (tk_fund_ballast t) (tk_vesting_fund t);
    make_price (Asset shares (get_paired_symbol s)) (Asset fund s).

Definition token_reward_vesting_share_price (s : Z) (t : sst_token) : res price :=
  if (tk_fund_ballast t =? 0) || (tk_shares_ballast t =? 0) then initial_vesting_share_price s
  else
    shares ← safe_add (tk_shares_ballast t) (tk_vesting_shares t);
    shares ← safe_add shares (tk_pending_shares t);
    fund ← safe_add (tk_fund_ballast t) (tk_vesting_fund t);
    fund ← safe_add fund (tk_pending_value t);
    make_price (Asset shares (get_paired_symbol s)) (Asset fund s).

(** ** create_vesting *)

(** [update_manabar] on the stake of an account, from hardfork 20 on. *)
Definition refresh_mana (regeneration_seconds new_mana : Z) (d : db) (s : mana_account) : res mana_account :=
  if has_hardfork freezone_HARDFORK_0_20 d then
    update_manabar (now d) (downvote_pool_percent (gpo d)) s regeneration_seconds
      (has_hardfork freezone_HARDFORK_0_21 d) new_mana
  else mret s.

(** The pools of a token after shares were created from liquid tokens. *)
Definition add_token_vesting (liquid new_vesting : Z) (to_reward_balance : bool) (t : sst_token) : res sst_token :=
  if to_reward_balance then
    p ← safe_add (tk_pending_shares t) new_vesting;
    v ← safe_add (tk_pending_value t) liquid;
    mret (set_tk_vesting (tk_vesting_fund t) (tk_vesting_shares t) p v t)
  else
    f ← safe_add (tk_vesting_fund t) liquid;
    s ← safe_add (tk_vesting_shares t) new_vesting;
    mret (set_tk_vesting f s (tk_pending_shares t) (tk_pending_value t) t).

Definition add_global_vesting (liquid new_vesting : Z) (to_reward_balance : bool) (g : global_properties)
    : res global_properties :=
  if to_reward_balance then
    p ← safe_add (pending_rewarded_vesting_shares g) new_vesting;
    v ← safe_add (pending_rewarded_vesting_freezone g) liquid;
    mret (set_vesting (total_vesting_fund_freezone g) (total_vesting_shares g) p v g)
  else
    f ← safe_add (total_vesting_fund_freezone g) liquid;
    s ← safe_add (total_vesting_shares g) new_vesting;
    mret (set_vesting f s (pending_rewarded_vesting_shares g) (pending_rewarded_vesting_freezone g) g).

Definition create_vesting_SST (to_account : name) (liquid : asset) (to_reward_balance : bool) (d : db)
    : res (asset * db) :=
  _ ← fc_assert (negb (is_vesting (symbol liquid)));
  if decide (to_account = freezone_NULL_ACCOUNT) then
    nl ← asset_neg liquid;
    d ← adjust_supply nl false d;
    mret (Asset 0 (get_paired_symbol (symbol liquid)), d)
  else
    token ← from_option_exn out_of_range (sst_tokens d !! symbol liquid);
    _ ← (if to_reward_balance then fc_assert (allow_voting token) else mret tt);
    p ← (if to_reward_balance then token_reward_vesting_share_price (symbol liquid) token
         else token_vesting_share_price (symbol liquid) token);
    new_vesting ← asset_mul_price liquid p;
    d ← (if to_reward_balance then adjust_reward_balance to_account liquid new_vesting false d
         else adjust_balance to_account new_vesting d);
    token ← from_option_exn out_of_range (sst_tokens d !! symbol liquid);
    token ← add_token_vesting (amount liquid) (amount new_vesting) to_reward_balance token;
    mret (new_vesting, set_sst_tokens <[symbol liquid := token]> d).

Definition create_vesting (to_account : name) (liquid : asset) (to_reward_balance : bool) (d : db) : res (asset * db) :=
  match space (symbol liquid) with
  | SST_nai_space => create_vesting_SST to_account liquid to_reward_balance d
  | legacy_space =>
      _ ← fc_assert (symbol liquid =? freezone_SYMBOL);
      p ← (if to_reward_balance then get_reward_vesting_share_price (gpo d) else get_vesting_share_price (gpo d));
      new_vesting ← asset_mul_price liquid p;
      d ← (if to_reward_balance then adjust_reward_balance to_account liquid new_vesting false d
           else
             a ← get_account to_account d;
             s ← refresh_mana freezone_VOTING_MANA_REGENERATION_SECONDS (amount new_vesting) d (stake a);
             adjust_balance to_account new_vesting (put_account to_account (set_stake s a) d));
      g ← add_global_vesting (amount liquid) (amount new_vesting) to_reward_balance (gpo d);
      let d := set_gpo g d in
      d ← (if to_reward_balance then mret d
           else adjust_proxied_witness_votes_one freezone_MAX_PROXY_RECURSION_DEPTH to_account (amount new_vesting) d);
      mret (new_vesting, d)
  end.

(** ** transfer_to_vesting *)

Record transfer_to_vesting_operation : Type := TransferToVesting {
  ttv_from : name;
  ttv_to : name;
  ttv_amount : asset
}.

Definition transfer_to_vesting_validate (o : transfer_to_vesting_operation) : res unit :=
  _ ← validate_account_name (ttv_from o);
  _ ← fc_assert ((symbol (ttv_amount o) =? freezone_SYMBOL)
                 || match space (symbol (ttv_amount o)) with
                    | SST_nai_space => negb (is_vesting (symbol (ttv_amount o)))
                    | legacy_space => false
                    end);
  _ ← (if decide (ttv_to o = "") then mret tt else validate_account_name (ttv_to o));
  fc_assert (0 <? amount (ttv_amount o)).

Definition transfer_to_vesting_apply (o : transfer_to_vesting_operation) (d : db) : res db :=
  _ ← get_account (ttv_from o) d;
  let to := if decide (ttv_to o = "") then ttv_from o else ttv_to o in
  _ ← get_account to d;
  _ ← (if has_hardfork freezone_HARDFORK_0_21 d then
         fc_assert ((symbol (ttv_amount o) =? SBD_SYMBOL) || negb (bool_decide (ttv_to o = freezone_TREASURY_ACCOUNT)))
       else mret tt);
  minus ← asset_neg (ttv_amount o);
  d ← adjust_balance (ttv_from o) minus d;
  '(_, d) ← create_vesting to (ttv_amount o) false d;
  mret d.

(** ** withdraw_vesting *)

Record withdraw_vesting_operation : Type := WithdrawVesting {
  wv_account : name;
  wv_vesting_shares : asset
}.

Definition withdraw_vesting_validate (o : withdraw_vesting_operation) : res unit :=
  _ ← validate_account_name (wv_account o);
  fc_assert (is_vesting (symbol (wv_vesting_shares o))).

Definition set_withdrawal (rate next to_withdraw withdrawn : Z) (m : mana_account) : mana_account :=
  ManaAccount (ma_vesting_shares m) (ma_received_vesting_shares m) (ma_delegated_vesting_shares m) next rate
    to_withdraw withdrawn (voting_manabar m) (downvote_manabar m).

(** The weekly rate: an [intervals]-th part, at least 1, rounded up when
    [round_up]. *)
Definition withdraw_rate (shares intervals : Z) (round_up : bool) : res Z :=
  rate ← safe_div shares intervals;
  let rate := if rate =? 0 then 1 else rate in
  if round_up then
    total ← safe_mul rate intervals;
    if total <? shares then safe_add rate 1 else mret rate
  else mret rate.

(** A change of the withdrawal of a stake: the cancellation of the current one,
    or a new one.  [must_change] guards against setting what is set. *)
Definition start_withdrawal (shares intervals interval_seconds : Z) (round_up must_change : bool) (d : db)
    (m : mana_account) : res mana_account :=
  if shares =? 0 then
    _ ← (if must_change then fc_assert (negb (ma_vesting_withdraw_rate m =? 0)) else mret tt);
    mret (set_withdrawal 0 time_point_sec_maximum 0 0 m)
  else
    rate ← withdraw_rate shares intervals round_up;
    _ ← (if must_change then fc_assert (negb (ma_vesting_withdraw_rate m =? rate)) else mret tt);
    mret (set_withdrawal rate (u32 (now d + interval_seconds)) shares 0 m).

Definition withdraw_vesting_apply (o : withdraw_vesting_operation) (d : db) : res db :=
  account ← get_account (wv_account o) d;
  let shares := wv_vesting_shares o in
  if amount shares <? 0 then
    _ ← fc_assert (negb (has_hardfork freezone_HARDFORK_0_20 d));
    mret d
  else
    match space (symbol shares) with
    | SST_nai_space =>
        _ ← fc_assert (has_hardfork freezone_SST_HARDFORK d);
        _ ← fc_assert (is_vesting (symbol shares));
        let key := (wv_account o, get_paired_symbol (symbol shares)) in
        match regular_balances d !! key with
        | None => Throw assert_exception
        | Some bal_obj =>
            free ← safe_sub (rb_vesting_shares bal_obj) (ma_delegated_vesting_shares (rb_stake bal_obj));
            _ ← fc_assert (amount shares <=? free);
            s ← start_withdrawal (amount shares) freezone_VESTING_WITHDRAW_INTERVALS
                  SST_VESTING_WITHDRAW_INTERVAL_SECONDS true true d (rb_stake bal_obj);
            mret (set_regular_balances (λ _, <[key := RegularBalance (liquid bal_obj) s]> (regular_balances d)) d)
        end
    | legacy_space =>
        _ ← fc_assert (symbol shares =? VESTS_SYMBOL);
        _ ← fc_assert (0 <=? vesting_shares account);
        free ← safe_sub (vesting_shares account) (ma_delegated_vesting_shares (stake account));
        _ ← fc_assert (amount shares <=? free);
        let intervals := if has_hardfork freezone_HARDFORK_0_16 d then freezone_VESTING_WITHDRAW_INTERVALS
                         else freezone_VESTING_WITHDRAW_INTERVALS_PRE_HF_16 in
        s ← start_withdrawal (amount shares) intervals freezone_VESTING_WITHDRAW_INTERVAL_SECONDS
              (has_hardfork freezone_HARDFORK_0_21 d) (has_hardfork freezone_HARDFORK_0_5 d) d (stake account);
        mret (put_account (wv_account o) (set_stake s account) d)
    end.

(** ** set_withdraw_vesting_route *)

Record set_withdraw_vesting_route_operation : Type := SetWithdrawVestingRoute {
  sr_from_account : name;
  sr_to_account : name;
  sr_percent : Z;     (* uint16_t *)
  sr_auto_vest : bool
}.

Definition set_withdraw_vesting_route_validate (o : set_withdraw_vesting_route_operation) : res unit :=
  _ ← validate_account_name (sr_from_account o);
  _ ← validate_account_name (sr_to_account o);
  fc_assert ((0 <=? sr_percent o) && (sr_percent o <=? freezone_100_PERCENT)).

(** The routes of an account, in the order of the index [by_withdraw_route]. *)
Definition route_le (x y : name * withdraw_route) : Prop := name_le x.1 y.1.
#[global] Instance route_le_dec x y : Decision (route_le x y) := name_le_dec _ _.

Definition routes_of (n : name) (d : db) : list (name * withdraw_route) :=
  merge_sort route_le
    (omap (λ x, if decide (x.1.1 = n) then Some (x.1.2, x.2) else None) (map_to_list (routes (staking d)))).

(** [uint16_t total_percent] *)
Definition total_percent (n : name) (d : db) : Z := foldl (λ t x, u16 (t + percent x.2)) 0 (routes_of n d).

Definition set_withdraw_vesting_route_apply (o : set_withdraw_vesting_route_operation) (d : db) : res db :=
  let n := sr_from_account o in
  from_account ← get_account n d;
  _ ← get_account (sr_to_account o) d;
  let key := (n, sr_to_account o) in
  let route := WithdrawRoute (sr_percent o) (sr_auto_vest o) in
  _ ← (if has_hardfork freezone_HARDFORK_0_21 d then
         fc_assert (negb (bool_decide (sr_to_account o = freezone_TREASURY_ACCOUNT)))
       else mret tt);
  d ← match routes (staking d) !! key with
      | None =>
          _ ← fc_assert (negb (sr_percent o =? 0));
          _ ← fc_assert (withdraw_routes from_account <? freezone_MAX_WITHDRAW_ROUTES);
          mret (put_account n (set_withdraw_routes (u16 (withdraw_routes from_account + 1)) from_account)
                  (set_routes <[key := route]> d))
      | Some _ =>
          if sr_percent o =? 0 then
            mret (put_account n (set_withdraw_routes (u16 (withdraw_routes from_account - 1)) from_account)
                    (set_routes (delete key) d))
          else mret (set_routes <[key := route]> d)
      end;
  _ ← fc_assert (total_percent n d <=? freezone_100_PERCENT);
  mret d.

(** ** process_vesting_withdrawals *)

(** Rows of an ordered index, by key: the first one, and the one after [x]. *)
Section Cursor.

Context {K : Type} (before : K → K → bool).

Definition first_row (l : list K) : option K :=
  foldr (λ x acc, match acc with Some y => if before y x then Some y else Some x | None => Some x end) None l.

Definition next_row (x : K) (l : list K) : option K := first_row (List.filter (before x) l).

End Cursor.

Definition name_lt (x y : name) : bool := String.ltb x y.

(** The key of by_next_vesting_withdrawal for a token balance. *)
Definition token_row : Type := Z * (name * Z).
Definition token_row_before (x y : token_row) : bool :=
  (x.1 <? y.1) || ((x.1 =? y.1)
    && (name_lt x.2.1 y.2.1 || (bool_decide (x.2.1 = y.2.1) && (x.2.2 <? y.2.2)))).
Definition token_rows (d : db) : list token_row :=
  (λ x, (ma_next_vesting_withdrawal (rb_stake x.2), x.1)) <$> map_to_list (regular_balances d).

(** The shares of this week: the rate, or the remainder in the last week. *)
Definition withdraw_portion (m : mana_account) : res Z :=
  left ← safe_sub (ma_to_withdraw m) (ma_withdrawn m);
  if left <? ma_vesting_withdraw_rate m then
    r ← safe_mod (ma_to_withdraw m) (ma_vesting_withdraw_rate m);
    mret (Z.min (ma_vesting_shares m) r)
  else mret (Z.min (ma_vesting_shares m) (ma_vesting_withdraw_rate m)).

(** The writes of the payout: the shares, the liquid balance [balance], and the
    schedule of the next payout. *)
Definition pay_withdrawal (to_withdraw converted interval_seconds balance : Z) (m : mana_account) : res (Z * mana_account) :=
  v ← safe_sub (ma_vesting_shares m) to_withdraw;
  balance ← safe_add balance converted;
  withdrawn ← safe_add (ma_withdrawn m) to_withdraw;
  let m := set_ma_vesting v m in
  mret (balance,
    if (ma_to_withdraw m <=? withdrawn) || (v =? 0) then
      set_withdrawal 0 time_point_sec_maximum (ma_to_withdraw m) withdrawn m
    else
      set_withdrawal (ma_vesting_withdraw_rate m) (u32 (ma_next_vesting_withdrawal m + interval_seconds))
        (ma_to_withdraw m) withdrawn m).

Definition withdraw_token (key : name * Z) (b : regular_balance) (d : db) : res db :=
  let s := key.2 in
  token ← from_option_exn out_of_range (sst_tokens d !! s);
  to_withdraw ← withdraw_portion (rb_stake b);
  p ← token_vesting_share_price s token;
  converted ← asset_mul_price (Asset to_withdraw (get_paired_symbol s)) p;
  _ ← fc_assert (symbol converted =? s);
  '(l, m) ← pay_withdrawal to_withdraw (amount converted) SST_VESTING_WITHDRAW_INTERVAL_SECONDS (liquid b) (rb_stake b);
  fund ← safe_sub (tk_vesting_fund token) (amount converted);
  shares ← safe_sub (tk_vesting_shares token) to_withdraw;
  mret (set_sst_tokens <[s := set_tk_vesting fund shares (tk_pending_shares token) (tk_pending_value token) token]>
          (set_regular_balances (λ _, <[key := RegularBalance l m]> (regular_balances d)) d)).

(** The loop over token balances advances its iterator after the row was
    written: the row has moved to its new place in the index by then. *)
Fixpoint withdraw_tokens (fuel : nat) (iter : option token_row) (d : db) : res db :=
  match iter with
  | None => mret d
  | Some x =>
      if x.1 <=? now d then
        match fuel with
        | O => Throw fuel_exhausted
        | S fuel =>
            b ← from_option_exn out_of_range (regular_balances d !! x.2);
            d ← withdraw_token x.2 b d;
            b ← from_option_exn out_of_range (regular_balances d !! x.2);
            withdraw_tokens fuel
              (next_row token_row_before (ma_next_vesting_withdrawal (rb_stake b), x.2) (token_rows d)) d
        end
      else mret d
  end.

(** [( fc::uint128_t( to_withdraw ) * percent / 100% ).to_uint64()], stored in a
    [share_type]. *)
Definition route_share (to_withdraw percent : Z) : res Z :=
  x ← mul_assign (uint128_of_i64 to_withdraw) (uint128_of_i64 percent);
  x ← div_assign x (uint128_of_i64 freezone_100_PERCENT);
  r ← to_uint64 x;
  mret (i64 r).

(** First pass: routes that receive shares.  The accumulator is
    [vests_deposited_as_vests]. *)
Definition deposit_vests (to_withdraw : Z) (acc : Z * db) (r : name * withdraw_route) : res (Z * db) :=
  let '(deposited, d) := acc in
  if auto_vest r.2 then
    to_deposit ← route_share to_withdraw (percent r.2);
    deposited ← safe_add deposited to_deposit;
    if 0 <? to_deposit then
      to_account ← get_account r.1 d;
      v ← safe_add (vesting_shares to_account) to_deposit;
      d ← adjust_proxied_witness_votes_one freezone_MAX_PROXY_RECURSION_DEPTH r.1 to_deposit
            (put_account r.1 (set_vesting_shares v to_account) d);
      mret (deposited, d)
    else mret (deposited, d)
  else mret (deposited, d).

(** Second pass: routes that receive freezone. *)
Definition deposit_freezone (to_withdraw : Z) (acc : Z * Z * db) (r : name * withdraw_route) : res (Z * Z * db) :=
  let '(deposited, total_converted, d) := acc in
  if auto_vest r.2 then mret (deposited, total_converted, d)
  else
    to_account ← get_account r.1 d;
    to_deposit ← route_share to_withdraw (percent r.2);
    deposited ← safe_add deposited to_deposit;
    p ← get_vesting_share_price (gpo d);
    converted ← asset_mul_price (Asset to_deposit VESTS_SYMBOL) p;
    total ← asset_add (Asset total_converted freezone_SYMBOL) converted;
    if 0 <? to_deposit then
      b ← safe_add (balance to_account) (amount converted);
      let d := put_account r.1 (set_balance b to_account) d in
      fund ← safe_sub (total_vesting_fund_freezone (gpo d)) (amount converted);
      shares ← safe_sub (total_vesting_shares (gpo d)) to_deposit;
      mret (deposited, amount total,
            set_gpo (set_vesting fund shares (pending_rewarded_vesting_shares (gpo d))
                       (pending_rewarded_vesting_freezone (gpo d)) (gpo d)) d)
    else mret (deposited, amount total, d).

(** One account. *)
Definition withdraw_account (n : name) (d : db) : res db :=
  from_account ← get_account n d;
  to_withdraw ← withdraw_portion (stake from_account);
  '(as_vests, d) ← res_fold (deposit_vests to_withdraw) (0, d) (routes_of n d);
  '(as_freezone, _, d) ← res_fold (deposit_freezone to_withdraw) (0, 0, d) (routes_of n d);
  x ← safe_sub to_withdraw as_freezone;
  to_convert ← safe_sub x as_vests;
  _ ← fc_assert (0 <=? to_convert);
  p ← get_vesting_share_price (gpo d);
  converted ← asset_mul_price (Asset to_convert VESTS_SYMBOL) p;
  _ ← fc_assert (symbol converted =? freezone_SYMBOL);
  from_account ← get_account n d;
  '(b, m) ← pay_withdrawal to_withdraw (amount converted) freezone_VESTING_WITHDRAW_INTERVAL_SECONDS
              (balance from_account) (stake from_account);
  let d := put_account n (set_stake m (set_balance b from_account)) d in
  fund ← safe_sub (total_vesting_fund_freezone (gpo d)) (amount converted);
  shares ← safe_sub (total_vesting_shares (gpo d)) to_convert;
  let d := set_gpo (set_vesting fund shares (pending_rewarded_vesting_shares (gpo d))
                      (pending_rewarded_vesting_freezone (gpo d)) (gpo d)) d in
  if 0 <? to_withdraw then
    minus ← safe_neg to_withdraw;
    adjust_proxied_witness_votes_one freezone_MAX_PROXY_RECURSION_DEPTH n minus d
  else mret d.

Definition account_row : Type := Z * name.
Definition account_row_before (x y : account_row) : bool := (x.1 <? y.1) || ((x.1 =? y.1) && name_lt x.2 y.2).
Definition account_rows (d : db) : list account_row :=
  (λ x, (ma_next_vesting_withdrawal (stake x.2), x.1)) <$> map_to_list (accounts d).

(** The loop over accounts advances its iterator before the row is written;
    the iterator then keeps pointing at the account it reached. *)
Fixpoint withdraw_accounts (fuel : nat) (current : option name) (d : db) : res db :=
  match current with
  | None => mret d
  | Some n =>
      a ← get_account n d;
      let next := ma_next_vesting_withdrawal (stake a) in
      if next <=? now d then
        match fuel with
        | O => Throw fuel_exhausted
        | S fuel =>
            let current := snd <$> next_row account_row_before (next, n) (account_rows d) in
            d ← withdraw_account n d;
            withdraw_accounts fuel current d
        end
      else mret d
  end.

(** The number of payouts that are due: enough fuel for the loops. *)
Definition payouts_due (interval now next : Z) : Z := if next <=? now then 1 + (now - next) / interval else 0.
Definition due_accounts (d : db) : Z :=
  msum (λ _ a, payouts_due freezone_VESTING_WITHDRAW_INTERVAL_SECONDS (now d) (ma_next_vesting_withdrawal (stake a)))
    (accounts d).

Definition due_tokens (d : db) : Z :=
  msum (λ _ b, payouts_due SST_VESTING_WITHDRAW_INTERVAL_SECONDS (now d) (ma_next_vesting_withdrawal (rb_stake b)))
    (regular_balances d).

Definition process_vesting_withdrawals (d : db) : res db :=
  d ← withdraw_tokens (S (Z.to_nat (due_tokens d))) (first_row token_row_before (token_rows d)) d;
  withdraw_accounts (S (Z.to_nat (due_accounts d))) (snd <$> first_row account_row_before (account_rows d)) d.

(** ** Shares are exchanged, not created: the effect on [gap] *)

Lemma gap_walk s d d' : walk_result d d' → gap s d' = gap s d.
Proof.
  intros (m & ws & -> & Hm). unfold_gap.
  rewrite (msum_view (set_proxied []) (account_held s) (account_held s) (accounts d) m); [done|done|].
  apply map_eq. intros n. rewrite !lookup_fmap. specialize (Hm n). destruct (accounts d !! n) as [a|].
  - by destruct Hm as (l & -> & _).
  - by rewrite Hm.
Qed.

Lemma gap_push_one s n x d d' :
  adjust_proxied_witness_votes_one freezone_MAX_PROXY_RECURSION_DEPTH n x d = Ok d' → gap s d' = gap s d.
Proof. intros H. by eapply gap_walk, pushed_result, adjust_proxied_one_pushed. Qed.

Lemma gap_set_vesting s fund shares pshares pvalue d :
  gap s (set_gpo (set_vesting fund shares pshares pvalue (gpo d)) d)
  = gap s d
    + amount_of s (Asset (fund - total_vesting_fund_freezone (gpo d)
                          + (pvalue - pending_rewarded_vesting_freezone (gpo d))) freezone_SYMBOL)
    - amount_of s (Asset (shares - total_vesting_shares (gpo d)
                          + (pshares - pending_rewarded_vesting_shares (gpo d))) VESTS_SYMBOL).
Proof.
  unfold amount_of. unfold_gap. cbn [symbol amount].
  destruct symbol_facts as (? & ? & ?). rewrite (Z.eqb_sym freezone_SYMBOL s), (Z.eqb_sym VESTS_SYMBOL s).
  destruct (Z.eqb_spec s freezone_SYMBOL) as [->|].
  { rewrite (proj2 (Z.eqb_neq freezone_SYMBOL VESTS_SYMBOL)) by done. lia. }
  destruct (Z.eqb_spec s SBD_SYMBOL) as [->|].
  { rewrite (proj2 (Z.eqb_neq SBD_SYMBOL VESTS_SYMBOL)) by done. lia. }
  destruct (Z.eqb_spec s VESTS_SYMBOL); lia.
Qed.

Lemma asset_mul_price_symbol a p r :
  asset_mul_price a p = Ok r →
  (symbol a = symbol (base p) ∧ symbol r = symbol (quote p)) ∨ (symbol a = symbol (quote p) ∧ symbol r = symbol (base p)).
Proof.
  unfold asset_mul_price. intros H. destruct (Z.eqb_spec (symbol a) (symbol (base p))).
  - apply bind_Ok in H as (? & _ & H). injection H as <-. by left.
  - destruct (Z.eqb_spec (symbol a) (symbol (quote p))); [|done].
    apply bind_Ok in H as (? & _ & H). injection H as <-. by right.
Qed.

Lemma make_price_Ok b q p : make_price b q = Ok p → p = Price b q.
Proof. unfold make_price. intros H. apply bind_Ok in H as (? & _ & H). by injection H as <-. Qed.

Lemma share_price_symbols (r : bool) g p :
  (if r then get_reward_vesting_share_price g else get_vesting_share_price g) = Ok p →
  (symbol (base p) = freezone_SYMBOL ∧ symbol (quote p) = VESTS_SYMBOL)
  ∨ (symbol (base p) = VESTS_SYMBOL ∧ symbol (quote p) = freezone_SYMBOL).
Proof.
  unfold get_reward_vesting_share_price, get_vesting_share_price. intros H. destruct r.
  - do 2 apply bind_Ok in H as (? & _ & H). apply make_price_Ok in H as ->. by right.
  - case_match; apply make_price_Ok in H as ->; [by left|by right].
Qed.

(** freezone is exchanged for VESTS and VESTS for freezone. *)
Lemma exchange_symbol (r : bool) g p x y :
  (if r then get_reward_vesting_share_price g else get_vesting_share_price g) = Ok p → asset_mul_price x p = Ok y →
  (symbol x = freezone_SYMBOL → symbol y = VESTS_SYMBOL) ∧ (symbol x = VESTS_SYMBOL → symbol y = freezone_SYMBOL).
Proof.
  intros Hp%share_price_symbols Hy%asset_mul_price_symbol. destruct symbol_facts as (_ & Hne & _).
  destruct Hp as [[E1 E2]|[E1 E2]], Hy as [[F1 F2]|[F1 F2]]; rewrite E1, E2 in *; rewrite F1, F2;
    split; intros E; try done; exfalso; by apply Hne.
Qed.

(** *** Tokens *)

(** Tokens are kept under their liquid symbol, and its pair is no legacy symbol. *)
Definition token_symbol (k : Z) : Prop :=
  space k = SST_nai_space ∧ is_vesting k = false ∧ space (get_paired_symbol k) = SST_nai_space.
Definition tokens_wf (d : db) : Prop := ∀ k t, sst_tokens d !! k = Some t → token_symbol k.

Lemma paired_SST k : space k = SST_nai_space → get_paired_symbol k = Z.lxor k VESTING_MASK.
Proof. intros H. unfold get_paired_symbol. by rewrite H. Qed.

Lemma paired_twice k :
  space k = SST_nai_space → space (get_paired_symbol k) = SST_nai_space → get_paired_symbol (get_paired_symbol k) = k.
Proof. intros H1 H2. by rewrite (paired_SST _ H2), (paired_SST _ H1), Z.lxor_assoc, Z.lxor_nilpotent, Z.lxor_0_r. Qed.

Lemma vesting_bit k : (Z.land k VESTING_MASK =? 0) = negb (Z.testbit k 5).
Proof.
  change VESTING_MASK with (2 ^ 5). destruct (Z.testbit k 5) eqn:E.
  - apply Z.eqb_neq. intros H. assert (Z.testbit (Z.land k (2 ^ 5)) 5 = true) as Hb.
    { by rewrite Z.land_spec, E, Z.pow2_bits_true. }
    by rewrite H in Hb.
  - apply Z.eqb_eq, Z.bits_inj'. intros i Hi. rewrite Z.land_spec, Z.bits_0. destruct (decide (i = 5)) as [->|Hne].
    + by rewrite E.
    + rewrite Z.pow2_bits_false by done. apply andb_false_r.
Qed.

Lemma paired_vesting k : token_symbol k → is_vesting (get_paired_symbol k) = true ∧ liquid_symbol (get_paired_symbol k) = k.
Proof.
  intros (Hs & Hv & Hp).
  assert (is_vesting (get_paired_symbol k) = true) as E.
  { revert Hv. unfold is_vesting. rewrite Hs, Hp, (paired_SST _ Hs), !vesting_bit, !negb_involutive.
    intros Hb. change VESTING_MASK with (2 ^ 5). by rewrite Z.lxor_spec, Hb, Z.pow2_bits_true. }
  split; [done|]. unfold liquid_symbol. rewrite E. by apply paired_twice.
Qed.

(** The pools of a token change. *)
Lemma gap_token_vesting s k t f sh p v d :
  tokens_wf d → sst_tokens d !! k = Some t →
  gap s (set_sst_tokens <[k := set_tk_vesting f sh p v t]> d)
  = gap s d + amount_of s (Asset (f - tk_vesting_fund t + (v - tk_pending_value t)) k)
    - amount_of s (Asset (sh - tk_vesting_shares t + (p - tk_pending_shares t)) (get_paired_symbol k)).
Proof.
  intros Hwf Hk. destruct (Hwf _ _ Hk) as (Hs & Hv & Hp). destruct (paired_vesting k) as [Hpv Hpl]; [done|].
  rewrite (gap_put_token _ _ t) by done. unfold token_held, sst_change, amount_of.
  cbn [symbol amount set_tk_vesting tk_current_supply tk_vesting_fund tk_vesting_shares tk_pending_shares
       tk_pending_value tk_reward_balance mm_freezone_balance mm_token_balance].
  destruct (space s) eqn:Es.
  { rewrite (proj2 (Z.eqb_neq k s)), (proj2 (Z.eqb_neq (get_paired_symbol k) s)) by congruence.
    destruct (s =? freezone_SYMBOL); lia. }
  rewrite (proj2 (Z.eqb_neq s freezone_SYMBOL)) by (intros ->; done).
  destruct (Z.eqb_spec k s) as [->|Hne].
  { rewrite (proj2 (Z.eqb_neq (get_paired_symbol s) s)) by (intros E; rewrite E in Hpv; congruence). lia. }
  destruct (Z.eqb_spec (get_paired_symbol k) s) as [<-|Hne'].
  - rewrite Hpl, Z.eqb_refl. rewrite bool_decide_eq_true_2; [cbn [andb]; lia|].
    destruct (sst_tokens d !! get_paired_symbol k) as [t'|] eqn:E; [|done].
    destruct (Hwf _ _ E) as (_ & E' & _). congruence.
  - destruct (Z.eqb_spec (liquid_symbol s) k) as [El|]; [|cbn [andb]; lia]. exfalso. unfold liquid_symbol in El.
    destruct (is_vesting s); [|done]. apply Hne'. rewrite <- El. apply paired_twice; [done|]. by rewrite El.
Qed.

Lemma tokens_wf_dom d d' : dom (sst_tokens d') = dom (sst_tokens d) → tokens_wf d → tokens_wf d'.
Proof.
  intros E H k t Hk. apply elem_of_dom_2 in Hk. rewrite E in Hk. apply elem_of_dom in Hk as [t' Ht']. by eapply H.
Qed.


Lemma token_price_symbols (r : bool) k t p :
  (if r then token_reward_vesting_share_price k t else token_vesting_share_price k t) = Ok p →
  symbol (base p) = get_paired_symbol k ∧ symbol (quote p) = k.
Proof.
  unfold token_reward_vesting_share_price, token_vesting_share_price, initial_vesting_share_price. intros H.
  destruct r; (destruct (_ || _); [by apply make_price_Ok in H as ->|]);
    repeat first [apply make_price_Ok in H as -> | apply bind_Ok in H as (? & _ & H)]; done.
Qed.

Lemma token_exchange_symbol (r : bool) k t p x y :
  token_symbol k → (if r then token_reward_vesting_share_price k t else token_vesting_share_price k t) = Ok p →
  asset_mul_price x p = Ok y → (symbol x = k → symbol y = get_paired_symbol k) ∧ (symbol x = get_paired_symbol k → symbol y = k).
Proof.
  intros Hk [Hb Hq]%token_price_symbols Hy%asset_mul_price_symbol. destruct (paired_vesting k Hk) as [Hpv _].
  destruct Hk as (_ & Hv & _). rewrite Hb, Hq in Hy.
  assert (get_paired_symbol k ≠ k) as Hne by (intros E; rewrite E in Hpv; congruence).
  destruct Hy as [[E1 E2]|[E1 E2]]; rewrite E1, E2; split; intros E; congruence.
Qed.

Lemma gap_create_vesting_SST s n liquid r d nv d' :
  tokens_wf d → space (symbol liquid) = SST_nai_space → (r = true → amount nv ≠ 0 ∧ amount liquid ≠ 0) →
  create_vesting_SST n liquid r d = Ok (nv, d') → gap s d' = gap s d + amount_of s liquid.
Proof.
  intros Hwf Hsp Hr H. unfold create_vesting_SST in H. apply bind_Ok in H as (? & _ & H). case_decide as Hn.
  { apply bind_Ok in H as (nl & Hnl & H). apply bind_Ok in H as (d1 & H1 & H). injection H as <- <-.
    apply (gap_adjust_supply s) in H1. apply (amount_of_neg s) in Hnl. lia. }
  apply bind_Ok in H as (t0 & Ht0 & H). apply from_option_exn_Ok in Ht0. pose proof (Hwf _ _ Ht0) as Hk.
  apply bind_Ok in H as (? & _ & H). apply bind_Ok in H as (p & Hp & H). apply bind_Ok in H as (nv' & Hnv & H).
  apply bind_Ok in H as (d1 & H1 & H). apply bind_Ok in H as (t & Ht & H). apply from_option_exn_Ok in Ht.
  apply bind_Ok in H as (t' & Ht' & H). injection H as -> <-.
  destruct (token_exchange_symbol r _ t0 p liquid nv Hk Hp Hnv) as [Es _]. specialize (Es eq_refl).
  assert (same_tables d d1 ∧ gap s d1 = gap s d + amount_of s nv) as [Hst Hg].
  { destruct r.
    - destruct (Hr eq_refl) as [Hn0 Hl0]. split; [by eapply same_tables_adjust_reward_balance|].
      apply (gap_adjust_reward_balance s) in H1; [by rewrite (proj2 (Z.eqb_neq _ _) Hn0) in H1|congruence|done|].
      intros _ _. rewrite Es. split; [apply Hk|done].
    - split; [by eapply same_tables_adjust_balance|by apply (gap_adjust_balance s) in H1]. }
  assert (tokens_wf d1) as Hwf1 by (eapply tokens_wf_dom; [apply Hst|done]).
  rewrite <- (amount_of_eta s nv _ Es) in Hg. rewrite <- (amount_of_eta s liquid (symbol liquid)) by done.
  unfold add_token_vesting in Ht'. destruct r; do 2 apply bind_Ok in Ht' as (? & ?%safe_add_value & Ht');
    injection Ht' as <-; subst; rewrite gap_token_vesting, Hg by done; unfold amount_of; cbn [symbol amount];
    repeat (destruct (_ =? s)); lia.
Qed.

Lemma gap_create_vesting s n liquid r d nv d' :
  tokens_wf d → (r = true → amount nv ≠ 0 ∧ amount liquid ≠ 0) →
  create_vesting n liquid r d = Ok (nv, d') → gap s d' = gap s d + amount_of s liquid.
Proof.
  intros Hwf Hr H. unfold create_vesting in H. destruct (space (symbol liquid)) eqn:Hsp; [|by eapply gap_create_vesting_SST].
  apply bind_Ok in H as (? & Ef%fc_assert_Ok & H). apply Z.eqb_eq in Ef.
  apply bind_Ok in H as (p & Hp & H). apply bind_Ok in H as (nv' & Hnv & H). apply bind_Ok in H as (d1 & H1 & H).
  apply bind_Ok in H as (g & Hgl & H). apply bind_Ok in H as (d2 & H2 & H). injection H as -> <-.
  destruct (exchange_symbol r _ p liquid nv Hp Hnv) as [Es _]. specialize (Es Ef).
  assert (gap s d1 = gap s d + amount_of s nv) as Hg.
  { destruct r.
    - destruct (Hr eq_refl) as [Hn0 _].
      apply (gap_adjust_reward_balance s) in H1; [by rewrite (proj2 (Z.eqb_neq _ _) Hn0) in H1|done|congruence..].
    - apply bind_Ok in H1 as (a & Ha & H1). apply from_option_exn_Ok in Ha. apply bind_Ok in H1 as (st & Hst & H1).
      apply (gap_adjust_balance s) in H1. rewrite H1, (gap_put_account _ _ a) by done.
      enough (account_held s n (set_stake st a) = account_held s n a) by lia.
      assert (ma_vesting_shares st = ma_vesting_shares (stake a)) as E; [|unfold account_held, vesting_shares; cbn; by rewrite E].
      unfold refresh_mana in Hst. case_match; [|by injection Hst as <-]. unfold update_manabar in Hst.
      repeat frame_step; done. }
  assert (gap s d2 = gap s (set_gpo g d1)) as ->.
  { destruct r; [by injection H2 as <-|by eapply gap_push_one]. }
  rewrite <- (amount_of_eta s nv _ Es) in Hg. rewrite <- (amount_of_eta s liquid _ Ef).
  unfold add_global_vesting in Hgl. destruct r; do 2 apply bind_Ok in Hgl as (? & ?%safe_add_value & Hgl);
    injection Hgl as <-; subst; rewrite gap_set_vesting, Hg; unfold amount_of; cbn [symbol amount];
    repeat (destruct (_ =? s)); lia.
Qed.

(** ** What vesting leaves alone *)

Record ledger_frame (d d' : db) : Prop := {
  lf_orders : orders d' = orders d;
  lf_escrows : escrows d' = escrows d;
  lf_converts : converts d' = converts d;
  lf_withdraws : withdraws d' = withdraws d;
  lf_token_keys : dom (sst_tokens d') = dom (sst_tokens d);
  lf_now : now d' = now d;
  lf_median : current_median_history d' = current_median_history d;
  lf_hardforks : processed_hardforks d' = processed_hardforks d
}.

#[global] Instance ledger_frame_refl : Reflexive ledger_frame.
Proof. by split. Qed.
#[global] Instance ledger_frame_trans : Transitive ledger_frame.
Proof. intros d1 d2 d3 [] []. split; congruence. Qed.

Lemma frame_same_tables d d' : same_tables d d' → ledger_frame d d'.
Proof. intros []. by split. Qed.
Lemma frame_put_account n a d : ledger_frame d (put_account n a d).
Proof. by split. Qed.
Lemma frame_set_vesting f s p v d : ledger_frame d (set_gpo (set_vesting f s p v (gpo d)) d).
Proof. by split. Qed.
Lemma frame_regular f d : ledger_frame d (set_regular_balances f d).
Proof. by split. Qed.
Lemma frame_rewards f d : ledger_frame d (set_rewards_balances f d).
Proof. by split. Qed.
Lemma frame_staking f d : ledger_frame d (set_staking f d).
Proof. by split. Qed.
Lemma frame_next_id i d : ledger_frame d (set_next_id i d).
Proof. by split. Qed.
Lemma frame_token k t t' d : sst_tokens d !! k = Some t → ledger_frame d (set_sst_tokens <[k := t']> d).
Proof. intros. by eapply frame_same_tables, same_tables_sst. Qed.
Lemma frame_walk d d' : walk_result d d' → ledger_frame d d'.
Proof. intros (m & ws & -> & _). by split. Qed.
Lemma frame_push_one n x d d' :
  adjust_proxied_witness_votes_one freezone_MAX_PROXY_RECURSION_DEPTH n x d = Ok d' → ledger_frame d d'.
Proof. intros H. by eapply frame_walk, pushed_result, adjust_proxied_one_pushed. Qed.

#[export] Hint Resolve frame_put_account frame_set_vesting frame_regular frame_rewards frame_staking frame_next_id
  frame_token frame_push_one : freezone.

Lemma frame_adjust_balance n delta d d' : adjust_balance n delta d = Ok d' → ledger_frame d d'.
Proof. intros. by eapply frame_same_tables, same_tables_adjust_balance. Qed.
Lemma frame_adjust_reward_balance n vd sd b d d' : adjust_reward_balance n vd sd b d = Ok d' → ledger_frame d d'.
Proof. intros. by eapply frame_same_tables, same_tables_adjust_reward_balance. Qed.
Lemma frame_adjust_supply delta v d d' : adjust_supply delta v d = Ok d' → ledger_frame d d'.
Proof. intros. by eapply frame_same_tables, same_tables_adjust_supply. Qed.

#[export] Hint Resolve frame_adjust_balance frame_adjust_reward_balance frame_adjust_supply : freezone.

Lemma tokens_wf_frame d d' : ledger_frame d d' → tokens_wf d → tokens_wf d'.
Proof. intros H. apply tokens_wf_dom, H. Qed.

Lemma frame_create_vesting n liquid r d nv d' : create_vesting n liquid r d = Ok (nv, d') → ledger_frame d d'.
Proof.
  unfold create_vesting, create_vesting_SST. intros H. destruct (space (symbol liquid)).
  - do 3 apply bind_Ok in H as (? & _ & H). apply bind_Ok in H as (d1 & H1 & H).
    apply bind_Ok in H as (g & Hg & H). apply bind_Ok in H as (d2 & H2 & H). injection H as -> <-.
    assert (ledger_frame d d1) as Hf.
    { destruct r; [eauto with freezone|]. do 2 apply bind_Ok in H1 as (? & _ & H1).
      etrans; [|by eapply frame_adjust_balance]. auto with freezone. }
    assert (ledger_frame d1 (set_gpo g d1)) as Hf'.
    { unfold add_global_vesting in Hg. repeat frame_step; auto with freezone. }
    etrans; [exact Hf|]. etrans; [exact Hf'|]. destruct r; [by injection H2 as <-|eauto with freezone].
  - apply bind_Ok in H as (? & _ & H). case_decide.
    { apply bind_Ok in H as (? & _ & H). apply bind_Ok in H as (d1 & H1 & H). injection H as <- <-. eauto with freezone. }
    do 4 apply bind_Ok in H as (? & _ & H). apply bind_Ok in H as (d1 & H1 & H).
    apply bind_Ok in H as (t & Ht & H). apply from_option_exn_Ok in Ht. apply bind_Ok in H as (t' & _ & H).
    injection H as _ <-. etrans; [|eauto with freezone]. destruct r; eauto with freezone.
Qed.

Lemma gap_transfer_to_vesting s o d d' :
  tokens_wf d → transfer_to_vesting_apply o d = Ok d' → gap s d' = gap s d ∧ ledger_frame d d'.
Proof.
  unfold transfer_to_vesting_apply. intros Hwf H. do 3 apply bind_Ok in H as (? & _ & H).
  apply bind_Ok in H as (mi & Hm & H). apply bind_Ok in H as (d1 & H1 & H).
  apply bind_Ok in H as ([nv d2] & H2 & H). injection H as <-.
  assert (ledger_frame d d1) as Hf by eauto with freezone. pose proof (frame_create_vesting _ _ _ _ _ _ H2) as Hf2.
  split; [|by etrans].
  apply (gap_create_vesting s) in H2; [|by eapply tokens_wf_frame|done].
  apply (gap_adjust_balance s) in H1. apply (amount_of_neg s) in Hm. lia.
Qed.

(** A stake whose shares are the same holds the same. *)
Lemma gap_put_stake s n a m d :
  accounts d !! n = Some a → ma_vesting_shares m = ma_vesting_shares (stake a) →
  gap s (put_account n (set_stake m a) d) = gap s d.
Proof.
  intros Ha E. rewrite (gap_put_account _ _ a) by done.
  replace (account_held s n (set_stake m a)) with (account_held s n a); [lia|].
  unfold account_held, vesting_shares. cbn. by rewrite E.
Qed.

Lemma gap_put_regular_stake s k b m d :
  regular_balances d !! k = Some b → ma_vesting_shares m = ma_vesting_shares (rb_stake b) →
  gap s (set_regular_balances (λ _, <[k := RegularBalance (liquid b) m]> (regular_balances d)) d) = gap s d.
Proof.
  intros Hb E. rewrite gap_put_regular. unfold row. rewrite Hb.
  replace (regular_held s k (RegularBalance (liquid b) m)) with (regular_held s k b); [lia|].
  unfold regular_held, rb_vesting_shares. cbn. by rewrite E.
Qed.

Lemma start_withdrawal_shares sh i sec up ch d m m' :
  start_withdrawal sh i sec up ch d m = Ok m' → ma_vesting_shares m' = ma_vesting_shares m.
Proof. unfold start_withdrawal. intros H. repeat frame_step; done. Qed.

Lemma gap_withdraw_vesting s o d d' : withdraw_vesting_apply o d = Ok d' → gap s d' = gap s d ∧ ledger_frame d d'.
Proof.
  unfold withdraw_vesting_apply. intros H. apply bind_Ok in H as (a & Ha & H). apply from_option_exn_Ok in Ha.
  destruct (_ <? 0); [apply bind_Ok in H as (? & _ & H); by injection H as <-|]. destruct (space _).
  - do 4 apply bind_Ok in H as (? & _ & H). apply bind_Ok in H as (m & Hm%start_withdrawal_shares & H). injection H as <-.
    split; [by apply gap_put_stake|auto with freezone].
  - do 2 apply bind_Ok in H as (? & _ & H). destruct (regular_balances d !! _) as [b|] eqn:Eb; [|done].
    do 2 apply bind_Ok in H as (? & _ & H). apply bind_Ok in H as (m & Hm%start_withdrawal_shares & H). injection H as <-.
    split; [by apply gap_put_regular_stake|auto with freezone].
Qed.

Lemma gap_set_staking s f d : gap s (set_staking f d) = gap s d.
Proof. done. Qed.

Lemma gap_set_route s o d d' : set_withdraw_vesting_route_apply o d = Ok d' → gap s d' = gap s d ∧ ledger_frame d d'.
Proof.
  unfold set_withdraw_vesting_route_apply. intros H. apply bind_Ok in H as (a & Ha & H). apply from_option_exn_Ok in Ha.
  do 2 apply bind_Ok in H as (? & _ & H). apply bind_Ok in H as (d1 & H1 & H). apply bind_Ok in H as (? & _ & H).
  injection H as <-.
  assert (∀ f v, gap s (put_account (sr_from_account o) (set_withdraw_routes v a) (set_routes f d)) = gap s d
    ∧ ledger_frame d (put_account (sr_from_account o) (set_withdraw_routes v a) (set_routes f d))) as Hp.
  { intros f v. split; [|by split]. rewrite (gap_put_account _ _ a) by done. rewrite Z.add_simpl_r. done. }
  destruct (routes (staking d) !! _); [destruct (_ =? 0); [|injection H1 as <-; by split]|
    do 2 apply bind_Ok in H1 as (? & _ & H1)]; injection H1 as <-; apply Hp.
Qed.

(** ** Payouts *)

Lemma pay_withdrawal_Ok w c sec b m b' m' :
  pay_withdrawal w c sec b m = Ok (b', m') →
  b' = b + c ∧ ma_vesting_shares m' = ma_vesting_shares m - w
  ∧ ma_delegated_vesting_shares m' = ma_delegated_vesting_shares m
  ∧ ma_received_vesting_shares m' = ma_received_vesting_shares m
  ∧ ma_to_withdraw m' = ma_to_withdraw m ∧ ma_withdrawn m' = ma_withdrawn m + w
  ∧ ((ma_next_vesting_withdrawal m' = time_point_sec_maximum ∧ ma_vesting_withdraw_rate m' = 0)
     ∨ (ma_next_vesting_withdrawal m' = u32 (ma_next_vesting_withdrawal m + sec)
        ∧ ma_vesting_withdraw_rate m' = ma_vesting_withdraw_rate m
        ∧ ma_withdrawn m + w < ma_to_withdraw m)).
Proof.
  unfold pay_withdrawal. intros H. apply bind_Ok in H as (v & Hv & H). apply bind_Ok in H as (b1 & Hb & H).
  apply bind_Ok in H as (wd & Hwd & H). injection H as <- <-. safe_values.
  destruct (_ || _) eqn:E; cbn; split_and!; try done; [by left|right].
  apply orb_false_iff in E as [E _]. cbn in E. apply Z.leb_gt in E. done.
Qed.

Lemma gap_withdraw_token s key b d d' :
  tokens_wf d → regular_balances d !! key = Some b → withdraw_token key b d = Ok d' → gap s d' = gap s d ∧ ledger_frame d d'.
Proof.
  unfold withdraw_token. intros Hwf Hb H. apply bind_Ok in H as (t & Ht & H). apply from_option_exn_Ok in Ht.
  destruct (Hwf _ _ Ht) as (Hsp & Hv & Hpsp). destruct (paired_vesting key.2) as [Hpv Hpl]; [done|].
  do 2 apply bind_Ok in H as (? & _ & H). apply bind_Ok in H as (c & _ & H). apply bind_Ok in H as (? & _ & H).
  apply bind_Ok in H as ([l m] & Hpay & H). apply pay_withdrawal_Ok in Hpay as (-> & Em & _).
  apply bind_Ok in H as (f & Hf & H). apply bind_Ok in H as (sh & Hsh & H). injection H as <-. safe_values.
  set (d1 := set_regular_balances _ d). split.
  - rewrite (gap_token_vesting _ _ t) by done. unfold d1. rewrite gap_put_regular. unfold row. rewrite Hb.
    unfold regular_held, amount_of, rb_vesting_shares. cbn [symbol amount rb_stake liquid]. rewrite Em.
    destruct (space s) eqn:Es.
    { rewrite !(proj2 (Z.eqb_neq _ _)) by congruence. lia. }
    destruct (Z.eqb_spec key.2 s) as [E|Hne].
    + rewrite <- E in *. unfold liquid_symbol. rewrite Hv, Z.eqb_refl.
      rewrite (proj2 (Z.eqb_neq _ _)) by (intros E'; rewrite E' in Hpv; congruence). lia.
    + destruct (Z.eqb_spec (get_paired_symbol key.2) s) as [E|Hne'].
      * rewrite <- E in *. rewrite Hpl, Z.eqb_refl, Hpv. lia.
      * destruct (Z.eqb_spec key.2 (liquid_symbol s)) as [El|]; [|lia]. exfalso. unfold liquid_symbol in El.
        destruct (is_vesting s); [|done]. apply Hne'. rewrite El. apply paired_twice; [done|]. by rewrite <- El.
  - etrans; [apply frame_regular|]. by apply (frame_token _ t).
Qed.

Lemma gap_withdraw_tokens s fuel iter d d' :
  tokens_wf d → withdraw_tokens fuel iter d = Ok d' → gap s d' = gap s d ∧ ledger_frame d d'.
Proof.
  revert iter d. induction fuel as [|fuel IH]; intros [x|] d Hwf H; cbn [withdraw_tokens] in H;
    try (injection H as <-; done).
  - destruct (_ <=? _); [done|by injection H as <-].
  - destruct (_ <=? _); [|by injection H as <-].
    apply bind_Ok in H as (b & Hb & H). apply from_option_exn_Ok in Hb. apply bind_Ok in H as (d1 & H1 & H).
    destruct (gap_withdraw_token s x.2 b d d1) as [Hg Hf]; [done..|]. apply bind_Ok in H as (? & _ & H).
    apply IH in H as [Hg' Hf']; [|by eapply tokens_wf_frame]. split; [congruence|by etrans].
Qed.

(** A route gets its part of a payout, rounded down. *)
Lemma route_share_spec w p :
  0 <= w < 2 ^ 63 → 0 <= p <= freezone_100_PERCENT →
  route_share w p = Ok (w * p / freezone_100_PERCENT) ∧ 0 <= w * p / freezone_100_PERCENT <= w.
Proof.
  unfold freezone_100_PERCENT. intros Hw Hp. assert (0 <= w * p / 10000 <= w) as Hb.
  { split; [apply Z.div_pos; nia|]. apply Z.div_le_upper_bound; nia. }
  split; [|done]. unfold route_share.
  destruct (of_i64_spec w) as [W1 E1]; [int_unfold; lia|]. destruct (of_i64_spec p) as [W2 E2]; [int_unfold; lia|].
  destruct (of_i64_spec 10000) as [W3 E3]; [int_unfold; lia|].
  rewrite u128_pos in E1, E2, E3 by lia.
  destruct (mul_assign_exact _ _ W1 W2) as (x & -> & Wx & Ex); [rewrite E1, E2; int_unfold; nia|]. cbn [mbind res_bind].
  unfold freezone_100_PERCENT.
  destruct (div_assign_spec x _ Wx W3) as (q & -> & Wq & Eq); [lia|]. cbn [mbind res_bind].
  rewrite Ex, E1, E2, E3 in Eq. rewrite to_uint64_spec by (done || lia). cbn [mbind res_bind].
  rewrite Eq, i64_small by (int_unfold; lia). done.
Qed.

Definition route_ok (r : withdraw_route) : Prop := 0 <= percent r <= freezone_100_PERCENT.
Definition routes_ok (d : db) : Prop := ∀ k r, routes (staking d) !! k = Some r → route_ok r.

Lemma routes_of_ok n d : routes_ok d → Forall (λ x, route_ok x.2) (routes_of n d).
Proof.
  intros H. apply Forall_forall. intros [m r]. unfold routes_of. rewrite merge_sort_Permutation, list_elem_of_omap.
  intros ([[n' m'] r'] & Hin & E). simpl in E. case_decide; [|done]. simplify_eq.
  apply elem_of_map_to_list in Hin. by eapply H.
Qed.

Lemma gap_deposit_vests s w r acc d acc' d' :
  0 <= w < 2 ^ 63 → route_ok r.2 → deposit_vests w (acc, d) r = Ok (acc', d') →
  gap s d' = gap s d + amount_of s (Asset (acc' - acc) VESTS_SYMBOL) ∧ ledger_frame d d'.
Proof.
  intros Hw Hr H.
  assert (∀ d, gap s d = gap s d + amount_of s (Asset 0 VESTS_SYMBOL)) as H0.
  { intros d0. unfold amount_of. cbn [symbol amount]. destruct (_ =? _); lia. }
  unfold deposit_vests in H. destruct (auto_vest r.2); [|injection H as <- <-; rewrite Z.sub_diag; by split].
  apply bind_Ok in H as (x & Hx & H). destruct (route_share_spec w (percent r.2) Hw Hr) as [E Hb].
  rewrite E in Hx. injection Hx as <-. set (x := _ / _) in *.
  apply bind_Ok in H as (acc1 & Ha & H). apply safe_add_value in Ha as ->.
  destruct (Z.ltb_spec 0 x).
  - apply bind_Ok in H as (a & Ha & H). apply from_option_exn_Ok in Ha. apply bind_Ok in H as (v & Hv & H).
    apply safe_add_value in Hv as ->. apply bind_Ok in H as (d1 & Hd1 & H). injection H as <- <-. split.
    + rewrite (gap_push_one s _ _ _ _ Hd1), (gap_put_account _ _ a) by done. rewrite Z.add_simpl_l. held_diff.
    + etrans; [|eauto with freezone]. auto with freezone.
  - injection H as <- <-. split; [|done]. replace (acc + x - acc) with 0 by lia. apply H0.
Qed.

Lemma gap_deposit_freezone s w r acc c d acc' c' d' :
  0 <= w < 2 ^ 63 → route_ok r.2 → deposit_freezone w (acc, c, d) r = Ok (acc', c', d') →
  gap s d' = gap s d + amount_of s (Asset (acc' - acc) VESTS_SYMBOL) ∧ ledger_frame d d'.
Proof.
  intros Hw Hr H.
  assert (∀ d, gap s d = gap s d + amount_of s (Asset 0 VESTS_SYMBOL)) as H0.
  { intros d0. unfold amount_of. cbn [symbol amount]. destruct (_ =? _); lia. }
  unfold deposit_freezone in H. destruct (auto_vest r.2); [injection H as <- <- <-; rewrite Z.sub_diag; by split|].
  apply bind_Ok in H as (a & Ha & H). apply from_option_exn_Ok in Ha.
  apply bind_Ok in H as (x & Hx & H). destruct (route_share_spec w (percent r.2) Hw Hr) as [E Hb].
  rewrite E in Hx. injection Hx as <-. set (x := _ / _) in *.
  apply bind_Ok in H as (acc1 & Hacc & H). apply safe_add_value in Hacc as ->.
  apply bind_Ok in H as (p & Hp & H). apply bind_Ok in H as (cv & Hcv & H). apply bind_Ok in H as (t & Ht & H).
  destruct (exchange_symbol false _ p _ cv Hp Hcv) as [_ Es]. specialize (Es eq_refl).
  destruct (Z.ltb_spec 0 x).
  - apply bind_Ok in H as (b & Hbal & H). apply bind_Ok in H as (f & Hf & H). apply bind_Ok in H as (sh & Hsh & H).
    injection H as <- <- <-. safe_values. split.
    + etrans; [apply (gap_set_vesting s _ _ _ _ (put_account r.1 (set_balance (balance a + amount cv) a) d))|].
      rewrite (gap_put_account _ _ a) by done. rewrite Z.add_simpl_l.
      cbn [put_account set_accounts gpo]. held_diff. unfold amount_of. cbn [symbol amount].
      destruct (freezone_SYMBOL =? s), (VESTS_SYMBOL =? s); lia.
    + etrans; [|apply (frame_set_vesting _ _ _ _ (put_account r.1 (set_balance (balance a + amount cv) a) d))].
      apply frame_put_account.
  - injection H as <- <- <-. split; [|done]. replace (acc + x - acc) with 0 by lia. apply H0.
Qed.
