(* ===== verification/Payouts.v ===== *)
(** * Payouts of vesting withdrawals

    What [process_vesting_withdrawals] keeps: [gap], the exact count of votes,
    and stakes whose shares cover what is delegated and still to be withdrawn;
    and that its loops end. *)

From S2P Require Import Prelude Config AccountName Uint128 SafeInt AssetSymbol Asset Manabar MapSum State Ledger Votes Vesting.
From stdpp Require Import gmap strings sorting.
#[local] Open Scope Z_scope.

(** ** Stakes *)

(** Shares and the running withdrawal of a stake: nothing negative, and the
    shares cover what is delegated and still to be withdrawn. *)
Record stake_ok (m : mana_account) : Prop := StakeOk {
  so_shares : 0 <= ma_vesting_shares m < 2 ^ 63;
  so_delegated : 0 <= ma_delegated_vesting_shares m <= ma_vesting_shares m;
  so_rate : 0 <= ma_vesting_withdraw_rate m < 2 ^ 63;
  so_to_withdraw : 0 <= ma_to_withdraw m < 2 ^ 63;
  so_withdrawn : 0 <= ma_withdrawn m <= ma_to_withdraw m;
  so_next : in_u 32 (ma_next_vesting_withdrawal m);
  so_down : ma_next_vesting_withdrawal m ≠ time_point_sec_maximum →
    0 < ma_vesting_withdraw_rate m ∧ (ma_vesting_withdraw_rate m | ma_withdrawn m)
    ∧ ma_delegated_vesting_shares m + (ma_to_withdraw m - ma_withdrawn m) <= ma_vesting_shares m
}.

Definition stakes_ok (d : db) : Prop := ∀ n a, accounts d !! n = Some a → stake_ok (stake a).

(** A payout is the rate, or in the last week exactly what remains. *)
Lemma withdraw_portion_spec m w :
  stake_ok m → ma_next_vesting_withdrawal m ≠ time_point_sec_maximum → withdraw_portion m = Ok w →
  w = Z.min (ma_vesting_withdraw_rate m) (ma_to_withdraw m - ma_withdrawn m).
Proof.
  intros [Hv Hd Hr Ht Hw _ Hdown] Hn H. destruct (Hdown Hn) as (Hr0 & [c Hc] & Hcov).
  unfold withdraw_portion in H. apply bind_Ok in H as (l & Hl & H). apply safe_sub_value in Hl as ->.
  destruct (Z.ltb_spec (ma_to_withdraw m - ma_withdrawn m) (ma_vesting_withdraw_rate m)).
  - apply bind_Ok in H as (r & Hm & H). injection H as <-. unfold safe_mod in Hm. res_inv.
    rewrite Z.rem_mod_nonneg by lia.
    replace (ma_to_withdraw m mod ma_vesting_withdraw_rate m) with (ma_to_withdraw m - ma_withdrawn m); [lia|].
    apply (Z.mod_unique_pos _ _ c); lia.
  - injection H as <-. lia.
Qed.

Lemma withdraw_portion_bounds m w :
  stake_ok m → ma_next_vesting_withdrawal m ≠ time_point_sec_maximum → withdraw_portion m = Ok w →
  0 <= w < 2 ^ 63 ∧ w <= ma_vesting_shares m.
Proof.
  intros Hm Hn H. pose proof (withdraw_portion_spec m w Hm Hn H) as ->. destruct Hm as [Hv Hd Hr Ht Hw _ Hdown].
  destruct (Hdown Hn) as (Hr0 & _ & Hcov). lia.
Qed.

(** The stake after a payout; [v] shares may have been added meanwhile. *)
Lemma stake_ok_paid m v w c sec b b' m' :
  stake_ok m → ma_next_vesting_withdrawal m ≠ time_point_sec_maximum → withdraw_portion m = Ok w →
  ma_vesting_shares m <= v < 2 ^ 63 → pay_withdrawal w c sec b (set_ma_vesting v m) = Ok (b', m') → stake_ok m'.
Proof.
  intros Hm Hn Hw Hvv Hpay. pose proof (withdraw_portion_spec m w Hm Hn Hw) as Ew. clear Hw.
  destruct Hm as [Hv Hd Hr Ht Hw _ Hdown]. destruct (Hdown Hn) as (Hr0 & Hdiv & Hcov).
  apply pay_withdrawal_Ok in Hpay as (_ & Ev & Ed & _ & Et & Ewd & Hnext). cbn in *.
  split; [lia|lia| |lia|lia| |].
  - destruct Hnext as [[_ ->]|(_ & -> & _)]; lia.
  - destruct Hnext as [[-> _]|(-> & _)]; [done|by apply wrapu_in].
  - intros Hn'. destruct Hnext as [[E _]|(_ & -> & Hlt)]; [done|]. rewrite Ed, Et, Ewd, Ev.
    split_and!; try lia. apply Z.divide_add_r; [done|].
    assert (w = ma_vesting_withdraw_rate m) as -> by lia. apply Z.divide_refl.
Qed.

(** What the first two passes do to accounts: shares are added, the rest of the
    stakes and the routes stay. *)
Definition grown (d d' : db) : Prop :=
  (∀ n, match accounts d !! n with
        | None => accounts d' !! n = None
        | Some a => ∃ a' v, accounts d' !! n = Some a' ∧ stake a' = set_ma_vesting v (stake a)
                      ∧ ma_vesting_shares (stake a) <= v < 2 ^ 63
        end)
  ∧ routes (staking d') = routes (staking d).

Lemma grown_refl d : stakes_ok d → grown d d.
Proof.
  intros H. split; [|done]. intros n. destruct (accounts d !! n) as [a|] eqn:Ea; [|done].
  exists a, (ma_vesting_shares (stake a)). pose proof (so_shares _ (H n a Ea)). split_and!; [done| |lia|lia].
  by destruct (stake a).
Qed.

Lemma grown_trans d1 d2 d3 : grown d1 d2 → grown d2 d3 → grown d1 d3.
Proof.
  intros [H1 E1] [H2 E2]. split; [|congruence]. intros n. specialize (H1 n). specialize (H2 n).
  destruct (accounts d1 !! n) as [a|]; [|by rewrite H1 in H2].
  destruct H1 as (a' & v & Ha' & Es & Hv). rewrite Ha' in H2. destruct H2 as (a'' & v' & Ha'' & Es' & Hv').
  rewrite Es in Es', Hv'. exists a'', v'. cbn in Hv'. split_and!; [done|done|lia|lia].
Qed.

Lemma grown_lookup d d' n a' :
  grown d d' → accounts d' !! n = Some a' →
  ∃ a v, accounts d !! n = Some a ∧ stake a' = set_ma_vesting v (stake a) ∧ ma_vesting_shares (stake a) <= v < 2 ^ 63.
Proof.
  intros [H _] Ha'. specialize (H n). destruct (accounts d !! n) as [a|]; [|congruence].
  destruct H as (b & v & Hb & Es & Hv). assert (b = a') as -> by congruence. eauto.
Qed.

Lemma stakes_ok_grown d d' : grown d d' → stakes_ok d → stakes_ok d'.
Proof.
  intros Hg H n a' Ha'. destruct (grown_lookup d d' n a' Hg Ha') as (a & v & Ha & -> & Hv).
  destruct (H n a Ha) as [Hs Hd Hr Ht Hw Hnx Hdown]. split; cbn; try lia; try done.
  intros Hn. destruct (Hdown Hn) as (? & ? & ?). split_and!; try done; lia.
Qed.

Lemma grown_walk d d' : stakes_ok d → walk_result d d' → grown d d'.
Proof.
  intros Hs (m & ws & -> & Hm). split; [|done]. intros n. specialize (Hm n). simpl.
  destruct (accounts d !! n) as [a|] eqn:Ea; [|done]. destruct Hm as (l & -> & _).
  exists (set_proxied l a), (ma_vesting_shares (stake a)). pose proof (so_shares _ (Hs n a Ea)).
  split_and!; [done| |lia|lia]. simpl. by destruct (stake a).
Qed.

Lemma grown_put n a a' v d :
  stakes_ok d → accounts d !! n = Some a → stake a' = set_ma_vesting v (stake a) →
  ma_vesting_shares (stake a) <= v < 2 ^ 63 → grown d (put_account n a' d).
Proof.
  intros Hs Ha E Hv. split; [|done]. intros m. simpl. destruct (decide (m = n)) as [->|Hne].
  - rewrite Ha, lookup_insert_eq. eauto.
  - rewrite lookup_insert_ne by done. apply (proj1 (grown_refl d Hs)).
Qed.

Lemma grown_gpo g d d' : grown d d' → grown d (set_gpo g d').
Proof. done. Qed.

Lemma safe_add_bound a b c : 0 <= a < 2 ^ 63 → 0 <= b < 2 ^ 63 → safe_add a b = Ok c → c = a + b ∧ 0 <= c < 2 ^ 63.
Proof. intros Ha Hb H. apply safe_add_Ok in H as [-> Hc]; [|int_unfold; lia..]. split; [done|]. int_unfold. lia. Qed.

Lemma deposit_vests_ok w r k acc d acc' d' :
  0 <= w < 2 ^ 63 → route_ok r.2 → votes_ok_with k d → stakes_ok d → deposit_vests w (acc, d) r = Ok (acc', d') →
  votes_ok_with (k + (acc' - acc)) d' ∧ grown d d'.
Proof.
  intros Hw Hr Hv Hs H. unfold deposit_vests in H.
  destruct (auto_vest r.2); [|injection H as <- <-; rewrite Z.sub_diag, Z.add_0_r; auto using grown_refl].
  apply bind_Ok in H as (x & Hx & H). destruct (route_share_spec w (percent r.2) Hw Hr) as [E Hb].
  rewrite E in Hx. injection Hx as <-. set (x := _ / _) in *.
  apply bind_Ok in H as (acc1 & Ha & H). apply safe_add_value in Ha as ->.
  destruct (Z.ltb_spec 0 x).
  - apply bind_Ok in H as (a & Ha & H). apply from_option_exn_Ok in Ha. apply bind_Ok in H as (v & Hvs & H).
    pose proof (so_shares _ (Hs _ _ Ha)) as Hsh. fold (vesting_shares a) in Hsh.
    apply safe_add_bound in Hvs as [-> Hvs]; [|lia..].
    apply bind_Ok in H as (d1 & Hd1 & H). injection H as <- <-.
    assert (grown d (put_account r.1 (set_vesting_shares (vesting_shares a + x) a) d)) as Hg.
    { apply (grown_put _ a _ (vesting_shares a + x)); [done..|]. unfold vesting_shares in *. lia. }
    split.
    + replace (k + (acc + x - acc)) with (k + x - 0) by lia.
      apply (votes_ok_walk r.1 k x 0 a (set_vesting_shares (vesting_shares a + x) a) d (gpo d)); [done..|lia|exact Hd1].
    + eapply grown_trans; [exact Hg|]. apply grown_walk; [by eapply stakes_ok_grown|].
      by eapply pushed_result, adjust_proxied_one_pushed.
  - injection H as <- <-. replace (k + (acc + x - acc)) with k by lia. auto using grown_refl.
Qed.

Lemma deposit_freezone_ok w r k acc c d acc' c' d' :
  0 <= w < 2 ^ 63 → route_ok r.2 → votes_ok_with k d → stakes_ok d →
  deposit_freezone w (acc, c, d) r = Ok (acc', c', d') → votes_ok_with (k + (acc' - acc)) d' ∧ grown d d'.
Proof.
  intros Hw Hr Hv Hs H. unfold deposit_freezone in H.
  destruct (auto_vest r.2); [injection H as <- <- <-; rewrite Z.sub_diag, Z.add_0_r; auto using grown_refl|].
  apply bind_Ok in H as (a & Ha & H). apply from_option_exn_Ok in Ha.
  apply bind_Ok in H as (x & Hx & H). destruct (route_share_spec w (percent r.2) Hw Hr) as [E Hb].
  rewrite E in Hx. injection Hx as <-. set (x := _ / _) in *.
  apply bind_Ok in H as (acc1 & Hacc & H). apply safe_add_value in Hacc as ->.
  do 3 apply bind_Ok in H as (? & _ & H). destruct (Z.ltb_spec 0 x).
  - apply bind_Ok in H as (b & _ & H). apply bind_Ok in H as (f & _ & H). apply bind_Ok in H as (sh & Hsh & H).
    injection H as <- <- <-. apply safe_sub_value in Hsh as ->. cbn [put_account set_accounts gpo] in *. split.
    + eapply (votes_ok_view k); [| | | |exact Hv]; [apply (view_put _ a); done|done|done|]. cbn. lia.
    + apply grown_gpo, (grown_put _ a _ (ma_vesting_shares (stake a))); [done..| |].
      * cbn. by destruct (stake a).
      * pose proof (so_shares _ (Hs _ _ Ha)). lia.
  - injection H as <- <- <-. replace (k + (acc + x - acc)) with k by lia. auto using grown_refl.
Qed.

(** One payout: conservation, exact votes, covered stakes.  The schedule of the
    other accounts is not touched. *)
Definition stake_schedule (a : account) : Z := ma_next_vesting_withdrawal (stake a).

Lemma schedule_grown d d' : grown d d' → stake_schedule <$> accounts d' = stake_schedule <$> accounts d.
Proof.
  intros [H _]. apply map_eq. intros n. rewrite !lookup_fmap. specialize (H n).
  destruct (accounts d !! n) as [a|]; [|by rewrite H]. destruct H as (a' & v & -> & Es & _). simpl.
  unfold stake_schedule. by rewrite Es.
Qed.

(** The two passes over the routes. *)
Lemma passes_ok s n w d1 d2 as_vests as_freezone c d :
  0 <= w < 2 ^ 63 → routes_ok d → votes_ok d → stakes_ok d →
  res_fold (deposit_vests w) (0, d) (routes_of n d) = Ok (as_vests, d1) →
  res_fold (deposit_freezone w) (0, 0, d1) (routes_of n d1) = Ok (as_freezone, c, d2) →
  gap s d2 = gap s d + amount_of s (Asset (as_vests + as_freezone) VESTS_SYMBOL)
  ∧ ledger_frame d d2 ∧ votes_ok_with (as_vests + as_freezone) d2 ∧ grown d d2.
Proof.
  intros Hw Hro Hv Hs H1 H2. pose proof (routes_of_ok n d Hro) as Hr1. rewrite Forall_forall in Hr1.
  apply (res_fold_ind (λ x, gap s x.2 = gap s d + amount_of s (Asset x.1 VESTS_SYMBOL)
    ∧ ledger_frame d x.2 ∧ votes_ok_with x.1 x.2 ∧ grown d x.2)) in H1 as (G1 & F1 & V1 & R1).
  2: { simpl. rewrite amount_of_zero. split_and!; [lia|reflexivity|done|by apply grown_refl]. }
  2: { intros [x dx] r [x' dx'] Hin (G & F & V & R) H. cbn [fst snd] in *.
       pose proof (stakes_ok_grown _ _ R Hs) as Hs'.
       destruct (gap_deposit_vests s w r x dx x' dx' Hw (Hr1 r Hin) H) as [G' F'].
       destruct (deposit_vests_ok w r x x dx x' dx' Hw (Hr1 r Hin) V Hs' H) as [V' R'].
       replace (x + (x' - x)) with x' in V' by lia. rewrite amount_of_sub in G'.
       split_and!; [lia|by etrans|done|by eapply grown_trans]. }
  cbn [fst snd] in *. pose proof (stakes_ok_grown _ _ R1 Hs) as Hs1.
  assert (routes_ok d1) as Hro1 by (intros k r; rewrite (proj2 R1); apply Hro).
  pose proof (routes_of_ok n d1 Hro1) as Hr2. rewrite Forall_forall in Hr2.
  apply (res_fold_ind (λ x, gap s x.2 = gap s d1 + amount_of s (Asset x.1.1 VESTS_SYMBOL)
    ∧ ledger_frame d1 x.2 ∧ votes_ok_with (as_vests + x.1.1) x.2 ∧ grown d1 x.2)) in H2 as (G2 & F2 & V2 & R2).
  - cbn [fst snd] in *. rewrite amount_of_add. split_and!; [lia|by etrans|done|by eapply grown_trans].
  - simpl. rewrite amount_of_zero, Z.add_0_r. split_and!; [lia|reflexivity|by rewrite Z.add_0_r|by apply grown_refl].
  - intros [[x y] dx] r [[x' y'] dx'] Hin (G & F & V & R) H. cbn [fst snd] in *.
    pose proof (stakes_ok_grown _ _ R Hs1) as Hs'.
    destruct (gap_deposit_freezone s w r x y dx x' y' dx' Hw (Hr2 r Hin) H) as [G' F'].
    destruct (deposit_freezone_ok w r _ x y dx x' y' dx' Hw (Hr2 r Hin) V Hs' H) as [V' R'].
    replace (as_vests + x + (x' - x)) with (as_vests + x') in V' by lia. rewrite amount_of_sub in G'.
    split_and!; [lia|by etrans|done|by eapply grown_trans].
Qed.

(** What a payout keeps, and the new entry of the schedule. *)
Record paid (s : Z) (n : name) (next : Z) (d d' : db) : Prop := Paid {
  pd_gap : gap s d' = gap s d;
  pd_frame : ledger_frame d d';
  pd_votes : votes_ok d';
  pd_stakes : stakes_ok d';
  pd_routes : routes (staking d') = routes (staking d);
  pd_schedule : stake_schedule <$> accounts d' = <[n := next]> (stake_schedule <$> accounts d)
}.

Lemma stakes_ok_put n a d : stake_ok (stake a) → stakes_ok d → stakes_ok (put_account n a d).
Proof. intros Ha H m b. simpl. rewrite lookup_insert_Some. intros [[<- <-]|[_ Hb]]; [done|by eapply H]. Qed.

Lemma withdraw_account_ok s n a d d' :
  routes_ok d → votes_ok d → stakes_ok d → accounts d !! n = Some a →
  stake_schedule a ≠ time_point_sec_maximum → withdraw_account n d = Ok d' →
  ∃ next, paid s n next d d' ∧ (next = time_point_sec_maximum
    ∨ next = u32 (stake_schedule a + freezone_VESTING_WITHDRAW_INTERVAL_SECONDS)).
Proof.
  intros Hro Hv Hs Ha Hn H. unfold withdraw_account in H. apply bind_Ok in H as (a' & E & H).
  apply from_option_exn_Ok in E. assert (a' = a) as -> by congruence. clear E.
  apply bind_Ok in H as (w & Hw & H). pose proof (withdraw_portion_bounds _ _ (Hs n a Ha) Hn Hw) as [Hwb _].
  apply bind_Ok in H as ([av d1] & H1 & H). apply bind_Ok in H as ([[af c] d2] & H2 & H).
  destruct (passes_ok s n w d1 d2 av af c d Hwb Hro Hv Hs H1 H2) as (G & F & V & R). clear H1 H2.
  apply bind_Ok in H as (x & Hx & H). apply bind_Ok in H as (tc & Htc & H). apply safe_sub_value in Hx as ->, Htc as ->.
  apply bind_Ok in H as (? & _ & H). apply bind_Ok in H as (p & Hp & H). apply bind_Ok in H as (cv & Hcv & H).
  apply bind_Ok in H as (? & _ & H). apply bind_Ok in H as (a2 & Ha2 & H). apply from_option_exn_Ok in Ha2.
  destruct (grown_lookup d d2 n a2 R Ha2) as (b0 & v & Hb0 & Es & Hvb). assert (b0 = a) as -> by congruence. clear Hb0.
  apply bind_Ok in H as ([b m] & Hpay & H). rewrite Es in Hpay.
  pose proof (stake_ok_paid _ _ _ _ _ _ _ _ (Hs n a Ha) Hn Hw Hvb Hpay) as Hm.
  apply pay_withdrawal_Ok in Hpay as (-> & Emv & _ & _ & _ & _ & Hnext). cbn in Emv.
  apply bind_Ok in H as (f & Hf & H). apply bind_Ok in H as (sh & Hsh & H). cbn [put_account set_accounts gpo] in Hf, Hsh, H.
  apply safe_sub_value in Hf as ->, Hsh as ->.
  set (a3 := set_stake m (set_balance (balance a2 + amount cv) a2)) in *.
  set (g := set_vesting _ _ _ _ (gpo d2)) in *.
  assert (vesting_shares a3 = vesting_shares a2 - w) as Ea3.
  { unfold vesting_shares. cbn. rewrite Emv, Es. done. }
  assert (walk_result (set_gpo g (put_account n a3 d2)) d' ∧ votes_ok d') as [Hwr Hv'].
  { destruct (Z.ltb_spec 0 w) as [Hpos|Hz].
    - apply bind_Ok in H as (mi & ->%safe_neg_value & H). split; [by eapply pushed_result, adjust_proxied_one_pushed|].
      replace 0 with (av + af + - w - - (w - af - av)) by lia.
      apply (votes_ok_walk n (av + af) (- w) (- (w - af - av)) a2 a3 d2 g); [done..| | |exact H]; [lia|cbn; lia].
    - injection H as <-. split.
      + exists (accounts (put_account n a3 d2)), (witnesses (staking d2)). split; [by destruct d2 as [??????????? []]|done].
      + apply (votes_ok_view (av + af) 0 d2); [|done|done| |exact V]; [apply (view_put n a2); [done|]|cbn; lia].
        unfold voting_view. rewrite Ea3. by replace (vesting_shares a2 - w) with (vesting_shares a2) by lia. }
  exists (ma_next_vesting_withdrawal m). split.
  - split.
    + rewrite (gap_walk s _ _ Hwr). unfold g.
      etrans; [apply (gap_set_vesting s _ _ _ _ (put_account n a3 d2))|].
      rewrite (gap_put_account _ _ a2), G by done. cbn [put_account set_accounts gpo].
      rewrite !account_held_split, Ea3. cbn [a3 set_stake set_balance balance savings_balance reward_freezone_balance sbd
        savings_sbd reward_sbd_balance reward_vesting_balance].
      unfold amount_of. cbn [symbol amount]. destruct (freezone_SYMBOL =? s), (SBD_SYMBOL =? s), (VESTS_SYMBOL =? s); lia.
    + etrans; [exact F|]. etrans; [apply (frame_put_account n a3)|]. etrans; [|by apply frame_walk]. by split.
    + done.
    + assert (stakes_ok (put_account n a3 d2)) as Hs3 by (apply stakes_ok_put; [done|by eapply stakes_ok_grown]).
      apply (stakes_ok_grown (set_gpo g (put_account n a3 d2))); [|done]. by apply grown_walk.
    + destruct Hwr as (m' & ws & -> & _). cbn. apply R.
    + assert (stakes_ok (put_account n a3 d2)) as Hs3 by (apply stakes_ok_put; [done|by eapply stakes_ok_grown]).
      rewrite (schedule_grown (set_gpo g (put_account n a3 d2))) by (by apply grown_walk).
      cbn. rewrite fmap_insert. by rewrite (schedule_grown d d2).
  - destruct Hnext as [[-> _]|(-> & _)]; [by left|by right].
Qed.

(** ** The loops end *)

#[export] Instance no_fuel_get_account n d : NoFuel (get_account n d).
Proof. by apply no_fuel_option. Qed.
#[export] Instance no_fuel_safe_add a b : NoFuel (safe_add a b).
Proof. unfold safe_add, check. no_fuel. Qed.
#[export] Instance no_fuel_safe_sub a b : NoFuel (safe_sub a b).
Proof. unfold safe_sub, check. no_fuel. Qed.
#[export] Instance no_fuel_safe_mod a b : NoFuel (safe_mod a b).
Proof. unfold safe_mod, check. no_fuel. Qed.
#[export] Instance no_fuel_safe_neg a : NoFuel (safe_neg a).
Proof. unfold safe_neg, check. no_fuel. Qed.
#[export] Instance no_fuel_shl a b : NoFuel (shl_assign a b).
Proof. unfold shl_assign, to_integer. no_fuel. Qed.
#[export] Instance no_fuel_mul a b : NoFuel (mul_assign a b).
Proof. unfold mul_assign. no_fuel. Qed.
#[export] Instance no_fuel_div a b : NoFuel (div_assign a b).
Proof. unfold div_assign, check. no_fuel. Qed.
#[export] Instance no_fuel_to_uint64 a : NoFuel (to_uint64 a).
Proof. unfold to_uint64. no_fuel. Qed.
#[export] Instance no_fuel_make_price b q : NoFuel (make_price b q).
Proof. unfold make_price, price_validate. no_fuel. Qed.
#[export] Instance no_fuel_mul_price a p : NoFuel (asset_mul_price a p).
Proof. unfold asset_mul_price, convert_amount. no_fuel. Qed.
#[export] Instance no_fuel_asset_add a b : NoFuel (asset_add a b).
Proof. unfold asset_add. no_fuel. Qed.
#[export] Instance no_fuel_share_price g : NoFuel (get_vesting_share_price g).
Proof. unfold get_vesting_share_price. no_fuel. Qed.
#[export] Instance no_fuel_adjust_witness_vote w x d : NoFuel (adjust_witness_vote w x d).
Proof.
  unfold adjust_witness_vote. apply no_fuel_bind; [by apply no_fuel_option|]. intros a. no_fuel.
Qed.
#[export] Instance no_fuel_push left n x d : NoFuel (adjust_proxied_witness_votes_one left n x d).
Proof.
  revert n d. induction left as [|left IH]; intros n d; cbn [adjust_proxied_witness_votes_one];
    apply no_fuel_bind; [apply _| |apply _|]; intros a; case_decide; try apply _.
  apply no_fuel_bind; [apply _|]. intros p. apply no_fuel_bind; [|intros; apply IH].
  unfold add_at. apply no_fuel_bind; [by apply no_fuel_option|]. intros y. no_fuel.
Qed.
#[export] Instance no_fuel_portion m : NoFuel (withdraw_portion m).
Proof. unfold withdraw_portion. no_fuel. Qed.
#[export] Instance no_fuel_pay w c sec b m : NoFuel (pay_withdrawal w c sec b m).
Proof. unfold pay_withdrawal. no_fuel. Qed.
#[export] Instance no_fuel_route_share w p : NoFuel (route_share w p).
Proof. unfold route_share. no_fuel. Qed.
#[export] Instance no_fuel_deposit_vests w acc r : NoFuel (deposit_vests w acc r).
Proof. unfold deposit_vests. no_fuel. Qed.
#[export] Instance no_fuel_deposit_freezone w acc r : NoFuel (deposit_freezone w acc r).
Proof. unfold deposit_freezone. no_fuel. Qed.
#[export] Instance no_fuel_withdraw_account n d : NoFuel (withdraw_account n d).
Proof. unfold withdraw_account. no_fuel. Qed.
#[export] Instance no_fuel_token_price k t : NoFuel (token_vesting_share_price k t).
Proof. unfold token_vesting_share_price, initial_vesting_share_price. no_fuel. Qed.
#[export] Instance no_fuel_withdraw_token k b d : NoFuel (withdraw_token k b d).
Proof. unfold withdraw_token. apply no_fuel_bind; [by apply no_fuel_option|]. intros t. no_fuel. Qed.

(** A clock that leaves room for one more interval. *)
Definition clock_ok (d : db) : Prop :=
  now d + freezone_VESTING_WITHDRAW_INTERVAL_SECONDS < time_point_sec_maximum.

Lemma payouts_due_next now next next' :
  0 <= next <= now → now + freezone_VESTING_WITHDRAW_INTERVAL_SECONDS < time_point_sec_maximum →
  (next' = time_point_sec_maximum ∨ next' = u32 (next + freezone_VESTING_WITHDRAW_INTERVAL_SECONDS)) →
  payouts_due freezone_VESTING_WITHDRAW_INTERVAL_SECONDS now next'
  < payouts_due freezone_VESTING_WITHDRAW_INTERVAL_SECONDS now next.
Proof.
  unfold payouts_due, freezone_VESTING_WITHDRAW_INTERVAL_SECONDS, time_point_sec_maximum. intros Hn Hc Hnext.
  rewrite (proj2 (Z.leb_le next now)) by lia. pose proof (Z.div_pos (now - next) (60 * 60 * 24 * 7) ltac:(lia) ltac:(lia)).
  destruct Hnext as [-> | ->]; [rewrite (proj2 (Z.leb_gt _ _)) by lia; lia|].
  unfold u32. rewrite wrapu_small by (int_unfold; lia).
  destruct (Z.leb_spec (next + 60 * 60 * 24 * 7) now); [|lia].
  replace (now - next) with (now - (next + 60 * 60 * 24 * 7) + 1 * (60 * 60 * 24 * 7)) by lia.
  rewrite Z.div_add by lia. lia.
Qed.

Lemma payouts_due_nonneg i now next : 0 < i → 0 <= payouts_due i now next.
Proof. intros Hi. unfold payouts_due. destruct (Z.leb_spec next now); [|lia]. pose proof (Z.div_pos (now - next) i). lia. Qed.

(** A payout leaves fewer of them due. *)
Lemma due_accounts_paid s n a next d d' :
  stakes_ok d → clock_ok d → accounts d !! n = Some a → stake_schedule a <= now d →
  (next = time_point_sec_maximum ∨ next = u32 (stake_schedule a + freezone_VESTING_WITHDRAW_INTERVAL_SECONDS)) →
  paid s n next d d' → 0 <= due_accounts d' < due_accounts d.
Proof.
  intros Hs Hc Ha Hle Hnext Hp. unfold due_accounts. split.
  { apply msum_nonneg. intros. by apply payouts_due_nonneg. }
  set (g := λ (_ : name) x, payouts_due freezone_VESTING_WITHDRAW_INTERVAL_SECONDS (now d) x).
  rewrite (lf_now _ _ (pd_frame _ _ _ _ _ Hp)). change (msum _ (accounts d')) with (msum (λ k b, g k (stake_schedule b)) (accounts d')).
  change (msum _ (accounts d)) with (msum (λ k b, g k (stake_schedule b)) (accounts d)).
  rewrite <- !(msum_fmap stake_schedule g), (pd_schedule _ _ _ _ _ Hp), msum_insert.
  unfold row. rewrite lookup_fmap, Ha. simpl.
  pose proof (payouts_due_next (now d) (stake_schedule a) next). pose proof (so_next _ (Hs n a Ha)) as Hu.
  unfold g. unfold clock_ok in Hc. unfold in_u, stake_schedule in *. lia.
Qed.

(** The loop over accounts. *)
Record payouts (s : Z) (d d' : db) : Prop := Payouts {
  ps_gap : gap s d' = gap s d;
  ps_frame : ledger_frame d d';
  ps_votes : votes_ok d';
  ps_stakes : stakes_ok d';
  ps_routes : routes (staking d') = routes (staking d)
}.

Lemma withdraw_accounts_ok s fuel cur d :
  routes_ok d → votes_ok d → stakes_ok d → clock_ok d →
  (∀ d', withdraw_accounts fuel cur d = Ok d' → payouts s d d')
  ∧ (due_accounts d < Z.of_nat fuel → NoFuel (withdraw_accounts fuel cur d)).
Proof.
  revert cur d. induction fuel as [|fuel IH]; intros [n|] d Hro Hv Hs Hc; cbn [withdraw_accounts];
    try (split; [intros d' [= <-]; by split|intros; apply _]).
  - split; [|intros Hlt; exfalso; assert (0 <= due_accounts d); [|lia]; apply msum_nonneg; intros; by apply payouts_due_nonneg].
    intros d' H. apply bind_Ok in H as (a & _ & H). destruct (_ <=? _); [done|]. injection H as <-. by split.
  - unfold get_account. destruct (accounts d !! n) as [a|] eqn:Ea; [|by split; [|discriminate]].
    cbn [from_option_exn mbind res_bind]. destruct (Z.leb_spec (ma_next_vesting_withdrawal (stake a)) (now d)) as [Hle|].
    2: { split; [intros d' [= <-]; by split|intros; apply _]. }
    assert (stake_schedule a ≠ time_point_sec_maximum) as Hn.
    { unfold clock_ok, freezone_VESTING_WITHDRAW_INTERVAL_SECONDS, stake_schedule in *. lia. }
    destruct (withdraw_account n d) as [d1|e] eqn:E; cbn [mbind res_bind].
    2: { split; [done|]. intros _. pose proof (no_fuel_withdraw_account n d) as Hnf. rewrite E in Hnf. exact Hnf. }
    destruct (withdraw_account_ok s n a d d1 Hro Hv Hs Ea Hn E) as (next & Hp & Hnext).
    pose proof (due_accounts_paid s n a next d d1 Hs Hc Ea Hle Hnext Hp) as Hdue. destruct Hp as [G F V S R _].
    edestruct (IH (snd <$> next_row account_row_before (ma_next_vesting_withdrawal (stake a), n) (account_rows d)) d1)
      as [IH1 IH2]; [intros k r; rewrite R; apply Hro|done|done|unfold clock_ok; by rewrite (lf_now _ _ F)|].
    split; [|intros; apply IH2; lia]. intros d' H. destruct (IH1 d' H) as [G' F' V' S' R'].
    split; [congruence|by etrans|done|done|congruence].
Qed.

(** The loop over token balances. *)
Definition token_schedule (b : regular_balance) : Z := ma_next_vesting_withdrawal (rb_stake b).
Definition token_schedules_ok (d : db) : Prop := ∀ k b, regular_balances d !! k = Some b → in_u 32 (token_schedule b).

Lemma first_row_elem {K} (before : K → K → bool) l x : first_row before l = Some x → x ∈ l.
Proof.
  revert x. induction l as [|y l IH]; simpl; intros x H; [done|]. destruct (first_row before l) as [z|]; [|set_solver].
  destruct (before z y); [right; apply IH; congruence|set_solver].
Qed.

Lemma next_row_elem {K} (before : K → K → bool) y l x : next_row before y l = Some x → x ∈ l.
Proof. intros H%first_row_elem. apply list_elem_of_In, filter_In in H as [H _]. by apply list_elem_of_In. Qed.

Lemma token_rows_elem d x :
  x ∈ token_rows d → ∃ b, regular_balances d !! x.2 = Some b ∧ token_schedule b = x.1.
Proof.
  unfold token_rows. rewrite list_elem_of_fmap. intros ([k b] & -> & H). apply elem_of_map_to_list in H. eauto.
Qed.

Lemma withdraw_token_Ok key b d d' :
  withdraw_token key b d = Ok d' →
  ∃ b', regular_balances d' = <[key := b']> (regular_balances d) ∧ accounts d' = accounts d ∧ staking d' = staking d
    ∧ gpo d' = gpo d
    ∧ (token_schedule b' = time_point_sec_maximum
       ∨ token_schedule b' = u32 (token_schedule b + SST_VESTING_WITHDRAW_INTERVAL_SECONDS)).
Proof.
  unfold withdraw_token. intros H. do 5 apply bind_Ok in H as (? & _ & H). apply bind_Ok in H as ([l m] & Hpay & H).
  apply pay_withdrawal_Ok in Hpay as (_ & _ & _ & _ & _ & _ & Hnext). do 2 apply bind_Ok in H as (? & _ & H).
  injection H as <-. exists (RegularBalance l m). split_and!; [done..|]. unfold token_schedule. cbn.
  destruct Hnext as [[-> _]|(-> & _)]; [by left|by right].
Qed.

Lemma withdraw_tokens_ends fuel iter d :
  token_schedules_ok d → clock_ok d → (∀ x, iter = Some x → x ∈ token_rows d) →
  due_tokens d < Z.of_nat fuel → NoFuel (withdraw_tokens fuel iter d).
Proof.
  assert (∀ d, 0 <= due_tokens d) as Hpos by (intros; apply msum_nonneg; intros; by apply payouts_due_nonneg).
  revert iter d. induction fuel as [|fuel IH]; intros [x|] d Hs Hc Hin Hlt; cbn [withdraw_tokens]; try apply _;
    [by pose proof (Hpos d); lia|].
  destruct (Z.leb_spec x.1 (now d)) as [Hle|]; [|apply _].
  destruct (token_rows_elem d x (Hin x eq_refl)) as (b & Hb & Ex). rewrite Hb. cbn [from_option_exn mbind res_bind].
  destruct (withdraw_token x.2 b d) as [d1|e] eqn:E; cbn [mbind res_bind].
  2: { pose proof (no_fuel_withdraw_token x.2 b d) as Hnf. rewrite E in Hnf. exact Hnf. }
  destruct (withdraw_token_Ok _ _ _ _ E) as (b' & Eb & _ & _ & Eg & Hnext).
  assert (now d1 = now d) as En by (unfold now; by rewrite Eg).
  rewrite Eb, lookup_insert_eq. cbn [from_option_exn mbind res_bind]. pose proof (Hs _ _ Hb) as Hu.
  apply IH.
  - intros k c. rewrite Eb, lookup_insert_Some. intros [[_ <-]|[_ Hk]]; [|by eapply Hs].
    destruct Hnext as [-> | ->]; [done|by apply wrapu_in].
  - unfold clock_ok. by rewrite En.
  - intros y. apply next_row_elem.
  - enough (due_tokens d1 < due_tokens d) by lia. unfold due_tokens. rewrite En, Eb, msum_insert. unfold row. rewrite Hb.
    pose proof (payouts_due_next (now d) (token_schedule b) (token_schedule b')) as Hd.
    unfold clock_ok, in_u, token_schedule, SST_VESTING_WITHDRAW_INTERVAL_SECONDS,
      freezone_VESTING_WITHDRAW_INTERVAL_SECONDS in *. lia.
Qed.

Lemma withdraw_tokens_frame fuel iter d d' :
  withdraw_tokens fuel iter d = Ok d' → accounts d' = accounts d ∧ staking d' = staking d ∧ gpo d' = gpo d.
Proof.
  revert iter d. induction fuel as [|fuel IH]; intros [x|] d H; cbn [withdraw_tokens] in H; try (by injection H as <-).
  - destruct (_ <=? _); [done|by injection H as <-].
  - destruct (_ <=? _); [|by injection H as <-]. apply bind_Ok in H as (b & _ & H).
    apply bind_Ok in H as (d1 & H1 & H). apply withdraw_token_Ok in H1 as (b' & _ & E1 & E2 & E3 & _).
    apply bind_Ok in H as (? & _ & H). apply IH in H as (F1 & F2 & F3). split_and!; congruence.
Qed.

Lemma votes_stakes_same d d' :
  accounts d' = accounts d → staking d' = staking d → gpo d' = gpo d →
  votes_ok d → stakes_ok d → routes_ok d → clock_ok d → votes_ok d' ∧ stakes_ok d' ∧ routes_ok d' ∧ clock_ok d'.
Proof.
  intros Ea Es Eg Hv Hs Hr Hc. split_and!.
  - apply (votes_ok_view 0 0 d); rewrite ?Ea, ?Es, ?Eg; done.
  - intros n a. rewrite Ea. apply Hs.
  - intros k r. rewrite Es. apply Hr.
  - unfold clock_ok, now. by rewrite Eg.
Qed.

Lemma process_vesting_withdrawals_Ok s d d' :
  tokens_wf d → routes_ok d → votes_ok d → stakes_ok d → clock_ok d →
  process_vesting_withdrawals d = Ok d' → payouts s d d'.
Proof.
  unfold process_vesting_withdrawals. intros Hwf Hr Hv Hs Hc H. apply bind_Ok in H as (d1 & H1 & H).
  destruct (gap_withdraw_tokens s _ _ _ _ Hwf H1) as [G F]. apply withdraw_tokens_frame in H1 as (E1 & E2 & E3).
  destruct (votes_stakes_same d d1) as (Hv1 & Hs1 & Hr1 & Hc1); try done.
  apply (withdraw_accounts_ok s) in H as [G' F' V' S' R']; try done.
  split; [congruence|by etrans|done|done|congruence].
Qed.

(** ** Theorems *)

(** C35: the payout of vesting withdrawals ends.  In a state whose withdrawals
    are covered by shares, the two loops make no more turns than there are
    weekly payouts due, so the fuel of the model is never used up. *)
Theorem vesting_payouts_end d :
  token_schedules_ok d → routes_ok d → votes_ok d → stakes_ok d → clock_ok d →
  process_vesting_withdrawals d ≠ Throw fuel_exhausted.
Proof.
  intros Ht Hr Hv Hs Hc. unfold process_vesting_withdrawals.
  assert (∀ d, 0 <= due_tokens d ∧ 0 <= due_accounts d) as Hpos.
  { intros d0. split; apply msum_nonneg; intros; by apply payouts_due_nonneg. }
  pose proof (withdraw_tokens_ends (S (Z.to_nat (due_tokens d))) (first_row token_row_before (token_rows d)) d Ht Hc
    ltac:(intros x; apply first_row_elem) ltac:(destruct (Hpos d); lia)) as H1.
  destruct (withdraw_tokens _ _ d) as [d1|e] eqn:E; [|exact H1]. cbn [mbind res_bind].
  apply withdraw_tokens_frame in E as (E1 & E2 & E3).
  destruct (votes_stakes_same d d1) as (Hv1 & Hs1 & Hr1 & Hc1); try done.
  apply (withdraw_accounts_ok 0); try done. destruct (Hpos d1). lia.
Qed.

(** At most one token balance is paid per block.  The loop moves on from the
    new place of the row it has just paid, so, unless a payout is more than a
    week late, every other balance that is due is passed over and waits for a
    later block. *)
Theorem one_token_withdrawal_per_block fuel d d' :
  token_schedules_ok d → clock_ok d →
  (∀ k b, regular_balances d !! k = Some b → now d < token_schedule b + SST_VESTING_WITHDRAW_INTERVAL_SECONDS) →
  withdraw_tokens fuel (first_row token_row_before (token_rows d)) d = Ok d' →
  ∃ k, ∀ k', k' ≠ k → regular_balances d' !! k' = regular_balances d !! k'.
Proof.
  intros Hs Hc Hlate H. destruct (first_row _ _) as [x|] eqn:Ex.
  2: { destruct fuel; injection H as <-; by exists ("", 0). }
  destruct (token_rows_elem d x (first_row_elem _ _ _ Ex)) as (b & Hb & Es). exists x.2.
  destruct fuel as [|fuel]; cbn [withdraw_tokens] in H;
    (destruct (Z.leb_spec x.1 (now d)) as [Hdue|]; [|injection H as <-; done]); [done|].
  rewrite Hb in H. cbn [from_option_exn mbind res_bind] in H. apply bind_Ok in H as (d1 & H1 & H).
  apply withdraw_token_Ok in H1 as (b' & Eb & _ & _ & Eg & Hnext). rewrite Eb, lookup_insert_eq in H.
  cbn [from_option_exn mbind res_bind] in H. fold (token_schedule b') in H.
  assert (now d < token_schedule b') as Hlt.
  { pose proof (Hlate _ _ Hb). pose proof (Hs _ _ Hb) as Hu.
    unfold clock_ok, freezone_VESTING_WITHDRAW_INTERVAL_SECONDS, time_point_sec_maximum in Hc.
    destruct Hnext as [-> | ->]; [unfold time_point_sec_maximum; lia|].
    unfold u32. rewrite wrapu_small; [done|]. unfold in_u, SST_VESTING_WITHDRAW_INTERVAL_SECONDS in *. lia. }
  assert (now d1 = now d) as En by (unfold now; by rewrite Eg).
  assert (d' = d1) as ->.
  { destruct (next_row _ _ _) as [y|] eqn:Ey; [|destruct fuel; by injection H as <-].
    unfold next_row in Ey. apply first_row_elem, list_elem_of_In, filter_In in Ey as [_ Hy].
    unfold token_row_before in Hy. cbn [fst snd] in Hy.
    assert (now d < y.1) as Hny.
    { apply orb_true_iff in Hy as [Hy%Z.ltb_lt|[Hy%Z.eqb_eq _]%andb_true_iff]; lia. }
    destruct fuel; cbn [withdraw_tokens] in H; rewrite En, (proj2 (Z.leb_gt y.1 (now d))) in H by done; by injection H as <-. }
  intros k' Hk. rewrite Eb. by apply lookup_insert_ne.
Qed.

(** ** A chain with payouts due

    Alice votes for a witness and is Bob's proxy; she powers down 100 shares a
    week, half of it to Bob.  Two balances of a token are due as well. *)

Definition sample_token : Z := 6 * 32 + 16 + 3.

Definition plain_stake (shares : Z) : mana_account :=
  ManaAccount shares 0 0 time_point_sec_maximum 0 0 0 (Manabar 0 0) (Manabar 0 0).
Definition down_stake (shares rate next to_withdraw : Z) : mana_account :=
  ManaAccount shares 0 0 next rate to_withdraw 0 (Manabar 0 0) (Manabar 0 0).

Definition staking_account (fz : Z) (m : mana_account) (p : name) (proxied : list Z) : account :=
  Account fz 0 (SbdAccount 0 (U128 0 0) 0 0) (SbdAccount 0 (U128 0 0) 0 0) 0 0 0 0 0 m 0 p proxied 0 true.

Definition sample_alice : account := staking_account 0 (down_stake 1300 100 1000000 1300) "" [100; 0; 0; 0].
Definition sample_bob : account := staking_account 0 (plain_stake 100) "alice" [0; 0; 0; 0].

Definition sample_chain (vest : bool) : db :=
  DB {[ "alice" := sample_alice; "bob" := sample_bob ]}
    {[ ("alice", sample_token) := RegularBalance 0 (down_stake 130 10 999999 130);
       ("bob", sample_token) := RegularBalance 0 (down_stake 130 10 999999 130) ]}
    ∅
    {[ sample_token := SstToken launch_success 260 260 260 1000 1000 0 0 0 0 0 true 432000 ]}
    ∅ ∅ ∅ ∅ ∅ ∅ ∅
    (Staking {[ "wit" := Witness 1400 (U128 0 0) (U128 0 0) (U128 0 0) ]} {[ ("alice", "wit") ]} (U128 0 0)
       {[ ("alice", "bob") := WithdrawRoute 5000 vest ]} ∅ ∅ 30)
    0 (GPO 1000 1000000 1400 0 0 1400 1400 1400 0 0 0 0 10000 10 432000 2500)
    null_price 24.

Lemma sample_accounts vest n a :
  accounts (sample_chain vest) !! n = Some a → (n = "alice" ∧ a = sample_alice) ∨ (n = "bob" ∧ a = sample_bob).
Proof. cbn. rewrite lookup_insert_Some, lookup_singleton_Some. intros [[<- <-]|[_ [<- <-]]]; auto. Qed.

Lemma sample_votes_ok vest : votes_ok (sample_chain vest).
Proof.
  split; [split| |].
  - intros n a [[-> ->]|[-> ->]]%sample_accounts; done.
  - intros n w a. cbn. rewrite elem_of_singleton. intros [= -> ->] [[_ ->]|[? ?]]%sample_accounts; done.
  - intros n a Ha. destruct (sample_accounts vest n a Ha) as [[-> ->]|[-> ->]].
    + exists O. by eapply depth_end.
    + exists 1%nat. eapply depth_next; [done..|]. by eapply depth_end.
  - by vm_compute.
  - intros w. destruct (decide (w = "wit")) as [->|Hne]; [by vm_compute|].
    unfold tally_error, tally, votes_cast. cbn [sample_chain staking witnesses]. rewrite lookup_singleton_ne by done.
    rewrite (msum_ext _ (λ _ _, 0)); [by vm_compute|]. intros n a _. unfold cast. rewrite decide_False; [done|].
    cbn. rewrite elem_of_singleton. congruence.
Qed.

Lemma sample_stakes_ok vest : stakes_ok (sample_chain vest).
Proof.
  intros n a [[_ ->]|[_ ->]]%sample_accounts; split; cbn; unfold in_u; try lia; try done.
  intros _. split_and!; [lia|by exists 0|lia].
Qed.

Lemma sample_routes_ok vest : routes_ok (sample_chain vest).
Proof. intros k r. cbn. rewrite lookup_singleton_Some. intros [_ <-]. done. Qed.

Lemma sample_tokens vest k b : regular_balances (sample_chain vest) !! k = Some b → b = RegularBalance 0 (down_stake 130 10 999999 130).
Proof. cbn. rewrite lookup_insert_Some, lookup_singleton_Some. naive_solver. Qed.

Lemma sample_schedules_ok vest : token_schedules_ok (sample_chain vest).
Proof. intros k b ->%sample_tokens. done. Qed.

Lemma sample_not_late vest k b :
  regular_balances (sample_chain vest) !! k = Some b →
  now (sample_chain vest) < token_schedule b + SST_VESTING_WITHDRAW_INTERVAL_SECONDS.
Proof. intros ->%sample_tokens. done. Qed.

Lemma vesting_payouts_end_witness :
  process_vesting_withdrawals (sample_chain false) ≠ Throw fuel_exhausted
  ∧ is_ok (process_vesting_withdrawals (sample_chain false)) = true.
Proof.
  split; [|vm_compute; reflexivity].
  apply vesting_payouts_end;
    [apply sample_schedules_ok|apply sample_routes_ok|apply sample_votes_ok|apply sample_stakes_ok|done].
Defined.

(** Of the two token balances that are due, Bob's is not paid. *)
Lemma one_token_withdrawal_per_block_witness :
  ∃ d', withdraw_tokens 3 (first_row token_row_before (token_rows (sample_chain false))) (sample_chain false) = Ok d'
    ∧ (∃ k, ∀ k', k' ≠ k → regular_balances d' !! k' = regular_balances (sample_chain false) !! k')
    ∧ regular_balances d' !! ("bob", sample_token) = regular_balances (sample_chain false) !! ("bob", sample_token)
    ∧ regular_balances d' !! ("alice", sample_token) ≠ regular_balances (sample_chain false) !! ("alice", sample_token).
Proof.
  destruct (withdraw_tokens 3 (first_row token_row_before (token_rows (sample_chain false))) (sample_chain false))
    as [d'|e] eqn:E; [|by vm_compute in E].
  exists d'. split; [done|]. split.
  - refine (one_token_withdrawal_per_block 3 (sample_chain false) d' (sample_schedules_ok _) _ (sample_not_late _) E).
    by vm_compute.
  - vm_compute in E. injection E as <-. split; [vm_compute; reflexivity|by vm_compute].
Defined.
