(* ===== verification/Delegation.v ===== *)
(** * Delegation of vesting shares

    The evaluator of delegate_vesting_shares for accounts and for token
    balances, the return of expired delegations, and the proof that the shares
    an account has delegated and received are always the sums of the rows that
    record them. *)

From S2P Require Import Prelude Config AccountName Uint128 SafeInt AssetSymbol Asset Manabar MapSum State Ledger Votes Vesting Payouts.
From stdpp Require Import gmap strings.
#[local] Open Scope Z_scope.

(** ** The rows the templates are generic over *)

(** [AccountType] is account_object or account_regular_balance_object: a stake
    is named by its account, or by account and liquid symbol. *)
Inductive stake_row : Type :=
| account_stake (n : name)
| token_stake (n : name) (s : Z).

#[global] Instance stake_row_eq_dec : EqDecision stake_row.
Proof. solve_decision. Defined.

Definition stake_owner (r : stake_row) : name :=
  match r with account_stake n => n | token_stake n _ => n end.

(** The liquid symbol of the shares. *)
Definition stake_symbol (r : stake_row) : Z :=
  match r with account_stake _ => freezone_SYMBOL | token_stake _ s => s end.

Definition find_stake (r : stake_row) (d : db) : option mana_account :=
  match r with
  | account_stake n => stake <$> accounts d !! n
  | token_stake n s => rb_stake <$> regular_balances d !! (n, s)
  end.

Definition put_stake (r : stake_row) (m : mana_account) : db → db :=
  match r with
  | account_stake n => set_accounts (alter (set_stake m) n)
  | token_stake n s => set_regular_balances (alter (λ b, RegularBalance (liquid b) m) (n, s))
  end.

(** [modify( row, f )] *)
Definition modify_stake (r : stake_row) (f : mana_account → res mana_account) (d : db) : res db :=
  m ← from_option_exn out_of_range (find_stake r d);
  m ← f m;
  mret (put_stake r m d).

Definition set_ma_delegated (v : Z) (m : mana_account) : mana_account :=
  ManaAccount (ma_vesting_shares m) (ma_received_vesting_shares m) v (ma_next_vesting_withdrawal m)
    (ma_vesting_withdraw_rate m) (ma_to_withdraw m) (ma_withdrawn m) (voting_manabar m) (downvote_manabar m).
Definition set_ma_received (v : Z) (m : mana_account) : mana_account :=
  ManaAccount (ma_vesting_shares m) v (ma_delegated_vesting_shares m) (ma_next_vesting_withdrawal m)
    (ma_vesting_withdraw_rate m) (ma_to_withdraw m) (ma_withdrawn m) (voting_manabar m) (downvote_manabar m).

(** ** What can be delegated *)

(** [( uint128_t( x ) * downvote_pool_percent / 100% ).to_int64()] *)
Definition downvote_part (x : Z) (g : global_properties) : res Z :=
  p ← mul_assign (uint128_of_i64 x) (uint128_of_i64 (downvote_pool_percent g));
  p ← div_assign p (uint128_of_i64 freezone_100_PERCENT);
  to_int64 p.

(** The shares whose part of the downvote mana is the current downvote mana. *)
Definition available_downvotes (m : mana_account) (d : db) : res Z :=
  let pct := downvote_pool_percent (gpo d) in
  let mana := current_mana (downvote_manabar m) in
  if has_hardfork freezone_HARDFORK_0_22 d then
    x ← mul_assign (uint128_of_i64 mana) (uint128_of_i64 freezone_100_PERCENT);
    x ← div_assign x (uint128_of_i64 pct);
    to_int64 (sub_assign (add_assign x (uint128_of_i64 (freezone_100_PERCENT / pct))) (uint128_of_i64 1))
  else
    mret (i64 (i64 (i64 (mana * freezone_100_PERCENT) ÷ pct + freezone_100_PERCENT / pct) - 1)).

(** Shares being powered down cannot be delegated; the mana excludes only the
    part of the current week. *)
Definition exclude_power_down (m : mana_account) (available : Z) : res Z :=
  if ma_next_vesting_withdrawal m <? time_point_sec_maximum then
    remaining ← safe_sub (ma_to_withdraw m) (ma_withdrawn m);
    if ma_vesting_withdraw_rate m <? remaining then
      let weekly_withdraw := Z.min (ma_vesting_withdraw_rate m) (i64 (ma_to_withdraw m - ma_withdrawn m)) in
      x ← safe_sub weekly_withdraw remaining;
      safe_add available x
    else mret available
  else mret available.

(** [available_shares] and [available_downvote_shares]; the mana of the
    delegator has been refreshed, [max_mana] was taken before. *)
Definition available_shares (max_mana : Z) (m : mana_account) (d : db) : res (Z * Z) :=
  if has_hardfork freezone_HARDFORK_0_20 d then
    let available := current_mana (voting_manabar m) in
    downvotes ← (if downvote_pool_percent (gpo d) =? 0 then mret available else available_downvotes m d);
    own ← safe_sub max_mana (ma_received_vesting_shares m);
    available ← exclude_power_down m (Z.min available own);
    downvotes ← exclude_power_down m (Z.min downvotes own);
    mret (available, downvotes)
  else
    x ← safe_sub (ma_vesting_shares m) (ma_delegated_vesting_shares m);
    remaining ← safe_sub (ma_to_withdraw m) (ma_withdrawn m);
    available ← safe_sub x remaining;
    mret (available, 0).

(** [min_delegation] and [min_update]. *)
Definition delegation_minimums (symbol : Z) (d : db) : res (Z * Z) :=
  if symbol =? VESTS_SYMBOL then
    let fee := account_creation_fee (staking d) in
    let in_vests x := p ← get_vesting_share_price (gpo d);
                      v ← asset_mul_price (Asset x freezone_SYMBOL) p;
                      mret (amount v) in
    if has_hardfork freezone_HARDFORK_0_20 d then
      x ← safe_div fee 3; min_delegation ← in_vests x;
      x ← safe_div fee 30; min_update ← in_vests x;
      mret (min_delegation, min_update)
    else
      x ← safe_mul fee 10; min_delegation ← in_vests x;
      min_update ← in_vests fee;
      mret (min_delegation, min_update)
  else mret (0, 0).

(** ** The writes of a delegation *)

(** Both manabars of an account that gives [x] shares away. *)
Definition use_delegated_mana (x : Z) (d : db) (m : mana_account) : res mana_account :=
  if has_hardfork freezone_HARDFORK_0_20 d then
    let v := use_mana x 0 (voting_manabar m) in
    if has_hardfork freezone_HARDFORK_0_22 d then
      p ← downvote_part x (gpo d);
      mret (set_manabars m v (use_mana p 0 (downvote_manabar m)))
    else if has_hardfork freezone_HARDFORK_0_21 d then
      mret (set_manabars m v (use_mana x 0 (downvote_manabar m)))
    else mret (set_manabars m v (downvote_manabar m))
  else mret m.

Definition give_shares (x : Z) (d : db) (m : mana_account) : res mana_account :=
  v ← safe_add (ma_delegated_vesting_shares m) x;
  use_delegated_mana x d (set_ma_delegated v m).

Definition receive_shares (regeneration_seconds x : Z) (d : db) (m : mana_account) : res mana_account :=
  m ← refresh_mana regeneration_seconds x d m;
  v ← safe_add (ma_received_vesting_shares m) x;
  mret (set_ma_received v m).

(** A manabar that has been used is not left below 0. *)
Definition no_debt (m : manabar) : manabar := Manabar (Z.max 0 (current_mana m)) (last_update_time m).

(** The delegatee of a delegation that falls by [delta] to [vesting_shares]. *)
Definition lose_shares (regeneration_seconds delta vesting_shares : Z) (d : db) (m : mana_account) : res mana_account :=
  m ← (if has_hardfork freezone_HARDFORK_0_22 d then refresh_mana regeneration_seconds 0 d m else mret m);
  v ← safe_sub (ma_received_vesting_shares m) delta;
  let m := set_ma_received v m in
  if has_hardfork freezone_HARDFORK_0_20 d then
    let vm := no_debt (use_mana delta 0 (voting_manabar m)) in
    if has_hardfork freezone_HARDFORK_0_21 d then
      p ← (if has_hardfork freezone_HARDFORK_0_22 d then downvote_part delta (gpo d) else mret vesting_shares);
      mret (set_manabars m vm (no_debt (use_mana p 0 (downvote_manabar m))))
    else mret (set_manabars m vm (downvote_manabar m))
  else mret m.

(** [delegate_vesting_shares_operation] has been validated: the shares are of
    the vesting symbol paired with the symbol of both rows, and not negative. *)
Definition generic_delegate_vesting_shares (delegator delegatee : stake_row) (vesting_shares : asset)
    (vote_regeneration_period_seconds : Z) (d : db) : res db :=
  let shares := amount vesting_shares in
  let key := (stake_owner delegator, stake_owner delegatee, get_paired_symbol (symbol vesting_shares)) in
  before ← from_option_exn out_of_range (find_stake delegator d);
  d ← modify_stake delegator (refresh_mana vote_regeneration_period_seconds 0 d) d;
  m ← from_option_exn out_of_range (find_stake delegator d);
  '(available, available_downvote) ← available_shares (get_effective_vesting_shares before) m d;
  '(min_delegation, min_update) ← delegation_minimums (symbol vesting_shares) d;
  let check_available x :=
    _ ← fc_assert (x <=? available);
    if has_hardfork freezone_HARDFORK_0_21 d then fc_assert (x <=? available_downvote) else mret tt in
  match delegations (staking d) !! key with
  | None =>
      _ ← check_available shares;
      _ ← fc_assert (min_delegation <=? shares);
      let d := set_delegations <[key := Delegation shares (now d)]> d in
      d ← modify_stake delegator (give_shares shares d) d;
      modify_stake delegatee (receive_shares vote_regeneration_period_seconds shares d) d
  | Some delegation =>
      let row x := Delegation x (min_delegation_time delegation) in
      if dg_vesting_shares delegation <=? shares then
        delta ← safe_sub shares (dg_vesting_shares delegation);
        _ ← fc_assert (min_update <=? delta);
        _ ← check_available delta;
        d ← modify_stake delegator (give_shares delta d) d;
        d ← modify_stake delegatee (receive_shares vote_regeneration_period_seconds delta d) d;
        mret (set_delegations <[key := row shares]> d)
      else
        delta ← safe_sub (dg_vesting_shares delegation) shares;
        _ ← (if 0 <? shares then
               _ ← fc_assert (min_update <=? delta);
               fc_assert (min_delegation <=? shares)
             else fc_assert (0 <? dg_vesting_shares delegation));
        let expiration := Z.max (u32 (now d + delegation_return_period (gpo d))) (min_delegation_time delegation) in
        let d := set_next_id (next_id d + 1)
                   (set_expirations
                      <[next_id d := DelegationExpiration (stake_owner delegator) (Asset delta (symbol vesting_shares))
                                       expiration]> d) in
        d ← modify_stake delegatee (lose_shares vote_regeneration_period_seconds delta shares d) d;
        mret (set_delegations (if 0 <? shares then <[key := row shares]> else delete key) d)
  end.

(** ** delegate_vesting_shares *)

Record delegate_vesting_shares_operation : Type := DelegateVestingShares {
  dv_delegator : name;
  dv_delegatee : name;
  dv_vesting_shares : asset
}.

Definition delegate_vesting_shares_validate (o : delegate_vesting_shares_operation) : res unit :=
  _ ← validate_account_name (dv_delegator o);
  _ ← validate_account_name (dv_delegatee o);
  _ ← fc_assert (negb (bool_decide (dv_delegator o = dv_delegatee o)));
  _ ← fc_assert (is_vesting (symbol (dv_vesting_shares o)));
  fc_assert (0 <=? amount (dv_vesting_shares o)).

Definition delegate_vesting_shares_apply (o : delegate_vesting_shares_operation) (d : db) : res db :=
  match space (symbol (dv_vesting_shares o)) with
  | legacy_space =>
      _ ← get_account (dv_delegator o) d;
      _ ← get_account (dv_delegatee o) d;
      generic_delegate_vesting_shares (account_stake (dv_delegator o)) (account_stake (dv_delegatee o))
        (dv_vesting_shares o) freezone_VOTING_MANA_REGENERATION_SECONDS d
  | SST_nai_space =>
      let s := get_paired_symbol (symbol (dv_vesting_shares o)) in
      token ← from_option_exn out_of_range (sst_tokens d !! s);
      _ ← from_option_exn assert_exception (regular_balances d !! (dv_delegator o, s));
      let d := match regular_balances d !! (dv_delegatee o, s) with
               | Some _ => d
               | None => set_regular_balances <[(dv_delegatee o, s) := RegularBalance 0 initial_stake]> d
               end in
      generic_delegate_vesting_shares (token_stake (dv_delegator o) s) (token_stake (dv_delegatee o) s)
        (dv_vesting_shares o) (tk_regeneration_seconds token) d
  end.

(** ** clear_expired_delegations *)

(** The key of by_expiration. *)
Definition expiration_row : Type := Z * Z.
Definition expiration_row_before (x y : expiration_row) : bool := (x.1 <? y.1) || ((x.1 =? y.1) && (x.2 <? y.2)).
Definition expiration_rows (d : db) : list expiration_row :=
  (λ x, (de_expiration x.2, x.1)) <$> map_to_list (expirations (staking d)).

Definition generic_clear_expired_delegations (account : stake_row) (o : delegation_expiration)
    (vote_regeneration_period_seconds : Z) (d : db) : res db :=
  modify_stake account (λ m,
    m ← refresh_mana vote_regeneration_period_seconds (amount (de_vesting_shares o)) d m;
    v ← safe_sub (ma_delegated_vesting_shares m) (amount (de_vesting_shares o));
    mret (set_ma_delegated v m)) d.

Definition return_delegation (id : Z) (o : delegation_expiration) (d : db) : res db :=
  let s := symbol (de_vesting_shares o) in
  d ← match space s with
      | legacy_space =>
          generic_clear_expired_delegations (account_stake (de_delegator o)) o freezone_VOTING_MANA_REGENERATION_SECONDS d
      | SST_nai_space =>
          token ← from_option_exn out_of_range (sst_tokens d !! get_paired_symbol s);
          generic_clear_expired_delegations (token_stake (de_delegator o) (get_paired_symbol s)) o
            (tk_regeneration_seconds token) d
      end;
  mret (set_expirations (delete id) d).

Fixpoint return_delegations (fuel : nat) (d : db) : res db :=
  match first_row expiration_row_before (expiration_rows d) with
  | None => mret d
  | Some x =>
      if x.1 <? now d then
        match fuel with
        | O => Throw fuel_exhausted
        | S fuel =>
            o ← from_option_exn out_of_range (expirations (staking d) !! x.2);
            d ← return_delegation x.2 o d;
            return_delegations fuel d
        end
      else mret d
  end.

(** Every turn removes a row. *)
Definition clear_expired_delegations (d : db) : res db :=
  return_delegations (size (expirations (staking d))) d.

(** ** Rows and what the writes keep *)

Lemma find_put_eq r m m' d : find_stake r d = Some m → find_stake r (put_stake r m' d) = Some m'.
Proof.
  destruct r as [n|n s]; simpl; intros H; rewrite lookup_alter_eq; apply fmap_Some in H as (x & -> & _); done.
Qed.

Lemma find_put_ne r r' m d : r' ≠ r → find_stake r' (put_stake r m d) = find_stake r' d.
Proof. destruct r, r'; simpl; intros H; try done; rewrite lookup_alter_ne by congruence; done. Qed.

Lemma modify_stake_Ok r f d d' :
  modify_stake r f d = Ok d' → ∃ m m', find_stake r d = Some m ∧ f m = Ok m' ∧ d' = put_stake r m' d.
Proof. unfold modify_stake. intros H. res_inv. eauto. Qed.

(** Everything but stakes. *)
Lemma put_stake_staking r m d : staking (put_stake r m d) = staking d.
Proof. by destruct r. Qed.
Lemma put_stake_gpo r m d : gpo (put_stake r m d) = gpo d.
Proof. by destruct r. Qed.
Lemma put_stake_hardforks r m d : processed_hardforks (put_stake r m d) = processed_hardforks d.
Proof. by destruct r. Qed.
Lemma put_stake_next_id r m d : next_id (put_stake r m d) = next_id d.
Proof. by destruct r. Qed.


(** The members of a stake other than the manabars. *)
Definition mana_only (m m' : mana_account) : Prop := ∃ v w, m' = set_manabars m v w.

Lemma mana_only_refl m : mana_only m m.
Proof. exists (voting_manabar m), (downvote_manabar m). by destruct m. Qed.
Lemma mana_only_set m v w : mana_only m (set_manabars m v w).
Proof. by exists v, w. Qed.
#[local] Hint Resolve mana_only_refl mana_only_set : freezone.

Lemma update_manabar_keeps t p a sec b x a' : update_manabar t p a sec b x = Ok a' → mana_only a a'.
Proof. unfold update_manabar. intros H. repeat frame_step; auto with freezone. Qed.

Lemma refresh_mana_keeps sec x d m m' : refresh_mana sec x d m = Ok m' → mana_only m m'.
Proof. unfold refresh_mana. intros H. frame_step; [by eapply update_manabar_keeps|]. injection H as <-. auto with freezone. Qed.

Lemma give_shares_Ok x d m m' :
  give_shares x d m = Ok m' → mana_only (set_ma_delegated (ma_delegated_vesting_shares m + x) m) m'.
Proof.
  unfold give_shares, use_delegated_mana. intros H. apply bind_Ok in H as (v & ->%safe_add_value & H).
  repeat frame_step; auto with freezone.
Qed.

Lemma receive_shares_Ok sec x d m m' :
  receive_shares sec x d m = Ok m' →
  mana_only (set_ma_received (ma_received_vesting_shares m + x) m) m'
  ∧ safe_add (ma_received_vesting_shares m) x = Ok (ma_received_vesting_shares m').
Proof.
  unfold receive_shares. intros H. apply bind_Ok in H as (m1 & (v & w & ->)%refresh_mana_keeps & H).
  apply bind_Ok in H as (y & Hy & H). injection H as <-. split; [|exact Hy].
  apply safe_add_value in Hy as ->. by exists v, w.
Qed.

Lemma lose_shares_Ok sec x sh d m m' :
  lose_shares sec x sh d m = Ok m' → mana_only (set_ma_received (ma_received_vesting_shares m - x) m) m'.
Proof.
  unfold lose_shares. intros H. apply bind_Ok in H as (m1 & H1 & H).
  assert (mana_only m m1) as (v & w & ->).
  { destruct (has_hardfork freezone_HARDFORK_0_22 d); [by eapply refresh_mana_keeps|].
    injection H1 as <-. auto with freezone. }
  apply bind_Ok in H as (y & ->%safe_sub_value & H). cbn in H.
  destruct (has_hardfork freezone_HARDFORK_0_20 d); [|injection H as <-; by exists v, w].
  destruct (has_hardfork freezone_HARDFORK_0_21 d); [|injection H as <-; eexists _, _; done].
  apply bind_Ok in H as (p & _ & H). injection H as <-. eexists _, _; done.
Qed.

(** ** What can be delegated is what the account has *)

Lemma i64_congruent x : ∃ k, i64 x = x + k * 2 ^ 64.
Proof.
  exists (- ((x + 2 ^ 63) / 2 ^ 64)). unfold i64, wraps. change (64 - 1) with 63.
  pose proof (Z.div_mod (x + 2 ^ 63) (2 ^ 64) ltac:(lia)). lia.
Qed.

(** Two 64-bit integers that differ by a multiple of [2^64]. *)
Lemma congruent_eq x y k : in_s 64 x → in_s 64 y → x = y + k * 2 ^ 64 → x = y.
Proof. int_unfold. nia. Qed.

(** The shares neither delegated nor being powered down. *)
Definition own_shares (m : mana_account) : Z :=
  ma_vesting_shares m - ma_delegated_vesting_shares m
  - (if ma_next_vesting_withdrawal m =? time_point_sec_maximum then 0 else ma_to_withdraw m - ma_withdrawn m).

Lemma effective_own m x :
  stake_ok m → in_s 64 (ma_received_vesting_shares m) →
  safe_sub (get_effective_vesting_shares m) (ma_received_vesting_shares m) = Ok x →
  x = ma_vesting_shares m - ma_delegated_vesting_shares m
      - (if ma_next_vesting_withdrawal m =? time_point_sec_maximum then 0
         else Z.min (ma_vesting_withdraw_rate m) (ma_to_withdraw m - ma_withdrawn m)).
Proof.
  intros [Hv Hd Hr Ht Hw Hn Hdown] Hrec H.
  assert (in_s 64 (get_effective_vesting_shares m)) as He.
  { unfold get_effective_vesting_shares. by case_match; apply wraps_in. }
  apply safe_sub_Ok in H as [-> Hx]; [|done..].
  unfold get_effective_vesting_shares in *.
  destruct (i64_congruent (ma_vesting_shares m + ma_received_vesting_shares m)) as [k1 E1].
  destruct (i64_congruent (i64 (ma_vesting_shares m + ma_received_vesting_shares m) - ma_delegated_vesting_shares m))
    as [k2 E2].
  destruct (Z.eqb_spec (ma_next_vesting_withdrawal m) time_point_sec_maximum) as [Hmax|Hmax]; cbn [negb] in *.
  - eapply (congruent_eq _ _ (k1 + k2)); [done|int_unfold; lia|lia].
  - destruct (Hdown Hmax) as (? & ? & ?).
    assert (i64 (ma_to_withdraw m - ma_withdrawn m) = ma_to_withdraw m - ma_withdrawn m) as E
      by (apply wraps_small; [lia|int_unfold; lia]).
    rewrite E in *.
    destruct (i64_congruent (i64 (i64 (ma_vesting_shares m + ma_received_vesting_shares m) - ma_delegated_vesting_shares m)
      - Z.min (ma_vesting_withdraw_rate m) (ma_to_withdraw m - ma_withdrawn m))) as [k3 E3].
    eapply (congruent_eq _ _ (k1 + k2 + k3)); [done|int_unfold; lia|lia].
Qed.

Lemma exclude_power_down_le m x y :
  stake_ok m → exclude_power_down m x = Ok y →
  x <= ma_vesting_shares m - ma_delegated_vesting_shares m
       - (if ma_next_vesting_withdrawal m =? time_point_sec_maximum then 0
          else Z.min (ma_vesting_withdraw_rate m) (ma_to_withdraw m - ma_withdrawn m)) →
  y <= own_shares m.
Proof.
  unfold own_shares. intros [Hv Hd Hr Ht Hw Hn _] H Hx. unfold exclude_power_down in H.
  destruct (Z.ltb_spec (ma_next_vesting_withdrawal m) time_point_sec_maximum) as [Hlt|Hge].
  - rewrite (proj2 (Z.eqb_neq _ _)) in * by lia. apply bind_Ok in H as (r & ->%safe_sub_value & H).
    assert (i64 (ma_to_withdraw m - ma_withdrawn m) = ma_to_withdraw m - ma_withdrawn m) as E
      by (apply wraps_small; [lia|int_unfold; lia]).
    destruct (Z.ltb_spec (ma_vesting_withdraw_rate m) (ma_to_withdraw m - ma_withdrawn m)); [|injection H as <-; lia].
    rewrite E in H. apply bind_Ok in H as (z & ->%safe_sub_value & H). apply safe_add_value in H. lia.
  - injection H as <-. unfold in_u in Hn. unfold time_point_sec_maximum in *. rewrite (proj2 (Z.eqb_eq _ _)) in * by lia. lia.
Qed.

(** The check of a delegation lets through at most the shares the account has
    not delegated and is not powering down. *)
Lemma available_shares_own m m' d a b :
  stake_ok m → in_s 64 (ma_received_vesting_shares m) → mana_only m m' →
  available_shares (get_effective_vesting_shares m) m' d = Ok (a, b) → a <= own_shares m.
Proof.
  intros Hm Hr (v & w & ->) H. unfold available_shares in H. cbn in H.
  destruct (has_hardfork freezone_HARDFORK_0_20 d).
  - apply bind_Ok in H as (dv & _ & H). apply bind_Ok in H as (own & Hown & H). apply bind_Ok in H as (x & Hx & H).
    apply bind_Ok in H as (y & _ & H). injection H as <- _.
    apply (effective_own m own Hm Hr) in Hown. change (exclude_power_down m (Z.min (current_mana v) own) = Ok x) in Hx.
    apply (exclude_power_down_le m _ _ Hm) in Hx; [done|lia].
  - destruct Hm. repeat (apply bind_Ok in H as (? & ?%safe_sub_value & H)). injection H as <- _. subst.
    unfold own_shares. case_match; lia.
Qed.

Lemma put_put r m m' d : put_stake r m' (put_stake r m d) = put_stake r m' d.
Proof.
  destruct d, r; unfold put_stake, set_accounts, set_regular_balances; f_equal; cbn; rewrite alter_alter_eq;
    by apply alter_ext.
Qed.

Lemma put_same r m d : find_stake r d = Some m → put_stake r m d = d.
Proof.
  destruct d, r; unfold put_stake, set_accounts, set_regular_balances; cbn; intros (x & Hx & E)%fmap_Some;
    f_equal; apply alter_id; intros y Hy; rewrite Hx in Hy; injection Hy as <-; subst m; by destruct x.
Qed.

Lemma put_set_delegations f r m d : set_delegations f (put_stake r m d) = put_stake r m (set_delegations f d).
Proof. by destruct r. Qed.
Lemma put_set_expirations f r m d : set_expirations f (put_stake r m d) = put_stake r m (set_expirations f d).
Proof. by destruct r. Qed.
Lemma put_set_next_id i r m d : set_next_id i (put_stake r m d) = put_stake r m (set_next_id i d).
Proof. by destruct r. Qed.
Lemma find_set_staking f r d : find_stake r (set_staking f d) = find_stake r d.
Proof. by destruct r. Qed.
Lemma find_set_next_id i r d : find_stake r (set_next_id i d) = find_stake r d.
Proof. by destruct r. Qed.

(** ** The steps of a delegation *)

Abbreviation delegation_key := (name * name * Z)%type.

Definition delegated_amount (key : delegation_key) (d : db) : Z :=
  from_option dg_vesting_shares 0 (delegations (staking d) !! key).

(** When shares that are taken back from the delegation [g] return. *)
Definition return_time (g : delegation) (d : db) : Z :=
  Z.max (u32 (now d + delegation_return_period (gpo d))) (min_delegation_time g).

(** The rows of the tables after a delegation of [x] more shares, or less. *)
Inductive delegated (a b : stake_row) (key : delegation_key) (v : asset) (d : db) : db → Prop :=
| delegated_more x t ma mb ma' mb' :
    find_stake a d = Some ma → find_stake b d = Some mb → 0 <= x → x <= own_shares ma →
    amount v = delegated_amount key d + x →
    mana_only (set_ma_delegated (ma_delegated_vesting_shares ma + x) ma) ma' →
    mana_only (set_ma_received (ma_received_vesting_shares mb + x) mb) mb' →
    safe_add (ma_received_vesting_shares mb) x = Ok (ma_received_vesting_shares mb') →
    delegated a b key v d
      (put_stake b mb' (put_stake a ma' (set_delegations <[key := Delegation (amount v) t]> d)))
| delegated_less x t e ma mb ma' mb' f g :
    find_stake a d = Some ma → find_stake b d = Some mb → 0 < x →
    delegations (staking d) !! key = Some g → 0 <= amount v → amount v = dg_vesting_shares g - x →
    mana_only ma ma' → mana_only (set_ma_received (ma_received_vesting_shares mb - x) mb) mb' →
    (amount v = 0 ∧ f = delete key ∨ f = insert key (Delegation (amount v) t)) → e = return_time g d →
    delegated a b key v d
      (put_stake b mb' (put_stake a ma'
        (set_delegations f
          (set_next_id (next_id d + 1)
            (set_expirations <[next_id d := DelegationExpiration (stake_owner a) (Asset x (symbol v)) e]> d))))).

Lemma mana_only_received m m' : mana_only m m' → ma_received_vesting_shares m' = ma_received_vesting_shares m.
Proof. by intros (v & w & ->). Qed.
Lemma mana_only_trans m1 m2 m3 : mana_only m1 m2 → mana_only m2 m3 → mana_only m1 m3.
Proof. intros (v & w & ->) (v' & w' & ->). by exists v', w'. Qed.
Lemma mana_only_delegated m m' m'' x :
  mana_only m m' → mana_only (set_ma_delegated (ma_delegated_vesting_shares m' + x) m') m'' →
  mana_only (set_ma_delegated (ma_delegated_vesting_shares m + x) m) m''.
Proof. intros (v & w & ->) (v' & w' & ->). by exists v', w'. Qed.

(** Every delegation that goes through is one of the two steps. *)
Lemma generic_delegate_Ok a b shares sec d d' ma mb :
  a ≠ b → 0 <= amount shares → find_stake a d = Some ma → find_stake b d = Some mb →
  stake_ok ma → in_s 64 (ma_received_vesting_shares ma) →
  (∀ k g, delegations (staking d) !! k = Some g → 0 <= dg_vesting_shares g) →
  generic_delegate_vesting_shares a b shares sec d = Ok d' →
  delegated a b (stake_owner a, stake_owner b, get_paired_symbol (symbol shares)) shares d d'.
Proof.
  intros Hab Hx Ha Hb Hok Hrec Hrows H. unfold generic_delegate_vesting_shares in H. rewrite Ha in H. cbn [from_option_exn mbind res_bind] in H.
  set (key := (stake_owner a, stake_owner b, get_paired_symbol (symbol shares))) in *.
  apply bind_Ok in H as (d1 & Hd1 & H). apply modify_stake_Ok in Hd1 as (m0 & m1 & Hm0 & Hm1 & ->).
  assert (m0 = ma) as -> by congruence. apply refresh_mana_keeps in Hm1.
  rewrite (find_put_eq _ ma) in H by done. cbn [from_option_exn mbind res_bind] in H.
  apply bind_Ok in H as ([av avd] & Hav & H). apply (available_shares_own ma) in Hav; [|done..].
  apply bind_Ok in H as ([mind minu] & _ & H). cbn [staking] in H. rewrite put_stake_staking in H.
  destruct (delegations (staking d) !! key) as [g|] eqn:Eg.
  - pose proof (Hrows _ _ Eg) as Hg. destruct (Z.leb_spec (dg_vesting_shares g) (amount shares)) as [Hle|Hlt].
    + apply bind_Ok in H as (delta & ->%safe_sub_value & H). apply bind_Ok in H as (? & _ & H).
      apply bind_Ok in H as (? & Hc & H). apply bind_Ok in Hc as (? & Hc%fc_assert_Ok & _). apply Z.leb_le in Hc.
      apply bind_Ok in H as (d2 & Hd2 & H). apply modify_stake_Ok in Hd2 as (my & m2 & Hx2 & Hm2 & ->).
      rewrite (find_put_eq _ ma) in Hx2 by done. injection Hx2 as <-. rewrite put_put in H.
      apply bind_Ok in H as (d3 & Hd3 & H). apply modify_stake_Ok in Hd3 as (mx & m3 & Hx3 & Hm3 & ->).
      rewrite find_put_ne in Hx3 by done. assert (mx = mb) as -> by congruence. injection H as <-.
      rewrite !put_set_delegations.
      apply (delegated_more a b key shares d (amount shares - dg_vesting_shares g)
        (min_delegation_time g) ma mb m2 m3 Ha Hb ltac:(lia) ltac:(lia)
        ltac:(unfold delegated_amount; rewrite Eg; simpl; lia)
        (mana_only_delegated _ _ _ _ Hm1 (give_shares_Ok _ _ _ _ Hm2)) (proj1 (receive_shares_Ok _ _ _ _ _ Hm3))
        (proj2 (receive_shares_Ok _ _ _ _ _ Hm3))).
    + apply bind_Ok in H as (delta & ->%safe_sub_value & H). apply bind_Ok in H as (? & Hc & H).
      rewrite put_stake_next_id, put_set_expirations, put_set_next_id in H.
      apply bind_Ok in H as (d2 & Hd2 & H). apply modify_stake_Ok in Hd2 as (mx & m3 & Hx3 & Hm3 & ->).
      rewrite find_put_ne, find_set_next_id in Hx3 by done. unfold set_expirations in Hx3. rewrite find_set_staking in Hx3.
      assert (mx = mb) as -> by congruence. injection H as <-. rewrite !put_set_delegations.
      eapply (delegated_less a b key shares d _ (min_delegation_time g) _ ma mb m1 m3 _ g);
        [done|done| |done|lia| |done|by eapply lose_shares_Ok| |]; [lia..| |].
      * destruct (Z.ltb_spec 0 (amount shares)); [by right|left; split; [lia|done]].
      * by destruct a.
  - apply bind_Ok in H as (? & Hc & H). apply bind_Ok in Hc as (? & Hc%fc_assert_Ok & _). apply Z.leb_le in Hc.
    apply bind_Ok in H as (? & _ & H). rewrite put_set_delegations in H.
    apply bind_Ok in H as (d2 & Hd2 & H). apply modify_stake_Ok in Hd2 as (my & m2 & Hx2 & Hm2 & ->).
    unfold set_delegations in Hx2. rewrite (find_put_eq _ ma) in Hx2 by (by rewrite find_set_staking).
    injection Hx2 as <-. rewrite put_put in H. apply modify_stake_Ok in H as (mx & m3 & Hx3 & Hm3 & ->).
    unfold set_delegations in Hx3. rewrite find_put_ne, find_set_staking in Hx3 by done.
    assert (mx = mb) as -> by congruence.
    apply (delegated_more a b key shares d (amount shares) (now (put_stake a m1 d)) ma mb m2 m3 Ha Hb Hx
      ltac:(lia) ltac:(unfold delegated_amount; by rewrite Eg) (mana_only_delegated _ _ _ _ Hm1 (give_shares_Ok _ _ _ _ Hm2)) (proj1 (receive_shares_Ok _ _ _ _ _ Hm3))
        (proj2 (receive_shares_Ok _ _ _ _ _ Hm3))).
Qed.

(** ** Delegated and received shares are accounted for *)

(** Token balances exist for symbols of tokens only. *)
Definition real_row (r : stake_row) : Prop :=
  match r with account_stake _ => True | token_stake _ s => token_symbol s end.

Definition stake_value (f : mana_account → Z) (r : stake_row) (d : db) : Z := from_option f 0 (find_stake r d).

(** The shares of a row of the delegation table that leave [r], that reach
    [r], and the shares on their way back to [r]. *)
Definition outgoing (r : stake_row) (k : delegation_key) (g : delegation) : Z :=
  if decide (k.1.1 = stake_owner r ∧ k.2 = stake_symbol r) then dg_vesting_shares g else 0.
Definition incoming (r : stake_row) (k : delegation_key) (g : delegation) : Z :=
  if decide (k.1.2 = stake_owner r ∧ k.2 = stake_symbol r) then dg_vesting_shares g else 0.
Definition returning (r : stake_row) (_ : Z) (e : delegation_expiration) : Z :=
  if decide (de_delegator e = stake_owner r ∧ get_paired_symbol (symbol (de_vesting_shares e)) = stake_symbol r)
  then amount (de_vesting_shares e) else 0.

Record delegations_ok (d : db) : Prop := DelegationsOk {
  do_out : ∀ r, real_row r →
    stake_value ma_delegated_vesting_shares r d
    = msum (outgoing r) (delegations (staking d)) + msum (returning r) (expirations (staking d));
  do_in : ∀ r, real_row r →
    stake_value ma_received_vesting_shares r d = msum (incoming r) (delegations (staking d));
  do_rows : ∀ k g, delegations (staking d) !! k = Some g → 0 <= dg_vesting_shares g;
  do_returns : ∀ i e, expirations (staking d) !! i = Some e →
    0 <= amount (de_vesting_shares e) ∧ i < next_id d
    ∧ (symbol (de_vesting_shares e) = VESTS_SYMBOL
       ∨ space (symbol (de_vesting_shares e)) = SST_nai_space
         ∧ token_symbol (get_paired_symbol (symbol (de_vesting_shares e))))
}.

Lemma row_eq r r' :
  real_row r → real_row r' → stake_owner r = stake_owner r' → stake_symbol r = stake_symbol r' → r = r'.
Proof.
  assert (space freezone_SYMBOL = legacy_space) by done.
  destruct r as [n|n s], r' as [n'|n' s']; simpl; intros H1 H2 E Es; subst; try done; destruct H1, H2; congruence.
Qed.

Lemma stake_value_put f r r' m0 m d :
  find_stake r d = Some m0 →
  stake_value f r' (put_stake r m d) = if decide (r' = r) then f m else stake_value f r' d.
Proof.
  intros H. unfold stake_value. destruct (decide (r' = r)) as [->|Hne]; [by rewrite (find_put_eq _ m0)|by rewrite find_put_ne].
Qed.

Lemma outgoing_key r a n g :
  real_row r → real_row a → outgoing r (stake_owner a, n, stake_symbol a) g = if decide (r = a) then dg_vesting_shares g else 0.
Proof.
  intros Hr Ha. unfold outgoing. cbn. destruct (decide (r = a)) as [->|Hne]; [by rewrite decide_True|].
  rewrite decide_False; [done|]. intros [E Es]. by apply Hne, row_eq.
Qed.
Lemma incoming_key r b n g :
  real_row r → real_row b → incoming r (n, stake_owner b, stake_symbol b) g = if decide (r = b) then dg_vesting_shares g else 0.
Proof.
  intros Hr Ha. unfold incoming. cbn. destruct (decide (r = b)) as [->|Hne]; [by rewrite decide_True|].
  rewrite decide_False; [done|]. intros [E Es]. by apply Hne, row_eq.
Qed.

(** A write of one row changes the sums of the rows it belongs to. *)
Lemma msum_key (f : delegation_key → delegation → Z) (P : Prop) `{Decision P} (k : delegation_key) (m : gmap delegation_key delegation) :
  (∀ g, f k g = if decide P then dg_vesting_shares g else 0) →
  (∀ g, msum f (<[k := g]> m)
        = msum f m + if decide P then dg_vesting_shares g - from_option dg_vesting_shares 0 (m !! k) else 0)
  ∧ msum f (delete k m) = msum f m - if decide P then from_option dg_vesting_shares 0 (m !! k) else 0.
Proof.
  intros Hf. assert (row f m k = if decide P then from_option dg_vesting_shares 0 (m !! k) else 0) as E.
  { unfold row. destruct (m !! k) as [g|]; [by rewrite Hf|by destruct (decide P)]. }
  split; [intros g; rewrite msum_insert, E, Hf|rewrite msum_delete, E]; destruct (decide P); lia.
Qed.

Lemma returning_new r a x s e i (m : gmap Z delegation_expiration) :
  real_row r → real_row a → get_paired_symbol s = stake_symbol a → m !! i = None →
  msum (returning r) (<[i := DelegationExpiration (stake_owner a) (Asset x s) e]> m)
  = msum (returning r) m + if decide (r = a) then x else 0.
Proof.
  intros Hr Ha Hs Hi. rewrite msum_insert_new by done. unfold returning at 1. cbn. rewrite Hs.
  destruct (decide (r = a)) as [->|Hne]; [rewrite decide_True by done; lia|].
  rewrite decide_False; [lia|]. intros [E Es]. by apply Hne, row_eq.
Qed.

(** A stake that gives or receives shares, as the members it had. *)
Lemma stake_values_give m m' x :
  mana_only (set_ma_delegated (ma_delegated_vesting_shares m + x) m) m' →
  ma_delegated_vesting_shares m' = ma_delegated_vesting_shares m + x
  ∧ ma_received_vesting_shares m' = ma_received_vesting_shares m.
Proof. by intros (v & w & ->). Qed.
Lemma stake_values_receive m m' x :
  mana_only (set_ma_received x m) m' →
  ma_delegated_vesting_shares m' = ma_delegated_vesting_shares m ∧ ma_received_vesting_shares m' = x.
Proof. by intros (v & w & ->). Qed.

Lemma stake_value_lookup f r d m : find_stake r d = Some m → stake_value f r d = f m.
Proof. unfold stake_value. by intros ->. Qed.

Section DelegationStep.

Context (a b : stake_row) (v : asset) (d : db).
Hypothesis Hab : a ≠ b.
Hypothesis Ha : real_row a.
Hypothesis Hb : real_row b.
Hypothesis Hsym : stake_symbol b = stake_symbol a.
Hypothesis Hs : get_paired_symbol (symbol v) = stake_symbol a.
Hypothesis Hvest :
  symbol v = VESTS_SYMBOL ∨ space (symbol v) = SST_nai_space ∧ token_symbol (get_paired_symbol (symbol v)).

Let key : delegation_key := (stake_owner a, stake_owner b, stake_symbol a).

Lemma out_key (r : stake_row) (m : gmap delegation_key delegation) :
  real_row r →
  (∀ g, msum (outgoing r) (<[key := g]> m)
        = msum (outgoing r) m + if decide (r = a) then dg_vesting_shares g - from_option dg_vesting_shares 0 (m !! key) else 0)
  ∧ msum (outgoing r) (delete key m) = msum (outgoing r) m - if decide (r = a) then from_option dg_vesting_shares 0 (m !! key) else 0.
Proof. intros Hr. apply msum_key. intros g. by apply outgoing_key. Qed.
Lemma in_key (r : stake_row) (m : gmap delegation_key delegation) :
  real_row r →
  (∀ g, msum (incoming r) (<[key := g]> m)
        = msum (incoming r) m + if decide (r = b) then dg_vesting_shares g - from_option dg_vesting_shares 0 (m !! key) else 0)
  ∧ msum (incoming r) (delete key m) = msum (incoming r) m - if decide (r = b) then from_option dg_vesting_shares 0 (m !! key) else 0.
Proof. intros Hr. apply msum_key. intros g. unfold key. rewrite <- Hsym. by apply incoming_key. Qed.

(** The stakes after both rows were written; [d1] has the stakes of [d]. *)
Lemma put_two h d1 ma mb ma' mb' r :
  (∀ r, find_stake r d1 = find_stake r d) → find_stake a d = Some ma → find_stake b d = Some mb →
  stake_value h r (put_stake b mb' (put_stake a ma' d1))
  = stake_value h r d + (if decide (r = a) then h ma' - h ma else 0) + (if decide (r = b) then h mb' - h mb else 0).
Proof.
  intros Hd1 Fa Fb. rewrite (stake_value_put _ _ _ mb) by (by rewrite find_put_ne, Hd1).
  rewrite (stake_value_put _ _ _ ma) by (by rewrite Hd1). unfold stake_value. rewrite Hd1.
  destruct (decide (r = b)) as [->|]; [rewrite decide_False, Fb by done; simpl; lia|].
  destruct (decide (r = a)) as [->|]; [rewrite Fa; simpl|]; lia.
Qed.

Lemma delegated_keeps d' : delegated a b key v d d' → delegations_ok d → delegations_ok d'.
Proof.
  intros Hstep [Hout Hin Hrows Hret].
  destruct Hstep as [x t ma mb ma' mb' Fa Fb Hx Hown Hamt [Va1 Va2]%stake_values_give [Vb1 Vb2]%stake_values_receive _
                    |x t e ma mb ma' mb' f g Fa Fb Hx Hg Hxg Hamt (va & wa & Eva) [Vb1 Vb2]%stake_values_receive Hf].
  - split; rewrite ?put_stake_staking, ?put_stake_next_id; cbn [staking set_delegations set_staking delegations expirations].
    + intros r Hr. rewrite (put_two _ _ ma mb), (proj1 (out_key r _ Hr)), Hout by (done || by intros []).
      cbn [dg_vesting_shares]. fold (delegated_amount key d). repeat case_decide; lia.
    + intros r Hr. rewrite (put_two _ _ ma mb), (proj1 (in_key r _ Hr)), Hin by (done || by intros []).
      cbn [dg_vesting_shares]. fold (delegated_amount key d). repeat case_decide; lia.
    + intros k g. rewrite lookup_insert_Some. intros [[<- <-]|[_ Hk]]; [|by eapply Hrows]. cbn. rewrite Hamt. unfold delegated_amount.
      destruct (delegations (staking d) !! key) eqn:E; simpl; [apply Hrows in E|]; lia.
    + apply Hret.
  - assert (expirations (staking d) !! next_id d = None) as Hfresh.
    { destruct (_ !! next_id d) as [y|] eqn:E; [|done]. apply Hret in E. lia. }
    assert (∀ r, real_row r →
      msum (outgoing r) (f (delegations (staking d))) = msum (outgoing r) (delegations (staking d)) - (if decide (r = a) then x else 0)
      ∧ msum (incoming r) (f (delegations (staking d))) = msum (incoming r) (delegations (staking d)) - (if decide (r = b) then x else 0))
      as Hsum.
    { intros r Hr. destruct Hf as [[Ez ->] | ->];
        [rewrite (proj2 (out_key r _ Hr)), (proj2 (in_key r _ Hr))|rewrite (proj1 (out_key r _ Hr)), (proj1 (in_key r _ Hr))];
        rewrite Hg; cbn [from_option dg_vesting_shares]; split; case_decide; lia. }
    split; rewrite ?put_stake_staking, ?put_stake_next_id; cbn [staking set_delegations set_staking delegations expirations set_next_id next_id set_expirations].
    + intros r Hr. rewrite (put_two _ _ ma mb), (proj1 (Hsum r Hr)), returning_new, Hout by (done || by intros []).
      subst ma'. cbn. repeat case_decide; lia.
    + intros r Hr. rewrite (put_two _ _ ma mb), (proj2 (Hsum r Hr)), Hin by (done || by intros []).
      subst ma'. cbn. repeat case_decide; lia.
    + intros k g'. destruct Hf as [[_ ->] | ->]; [rewrite lookup_delete_Some; intros [_ Hk]; by eapply Hrows|].
      rewrite lookup_insert_Some. intros [[<- <-]|[_ Hk]]; [cbn; lia|by eapply Hrows].
    + intros i y. rewrite lookup_insert_Some. intros [[<- <-]|[_ Hk]]; [cbn; split_and!; [lia|lia|done]|].
      apply Hret in Hk. split_and!; [apply Hk|lia|apply Hk].
Qed.

End DelegationStep.

(** ** What delegations leave alone *)

(** Balances, supplies, votes and routes are as before. *)
Record quiet (d d' : db) : Prop := Quiet {
  q_gap : ∀ s, gap s d' = gap s d;
  q_frame : ledger_frame d d';
  q_view : voting_view <$> accounts d' = voting_view <$> accounts d;
  q_witnesses : witnesses (staking d') = witnesses (staking d);
  q_witness_votes : witness_votes (staking d') = witness_votes (staking d);
  q_total : total_vesting_shares (gpo d') = total_vesting_shares (gpo d);
  q_routes : routes (staking d') = routes (staking d)
}.

#[global] Instance quiet_refl : Reflexive quiet.
Proof. by split. Qed.
#[global] Instance quiet_trans : Transitive quiet.
Proof. intros d1 d2 d3 [] []. split; try congruence. by etrans. Qed.

Lemma votes_ok_quiet d d' : quiet d d' → votes_ok d → votes_ok d'.
Proof. intros [_ _ V W E T _]. apply votes_ok_view; try done. lia. Qed.

Lemma quiet_put r m m' d : find_stake r d = Some m → ma_vesting_shares m' = ma_vesting_shares m → quiet d (put_stake r m' d).
Proof.
  destruct r as [n|n s]; cbn [find_stake put_stake]; intros (x & Hx & ->)%fmap_Some Hv.
  - assert (set_accounts (alter (set_stake m') n) d = put_account n (set_stake m' x) d) as ->.
    { unfold put_account, set_accounts. f_equal. apply map_eq. intros i. destruct (decide (i = n)) as [->|].
      - by rewrite lookup_alter_eq, lookup_insert_eq, Hx.
      - by rewrite lookup_alter_ne, lookup_insert_ne. }
    split; try done.
    + intros s. rewrite (gap_put_account _ _ x) by done. unfold account_held, vesting_shares. cbn. rewrite Hv. lia.
    + apply (view_put _ x); [done|]. unfold voting_view, vesting_shares. cbn. by rewrite Hv.
  - assert (set_regular_balances (alter (λ b, RegularBalance (liquid b) m') (n, s)) d
      = set_regular_balances (λ _, <[(n, s) := RegularBalance (liquid x) m']> (regular_balances d)) d) as ->.
    { unfold set_regular_balances. f_equal. apply map_eq. intros i. destruct (decide (i = (n, s))) as [->|].
      - by rewrite lookup_alter_eq, lookup_insert_eq, Hx.
      - by rewrite lookup_alter_ne, lookup_insert_ne. }
    split; try done. intros s'. rewrite gap_put_regular. unfold row. rewrite Hx. unfold regular_held, rb_vesting_shares.
    cbn. rewrite Hv. lia.
Qed.

(** Both rows written, after tables that [quiet] does not read. *)
Lemma quiet_put_two a b d d1 ma mb ma' mb' :
  a ≠ b → quiet d d1 → (∀ r, find_stake r d1 = find_stake r d) → find_stake a d = Some ma → find_stake b d = Some mb →
  ma_vesting_shares ma' = ma_vesting_shares ma → ma_vesting_shares mb' = ma_vesting_shares mb →
  quiet d (put_stake b mb' (put_stake a ma' d1)).
Proof.
  intros Hab Hq Hf Fa Fb Va Vb. trans d1; [done|]. trans (put_stake a ma' d1).
  - apply (quiet_put a ma); [by rewrite Hf|done].
  - apply (quiet_put b mb); [by rewrite find_put_ne, Hf|done].
Qed.

Lemma quiet_delegated a b key v d d' : a ≠ b → delegated a b key v d d' → quiet d d'.
Proof.
  intros Hab [x t ma mb ma' mb' Fa Fb _ _ _ (? & ? & ->) (? & ? & ->) _
             |x t e ma mb ma' mb' f g Fa Fb _ _ _ _ (? & ? & ->) (? & ? & ->) _];
    (eapply quiet_put_two; [done| | |done|done|done|done]); by split || by intros [].
Qed.

(** ** Stakes stay covered *)

Definition rows_ok (d : db) : Prop :=
  ∀ r m, real_row r → find_stake r d = Some m → stake_ok m ∧ 0 <= ma_received_vesting_shares m < 2 ^ 63.

Lemma rows_stakes_ok d : rows_ok d → stakes_ok d.
Proof. intros H n a Ha. apply (H (account_stake n)); [done|]. simpl. by rewrite Ha. Qed.

Lemma rows_ok_same d d' : (∀ r, find_stake r d' = find_stake r d) → rows_ok d → rows_ok d'.
Proof. intros E H r m Hr F. apply (H r m Hr). by rewrite <- E. Qed.

(** A row keeps its bounds when another one is written. *)
Lemma rows_ok_put r m d :
  rows_ok d → (real_row r → stake_ok m ∧ 0 <= ma_received_vesting_shares m < 2 ^ 63) → rows_ok (put_stake r m d).
Proof.
  intros H Hm r' m' Hr F. destruct (decide (r' = r)) as [->|Hne]; [|rewrite find_put_ne in F by done; by eapply H].
  destruct (find_stake r d) as [m0|] eqn:E; [rewrite (find_put_eq _ m0) in F by done; by simplify_eq; apply Hm|].
  exfalso. destruct r; simpl in *; rewrite lookup_alter_eq in F; apply fmap_None in E; by rewrite E in F.
Qed.

Lemma stake_ok_delegated m m' v :
  stake_ok m → 0 <= v <= ma_delegated_vesting_shares m + own_shares m → mana_only (set_ma_delegated v m) m' → stake_ok m'.
Proof.
  unfold own_shares. intros [Hv Hd Hr Ht Hw Hn Hdown] Hx (y & z & ->). split; cbn; try done.
  - case_match; lia.
  - intros Hne. rewrite (proj2 (Z.eqb_neq _ _)) in Hx by done. destruct (Hdown Hne) as (? & ? & ?). split_and!; [done|done|lia].
Qed.
Lemma stake_ok_mana m m' : stake_ok m → mana_only m m' → stake_ok m'.
Proof. intros [] (y & z & ->). by split. Qed.
Lemma stake_ok_received m m' v : stake_ok m → mana_only (set_ma_received v m) m' → stake_ok m'.
Proof. intros [] (y & z & ->). by split. Qed.

(** Sums of rows that are not negative. *)
Lemma stake_values_nonneg r d :
  real_row r → delegations_ok d →
  0 <= stake_value ma_delegated_vesting_shares r d ∧ 0 <= stake_value ma_received_vesting_shares r d.
Proof.
  intros Hr [Hout Hin Hrows Hret]. rewrite Hout, Hin by done.
  assert (0 <= msum (outgoing r) (delegations (staking d)) ∧ 0 <= msum (incoming r) (delegations (staking d))
    ∧ 0 <= msum (returning r) (expirations (staking d))) as (? & ? & ?); [|lia].
  split_and!; apply msum_nonneg; intros k g E; unfold outgoing, incoming, returning; case_decide; try done;
    by first [eapply Hrows|eapply Hret].
Qed.

Lemma rows_ok_delegated a b key v d d' :
  a ≠ b → real_row a → real_row b → rows_ok d → delegations_ok d → delegations_ok d' →
  delegated a b key v d d' → rows_ok d'.
Proof.
  intros Hab Ha Hb Hok Hdel Hdel' Hstep.
  pose proof (stake_values_nonneg a d Ha Hdel) as [Na _]. pose proof (stake_values_nonneg b d' Hb Hdel') as [_ Nb].
  destruct Hstep as [x t ma mb ma' mb' Fa Fb Hx Hown _ Va Vb Hsafe|x t e ma mb ma' mb' f g Fa Fb Hx Hg Hxg _ Va Vb Hf].
  - destruct (Hok a ma Ha Fa) as [Sa Ra], (Hok b mb Hb Fb) as [Sb Rb].
    rewrite (stake_value_lookup _ _ _ ma) in Na by done.
    assert (own_shares ma < 2 ^ 63) as Hb63 by (destruct Sa; unfold own_shares; case_match; lia).
    apply rows_ok_put; [apply rows_ok_put|]; [by apply (rows_ok_same d); [intros []|]|intros _..].
    + split; [eapply stake_ok_delegated; [exact Sa| |exact Va]; lia|]. destruct Va as (? & ? & ->). done.
    + split; [by eapply stake_ok_received|]. apply safe_add_bound in Hsafe; lia.
  - destruct (Hok a ma Ha Fa) as [Sa Ra], (Hok b mb Hb Fb) as [Sb Rb].
    apply rows_ok_put; [apply rows_ok_put|]; [by apply (rows_ok_same d); [intros []|]|intros _..].
    + split; [exact (stake_ok_mana _ _ Sa Va)|]. by rewrite (mana_only_received _ _ Va).
    + split; [by eapply stake_ok_received|]. rewrite (stake_value_lookup _ _ _ mb') in Nb.
      * destruct Vb as (? & ? & ->). cbn in *. lia.
      * apply (find_put_eq _ mb). rewrite find_put_ne by done. by destruct b.
Qed.

(** ** delegate_vesting_shares *)

Lemma legacy_vesting s : space s = legacy_space → is_vesting s = true → s = VESTS_SYMBOL.
Proof. intros [->|[->| ->]]%space_legacy Hv; done. Qed.

(** The steps for one pair of rows. *)
Lemma generic_delegate_keeps a b shares sec d d' ma mb :
  a ≠ b → real_row a → real_row b → stake_symbol b = stake_symbol a → get_paired_symbol (symbol shares) = stake_symbol a →
  symbol shares = VESTS_SYMBOL ∨ space (symbol shares) = SST_nai_space ∧ token_symbol (get_paired_symbol (symbol shares)) →
  0 <= amount shares → find_stake a d = Some ma → find_stake b d = Some mb → rows_ok d → delegations_ok d →
  generic_delegate_vesting_shares a b shares sec d = Ok d' → rows_ok d' ∧ delegations_ok d' ∧ quiet d d'.
Proof.
  intros Hab Ha Hb Hsym Hs Hv Hx Fa Fb Hok Hdel H. destruct (Hok a ma Ha Fa) as [Sa Ra].
  eapply generic_delegate_Ok in H; [|done..|int_unfold; lia|apply Hdel]. rewrite Hs in H.
  assert (delegations_ok d') as Hdel' by (by eapply (delegated_keeps a b)).
  split_and!; [by eapply (rows_ok_delegated a b)|done|by eapply (quiet_delegated a b)].
Qed.

(** A new token balance has no shares. *)
Lemma new_balance n s d :
  regular_balances d !! (n, s) = None → rows_ok d → delegations_ok d →
  let d' := set_regular_balances <[(n, s) := RegularBalance 0 initial_stake]> d in
  rows_ok d' ∧ delegations_ok d' ∧ quiet d d'.
Proof.
  intros Hnew Hok Hdel. cbn zeta.
  assert (∀ r, find_stake r (set_regular_balances <[(n, s) := RegularBalance 0 initial_stake]> d)
    = if decide (r = token_stake n s) then Some initial_stake else find_stake r d) as E.
  { intros [m|m t]; simpl; [done|]. case_decide; [simplify_eq; by rewrite lookup_insert_eq|].
    by rewrite lookup_insert_ne by congruence. }
  assert (find_stake (token_stake n s) d = None) as En by (simpl; by rewrite Hnew).
  assert (∀ f r, f initial_stake = 0 →
    stake_value f r (set_regular_balances <[(n, s) := RegularBalance 0 initial_stake]> d) = stake_value f r d) as Ev.
  { intros f r Hf. unfold stake_value. rewrite E. case_decide as Hr; [|done]. by rewrite Hr, En. }
  split_and!.
  - intros r m Hr F. rewrite E in F. case_decide; [injection F as <-|by eapply Hok]. split; [|done].
    split; cbn; unfold time_point_sec_maximum; try lia; done.
  - destruct Hdel as [Hout Hin Hrows Hret]. split; try done; intros r Hr; rewrite Ev by done; [by apply Hout|by apply Hin].
  - split; try done. intros s'.
    change (gap s' (set_regular_balances (λ _, <[(n, s) := RegularBalance 0 initial_stake]> (regular_balances d)) d) = gap s' d).
    rewrite gap_put_regular. unfold row. rewrite Hnew. unfold regular_held. cbn. repeat case_match; lia.
Qed.

Lemma delegate_keeps o d d' :
  tokens_wf d → rows_ok d → delegations_ok d → delegate_vesting_shares_validate o = Ok tt →
  delegate_vesting_shares_apply o d = Ok d' → rows_ok d' ∧ delegations_ok d' ∧ quiet d d'.
Proof.
  intros Hwf Hok Hdel Hval H. unfold delegate_vesting_shares_validate in Hval.
  do 2 apply bind_Ok in Hval as (? & _ & Hval). apply bind_Ok in Hval as (? & Hne%fc_assert_Ok & Hval).
  apply bind_Ok in Hval as (? & Hv%fc_assert_Ok & Hx%fc_assert_Ok). bools.
  unfold delegate_vesting_shares_apply in H. destruct (space (symbol (dv_vesting_shares o))) eqn:Es.
  - pose proof (legacy_vesting _ Es Hv) as Ev. apply bind_Ok in H as (ba & Hxa%from_option_exn_Ok & H).
    apply bind_Ok in H as (bb & Hya%from_option_exn_Ok & H).
    eapply generic_delegate_keeps in H; [done|congruence|done|done|done|by rewrite Ev|by left|done| | |done|done];
      simpl; [by rewrite Hxa|by rewrite Hya].
  - apply bind_Ok in H as (tk & Ht%from_option_exn_Ok & H). apply bind_Ok in H as (ba & Hxa%from_option_exn_Ok & H).
    set (s := get_paired_symbol (symbol (dv_vesting_shares o))) in *. pose proof (Hwf _ _ Ht) as Hts.
    destruct (regular_balances d !! (dv_delegatee o, s)) as [bb|] eqn:Hya.
    + eapply generic_delegate_keeps in H; [done|congruence|done|done|done|done|right; done|done| | |done|done];
        simpl; [by rewrite Hxa|by rewrite Hya].
    + destruct (new_balance _ _ _ Hya Hok Hdel) as (Hok' & Hdel' & Hq).
      eapply generic_delegate_keeps in H as (? & ? & ?);
        [split_and!; [done|done|by etrans]|congruence|done|done|done|done|right; done|done| | |done|done].
      * simpl. by rewrite lookup_insert_ne, Hxa by congruence.
      * simpl. by rewrite lookup_insert_eq.
Qed.

(** ** clear_expired_delegations *)

Lemma return_delegation_Ok i e d d' :
  expirations (staking d) !! i = Some e → delegations_ok d → return_delegation i e d = Ok d' →
  ∃ r m m', real_row r ∧ stake_owner r = de_delegator e ∧ stake_symbol r = get_paired_symbol (symbol (de_vesting_shares e))
    ∧ find_stake r d = Some m
    ∧ mana_only (set_ma_delegated (ma_delegated_vesting_shares m - amount (de_vesting_shares e)) m) m'
    ∧ d' = put_stake r m' (set_expirations (delete i) d).
Proof.
  intros He Hdel H. destruct (do_returns _ Hdel _ _ He) as (Hx & Hi & Hs).
  assert (∀ r sec d', generic_clear_expired_delegations r e sec d = Ok d' →
    ∃ m m', find_stake r d = Some m
      ∧ mana_only (set_ma_delegated (ma_delegated_vesting_shares m - amount (de_vesting_shares e)) m) m' ∧ d' = put_stake r m' d)
    as Hgen.
  { intros r sec d2 (m & m' & F & Hm & ->)%modify_stake_Ok. exists m, m'. split; [done|]. split; [|done].
    apply bind_Ok in Hm as (m1 & (v & w & ->)%refresh_mana_keeps & Hm).
    apply bind_Ok in Hm as (y & ->%safe_sub_value & Hm). injection Hm as <-. by exists v, w. }
  unfold return_delegation in H. destruct (space (symbol (de_vesting_shares e))) eqn:Es.
  - destruct Hs as [Es'|[? _]]; [|congruence]. apply bind_Ok in H as (d1 & Hd1 & H). injection H as <-.
    apply Hgen in Hd1 as (m & m' & F & V & ->). exists (account_stake (de_delegator e)), m, m'.
    rewrite Es', put_set_expirations. done.
  - destruct Hs as [Es'|[_ Hts]]; [by rewrite Es' in Es|]. apply bind_Ok in H as (d1 & Hd1 & H). injection H as <-.
    apply bind_Ok in Hd1 as (t & _ & Hd1). apply Hgen in Hd1 as (m & m' & F & V & ->).
    exists (token_stake (de_delegator e) (get_paired_symbol (symbol (de_vesting_shares e)))), m, m'.
    rewrite put_set_expirations. done.
Qed.

Lemma return_keeps i e d d' :
  expirations (staking d) !! i = Some e → rows_ok d → delegations_ok d → return_delegation i e d = Ok d' →
  rows_ok d' ∧ delegations_ok d' ∧ quiet d d' ∧ expirations (staking d') = delete i (expirations (staking d))
  ∧ delegations (staking d') = delegations (staking d).
Proof.
  intros He Hok Hdel H. destruct (return_delegation_Ok _ _ _ _ He Hdel H) as (r & m & m' & Hr & Eo & Es & F & V & ->).
  assert (delegations_ok (put_stake r m' (set_expirations (delete i) d))) as Hdel'.
  { destruct Hdel as [Hout Hin Hrows Hret]. destruct V as (v & w & ->).
    split; rewrite ?put_stake_staking, ?put_stake_next_id;
      cbn [staking set_expirations set_staking delegations expirations next_id]; try done.
    - intros r' Hr'. rewrite (stake_value_put _ _ _ m) by (by destruct r). rewrite msum_delete. unfold row. rewrite He.
      specialize (Hout r' Hr'). unfold returning at 2. rewrite <- Eo, <- Es. destruct (decide (r' = r)) as [->|Hne].
      + rewrite decide_True by done. rewrite (stake_value_lookup _ _ _ m F) in Hout. cbn. lia.
      + rewrite decide_False by (intros [? ?]; by apply Hne, row_eq).
        trans (stake_value ma_delegated_vesting_shares r' d); [by destruct r'|lia].
    - intros r' Hr'. rewrite (stake_value_put _ _ _ m) by (by destruct r). rewrite <- Hin by done.
      case_decide; subst; [by rewrite (stake_value_lookup _ _ _ m F)|by destruct r'].
    - intros j y [_ Hj]%lookup_delete_Some. by apply Hret. }
  split_and!.
  - destruct (Hok r m Hr F) as [S R]. pose proof (stake_values_nonneg r _ Hr Hdel') as [N _].
    rewrite (stake_value_put _ _ _ m), decide_True in N by (done || by destruct r).
    apply rows_ok_put; [by apply (rows_ok_same d); [intros []|]|intros _].
    pose proof (do_returns _ Hdel _ _ He) as (Hx & _). destruct V as (v & w & ->). split; [|done].
    eapply stake_ok_delegated; [exact S| |apply mana_only_set]. cbn in N. unfold own_shares.
    destruct S as [? ? ? ? ? ? Hdown]. case_match; bools; [|destruct Hdown as (? & ? & ?); [done|]]; lia.
  - done.
  - trans (set_expirations (delete i) d); [by split|]. destruct V as (v & w & ->).
    apply (quiet_put r m); [by destruct r|done].
  - by rewrite put_stake_staking.
  - by rewrite put_stake_staking.
Qed.

Lemma first_row_None {K} (before : K → K → bool) l : first_row before l = None → l = [].
Proof. destruct l as [|a l]; [done|]. simpl. by repeat case_match. Qed.

(** The first row of an index has no row before it. *)
Lemma first_row_least {K} (before : K → K → bool) l x :
  (∀ x y, before x y = true → before y x = false) →
  (∀ x y z, before x y = false → before y z = false → before x z = false) →
  first_row before l = Some x → ∀ y, y ∈ l → before y x = false.
Proof.
  intros Hasym Hneg. revert x. induction l as [|a l IH]; simpl; [done|]. intros x H y Hy.
  assert (before a a = false) as Hirr.
  { destruct (before a a) eqn:E; [|done]. by rewrite (Hasym a a E) in E. }
  destruct (first_row before l) as [z|] eqn:Ez.
  - specialize (IH z eq_refl). destruct (before z a) eqn:Eb; injection H as <-; apply elem_of_cons in Hy as [->|Hy].
    + by apply Hasym.
    + by apply IH.
    + done.
    + by eapply Hneg; [apply IH|].
  - injection H as <-. apply elem_of_cons in Hy as [->|Hy]; [done|].
    apply first_row_None in Ez as ->. by apply not_elem_of_nil in Hy.
Qed.

Lemma expiration_rows_elem d x :
  x ∈ expiration_rows d ↔ ∃ e, expirations (staking d) !! x.2 = Some e ∧ x.1 = de_expiration e.
Proof.
  unfold expiration_rows. rewrite list_elem_of_fmap. split.
  - intros ([i e] & -> & H%elem_of_map_to_list). eauto.
  - intros (e & H & E). exists (x.2, e). destruct x; simpl in *. subst. split; [done|]. by apply elem_of_map_to_list.
Qed.

Lemma expiration_order_asym x y : expiration_row_before x y = true → expiration_row_before y x = false.
Proof. unfold expiration_row_before. rewrite orb_true_iff, andb_true_iff, orb_false_iff, andb_false_iff. lia. Qed.
Lemma expiration_order_neg x y z :
  expiration_row_before x y = false → expiration_row_before y z = false → expiration_row_before x z = false.
Proof. unfold expiration_row_before. rewrite !orb_false_iff, !andb_false_iff. lia. Qed.

#[local] Instance no_fuel_to_int64 x : NoFuel (to_int64 x).
Proof. unfold to_int64. no_fuel. Qed.
#[local] Instance no_fuel_regenerate b p t m : NoFuel (regenerate_mana b p t m).
Proof. unfold regenerate_mana, params_validate. no_fuel. Qed.
#[local] Instance no_fuel_refresh sec x d m : NoFuel (refresh_mana sec x d m).
Proof. unfold refresh_mana, update_manabar. no_fuel. Qed.
#[local] Instance no_fuel_return i e d : NoFuel (return_delegation i e d).
Proof. unfold return_delegation, generic_clear_expired_delegations, modify_stake. no_fuel. Qed.

Lemma return_delegations_Ok fuel d :
  (size (expirations (staking d)) <= fuel)%nat → rows_ok d → delegations_ok d →
  return_delegations fuel d ≠ Throw fuel_exhausted
  ∧ ∀ d', return_delegations fuel d = Ok d' →
      rows_ok d' ∧ delegations_ok d' ∧ quiet d d'
      ∧ delegations (staking d') = delegations (staking d)
      ∧ ∀ i e, expirations (staking d') !! i = Some e ↔ expirations (staking d) !! i = Some e ∧ now d <= de_expiration e.
Proof.
  revert d. induction fuel as [|fuel IH]; intros d Hsz Hok Hdel; cbn [return_delegations].
  - apply Nat.le_0_r, map_size_empty_inv in Hsz. unfold expiration_rows. rewrite Hsz, map_to_list_empty. cbn.
    split; [done|]. intros d' [= <-]. rewrite Hsz. split_and!; try done. intros i e. rewrite lookup_empty. naive_solver.
  - destruct (first_row expiration_row_before (expiration_rows d)) as [x|] eqn:Ex; last first.
    { split; [done|]. intros d' [= <-]. split_and!; try done. intros i e. split; [|naive_solver]. intros He.
      assert ((de_expiration e, i) ∈ expiration_rows d) as Hin by (apply expiration_rows_elem; eauto).
      rewrite (first_row_None _ _ Ex) in Hin. by apply not_elem_of_nil in Hin. }
    pose proof (first_row_least _ _ _ expiration_order_asym expiration_order_neg Ex) as Hleast.
    apply first_row_elem, expiration_rows_elem in Ex as (e0 & He0 & E0).
    destruct (Z.ltb_spec x.1 (now d)) as [Hlt|Hge].
    + rewrite He0. cbn [from_option_exn mbind res_bind].
      destruct (return_delegation x.2 e0 d) as [d1|err] eqn:E1.
      2: { split; [|done]. intros H. apply (no_fuel_return x.2 e0 d). rewrite E1. by injection H as ->. }
      cbn [mbind res_bind]. destruct (return_keeps _ _ _ _ He0 Hok Hdel E1) as (Hok1 & Hdel1 & Q1 & Ee & Ed).
      assert (now d1 = now d) as En by apply Q1.
      destruct (IH d1) as [Hend Hres]; [|done|done|].
      { rewrite Ee. apply Nat.succ_le_mono. etrans; [|exact Hsz]. rewrite map_size_delete, He0.
        assert (size (expirations (staking d)) ≠ 0%nat) by (intros Hz; apply map_size_empty_inv in Hz; by rewrite Hz in He0).
        lia. }
      split; [done|]. intros d' Hd'. destruct (Hres d' Hd') as (? & ? & Q2 & Ed2 & He). split_and!; try done.
      * by etrans.
      * congruence.
      * intros i e. rewrite He, Ee, lookup_delete_Some, En. split; [naive_solver|]. intros [Hi Hle]. split_and!; try done.
        intros <-. assert (e = e0) as -> by congruence. lia.
    + split; [done|]. intros d' [= <-]. split_and!; try done. intros i e. split; [|naive_solver]. intros He. split; [done|].
      specialize (Hleast (de_expiration e, i) ltac:(apply expiration_rows_elem; eauto)). unfold expiration_row_before in Hleast. cbn in Hleast. apply orb_false_iff in Hleast as [Hl _]. lia.
Qed.

(** The members written by a delegation. *)
Lemma delegated_values a b key v d d' ma mb :
  a ≠ b → delegated a b key v d d' → find_stake a d = Some ma → find_stake b d = Some mb →
  let diff := amount v - delegated_amount key d in
  delegated_amount key d' = amount v
  ∧ stake_value ma_received_vesting_shares b d' = ma_received_vesting_shares mb + diff
  ∧ stake_value ma_delegated_vesting_shares a d' = ma_delegated_vesting_shares ma + Z.max 0 diff
  ∧ (0 <= diff → expirations (staking d') = expirations (staking d))
  ∧ (diff < 0 → ∃ g, delegations (staking d) !! key = Some g ∧ expirations (staking d')
       = <[next_id d := DelegationExpiration (stake_owner a) (Asset (- diff) (symbol v)) (return_time g d)]> (expirations (staking d))).
Proof.
  intros Hab H Fa Fb diff.
  assert (∀ f d1 ma' mb' r, (∀ r, find_stake r d1 = find_stake r d) → r = a ∨ r = b →
    stake_value f r (put_stake b mb' (put_stake a ma' d1)) = if decide (r = a) then f ma' else f mb') as Hv.
  { intros f d1 ma' mb' r Hf Hr. rewrite (put_two a b d Hab f d1 ma mb) by done.
    unfold stake_value. destruct Hr as [-> | ->]; [rewrite Fa|rewrite Fb]; simpl; repeat case_decide; try congruence; lia. }
  destruct H as [y t ma0 mb0 ma' mb' Fa0 Fb0 Hy _ Hamt [Va _]%stake_values_give [_ Vb]%stake_values_receive _
                |y t e ma0 mb0 ma' mb' f g Fa0 Fb0 Hy Hg _ Hamt (va & wa & ->) [_ Vb]%stake_values_receive Hf ->];
    assert (ma0 = ma) as -> by congruence; assert (mb0 = mb) as -> by congruence.
  - assert (y = diff) as -> by (unfold diff; lia). rewrite !Hv, decide_False, decide_True by (auto || by intros []).
    unfold delegated_amount at 1. rewrite !put_stake_staking. cbn. rewrite lookup_insert_eq.
    split_and!; [done|lia|lia|done|lia].
  - assert (delegated_amount key d = dg_vesting_shares g) as Eg by (unfold delegated_amount; by rewrite Hg).
    assert (y = - diff) as -> by (unfold diff; lia). rewrite !Hv, decide_False, decide_True by (auto || by intros []).
    unfold delegated_amount at 1. rewrite !put_stake_staking. cbn.
    split_and!; [|lia|lia|lia|eauto].
    destruct Hf as [[Hz ->] | ->]; [by rewrite lookup_delete_eq|by rewrite lookup_insert_eq].
Qed.

Lemma generic_delegate_values a b v sec d d' ma mb :
  a ≠ b → real_row a → rows_ok d → delegations_ok d → 0 <= amount v → find_stake a d = Some ma → find_stake b d = Some mb →
  generic_delegate_vesting_shares a b v sec d = Ok d' →
  let key := (stake_owner a, stake_owner b, get_paired_symbol (symbol v)) in
  let diff := amount v - delegated_amount key d in
  delegated_amount key d' = amount v
  ∧ stake_value ma_received_vesting_shares b d' = stake_value ma_received_vesting_shares b d + diff
  ∧ stake_value ma_delegated_vesting_shares a d' = stake_value ma_delegated_vesting_shares a d + Z.max 0 diff
  ∧ (0 <= diff → expirations (staking d') = expirations (staking d))
  ∧ (diff < 0 → ∃ g, delegations (staking d) !! key = Some g ∧ expirations (staking d')
       = <[next_id d := DelegationExpiration (stake_owner a) (Asset (- diff) (symbol v)) (return_time g d)]> (expirations (staking d))).
Proof.
  intros Hab Hr Hok Hdel Hv Fa Fb H. destruct (Hok a ma Hr Fa) as [Sa Ra].
  eapply generic_delegate_Ok in H; [|done..|int_unfold; lia|apply Hdel].
  pose proof (delegated_values _ _ _ _ _ _ _ _ Hab H Fa Fb) as Hx. unfold stake_value at 2 4. rewrite Fa, Fb. exact Hx.
Qed.

(** ** Theorems *)

(** The row of an account's shares of the liquid symbol [s]. *)
Definition stake_of (n : name) (s : Z) : stake_row := if s =? freezone_SYMBOL then account_stake n else token_stake n s.

(** C37: a delegation is set to what the operation says, for vesting shares of
    freezone and of tokens.  Afterwards the row of delegator and delegatee holds
    exactly the requested shares (none when the row is gone); the delegatee's
    received shares have changed by the difference; the delegator's delegated
    shares have grown by it, or, when the delegation fell, are unchanged and the
    difference waits in one new row until the return period is over, and not
    before the minimum time of the delegation.  The tables of tokens, stakes and
    delegations are consistent. *)
Theorem delegation_set o d d' :
  let n := dv_delegator o in
  let m := dv_delegatee o in
  let v := dv_vesting_shares o in
  let s := get_paired_symbol (symbol v) in
  let diff := amount v - delegated_amount (n, m, s) d in
  tokens_wf d → rows_ok d → delegations_ok d →
  delegate_vesting_shares_validate o = Ok tt → delegate_vesting_shares_apply o d = Ok d' →
  delegated_amount (n, m, s) d' = amount v
  ∧ stake_value ma_received_vesting_shares (stake_of m s) d' = stake_value ma_received_vesting_shares (stake_of m s) d + diff
  ∧ stake_value ma_delegated_vesting_shares (stake_of n s) d'
      = stake_value ma_delegated_vesting_shares (stake_of n s) d + Z.max 0 diff
  ∧ (0 <= diff → expirations (staking d') = expirations (staking d))
  ∧ (diff < 0 → ∃ g, delegations (staking d) !! (n, m, s) = Some g ∧ expirations (staking d')
       = <[next_id d := DelegationExpiration n (Asset (- diff) (symbol v)) (return_time g d)]> (expirations (staking d))).
Proof.
  intros n m v s diff Hwf Hok Hdel Hval H. unfold delegate_vesting_shares_validate in Hval.
  do 2 apply bind_Ok in Hval as (? & _ & Hval). apply bind_Ok in Hval as (? & Hne%fc_assert_Ok & Hval).
  apply bind_Ok in Hval as (? & Hv%fc_assert_Ok & Hpos%fc_assert_Ok). bools. fold n m v in Hne, Hv, Hpos.
  unfold delegate_vesting_shares_apply in H. fold n m v s in H. destruct (space (symbol v)) eqn:Es.
  - pose proof (legacy_vesting _ Es Hv) as Ev. assert (s = freezone_SYMBOL) as E by (unfold s; by rewrite Ev).
    apply bind_Ok in H as (ba & Ha%from_option_exn_Ok & H). apply bind_Ok in H as (bb & Hb%from_option_exn_Ok & H).
    assert (stake_of n s = account_stake n ∧ stake_of m s = account_stake m) as [-> ->] by (by rewrite E).
    assert (find_stake (account_stake n) d = Some (stake ba)) as Fa by (simpl; by rewrite Ha).
    assert (find_stake (account_stake m) d = Some (stake bb)) as Fb by (simpl; by rewrite Hb).
    eapply generic_delegate_values in H; [exact H|congruence|done..].
  - apply bind_Ok in H as (tk & Ht%from_option_exn_Ok & H). apply bind_Ok in H as (ba & Ha%from_option_exn_Ok & H).
    pose proof (Hwf _ _ Ht) as Hts. assert (s ≠ freezone_SYMBOL) as Hs by (intros E; destruct Hts as (_ & _ & Hsp); by rewrite E in Hsp).
    assert (∀ y, stake_of y s = token_stake y s) as Hrow by (intros y; unfold stake_of; by rewrite (proj2 (Z.eqb_neq _ _) Hs)).
    rewrite !Hrow. destruct (regular_balances d !! (m, s)) as [bb|] eqn:Hb.
    + assert (find_stake (token_stake n s) d = Some (rb_stake ba)) as Fa by (simpl; by rewrite Ha).
      assert (find_stake (token_stake m s) d = Some (rb_stake bb)) as Fb by (simpl; by rewrite Hb).
      eapply generic_delegate_values in H; [exact H|congruence|done..].
    + destruct (new_balance m s d Hb Hok Hdel) as (Hok' & Hdel' & _). set (d1 := set_regular_balances _ d) in *.
      assert (find_stake (token_stake n s) d1 = Some (rb_stake ba)) as Fa by (simpl; by rewrite lookup_insert_ne, Ha by congruence).
      assert (find_stake (token_stake m s) d1 = Some initial_stake) as Fb by (simpl; by rewrite lookup_insert_eq).
      eapply generic_delegate_values in H; [|congruence|done..].
      assert (∀ f, stake_value f (token_stake n s) d1 = stake_value f (token_stake n s) d) as E1
        by (intros f; unfold stake_value; rewrite Fa; simpl; by rewrite Ha).
      assert (stake_value ma_received_vesting_shares (token_stake m s) d1 = stake_value ma_received_vesting_shares (token_stake m s) d) as E2
        by (unfold stake_value; rewrite Fb; simpl; by rewrite Hb).
      rewrite E1, E2 in H. exact H.
Qed.

(** Expired delegations are returned, all of them and no others, and the loop
    ends: no more turns are made than there are rows, and afterwards the table
    holds exactly the rows that have not expired. *)
Theorem expired_delegations_returned d :
  rows_ok d → delegations_ok d →
  clear_expired_delegations d ≠ Throw fuel_exhausted
  ∧ ∀ d', clear_expired_delegations d = Ok d' →
      ∀ i e, expirations (staking d') !! i = Some e ↔ expirations (staking d) !! i = Some e ∧ now d <= de_expiration e.
Proof.
  intros Hok Hdel. destruct (return_delegations_Ok _ d (Nat.le_refl _) Hok Hdel) as [Hend Hres].
  split; [exact Hend|]. intros d' H. by destruct (Hres d' H) as (_ & _ & _ & _ & He).
Qed.

(** ** A chain with delegations

    Alice has delegated 40 shares to Bob, and 10 more are on their way back to
    her since the time 900000. *)

Definition sample_delegations : db :=
  let stake_of v r g := ManaAccount v r g time_point_sec_maximum 0 0 0 (Manabar 1000 0) (Manabar 1000 0) in
  set_next_id 8
    (set_expirations (λ _, {[ 7 := DelegationExpiration "alice" (Asset 10 VESTS_SYMBOL) 900000 ]})
      (set_delegations (λ _, {[ ("alice", "bob", freezone_SYMBOL) := Delegation 40 500000 ]})
        (set_regular_balances (λ _, ∅)
          (set_accounts (λ _, {[ "alice" := staking_account 0 (stake_of 1300 0 50) "" [0; 0; 0; 0];
                                 "bob" := staking_account 0 (stake_of 100 40 0) "" [0; 0; 0; 0] ]})
            (sample_chain false))))).

Lemma sample_delegation_rows r m :
  find_stake r sample_delegations = Some m →
  (r = account_stake "alice" ∧ ma_vesting_shares m = 1300 ∧ ma_received_vesting_shares m = 0 ∧ ma_delegated_vesting_shares m = 50
   ∨ r = account_stake "bob" ∧ ma_vesting_shares m = 100 ∧ ma_received_vesting_shares m = 40 ∧ ma_delegated_vesting_shares m = 0)
  ∧ ma_next_vesting_withdrawal m = time_point_sec_maximum ∧ ma_vesting_withdraw_rate m = 0 ∧ ma_to_withdraw m = 0
  ∧ ma_withdrawn m = 0.
Proof.
  destruct r as [n|n s]; cbn; intros (x & Hx & ->)%fmap_Some.
  - rewrite lookup_insert_Some, lookup_singleton_Some in Hx. destruct Hx as [[<- <-]|[_ [<- <-]]]; cbn; auto 10.
  - by rewrite lookup_empty in Hx.
Qed.

Lemma sample_delegations_ok : rows_ok sample_delegations ∧ delegations_ok sample_delegations.
Proof.
  split.
  - intros r m _ ([(_ & E1 & E2 & E3)|(_ & E1 & E2 & E3)] & E4 & E5 & E6 & E7)%sample_delegation_rows;
      (split; [split|]); rewrite ?E1, ?E2, ?E3, ?E4, ?E5, ?E6, ?E7; try lia; done.
  - assert (∀ r, real_row r →
      stake_value ma_delegated_vesting_shares r sample_delegations = (if decide (r = account_stake "alice") then 50 else 0)
      ∧ stake_value ma_received_vesting_shares r sample_delegations = (if decide (r = account_stake "bob") then 40 else 0)) as Hv.
    { intros r Hr. unfold stake_value. destruct (find_stake r sample_delegations) as [m|] eqn:F.
      - apply sample_delegation_rows in F as [[(-> & _ & E2 & E3)|(-> & _ & E2 & E3)] _]; simpl; by rewrite E2, E3.
      - split; case_decide; try done; subst; by vm_compute in F. }
    split.
    + intros r Hr. rewrite (proj1 (Hv r Hr)). cbn. rewrite <- (insert_empty (M := gmap delegation_key)), <- (insert_empty (M := gmap Z)).
      rewrite !msum_insert_new by done. rewrite !msum_empty.
      change ("alice", "bob", freezone_SYMBOL) with (stake_owner (account_stake "alice"), "bob", stake_symbol (account_stake "alice")).
      rewrite outgoing_key by done. unfold returning. cbn. destruct (decide (r = account_stake "alice")) as [->|Hne]; [done|].
      rewrite decide_False; [done|]. intros [E1 E2]. by apply Hne, row_eq.
    + intros r Hr. rewrite (proj2 (Hv r Hr)). cbn. rewrite <- (insert_empty (M := gmap delegation_key)).
      rewrite !msum_insert_new by done. rewrite !msum_empty.
      change ("alice", "bob", freezone_SYMBOL) with ("alice", stake_owner (account_stake "bob"), stake_symbol (account_stake "bob")).
      rewrite incoming_key by done. case_decide; done.
    + intros k g. cbn. rewrite lookup_singleton_Some. intros [_ <-]. done.
    + intros i e. cbn. rewrite lookup_singleton_Some. intros [<- <-]. split_and!; [done|done|by left].
Qed.

Lemma sample_tokens_wf : tokens_wf sample_delegations.
Proof. intros k t. cbn. rewrite lookup_singleton_Some. intros [<- _]. by vm_compute. Qed.

Lemma delegation_set_witness :
  ∃ d', delegate_vesting_shares_apply (DelegateVestingShares "alice" "bob" (Asset 25 VESTS_SYMBOL)) sample_delegations = Ok d'
    ∧ delegated_amount ("alice", "bob", freezone_SYMBOL) d' = 25
    ∧ stake_value ma_received_vesting_shares (account_stake "bob") d' = 25.
Proof.
  destruct (delegate_vesting_shares_apply (DelegateVestingShares "alice" "bob" (Asset 25 VESTS_SYMBOL)) sample_delegations)
    as [d'|e] eqn:E; [|vm_compute in E; discriminate E].
  exists d'. split; [reflexivity|].
  refine (let H := delegation_set (DelegateVestingShares "alice" "bob" (Asset 25 VESTS_SYMBOL)) sample_delegations d' _
    (proj1 sample_delegations_ok) (proj2 sample_delegations_ok) _ E in conj (proj1 H) (proj1 (proj2 H))).
  - exact sample_tokens_wf.
  - vm_compute. reflexivity.
Defined.

Lemma expired_delegations_returned_witness :
  clear_expired_delegations sample_delegations ≠ Throw fuel_exhausted
  ∧ match clear_expired_delegations sample_delegations with
    | Ok d' => expirations (staking d') !! 7 = None
               ∧ stake_value ma_delegated_vesting_shares (account_stake "alice") d' = 40
    | Throw _ => False
    end.
Proof.
  split.
  - exact (proj1 (expired_delegations_returned sample_delegations (proj1 sample_delegations_ok) (proj2 sample_delegations_ok))).
  - vm_compute. split; reflexivity.
Defined.
