(* ===== verification/Claims.v ===== *)
(** * Claims of rewards

    The evaluators and the validation of claim_reward_balance and
    claim_reward_balance2: rewards move from the reward balances of an account
    to its balances, vesting shares to its stake. *)

From S2P Require Import Prelude Config AccountName Uint128 SafeInt AssetSymbol Asset Manabar MapSum State Ledger Votes Vesting Payouts Delegation.
From stdpp Require Import gmap strings.
#[local] Open Scope Z_scope.

(** The value moved with [claimed] of [total] pending shares worth [value]. *)
Definition value_to_move (claimed total value : Z) : res Z :=
  x ← mul_assign (uint128_of_i64 claimed) (uint128_of_i64 value);
  x ← div_assign x (uint128_of_i64 total);
  r ← to_uint64 x;
  mret (i64 r).

(** The writes of both evaluators for vesting shares; only the first operation
    refreshes the mana. *)
Definition move_vests (refresh : bool) (n : name) (vests value : Z) (d : db) : res db :=
  a ← get_account n d;
  s ← (if refresh then refresh_mana freezone_VOTING_MANA_REGENERATION_SECONDS vests d (stake a) else mret (stake a));
  v ← safe_add (ma_vesting_shares s) vests;
  rv ← safe_sub (reward_vesting_balance a) vests;
  rvf ← safe_sub (reward_vesting_freezone a) value;
  let a := set_rewards (reward_freezone_balance a) (reward_sbd_balance a) rv rvf (set_stake (set_ma_vesting v s) a) in
  let d := put_account n a d in
  shares ← safe_add (total_vesting_shares (gpo d)) vests;
  fund ← safe_add (total_vesting_fund_freezone (gpo d)) value;
  pshares ← safe_sub (pending_rewarded_vesting_shares (gpo d)) vests;
  pvalue ← safe_sub (pending_rewarded_vesting_freezone (gpo d)) value;
  adjust_proxied_witness_votes_one freezone_MAX_PROXY_RECURSION_DEPTH n vests
    (set_gpo (set_vesting fund shares pshares pvalue (gpo d)) d).

(** The freezone behind the claimed shares: all of it with the last shares. *)
Definition vests_value (claimed : asset) (a : account) : res Z :=
  if asset_eqb claimed (Asset (reward_vesting_balance a) VESTS_SYMBOL) then mret (reward_vesting_freezone a)
  else value_to_move (amount claimed) (reward_vesting_balance a) (reward_vesting_freezone a).

(** ** claim_reward_balance *)

Record claim_reward_balance_operation : Type := ClaimRewardBalance {
  crb_account : name;
  reward_freezone : asset;
  reward_sbd : asset;
  reward_vests : asset
}.

Definition claim_reward_balance_validate (o : claim_reward_balance_operation) : res unit :=
  _ ← validate_account_name (crb_account o);
  _ ← fc_assert (symbol (reward_freezone o) =? freezone_SYMBOL);
  _ ← fc_assert (symbol (reward_sbd o) =? SBD_SYMBOL);
  _ ← fc_assert (symbol (reward_vests o) =? VESTS_SYMBOL);
  _ ← fc_assert (0 <=? amount (reward_freezone o));
  _ ← fc_assert (0 <=? amount (reward_sbd o));
  _ ← fc_assert (0 <=? amount (reward_vests o));
  fc_assert ((0 <? amount (reward_freezone o)) || (0 <? amount (reward_sbd o)) || (0 <? amount (reward_vests o))).

Definition claim_reward_balance_apply (o : claim_reward_balance_operation) (d : db) : res db :=
  let n := crb_account o in
  acnt ← get_account n d;
  b ← asset_leb (reward_freezone o) (Asset (reward_freezone_balance acnt) freezone_SYMBOL); _ ← fc_assert b;
  b ← asset_leb (reward_sbd o) (Asset (reward_sbd_balance acnt) SBD_SYMBOL); _ ← fc_assert b;
  b ← asset_leb (reward_vests o) (Asset (reward_vesting_balance acnt) VESTS_SYMBOL); _ ← fc_assert b;
  to_move ← vests_value (reward_vests o) acnt;
  minus ← asset_neg (reward_freezone o);
  d ← adjust_reward_balance n minus (Asset 0 VESTS_SYMBOL) false d;
  minus ← asset_neg (reward_sbd o);
  d ← adjust_reward_balance n minus (Asset 0 VESTS_SYMBOL) false d;
  d ← adjust_balance n (reward_freezone o) d;
  d ← adjust_balance n (reward_sbd o) d;
  move_vests true n (amount (reward_vests o)) to_move d.

(** ** claim_reward_balance2 *)

Record claim_reward_balance2_operation : Type := ClaimRewardBalance2 {
  crb2_account : name;
  reward_tokens : list asset
}.

(** Each pair of neighbours of the container. *)
Fixpoint check_ascending (last : asset) (l : list asset) : res unit :=
  match l with
  | [] => mret tt
  | a :: l =>
      x ← to_nai (symbol last);
      y ← to_nai (symbol a);
      _ ← fc_assert (x <=? y);
      _ ← fc_assert (negb (x =? y));
      _ ← fc_assert (0 <? amount a);
      check_ascending a l
  end.

Definition claim_reward_balance2_validate (o : claim_reward_balance2_operation) : res unit :=
  _ ← validate_account_name (crb2_account o);
  match reward_tokens o with
  | [] => Throw assert_exception
  | a :: l =>
      _ ← fc_assert (0 <? amount a);
      check_ascending a l
  end.

(** A vesting reward of a smart social token: the amount is compared with the
    liquid pending balance. *)
Definition claim_token_vesting (n : name) (token : asset) (bal : rewards_balance) (d : db) : res db :=
  let ls := get_liquid_symbol (symbol token) in
  b ← asset_leb token (Asset (pending_liquid bal) ls); _ ← fc_assert b;
  vs ← get_vesting_symbol (symbol token);
  let pending := Asset (pending_vesting_shares bal) (get_paired_symbol ls) in
  to_move ← (if asset_eqb token pending then mret (Asset (pending_vesting_value bal) ls)
             else x ← value_to_move (amount token) (pending_vesting_shares bal) (pending_vesting_value bal);
                  mret (Asset x vs));
  shares ← asset_sub pending token;
  value ← asset_sub (Asset (pending_vesting_value bal) ls) to_move;
  let d := set_rewards_balances <[(n, ls) := RewardsBalance (pending_liquid bal) (amount shares) (amount value)]> d in
  t ← from_option_exn out_of_range (sst_tokens d !! vs);
  total ← safe_add (tk_vesting_shares t) (amount token);
  fund ← safe_add (tk_vesting_fund t) (amount to_move);
  pshares ← safe_sub (tk_pending_shares t) (amount token);
  pvalue ← safe_sub (tk_pending_value t) (amount to_move);
  mret (set_sst_tokens <[vs := set_tk_vesting fund total pshares pvalue t]> d).

Definition claim_token_liquid (n : name) (token : asset) (bal : rewards_balance) (d : db) : res db :=
  let ls := get_liquid_symbol (symbol token) in
  b ← asset_leb token (Asset (pending_liquid bal) ls); _ ← fc_assert b;
  pl ← asset_sub (Asset (pending_liquid bal) ls) token;
  mret (set_rewards_balances
          <[(n, ls) := RewardsBalance (amount pl) (pending_vesting_shares bal) (pending_vesting_value bal)]> d).

(** One element of the container. *)
Definition claim_token (n : name) (d : db) (token : asset) : res db :=
  if amount token =? 0 then mret d
  else
    match space (symbol token) with
    | SST_nai_space =>
        bal ← from_option_exn assert_exception (rewards_balances d !! (n, get_liquid_symbol (symbol token)));
        d ← (if is_vesting (symbol token) then claim_token_vesting n token bal d else claim_token_liquid n token bal d);
        adjust_balance n token d
    | legacy_space =>
        a ← get_account n d;
        if symbol token =? VESTS_SYMBOL then
          b ← asset_leb token (Asset (reward_vesting_balance a) VESTS_SYMBOL); _ ← fc_assert b;
          to_move ← vests_value token a;
          move_vests false n (amount token) to_move d
        else if (symbol token =? freezone_SYMBOL) || (symbol token =? SBD_SYMBOL) then
          _ ← (if symbol token =? freezone_SYMBOL
               then b ← asset_leb token (Asset (reward_freezone_balance a) freezone_SYMBOL); fc_assert b else mret tt);
          _ ← (if symbol token =? SBD_SYMBOL
               then b ← asset_leb token (Asset (reward_sbd_balance a) SBD_SYMBOL); fc_assert b else mret tt);
          minus ← asset_neg token;
          d ← adjust_reward_balance n minus (Asset 0 VESTS_SYMBOL) false d;
          adjust_balance n token d
        else Throw assert_exception
    end.

Definition claim_reward_balance2_apply (o : claim_reward_balance2_operation) (d : db) : res db :=
  _ ← fc_assert (has_hardfork freezone_SST_HARDFORK d);
  res_fold (claim_token (crb2_account o)) d (reward_tokens o).

(** ** Claims conserve money *)

Lemma asset_leb_Ok a b r : asset_leb a b = Ok r → symbol a = symbol b ∧ r = (amount a <=? amount b).
Proof.
  unfold asset_leb. intros H. res_inv. split; [by apply Z.eqb_eq|done].
Qed.

Lemma gap_move_vests s refresh n x value d d' : move_vests refresh n x value d = Ok d' → gap s d' = gap s d.
Proof.
  intros H. unfold move_vests in H. apply bind_Ok in H as (a & Ha%from_option_exn_Ok & H).
  apply bind_Ok in H as (st & Hst & H).
  assert (ma_vesting_shares st = vesting_shares a) as Est.
  { destruct refresh; [|by injection Hst as <-]. by apply refresh_mana_keeps in Hst as (v & w & ->). }
  apply bind_Ok in H as (v & ->%safe_add_value & H). apply bind_Ok in H as (rv & ->%safe_sub_value & H).
  apply bind_Ok in H as (rvf & ->%safe_sub_value & H). cbn zeta in H.
  do 2 apply bind_Ok in H as (? & ->%safe_add_value & H). do 2 apply bind_Ok in H as (? & ->%safe_sub_value & H).
  rewrite (gap_push_one _ _ _ _ _ H), gap_set_vesting, (gap_put_account _ _ a) by done.
  unfold account_held, amount_of, vesting_shares in *. cbn [symbol amount]. rewrite !(Z.eqb_sym _ s).
  destruct symbol_facts as (? & ? & ?).
  destruct (Z.eqb_spec s freezone_SYMBOL), (Z.eqb_spec s SBD_SYMBOL), (Z.eqb_spec s VESTS_SYMBOL); cbn; try congruence; lia.
Qed.

Lemma frame_move_vests refresh n x value d d' : move_vests refresh n x value d = Ok d' → ledger_frame d d'.
Proof.
  intros H. unfold move_vests in H. apply bind_Ok in H as (a & _ & H). do 4 apply bind_Ok in H as (? & _ & H).
  cbn zeta in H. do 4 apply bind_Ok in H as (? & _ & H). apply frame_push_one in H. by etrans; [|exact H].
Qed.

Lemma liquid_symbol_ne s : space s = SST_nai_space → is_vesting s = true → get_liquid_symbol s ≠ s.
Proof.
  unfold is_vesting, get_liquid_symbol. intros ->. rewrite vesting_bit, negb_involutive. intros Hb E.
  rewrite <- E, Z.land_spec in Hb. apply andb_true_iff in Hb as [_ Hb]. by vm_compute in Hb.
Qed.

(** The shares pending for a token cannot be claimed: the comparison with the
    liquid balance is between assets of different symbols. *)
Lemma claim_token_vesting_throws n token bal d :
  space (symbol token) = SST_nai_space → is_vesting (symbol token) = true →
  claim_token_vesting n token bal d = Throw assert_exception.
Proof.
  intros Hs Hv. unfold claim_token_vesting, asset_leb. cbn [symbol].
  rewrite (proj2 (Z.eqb_neq _ _)); [done|]. intros E. by eapply liquid_symbol_ne.
Qed.

(** The two steps of a claim of a liquid reward. *)
Lemma gap_claim_liquid s n x d d1 d2 :
  symbol x = freezone_SYMBOL ∨ symbol x = SBD_SYMBOL → ∀ m, asset_neg x = Ok m →
  adjust_reward_balance n m (Asset 0 VESTS_SYMBOL) false d = Ok d1 → adjust_balance n x d1 = Ok d2 →
  gap s d2 = gap s d.
Proof.
  intros Hs m Hm H1 H2. apply (gap_adjust_balance s) in H2. pose proof (asset_neg_value _ _ Hm) as E.
  apply (gap_adjust_reward_balance s) in H1; cbn [symbol amount Z.eqb] in *.
  - apply (amount_of_neg s) in Hm. lia.
  - done.
  - subst m. cbn. by destruct Hs as [-> | ->].
  - done.
Qed.

Lemma gap_claim_token_liquid s n token bal d d1 d2 :
  space (symbol token) = SST_nai_space → is_vesting (symbol token) = false →
  rewards_balances d !! (n, get_liquid_symbol (symbol token)) = Some bal →
  claim_token_liquid n token bal d = Ok d1 → adjust_balance n token d1 = Ok d2 → gap s d2 = gap s d ∧ ledger_frame d d2.
Proof.
  intros Hs Hv Hb H1 H2. pose proof (frame_adjust_balance _ _ _ _ H2) as F. apply (gap_adjust_balance s) in H2.
  unfold claim_token_liquid in H1. apply bind_Ok in H1 as (b & [El _]%asset_leb_Ok & H1). cbn [symbol] in El.
  apply bind_Ok in H1 as (? & _ & H1). apply bind_Ok in H1 as (pl & [_ ->]%asset_sub_value & H1). injection H1 as <-.
  split; [|by etrans; [|exact F]]. rewrite <- El in *. rewrite H2.
  change (set_rewards_balances <[(n, symbol token) := ?b]> d) with
    (set_rewards_balances (λ _, <[(n, symbol token) := b]> (rewards_balances d)) d).
  rewrite gap_put_rewards. unfold row. rewrite Hb. unfold rewards_held, amount_of. cbn [amount fst snd pending_liquid pending_vesting_shares].
  assert (liquid_symbol (symbol token) = symbol token) as Elq by (unfold liquid_symbol; by rewrite Hv).
  destruct (Z.eqb_spec (symbol token) s) as [<-|Hne]; [rewrite Hs, Elq, Z.eqb_refl, Hv; lia|].
  destruct (space s) eqn:Es; [lia|]. destruct (Z.eqb_spec (symbol token) (liquid_symbol s)) as [E|]; [|lia].
  unfold liquid_symbol in E. destruct (is_vesting s); [lia|congruence].
Qed.

Lemma gap_claim_token s n d token d' : claim_token n d token = Ok d' → gap s d' = gap s d ∧ ledger_frame d d'.
Proof.
  intros H. unfold claim_token in H. destruct (amount token =? 0); [by injection H as <-|].
  destruct (space (symbol token)) eqn:Es.
  - apply bind_Ok in H as (a & _ & H). destruct (symbol token =? VESTS_SYMBOL).
    { do 3 apply bind_Ok in H as (? & _ & H). split; [by eapply gap_move_vests|by eapply frame_move_vests]. }
    destruct (_ || _) eqn:Ef; [|done]. do 2 apply bind_Ok in H as (? & _ & H). apply bind_Ok in H as (m & Hm & H).
    apply bind_Ok in H as (d1 & H1 & H). split.
    + eapply gap_claim_liquid; [|done..]. apply orb_true_iff in Ef as [E|E]; [left|right]; by apply Z.eqb_eq.
    + etrans; [by eapply frame_adjust_reward_balance|by eapply frame_adjust_balance].
  - apply bind_Ok in H as (bal & Hb%from_option_exn_Ok & H). apply bind_Ok in H as (d1 & H1 & H).
    destruct (is_vesting (symbol token)) eqn:Ev; [by rewrite claim_token_vesting_throws in H1|].
    by eapply gap_claim_token_liquid.
Qed.

Lemma gap_claim2 s o d d' : claim_reward_balance2_apply o d = Ok d' → gap s d' = gap s d ∧ ledger_frame d d'.
Proof.
  intros H. unfold claim_reward_balance2_apply in H. apply bind_Ok in H as (? & _ & H).
  apply (res_fold_ind (λ d1, gap s d1 = gap s d ∧ ledger_frame d d1)) in H; [done|by split|].
  intros d1 a d2 _ [G F] [G' F']%(gap_claim_token s). split; [congruence|by etrans].
Qed.

Lemma gap_claim s o d d' :
  claim_reward_balance_validate o = Ok tt → claim_reward_balance_apply o d = Ok d' → gap s d' = gap s d ∧ ledger_frame d d'.
Proof.
  intros Hval H. unfold claim_reward_balance_validate in Hval. apply bind_Ok in Hval as (? & _ & Hval).
  apply bind_Ok in Hval as (? & Ef%fc_assert_Ok%Z.eqb_eq & Hval). apply bind_Ok in Hval as (? & Eb%fc_assert_Ok%Z.eqb_eq & _).
  unfold claim_reward_balance_apply in H. apply bind_Ok in H as (a & _ & H). do 7 apply bind_Ok in H as (? & _ & H).
  apply bind_Ok in H as (m1 & M1 & H). apply bind_Ok in H as (d1 & H1 & H). apply bind_Ok in H as (m2 & M2 & H).
  apply bind_Ok in H as (d2 & H2 & H). apply bind_Ok in H as (d3 & H3 & H). apply bind_Ok in H as (d4 & H4 & H).
  split; [|etrans; [by eapply frame_adjust_reward_balance|]; etrans; [by eapply frame_adjust_reward_balance|];
    etrans; [by eapply frame_adjust_balance|]; etrans; [by eapply frame_adjust_balance|by eapply frame_move_vests]].
  rewrite (gap_move_vests _ _ _ _ _ _ _ H). apply (gap_adjust_balance s) in H3, H4.
  pose proof (asset_neg_value _ _ M1) as E1. pose proof (asset_neg_value _ _ M2) as E2.
  apply (gap_adjust_reward_balance s) in H1; [|done|by rewrite E1; cbn; rewrite Ef|done].
  apply (gap_adjust_reward_balance s) in H2; [|done|by rewrite E2; cbn; rewrite Eb|done].
  apply (amount_of_neg s) in M1, M2. cbn [amount Z.eqb] in *. lia.
Qed.

(** ** Theorems *)

(** vesting shares of a smart social token can never be claimed.  A claim
    that contains any throws, whatever shares are pending: the evaluator
    compares the claimed shares with the pending liquid tokens, an asset of
    another symbol. *)
Theorem token_vesting_claims_rejected o d token :
  token ∈ reward_tokens o → amount token ≠ 0 → space (symbol token) = SST_nai_space → is_vesting (symbol token) = true →
  is_ok (claim_reward_balance2_apply o d) = false.
Proof.
  intros Hin Hx Hs Hv. unfold claim_reward_balance2_apply. destruct (fc_assert _) as [u|]; [|done]. simpl.
  revert d. induction (reward_tokens o) as [|a l IH]; [by apply not_elem_of_nil in Hin|]. intros d. simpl.
  destruct (claim_token (crb2_account o) d a) as [d1|e] eqn:E; [|done]. simpl.
  apply elem_of_cons in Hin as [->|Hin]; [|by apply IH]. unfold claim_token in E.
  rewrite (proj2 (Z.eqb_neq _ _) Hx), Hs, Hv in E. apply bind_Ok in E as (bal & _ & E).
  by rewrite claim_token_vesting_throws in E.
Qed.

(** Bob has 5 shares of a token pending, made from 5 tokens. *)
Lemma token_vesting_claims_rejected_witness :
  let d := set_rewards_balances (λ _, {[ ("bob", sample_token) := RewardsBalance 7 5 5 ]}) (sample_chain false) in
  let vests := Asset 5 (get_paired_symbol sample_token) in
  is_ok (claim_reward_balance2_apply (ClaimRewardBalance2 "bob" [vests]) d) = false
  ∧ is_ok (claim_reward_balance2_apply (ClaimRewardBalance2 "bob" [Asset 5 sample_token]) d) = true.
Proof.
  split; [|vm_compute; reflexivity].
  apply (token_vesting_claims_rejected _ _ (Asset 5 (get_paired_symbol sample_token)));
    [by left|discriminate|reflexivity|vm_compute; reflexivity].
Defined.
