(* ===== verification/Staking.v ===== *)
(** * The staking system as a whole

    Voting, proxies, powering up and down, routes, delegations, claims and the
    block steps that pay out and return shares, composed: the invariants of
    the single components hold together, and every sequence of the operations
    keeps them. *)

From S2P Require Import Prelude Config AccountName Uint128 SafeInt AssetSymbol Asset Manabar MapSum State Ledger Votes Vesting Payouts Delegation Claims.
From stdpp Require Import gmap strings.
#[local] Open Scope Z_scope.

(** ** Operations that do not delegate *)

Definition row_kept (m m' : mana_account) : Prop :=
  (stake_ok m → stake_ok m')
  ∧ ma_delegated_vesting_shares m' = ma_delegated_vesting_shares m
  ∧ ma_received_vesting_shares m' = ma_received_vesting_shares m.

Lemma row_kept_refl m : row_kept m m.
Proof. by split_and!. Qed.
Lemma row_kept_trans m1 m2 m3 : row_kept m1 m2 → row_kept m2 m3 → row_kept m1 m3.
Proof. intros (H1 & ? & ?) (H2 & ? & ?). split_and!; [auto|congruence..]. Qed.

(** Stakes stay covered, and what they delegate and receive stays the same; a
    new stake has no delegations. *)
Record kept (d d' : db) : Prop := Kept {
  k_rows : ∀ r, real_row r →
    match find_stake r d with
    | Some m => ∃ m', find_stake r d' = Some m' ∧ row_kept m m'
    | None => ∀ m', find_stake r d' = Some m' →
        stake_ok m' ∧ ma_delegated_vesting_shares m' = 0 ∧ ma_received_vesting_shares m' = 0
    end;
  k_delegations : delegations (staking d') = delegations (staking d);
  k_expirations : expirations (staking d') = expirations (staking d);
  k_next_id : next_id d <= next_id d'
}.

#[global] Instance kept_refl : Reflexive kept.
Proof.
  intros d. split; try done. intros r Hr. destruct (find_stake r d) as [m|]; [|done]. exists m. split; [done|].
  apply row_kept_refl.
Qed.

#[global] Instance kept_trans : Transitive kept.
Proof.
  intros d1 d2 d3 [H1 E1 F1 N1] [H2 E2 F2 N2]. split; [|congruence|congruence|lia]. intros r Hr.
  specialize (H1 r Hr). specialize (H2 r Hr). destruct (find_stake r d1) as [m1|].
  - destruct H1 as (m2 & F & K1). rewrite F in H2. destruct H2 as (m3 & F3 & K2). exists m3. split; [done|].
    by eapply row_kept_trans.
  - intros m3 F3. destruct (find_stake r d2) as [m2|]; [|by apply H2]. destruct (H1 m2 eq_refl) as (S & D & R).
    destruct H2 as (m3' & F' & K & ? & ?). assert (m3' = m3) as -> by congruence. split_and!; [auto|congruence..].
Qed.

Lemma kept_stakes d d' :
  (∀ r, find_stake r d' = find_stake r d) → delegations (staking d') = delegations (staking d) →
  expirations (staking d') = expirations (staking d) → next_id d <= next_id d' → kept d d'.
Proof.
  intros E Ed Ee En. split; try done. intros r Hr. rewrite E. destruct (find_stake r d) as [m|]; [|done].
  exists m. split; [done|]. apply row_kept_refl.
Qed.

Lemma rows_ok_kept d d' : kept d d' → rows_ok d → rows_ok d'.
Proof.
  intros [H _ _ _] Hok r m' Hr F. specialize (H r Hr). destruct (find_stake r d) as [m|] eqn:E.
  - destruct H as (m1 & F1 & S & D & R). assert (m1 = m') as -> by congruence. destruct (Hok r m Hr E) as [S0 R0].
    rewrite R. auto.
  - destruct (H m' F) as (S & D & R). rewrite R. split; [done|lia].
Qed.

Lemma delegations_ok_kept d d' : kept d d' → delegations_ok d → delegations_ok d'.
Proof.
  intros [H Ed Ee En] [Hout Hin Hrows Hret].
  assert (∀ r, real_row r → stake_value ma_delegated_vesting_shares r d' = stake_value ma_delegated_vesting_shares r d
    ∧ stake_value ma_received_vesting_shares r d' = stake_value ma_received_vesting_shares r d) as Hv.
  { intros r Hr. specialize (H r Hr). unfold stake_value. destruct (find_stake r d) as [m|].
    - destruct H as (m1 & -> & _ & D & R). done.
    - destruct (find_stake r d') as [m1|]; [|done]. simpl. by destruct (H m1 eq_refl) as (_ & -> & ->). }
  split; rewrite ?Ed, ?Ee; try done.
  - intros r Hr. rewrite (proj1 (Hv r Hr)). by apply Hout.
  - intros r Hr. rewrite (proj2 (Hv r Hr)). by apply Hin.
  - intros i e He. destruct (Hret i e He) as (? & ? & ?). split_and!; [done|lia|done].
Qed.

(** The write of one stake. *)
Lemma kept_put_account n a a' d : accounts d !! n = Some a → row_kept (stake a) (stake a') → kept d (put_account n a' d).
Proof.
  intros Ha Hk. split; try done. intros r Hr. assert (kept d d) as [H _ _ _] by done. specialize (H r Hr).
  destruct r as [m|m s]; [|exact H]. simpl. destruct (decide (m = n)) as [->|Hne].
  - rewrite Ha, lookup_insert_eq. simpl. eauto.
  - by rewrite lookup_insert_ne.
Qed.

Lemma stake_ok_shares m v : stake_ok m → ma_vesting_shares m <= v < 2 ^ 63 → stake_ok (set_ma_vesting v m).
Proof.
  intros [Hv Hd Hr Ht Hw Hn Hdown] Hx. split; cbn; try done; try lia.
  intros Hne. destruct (Hdown Hne) as (? & ? & ?). split_and!; [done|done|lia].
Qed.

(** A stake that gains shares. *)
Lemma row_kept_gain m x v :
  0 <= x → safe_add (ma_vesting_shares m) x = Ok v → row_kept m (set_ma_vesting v m).
Proof.
  intros Hx H. split_and!; try done. intros S. apply stake_ok_shares; [done|]. pose proof (so_shares _ S).
  unfold safe_add in H. res_inv. bools. repeat case_match; bools; lia.
Qed.

Lemma row_kept_mana m m' : mana_only m m' → row_kept m m'.
Proof. intros (v & w & ->). split_and!; try done. intros S. by eapply stake_ok_mana, mana_only_set. Qed.

(** ** Operations that touch neither stakes nor votes *)

Record still (d d' : db) : Prop := Still {
  s_kept : kept d d';
  s_view : voting_view <$> accounts d' = voting_view <$> accounts d;
  s_witnesses : witnesses (staking d') = witnesses (staking d);
  s_witness_votes : witness_votes (staking d') = witness_votes (staking d);
  s_routes : routes_ok d → routes_ok d';
  s_total : total_vesting_shares (gpo d') = total_vesting_shares (gpo d);
  s_now : now d' = now d;
  s_hardforks : processed_hardforks d' = processed_hardforks d;
  s_token_keys : dom (sst_tokens d') = dom (sst_tokens d)
}.

#[global] Instance still_refl : Reflexive still.
Proof. by split. Qed.
#[global] Instance still_trans : Transitive still.
Proof. intros d1 d2 d3 [] []. split; [by etrans|congruence|congruence|congruence|auto|congruence..]. Qed.

(** A stake whose shares stay the same. *)
Lemma still_put_stake n a m d :
  accounts d !! n = Some a → row_kept (stake a) m → ma_vesting_shares m = ma_vesting_shares (stake a) →
  still d (put_account n (set_stake m a) d).
Proof.
  intros Ha Hk Hv. split; try done; [by eapply kept_put_account|]. apply (view_put _ a); [done|].
  unfold voting_view, vesting_shares. by rewrite <- Hv.
Qed.

Lemma still_put_account n a a' d :
  accounts d !! n = Some a → stake a' = stake a → proxy a' = proxy a → proxied_vsf_votes a' = proxied_vsf_votes a →
  still d (put_account n a' d).
Proof.
  intros Ha Es Ep Eq. split; try done.
  - eapply kept_put_account; [done|]. rewrite Es. apply row_kept_refl.
  - apply (view_put _ a); [done|]. unfold voting_view, vesting_shares. by rewrite Es, Ep, Eq.
Qed.

Lemma stake_ok_initial : stake_ok initial_stake.
Proof. split; cbn; unfold time_point_sec_maximum; try lia; done. Qed.

Lemma still_regular key b' d :
  row_kept (from_option rb_stake initial_stake (regular_balances d !! key)) (rb_stake b') →
  still d (set_regular_balances (λ _, <[key := b']> (regular_balances d)) d).
Proof.
  intros Hk. split; try done. split; try done. intros r Hr. assert (kept d d) as [H _ _ _] by done. specialize (H r Hr).
  destruct r as [m|m s]; [exact H|]. simpl. destruct (decide ((m, s) = key)) as [<-|Hne].
  - rewrite lookup_insert_eq. destruct (regular_balances d !! (m, s)); simpl in *; [by eauto|].
    intros m' [= <-]. destruct Hk as (S & -> & ->). split_and!; [apply S, stake_ok_initial|done|done].
  - by rewrite lookup_insert_ne.
Qed.

(** Tables that hold no stakes. *)
Ltac still_same := split; try done; apply kept_stakes; done || by intros [].

Lemma still_supplies s sb v f d : still d (set_gpo (set_supplies s sb v f (gpo d)) d).
Proof. still_same. Qed.
Lemma still_token k t t' d : sst_tokens d !! k = Some t → still d (set_sst_tokens <[k := t']> d).
Proof. intros H. split; try done; [apply kept_stakes; done || by intros []|]. simpl. apply dom_insert_lookup_L. eauto. Qed.
Lemma still_rewards f d : still d (set_rewards_balances f d).
Proof. still_same. Qed.
#[export] Hint Resolve still_supplies still_token still_rewards : freezone.

Lemma still_adjust_supply delta v d d' : adjust_supply delta v d = Ok d' → still d d'.
Proof.
  unfold adjust_supply. intros H. destruct (space (symbol delta)); [repeat frame_step; auto with freezone|].
  res_inv. eauto with freezone.
Qed.

Lemma still_modify_balance n delta c d d' : symbol delta ≠ VESTS_SYMBOL → modify_balance n delta c d = Ok d' → still d d'.
Proof.
  intros Hs H. unfold modify_balance in H. apply bind_Ok in H as (a & Ha%from_option_exn_Ok & H).
  destruct (symbol delta =? freezone_SYMBOL).
  - res_inv. by apply (still_put_account _ a).
  - destruct (symbol delta =? SBD_SYMBOL); [|by rewrite (proj2 (Z.eqb_neq _ _) Hs) in H].
    apply bind_Ok in H as ([s d1] & H1 & H). injection H as <-. apply (modify_sbd_spec 0) in H1 as (sb & v & -> & _).
    etrans; [apply still_supplies|]. by apply (still_put_account _ a).
Qed.

Lemma still_adjust_savings n delta d d' : adjust_savings_balance n delta d = Ok d' → still d d'.
Proof.
  intros H. unfold adjust_savings_balance in H. apply bind_Ok in H as (a & Ha%from_option_exn_Ok & H).
  destruct (symbol delta =? freezone_SYMBOL); [res_inv; by apply (still_put_account _ a)|].
  destruct (symbol delta =? SBD_SYMBOL); [|done]. apply bind_Ok in H as ([s d1] & H1 & H). injection H as <-.
  apply (modify_sbd_spec 0) in H1 as (sb & v & -> & _). etrans; [apply still_supplies|]. by apply (still_put_account _ a).
Qed.

(** Vesting shares of a token may only be added. *)
Definition adds_shares (delta : asset) : Prop := is_vesting (symbol delta) = true → 0 <= amount delta.

Lemma still_adjust_balance n delta d d' :
  symbol delta ≠ VESTS_SYMBOL → adds_shares delta → adjust_balance n delta d = Ok d' → still d d'.
Proof.
  intros Hs Hadd H. unfold adjust_balance in H. apply bind_Ok in H as (? & _ & H).
  destruct (space (symbol delta)); [by eapply still_modify_balance|].
  case_decide; [apply bind_Ok in H as (nd & _ & H); by eapply still_adjust_supply|].
  apply bind_Ok in H as (m & Hm & H). injection H as <-.
  apply adjust_SST_balance_Ok in Hm as [(_ & _ & ->)|(b & b' & Hb & Hadd' & ->)]; [by destruct d|].
  apply still_regular. assert (from_option rb_stake initial_stake (regular_balances d !! (n, liquid_symbol (symbol delta)))
    = rb_stake b) as -> by (destruct Hb as [-> | [-> ->]]; done).
  simpl in Hadd'. destruct (is_vesting (symbol delta)) eqn:Ev; res_inv; [|apply row_kept_refl].
  by eapply row_kept_gain; [apply Hadd|].
Qed.

Lemma still_adjust_reward_balance n vd sd b d d' : adjust_reward_balance n vd sd b d = Ok d' → still d d'.
Proof.
  intros H. unfold adjust_reward_balance in H. apply bind_Ok in H as (? & _ & H).
  destruct (space (symbol vd)).
  - unfold modify_reward_balance in H. apply bind_Ok in H as (a & Ha%from_option_exn_Ok & H).
    repeat frame_step; by apply (still_put_account _ a).
  - case_decide; [apply bind_Ok in H as (nd & _ & H); by eapply still_adjust_supply|]. res_inv. auto with freezone.
Qed.

(** ** Operations of voters *)

(** An account without the members that voting writes. *)
Definition voteless (a : account) : account :=
  Account (balance a) (savings_balance a) (sbd a) (savings_sbd a) (savings_withdraw_requests a) (reward_freezone_balance a)
    (reward_sbd_balance a) (reward_vesting_balance a) (reward_vesting_freezone a) (stake a) (withdraw_routes a) "" [] 0 true.

Record voted (d d' : db) : Prop := Voted {
  vd_accounts : voteless <$> accounts d' = voteless <$> accounts d;
  vd_rest : d' = set_accounts (λ _, accounts d') (set_staking (λ _, staking d') d);
  vd_routes : routes (staking d') = routes (staking d);
  vd_delegations : delegations (staking d') = delegations (staking d);
  vd_expirations : expirations (staking d') = expirations (staking d)
}.

#[global] Instance voted_refl : Reflexive voted.
Proof. intros d. split; try done. by destruct d. Qed.
#[global] Instance voted_trans : Transitive voted.
Proof.
  intros d1 d2 d3 [A1 R1 ? ? ?] [A2 R2 ? ? ?]. split; [by rewrite A2| |congruence..].
  etrans; [exact R2|]. rewrite R1. reflexivity.
Qed.

Lemma voted_put n a a' d : accounts d !! n = Some a → voteless a' = voteless a → voted d (put_account n a' d).
Proof.
  intros Ha E. split; try done. simpl. rewrite fmap_insert, E. apply insert_id. by rewrite lookup_fmap, Ha.
Qed.
Lemma voted_witness_votes f d : voted d (set_witness_votes f d).
Proof. by split. Qed.
Lemma voted_witnesses f d : voted d (set_witnesses f d).
Proof. by split. Qed.

Lemma voted_walk d d' : walk_result d d' → voted d d'.
Proof.
  intros (m & ws & -> & Hm). split; try done. simpl. apply map_eq. intros n. rewrite !lookup_fmap. specialize (Hm n).
  destruct (accounts d !! n) as [a|]; [|by rewrite Hm]. by destruct Hm as (l & -> & _).
Qed.

Lemma voted_stakes d d' r : voted d d' → find_stake r d' = find_stake r d.
Proof.
  intros [A R _ _ _]. destruct r as [n|n s]; simpl; [|by rewrite R].
  assert (stake <$> (voteless <$> accounts d') !! n = stake <$> (voteless <$> accounts d) !! n) as E by (by rewrite A).
  rewrite !lookup_fmap in E. destruct (accounts d' !! n), (accounts d !! n); simpl in *; congruence.
Qed.

Lemma voted_kept d d' : voted d d' → kept d d'.
Proof.
  intros V. pose proof V as [_ R _ D E]. apply kept_stakes; try done; [|by rewrite R]. intros r. by apply voted_stakes.
Qed.

Lemma voted_gap s d d' : voted d d' → gap s d' = gap s d.
Proof.
  intros [A R _ _ _]. rewrite R. unfold_gap.
  by rewrite (msum_view voteless (account_held s) (account_held s) (accounts d) (accounts d')).
Qed.

Lemma voted_push left n l d d' :
  (left <= freezone_MAX_PROXY_RECURSION_DEPTH)%nat → adjust_proxied_witness_votes left n l d = Ok d' → voted d d'.
Proof. intros Hl H. by eapply voted_walk, pushed_result, adjust_proxied_pushed. Qed.
Lemma voted_push_one n x d d' :
  adjust_proxied_witness_votes_one freezone_MAX_PROXY_RECURSION_DEPTH n x d = Ok d' → voted d d'.
Proof. intros H. by eapply voted_walk, pushed_result, adjust_proxied_one_pushed. Qed.

Lemma voted_vote o d d' : account_witness_vote_apply o d = Ok d' → voted d d'.
Proof.
  intros H. unfold account_witness_vote_apply in H. apply bind_Ok in H as (a & _ & H).
  do 3 apply bind_Ok in H as (? & _ & H). set (w := awv_witness o) in *. set (n := awv_account o) in *.
  assert (∀ d x d1, adjust_witness_vote w x d = Ok d1 → voted d d1) as Hw.
  { intros d0 y d1 (? & ? & _ & _ & ->)%adjust_witness_vote_Ok. apply voted_witnesses. }
  assert (∀ d x d1, add_votes_plain w x d = Ok d1 → voted d d1) as Hp.
  { intros d0 y d1 H0. unfold add_votes_plain in H0. res_inv. apply voted_witnesses. }
  case_decide.
  - do 2 apply bind_Ok in H as (? & _ & H). apply bind_Ok in H as (d1 & H1 & H).
    apply bind_Ok in H as (v & Hv%from_option_exn_Ok & H). injection H as <-. trans d1; [|by apply (voted_put _ v)].
    trans (set_witness_votes (λ s, {[(n, w)]} ∪ s) d); [apply voted_witness_votes|].
    destruct (has_hardfork freezone_HARDFORK_0_2 d); [|by eapply Hp]. apply bind_Ok in H1 as (? & _ & H1).
    case_match; [by eapply Hw|by eapply voted_push_one].
  - apply bind_Ok in H as (? & _ & H). do 2 apply bind_Ok in H as (? & _ & H). apply bind_Ok in H as (d1 & H1 & H).
    apply bind_Ok in H as (v & Hv%from_option_exn_Ok & H). injection H as <-.
    trans d1; [|etrans; [by apply (voted_put n v (set_voted_for (u16 (witnesses_voted_for v - 1)) v))|apply voted_witness_votes]].
    destruct (has_hardfork freezone_HARDFORK_0_2 d); [|by eapply Hp].
    case_match; [by eapply Hw|by eapply voted_push_one].
Qed.

Lemma voted_proxy o d d' : account_witness_proxy_apply o d = Ok d' → voted d d'.
Proof.
  intros H. unfold account_witness_proxy_apply in H. apply bind_Ok in H as (a & _ & H).
  do 2 apply bind_Ok in H as (? & _ & H). apply bind_Ok in H as (delta & _ & H). apply bind_Ok in H as (d1 & H1 & H).
  apply voted_push in H1; [|done]. trans d1; [done|]. clear H1 d. rename d1 into d.
  case_decide.
  - apply bind_Ok in H as (b & Hb%from_option_exn_Ok & H). injection H as <-. by apply (voted_put _ b).
  - do 2 apply bind_Ok in H as (? & _ & H). apply bind_Ok in H as (d1 & H1 & H).
    apply bind_Ok in H as (b & Hb%from_option_exn_Ok & H). apply bind_Ok in H as (l & _ & H).
    apply voted_push in H; [|done]. trans d1; [|etrans; [by apply (voted_put (awp_account o) b (set_proxy (awp_proxy o) b))|done]]. clear H.
    unfold clear_witness_votes in H1. trans (set_witness_votes (filter (λ p, p.1 ≠ awp_account o)) d); [apply voted_witness_votes|].
    case_match; [|by injection H1 as <-]. apply bind_Ok in H1 as (c & Hc%from_option_exn_Ok & H1). injection H1 as <-.
    by apply (voted_put _ c).
Qed.

(** ** The invariant *)

Record staking_ok (d : db) : Prop := StakingOk {
  ok_votes : votes_ok d;
  ok_rows : rows_ok d;
  ok_delegations : delegations_ok d;
  ok_routes : routes_ok d;
  ok_tokens : tokens_wf d;
  ok_clock : clock_ok d
}.

Lemma staking_ok_still d d' : still d d' → staking_ok d → staking_ok d'.
Proof.
  intros [K V W E R T N H D] [Hv Hr Hd Hro Ht Hc]. split.
  - apply (votes_ok_view 0 0 d); try done. lia.
  - by eapply rows_ok_kept.
  - by eapply delegations_ok_kept.
  - auto.
  - by eapply tokens_wf_dom.
  - unfold clock_ok. by rewrite N.
Qed.

(** After an operation that moves votes. *)
Lemma staking_ok_moved d d' :
  kept d d' → votes_ok d' → routes (staking d') = routes (staking d) → ledger_frame d d' → staking_ok d → staking_ok d'.
Proof.
  intros K V R F [Hv Hr Hd Hro Ht Hc]. split; [done|by eapply rows_ok_kept|by eapply delegations_ok_kept| | |].
  - intros k r. rewrite R. apply Hro.
  - by eapply tokens_wf_frame.
  - unfold clock_ok. by rewrite (lf_now _ _ F).
Qed.

(** ** Powering up *)

Lemma adjust_vests_Ok n delta d d' :
  symbol delta = VESTS_SYMBOL → adjust_balance n delta d = Ok d' →
  0 <= amount delta
  ∧ ∃ a v, accounts d !! n = Some a ∧ safe_add (vesting_shares a) (amount delta) = Ok v
      ∧ d' = put_account n (set_vesting_shares v a) d.
Proof.
  intros Es H. unfold adjust_balance in H. rewrite Es in H. apply bind_Ok in H as (? & H0 & H).
  change (space VESTS_SYMBOL) with legacy_space in H. cbn in H. split.
  - destruct (Z.ltb_spec (amount delta) 0) as [Hlt|]; [|lia]. apply bind_Ok in H0 as (av & Hav & _).
    unfold get_balance in Hav. cbn in Hav. by res_inv.
  - unfold modify_balance in H. rewrite Es in H. apply bind_Ok in H as (a & Ha%from_option_exn_Ok & H).
    cbn in H. apply bind_Ok in H as (v & Hv & H). apply bind_Ok in H as (? & _ & H). injection H as <-. eauto.
Qed.

(** Shares [x] added to an account and to the total, and pushed to its
    witnesses. *)
Lemma staking_ok_gain n a a' x v g d d' :
  staking_ok d → accounts d !! n = Some a → 0 <= x → safe_add (vesting_shares a) x = Ok v →
  mana_only (set_ma_vesting v (stake a)) (stake a') → proxy a' = proxy a → proxied_vsf_votes a' = proxied_vsf_votes a →
  total_vesting_shares g = total_vesting_shares (gpo d) + x → head_block_time g = head_block_time (gpo d) →
  adjust_proxied_witness_votes_one freezone_MAX_PROXY_RECURSION_DEPTH n x (set_gpo g (put_account n a' d)) = Ok d' →
  staking_ok d'.
Proof.
  intros Hok Ha Hx Hv Hm Ep Eq Eg En H.
  assert (kept d (put_account n a' d)) as K1.
  { eapply kept_put_account; [done|]. eapply row_kept_trans; [by eapply row_kept_gain|by apply row_kept_mana]. }
  pose proof (voted_push_one _ _ _ _ H) as V. pose proof (frame_push_one _ _ _ _ H) as F.
  assert (votes_ok d') as Hvotes.
  { replace 0 with (0 + x - x) by lia. eapply (votes_ok_walk n 0 x x a a' d g); try done; [apply Hok|].
    unfold vesting_shares. destruct Hm as (? & ? & ->). cbn. by apply safe_add_value in Hv. }
  assert (ledger_frame d (set_gpo g (put_account n a' d))) as F0 by (split; try done; by unfold now).
  eapply staking_ok_moved; [|done| |by etrans|done].
  - etrans; [exact K1|]. etrans; [|by apply voted_kept]. apply kept_stakes; done || by intros [].
  - by rewrite (vd_routes _ _ V).
Qed.

Lemma staking_ok_create_vesting n liquid d nv d' :
  staking_ok d → (space (symbol liquid) = SST_nai_space → 0 <= amount nv) →
  create_vesting n liquid false d = Ok (nv, d') → staking_ok d'.
Proof.
  intros Hok Hnv H. unfold create_vesting in H. destruct (space (symbol liquid)) eqn:Es.
  - apply bind_Ok in H as (? & Ef%fc_assert_Ok%Z.eqb_eq & H). apply bind_Ok in H as (p & Hp & H).
    apply bind_Ok in H as (nv0 & Hn & H). apply bind_Ok in H as (d1 & H1 & H). apply bind_Ok in H as (g & Hg & H).
    apply bind_Ok in H as (d2 & H2 & H). injection H as <- <-.
    pose proof (proj1 (exchange_symbol false _ _ _ _ Hp Hn) Ef) as Ev.
    apply bind_Ok in H1 as (a & Ha%from_option_exn_Ok & H1). apply bind_Ok in H1 as (s & Hs & H1).
    apply refresh_mana_keeps in Hs as (v1 & w1 & ->).
    apply (adjust_vests_Ok _ _ _ _ Ev) in H1 as (Hx & a1 & v & Ha1 & Hv & ->). simpl in Ha1. rewrite lookup_insert_eq in Ha1.
    injection Ha1 as <-. unfold add_global_vesting in Hg. do 2 apply bind_Ok in Hg as (? & ?%safe_add_value & Hg).
    injection Hg as <-. subst.
    assert (∀ b c, put_account n b (put_account n c d) = put_account n b d) as E.
    { intros b c. unfold put_account, set_accounts. cbn. by rewrite insert_insert_eq. }
    rewrite E in H2. eapply staking_ok_gain; [exact Hok|exact Ha|exact Hx|exact Hv| | | | | |exact H2]; try done.
    eexists _, _. cbn. done.
  - unfold create_vesting_SST in H. apply bind_Ok in H as (? & Hl & H). case_decide.
    { do 2 apply bind_Ok in H as (? & ? & H). injection H as _ <-. by eapply staking_ok_still; [eapply still_adjust_supply|]. }
    apply bind_Ok in H as (t & Ht%from_option_exn_Ok & H). apply bind_Ok in H as (? & _ & H).
    apply bind_Ok in H as (p & Hp & H). apply bind_Ok in H as (nv0 & Hn & H). apply bind_Ok in H as (d1 & H1 & H).
    apply bind_Ok in H as (t1 & Ht1%from_option_exn_Ok & H). apply bind_Ok in H as (t2 & _ & H). injection H as <- <-.
    pose proof (ok_tokens _ Hok _ _ Ht) as Hsym. pose proof (proj1 (token_exchange_symbol false _ _ _ _ _ Hsym Hp Hn) eq_refl) as Ev.
    eapply staking_ok_still; [|exact Hok]. trans d1; [|eauto with freezone].
    eapply still_adjust_balance; [|by intros _; apply Hnv|done].
    intros E. rewrite E in Ev. destruct Hsym as (_ & _ & Hsp). by rewrite <- Ev in Hsp.
Qed.

(** The shares that a power-up of a token buys, at the price of the moment, fit
    [int64_t]; for freezone a conversion that does not is rejected by
    [adjust_balance]. *)
Definition conversion_fits (d : db) (o : transfer_to_vesting_operation) : Prop :=
  space (symbol (ttv_amount o)) = SST_nai_space →
  ∀ d1 nv d2, adjust_balance (ttv_from o) (Asset (- amount (ttv_amount o)) (symbol (ttv_amount o))) d = Ok d1 →
    create_vesting (if decide (ttv_to o = "") then ttv_from o else ttv_to o) (ttv_amount o) false d1 = Ok (nv, d2) → 0 <= amount nv.

Lemma liquid_not_vests s :
  s = freezone_SYMBOL ∨ space s = SST_nai_space ∧ is_vesting s = false → s ≠ VESTS_SYMBOL ∧ is_vesting s = false.
Proof. intros [->|[Hs Hv]]; [done|]. split; [by intros ->|done]. Qed.

Lemma power_up_liquid o :
  transfer_to_vesting_validate o = Ok tt → symbol (ttv_amount o) ≠ VESTS_SYMBOL ∧ is_vesting (symbol (ttv_amount o)) = false.
Proof.
  intros H. unfold transfer_to_vesting_validate in H. apply bind_Ok in H as (? & _ & H).
  apply bind_Ok in H as (? & Hs%fc_assert_Ok & _). apply liquid_not_vests. apply orb_true_iff in Hs as [Hs|Hs].
  - left. by apply Z.eqb_eq.
  - right. destruct (space _); [done|]. split; [done|]. by apply negb_true_iff.
Qed.

Lemma staking_ok_power_up o d d' :
  staking_ok d → transfer_to_vesting_validate o = Ok tt → conversion_fits d o → transfer_to_vesting_apply o d = Ok d' →
  staking_ok d'.
Proof.
  intros Hok Hval Hfit H. destruct (power_up_liquid o Hval) as [Hs Hv].
  unfold transfer_to_vesting_apply in H. do 3 apply bind_Ok in H as (? & _ & H).
  apply bind_Ok in H as (m & ->%asset_neg_value & H). apply bind_Ok in H as (d1 & H1 & H).
  apply bind_Ok in H as ([nv d2] & H2 & H). injection H as <-.
  assert (space (symbol (ttv_amount o)) = SST_nai_space → 0 <= amount nv) as Hnv by (intros Hsp; by eapply Hfit).
  apply still_adjust_balance in H1; [|done|intros E; cbn in E; congruence].
  eapply staking_ok_create_vesting; [by eapply staking_ok_still|exact Hnv|exact H2].
Qed.

(** ** Powering down *)

Lemma withdraw_rate_bounds x i r rate :
  0 < x < 2 ^ 63 → 0 < i → withdraw_rate x i r = Ok rate → 0 < rate < 2 ^ 63.
Proof.
  intros Hx Hi H. unfold withdraw_rate in H. apply bind_Ok in H as (q & Hq & H).
  assert (q = x ÷ i) as -> by (unfold safe_div in Hq; by res_inv).
  assert (0 <= x ÷ i <= x) as Hb by (rewrite Z.quot_div_nonneg by lia; split; [apply Z.div_pos; lia|apply Z.div_le_upper_bound; nia]).
  set (y := if x ÷ i =? 0 then 1 else x ÷ i) in *.
  assert (0 < y < 2 ^ 63) as Hy by (unfold y; destruct (Z.eqb_spec (x ÷ i) 0); lia).
  destruct r; [|by injection H as <-]. apply bind_Ok in H as (tot & _ & H). case_match; [|by injection H as <-].
  apply safe_add_bound in H; lia.
Qed.

Lemma row_kept_withdrawal x i sec r c d m m' :
  0 <= x <= ma_vesting_shares m - ma_delegated_vesting_shares m → 0 < i → start_withdrawal x i sec r c d m = Ok m' →
  row_kept m m' ∧ ma_vesting_shares m' = ma_vesting_shares m.
Proof.
  intros Hx Hi H. unfold start_withdrawal in H. destruct (Z.eqb_spec x 0) as [->|Hne].
  - apply bind_Ok in H as (? & _ & H). injection H as <-. split; [|done]. split_and!; try done.
    intros [Hv Hd Hr Ht Hw Hn Hdown]. split; cbn; unfold time_point_sec_maximum; try lia; done.
  - apply bind_Ok in H as (rate & Hrate & H). apply bind_Ok in H as (? & _ & H). injection H as <-.
    split; [|done]. split_and!; try done. intros [Hv Hd Hr Ht Hw Hn Hdown].
    apply withdraw_rate_bounds in Hrate; [|lia|done].
    split; cbn; try lia; [by apply wrapu_in|]. intros _. split_and!; [lia|by exists 0|lia].
Qed.

Lemma still_power_down o d d' : withdraw_vesting_apply o d = Ok d' → still d d'.
Proof.
  intros H. unfold withdraw_vesting_apply in H. apply bind_Ok in H as (a & Ha%from_option_exn_Ok & H).
  destruct (Z.ltb_spec (amount (wv_vesting_shares o)) 0) as [|Hx]; [by res_inv|].
  assert (0 < freezone_VESTING_WITHDRAW_INTERVALS ∧ 0 < freezone_VESTING_WITHDRAW_INTERVALS_PRE_HF_16) as [Hi Hi'] by done.
  destruct (space (symbol (wv_vesting_shares o))).
  - do 2 apply bind_Ok in H as (? & _ & H). apply bind_Ok in H as (fr & ->%safe_sub_value & H).
    apply bind_Ok in H as (? & Hf%fc_assert_Ok%Z.leb_le & H). apply bind_Ok in H as (s & Hs & H). injection H as <-.
    unfold vesting_shares in Hf. apply row_kept_withdrawal in Hs as [K V]; [|lia|by case_match].
    by apply still_put_stake.
  - do 2 apply bind_Ok in H as (? & _ & H).
    destruct (regular_balances d !! _) as [b|] eqn:Eb; [|done]. apply bind_Ok in H as (fr & ->%safe_sub_value & H).
    apply bind_Ok in H as (? & Hf%fc_assert_Ok%Z.leb_le & H). apply bind_Ok in H as (s & Hs & H). injection H as <-.
    unfold rb_vesting_shares in Hf. apply row_kept_withdrawal in Hs as [K V]; [|lia|done].
    apply still_regular. by rewrite Eb.
Qed.

(** ** Routes *)

Lemma still_route o d d' :
  set_withdraw_vesting_route_validate o = Ok tt → set_withdraw_vesting_route_apply o d = Ok d' → still d d'.
Proof.
  intros Hval H. unfold set_withdraw_vesting_route_validate in Hval. do 2 apply bind_Ok in Hval as (? & _ & Hval).
  apply fc_assert_Ok, andb_true_iff in Hval as [Hp0%Z.leb_le Hp1%Z.leb_le].
  unfold set_withdraw_vesting_route_apply in H. apply bind_Ok in H as (a & Ha%from_option_exn_Ok & H).
  do 2 apply bind_Ok in H as (? & _ & H). apply bind_Ok in H as (d1 & H1 & H). apply bind_Ok in H as (? & _ & H).
  injection H as <-. set (k := (sr_from_account o, sr_to_account o)) in *.
  assert (∀ f, (routes_ok d → ∀ k r, f (routes (staking d)) !! k = Some r → route_ok r) → still d (set_routes f d)) as Hr.
  { intros f Hf. split; try done. apply kept_stakes; done || by intros []. }
  assert (still d (set_routes <[k := WithdrawRoute (sr_percent o) (sr_auto_vest o)]> d)) as Hi.
  { apply Hr. intros Hro k' r. rewrite lookup_insert_Some. intros [[_ <-]|[_ Hk]]; [by split; cbn|by eapply Hro]. }
  destruct (routes (staking d) !! k).
  - destruct (sr_percent o =? 0); injection H1 as <-; [|done]. etrans; [apply (Hr (delete k))|by apply (still_put_account _ a)].
    intros Hro k' r [_ Hk]%lookup_delete_Some. by eapply Hro.
  - do 2 apply bind_Ok in H1 as (? & _ & H1). injection H1 as <-. etrans; [exact Hi|by apply (still_put_account _ a)].
Qed.

(** ** Claims *)

Lemma staking_ok_move_vests refresh n x value d d' :
  staking_ok d → 0 <= x → move_vests refresh n x value d = Ok d' → staking_ok d'.
Proof.
  intros Hok Hx H. unfold move_vests in H. apply bind_Ok in H as (a & Ha%from_option_exn_Ok & H).
  apply bind_Ok in H as (st & Hst & H).
  assert (mana_only (stake a) st) as (v1 & w1 & ->).
  { destruct refresh; [by eapply refresh_mana_keeps|]. injection Hst as <-. apply mana_only_refl. }
  apply bind_Ok in H as (v & Hv & H). do 2 apply bind_Ok in H as (? & _ & H). cbn zeta in H.
  apply bind_Ok in H as (? & ->%safe_add_value & H). do 3 apply bind_Ok in H as (? & _ & H).
  eapply staking_ok_gain; [exact Hok|exact Ha|exact Hx|exact Hv| | | | | |exact H]; try done. by eexists _, _.
Qed.

Lemma staking_ok_claim o d d' :
  staking_ok d → claim_reward_balance_validate o = Ok tt → claim_reward_balance_apply o d = Ok d' → staking_ok d'.
Proof.
  intros Hok Hval H. unfold claim_reward_balance_validate in Hval. apply bind_Ok in Hval as (? & _ & Hval).
  apply bind_Ok in Hval as (? & Ef%fc_assert_Ok%Z.eqb_eq & Hval). apply bind_Ok in Hval as (? & Es%fc_assert_Ok%Z.eqb_eq & Hval).
  do 3 apply bind_Ok in Hval as (? & _ & Hval). apply bind_Ok in Hval as (? & Hx%fc_assert_Ok%Z.leb_le & _).
  unfold claim_reward_balance_apply in H. apply bind_Ok in H as (a & _ & H). do 7 apply bind_Ok in H as (? & _ & H).
  apply bind_Ok in H as (m1 & M1 & H). apply bind_Ok in H as (d1 & H1 & H). apply bind_Ok in H as (m2 & M2 & H).
  apply bind_Ok in H as (d2 & H2 & H). apply bind_Ok in H as (d3 & H3 & H). apply bind_Ok in H as (d4 & H4 & H).
  eapply staking_ok_move_vests; [|exact Hx|exact H]. eapply staking_ok_still; [|exact Hok].
  apply still_adjust_reward_balance in H1, H2.
  apply still_adjust_balance in H3; [|by rewrite Ef|intros E; by rewrite Ef in E].
  apply still_adjust_balance in H4; [|by rewrite Es|intros E; by rewrite Es in E].
  do 3 (etrans; [eassumption|]). done.
Qed.

Lemma staking_ok_claim_token n d token d' :
  staking_ok d → 0 <= amount token → claim_token n d token = Ok d' → staking_ok d'.
Proof.
  intros Hok Hx H. unfold claim_token in H. destruct (amount token =? 0); [by injection H as <-|].
  destruct (space (symbol token)) eqn:Es.
  - apply bind_Ok in H as (a & _ & H). destruct (Z.eqb_spec (symbol token) VESTS_SYMBOL) as [Ev|Ev].
    { do 3 apply bind_Ok in H as (? & _ & H). by eapply staking_ok_move_vests. }
    destruct (_ || _) eqn:Ef; [|done]. do 3 apply bind_Ok in H as (? & _ & H). apply bind_Ok in H as (d1 & H1 & H).
    eapply staking_ok_still; [|exact Hok]. etrans; [by eapply still_adjust_reward_balance|].
    eapply still_adjust_balance; [done|by intros _|done].
  - apply bind_Ok in H as (bal & _ & H). apply bind_Ok in H as (d1 & H1 & H).
    destruct (is_vesting (symbol token)) eqn:Ev; [by rewrite claim_token_vesting_throws in H1|].
    eapply staking_ok_still; [|exact Hok]. unfold claim_token_liquid in H1. res_inv.
    etrans; [apply still_rewards|]. eapply still_adjust_balance; [|by intros _|done]. intros E. by rewrite E in Es.
Qed.

Lemma ascending_positive a l : check_ascending a l = Ok tt → Forall (λ x, 0 <= amount x) l.
Proof.
  revert a. induction l as [|b l IH]; intros a H; [done|]. cbn in H. do 4 apply bind_Ok in H as (? & _ & H).
  apply bind_Ok in H as (? & Hb%fc_assert_Ok%Z.ltb_lt & H). constructor; [lia|by eapply IH].
Qed.

Lemma staking_ok_claim2 o d d' :
  staking_ok d → claim_reward_balance2_validate o = Ok tt → claim_reward_balance2_apply o d = Ok d' → staking_ok d'.
Proof.
  intros Hok Hval H.
  assert (Forall (λ x, 0 <= amount x) (reward_tokens o)) as Hpos.
  { unfold claim_reward_balance2_validate in Hval. apply bind_Ok in Hval as (? & _ & Hval).
    destruct (reward_tokens o) as [|a l]; [done|]. apply bind_Ok in Hval as (? & Ha%fc_assert_Ok%Z.ltb_lt & Hval).
    constructor; [lia|by eapply ascending_positive]. }
  unfold claim_reward_balance2_apply in H. apply bind_Ok in H as (? & _ & H). rewrite Forall_forall in Hpos.
  eapply (res_fold_ind staking_ok); [exact Hok| |exact H]. intros s a s1 Ha Hs Hc.
  eapply staking_ok_claim_token; [exact Hs|by apply Hpos|exact Hc].
Qed.

(** ** Delegations *)

Lemma staking_ok_quiet d d' : rows_ok d' → delegations_ok d' → quiet d d' → staking_ok d → staking_ok d'.
Proof.
  intros R D Q [Hv _ _ Hro Ht Hc]. pose proof Q as [_ F _ _ _ _ Er]. split; try done.
  - by eapply votes_ok_quiet.
  - intros k r. rewrite Er. apply Hro.
  - by eapply tokens_wf_frame.
  - unfold clock_ok. by rewrite (lf_now _ _ F).
Qed.

(** ** Payouts *)

(** What an account has delegated and received. *)
Definition delegation_view (a : account) : Z * Z :=
  (ma_delegated_vesting_shares (stake a), ma_received_vesting_shares (stake a)).

Record undelegated (d d' : db) : Prop := Undelegated {
  u_view : delegation_view <$> accounts d' = delegation_view <$> accounts d;
  u_regular : regular_balances d' = regular_balances d;
  u_delegations : delegations (staking d') = delegations (staking d);
  u_expirations : expirations (staking d') = expirations (staking d);
  u_next_id : next_id d' = next_id d
}.

#[global] Instance undelegated_refl : Reflexive undelegated.
Proof. by split. Qed.
#[global] Instance undelegated_trans : Transitive undelegated.
Proof. intros d1 d2 d3 [A ? ? ? ?] [B ? ? ? ?]. split; [by rewrite B|congruence..]. Qed.

Lemma undelegated_put n a a' d :
  accounts d !! n = Some a → delegation_view a' = delegation_view a → undelegated d (put_account n a' d).
Proof. intros Ha E. split; try done. simpl. rewrite fmap_insert, E. apply insert_id. by rewrite lookup_fmap, Ha. Qed.
Lemma undelegated_gpo g d : undelegated d (set_gpo g d).
Proof. by split. Qed.

Lemma undelegated_push n x d d' :
  adjust_proxied_witness_votes_one freezone_MAX_PROXY_RECURSION_DEPTH n x d = Ok d' → undelegated d d'.
Proof.
  intros V%voted_push_one. pose proof V as [A R _ D E]. split; try done; [|by rewrite R..].
  change delegation_view with (delegation_view ∘ voteless). by rewrite !map_fmap_compose, A.
Qed.

Lemma undelegated_vests w acc r acc' : deposit_vests w acc r = Ok acc' → undelegated acc.2 acc'.2.
Proof.
  destruct acc as [k d]. unfold deposit_vests. intros H. destruct (auto_vest r.2); [|by injection H as <-].
  do 2 apply bind_Ok in H as (? & _ & H). case_match; [|by injection H as <-].
  apply bind_Ok in H as (a & Ha%from_option_exn_Ok & H). apply bind_Ok in H as (v & _ & H).
  apply bind_Ok in H as (d1 & H1 & H). injection H as <-. apply undelegated_push in H1. etrans; [|exact H1].
  by apply (undelegated_put _ a).
Qed.

Lemma undelegated_freezone w acc r acc' : deposit_freezone w acc r = Ok acc' → undelegated acc.2 acc'.2.
Proof.
  destruct acc as [[k c] d]. unfold deposit_freezone. intros H. destruct (auto_vest r.2); [by injection H as <-|].
  apply bind_Ok in H as (a & Ha%from_option_exn_Ok & H). do 5 apply bind_Ok in H as (? & _ & H).
  case_match; [|by injection H as <-]. apply bind_Ok in H as (v & _ & H).
  do 2 apply bind_Ok in H as (? & _ & H). injection H as <-. etrans; [|apply undelegated_gpo]. by apply (undelegated_put _ a).
Qed.

Lemma undelegated_withdraw n d d' : withdraw_account n d = Ok d' → undelegated d d'.
Proof.
  intros H. unfold withdraw_account in H. do 2 apply bind_Ok in H as (? & _ & H).
  apply bind_Ok in H as ([k1 d1] & H1 & H). apply bind_Ok in H as ([[k2 c2] d2] & H2 & H).
  assert (undelegated d d1) as U1.
  { apply (res_fold_ind (λ acc, undelegated d acc.2)) in H1; [done|done|].
    intros s a s1 _ Hs Hd. etrans; [exact Hs|by eapply undelegated_vests]. }
  assert (undelegated d1 d2) as U2.
  { apply (res_fold_ind (λ acc, undelegated d1 acc.2)) in H2; [done|done|].
    intros s a s1 _ Hs Hd. etrans; [exact Hs|by eapply undelegated_freezone]. }
  do 6 apply bind_Ok in H as (? & _ & H). apply bind_Ok in H as (a & Ha%from_option_exn_Ok & H).
  apply bind_Ok in H as ([b m] & (_ & _ & Ed & Er & _)%pay_withdrawal_Ok & H).
  do 2 apply bind_Ok in H as (? & _ & H). trans d1; [done|]. trans d2; [done|].
  assert (undelegated d2 (put_account n (set_stake m (set_balance b a)) d2)) as U3.
  { apply (undelegated_put _ a); [done|]. unfold delegation_view. cbn. by rewrite Ed, Er. }
  etrans; [exact U3|]. etrans; [apply undelegated_gpo|]. case_match; [|by injection H as <-].
  apply bind_Ok in H as (? & _ & H). by eapply undelegated_push.
Qed.

Lemma undelegated_withdraws fuel cur d d' : withdraw_accounts fuel cur d = Ok d' → undelegated d d'.
Proof.
  revert cur d. induction fuel as [|fuel IH]; intros [n|] d H; cbn [withdraw_accounts] in H; try (by injection H as <-);
    apply bind_Ok in H as (a & _ & H); (destruct (_ <=? _); [|by injection H as <-]); [done|].
  apply bind_Ok in H as (d1 & H1 & H). etrans; [by eapply undelegated_withdraw|by eapply IH].
Qed.

Lemma still_withdraw_token key b d d' :
  regular_balances d !! key = Some b → token_schedule b ≠ time_point_sec_maximum → withdraw_token key b d = Ok d' → still d d'.
Proof.
  intros Hb Hn H. unfold withdraw_token in H. apply bind_Ok in H as (t & Ht%from_option_exn_Ok & H).
  apply bind_Ok in H as (w & Hw & H). do 3 apply bind_Ok in H as (? & _ & H). apply bind_Ok in H as ([l m] & Hpay & H).
  do 2 apply bind_Ok in H as (? & _ & H). injection H as <-.
  etrans; [|eapply still_token; exact Ht]. apply still_regular. rewrite Hb. cbn [from_option rb_stake].
  pose proof (pay_withdrawal_Ok _ _ _ _ _ _ _ Hpay) as (_ & _ & Ed & Er & _). split_and!; try done. intros S.
  assert (set_ma_vesting (ma_vesting_shares (rb_stake b)) (rb_stake b) = rb_stake b) as E by (by destruct (rb_stake b)).
  rewrite <- E in Hpay at 1. pose proof (so_shares _ S). eapply stake_ok_paid; [exact S|exact Hn|exact Hw| |exact Hpay]. lia.
Qed.

Lemma still_withdraw_tokens fuel iter d d' :
  clock_ok d → (∀ x, iter = Some x → x ∈ token_rows d) → withdraw_tokens fuel iter d = Ok d' → still d d'.
Proof.
  revert iter d. induction fuel as [|fuel IH]; intros [x|] d Hc Hin H; cbn [withdraw_tokens] in H; try (by injection H as <-);
    (destruct (Z.leb_spec x.1 (now d)) as [Hdue|]; [|by injection H as <-]); [done|].
  destruct (token_rows_elem d x (Hin x eq_refl)) as (b & Hb & Ex). rewrite Hb in H. cbn [from_option_exn mbind res_bind] in H.
  apply bind_Ok in H as (d1 & H1 & H). apply bind_Ok in H as (b1 & _ & H).
  assert (still d d1) as S1.
  { apply (still_withdraw_token x.2 b); [done| |done]. unfold clock_ok, freezone_VESTING_WITHDRAW_INTERVAL_SECONDS in Hc. lia. }
  etrans; [exact S1|]. eapply IH; [|intros y; apply next_row_elem|exact H]. unfold clock_ok. by rewrite (s_now _ _ S1).
Qed.

Lemma staking_ok_payouts d d' : staking_ok d → process_vesting_withdrawals d = Ok d' → staking_ok d'.
Proof.
  intros Hok H. unfold process_vesting_withdrawals in H. apply bind_Ok in H as (d1 & H1 & H).
  apply still_withdraw_tokens in H1; [|apply Hok|intros x; apply first_row_elem].
  apply (staking_ok_still _ _ H1) in Hok. clear H1 d. rename d1 into d. destruct Hok as [Hv Hr Hd Hro Ht Hc].
  pose proof (undelegated_withdraws _ _ _ _ H) as [Uv Ur Ud Ue Un].
  apply (withdraw_accounts_ok 0) in H as [_ F V S R]; [|done|done|by apply rows_stakes_ok|done].
  assert (∀ r f, (f = ma_delegated_vesting_shares ∨ f = ma_received_vesting_shares) →
    f <$> find_stake r d' = f <$> find_stake r d) as Ev.
  { intros [n|n s] f Hf; simpl; [|by rewrite Ur].
    assert (delegation_view <$> accounts d' !! n = delegation_view <$> accounts d !! n) as E
      by (rewrite <- !lookup_fmap; by rewrite Uv).
    destruct (accounts d' !! n), (accounts d !! n); simpl in *; try done. injection E as E1 E2.
    destruct Hf as [-> | ->]; congruence. }
  assert (∀ f r, (f = ma_delegated_vesting_shares ∨ f = ma_received_vesting_shares) → stake_value f r d' = stake_value f r d) as Es.
  { intros f r Hf. pose proof (Ev r f Hf) as E. unfold stake_value.
    destruct (find_stake r d'), (find_stake r d); simpl in *; congruence. }
  split; try done.
  - intros r m' Hrr F'. pose proof (Ev r ma_received_vesting_shares (or_intror eq_refl)) as E. rewrite F' in E. simpl in E.
    destruct (find_stake r d) as [m|] eqn:Em; [|done]. injection E as E. destruct (Hr r m Hrr Em) as [Sm Rm]. rewrite E.
    split; [|done]. destruct r as [n|n s]; simpl in *; [|rewrite Ur in F'; by simplify_eq].
    apply fmap_Some in F' as (a & Ha & ->). by eapply S.
  - destruct Hd as [Hout Hin Hrows Hret]. split; rewrite ?Ud, ?Ue, ?Un; try done; intros r Hrr; rewrite Es by auto; auto.
  - intros k r. rewrite R. apply Hro.
  - by eapply tokens_wf_frame.
  - unfold clock_ok. by rewrite (lf_now _ _ F).
Qed.

(** ** Sequences of operations *)

Inductive staking_step : Type :=
| witness_vote (o : account_witness_vote_operation)
| witness_proxy (o : account_witness_proxy_operation)
| power_up (o : transfer_to_vesting_operation)
| power_down (o : withdraw_vesting_operation)
| withdraw_route (o : set_withdraw_vesting_route_operation)
| delegate (o : delegate_vesting_shares_operation)
| claim (o : claim_reward_balance_operation)
| claim2 (o : claim_reward_balance2_operation)
| pay_withdrawals
| return_expired_delegations.

(** An operation is validated before it is applied; the last two steps are part
    of block processing. *)
Definition run_staking (d : db) (s : staking_step) : res db :=
  match s with
  | witness_vote o => _ ← account_witness_vote_validate o; account_witness_vote_apply o d
  | witness_proxy o => _ ← account_witness_proxy_validate o; account_witness_proxy_apply o d
  | power_up o => _ ← transfer_to_vesting_validate o; transfer_to_vesting_apply o d
  | power_down o => _ ← withdraw_vesting_validate o; withdraw_vesting_apply o d
  | withdraw_route o => _ ← set_withdraw_vesting_route_validate o; set_withdraw_vesting_route_apply o d
  | delegate o => _ ← delegate_vesting_shares_validate o; delegate_vesting_shares_apply o d
  | claim o => _ ← claim_reward_balance_validate o; claim_reward_balance_apply o d
  | claim2 o => _ ← claim_reward_balance2_validate o; claim_reward_balance2_apply o d
  | pay_withdrawals => process_vesting_withdrawals d
  | return_expired_delegations => clear_expired_delegations d
  end.

Definition step_fits (d : db) (s : staking_step) : Prop :=
  match s with power_up o => conversion_fits d o | _ => True end.

Lemma voted_frame d d' : voted d d' → ledger_frame d d'.
Proof. intros [_ R _ _ _]. rewrite R. by split. Qed.

Lemma staking_ok_voted d d' : voted d d' → votes_ok d' → staking_ok d → staking_ok d'.
Proof. intros V Hv. apply staking_ok_moved; [by apply voted_kept|done|apply V|by apply voted_frame]. Qed.

Lemma staking_step_ok s d d' :
  staking_ok d → has_hardfork freezone_HARDFORK_0_3 d = true → step_fits d s → run_staking d s = Ok d' →
  staking_ok d' ∧ ledger_frame d d' ∧ ∀ sym, gap sym d' = gap sym d.
Proof.
  intros Hok Hhf Hfit H. destruct s as [o|o|o|o|o|o|o|o| |]; cbn [run_staking] in H;
    [apply bind_Ok in H as ([] & Hval & H)..| |].
  - pose proof (voted_vote _ _ _ H) as V. split_and!; [|by apply voted_frame|intros; by apply voted_gap].
    apply (staking_ok_voted d); [done| |done]. by eapply votes_ok_vote; [apply Hok|..].
  - pose proof (voted_proxy _ _ _ H) as V. split_and!; [|by apply voted_frame|intros; by apply voted_gap].
    apply (staking_ok_voted d); [done| |done]. by eapply votes_ok_proxy; [apply Hok|..].
  - pose proof (λ sym, gap_transfer_to_vesting sym o d d' (ok_tokens _ Hok) H) as G.
    split_and!; [by eapply staking_ok_power_up|apply (G 0)|apply G].
  - pose proof (λ sym, gap_withdraw_vesting sym o d d' H) as G.
    split_and!; [by eapply staking_ok_still; [eapply still_power_down|]|apply (G 0)|apply G].
  - pose proof (λ sym, gap_set_route sym o d d' H) as G.
    split_and!; [by eapply staking_ok_still; [eapply still_route|]|apply (G 0)|apply G].
  - destruct (delegate_keeps o d d') as (R & D & Q); try apply Hok; try done.
    split_and!; [by eapply staking_ok_quiet|apply Q|apply Q].
  - pose proof (λ sym, gap_claim sym o d d' Hval H) as G. split_and!; [by eapply staking_ok_claim|apply (G 0)|apply G].
  - pose proof (λ sym, gap_claim2 sym o d d' H) as G. split_and!; [by eapply staking_ok_claim2|apply (G 0)|apply G].
  - pose proof (λ sym, process_vesting_withdrawals_Ok sym d d' (ok_tokens _ Hok) (ok_routes _ Hok) (ok_votes _ Hok)
      (rows_stakes_ok _ (ok_rows _ Hok)) (ok_clock _ Hok) H) as P.
    split_and!; [by eapply staking_ok_payouts|apply (P 0)|apply P].
  - destruct (return_delegations_Ok _ d (Nat.le_refl _) (ok_rows _ Hok) (ok_delegations _ Hok)) as [_ Hres].
    destruct (Hres d' H) as (R & D & Q & _). split_and!; [by eapply staking_ok_quiet|apply Q|apply Q].
Qed.

(** C3: the staking system is consistent.  However voting, proxying, powering up
    and down, routing, delegating, claiming, paying out and returning are
    interleaved, from hardfork 3 on: the votes of every witness are exactly the
    shares behind them, no proxy chain is a loop, every stake covers what it
    delegates and powers down, delegated and received shares are the sums of
    the delegation rows, and no amount of any asset is created or lost.  Two
    conditions: the head time is at least a week before the end of the 32-bit
    clock, and whenever a smart token (not freezone) is powered up, the shares
    it buys at that moment fit 63 bits; the multiplication by a price does not
    check this. *)
Theorem staking_consistent l d d' :
  staking_ok d → has_hardfork freezone_HARDFORK_0_3 d = true →
  (∀ pre s post d1, l = pre ++ s :: post → res_fold run_staking d pre = Ok d1 → step_fits d1 s) →
  res_fold run_staking d l = Ok d' →
  staking_ok d' ∧ ∀ sym, gap sym d' = gap sym d.
Proof.
  intros Hok Hhf Hfit H.
  apply (res_fold_prefix (λ d1, staking_ok d1 ∧ has_hardfork freezone_HARDFORK_0_3 d1 = true ∧ ∀ sym, gap sym d1 = gap sym d)) in H
    as (? & _ & ?); [done|done|]. intros pre s post d1 d2 El Hp (Hok1 & Hhf1 & G1) H1.
  destruct (staking_step_ok s d1 d2) as (Hok2 & F & G2); [done|done|by eapply Hfit|done|]. split_and!; [done| |].
  - unfold has_hardfork in *. by rewrite (lf_hardforks _ _ F).
  - intros sym. by rewrite G2.
Qed.

(** ** The sample chain *)

Lemma sample_row r m :
  find_stake r (sample_chain false) = Some m →
  stake_ok m ∧ ma_delegated_vesting_shares m = 0 ∧ ma_received_vesting_shares m = 0.
Proof.
  destruct r as [n|n s]; simpl; intros (x & Hx & ->)%fmap_Some.
  - split; [by eapply (sample_stakes_ok false)|]. by destruct (sample_accounts false n x Hx) as [[_ ->]|[_ ->]].
  - rewrite (sample_tokens false _ _ Hx). split; [|done].
    split; cbn; unfold in_u; try lia; try done. intros _. split_and!; [lia|by exists 0|lia].
Qed.

Lemma sample_staking_ok : staking_ok (sample_chain false).
Proof.
  split; [apply sample_votes_ok| | |apply sample_routes_ok| |done].
  - intros r m _ H. destruct (sample_row r m H) as (S & _ & ->). split; [done|lia].
  - assert (∀ r, stake_value ma_delegated_vesting_shares r (sample_chain false) = 0
      ∧ stake_value ma_received_vesting_shares r (sample_chain false) = 0) as E.
    { intros r. unfold stake_value. destruct (find_stake r _) as [m|] eqn:F; [|done]. simpl.
      by destruct (sample_row r m F) as (_ & -> & ->). }
    split; try done; intros r _; [rewrite (proj1 (E r))|rewrite (proj2 (E r))]; cbn [sample_chain staking delegations expirations];
      by rewrite ?msum_empty.
  - intros k t. cbn. rewrite lookup_singleton_Some. intros [<- _]. by vm_compute.
Qed.

(** Bob delegates to Alice and takes half of it back, Alice's withdrawal of this
    week is paid, partly into Bob's stake, Bob votes himself with shares Alice powers up, and Alice cancels
    her withdrawal. *)
Definition sample_staking_steps : list staking_step :=
  [ delegate (DelegateVestingShares "bob" "alice" (Asset 60 VESTS_SYMBOL));
    delegate (DelegateVestingShares "bob" "alice" (Asset 30 VESTS_SYMBOL));
    witness_vote (AccountWitnessVote "alice" "wit" false);
    withdraw_route (SetWithdrawVestingRoute "alice" "bob" 2500 true);
    pay_withdrawals;
    witness_proxy (AccountWitnessProxy "bob" "");
    power_up (TransferToVesting "alice" "bob" (Asset 20 freezone_SYMBOL));
    witness_vote (AccountWitnessVote "bob" "wit" true);
    power_down (WithdrawVesting "alice" (Asset 0 VESTS_SYMBOL));
    return_expired_delegations ].

Lemma sample_steps_fit pre s post d1 : sample_staking_steps = pre ++ s :: post → step_fits d1 s.
Proof.
  intros E. assert (s ∈ sample_staking_steps) as Hs by (rewrite E; set_solver). unfold sample_staking_steps in Hs.
  repeat (apply elem_of_cons in Hs as [->|Hs]; [try done; by intros H|]). by apply not_elem_of_nil in Hs.
Qed.

Lemma sample_staking_runs :
  is_ok (res_fold run_staking (sample_chain false) sample_staking_steps) = true
  ∧ ∀ d', res_fold run_staking (sample_chain false) sample_staking_steps = Ok d' → tally "wit" d' = 145.
Proof. split; [vm_compute; reflexivity|]. intros d' E. vm_compute in E. injection E as <-. vm_compute. reflexivity. Qed.

Lemma staking_consistent_witness :
  ∃ d', res_fold run_staking (sample_chain false) sample_staking_steps = Ok d'
    ∧ staking_ok d' ∧ (∀ sym, gap sym d' = gap sym (sample_chain false)) ∧ tally "wit" d' = 145.
Proof.
  destruct sample_staking_runs as [Hrun Htally].
  destruct (res_fold run_staking (sample_chain false) sample_staking_steps) as [d'|e] eqn:E; [|discriminate Hrun].
  destruct (staking_consistent sample_staking_steps (sample_chain false) d' sample_staking_ok eq_refl (λ pre s post d1 Hl _, sample_steps_fit pre s post d1 Hl) E)
    as [H1 H2].
  exists d'. exact (conj eq_refl (conj H1 (conj H2 (Htally d' eq_refl)))).
Defined.
