(* ===== verification/Market.v ===== *)
(** * The internal market: limit orders and their matching

    chain/database.cpp, [apply_order], [match], [fill_order], [cancel_order],
    [clear_expired_orders] and the liquidity rewards of the first hardforks.
    A reference to an order object is its key (seller, orderid); a member
    read through a reference is a read of the current row. *)

From S2P Require Import Prelude Config AccountName Uint128 SafeInt AssetSymbol Asset MapSum State Ledger.
From stdpp Require Import gmap strings sorting.
#[local] Open Scope Z_scope.

Abbreviation order_key := (name * Z)%type.

Definition get_order (k : order_key) (d : db) : res limit_order := from_option_exn out_of_range (orders d !! k).

Definition set_for_sale (v : Z) (o : limit_order) : limit_order :=
  LimitOrder (lo_id o) (lo_created o) (lo_expiration o) v (sell_price o).

Definition amount_to_receive (o : limit_order) : res asset := asset_mul_price (amount_for_sale o) (sell_price o).

(** ** Cancelling and filling *)

Definition cancel_order (k : order_key) (d : db) : res db :=
  o ← get_order k d;
  d ← adjust_balance k.1 (amount_for_sale o) d;
  mret (set_orders (delete k) d).

(** Returns whether the order is gone. *)
Definition fill_order (k : order_key) (pays receives : asset) (d : db) : res (bool * db) :=
  o ← get_order k d;
  _ ← check order_fill_exception (symbol (amount_for_sale o) =? symbol pays);
  _ ← check order_fill_exception (negb (symbol pays =? symbol receives));
  d ← adjust_balance k.1 receives d;
  if asset_eqb pays (amount_for_sale o) then mret (true, set_orders (delete k) d)
  else
    b ← asset_ltb pays (amount_for_sale o);
    _ ← check order_fill_exception b;
    v ← safe_sub (for_sale o) (amount pays);
    let d := set_orders <[k := set_for_sale v o]> d in
    r ← amount_to_receive (set_for_sale v o);
    if amount r =? 0 then
      d ← cancel_order k d;
      mret (true, d)
    else mret (false, d).

(** ** Liquidity rewards (until hardfork 12) *)

Definition is_positive (r : liquidity_reward) : Z :=
  if (0 <? freezone_volume r) && (0 <? sbd_volume r) then 1 else 0.

Definition update_weight (hf9 : bool) (r : liquidity_reward) : liquidity_reward :=
  let w := if hf9 then i64 (Z.min (freezone_volume r) (sbd_volume r) * is_positive r)
           else i64 (i64 (freezone_volume r * sbd_volume r) * is_positive r) in
  LiquidityReward (freezone_volume r) (sbd_volume r) (uint128_of_i64 w) (lr_last_update r).

Definition adjust_liquidity_reward (owner : name) (volume : asset) (is_sbd : bool) (d : db) : res db :=
  _ ← get_account owner d;
  let r :=
    match liquidity d !! owner with
    | Some r =>
        let r := if freezone_LIQUIDITY_TIMEOUT_SEC <=? now d - lr_last_update r
                 then LiquidityReward 0 0 (U128 0 0) (lr_last_update r) else r in
        let r := if is_sbd then LiquidityReward (freezone_volume r) (i64 (sbd_volume r + amount volume)) (weight r) (lr_last_update r)
                 else LiquidityReward (i64 (freezone_volume r + amount volume)) (sbd_volume r) (weight r) (lr_last_update r) in
        update_weight (has_hardfork freezone_HARDFORK_0_10 d) r
    | None =>
        let r := if is_sbd then LiquidityReward 0 (amount volume) (U128 0 0) 0
                 else LiquidityReward (amount volume) 0 (U128 0 0) 0 in
        update_weight (has_hardfork freezone_HARDFORK_0_9 d) r
    end in
  mret (set_liquidity <[owner := LiquidityReward (freezone_volume r) (sbd_volume r) (weight r) (now d)]> d).

Definition pays_liquidity_reward (age : Z) (d : db) : bool :=
  negb (has_hardfork freezone_HARDFORK_0_12 d)
  && (((freezone_MIN_LIQUIDITY_REWARD_PERIOD_SEC <=? age) && negb (has_hardfork freezone_HARDFORK_0_10 d))
      || ((freezone_MIN_LIQUIDITY_REWARD_PERIOD_SEC_HF10 <=? age) && has_hardfork freezone_HARDFORK_0_10 d)).

(** ** Matching *)

(** What the two orders exchange: [(new_order_receives, old_order_receives)];
    each receives what the other pays. *)
Definition match_terms (new_order_for_sale old_order_for_sale : asset) (match_price : price) : res (asset * asset) :=
  x ← asset_mul_price old_order_for_sale match_price;
  b ← asset_leb new_order_for_sale x;
  if (b : bool) then
    r ← asset_mul_price new_order_for_sale match_price;
    mret (r, new_order_for_sale)
  else
    r ← asset_mul_price old_order_for_sale match_price;
    mret (old_order_for_sale, r).

Definition match_orders (new_order old_order : order_key) (match_price : price) (d : db) : res (Z * db) :=
  n ← get_order new_order d;
  o ← get_order old_order d;
  _ ← check order_match_exception (symbol (quote (sell_price n)) =? symbol (base (sell_price o)));
  _ ← check order_match_exception (symbol (base (sell_price n)) =? symbol (quote (sell_price o)));
  _ ← check order_match_exception ((0 <? for_sale n) && (0 <? for_sale o));
  _ ← check order_match_exception (symbol (quote match_price) =? symbol (base (sell_price n)));
  _ ← check order_match_exception (symbol (base match_price) =? symbol (base (sell_price o)));
  '(new_order_receives, old_order_receives) ← match_terms (amount_for_sale n) (amount_for_sale o) match_price;
  let old_order_pays := new_order_receives in
  let new_order_pays := old_order_receives in
  _ ← check order_match_exception
        (asset_eqb new_order_pays (amount_for_sale n) || asset_eqb old_order_pays (amount_for_sale o));
  d ← (if pays_liquidity_reward (now d - lo_created o) d then
         if symbol old_order_receives =? freezone_SYMBOL then
           d ← adjust_liquidity_reward old_order.1 old_order_receives false d;
           v ← asset_neg old_order_receives;
           adjust_liquidity_reward new_order.1 v false d
         else
           d ← adjust_liquidity_reward old_order.1 new_order_receives true d;
           v ← asset_neg new_order_receives;
           adjust_liquidity_reward new_order.1 v true d
       else mret d);
  '(f1, d) ← fill_order new_order new_order_pays new_order_receives d;
  '(f2, d) ← fill_order old_order old_order_pays old_order_receives d;
  let result := Z.lor (b2z f1) (Z.shiftl (b2z f2) 1) in
  _ ← check order_match_exception (negb (result =? 0));
  mret (result, d).

(** ** The order book

    The index [by_price]: by descending price, then ascending id. *)
Definition by_price_before (x y : order_key * limit_order) : bool :=
  if price_gtb (sell_price x.2) (sell_price y.2) then true
  else if price_gtb (sell_price y.2) (sell_price x.2) then false
  else lo_id x.2 <? lo_id y.2.

Definition by_price_le (x y : order_key * limit_order) : Prop := by_price_before y x = false.
#[global] Instance by_price_le_dec x y : Decision (by_price_le x y) := bool_eq_dec _ _.

(** The orders from [lower_bound( first )] up to [upper_bound( last )]. *)
Definition price_range (first last : price) (d : db) : list order_key :=
  let in_range x := negb (price_gtb (sell_price x.2) first) && negb (price_gtb last (sell_price x.2)) in
  (List.filter in_range (merge_sort by_price_le (map_to_list (orders d)))).*1.

(** The loop over the range; matching changes no other order of it. *)
Fixpoint match_loop (new_order : order_key) (range : list order_key) (d : db) : res db :=
  match range with
  | [] => mret d
  | k :: range =>
      o ← get_order k d;
      '(result, d) ← match_orders new_order k (sell_price o) d;
      if Z.odd result then mret d else match_loop new_order range d
  end.

Definition apply_order (k : order_key) (d : db) : res (bool * db) :=
  o ← get_order k d;
  max_price ← price_inv (sell_price o);
  first ← price_max (symbol (base max_price)) (symbol (quote max_price));
  d ← match_loop k (price_range first max_price d) d;
  mret (bool_decide (orders d !! k = None), d).

(** ** Expiration

    [clear_expired_orders] cancels the first order of [by_expiration] until it
    is not expired: the expired orders by expiration and id. *)
Definition by_expiration_le (x y : order_key * limit_order) : Prop :=
  lo_expiration x.2 < lo_expiration y.2
  ∨ (lo_expiration x.2 = lo_expiration y.2 ∧ lo_id x.2 <= lo_id y.2).
#[global] Instance by_expiration_le_dec x y : Decision (by_expiration_le x y).
Proof. unfold by_expiration_le. apply _. Defined.

Definition clear_expired_orders (d : db) : res db :=
  let expired := List.filter (λ x, lo_expiration x.2 <? now d) (merge_sort by_expiration_le (map_to_list (orders d))) in
  res_fold (λ d x, cancel_order x.1 d) d expired.

(** ** Operations (steem_evaluator.cpp) *)

(** [create< limit_order_object >]: the pair of seller and orderid is a unique
    index. *)
Definition create_order (k : order_key) (for_sale : Z) (p : price) (expiration : Z) (d : db) : res db :=
  _ ← check logic_error (bool_decide (orders d !! k = None));
  mret (set_next_id (next_id d + 1)
          (set_orders <[k := LimitOrder (next_id d) (now d) expiration for_sale p]> d)).

Record limit_order_create_operation : Type := LimitOrderCreate {
  loc_owner : name;
  loc_orderid : Z;
  loc_amount_to_sell : asset;
  loc_min_to_receive : asset;
  loc_fill_or_kill : bool;
  loc_expiration : Z
}.

Definition limit_order_create_validate (o : limit_order_create_operation) : res unit :=
  let sell := symbol (loc_amount_to_sell o) in
  let receive := symbol (loc_min_to_receive o) in
  let is_SST s := match space s with SST_nai_space => true | legacy_space => false end in
  _ ← validate_account_name (loc_owner o);
  _ ← fc_assert (((sell =? freezone_SYMBOL) && (receive =? SBD_SYMBOL))
                 || ((sell =? SBD_SYMBOL) && (receive =? freezone_SYMBOL))
                 || (is_SST sell && (receive =? freezone_SYMBOL))
                 || ((sell =? freezone_SYMBOL) && is_SST receive));
  p ← asset_div (loc_amount_to_sell o) (loc_min_to_receive o);
  price_validate p.

(** [head_block_id()._hash[4] % 86400] is read before hardfork 20 only. *)
Definition limit_order_create_apply (rand_offset : Z) (o : limit_order_create_operation) (d : db) : res db :=
  _ ← fc_assert (negb (has_hardfork freezone_SST_HARDFORK d));
  _ ← fc_assert (now d <? loc_expiration o);
  _ ← (if has_hardfork freezone_HARDFORK_0_20 d
       then fc_assert (loc_expiration o <=? now d + freezone_MAX_LIMIT_ORDER_EXPIRATION) else mret tt);
  na ← asset_neg (loc_amount_to_sell o);
  d ← adjust_balance (loc_owner o) na d;
  p ← asset_div (loc_amount_to_sell o) (loc_min_to_receive o);
  let expiration :=
    if has_hardfork freezone_HARDFORK_0_20 d then loc_expiration o
    else Z.min (loc_expiration o)
           (freezone_HARDFORK_0_20_TIME + freezone_MAX_LIMIT_ORDER_EXPIRATION + rand_offset) in
  let k := (loc_owner o, loc_orderid o) in
  d ← create_order k (amount (loc_amount_to_sell o)) p expiration d;
  '(filled, d) ← apply_order k d;
  _ ← (if loc_fill_or_kill o then fc_assert filled else mret tt);
  mret d.

Record limit_order_create2_operation : Type := LimitOrderCreate2 {
  loc2_owner : name;
  loc2_orderid : Z;
  loc2_amount_to_sell : asset;
  loc2_exchange_rate : price;
  loc2_fill_or_kill : bool;
  loc2_expiration : Z
}.

Definition limit_order_create2_validate (o : limit_order_create2_operation) : res unit :=
  _ ← validate_account_name (loc2_owner o);
  _ ← price_validate (loc2_exchange_rate o);
  _ ← fc_assert (negb (is_vesting (symbol (loc2_amount_to_sell o))));
  r ← asset_mul_price (loc2_amount_to_sell o) (loc2_exchange_rate o);
  fc_assert (0 <? amount r).

(** The price checks, and the price to sell at. *)
Definition create2_price (o : limit_order_create2_operation) (d : db) : res price :=
  let sell := loc2_amount_to_sell o in
  let rate := loc2_exchange_rate o in
  if has_hardfork freezone_SST_HARDFORK d then
    _ ← validate_tick_pricing rate;
    _ ← (match space (symbol (quote rate)) with
         | SST_nai_space => fc_assert (bool_decide (is_Some (sst_tokens d !! symbol (quote rate))))
         | legacy_space => mret tt
         end);
    rate ← (if negb (symbol sell =? symbol (base rate)) then price_inv rate else mret rate);
    _ ← fc_assert (symbol sell =? symbol (base rate));
    mret rate
  else
    _ ← fc_assert (symbol sell =? symbol (base rate));
    _ ← fc_assert (((symbol sell =? freezone_SYMBOL) && (symbol (quote rate) =? SBD_SYMBOL))
                   || ((symbol sell =? SBD_SYMBOL) && (symbol (quote rate) =? freezone_SYMBOL)));
    mret rate.

Definition limit_order_create2_apply (o : limit_order_create2_operation) (d : db) : res db :=
  _ ← fc_assert (now d <? loc2_expiration o);
  _ ← (if has_hardfork freezone_HARDFORK_0_20 d
       then fc_assert (loc2_expiration o <=? now d + freezone_MAX_LIMIT_ORDER_EXPIRATION) else mret tt);
  p ← create2_price o d;
  na ← asset_neg (loc2_amount_to_sell o);
  d ← adjust_balance (loc2_owner o) na d;
  let expiration :=
    if has_hardfork freezone_HARDFORK_0_20 d then loc2_expiration o
    else Z.min (loc2_expiration o) (freezone_HARDFORK_0_20_TIME + freezone_MAX_LIMIT_ORDER_EXPIRATION) in
  let k := (loc2_owner o, loc2_orderid o) in
  d ← create_order k (amount (loc2_amount_to_sell o)) p expiration d;
  '(filled, d) ← apply_order k d;
  _ ← (if loc2_fill_or_kill o then fc_assert filled else mret tt);
  mret d.

(** [get_limit_order] masks the id before hardfork 6. *)
Definition limit_order_cancel_apply (owner : name) (orderid : Z) (d : db) : res db :=
  let orderid := if negb (has_hardfork freezone_HARDFORK_0_6 d) then Z.land orderid 65535 else orderid in
  cancel_order (owner, orderid) d.

(** ** Conservation *)

Lemma gap_put_order s k o d :
  gap s (set_orders <[k := o]> d) = gap s d + order_held s k o - row (order_held s) (orders d) k.
Proof.
  unfold_gap.
  rewrite msum_insert. lia.
Qed.

Lemma gap_remove_order s k d :
  gap s (set_orders (delete k) d) = gap s d - row (order_held s) (orders d) k.
Proof.
  unfold_gap.
  rewrite msum_delete. lia.
Qed.

Lemma row_order s k o d : orders d !! k = Some o → row (order_held s) (orders d) k = amount_of s (amount_for_sale o).
Proof. intros E. unfold row. by rewrite E. Qed.

Lemma gap_cancel_order s k d d' : cancel_order k d = Ok d' → gap s d' = gap s d.
Proof.
  unfold cancel_order. intros H. apply bind_Ok in H as (o & Ho & H). apply from_option_exn_Ok in Ho.
  apply bind_Ok in H as (d1 & H1 & H). injection H as <-. pose proof (same_tables_adjust_balance _ _ _ _ H1) as F.
  rewrite gap_remove_order, (row_order s k o) by (by rewrite (st_orders _ _ F)).
  apply (gap_adjust_balance s) in H1. lia.
Qed.

Lemma asset_eqb_true a b : asset_eqb a b = true → a = b.
Proof. unfold asset_eqb. destruct a, b; simpl. intros H. bools. by subst. Qed.

(** A filled order receives and pays. *)
Lemma gap_fill_order s k pays receives d b d' :
  fill_order k pays receives d = Ok (b, d') → gap s d' = gap s d + amount_of s receives - amount_of s pays.
Proof.
  unfold fill_order. intros H. apply bind_Ok in H as (o & Ho & H). apply from_option_exn_Ok in Ho.
  apply bind_Ok in H as (_ & _ & H). apply bind_Ok in H as (_ & _ & H).
  apply bind_Ok in H as (d1 & H1 & H). pose proof (same_tables_adjust_balance _ _ _ _ H1) as F.
  apply (gap_adjust_balance s) in H1. rewrite <- H1. clear H1.
  assert (orders d1 !! k = Some o) as Ho1 by (by rewrite (st_orders _ _ F)).
  destruct (asset_eqb pays (amount_for_sale o)) eqn:E.
  { injection H as <- <-. apply asset_eqb_true in E as ->. by rewrite gap_remove_order, (row_order s k o). }
  apply bind_Ok in H as (lt & Hlt & H). unfold asset_ltb in Hlt. apply bind_Ok in Hlt as ([] & Hs & _).
  apply fc_assert_Ok, Z.eqb_eq in Hs. apply bind_Ok in H as (_ & _ & H).
  apply bind_Ok in H as (v & Hv & H). apply safe_sub_value in Hv as ->. apply bind_Ok in H as (r & _ & H).
  set (o' := set_for_sale (for_sale o - amount pays) o) in *.
  assert (gap s (set_orders <[k := o']> d1) = gap s d1 - amount_of s pays) as Hg.
  { rewrite gap_put_order, (row_order s k o) by done. unfold order_held, amount_for_sale, o', set_for_sale.
    cbn [for_sale sell_price]. rewrite amount_of_sub, (amount_of_eta s pays); [lia|]. done. }
  rewrite <- Hg. case_match.
  - apply bind_Ok in H as (d2 & H2 & H). injection H as <- <-. by apply (gap_cancel_order s k).
  - by injection H as <- <-.
Qed.

Lemma gap_liquidity s n v b d d' : adjust_liquidity_reward n v b d = Ok d' → gap s d' = gap s d.
Proof. unfold adjust_liquidity_reward. intros H. apply bind_Ok in H as (? & _ & H). by injection H as <-. Qed.

(** A match moves assets between the two sellers only. *)
Lemma gap_match_orders s kn ko p d r d' : match_orders kn ko p d = Ok (r, d') → gap s d' = gap s d.
Proof.
  unfold match_orders. intros H. apply bind_Ok in H as (n & _ & H). apply bind_Ok in H as (o & _ & H).
  do 5 apply bind_Ok in H as (_ & _ & H). apply bind_Ok in H as ([nr or] & _ & H).
  apply bind_Ok in H as (_ & _ & H). apply bind_Ok in H as (d1 & H1 & H).
  apply bind_Ok in H as ([f1 d2] & H2 & H). apply bind_Ok in H as ([f2 d3] & H3 & H).
  apply bind_Ok in H as (_ & _ & H). injection H as _ <-.
  apply (gap_fill_order s) in H2, H3.
  assert (gap s d1 = gap s d); [|lia].
  repeat case_match; try (by injection H1 as <-);
    apply bind_Ok in H1 as (d4 & H4 & H1); apply bind_Ok in H1 as (v & _ & H1);
    apply (gap_liquidity s) in H4, H1; congruence.
Qed.

Lemma gap_match_loop s k range d d' : match_loop k range d = Ok d' → gap s d' = gap s d.
Proof.
  revert d. induction range as [|c range IH]; simpl; intros d H; [by injection H as <-|].
  apply bind_Ok in H as (o & _ & H). apply bind_Ok in H as ([r d1] & H1 & H).
  apply (gap_match_orders s) in H1. case_match; [injection H as <-; done|]. rewrite <- H1. by apply IH.
Qed.

Lemma gap_apply_order s k d b d' : apply_order k d = Ok (b, d') → gap s d' = gap s d.
Proof.
  unfold apply_order. intros H. do 3 apply bind_Ok in H as (? & _ & H).
  apply bind_Ok in H as (d1 & H1 & H). injection H as _ <-. by eapply gap_match_loop.
Qed.

Lemma gap_create_order s k v p e d d' :
  create_order k v p e d = Ok d' → gap s d' = gap s d + amount_of s (Asset v (symbol (base p))).
Proof.
  unfold create_order. intros H. apply bind_Ok in H as (? & Hn & H). injection H as <-.
  apply check_Ok, bool_decide_eq_true in Hn. set (o := LimitOrder _ _ _ _ _).
  change (gap s (set_next_id (next_id d + 1) (set_orders <[k := o]> d))) with (gap s (set_orders <[k := o]> d)).
  rewrite gap_put_order. unfold row. rewrite Hn. unfold order_held, amount_for_sale, o. cbn [for_sale sell_price]. lia.
Qed.

Lemma asset_div_base a b p : asset_div a b = Ok p → base p = a ∧ quote p = b.
Proof.
  unfold asset_div, make_price. intros H. apply bind_Ok in H as (_ & _ & H). apply bind_Ok in H as (_ & _ & H).
  by injection H as <-.
Qed.

(** The three operations: what is taken from the owner is in the order. *)
Lemma gap_limit_order_create s r o d d' : limit_order_create_apply r o d = Ok d' → gap s d' = gap s d.
Proof.
  unfold limit_order_create_apply. intros H. do 3 apply bind_Ok in H as (_ & _ & H).
  apply bind_Ok in H as (na & Hna & H). apply bind_Ok in H as (d1 & H1 & H).
  apply bind_Ok in H as (p & Hp & H). apply bind_Ok in H as (d2 & H2 & H).
  apply bind_Ok in H as ([f d3] & H3 & H). apply bind_Ok in H as (_ & _ & H). injection H as <-.
  apply (gap_adjust_balance s) in H1. apply (gap_create_order s) in H2. apply (gap_apply_order s) in H3.
  apply (amount_of_neg s) in Hna. apply asset_div_base in Hp as [Hp _].
  rewrite Hp, (amount_of_eta s (loc_amount_to_sell o)) in H2 by done. lia.
Qed.

Lemma create2_price_base o d p : create2_price o d = Ok p → symbol (base p) = symbol (loc2_amount_to_sell o).
Proof.
  unfold create2_price. intros H. case_match.
  - do 2 apply bind_Ok in H as (_ & _ & H). apply bind_Ok in H as (r & _ & H).
    apply bind_Ok in H as ([] & Hs & H). injection H as <-. apply fc_assert_Ok, Z.eqb_eq in Hs. done.
  - apply bind_Ok in H as ([] & Hs & H). apply bind_Ok in H as (_ & _ & H). injection H as <-.
    apply fc_assert_Ok, Z.eqb_eq in Hs. done.
Qed.

Lemma gap_limit_order_create2 s o d d' : limit_order_create2_apply o d = Ok d' → gap s d' = gap s d.
Proof.
  unfold limit_order_create2_apply. intros H. do 2 apply bind_Ok in H as (_ & _ & H).
  apply bind_Ok in H as (p & Hp & H). apply bind_Ok in H as (na & Hna & H). apply bind_Ok in H as (d1 & H1 & H).
  apply bind_Ok in H as (d2 & H2 & H).
  apply bind_Ok in H as ([f d3] & H3 & H). apply bind_Ok in H as (_ & _ & H). injection H as <-.
  apply (gap_adjust_balance s) in H1. apply (gap_create_order s) in H2. apply (gap_apply_order s) in H3.
  apply (amount_of_neg s) in Hna. apply create2_price_base in Hp.
  rewrite Hp, (amount_of_eta s (loc2_amount_to_sell o)) in H2 by done. lia.
Qed.

Lemma gap_clear_expired_orders s d d' : clear_expired_orders d = Ok d' → gap s d' = gap s d.
Proof.
  unfold clear_expired_orders. generalize (List.filter (λ x, lo_expiration x.2 <? now d) (merge_sort by_expiration_le (map_to_list (orders d)))).
  intros l. revert d. induction l as [|x l IH]; simpl; intros d H; [by injection H as <-|].
  apply bind_Ok in H as (d1 & H1 & H). apply (gap_cancel_order s) in H1. rewrite <- H1. by apply IH.
Qed.

(** ** Prices *)

Lemma convert_exact x num den :
  0 <= x < 2 ^ 63 → 0 < num < 2 ^ 63 → 0 < den < 2 ^ 63 → x * num / den < 2 ^ 63 →
  convert_amount x num den = Ok (x * num / den) ∧ 0 <= x * num / den.
Proof.
  intros Hx Hn Hd Hq. assert (0 <= x * num / den) by (apply Z.div_pos; nia). split; [|done].
  apply convert_amount_Ok; [done..|]. split; [lia|]. symmetry. apply i64_small. int_unfold. lia.
Qed.

(** Conversion from the base and from the quote of a price. *)
Lemma mul_price_base x p :
  wf_price p → 0 <= x < 2 ^ 63 → x * amount (quote p) / amount (base p) < 2 ^ 63 →
  asset_mul_price (Asset x (symbol (base p))) p = Ok (Asset (x * amount (quote p) / amount (base p)) (symbol (quote p))).
Proof.
  intros (Hb & Hq & Hs) Hx Hlt. unfold asset_mul_price. cbn [symbol amount]. rewrite Z.eqb_refl.
  destruct (convert_exact x (amount (quote p)) (amount (base p)) Hx Hq Hb Hlt) as [-> _]. done.
Qed.

Lemma mul_price_quote x p :
  wf_price p → 0 <= x < 2 ^ 63 → x * amount (base p) / amount (quote p) < 2 ^ 63 →
  asset_mul_price (Asset x (symbol (quote p))) p = Ok (Asset (x * amount (base p) / amount (quote p)) (symbol (base p))).
Proof.
  intros (Hb & Hq & Hs) Hx Hlt. unfold asset_mul_price. cbn [symbol amount].
  rewrite (proj2 (Z.eqb_neq _ _)) by congruence. rewrite Z.eqb_refl.
  destruct (convert_exact x (amount (base p)) (amount (quote p)) Hx Hb Hq Hlt) as [-> _]. done.
Qed.

(** C16: no side of a match does worse than its own limit.  For an incoming
    order selling [x] with limit [pn] and a resting order selling [y] at [po],
    where [po] is at least as good as [pn] asks (the range [apply_order]
    iterates over), the exchange is computed without an exception, one of the
    two orders is used up, neither pays more than it has, and each receives at
    least what its own price gives for what it pays, rounded down. *)
Theorem match_respects_limits x y pn po :
  wf_price pn → wf_price po →
  symbol (base po) = symbol (quote pn) → symbol (quote po) = symbol (base pn) →
  price_gtb (Price (quote pn) (base pn)) po = false →
  0 < x < 2 ^ 63 → 0 < y < 2 ^ 63 → y * amount (quote po) / amount (base po) < 2 ^ 63 →
  ∃ nr or,
    match_terms (Asset x (symbol (base pn))) (Asset y (symbol (base po))) po
      = Ok (Asset nr (symbol (base po)), Asset or (symbol (base pn)))
    ∧ 0 <= nr <= y ∧ 0 <= or <= x ∧ (or = x ∨ nr = y)
    ∧ or * amount (quote pn) / amount (base pn) <= nr
    ∧ nr * amount (quote po) / amount (base po) <= or.
Proof.
  intros Wn Wo Eb Eq Hp Hx Hy Hlt. pose proof Wn as (Hbn & Hqn & Hsn). pose proof Wo as (Hbo & Hqo & Hso).
  assert (amount (quote pn) * amount (quote po) <= amount (base pn) * amount (base po)) as Hcross.
  { unfold price_gtb, BQ_eqb in Hp. cbn [base quote symbol] in Hp. rewrite Eb, Eq, !Z.eqb_refl in Hp.
    cbn [andb] in Hp. apply Z.ltb_ge in Hp. rewrite !cross_exact in Hp; [cbn [base quote] in Hp; lia|done..| |];
    (split_and!; cbn [base quote]; try lia; congruence). }
  unfold match_terms. rewrite <- Eq. rewrite mul_price_base by (done || lia). cbn [mbind res_bind].
  unfold asset_leb. cbn [symbol amount]. rewrite Z.eqb_refl. cbn [fc_assert mbind res_bind].
  set (b := amount (base po)) in *. set (q := amount (quote po)) in *.
  set (bn := amount (base pn)) in *. set (qn := amount (quote pn)) in *.
  pose proof (Z.mul_div_le (y * q) b ltac:(lia)) as Hyq.
  destruct (Z.leb_spec x (y * q / b)) as [Hle|Hgt].
  - assert (x * b / q <= y) as Hxy by (apply Z.div_le_upper_bound; [lia|]; nia).
    rewrite mul_price_quote by (done || lia || (fold b q; lia)). fold b q. cbn [mbind res_bind]. unfold mret, res_ret.
    pose proof (Z.mul_div_le (x * b) q ltac:(lia)) as Hxb.
    assert (0 <= x * b / q) by (apply Z.div_pos; nia).
    exists (x * b / q), x. split_and!; try done; try lia.
    + apply Z.div_le_lower_bound; [lia|].
      pose proof (Z.mul_div_le (x * qn) bn ltac:(lia)). set (u := x * qn / bn) in *.
      assert (0 <= u) by (apply Z.div_pos; nia).
      assert (bn * (q * u) <= bn * (x * b)); [|nia]. nia.
    + apply Z.div_le_upper_bound; [lia|]. nia.
  - cbn [mbind res_bind]. unfold mret, res_ret.
    assert (0 <= y * q / b) by (apply Z.div_pos; nia).
    exists y, (y * q / b). split_and!; try done; try lia.
    apply Z.div_le_upper_bound; [lia|]. set (r := y * q / b) in *.
    assert (b * (r * qn) <= b * (bn * y)); [|nia]. nia.
Qed.

Definition sample_price (b bs q qs : Z) : price := Price (Asset b bs) (Asset q qs).

Lemma match_respects_limits_witness :
  ∃ nr or,
    match_terms (Asset 1000 freezone_SYMBOL) (Asset 300 SBD_SYMBOL) (sample_price 10 SBD_SYMBOL 31 freezone_SYMBOL)
      = Ok (Asset nr SBD_SYMBOL, Asset or freezone_SYMBOL)
    ∧ 0 <= nr <= 300 ∧ 0 <= or <= 1000 ∧ (or = 1000 ∨ nr = 300)
    ∧ or * 3 / 10 <= nr ∧ nr * 31 / 10 <= or.
Proof.
  apply (match_respects_limits 1000 300 (sample_price 10 freezone_SYMBOL 3 SBD_SYMBOL)
           (sample_price 10 SBD_SYMBOL 31 freezone_SYMBOL));
    try reflexivity; try (vm_compute; split_and!; congruence); try lia.
Defined.

(** ** What trading leaves alone *)

Lemma escrows_adjust n delta d d' : adjust_balance n delta d = Ok d' → escrows d' = escrows d.
Proof. intros H. by apply same_tables_adjust_balance, st_escrows in H. Qed.

Lemma escrows_cancel k d d' : cancel_order k d = Ok d' → escrows d' = escrows d.
Proof.
  unfold cancel_order. intros H. apply bind_Ok in H as (? & _ & H). apply bind_Ok in H as (d1 & H1 & H).
  injection H as <-. by apply escrows_adjust in H1.
Qed.

Lemma escrows_fill k p r d b d' : fill_order k p r d = Ok (b, d') → escrows d' = escrows d.
Proof.
  unfold fill_order. intros H. do 3 apply bind_Ok in H as (? & _ & H). apply bind_Ok in H as (d1 & H1 & H).
  apply escrows_adjust in H1. destruct (asset_eqb p _); [by injection H as <- <-|].
  do 4 apply bind_Ok in H as (? & _ & H). destruct (_ =? 0); [|by injection H as <- <-].
  apply bind_Ok in H as (d2 & H2 & H). injection H as <- <-. by apply escrows_cancel in H2 as ->.
Qed.

Lemma escrows_liquidity n v b d d' : adjust_liquidity_reward n v b d = Ok d' → escrows d' = escrows d.
Proof. unfold adjust_liquidity_reward. intros H. apply bind_Ok in H as (? & _ & H). by injection H as <-. Qed.

Lemma escrows_match kn ko p d r d' : match_orders kn ko p d = Ok (r, d') → escrows d' = escrows d.
Proof.
  unfold match_orders. intros H. do 7 apply bind_Ok in H as (? & _ & H). apply bind_Ok in H as ([nr or] & _ & H).
  apply bind_Ok in H as (? & _ & H). apply bind_Ok in H as (d1 & H1 & H).
  apply bind_Ok in H as ([f1 d2] & H2%escrows_fill & H). apply bind_Ok in H as ([f2 d3] & H3%escrows_fill & H).
  apply bind_Ok in H as (? & _ & H). injection H as _ <-.
  assert (escrows d1 = escrows d); [|congruence].
  repeat case_match; try (by injection H1 as <-);
    apply bind_Ok in H1 as (d4 & H4%escrows_liquidity & H1); apply bind_Ok in H1 as (v & _ & H1%escrows_liquidity); congruence.
Qed.

Lemma escrows_apply_order k d b d' : apply_order k d = Ok (b, d') → escrows d' = escrows d.
Proof.
  unfold apply_order. intros H. do 3 apply bind_Ok in H as (? & _ & H).
  apply bind_Ok in H as (d1 & H1 & H). injection H as _ <-.
  revert H1. generalize (price_range x1 x0 d). intros l. revert d.
  induction l as [|c l IH]; simpl; intros d H1; [by injection H1 as <-|].
  apply bind_Ok in H1 as (? & _ & H1). apply bind_Ok in H1 as ([r d2] & H2%escrows_match & H1).
  case_match; [by injection H1 as <-|]. apply IH in H1. congruence.
Qed.

Lemma escrows_create_order k v p e d d' : create_order k v p e d = Ok d' → escrows d' = escrows d.
Proof. unfold create_order. intros H. apply bind_Ok in H as (? & _ & H). by injection H as <-. Qed.

Lemma escrows_limit_order_create r o d d' : limit_order_create_apply r o d = Ok d' → escrows d' = escrows d.
Proof.
  unfold limit_order_create_apply. intros H. do 4 apply bind_Ok in H as (? & _ & H).
  apply bind_Ok in H as (d1 & H1%escrows_adjust & H). apply bind_Ok in H as (p & _ & H).
  apply bind_Ok in H as (d2 & H2%escrows_create_order & H). apply bind_Ok in H as ([f d3] & H3%escrows_apply_order & H).
  apply bind_Ok in H as (? & _ & H). injection H as <-. congruence.
Qed.

Lemma escrows_limit_order_create2 o d d' : limit_order_create2_apply o d = Ok d' → escrows d' = escrows d.
Proof.
  unfold limit_order_create2_apply. intros H. do 4 apply bind_Ok in H as (? & _ & H).
  apply bind_Ok in H as (d1 & H1%escrows_adjust & H).
  apply bind_Ok in H as (d2 & H2%escrows_create_order & H). apply bind_Ok in H as ([f d3] & H3%escrows_apply_order & H).
  apply bind_Ok in H as (? & _ & H). injection H as <-. congruence.
Qed.

Lemma escrows_clear_expired d d' : clear_expired_orders d = Ok d' → escrows d' = escrows d.
Proof.
  unfold clear_expired_orders. generalize (List.filter (λ x, lo_expiration x.2 <? now d) (merge_sort by_expiration_le (map_to_list (orders d)))).
  intros l. revert d. induction l as [|x l IH]; simpl; intros d H; [by injection H as <-|].
  apply bind_Ok in H as (d1 & H1%escrows_cancel & H). apply IH in H. congruence.
Qed.
