(* ===== verification/Transfers.v ===== *)
(** * Transfers, escrow, conversion and savings

    The operations that move liquid money (steem_operations.cpp for
    [validate], steem_evaluator.cpp for [do_apply]) and the per-block
    processing of what they leave pending (database.cpp:
    [process_savings_withdraws], [process_conversions],
    [expire_escrow_ratification]). *)

From S2P Require Import Prelude Config AccountName Uint128 SafeInt AssetSymbol Asset MapSum State Ledger.
From stdpp Require Import gmap strings sorting.
#[local] Open Scope Z_scope.

Definition freezone_MAX_MEMO_SIZE : Z := 2048.

(** Text checks of the fc library that only accept or reject: [is_utf8] and
    [json_is_valid] stand for [fc::is_utf8] and [fc::json::is_valid]. *)
Section TextChecks.

Context (is_utf8 json_is_valid : string → bool).

Definition memo_validate (memo : string) : res unit :=
  _ ← fc_assert (Z.of_nat (String.length memo) <? freezone_MAX_MEMO_SIZE);
  fc_assert (is_utf8 memo).

(** ** transfer *)

Record transfer_operation : Type := Transfer {
  tr_from : name;
  tr_to : name;
  tr_amount : asset;
  tr_memo : string
}.

Definition transfer_validate (o : transfer_operation) : res unit :=
  _ ← validate_account_name (tr_from o);
  _ ← validate_account_name (tr_to o);
  _ ← fc_assert (negb (is_vesting (symbol (tr_amount o))));
  _ ← fc_assert (0 <? amount (tr_amount o));
  memo_validate (tr_memo o).

Definition transfer_apply (o : transfer_operation) (d : db) : res db :=
  _ ← (if has_hardfork freezone_HARDFORK_0_21 d then
         fc_assert ((symbol (tr_amount o) =? SBD_SYMBOL) || negb (bool_decide (tr_to o = freezone_TREASURY_ACCOUNT)))
       else mret tt);
  na ← asset_neg (tr_amount o);
  d ← adjust_balance (tr_from o) na d;
  adjust_balance (tr_to o) (tr_amount o) d.

(** ** escrow *)

Record escrow_transfer_operation : Type := EscrowTransfer {
  et_from : name;
  et_to : name;
  et_agent : name;
  et_escrow_id : Z;
  et_sbd_amount : asset;
  et_freezone_amount : asset;
  et_fee : asset;
  et_ratification_deadline : Z;
  et_escrow_expiration : Z;
  et_json_meta : string
}.

Definition escrow_transfer_validate (o : escrow_transfer_operation) : res unit :=
  _ ← validate_account_name (et_from o);
  _ ← validate_account_name (et_to o);
  _ ← validate_account_name (et_agent o);
  _ ← fc_assert (0 <=? amount (et_fee o));
  _ ← fc_assert (0 <=? amount (et_sbd_amount o));
  _ ← fc_assert (0 <=? amount (et_freezone_amount o));
  _ ← fc_assert ((0 <? amount (et_sbd_amount o)) || (0 <? amount (et_freezone_amount o)));
  _ ← fc_assert (negb (bool_decide (et_from o = et_agent o)) && negb (bool_decide (et_to o = et_agent o)));
  _ ← fc_assert ((symbol (et_fee o) =? freezone_SYMBOL) || (symbol (et_fee o) =? SBD_SYMBOL));
  _ ← fc_assert (symbol (et_sbd_amount o) =? SBD_SYMBOL);
  _ ← fc_assert (symbol (et_freezone_amount o) =? freezone_SYMBOL);
  _ ← fc_assert (et_ratification_deadline o <? et_escrow_expiration o);
  if 0 <? Z.of_nat (String.length (et_json_meta o)) then
    _ ← fc_assert (is_utf8 (et_json_meta o));
    fc_assert (json_is_valid (et_json_meta o))
  else mret tt.

Definition escrow_transfer_apply (o : escrow_transfer_operation) (d : db) : res db :=
  _ ← get_account (et_from o) d;
  _ ← get_account (et_to o) d;
  _ ← get_account (et_agent o) d;
  _ ← fc_assert (now d <? et_ratification_deadline o);
  _ ← fc_assert (now d <? et_escrow_expiration o);
  '(freezone_spent, sbd_spent) ←
    (if symbol (et_fee o) =? freezone_SYMBOL then
       s ← asset_add (et_freezone_amount o) (et_fee o); mret (s, et_sbd_amount o)
     else
       s ← asset_add (et_sbd_amount o) (et_fee o); mret (et_freezone_amount o, s));
  nf ← asset_neg freezone_spent;
  d ← adjust_balance (et_from o) nf d;
  ns ← asset_neg sbd_spent;
  d ← adjust_balance (et_from o) ns d;
  let k := (et_from o, et_escrow_id o) in
  _ ← check logic_error (bool_decide (escrows d !! k = None));
  mret (set_next_id (next_id d + 1)
    (set_escrows <[k := Escrow (next_id d) (et_to o) (et_agent o) (et_ratification_deadline o) (et_escrow_expiration o)
       (amount (et_sbd_amount o)) (amount (et_freezone_amount o)) (et_fee o) false false false]> d)).

Definition get_escrow (k : name * Z) (d : db) : res escrow := from_option_exn out_of_range (escrows d !! k).

Definition esc_freezone (e : escrow) : asset := Asset (esc_freezone_balance e) freezone_SYMBOL.
Definition esc_sbd (e : escrow) : asset := Asset (esc_sbd_balance e) SBD_SYMBOL.

Definition set_approvals (t a : bool) (e : escrow) : escrow :=
  Escrow (esc_id e) (esc_to e) (esc_agent e) (ratification_deadline e) (escrow_expiration e) (esc_sbd_balance e)
    (esc_freezone_balance e) (pending_fee e) t a (disputed e).
Definition clear_fee (e : escrow) : escrow :=
  Escrow (esc_id e) (esc_to e) (esc_agent e) (ratification_deadline e) (escrow_expiration e) (esc_sbd_balance e)
    (esc_freezone_balance e) (Asset 0 (symbol (pending_fee e))) (to_approved e) (agent_approved e) (disputed e).
Definition set_disputed (e : escrow) : escrow :=
  Escrow (esc_id e) (esc_to e) (esc_agent e) (ratification_deadline e) (escrow_expiration e) (esc_sbd_balance e)
    (esc_freezone_balance e) (pending_fee e) (to_approved e) (agent_approved e) true.
Definition set_escrow_balances (f s : Z) (e : escrow) : escrow :=
  Escrow (esc_id e) (esc_to e) (esc_agent e) (ratification_deadline e) (escrow_expiration e) s f (pending_fee e)
    (to_approved e) (agent_approved e) (disputed e).

(** Returns the escrow's funds and its pending fee to [from] and removes it. *)
Definition refund_escrow (k : name * Z) (e : escrow) (d : db) : res db :=
  d ← adjust_balance k.1 (esc_freezone e) d;
  d ← adjust_balance k.1 (esc_sbd e) d;
  d ← adjust_balance k.1 (pending_fee e) d;
  mret (set_escrows (delete k) d).

Record escrow_approve_operation : Type := EscrowApprove {
  ea_from : name;
  ea_to : name;
  ea_agent : name;
  ea_who : name;
  ea_escrow_id : Z;
  ea_approve : bool
}.

Definition escrow_approve_validate (o : escrow_approve_operation) : res unit :=
  _ ← validate_account_name (ea_from o);
  _ ← validate_account_name (ea_to o);
  _ ← validate_account_name (ea_agent o);
  _ ← validate_account_name (ea_who o);
  fc_assert (bool_decide (ea_who o = ea_to o) || bool_decide (ea_who o = ea_agent o)).

Definition escrow_approve_apply (o : escrow_approve_operation) (d : db) : res db :=
  let k := (ea_from o, ea_escrow_id o) in
  e ← get_escrow k d;
  _ ← fc_assert (bool_decide (esc_to e = ea_to o));
  _ ← fc_assert (bool_decide (esc_agent e = ea_agent o));
  _ ← fc_assert (now d <=? ratification_deadline e);
  let reject_escrow := negb (ea_approve o) in
  e ← (if bool_decide (ea_who o = ea_to o) then
         _ ← fc_assert (negb (to_approved e));
         mret (if negb reject_escrow then set_approvals true (agent_approved e) e else e)
       else mret e);
  e ← (if bool_decide (ea_who o = ea_agent o) then
         _ ← fc_assert (negb (agent_approved e));
         mret (if negb reject_escrow then set_approvals (to_approved e) true e else e)
       else mret e);
  if reject_escrow then refund_escrow k e d
  else
    let d := set_escrows <[k := e]> d in
    if to_approved e && agent_approved e then
      d ← adjust_balance (ea_agent o) (pending_fee e) d;
      mret (set_escrows <[k := clear_fee e]> d)
    else mret d.

Record escrow_dispute_operation : Type := EscrowDispute {
  ed_from : name;
  ed_to : name;
  ed_agent : name;
  ed_who : name;
  ed_escrow_id : Z
}.

Definition escrow_dispute_validate (o : escrow_dispute_operation) : res unit :=
  _ ← validate_account_name (ed_from o);
  _ ← validate_account_name (ed_to o);
  _ ← validate_account_name (ed_agent o);
  _ ← validate_account_name (ed_who o);
  fc_assert (bool_decide (ed_who o = ed_from o) || bool_decide (ed_who o = ed_to o)).

Definition escrow_dispute_apply (o : escrow_dispute_operation) (d : db) : res db :=
  _ ← get_account (ed_from o) d;
  let k := (ed_from o, ed_escrow_id o) in
  e ← get_escrow k d;
  _ ← fc_assert (now d <? escrow_expiration e);
  _ ← fc_assert (to_approved e && agent_approved e);
  _ ← fc_assert (negb (disputed e));
  _ ← fc_assert (bool_decide (esc_to e = ed_to o));
  _ ← fc_assert (bool_decide (esc_agent e = ed_agent o));
  mret (set_escrows <[k := set_disputed e]> d).

Record escrow_release_operation : Type := EscrowRelease {
  er_from : name;
  er_to : name;
  er_agent : name;
  er_who : name;
  er_receiver : name;
  er_escrow_id : Z;
  er_sbd_amount : asset;
  er_freezone_amount : asset
}.

Definition escrow_release_validate (o : escrow_release_operation) : res unit :=
  _ ← validate_account_name (er_from o);
  _ ← validate_account_name (er_to o);
  _ ← validate_account_name (er_agent o);
  _ ← validate_account_name (er_who o);
  _ ← validate_account_name (er_receiver o);
  _ ← fc_assert (bool_decide (er_who o = er_from o) || bool_decide (er_who o = er_to o) || bool_decide (er_who o = er_agent o));
  _ ← fc_assert (bool_decide (er_receiver o = er_from o) || bool_decide (er_receiver o = er_to o));
  _ ← fc_assert (0 <=? amount (er_sbd_amount o));
  _ ← fc_assert (0 <=? amount (er_freezone_amount o));
  _ ← fc_assert ((0 <? amount (er_sbd_amount o)) || (0 <? amount (er_freezone_amount o)));
  _ ← fc_assert (symbol (er_sbd_amount o) =? SBD_SYMBOL);
  fc_assert (symbol (er_freezone_amount o) =? freezone_SYMBOL).

(** Who may release to whom. *)
Definition release_allowed (o : escrow_release_operation) (e : escrow) (d : db) : res unit :=
  if disputed e then fc_assert (bool_decide (er_who o = esc_agent e))
  else
    _ ← fc_assert (bool_decide (er_who o = er_from o) || bool_decide (er_who o = esc_to e));
    if now d <? escrow_expiration e then
      if bool_decide (er_who o = er_from o) then fc_assert (bool_decide (er_receiver o = esc_to e))
      else if bool_decide (er_who o = esc_to e) then fc_assert (bool_decide (er_receiver o = er_from o))
      else mret tt
    else mret tt.

Definition escrow_release_apply (o : escrow_release_operation) (d : db) : res db :=
  _ ← get_account (er_from o) d;
  let k := (er_from o, er_escrow_id o) in
  e ← get_escrow k d;
  b ← asset_geb (esc_freezone e) (er_freezone_amount o);
  _ ← fc_assert b;
  b ← asset_geb (esc_sbd e) (er_sbd_amount o);
  _ ← fc_assert b;
  _ ← fc_assert (bool_decide (esc_to e = er_to o));
  _ ← fc_assert (bool_decide (esc_agent e = er_agent o));
  _ ← fc_assert (bool_decide (er_receiver o = er_from o) || bool_decide (er_receiver o = esc_to e));
  _ ← fc_assert (to_approved e && agent_approved e);
  _ ← release_allowed o e d;
  d ← adjust_balance (er_receiver o) (er_freezone_amount o) d;
  d ← adjust_balance (er_receiver o) (er_sbd_amount o) d;
  f ← asset_sub (esc_freezone e) (er_freezone_amount o);
  s ← asset_sub (esc_sbd e) (er_sbd_amount o);
  let d := set_escrows <[k := set_escrow_balances (amount f) (amount s) e]> d in
  if (amount f =? 0) && (amount s =? 0) then mret (set_escrows (delete k) d) else mret d.

(** [expire_escrow_ratification] walks the index (is_approved, deadline, id)
    from its unapproved part while the deadline has passed. *)
Definition by_deadline_le (x y : (name * Z) * escrow) : Prop :=
  ratification_deadline x.2 < ratification_deadline y.2
  ∨ (ratification_deadline x.2 = ratification_deadline y.2 ∧ esc_id x.2 <= esc_id y.2).
#[local] Instance by_deadline_le_dec x y : Decision (by_deadline_le x y).
Proof. unfold by_deadline_le. apply _. Defined.

Definition is_approved (e : escrow) : bool := to_approved e && agent_approved e.

Definition expire_escrow_ratification (d : db) : res db :=
  let pending := merge_sort by_deadline_le (List.filter (λ x, negb (is_approved x.2)) (map_to_list (escrows d))) in
  let expired := List.filter (λ x, ratification_deadline x.2 <=? now d) pending in
  res_fold (λ d x, refund_escrow x.1 x.2 d) d expired.

(** ** convert *)

Record convert_operation : Type := Convert {
  cv_owner : name;
  cv_requestid : Z;
  cv_amount : asset
}.

Definition convert_validate (o : convert_operation) : res unit :=
  _ ← validate_account_name (cv_owner o);
  _ ← fc_assert (symbol (cv_amount o) =? SBD_SYMBOL);
  fc_assert (0 <? amount (cv_amount o)).

Definition convert_apply (o : convert_operation) (d : db) : res db :=
  na ← asset_neg (cv_amount o);
  d ← adjust_balance (cv_owner o) na d;
  _ ← fc_assert (negb (is_null (current_median_history d)));
  let delay := if has_hardfork freezone_HARDFORK_0_16 d then freezone_CONVERSION_DELAY
               else freezone_CONVERSION_DELAY_PRE_HF_16 in
  let k := (cv_owner o, cv_requestid o) in
  _ ← check logic_error (bool_decide (converts d !! k = None));
  mret (set_next_id (next_id d + 1)
    (set_converts <[k := ConvertRequest (next_id d) (cv_amount o) (u32 (now d + delay))]> d)).

Definition by_date_le (x y : (name * Z) * convert_request) : Prop :=
  conversion_date x.2 < conversion_date y.2
  ∨ (conversion_date x.2 = conversion_date y.2 ∧ cr_id x.2 <= cr_id y.2).
#[local] Instance by_date_le_dec x y : Decision (by_date_le x y).
Proof. unfold by_date_le. apply _. Defined.

(** One due request: [net_sbd] and [net_freezone] accumulate. *)
Definition convert_one (acc : db * asset * asset) (x : (name * Z) * convert_request) : res (db * asset * asset) :=
  let '(d, net_sbd, net_freezone) := acc in
  amount_to_issue ← asset_mul_price (cr_amount x.2) (current_median_history d);
  d ← adjust_balance x.1.1 amount_to_issue d;
  net_sbd ← asset_add net_sbd (cr_amount x.2);
  net_freezone ← asset_add net_freezone amount_to_issue;
  mret (set_converts (delete x.1) d, net_sbd, net_freezone).

Definition process_conversions (d : db) : res db :=
  if is_null (current_median_history d) then mret d
  else
    let due := List.filter (λ x, conversion_date x.2 <=? now d) (merge_sort by_date_le (map_to_list (converts d))) in
    '(d, net_sbd, net_freezone) ← res_fold convert_one (d, Asset 0 SBD_SYMBOL, Asset 0 freezone_SYMBOL) due;
    let g := gpo d in
    s ← safe_add (current_supply g) (amount net_freezone);
    sb ← safe_sub (current_sbd_supply g) (amount net_sbd);
    v ← safe_add (virtual_supply g) (amount net_freezone);
    x ← asset_mul_price net_sbd (current_median_history d);
    v ← asset_sub (Asset v freezone_SYMBOL) x;
    mret (set_gpo (set_supplies s sb (amount v) (total_vesting_fund_freezone g) g) d).

(** ** savings *)

Record savings_operation : Type := Savings {
  sv_from : name;
  sv_to : name;
  sv_amount : asset;
  sv_memo : string;
  sv_request_id : Z     (* transfer_from_savings only *)
}.

Definition savings_validate (o : savings_operation) : res unit :=
  _ ← validate_account_name (sv_from o);
  _ ← validate_account_name (sv_to o);
  _ ← fc_assert (0 <? amount (sv_amount o));
  _ ← fc_assert ((symbol (sv_amount o) =? freezone_SYMBOL) || (symbol (sv_amount o) =? SBD_SYMBOL));
  memo_validate (sv_memo o).

Definition transfer_to_savings_apply (o : savings_operation) (d : db) : res db :=
  _ ← get_account (sv_from o) d;
  _ ← get_account (sv_to o) d;
  _ ← (if has_hardfork freezone_HARDFORK_0_21 d
       then fc_assert (negb (bool_decide (sv_to o = freezone_TREASURY_ACCOUNT))) else mret tt);
  na ← asset_neg (sv_amount o);
  d ← adjust_balance (sv_from o) na d;
  adjust_savings_balance (sv_to o) (sv_amount o) d.

Definition change_requests (n : name) (f : Z → Z) (d : db) : res db :=
  a ← get_account n d;
  mret (put_account n (set_withdraw_requests (u8 (f (savings_withdraw_requests a))) a) d).

Definition transfer_from_savings_apply (o : savings_operation) (d : db) : res db :=
  from ← get_account (sv_from o) d;
  _ ← get_account (sv_to o) d;
  _ ← fc_assert (savings_withdraw_requests from <? freezone_SAVINGS_WITHDRAW_REQUEST_LIMIT);
  _ ← (if has_hardfork freezone_HARDFORK_0_21 d then
         fc_assert ((symbol (sv_amount o) =? SBD_SYMBOL) || negb (bool_decide (sv_to o = freezone_TREASURY_ACCOUNT)))
       else mret tt);
  bal ← get_savings_balance from (symbol (sv_amount o));
  b ← asset_geb bal (sv_amount o);
  _ ← fc_assert b;
  na ← asset_neg (sv_amount o);
  d ← adjust_savings_balance (sv_from o) na d;
  let k := (sv_from o, sv_request_id o) in
  _ ← check logic_error (bool_decide (withdraws d !! k = None));
  let d := set_withdraws <[k := SavingsWithdraw (sv_to o) (sv_amount o) (u32 (now d + freezone_SAVINGS_WITHDRAW_TIME))]> d in
  change_requests (sv_from o) (λ n, n + 1) d.

Definition cancel_transfer_from_savings_apply (from : name) (request_id : Z) (d : db) : res db :=
  let k := (from, request_id) in
  swo ← from_option_exn out_of_range (withdraws d !! k);
  d ← adjust_savings_balance from (sw_amount swo) d;
  let d := set_withdraws (delete k) d in
  change_requests from (λ n, n - 1) d.

(** The index (complete, from, request_id). *)
Definition by_complete_leb (x y : (name * Z) * savings_withdraw) : bool :=
  if sw_complete x.2 =? sw_complete y.2 then
    if String.eqb x.1.1 y.1.1 then x.1.2 <=? y.1.2 else String.leb x.1.1 y.1.1
  else sw_complete x.2 <? sw_complete y.2.
Definition by_complete_le (x y : (name * Z) * savings_withdraw) : Prop := by_complete_leb x y = true.
#[local] Instance by_complete_le_dec x y : Decision (by_complete_le x y) := bool_eq_dec _ _.

Definition withdraw_one (d : db) (x : (name * Z) * savings_withdraw) : res db :=
  d ← adjust_balance (sw_to x.2) (sw_amount x.2) d;
  d ← change_requests x.1.1 (λ n, n - 1) d;
  mret (set_withdraws (delete x.1) d).

Definition process_savings_withdraws (d : db) : res db :=
  let due := List.filter (λ x, sw_complete x.2 <=? now d) (merge_sort by_complete_le (map_to_list (withdraws d))) in
  res_fold withdraw_one d due.

End TextChecks.

(** ** Conservation *)

Ltac table_sum := unfold_gap; rewrite ?msum_insert, ?msum_delete; lia.

Lemma gap_put_escrow s k e d :
  gap s (set_escrows <[k := e]> d) = gap s d + escrow_held s k e - row (escrow_held s) (escrows d) k.
Proof. table_sum. Qed.
Lemma gap_remove_escrow s k d : gap s (set_escrows (delete k) d) = gap s d - row (escrow_held s) (escrows d) k.
Proof. table_sum. Qed.
Lemma gap_put_convert s k c d :
  gap s (set_converts <[k := c]> d) = gap s d + convert_held s k c - row (convert_held s) (converts d) k.
Proof. table_sum. Qed.
Lemma gap_remove_convert s k d : gap s (set_converts (delete k) d) = gap s d - row (convert_held s) (converts d) k.
Proof. table_sum. Qed.
Lemma gap_put_withdraw s k w d :
  gap s (set_withdraws <[k := w]> d) = gap s d + withdraw_held s k w - row (withdraw_held s) (withdraws d) k.
Proof. table_sum. Qed.
Lemma gap_remove_withdraw s k d : gap s (set_withdraws (delete k) d) = gap s d - row (withdraw_held s) (withdraws d) k.
Proof. table_sum. Qed.
Lemma gap_set_next_id s n d : gap s (set_next_id n d) = gap s d.
Proof. done. Qed.

Lemma row_Some {K A} `{Countable K} (f : K → A → Z) (m : gmap K A) k a : m !! k = Some a → row f m k = f k a.
Proof. unfold row. by intros ->. Qed.
Lemma row_None {K A} `{Countable K} (f : K → A → Z) (m : gmap K A) k : m !! k = None → row f m k = 0.
Proof. unfold row. by intros ->. Qed.

(** Two adjustments in a row leave the tables alone. *)
Ltac moves :=
  repeat match goal with
    | E : adjust_balance _ _ ?d = Ok ?d' |- _ =>
        lazymatch goal with
        | F : same_tables d d' |- _ => fail
        | |- _ => pose proof (same_tables_adjust_balance _ _ _ _ E)
        end
    | E : adjust_savings_balance _ _ ?d = Ok ?d' |- _ =>
        lazymatch goal with
        | F : same_tables d d' |- _ => fail
        | |- _ => pose proof (same_tables_adjust_savings_balance _ _ _ _ E)
        end
    end.
Ltac gaps s :=
  repeat match goal with
    | E : adjust_balance _ _ _ = Ok _ |- _ => apply (gap_adjust_balance s) in E
    | E : adjust_savings_balance _ _ _ = Ok _ |- _ => apply (gap_adjust_savings_balance s) in E
    | E : asset_neg _ = Ok _ |- _ => apply (amount_of_neg s) in E
    end.

Lemma gap_transfer s o d d' : transfer_apply o d = Ok d' → gap s d' = gap s d.
Proof.
  unfold transfer_apply. intros H. apply bind_Ok in H as (_ & _ & H). apply bind_Ok in H as (na & Hna & H).
  apply bind_Ok in H as (d1 & H1 & H). gaps s. lia.
Qed.

Lemma gap_refund_escrow s k e d d' :
  escrows d !! k = Some e → refund_escrow k e d = Ok d' → gap s d' = gap s d.
Proof.
  unfold refund_escrow. intros He H. apply bind_Ok in H as (d1 & H1 & H).
  apply bind_Ok in H as (d2 & H2 & H). apply bind_Ok in H as (d3 & H3 & H). injection H as <-. moves.
  rewrite gap_remove_escrow, (row_Some _ _ _ e).
  - gaps s. unfold escrow_held. fold (esc_freezone e) (esc_sbd e). lia.
  - rewrite <- He. repeat match goal with F : same_tables _ _ |- _ => apply st_escrows in F end. congruence.
Qed.

Lemma gap_escrow_transfer s o d d' :
  symbol (et_freezone_amount o) = freezone_SYMBOL → symbol (et_sbd_amount o) = SBD_SYMBOL →
  escrow_transfer_apply o d = Ok d' → gap s d' = gap s d.
Proof.
  intros Ef Es. unfold escrow_transfer_apply. intros H.
  do 5 apply bind_Ok in H as (? & _ & H). apply bind_Ok in H as ([f sb] & Hsp & H).
  apply bind_Ok in H as (nf & Hnf & H). apply bind_Ok in H as (d1 & H1 & H).
  apply bind_Ok in H as (ns & Hns & H). apply bind_Ok in H as (d2 & H2 & H).
  apply bind_Ok in H as (? & Hn & H). injection H as <-. apply check_Ok, bool_decide_eq_true in Hn.
  rewrite gap_set_next_id, gap_put_escrow, row_None by done. gaps s. unfold escrow_held. simpl.
  rewrite (amount_of_eta s _ _ Ef), (amount_of_eta s _ _ Es).
  assert (amount_of s f + amount_of s sb
    = amount_of s (et_freezone_amount o) + amount_of s (et_sbd_amount o) + amount_of s (et_fee o)); [|lia].
  case_match; apply bind_Ok in Hsp as (a & Ha & Hsp); injection Hsp as <- <-;
    apply asset_add_value in Ha as [Hsym ->]; rewrite amount_of_add, !amount_of_eta by done; lia.
Qed.

Lemma escrow_held_approvals s k t a e : escrow_held s k (set_approvals t a e) = escrow_held s k e.
Proof. done. Qed.

Lemma gap_escrow_approve s o d d' : escrow_approve_apply o d = Ok d' → gap s d' = gap s d.
Proof.
  unfold escrow_approve_apply. intros H. apply bind_Ok in H as (e & He & H). apply from_option_exn_Ok in He.
  do 3 apply bind_Ok in H as (? & _ & H). set (k := (ea_from o, ea_escrow_id o)) in *.
  apply bind_Ok in H as (e1 & H1 & H). apply bind_Ok in H as (e2 & H2 & H).
  destruct (ea_approve o); cbn [negb] in *.
  - assert (escrow_held s k e2 = escrow_held s k e) as Eh.
    { assert (escrow_held s k e1 = escrow_held s k e) as E1.
      { destruct (bool_decide (ea_who o = ea_to o)); [apply bind_Ok in H1 as (? & _ & H1)|]; by injection H1 as <-. }
      rewrite <- E1. destruct (bool_decide (ea_who o = ea_agent o)); [apply bind_Ok in H2 as (? & _ & H2)|]; by injection H2 as <-. }
    assert (gap s (set_escrows <[k := e2]> d) = gap s d) as Hg.
    { rewrite gap_put_escrow, (row_Some _ _ _ e) by done. lia. }
    destruct (to_approved e2 && agent_approved e2); [|by injection H as <-].
    apply bind_Ok in H as (d1 & H3 & H). injection H as <-. moves.
    rewrite gap_put_escrow, (row_Some _ _ _ e2).
    2: { match goal with F : same_tables _ _ |- _ => rewrite (st_escrows _ _ F) end. apply lookup_insert_eq. }
    gaps s. unfold escrow_held, clear_fee. cbn [esc_freezone_balance esc_sbd_balance pending_fee].
    rewrite amount_of_zero. lia.
  - assert (e2 = e) as ->.
    { assert (e1 = e) as ->.
      { destruct (bool_decide (ea_who o = ea_to o)); [apply bind_Ok in H1 as (? & _ & H1)|]; by injection H1 as <-. }
      destruct (bool_decide (ea_who o = ea_agent o)); [apply bind_Ok in H2 as (? & _ & H2)|]; by injection H2 as <-. }
    by eapply gap_refund_escrow.
Qed.

Lemma gap_escrow_dispute s o d d' : escrow_dispute_apply o d = Ok d' → gap s d' = gap s d.
Proof.
  unfold escrow_dispute_apply. intros H. apply bind_Ok in H as (? & _ & H).
  apply bind_Ok in H as (e & He & H). apply from_option_exn_Ok in He.
  do 5 apply bind_Ok in H as (? & _ & H). injection H as <-.
  rewrite gap_put_escrow, (row_Some _ _ _ e) by done. unfold escrow_held. simpl. lia.
Qed.

(** An approved escrow owes no fee: it was paid when both had approved. *)
Definition fees_paid (d : db) : Prop :=
  ∀ k e, escrows d !! k = Some e → is_approved e = true → amount (pending_fee e) = 0.

Lemma gap_escrow_release s o d d' : fees_paid d → escrow_release_apply o d = Ok d' → gap s d' = gap s d.
Proof.
  unfold escrow_release_apply. intros Hfee H. apply bind_Ok in H as (? & _ & H).
  apply bind_Ok in H as (e & He & H). apply from_option_exn_Ok in He.
  do 7 apply bind_Ok in H as (? & _ & H). apply bind_Ok in H as (? & Happ & H). apply fc_assert_Ok in Happ.
  apply bind_Ok in H as (? & _ & H). set (k := (er_from o, er_escrow_id o)) in *.
  apply bind_Ok in H as (d1 & H1 & H). apply bind_Ok in H as (d2 & H2 & H).
  apply bind_Ok in H as (f & Hf & H). apply bind_Ok in H as (sb & Hs & H).
  apply asset_sub_value in Hf as [Ef ->], Hs as [Es ->]. cbn [amount symbol esc_freezone esc_sbd] in *. moves.
  assert (escrows d2 !! k = Some e) as He2.
  { rewrite <- He. repeat match goal with F : same_tables _ _ |- _ => apply st_escrows in F end. congruence. }
  set (e' := set_escrow_balances _ _ e) in *.
  assert (escrow_held s k e' = escrow_held s k e - amount_of s (er_freezone_amount o) - amount_of s (er_sbd_amount o)) as Eh.
  { unfold escrow_held, e', set_escrow_balances. cbn [esc_freezone_balance esc_sbd_balance pending_fee].
    rewrite !amount_of_sub, (amount_of_eta s (er_freezone_amount o)), (amount_of_eta s (er_sbd_amount o)) by done. lia. }
  assert (gap s (set_escrows <[k := e']> d2) = gap s d) as Hg.
  { rewrite gap_put_escrow, (row_Some _ _ _ e) by done. gaps s. lia. }
  match type of H with (if ?b then _ else _) = _ => destruct b eqn:Ez end; injection H as <-; [|done]. apply andb_true_iff in Ez as [Ez1 Ez2].
  apply Z.eqb_eq in Ez1, Ez2. rewrite gap_remove_escrow, Hg, (row_Some _ _ _ e') by apply lookup_insert_eq.
  assert (escrow_held s k e' = 0); [|lia].
  unfold escrow_held, e', set_escrow_balances. cbn [esc_freezone_balance esc_sbd_balance pending_fee].
  rewrite Ez1, Ez2, <- (amount_of_eta s (pending_fee e) _ eq_refl), (Hfee k e He Happ).
  by rewrite !amount_of_zero.
Qed.

Lemma gap_expire_escrows s d d' : expire_escrow_ratification d = Ok d' → gap s d' = gap s d.
Proof.
  unfold expire_escrow_ratification. intros H.
  set (l := List.filter _ (merge_sort _ _)) in H.
  assert (rows_of (escrows d) l) as Hl by (subst l; auto with freezone). clearbody l.
  revert d H Hl. induction l as [|[k e] l IH]; simpl; intros d H Hl; [by injection H as <-|].
  apply rows_cons in Hl as [He Hl]. simpl in He, Hl.
  apply bind_Ok in H as (d1 & H1 & H). pose proof (gap_refund_escrow s _ _ _ _ He H1) as Hg.
  rewrite <- Hg. apply IH; [done|]. unfold refund_escrow in H1.
  apply bind_Ok in H1 as (a1 & E1 & H1). apply bind_Ok in H1 as (a2 & E2 & H1). apply bind_Ok in H1 as (a3 & E3 & H1).
  injection H1 as <-. simpl. moves. repeat match goal with F : same_tables _ _ |- _ => apply st_escrows in F end.
  congruence.
Qed.

Lemma gap_convert s o d d' : convert_apply o d = Ok d' → gap s d' = gap s d.
Proof.
  unfold convert_apply. intros H. apply bind_Ok in H as (na & Hna & H). apply bind_Ok in H as (d1 & H1 & H).
  apply bind_Ok in H as (? & _ & H). apply bind_Ok in H as (? & Hn & H). injection H as <-.
  apply check_Ok, bool_decide_eq_true in Hn.
  rewrite gap_set_next_id, gap_put_convert, row_None by done. gaps s. unfold convert_held. cbn [cr_amount]. lia.
Qed.

(** A conversion loop issues what it credits and burns what it removes. *)
Lemma gap_convert_loop s l acc acc' :
  rows_of (converts acc.1.1) l → res_fold convert_one acc l = Ok acc' →
  symbol acc'.1.2 = symbol acc.1.2 ∧ symbol acc'.2 = symbol acc.2
  ∧ gap s acc'.1.1 - amount_of s acc'.2 + amount_of s acc'.1.2
    = gap s acc.1.1 - amount_of s acc.2 + amount_of s acc.1.2
  ∧ current_median_history acc'.1.1 = current_median_history acc.1.1.
Proof.
  revert acc. induction l as [|[k c] l IH]; intros [[d nsbd] nf] Hl H; simpl in *; [by injection H as <-|].
  apply rows_cons in Hl as [Hc Hl]. simpl in Hc, Hl.
  apply bind_Ok in H as ([[d1 n1] f1] & H1 & H). unfold convert_one in H1. simpl in H1.
  apply bind_Ok in H1 as (x & _ & H1). apply bind_Ok in H1 as (d2 & E2 & H1).
  apply bind_Ok in H1 as (ns & Es & H1). apply bind_Ok in H1 as (nf' & Ef & H1). injection H1 as <- <- <-.
  apply asset_add_value in Es as [Es1 ->], Ef as [Ef1 ->]. moves.
  apply IH in H as (I1 & I2 & I3 & I4); simpl in *;
    [|match goal with F : same_tables _ _ |- _ => by rewrite (st_converts _ _ F) end].
  split; [done|]. split; [done|]. split.
  - rewrite I3, gap_remove_convert, (row_Some _ _ _ c).
    2: { match goal with F : same_tables _ _ |- _ => by rewrite (st_converts _ _ F) end. }
    gaps s. unfold convert_held. rewrite !amount_of_add, !amount_of_eta by done. lia.
  - rewrite I4. match goal with F : same_tables _ _ |- _ => by rewrite (st_median _ _ F) end.
Qed.

Lemma gap_process_conversions s d d' : process_conversions d = Ok d' → gap s d' = gap s d.
Proof.
  unfold process_conversions. intros H. case_match; [by injection H as <-|].
  apply bind_Ok in H as ([[d1 nsbd] nf] & H1 & H).
  apply (gap_convert_loop s) in H1 as (E1 & E2 & Hg & _); [|simpl; auto with freezone]. simpl in E1, E2, Hg.
  do 5 apply bind_Ok in H as (? & ? & H). injection H as <-. safe_values.
  rewrite gap_set_supplies. rewrite !amount_of_zero in Hg.
  rewrite <- (amount_of_eta s nf _ E2), <- (amount_of_eta s nsbd _ E1) in Hg.
  replace (total_vesting_fund_freezone (gpo d1) - total_vesting_fund_freezone (gpo d1)
     - (current_supply (gpo d1) + amount nf - current_supply (gpo d1))) with (0 - amount nf) by lia.
  replace (current_sbd_supply (gpo d1) - amount nsbd - current_sbd_supply (gpo d1)) with (0 - amount nsbd) by lia.
  rewrite !amount_of_sub, !amount_of_zero. lia.
Qed.

Lemma gap_transfer_to_savings s o d d' : transfer_to_savings_apply o d = Ok d' → gap s d' = gap s d.
Proof.
  unfold transfer_to_savings_apply. intros H. do 3 apply bind_Ok in H as (? & _ & H).
  apply bind_Ok in H as (na & Hna & H). apply bind_Ok in H as (d1 & H1 & H). gaps s. lia.
Qed.

Lemma gap_change_requests s n f d d' : change_requests n f d = Ok d' → gap s d' = gap s d.
Proof.
  unfold change_requests. intros H. apply bind_Ok in H as (a & Ha & H). injection H as <-.
  apply from_option_exn_Ok in Ha. rewrite (gap_put_account _ _ a) by done.
  held_diff.
Qed.

Lemma gap_transfer_from_savings s o d d' : transfer_from_savings_apply o d = Ok d' → gap s d' = gap s d.
Proof.
  unfold transfer_from_savings_apply. intros H. do 7 apply bind_Ok in H as (? & _ & H).
  apply bind_Ok in H as (na & Hna & H). apply bind_Ok in H as (d1 & H1 & H).
  apply bind_Ok in H as (? & Hn & H). apply check_Ok, bool_decide_eq_true in Hn.
  apply (gap_change_requests s) in H. rewrite H, gap_put_withdraw, row_None by done.
  gaps s. unfold withdraw_held. cbn [sw_amount]. lia.
Qed.

Lemma gap_cancel_from_savings s n r d d' : cancel_transfer_from_savings_apply n r d = Ok d' → gap s d' = gap s d.
Proof.
  unfold cancel_transfer_from_savings_apply. intros H. apply bind_Ok in H as (w & Hw & H).
  apply from_option_exn_Ok in Hw. apply bind_Ok in H as (d1 & H1 & H). moves.
  apply (gap_change_requests s) in H. rewrite H, gap_remove_withdraw, (row_Some _ _ _ w).
  - gaps s. unfold withdraw_held. lia.
  - match goal with F : same_tables _ _ |- _ => by rewrite (st_withdraws _ _ F) end.
Qed.

Lemma change_requests_withdraws n f d d' : change_requests n f d = Ok d' → withdraws d' = withdraws d.
Proof. unfold change_requests. intros H. apply bind_Ok in H as (? & _ & H). by injection H as <-. Qed.

Lemma gap_process_savings s d d' : process_savings_withdraws d = Ok d' → gap s d' = gap s d.
Proof.
  unfold process_savings_withdraws. intros H. set (l := List.filter _ (merge_sort _ _)) in H.
  assert (rows_of (withdraws d) l) as Hl by (subst l; auto with freezone). clearbody l.
  revert d H Hl. induction l as [|[k w] l IH]; simpl; intros d H Hl; [by injection H as <-|].
  apply rows_cons in Hl as [Hw Hl]. simpl in Hw, Hl. apply bind_Ok in H as (d3 & H1 & H).
  unfold withdraw_one in H1. simpl in H1. apply bind_Ok in H1 as (d1 & E1 & H1).
  apply bind_Ok in H1 as (d2 & E2 & H1). injection H1 as <-. moves.
  assert (withdraws d2 = withdraws d) as Ew.
  { rewrite (change_requests_withdraws _ _ _ _ E2). match goal with F : same_tables _ _ |- _ => by apply (st_withdraws _ _ F) end. }
  apply IH in H; [|simpl; by rewrite Ew]. rewrite H, gap_remove_withdraw, (row_Some _ _ _ w) by (by rewrite Ew).
  apply (gap_change_requests s) in E2. gaps s. unfold withdraw_held. lia.
Qed.
