(* ===== verification/Conservation.v ===== *)
(** * Conservation of money

    The operations and the per-block processing of the ledger as one step
    function, and the supply equations that [database::validate_invariants]
    checks as an invariant of it. *)

From S2P Require Import Prelude Config AccountName Uint128 SafeInt AssetSymbol Asset MapSum State Ledger Votes Market Transfers.
From stdpp Require Import gmap strings.
#[local] Open Scope Z_scope.

(** ** validate_invariants (database.cpp) *)

(** A total over a table: every member a row contributes is added with the
    checked addition of [share_type]. *)
Definition checked_sum {K A} `{Countable K} (members : K → A → list Z) (start : Z) (m : gmap K A) : res Z :=
  res_fold (λ t x, res_fold safe_add t (members x.1 x.2)) start (map_to_list m).

(** The same when a member is itself computed with checked arithmetic. *)
Definition checked_sum_of {K A} `{Countable K} (member : K → A → res Z) (start : Z) (m : gmap K A) : res Z :=
  res_fold (λ t x, v ← member x.1 x.2; safe_add t v) start (map_to_list m).

Definition account_members (s : Z) (_ : name) (a : account) : list Z :=
  if s =? freezone_SYMBOL then [balance a; savings_balance a; reward_freezone_balance a]
  else if s =? SBD_SYMBOL then [sbd_balance (sbd a); sbd_balance (savings_sbd a); reward_sbd_balance a]
  else if s =? VESTS_SYMBOL then [vesting_shares a; reward_vesting_balance a]
  else [].
Definition asset_member (s : Z) (a : asset) : list Z := if symbol a =? s then [amount a] else [].
Definition escrow_members (s : Z) (e : escrow) : list Z :=
  asset_member s (Asset (esc_freezone_balance e) freezone_SYMBOL)
  ++ asset_member s (Asset (esc_sbd_balance e) SBD_SYMBOL) ++ asset_member s (pending_fee e).

(** The symbol checks of the loops. *)
Definition known_symbol (s : Z) : bool := (s =? freezone_SYMBOL) || (s =? SBD_SYMBOL).

(** The votes an account accounts for: all it can cast itself, or what reached
    the last level of its proxied votes and goes no further. *)
Definition vsf_votes (_ : name) (a : account) : res Z :=
  if decide (proxy a = freezone_PROXY_TO_SELF_ACCOUNT) then witness_vote_weight a
  else mret (nth (freezone_MAX_PROXY_RECURSION_DEPTH - 1) (proxied_vsf_votes a) 0).

Definition ico_member (tokens : gmap Z sst_token) (k : Z) (i : sst_ico) : res Z :=
  t ← from_option_exn out_of_range (tokens !! k);
  if not_launched (phase t) then safe_sub (contributed i) (processed_contributions i) else mret (contributed i).

(** The loops over accounts, conversions, orders, escrows and savings. *)
Definition total_of (s : Z) (d : db) : res Z :=
  t ← checked_sum (account_members s) 0 (accounts d);
  t ← checked_sum (λ _ c, asset_member s (cr_amount c)) t (converts d);
  t ← checked_sum (λ _ o, asset_member s (amount_for_sale o)) t (orders d);
  t ← checked_sum (λ _ e, escrow_members s e) t (escrows d);
  checked_sum (λ _ w, asset_member s (sw_amount w)) t (withdraws d).

Definition validate_invariants (d : db) : res unit :=
  let g := gpo d in
  _ ← fc_assert (bool_decide (map_Forall (λ _ w, votes w <= total_vesting_shares g) (witnesses (staking d))));
  _ ← fc_assert (bool_decide (map_Forall (λ _ c, known_symbol (symbol (cr_amount c)) = true) (converts d)));
  _ ← fc_assert (bool_decide (map_Forall (λ _ e, known_symbol (symbol (pending_fee e)) = true) (escrows d)));
  _ ← fc_assert (bool_decide (map_Forall (λ _ w, known_symbol (symbol (sw_amount w)) = true) (withdraws d)));
  total_supply ← total_of freezone_SYMBOL d;
  total_sbd ← total_of SBD_SYMBOL d;
  total_vesting ← checked_sum (account_members VESTS_SYMBOL) 0 (accounts d);
  pending_vesting_freezone ← checked_sum (λ _ a, [reward_vesting_freezone a]) 0 (accounts d);
  total_vsf_votes ← checked_sum_of vsf_votes 0 (accounts d);
  total_supply ← checked_sum (λ _ b, [b]) total_supply (reward_funds d);
  total_supply ← checked_sum_of (ico_member (sst_tokens d)) total_supply (icos d);
  total_supply ← checked_sum (λ _ t, [mm_freezone_balance t]) total_supply (sst_tokens d);
  f ← safe_add (total_vesting_fund_freezone g) (total_reward_fund_freezone g);
  f ← safe_add f (pending_rewarded_vesting_freezone g);
  total_supply ← safe_add total_supply f;
  _ ← fc_assert (current_supply g =? total_supply);
  sb ← safe_add (current_sbd_supply g) (init_sbd_supply g);
  _ ← fc_assert (sb =? total_sbd);
  v ← safe_add (total_vesting_shares g) (pending_rewarded_vesting_shares g);
  _ ← fc_assert (v =? total_vesting);
  _ ← fc_assert (total_vesting_shares g =? total_vsf_votes);
  _ ← fc_assert (pending_rewarded_vesting_freezone g =? pending_vesting_freezone);
  _ ← fc_assert (current_supply g <=? virtual_supply g);
  _ ← (if negb (is_null (current_median_history d)) then
         x ← asset_mul_price (Asset (current_sbd_supply g) SBD_SYMBOL) (current_median_history d);
         x ← asset_add x (Asset (current_supply g) freezone_SYMBOL);
         fc_assert (asset_eqb x (Asset (virtual_supply g) freezone_SYMBOL))
       else mret tt);
  let max_vote_denom := u32 (target_votes_per_period g * freezone_VOTING_MANA_REGENERATION_SECONDS) in
  fc_assert (0 <? max_vote_denom).

(** ** The steps *)

Inductive step : Type :=
| Op_transfer (o : transfer_operation)
| Op_escrow_transfer (o : escrow_transfer_operation)
| Op_escrow_approve (o : escrow_approve_operation)
| Op_escrow_dispute (o : escrow_dispute_operation)
| Op_escrow_release (o : escrow_release_operation)
| Op_convert (o : convert_operation)
| Op_limit_order_create (rand_offset : Z) (o : limit_order_create_operation)
| Op_limit_order_create2 (o : limit_order_create2_operation)
| Op_limit_order_cancel (owner : name) (orderid : Z)
| Op_transfer_to_savings (o : savings_operation)
| Op_transfer_from_savings (o : savings_operation)
| Op_cancel_transfer_from_savings (from : name) (request_id : Z)
| Block_conversions
| Block_savings_withdraws
| Block_expired_orders
| Block_expired_escrows.

(** [validate] followed by [do_apply] for an operation whose [validate] the
    theorems rely on. *)
Definition run_step (is_utf8 json_is_valid : string → bool) (st : step) (d : db) : res db :=
  match st with
  | Op_transfer o => _ ← transfer_validate is_utf8 o; transfer_apply o d
  | Op_escrow_transfer o => _ ← escrow_transfer_validate is_utf8 json_is_valid o; escrow_transfer_apply o d
  | Op_escrow_approve o => _ ← escrow_approve_validate o; escrow_approve_apply o d
  | Op_escrow_dispute o => _ ← escrow_dispute_validate o; escrow_dispute_apply o d
  | Op_escrow_release o => _ ← escrow_release_validate o; escrow_release_apply o d
  | Op_convert o => _ ← convert_validate o; convert_apply o d
  | Op_limit_order_create r o => _ ← limit_order_create_validate o; limit_order_create_apply r o d
  | Op_limit_order_create2 o => _ ← limit_order_create2_validate o; limit_order_create2_apply o d
  | Op_limit_order_cancel owner orderid => _ ← validate_account_name owner; limit_order_cancel_apply owner orderid d
  | Op_transfer_to_savings o => _ ← savings_validate is_utf8 o; transfer_to_savings_apply o d
  | Op_transfer_from_savings o => _ ← savings_validate is_utf8 o; transfer_from_savings_apply o d
  | Op_cancel_transfer_from_savings from r =>
      _ ← validate_account_name from; cancel_transfer_from_savings_apply from r d
  | Block_conversions => process_conversions d
  | Block_savings_withdraws => process_savings_withdraws d
  | Block_expired_orders => clear_expired_orders d
  | Block_expired_escrows => expire_escrow_ratification d
  end.

(** ** The checked totals are the sums *)

Lemma checked_sum_value {K A} `{Countable K} (f : K → A → list Z) t (m : gmap K A) t' :
  checked_sum f t m = Ok t' → t' = t + msum (λ k a, zsum (f k a)) m.
Proof.
  unfold checked_sum. rewrite msum_list. generalize (map_to_list m). intros l. revert t.
  induction l as [|x l IH]; simpl; intros t H1; [injection H1 as <-; lia|].
  apply bind_Ok in H1 as (u & Hu & H1). apply checked_list in Hu as ->. apply IH in H1 as ->. lia.
Qed.

Lemma checked_sum_of_value {K A} `{Countable K} (f : K → A → res Z) (g : K → A → Z) t (m : gmap K A) t' :
  (∀ k a v, f k a = Ok v → v = g k a) →
  checked_sum_of f t m = Ok t' → t' = t + msum g m.
Proof.
  intros Hf. unfold checked_sum_of. rewrite msum_list. generalize (map_to_list m). intros l. revert t.
  induction l as [|x l IH]; simpl; intros t H1; [injection H1 as <-; lia|].
  apply bind_Ok in H1 as (u & Hu & H1). apply bind_Ok in Hu as (v & Hv%Hf & Hu). apply safe_add_value in Hu as ->.
  apply IH in H1 as ->. lia.
Qed.

Lemma account_members_sum s n a : zsum (account_members s n a) = account_held s n a.
Proof. unfold account_members, account_held. repeat case_match; cbn; lia. Qed.

Lemma asset_member_sum s a : zsum (asset_member s a) = amount_of s a.
Proof. unfold asset_member, amount_of. case_match; cbn; lia. Qed.

Lemma escrow_members_sum s k e : zsum (escrow_members s e) = escrow_held s k e.
Proof. unfold escrow_members, escrow_held. rewrite !zsum_app, !asset_member_sum. lia. Qed.

(** ** The supply equations *)

Definition legacy (s : Z) : Prop := s = freezone_SYMBOL ∨ s = SBD_SYMBOL ∨ s = VESTS_SYMBOL.

(** Of every legacy symbol, exactly what was issued is held. *)
Definition balanced (d : db) : Prop := ∀ s, legacy s → gap s d = 0.

(** Vesting shares are never in the tables of pending transfers. *)
Definition no_pending_vests (d : db) : Prop :=
  (∀ k o, orders d !! k = Some o → symbol (base (sell_price o)) ≠ VESTS_SYMBOL).

Lemma regular_held_legacy (s : Z) (m : gmap (name * Z) regular_balance) : legacy s → msum (regular_held s) m = 0.
Proof.
  intros Hs. rewrite (msum_ext _ (λ _ _, 0)).
  - induction m as [|k a m Hk IH] using map_ind; [apply msum_empty|by rewrite msum_insert_new].
  - intros k a _. unfold regular_held. by rewrite (proj2 (space_legacy s) Hs).
Qed.

Lemma msum_zero {K A} `{Countable K} (f : K → A → Z) (m : gmap K A) :
  (∀ k a, m !! k = Some a → f k a = 0) → msum f m = 0.
Proof.
  intros Hf. rewrite (msum_ext _ (λ _ _, 0)) by done.
  induction m as [|k a m Hk IH] using map_ind; [apply msum_empty|].
  rewrite msum_insert_new by done. apply IH. intros k' a' Hk'. apply Hf. rewrite lookup_insert_ne by congruence. done.
Qed.

Lemma total_of_value s d t :
  total_of s d = Ok t →
  t = msum (account_held s) (accounts d) + msum (convert_held s) (converts d) + msum (order_held s) (orders d)
      + msum (escrow_held s) (escrows d) + msum (withdraw_held s) (withdraws d).
Proof.
  unfold total_of. intros H. repeat (apply bind_Ok in H as (? & ?%checked_sum_value & H)).
  apply checked_sum_value in H. subst.
  rewrite (msum_ext (λ k a, zsum (account_members s k a)) (account_held s)) by (intros; apply account_members_sum).
  rewrite (msum_ext (λ k c, zsum (asset_member s (cr_amount c))) (convert_held s)) by (intros; apply asset_member_sum).
  rewrite (msum_ext (λ k o, zsum (asset_member s (amount_for_sale o))) (order_held s)) by (intros; apply asset_member_sum).
  rewrite (msum_ext (λ k e, zsum (escrow_members s e)) (escrow_held s)) by (intros; apply escrow_members_sum).
  rewrite (msum_ext (λ k w, zsum (asset_member s (sw_amount w))) (withdraw_held s)) by (intros; apply asset_member_sum).
  lia.
Qed.

Lemma ico_member_value tokens k i v : ico_member tokens k i = Ok v → v = ico_held tokens freezone_SYMBOL k i.
Proof.
  unfold ico_member, ico_held. intros H. rewrite Z.eqb_refl. apply bind_Ok in H as (t & Ht & H).
  apply from_option_exn_Ok in Ht. rewrite Ht. case_match; [by apply safe_sub_value in H|by injection H].
Qed.

(** Only the freezone symbol is held by token sales and market makers. *)
Lemma token_tables_legacy s d :
  s = SBD_SYMBOL ∨ s = VESTS_SYMBOL →
  msum (token_held s) (sst_tokens d) = 0 ∧ msum (ico_held (sst_tokens d) s) (icos d) = 0.
Proof.
  intros Hs. split; apply msum_zero; intros; unfold token_held, ico_held; by destruct Hs as [-> | ->].
Qed.

Lemma rewards_held_legacy (s : Z) (m : gmap (name * Z) rewards_balance) : legacy s → msum (rewards_held s) m = 0.
Proof.
  intros Hs. apply msum_zero. intros k a _. unfold rewards_held. by rewrite (proj2 (space_legacy s) Hs).
Qed.

Lemma known_symbol_vests a : known_symbol (symbol a) = true → amount_of VESTS_SYMBOL a = 0.
Proof.
  unfold known_symbol, amount_of. intros Ha. rewrite (proj2 (Z.eqb_neq _ _)); [done|].
  intros E. rewrite E in Ha. by vm_compute in Ha.
Qed.

(** What [validate_invariants] accepts is balanced. *)
Lemma validate_invariants_balanced d : no_pending_vests d → validate_invariants d = Ok tt → balanced d.
Proof.
  intros Hnv H. unfold validate_invariants in H. apply bind_Ok in H as (? & _ & H).
  apply bind_Ok in H as (? & Hc & H). apply bind_Ok in H as (? & He & H). apply bind_Ok in H as (? & Hw & H).
  apply fc_assert_Ok, bool_decide_eq_true in Hc, He, Hw.
  apply bind_Ok in H as (ts & Hts%total_of_value & H). apply bind_Ok in H as (tb & Htb%total_of_value & H).
  apply bind_Ok in H as (tv & Htv%checked_sum_value & H). do 2 apply bind_Ok in H as (? & _ & H).
  apply bind_Ok in H as (ts2 & Hts2%checked_sum_value & H).
  apply bind_Ok in H as (ts3 & Hts3 & H).
  apply (checked_sum_of_value _ (ico_held (sst_tokens d) freezone_SYMBOL)) in Hts3; [|apply ico_member_value].
  apply bind_Ok in H as (ts4 & Hts4%checked_sum_value & H).
  apply bind_Ok in H as (f1 & Hf1 & H). apply bind_Ok in H as (f2 & Hf2 & H). apply bind_Ok in H as (ts5 & Hts5 & H).
  apply bind_Ok in H as (? & E1 & H). apply bind_Ok in H as (sb & Hsb & H).
  apply bind_Ok in H as (? & E2 & H). apply bind_Ok in H as (v & Hv & H). apply bind_Ok in H as (? & E3 & _).
  apply fc_assert_Ok, Z.eqb_eq in E1, E2, E3. safe_values.
  rewrite (msum_ext (λ k a, zsum (account_members VESTS_SYMBOL k a)) (account_held VESTS_SYMBOL)) in E3
    by (intros; apply account_members_sum).
  rewrite (msum_ext (λ (_ : Z) (b : Z), zsum [b]) (λ _ b, b)) in E1 by (intros; cbn; lia).
  rewrite (msum_ext (λ (_ : Z) t, zsum [mm_freezone_balance t]) (token_held freezone_SYMBOL)) in E1
    by (intros; unfold token_held; rewrite Z.eqb_refl; cbn; lia).
  intros s [-> | [-> | ->]]; unfold gap, held, issued, global_held;
    rewrite regular_held_legacy, rewards_held_legacy by (unfold legacy; tauto).
  - rewrite Z.eqb_refl. lia.
  - destruct (token_tables_legacy SBD_SYMBOL d) as [-> ->]; [by left|].
    change (SBD_SYMBOL =? freezone_SYMBOL) with false. rewrite Z.eqb_refl. lia.
  - destruct (token_tables_legacy VESTS_SYMBOL d) as [-> ->]; [by right|].
    change (VESTS_SYMBOL =? freezone_SYMBOL) with false. change (VESTS_SYMBOL =? SBD_SYMBOL) with false.
    rewrite Z.eqb_refl.
    rewrite (msum_zero (order_held VESTS_SYMBOL)).
    2: { intros k o Ho. unfold order_held, amount_of, amount_for_sale. cbn [symbol amount].
         rewrite (proj2 (Z.eqb_neq _ _)); [done|]. by eapply Hnv. }
    rewrite (msum_zero (escrow_held VESTS_SYMBOL)).
    2: { intros k e Hke. unfold escrow_held. rewrite (known_symbol_vests (pending_fee e)) by (by eapply He). done. }
    rewrite (msum_zero (convert_held VESTS_SYMBOL)) by (intros k c Hkc; apply known_symbol_vests; by eapply Hc).
    rewrite (msum_zero (withdraw_held VESTS_SYMBOL)) by (intros k w Hkw; apply known_symbol_vests; by eapply Hw).
    lia.
Qed.

(** ** Approved escrows owe no fee *)

Lemma fees_paid_same d d' : escrows d' = escrows d → fees_paid d → fees_paid d'.
Proof. intros E H k e. rewrite E. apply H. Qed.

Lemma fees_paid_put k e d : (is_approved e = true → amount (pending_fee e) = 0) →
  fees_paid d → fees_paid (set_escrows <[k := e]> d).
Proof.
  intros He H k' e'. simpl. rewrite lookup_insert_Some. intros [[<- <-]|[_ Hk]]; [done|by eapply H].
Qed.

Lemma fees_paid_remove k d : fees_paid d → fees_paid (set_escrows (delete k) d).
Proof. intros H k' e'. simpl. rewrite lookup_delete_Some. intros [_ Hk]. by eapply H. Qed.

Lemma escrows_savings n delta d d' : adjust_savings_balance n delta d = Ok d' → escrows d' = escrows d.
Proof. intros H. by apply same_tables_adjust_savings_balance, st_escrows in H. Qed.

Lemma escrows_change_requests n f d d' : change_requests n f d = Ok d' → escrows d' = escrows d.
Proof. unfold change_requests. intros H. apply bind_Ok in H as (? & _ & H). by injection H as <-. Qed.

Lemma fees_paid_refund k e d d' : refund_escrow k e d = Ok d' → fees_paid d → fees_paid d'.
Proof.
  unfold refund_escrow. intros H Hf. do 3 apply bind_Ok in H as (? & ?%escrows_adjust & H). injection H as <-.
  apply fees_paid_remove. eapply fees_paid_same; [|done]. congruence.
Qed.

Lemma fees_paid_approve o d d' : escrow_approve_apply o d = Ok d' → fees_paid d → fees_paid d'.
Proof.
  unfold escrow_approve_apply. intros H Hf. apply bind_Ok in H as (e & He & H). apply from_option_exn_Ok in He.
  do 3 apply bind_Ok in H as (? & _ & H). apply bind_Ok in H as (e1 & H1 & H). apply bind_Ok in H as (e2 & H2 & H).
  destruct (ea_approve o); cbn [negb] in H; [|by eapply fees_paid_refund].
  destruct (to_approved e2 && agent_approved e2) eqn:Ea.
  - apply bind_Ok in H as (d1 & H3%escrows_adjust & H). injection H as <-. simpl in H3.
    intros k' e'. simpl. rewrite H3, insert_insert_eq, lookup_insert_Some.
    intros [[<- <-]|[_ Hk]]; [done|by eapply Hf].
  - injection H as <-. apply fees_paid_put; [|done]. unfold is_approved. congruence.
Qed.

Lemma fees_paid_release o d d' : escrow_release_apply o d = Ok d' → fees_paid d → fees_paid d'.
Proof.
  unfold escrow_release_apply. intros H Hf. apply bind_Ok in H as (? & _ & H).
  apply bind_Ok in H as (e & He & H). apply from_option_exn_Ok in He. do 9 apply bind_Ok in H as (? & _ & H).
  apply bind_Ok in H as (d1 & H1%escrows_adjust & H). apply bind_Ok in H as (d2 & H2%escrows_adjust & H).
  do 2 apply bind_Ok in H as (? & _ & H).
  assert (fees_paid (set_escrows <[(er_from o, er_escrow_id o) := set_escrow_balances (amount x9) (amount x10) e]> d2)) as Hp.
  { apply fees_paid_put; [by apply Hf in He|]. eapply fees_paid_same; [|done]. congruence. }
  case_match; injection H as <-; [by apply fees_paid_remove|done].
Qed.

Lemma fees_paid_step u j st d d' : run_step u j st d = Ok d' → fees_paid d → fees_paid d'.
Proof.
  intros H Hf. destruct st; cbn [run_step] in H; try (apply bind_Ok in H as (? & Hval & H)).
  - unfold transfer_apply in H. do 2 apply bind_Ok in H as (? & _ & H).
    apply bind_Ok in H as (d1 & H1%escrows_adjust & H%escrows_adjust). eapply fees_paid_same; [|done]. congruence.
  - unfold escrow_transfer_apply in H. do 5 apply bind_Ok in H as (? & _ & H). apply bind_Ok in H as ([] & _ & H).
    apply bind_Ok in H as (? & _ & H). apply bind_Ok in H as (d1 & H1%escrows_adjust & H).
    apply bind_Ok in H as (? & _ & H). apply bind_Ok in H as (d2 & H2%escrows_adjust & H).
    apply bind_Ok in H as (? & _ & H). injection H as <-.
    apply (fees_paid_put _ _ d2); [done|]. eapply fees_paid_same; [|done]. congruence.
  - by eapply fees_paid_approve.
  - unfold escrow_dispute_apply in H. apply bind_Ok in H as (? & _ & H). apply bind_Ok in H as (e & He & H).
    apply from_option_exn_Ok in He. do 5 apply bind_Ok in H as (? & _ & H). injection H as <-.
    apply fees_paid_put; [by apply Hf in He|done].
  - by eapply fees_paid_release.
  - unfold convert_apply in H. apply bind_Ok in H as (? & _ & H). apply bind_Ok in H as (d1 & H1%escrows_adjust & H).
    do 2 apply bind_Ok in H as (? & _ & H). injection H as <-. by eapply fees_paid_same.
  - eapply fees_paid_same; [by eapply escrows_limit_order_create|done].
  - eapply fees_paid_same; [by eapply escrows_limit_order_create2|done].
  - eapply fees_paid_same; [by eapply escrows_cancel|done].
  - unfold transfer_to_savings_apply in H. do 4 apply bind_Ok in H as (? & _ & H).
    apply bind_Ok in H as (d1 & H1%escrows_adjust & H%escrows_savings). eapply fees_paid_same; [|done]. congruence.
  - unfold transfer_from_savings_apply in H. do 8 apply bind_Ok in H as (? & _ & H).
    apply bind_Ok in H as (d1 & H1%escrows_savings & H). apply bind_Ok in H as (? & _ & H%escrows_change_requests).
    eapply fees_paid_same; [|done]. simpl in H. congruence.
  - unfold cancel_transfer_from_savings_apply in H. apply bind_Ok in H as (? & _ & H).
    apply bind_Ok in H as (d1 & H1%escrows_savings & H%escrows_change_requests).
    eapply fees_paid_same; [|done]. simpl in H. congruence.
  - unfold process_conversions in H. case_match; [by injection H as <-|].
    apply bind_Ok in H as ([[d1 ?] ?] & H1 & H). do 5 apply bind_Ok in H as (? & _ & H). injection H as <-.
    apply (fees_paid_same d); [|done]. simpl. revert H1. generalize (Asset 0 SBD_SYMBOL) (Asset 0 freezone_SYMBOL).
    match goal with |- ∀ a b, res_fold _ _ ?l = _ → _ => generalize l end. intros l. clear. revert d. induction l as [|x l IH]; simpl; intros d a1 a2 H1; [by injection H1 as <-|].
    apply bind_Ok in H1 as ([[d2 b1] b2] & H2 & H1). apply IH in H1. unfold convert_one in H2.
    apply bind_Ok in H2 as (? & _ & H2). apply bind_Ok in H2 as (d3 & H3%escrows_adjust & H2).
    do 2 apply bind_Ok in H2 as (? & _ & H2). injection H2 as <- <- <-. simpl in H1. congruence.
  - unfold process_savings_withdraws in H.
    apply (fees_paid_same d); [|done]. revert H.
    match goal with |- res_fold _ _ ?l = _ → _ => generalize l end. intros l. clear. revert d. induction l as [|x l IH]; simpl; intros d H; [by injection H as <-|].
    apply bind_Ok in H as (d1 & H1 & H). apply IH in H. unfold withdraw_one in H1.
    apply bind_Ok in H1 as (d2 & H2%escrows_adjust & H1). apply bind_Ok in H1 as (d3 & H3%escrows_change_requests & H1).
    injection H1 as <-. simpl in H. congruence.
  - eapply fees_paid_same; [by eapply escrows_clear_expired|done].
  - unfold expire_escrow_ratification in H. revert H Hf.
    match goal with |- res_fold _ _ ?l = _ → _ => generalize l end. intros l. clear. revert d.
    induction l as [|x l IH]; simpl; intros d H Hf; [by injection H as <-|].
    apply bind_Ok in H as (d1 & H1 & H). eapply IH; [done|]. by eapply fees_paid_refund.
Qed.

(** One step keeps every gap. *)
Lemma gap_step u j s st d d' : fees_paid d → run_step u j st d = Ok d' → gap s d' = gap s d.
Proof.
  intros Hf H. destruct st; cbn [run_step] in H; try (apply bind_Ok in H as (? & Hval & H)).
  - by eapply gap_transfer.
  - eapply gap_escrow_transfer; [..|exact H]; unfold escrow_transfer_validate in Hval;
      do 9 apply bind_Ok in Hval as (? & _ & Hval); do 2 apply bind_Ok in Hval as (? & ?%fc_assert_Ok & Hval); bools; done.
  - by eapply gap_escrow_approve.
  - by eapply gap_escrow_dispute.
  - by eapply gap_escrow_release.
  - by eapply gap_convert.
  - by eapply gap_limit_order_create.
  - by eapply gap_limit_order_create2.
  - by eapply gap_cancel_order.
  - by eapply gap_transfer_to_savings.
  - by eapply gap_transfer_from_savings.
  - by eapply gap_cancel_from_savings.
  - by eapply gap_process_conversions.
  - by eapply gap_process_savings.
  - by eapply gap_clear_expired_orders.
  - by eapply gap_expire_escrows.
Qed.

Definition run_steps (u j : string → bool) (sts : list step) (d : db) : res db :=
  res_fold (λ d st, run_step u j st d) d sts.

Lemma gap_steps u j s sts d d' :
  fees_paid d → run_steps u j sts d = Ok d' → gap s d' = gap s d ∧ fees_paid d'.
Proof.
  unfold run_steps. revert d. induction sts as [|st sts IH]; simpl; intros d Hf H; [by injection H as <-|].
  apply bind_Ok in H as (d1 & H1 & H). destruct (IH d1) as [Hg Hf']; [by eapply fees_paid_step|done|].
  split; [|done]. rewrite Hg. by eapply gap_step.
Qed.

(** ** Theorems *)

(** C1: money is conserved.  No sequence of operations and block processing
    steps changes, for any symbol, the difference between what the accounts,
    orders, escrows, conversions, savings withdrawals and funds hold and what
    was issued; interest and conversions issue exactly what they credit.
    Approved escrows keep owing no fee. *)
Theorem money_conserved u j sts d d' :
  fees_paid d → run_steps u j sts d = Ok d' →
  (∀ s, held s d' - issued s d' = held s d - issued s d) ∧ fees_paid d'.
Proof.
  intros Hf H. split; [|by destruct (gap_steps u j 0 sts d d' Hf H)].
  intros s. by destruct (gap_steps u j s sts d d' Hf H).
Qed.

(** C17: the supply equations of [validate_invariants] are an invariant.  From a
    state it accepts, in which no order sells vesting shares and every approved
    escrow has paid its fee (a release does not return an unpaid one), after any
    sequence of the steps that succeeds the supply recorded of freezone, SBD and
    VESTS is exactly what is held of it, and approved escrows still owe no fee. *)
Theorem supply_equations_kept u j sts d d' :
  no_pending_vests d → fees_paid d → validate_invariants d = Ok tt → run_steps u j sts d = Ok d' →
  held freezone_SYMBOL d' = current_supply (gpo d')
  ∧ held SBD_SYMBOL d' = current_sbd_supply (gpo d') + init_sbd_supply (gpo d')
  ∧ held VESTS_SYMBOL d' = total_vesting_shares (gpo d') + pending_rewarded_vesting_shares (gpo d')
  ∧ fees_paid d'.
Proof.
  intros Hnv Hf Hval H. destruct (gap_steps u j 0 sts d d' Hf H) as [_ Hf']. pose proof (validate_invariants_balanced d Hnv Hval) as Hb.
  assert (∀ s, legacy s → gap s d' = 0) as Hb'.
  { intros s Hs. destruct (gap_steps u j s sts d d' Hf H) as [-> _]. by apply Hb. }
  pose proof (Hb' freezone_SYMBOL ltac:(by left)) as H1.
  pose proof (Hb' SBD_SYMBOL ltac:(right; by left)) as H2.
  pose proof (Hb' VESTS_SYMBOL ltac:(right; by right)) as H3.
  unfold gap, issued in H1, H2, H3. rewrite Z.eqb_refl in H1, H2, H3.
  change (SBD_SYMBOL =? freezone_SYMBOL) with false in H2.
  change (VESTS_SYMBOL =? freezone_SYMBOL) with false in H3. change (VESTS_SYMBOL =? SBD_SYMBOL) with false in H3.
  cbn [Z.eqb] in *. split_and!; [lia|lia|lia|done].
Qed.

(** ** A run *)

Definition sample_account (fz usd : Z) : account :=
  Account fz 0 (SbdAccount usd (U128 0 0) 0 0) (SbdAccount 0 (U128 0 0) 0 0) 0 0 0 0 0 initial_stake 0 "" [0; 0; 0; 0] 0 true.

Definition sample_db : db :=
  DB {[ "alice" := sample_account 1000 0; "bob" := sample_account 0 500000; "agent" := sample_account 0 0 ]}
    ∅ ∅ ∅ ∅ ∅ ∅ ∅ ∅ ∅ {[0 := 70]} (Staking ∅ ∅ (U128 0 0) ∅ ∅ ∅ 3000) 0
    (GPO 1000 100000000 1170 500000 0 501170 100 0 0 0 0 1000 10000 10 432000 2500)
    (Price (Asset 1000 SBD_SYMBOL) (Asset 1000 freezone_SYMBOL)) 23.

(** Two orders that match (paying Bob interest on the way), an escrow agreed
    on and released, a conversion, and a block. *)
Definition sample_steps : list step :=
  [Op_limit_order_create 0 (LimitOrderCreate "alice" 1 (Asset 100 freezone_SYMBOL) (Asset 30 SBD_SYMBOL) false 100000100);
   Op_limit_order_create 0 (LimitOrderCreate "bob" 1 (Asset 40 SBD_SYMBOL) (Asset 120 freezone_SYMBOL) false 100000100);
   Op_escrow_transfer (EscrowTransfer "alice" "bob" "agent" 7 (Asset 0 SBD_SYMBOL) (Asset 200 freezone_SYMBOL)
     (Asset 5 freezone_SYMBOL) 100000010 100000020 "");
   Op_escrow_approve (EscrowApprove "alice" "bob" "agent" "bob" 7 true);
   Op_escrow_approve (EscrowApprove "alice" "bob" "agent" "agent" 7 true);
   Op_escrow_release (EscrowRelease "alice" "bob" "agent" "alice" "bob" 7 (Asset 0 SBD_SYMBOL) (Asset 200 freezone_SYMBOL));
   Op_convert (Convert "bob" 1 (Asset 50 SBD_SYMBOL));
   Op_transfer_to_savings (Savings "alice" "alice" (Asset 30 freezone_SYMBOL) "" 0);
   Block_expired_orders; Block_conversions].

Definition any_text (_ : string) : bool := true.

Example sample_run : is_ok (run_steps any_text any_text sample_steps sample_db) = true.
Proof. vm_compute. reflexivity. Qed.

Lemma sample_fees : fees_paid sample_db.
Proof. intros k e H. done. Qed.

Lemma money_conserved_witness :
  ∃ d', run_steps any_text any_text sample_steps sample_db = Ok d'
    ∧ ∀ s, held s d' - issued s d' = held s sample_db - issued s sample_db.
Proof.
  destruct (run_steps any_text any_text sample_steps sample_db) as [d'|e] eqn:E; [|by vm_compute in E].
  exists d'. split; [done|]. apply (money_conserved any_text any_text sample_steps sample_db d' sample_fees E).
Defined.

Lemma supply_equations_kept_witness :
  ∃ d', run_steps any_text any_text sample_steps sample_db = Ok d'
    ∧ held SBD_SYMBOL d' = current_sbd_supply (gpo d') + init_sbd_supply (gpo d').
Proof.
  destruct (run_steps any_text any_text sample_steps sample_db) as [d'|e] eqn:E; [|by vm_compute in E].
  exists d'. split; [done|].
  apply (supply_equations_kept any_text any_text sample_steps sample_db d');
    [intros k o H; done|exact sample_fees|vm_compute; reflexivity|exact E].
Defined.
