(* ===== verification/ForkDatabase.v ===== *)
(** * The fork database

    libraries/chain/fork_database.cpp: the blocks a node has received that are
    not yet irreversible, as a tree of items linked by weak pointers, and the
    choice of its head.

    Items are heap objects named by an address.  The two indices and the head
    own an item (shared pointers); [prev] does not (a weak pointer): [lock]
    succeeds while something owns the item.  The pointers a caller holds while
    it works on branches are the argument [held]. *)

From S2P Require Import Prelude.
From stdpp Require Import gmap.
#[local] Open Scope Z_scope.

(** ** Blocks and their ids (block.cpp, block_header.hpp) *)

(** The first of the five words of the hash, and the other four. *)
Abbreviation block_id := (Z * Z)%type.

(** [block_id_type()] *)
Definition null_id : block_id := (0, 0).

Definition endian_reverse_u32 (x : Z) : Z :=
  Z.lor (Z.lor (Z.lor (Z.land (Z.shiftr x 0x18) 0xFF)
                      (Z.shiftl (Z.land (Z.shiftr x 0x10) 0xFF) 0x08))
               (Z.shiftl (Z.land (Z.shiftr x 0x08) 0xFF) 0x10))
        (Z.shiftl (Z.land x 0xFF) 0x18).

Definition num_from_id (id : block_id) : Z := endian_reverse_u32 id.1.

(** A block: the id of the previous one, and everything else. *)
Record signed_block (T : Type) : Type := SignedBlock {
  previous : block_id;
  content : T
}.
#[global] Arguments SignedBlock {T}.
#[global] Arguments previous {T}.
#[global] Arguments content {T}.

Definition block_num {T} (b : signed_block T) : Z := u32 (num_from_id (previous b) + 1).

(** The hash function is not part of the repository: a [BlockHash] gives the
    words of [fc::sha224::hash( header )] that the id keeps after the first
    word was overwritten with the number of the block. *)
Class BlockHash (T : Type) : Type := hash_words : signed_block T → Z.

Definition block_id_of `{BlockHash T} (b : signed_block T) : block_id :=
  (endian_reverse_u32 (block_num b), hash_words b).

#[global] Arguments endian_reverse_u32 : simpl never.
#[global] Arguments block_num : simpl never.
#[global] Arguments block_id_of : simpl never.

(** ** Items and indices (fork_database.hpp) *)

Record fork_item (T : Type) : Type := ForkItem {
  prev : option Z;            (* weak_ptr *)
  num : Z;                    (* uint32_t *)
  invalid : bool;
  id : block_id;
  data : signed_block T
}.
#[global] Arguments ForkItem {T}.
#[global] Arguments prev {T}.
#[global] Arguments num {T}.
#[global] Arguments invalid {T}.
#[global] Arguments id {T}.
#[global] Arguments data {T}.

(** [items] is the heap.  An index keeps the addresses of its items by id; its
    other keys are members of the items. *)
Record fork_database (T : Type) : Type := ForkDb {
  items : gmap Z (fork_item T);
  next_item : Z;
  max_size : Z;               (* uint32_t *)
  unlinked_index : gmap block_id Z;
  index : gmap block_id Z;
  head : option Z             (* shared_ptr *)
}.
#[global] Arguments ForkDb {T}.
#[global] Arguments items {T}.
#[global] Arguments next_item {T}.
#[global] Arguments max_size {T}.
#[global] Arguments unlinked_index {T}.
#[global] Arguments index {T}.
#[global] Arguments head {T}.

(** ** The number in an id *)

Lemma endian_reverse_bytes a b c e :
  in_u 8 a → in_u 8 b → in_u 8 c → in_u 8 e →
  endian_reverse_u32 (a + b * 2 ^ 8 + c * 2 ^ 16 + e * 2 ^ 24) = e + c * 2 ^ 8 + b * 2 ^ 16 + a * 2 ^ 24.
Proof.
  intros Ha Hb Hc He. unfold endian_reverse_u32.
  change 0xFF with (Z.ones 8). rewrite !Z.land_ones, !Z.shiftr_div_pow2, !Z.shiftl_mul_pow2 by lia.
  change (2 ^ 0x18) with 16777216. change (2 ^ 0x10) with 65536. change (2 ^ 0x08) with 256. change (2 ^ 24) with 16777216.
  int_unfold. set (x := a + _ + _ + _).
  replace ((x / 16777216) mod 256) with e by (subst x; Z.div_mod_to_equations; lia).
  replace ((x / 65536) mod 256) with c by (subst x; Z.div_mod_to_equations; lia).
  replace ((x / 256) mod 256) with b by (subst x; Z.div_mod_to_equations; lia).
  replace (x mod 256) with a by (subst x; Z.div_mod_to_equations; lia).
  rewrite (Z.lor_comm e), (lor_low_high (c * 256) e 8) by mlia.
  rewrite (Z.lor_comm _ (b * 65536)), (lor_low_high (b * 65536) _ 16) by mlia.
  rewrite (Z.lor_comm _ (a * 16777216)), (lor_low_high (a * 16777216) _ 24); [lia..| |];
    change (2 ^ 24) with 16777216; mlia.
Qed.

Lemma endian_reverse_involutive x : in_u 32 x → endian_reverse_u32 (endian_reverse_u32 x) = x.
Proof.
  intros Hx.
  assert (x = x mod 256 + (x / 256 mod 256) * 2 ^ 8 + (x / 65536 mod 256) * 2 ^ 16 + (x / 16777216) * 2 ^ 24) as Hb.
  { change (2 ^ 24) with 16777216. mlia. }
  rewrite Hb at 1. rewrite !endian_reverse_bytes; [done|mlia..].
Qed.

Lemma block_num_in {T} (b : signed_block T) : in_u 32 (block_num b).
Proof. by apply wrapu_in. Qed.

Lemma num_from_block_id `{BlockHash T} (b : signed_block T) : num_from_id (block_id_of b) = block_num b.
Proof. apply endian_reverse_involutive, block_num_in. Qed.

Section ForkDatabase.

Context {T : Type} `{BlockHash T}.

Abbreviation block := (signed_block T).
Abbreviation item := (fork_item T).
Abbreviation fdb := (fork_database T).

Definition empty_fork_db : fdb := ForkDb ∅ 0 1024 ∅ ∅ None.

Definition set_items f (d : fdb) : fdb := ForkDb (f (items d)) (next_item d) (max_size d) (unlinked_index d) (index d) (head d).
Definition set_index f (d : fdb) : fdb := ForkDb (items d) (next_item d) (max_size d) (unlinked_index d) (f (index d)) (head d).
Definition set_head (h : option Z) (d : fdb) : fdb := ForkDb (items d) (next_item d) (max_size d) (unlinked_index d) (index d) h.

Definition get_item (p : Z) (d : fdb) : res item := from_option_exn out_of_range (items d !! p).

Definition previous_id (i : item) : block_id := previous (data i).

(** Whether something owns the item at [p]. *)
Definition owned (held : list Z) (d : fdb) (p : Z) : bool :=
  match items d !! p with
  | None => false
  | Some i =>
      bool_decide (index d !! id i = Some p) || bool_decide (unlinked_index d !! id i = Some p)
      || bool_decide (head d = Some p) || bool_decide (p ∈ held)
  end.

(** [weak_ptr::lock()] *)
Definition lock (held : list Z) (d : fdb) (w : option Z) : option Z :=
  p ← w; if owned held d p then Some p else None.

(** [std::make_shared< fork_item >( b )] *)
Definition make_item (b : block) (d : fdb) : Z * fdb :=
  (next_item d,
   ForkDb (<[next_item d := ForkItem None (block_num b) false (block_id_of b) b]> (items d)) (next_item d + 1)
     (max_size d) (unlinked_index d) (index d) (head d)).

(** Insertion into an index with a unique id: an id that is there stays. *)
Definition index_insert (p : Z) (i : item) (d : fdb) : fdb :=
  match index d !! id i with
  | Some _ => d
  | None => set_index <[id i := p]> d
  end.

(** ** Operations (fork_database.cpp) *)

Definition reset (d : fdb) : fdb := ForkDb (items d) (next_item d) (max_size d) (unlinked_index d) ∅ None.

Definition fork_pop_block (held : list Z) (d : fdb) : res fdb :=
  p ← from_option_exn assert_exception (head d);
  i ← get_item p d;
  q ← from_option_exn assert_exception (lock held d (prev i));
  mret (set_head (Some q) d).

Definition start_block (b : block) (d : fdb) : fdb :=
  let '(p, d) := make_item b d in
  let d := index_insert p (ForkItem None (block_num b) false (block_id_of b) b) d in
  set_head (Some p) d.

(** The oldest number that is kept, from the number [h] of the head. *)
Definition oldest (h : Z) (d : fdb) : Z := Z.max 0 (h - max_size d).

(** [_push_block] on the new item at [p]. *)
Definition insert_block (p : Z) (d : fdb) : res fdb :=
  i ← get_item p d;
  hd ← match head d with
       | None => mret None
       | Some h => ih ← get_item h d; mret (Some (num ih))
       end;
  _ ← match hd with
      | Some h => fc_assert (oldest h d <? num i)
      | None => mret tt
      end;
  d ← (if bool_decide (is_Some hd) && negb (bool_decide (previous_id i = null_id)) then
         q ← from_option_exn unlinkable_block_exception (index d !! previous_id i);
         iq ← get_item q d;
         _ ← fc_assert (negb (invalid iq));
         mret (set_items <[p := ForkItem (Some q) (num i) (invalid i) (id i) (data i)]> d)
       else mret d);
  i ← get_item p d;
  let d := index_insert p i d in
  mret (match hd with
        | Some h => if h <? num i then set_head (Some p) d else d
        | None => set_head (Some p) d
        end).

(** A block that does not link is logged and the exception passed on; the
    statement behind the [throw] that would cache it is never reached. *)
Definition fork_push_block (b : block) (d : fdb) : res fdb :=
  let '(p, d) := make_item b d in
  insert_block p d.

(** The loops erase from the front of the index by number, which is ordered. *)
Definition keep_recent (bound : Z) (d : fdb) (m : gmap block_id Z) : gmap block_id Z :=
  filter (λ x, from_option (λ i, bound <=? num i) false (items d !! x.2) = true) m.

Definition set_max_size (s : Z) (d : fdb) : fdb :=
  let d := ForkDb (items d) (next_item d) s (unlinked_index d) (index d) (head d) in
  match h ← head d; items d !! h with
  | None => d
  | Some ih =>
      let bound := oldest (num ih) d in
      ForkDb (items d) (next_item d) s (keep_recent bound d (unlinked_index d)) (keep_recent bound d (index d)) (head d)
  end.

Definition is_known_block (i : block_id) (d : fdb) : bool :=
  bool_decide (is_Some (index d !! i)) || bool_decide (is_Some (unlinked_index d !! i)).

Definition fetch_block (i : block_id) (d : fdb) : option Z :=
  match index d !! i with
  | Some p => Some p
  | None => unlinked_index d !! i
  end.

Definition fetch_block_by_number (n : Z) (d : fdb) : list Z :=
  omap (λ x, i ← items d !! x.2; if num i =? n then Some x.2 else None) (map_to_list (index d)).

(** The first two loops of [fetch_branch_from]: back along the branch of [p]
    while its number is above [stop]. *)
Fixpoint climb (fuel : nat) (held : list Z) (stop : Z) (p : Z) (branch : list Z) (d : fdb) : res (Z * list Z) :=
  i ← get_item p d;
  if stop <? block_num (data i) then
    match fuel with
    | O => Throw fuel_exhausted
    | S fuel =>
        q ← from_option_exn assert_exception (lock (held ++ branch ++ [p]) d (prev i));
        climb fuel held stop q (branch ++ [p]) d
    end
  else mret (p, branch).

(** The third loop: back along both branches until they have the same previous
    block. *)
Fixpoint meet (fuel : nat) (held : list Z) (p q : Z) (first second : list Z) (d : fdb) : res (list Z * list Z) :=
  ip ← get_item p d;
  iq ← get_item q d;
  if bool_decide (previous (data ip) = previous (data iq)) then mret (first ++ [p], second ++ [q])
  else
    match fuel with
    | O => Throw fuel_exhausted
    | S fuel =>
        let first := first ++ [p] in
        let second := second ++ [q] in
        p ← from_option_exn assert_exception (lock (held ++ first ++ second) d (prev ip));
        q ← from_option_exn assert_exception (lock (held ++ first ++ second) d (prev iq));
        meet fuel held p q first second d
    end.

(** The numbers go down along a branch, so there are enough steps. *)
Definition fetch_branch_from (held : list Z) (first second : block_id) (d : fdb) : res (list Z * list Z) :=
  p ← from_option_exn assert_exception (index d !! first);
  q ← from_option_exn assert_exception (index d !! second);
  ip ← get_item p d;
  iq ← get_item q d;
  let fuel := S (Z.to_nat (block_num (data ip) + block_num (data iq))) in
  '(p, l) ← climb fuel (held ++ [q]) (block_num (data iq)) p [] d;
  ip ← get_item p d;
  '(q, r) ← climb fuel (held ++ l ++ [p]) (block_num (data ip)) q [] d;
  meet fuel held p q l r d.

(** [walk_main_branch_to_num]; the head exists. *)
Fixpoint walk_back (fuel : nat) (n : Z) (next : option Z) (d : fdb) : res (option Z) :=
  match next with
  | None => mret None
  | Some p =>
      i ← get_item p d;
      if n <? num i then
        match fuel with
        | O => Throw fuel_exhausted
        | S fuel => walk_back fuel n (lock [p] d (prev i)) d
        end
      else mret (Some p)
  end.

Definition walk_main_branch_to_num (n : Z) (d : fdb) : res (option Z) :=
  p ← from_option_exn out_of_range (head d);
  i ← get_item p d;
  if num i <? n then mret None else walk_back (S (Z.to_nat (num i))) n (Some p) d.

Definition fetch_block_on_main_branch_by_number (n : Z) (d : fdb) : res (option Z) :=
  match fetch_block_by_number n d with
  | [p] => mret (Some p)
  | [] => mret None
  | _ => walk_main_branch_to_num n d
  end.

Definition remove (i : block_id) (d : fdb) : fdb := set_index (delete i) d.

(** ** Well-formedness *)

(** An item carries the id and the number of its block, and links to the block
    its block names as the previous one, which is one number below: the number
    does not wrap around. *)
Record item_ok (d : fdb) (i : item) : Prop := {
  ik_id : id i = block_id_of (data i);
  ik_num : num i = block_num (data i);
  ik_valid : invalid i = false;
  ik_prev : ∀ q, prev i = Some q → ∃ iq, items d !! q = Some iq ∧ id iq = previous_id i ∧ num i = num iq + 1
}.

Record fork_wf (d : fdb) : Prop := {
  fw_items : ∀ p i, items d !! p = Some i → p < next_item d ∧ item_ok d i;
  fw_index : ∀ x p, index d !! x = Some p → ∃ i, items d !! p = Some i ∧ id i = x;
  fw_unlinked : unlinked_index d = ∅;
  fw_head : ∀ p, head d = Some p → is_Some (items d !! p)
}.

Lemma fork_wf_empty : fork_wf empty_fork_db.
Proof. split; simpl; [intros ??|intros ??|done|done]; by rewrite lookup_empty. Qed.

Lemma item_ok_mono d d' i :
  (∀ p i, items d !! p = Some i → items d' !! p = Some i) → item_ok d i → item_ok d' i.
Proof.
  intros Hm [Hid Hnum Hvalid Hprev]. split; [done..|]. intros q Hq. destruct (Hprev q Hq) as (iq & ? & ?). eauto.
Qed.

(** The operations that only change which items are owned. *)
Lemma fork_wf_owners (d : fdb) (idx : gmap block_id Z) (h : option Z) (m : Z) :
  fork_wf d → (∀ x p, idx !! x = Some p → index d !! x = Some p) →
  (∀ p, h = Some p → is_Some (items d !! p)) →
  fork_wf (ForkDb (items d) (next_item d) m (unlinked_index d) idx h).
Proof.
  intros [Hi Hx Hu Hh] Hsub Hhd. split; simpl; [|by eauto|done|done].
  intros p i Hp. destruct (Hi p i Hp) as [? Hok]. split; [done|]. by apply (item_ok_mono d).
Qed.

Lemma fresh_item d : fork_wf d → items d !! next_item d = None.
Proof. intros Hwf. apply eq_None_not_Some. intros [i Hi]. apply fw_items in Hi as [? _]; [lia|done]. Qed.

Lemma get_item_Ok p d i : get_item p d = Ok i ↔ items d !! p = Some i.
Proof. apply from_option_exn_Ok. Qed.

Lemma get_item_is p d i : items d !! p = Some i → get_item p d = Ok i.
Proof. apply get_item_Ok. Qed.

(** Making an item and putting it into the index. *)
Lemma fork_wf_add (d : fdb) (b : block) (w h : option Z) :
  fork_wf d →
  (∀ q, w = Some q → ∃ iq, items d !! q = Some iq ∧ id iq = previous b ∧ block_num b = num iq + 1) →
  (∀ p, h = Some p → p = next_item d ∨ is_Some (items d !! p)) →
  let i := ForkItem w (block_num b) false (block_id_of b) b in
  fork_wf (ForkDb (<[next_item d := i]> (items d)) (next_item d + 1) (max_size d) (unlinked_index d)
             (match index d !! block_id_of b with Some _ => index d | None => <[block_id_of b := next_item d]> (index d) end) h).
Proof.
  intros Hwf Hw Hh i. pose proof (fresh_item d Hwf) as Hf.
  assert (∀ p j, items d !! p = Some j → <[next_item d := i]> (items d) !! p = Some j) as Hm.
  { intros p j Hj. rewrite lookup_insert_ne; [done|]. intros <-. by rewrite Hf in Hj. }
  split; simpl.
  - intros p j Hp. destruct (decide (p = next_item d)) as [->|Hne].
    + rewrite lookup_insert_eq in Hp. injection Hp as <-. split; [lia|]. split; [done..|].
      intros q Hq. destruct (Hw q Hq) as (iq & Hq' & ? & ?). exists iq. split; [by apply Hm|done].
    + rewrite lookup_insert_ne in Hp by done. destruct (fw_items d Hwf p j Hp) as [? Hok]. split; [lia|].
      by apply (item_ok_mono d).
  - intros x p Hx.
    assert (index d !! x = Some p ∨ x = block_id_of b ∧ p = next_item d) as [Hx'|[-> ->]].
    { destruct (index d !! block_id_of b) eqn:Hb; [by left|]. destruct (decide (x = block_id_of b)) as [->|Hne].
      - rewrite lookup_insert_eq in Hx. right. naive_solver.
      - rewrite lookup_insert_ne in Hx by done. by left. }
    + destruct (fw_index d Hwf x p Hx') as (j & ? & ?). exists j. split; [by apply Hm|done].
    + exists i. by rewrite lookup_insert_eq.
  - apply (fw_unlinked d Hwf).
  - intros p Hp. destruct (Hh p Hp) as [->|[j Hj]]; [by rewrite lookup_insert_eq|]. eexists. by apply Hm.
Qed.

(** The parent a new block is linked to. *)
Definition parent_of (b : block) (d : fdb) : option Z :=
  if bool_decide (previous b = null_id) then None else index d !! previous b.

Definition head_num (d : fdb) : option Z := h ← head d; i ← items d !! h; Some (num i).

Lemma head_num_head d h : fork_wf d → head d = Some h → ∃ i, items d !! h = Some i ∧ head_num d = Some (num i).
Proof. intros Hwf Hh. destruct (fw_head d Hwf h Hh) as [i Hi]. exists i. unfold head_num. by rewrite Hh; simpl; rewrite Hi. Qed.

(** The database after a block was accepted: the new item is linked, is in the
    index unless its id was there, and is the head when it is higher. *)
Definition pushed (b : block) (d : fdb) : fdb :=
  let w := match head d with Some _ => parent_of b d | None => None end in
  ForkDb (<[next_item d := ForkItem w (block_num b) false (block_id_of b) b]> (items d)) (next_item d + 1) (max_size d)
    (unlinked_index d)
    (match index d !! block_id_of b with Some _ => index d | None => <[block_id_of b := next_item d]> (index d) end)
    (match head_num d with Some n => if n <? block_num b then Some (next_item d) else head d | None => Some (next_item d) end).

(** What a push does on each of its branches. *)
Lemma fork_push_block_cases b d :
  fork_wf d →
  fork_push_block b d =
    match head_num d with
    | None => Ok (pushed b d)
    | Some n =>
        if negb (oldest n d <? block_num b) then Throw assert_exception
        else if bool_decide (previous b = null_id) || bool_decide (is_Some (index d !! previous b)) then Ok (pushed b d)
        else Throw unlinkable_block_exception
    end.
Proof.
  intros Hwf. pose proof (fresh_item d Hwf) as Hf. unfold fork_push_block, insert_block, make_item, pushed, parent_of, previous_id.
  set (i := ForkItem None _ _ _ _). set (d1 := ForkDb _ _ _ _ _ (head d)).
  assert (∀ p j, items d !! p = Some j → get_item p d1 = Ok j) as Hm.
  { intros p j Hj. apply get_item_Ok. simpl. rewrite lookup_insert_ne; [done|]. intros <-. by rewrite Hf in Hj. }
  rewrite (get_item_is _ d1 i) by apply lookup_insert_eq. change (head d1) with (head d). change (index d1) with (index d).
  unfold oldest. change (max_size d1) with (max_size d). change (num i) with (block_num b).
  destruct (head d) as [h|] eqn:Hh.
  - destruct (head_num_head d h Hwf Hh) as (ih & Hih & ->). rewrite (Hm h ih Hih).
    simpl. destruct (_ <? block_num b) eqn:Hold; simpl; [|done].
    destruct (bool_decide (previous b = null_id)) eqn:Hnull; simpl.
    + rewrite (get_item_is _ d1 i) by apply lookup_insert_eq. simpl. unfold index_insert. simpl.
      destruct (index d !! block_id_of b), (num ih <? block_num b); done.
    + destruct (index d !! previous b) as [q|] eqn:Hq; simpl; [|done].
      destruct (fw_index d Hwf _ _ Hq) as (iq & Hiq & Hid). rewrite (Hm q iq Hiq). simpl.
      rewrite (ik_valid d iq) by (by apply (fw_items d Hwf q)). simpl.
      erewrite (get_item_is _ (set_items _ d1)) by apply lookup_insert_eq. simpl. unfold index_insert. simpl.
      destruct (index d !! block_id_of b), (num ih <? block_num b); subst d1;
        unfold set_items, set_index, set_head; simpl; by rewrite ?insert_insert_eq.
  - unfold head_num. rewrite Hh. simpl. rewrite (get_item_is _ d1 i) by apply lookup_insert_eq. simpl. unfold index_insert. simpl.
    destruct (index d !! block_id_of b); done.
Qed.

(** ** Every operation keeps it *)

Lemma block_num_next (b : block) iq d :
  item_ok d iq → id iq = previous b → 0 < block_num b → block_num b = num iq + 1.
Proof.
  intros Hok Hid Hpos. pose proof (block_num_in (data iq)) as Hr. unfold block_num in Hpos |- *.
  rewrite <- Hid, (ik_id _ _ Hok), num_from_block_id in *. rewrite (ik_num _ _ Hok). mlia.
Qed.

Lemma pushed_wf b d : fork_wf d → (is_Some (head d) → 0 < block_num b) → fork_wf (pushed b d).
Proof.
  intros Hwf Hpos. apply fork_wf_add; [done|..].
  - intros q Hq. destruct (head d) as [h|] eqn:Hh; [|done]. unfold parent_of in Hq. case_bool_decide; [done|].
    destruct (fw_index d Hwf _ _ Hq) as (iq & Hiq & Hid). exists iq. split; [done|]. split; [done|].
    apply (block_num_next b iq d); [by apply (fw_items d Hwf q)|done|by apply Hpos].
  - intros p Hp. unfold head_num in Hp. destruct (head d) as [h|] eqn:Hh; simpl in Hp; [|left; congruence].
    destruct (fw_head d Hwf h Hh) as [i Hi]. rewrite Hi in Hp. simpl in Hp.
    case_match; [left; congruence|]. right. assert (p = h) as -> by congruence. by exists i.
Qed.

Lemma fork_push_block_Ok b d d' :
  fork_wf d → fork_push_block b d = Ok d' → d' = pushed b d ∧ fork_wf d'.
Proof.
  intros Hwf H1. rewrite fork_push_block_cases in H1 by done.
  assert (d' = pushed b d ∧ (is_Some (head d) → 0 < block_num b)) as [-> Hpos].
  { destruct (head_num d) as [n|] eqn:Hn.
    - destruct (oldest n d <? block_num b) eqn:Ho; simpl in H1; [|done]. case_match; [|done]. res_inv. split; [done|].
      intros _. apply Z.ltb_lt in Ho. unfold oldest in Ho. lia.
    - res_inv. split; [done|]. intros [h Hh]. destruct (head_num_head d h Hwf Hh) as (i & ? & ?). congruence. }
  split; [done|]. by apply pushed_wf.
Qed.

(** A block is accepted when it is recent enough and links. *)
Lemma fork_push_block_link b d d' n :
  fork_wf d → head_num d = Some n → fork_push_block b d = Ok d' →
  oldest n d < block_num b ∧ (previous b = null_id ∨ is_Some (index d !! previous b)).
Proof.
  intros Hwf Hn Hp. rewrite (fork_push_block_cases b d Hwf), Hn in Hp.
  destruct (oldest n d <? block_num b) eqn:Ho; simpl in Hp; [|done]. split; [by bools|].
  destruct (bool_decide (previous b = null_id)) eqn:Hnull; bools; [by left|]. right. simpl in Hp.
  by destruct (bool_decide (is_Some _)) eqn:Hs; bools.
Qed.

Lemma fork_pop_block_Ok held d d' :
  fork_pop_block held d = Ok d' →
  ∃ p i q, head d = Some p ∧ items d !! p = Some i ∧ prev i = Some q ∧ owned held d q = true ∧ d' = set_head (Some q) d.
Proof.
  unfold fork_pop_block. intros H1. apply bind_Ok in H1 as (p & Hp & H1). apply bind_Ok in H1 as (i & Hi & H1).
  apply bind_Ok in H1 as (q & Hq & H1). res_inv. apply get_item_Ok in Hi. unfold lock in Hq.
  destruct (prev i) as [q'|] eqn:Hprev; simpl in Hq; [|done]. destruct (owned held d q') eqn:Ho; [|done].
  injection Hq as ->. by exists p, i, q.
Qed.

Lemma fork_pop_block_wf held d d' : fork_wf d → fork_pop_block held d = Ok d' → fork_wf d'.
Proof.
  intros Hwf H1. apply fork_pop_block_Ok in H1 as (p & i & q & Hp & Hi & Hq & _ & ->).
  apply fork_wf_owners; [done..|]. intros ? [= <-].
  destruct (ik_prev _ _ (proj2 (fw_items d Hwf p i Hi)) q Hq) as (iq & ? & _). by exists iq.
Qed.

Lemma start_block_wf b d : fork_wf d → fork_wf (start_block b d).
Proof.
  intros Hwf. pose proof (fork_wf_add d b None (Some (next_item d)) Hwf) as Hadd. simpl in Hadd.
  unfold start_block, make_item, index_insert. simpl.
  destruct (index d !! block_id_of b); (apply Hadd; [done|]; intros p [= <-]; by left).
Qed.

Lemma reset_wf d : fork_wf d → fork_wf (reset d).
Proof. intros Hwf. by apply (fork_wf_owners d ∅ None). Qed.

Lemma remove_wf x d : fork_wf d → fork_wf (remove x d).
Proof.
  intros Hwf. apply (fork_wf_owners d); [done| |apply (fw_head d Hwf)]. intros y p Hy. by apply lookup_delete_Some in Hy as [_ ?].
Qed.

Lemma set_head_wf p d : fork_wf d → is_Some (items d !! p) → fork_wf (set_head (Some p) d).
Proof. intros Hwf Hp. apply (fork_wf_owners d); [done..|]. by intros ? [= <-]. Qed.

Lemma set_max_size_wf s d : fork_wf d → fork_wf (set_max_size s d).
Proof.
  intros Hwf. unfold set_max_size. destruct (h ← _; _) as [ih|] eqn:Hh; simpl.
  - rewrite (fw_unlinked d Hwf). unfold keep_recent. rewrite map_filter_empty. rewrite <- (fw_unlinked d Hwf).
    apply fork_wf_owners; [done| |apply (fw_head d Hwf)]. intros x p Hx. by apply map_lookup_filter_Some in Hx as [? _].
  - by apply (fork_wf_owners d); [done| |apply (fw_head d Hwf)].
Qed.

(** ** Branches *)

Definition item_num (d : fdb) (p : Z) : Z := from_option num 0 (items d !! p).
Definition item_previous (d : fdb) (p : Z) : block_id := from_option previous_id null_id (items d !! p).

Definition indexed (d : fdb) (p : Z) : Prop := ∃ i, items d !! p = Some i ∧ index d !! id i = Some p.
Definition links (d : fdb) (p q : Z) : Prop := ∃ i, items d !! p = Some i ∧ prev i = Some q.

(** The addresses from [p] back along the links, all of them in the index. *)
Inductive branch (d : fdb) : Z → list Z → Prop :=
| branch_one p : indexed d p → branch d p [p]
| branch_cons p q l : indexed d p → links d p q → branch d q l → branch d p (p :: l).

Lemma indexed_owned held d p : indexed d p → owned held d p = true.
Proof.
  intros (i & Hi & Hx). unfold owned. rewrite Hi, Hx. by rewrite bool_decide_eq_true_2.
Qed.

Lemma branch_indexed d p l : branch d p l → indexed d p.
Proof. by destruct 1. Qed.

Lemma branch_head d p l : branch d p l → ∃ l', l = p :: l'.
Proof. destruct 1; eauto. Qed.

Lemma links_num d p q : fork_wf d → links d p q → item_num d p = item_num d q + 1.
Proof.
  intros Hwf (i & Hi & Hq). destruct (ik_prev _ _ (proj2 (fw_items d Hwf p i Hi)) q Hq) as (iq & Hiq & _ & Hn).
  unfold item_num. by rewrite Hi, Hiq.
Qed.

(** Blocks with the same previous block have the same number. *)
Lemma same_previous_num d p q :
  fork_wf d → indexed d p → indexed d q → item_previous d p = item_previous d q → item_num d p = item_num d q.
Proof.
  intros Hwf (i & Hi & _) (j & Hj & _). unfold item_previous, item_num. rewrite Hi, Hj. simpl.
  rewrite (ik_num d i), (ik_num d j) by (by eapply fw_items). unfold previous_id, block_num. by intros ->.
Qed.

(** The numbers go down along a branch. *)
Lemma branch_elem d p l x :
  fork_wf d → branch d p l → x ∈ l → indexed d x ∧ item_num d x <= item_num d p.
Proof.
  intros Hwf Hb. revert x. induction Hb as [p Hp|p q l Hp Hl Hb IH]; intros x Hx.
  - apply list_elem_of_singleton in Hx as ->. split; [done|lia].
  - apply elem_of_cons in Hx as [->|Hx]; [split; [done|lia]|]. destruct (IH x Hx) as [? ?].
    pose proof (links_num d p q Hwf Hl). split; [done|lia].
Qed.

Lemma get_num d p : fork_wf d → indexed d p → ∃ i,
  get_item p d = Ok i ∧ items d !! p = Some i ∧ block_num (data i) = item_num d p ∧ previous (data i) = item_previous d p.
Proof.
  intros Hwf (i & Hi & _). exists i. split; [by apply get_item_Ok|]. split; [done|]. unfold item_num, item_previous.
  rewrite Hi. simpl. by rewrite (ik_num d i) by (by eapply fw_items).
Qed.

(** The first loops of [fetch_branch_from] stop at the wanted height. *)
Lemma climb_stop d held stop p acc fuel :
  fork_wf d → indexed d p → item_num d p <= stop → climb fuel held stop p acc d = Ok (p, acc).
Proof.
  intros Hwf Hp Hs. destruct (get_num d p Hwf Hp) as (i & Hget & _ & Hn & _).
  destruct fuel; simpl; rewrite Hget; simpl; by rewrite Hn, (proj2 (Z.ltb_ge _ _)) by lia.
Qed.

Lemma lock_link held d p q i :
  links d p q → items d !! p = Some i → indexed d q → lock held d (prev i) = Some q.
Proof. intros (i' & Hi' & Hq) Hi Hx. simplify_eq. rewrite Hq. simpl. by rewrite indexed_owned. Qed.

Lemma climb_branch d held stop p l acc fuel :
  fork_wf d → branch d p l → (∃ x, x ∈ l ∧ item_num d x <= stop) → (length l <= S fuel)%nat →
  ∃ l1 r l2, climb fuel held stop p acc d = Ok (r, acc ++ l1) ∧ l = l1 ++ l2 ∧ branch d r l2 ∧
    item_num d r = Z.min (item_num d p) stop ∧ (∀ x, x ∈ l1 → stop < item_num d x).
Proof.
  intros Hwf Hb. revert acc fuel. induction Hb as [p Hp|p q l Hp Hl Hb IH]; intros acc fuel (x & Hx & Hs) Hfuel.
  - apply list_elem_of_singleton in Hx as ->. exists [], p, [p]. rewrite app_nil_r.
    split_and!; [by apply climb_stop|done|by constructor|lia|by intros ? ?%elem_of_nil].
  - destruct (decide (item_num d p <= stop)) as [Hge|Hlt%Z.nle_gt].
    { exists [], p, (p :: l). rewrite app_nil_r.
      split_and!; [by apply climb_stop|done|by econstructor|lia|by intros ? ?%elem_of_nil]. }
    destruct (branch_head _ _ _ Hb) as [l' ->]. destruct fuel as [|fuel]; simpl in Hfuel; [lia|].
    assert (∃ x, x ∈ q :: l' ∧ item_num d x <= stop) as Hex.
    { apply elem_of_cons in Hx as [->|Hx]; [lia|by exists x]. }
    destruct (IH (acc ++ [p]) fuel Hex ltac:(simpl; lia)) as (l1 & r & l2 & Hc & Hl12 & Hr & Hnr & Hall).
    exists (p :: l1), r, l2. rewrite Hl12. split_and!; [|done|done| |].
    + destruct (get_num d p Hwf Hp) as (i & Hget & Hi & Hn & _). simpl. rewrite Hget. simpl. rewrite Hn, (proj2 (Z.ltb_lt _ _) Hlt).
      rewrite (lock_link _ d p q i) by (done || by eapply branch_indexed). simpl. rewrite Hc. by rewrite <- app_assoc.
    + pose proof (links_num d p q Hwf Hl). lia.
    + intros y Hy. apply elem_of_cons in Hy as [->|Hy]; [done|by apply Hall].
Qed.

(** Two blocks of two branches that have the same previous block. *)
Definition siblings (d : fdb) (x y : Z) : Prop := item_previous d x = item_previous d y.

#[global] Instance siblings_dec d x y : Decision (siblings d x y).
Proof. unfold siblings. apply _. Defined.

Lemma branch_below d p l x :
  fork_wf d → branch d p l → x ∈ l → x ≠ p →
  ∃ p' l', l = p :: l' ∧ links d p p' ∧ branch d p' l' ∧ x ∈ l' ∧ item_num d x < item_num d p.
Proof.
  intros Hwf Hb Hx Hne. destruct Hb as [p Hp|p p' l Hp Hl Hb].
  - by apply list_elem_of_singleton in Hx.
  - apply elem_of_cons in Hx as [?|Hx]; [done|]. exists p', l. split_and!; [done..|].
    pose proof (links_num d p p' Hwf Hl). destruct (branch_elem d p' l x Hwf Hb Hx). lia.
Qed.

(** Branches of the same height whose ends are not siblings meet below them. *)
Lemma common_below d p q lp lq x y :
  fork_wf d → branch d p lp → branch d q lq → item_num d p = item_num d q →
  x ∈ lp → y ∈ lq → siblings d x y → ¬ siblings d p q → x ≠ p ∧ y ≠ q.
Proof.
  intros Hwf Hp Hq Hn Hx Hy Hs Hns.
  destruct (branch_elem d p lp x Hwf Hp Hx) as [Hix _]. destruct (branch_elem d q lq y Hwf Hq Hy) as [Hiy _].
  pose proof (same_previous_num d x y Hwf Hix Hiy Hs) as Hnum.
  split; intros ->.
  - destruct (decide (y = q)) as [->|Hne]; [done|]. destruct (branch_below d q lq y) as (? & ? & ? & ? & ? & ? & ?); [done..|lia].
  - destruct (decide (x = p)) as [->|Hne]; [done|]. destruct (branch_below d p lp x) as (? & ? & ? & ? & ? & ? & ?); [done..|lia].
Qed.

Lemma meet_step d held p q acc acc' fuel :
  fork_wf d → indexed d p → indexed d q →
  meet fuel held p q acc acc' d =
    if decide (siblings d p q) then Ok (acc ++ [p], acc' ++ [q])
    else match fuel with
         | O => Throw fuel_exhausted
         | S fuel =>
             p' ← from_option_exn assert_exception (lock (held ++ (acc ++ [p]) ++ acc' ++ [q]) d (items d !! p ≫= prev));
             q' ← from_option_exn assert_exception (lock (held ++ (acc ++ [p]) ++ acc' ++ [q]) d (items d !! q ≫= prev));
             meet fuel held p' q' (acc ++ [p]) (acc' ++ [q]) d
         end.
Proof.
  intros Hwf Hp Hq. destruct (get_num d p Hwf Hp) as (i & Hget & Hi & _ & Hv). destruct (get_num d q Hwf Hq) as (j & Hget' & Hj & _ & Hv').
  unfold siblings. destruct fuel; simpl; rewrite Hget, Hget'; simpl; rewrite Hv, Hv', ?Hi, ?Hj; simpl;
    (destruct (decide _); [by rewrite bool_decide_eq_true_2|by rewrite bool_decide_eq_false_2]).
Qed.

Lemma elem_of_prefix (l : list Z) a l' x : x ∈ l ++ [a] → x ∈ l ++ a :: l'.
Proof. rewrite !elem_of_app, !elem_of_cons. intros [?|[?|?%elem_of_nil]]; tauto. Qed.

(** The third loop stops at the first siblings. *)
Lemma meet_branch d held p q lp lq acc acc' fuel :
  fork_wf d → branch d p lp → branch d q lq → item_num d p = item_num d q →
  (∃ x y, x ∈ lp ∧ y ∈ lq ∧ siblings d x y) → (length lp <= S fuel)%nat →
  ∃ l1 a l2 r1 b r2, meet fuel held p q acc acc' d = Ok (acc ++ l1 ++ [a], acc' ++ r1 ++ [b]) ∧
    lp = l1 ++ a :: l2 ∧ lq = r1 ++ b :: r2 ∧ siblings d a b ∧
    (∀ x y, x ∈ l1 ++ [a] → y ∈ r1 ++ [b] → siblings d x y → x = a ∧ y = b).
Proof.
  intros Hwf. revert p q lp lq acc acc'. induction fuel as [|fuel IH]; intros p q lp lq acc acc' Hp Hq Hn (x & y & Hx & Hy & Hs) Hfuel;
    rewrite meet_step by (done || by eapply branch_indexed);
    destruct (decide (siblings d p q)) as [Hpq|Hpq].
  1,3: destruct (branch_head _ _ _ Hp) as [l' ->], (branch_head _ _ _ Hq) as [l'' ->]; exists [], p, l', [], q, l'';
    split_and!; [done..|]; intros ?? ->%list_elem_of_singleton ->%list_elem_of_singleton; done.
  all: destruct (common_below d p q lp lq x y) as [Hxp Hyq]; [done..|].
  all: destruct (branch_below d p lp x) as (p' & lp' & -> & Hl & Hp' & Hx' & Hxn); [done..|].
  all: destruct (branch_below d q lq y) as (q' & lq' & -> & Hl' & Hq' & Hy' & Hyn); [done..|].
  - destruct (branch_head _ _ _ Hp') as [l' ->]. simpl in Hfuel. lia.
  - pose proof (links_num _ _ _ Hwf Hl). pose proof (links_num _ _ _ Hwf Hl').
    destruct (IH p' q' lp' lq' (acc ++ [p]) (acc' ++ [q])) as (l1 & a & l2 & r1 & b & r2 & Hm & Hl1 & Hr1 & Hab & Huniq);
      [done|done|lia|by exists x, y|simpl in Hfuel; lia|].
    exists (p :: l1), a, l2, (q :: r1), b, r2. rewrite Hl1, Hr1. split_and!; [|done..|].
    + destruct (get_num d p Hwf (branch_indexed _ _ _ Hp)) as (i & _ & Hi & _). destruct (get_num d q Hwf (branch_indexed _ _ _ Hq)) as (j & _ & Hj & _).
      rewrite Hi, Hj. simpl. rewrite (lock_link _ d p p' i), (lock_link _ d q q' j) by (done || by eapply branch_indexed). simpl.
      rewrite Hm. by rewrite <- !app_assoc.
    + intros u v Hu Hv Huv. destruct (common_below d p q (p :: lp') (q :: lq') u v) as [Hup Hvq]; [done..| | |done|done|].
      * rewrite Hl1. by apply (elem_of_prefix (p :: l1)).
      * rewrite Hr1. by apply (elem_of_prefix (q :: r1)).
      * apply elem_of_cons in Hu as [?|Hu]; [done|]. apply elem_of_cons in Hv as [?|Hv]; [done|]. by apply Huniq.
Qed.

Lemma branch_length d p l : fork_wf d → branch d p l → Z.of_nat (length l) <= item_num d p + 1.
Proof.
  intros Hwf. induction 1 as [p Hp|p q l Hp Hl Hb IH]; simpl.
  - destruct (get_num d p Hwf Hp) as (i & _ & _ & <- & _). pose proof (block_num_in (data i)). mlia.
  - pose proof (links_num d p q Hwf Hl). lia.
Qed.

(** Blocks of different heights are not siblings: only the ends of two branches
    can be, once the starts are above them. *)
Lemma siblings_above d n (l1 l2 r1 r2 : list Z) x y :
  fork_wf d → indexed d x → indexed d y →
  (∀ z, z ∈ l1 → n < item_num d z) → (∀ z, z ∈ r1 → n < item_num d z) →
  (∀ z, z ∈ l2 → item_num d z <= n) → (∀ z, z ∈ r2 → item_num d z <= n) →
  (∀ u v, u ∈ l1 → v ∈ r1 → item_num d v < item_num d u) →
  x ∈ l1 ++ l2 → y ∈ r1 ++ r2 → siblings d x y → x ∈ l2 ∧ y ∈ r2.
Proof.
  intros Hwf Hix Hiy Hl Hr Hl2 Hr2 Hor Hx Hy Hs. pose proof (same_previous_num d x y Hwf Hix Hiy Hs) as Hn.
  apply elem_of_app in Hx as [Hx|Hx], Hy as [Hy|Hy]; [..|done].
  - specialize (Hor x y Hx Hy). lia.
  - specialize (Hl x Hx). specialize (Hr2 y Hy). lia.
  - specialize (Hr y Hy). specialize (Hl2 x Hx). lia.
Qed.

Lemma elem_of_start (l1 l : list Z) a l' x : x ∈ l1 ++ l ++ [a] → x ∈ l1 ++ l ++ a :: l'.
Proof. rewrite !(assoc_L (++)). apply elem_of_prefix. Qed.

(** The two results: each the start of its branch, up to the first siblings. *)
Lemma fetch_branch_parts held d first second p q lp lq :
  fork_wf d →
  index d !! first = Some p → branch d p lp →
  index d !! second = Some q → branch d q lq →
  (∃ x y, x ∈ lp ∧ y ∈ lq ∧ siblings d x y) →
  ∃ l a r b, fetch_branch_from held first second d = Ok (l ++ [a], r ++ [b]) ∧
    l ++ [a] `prefix_of` lp ∧ r ++ [b] `prefix_of` lq ∧ siblings d a b ∧
    (∀ x y, x ∈ l ++ [a] → y ∈ r ++ [b] → siblings d x y → x = a ∧ y = b).
Proof.
  intros Hwf Hfirst Hp Hsecond Hq (x & y & Hx & Hy & Hs).
  pose proof (branch_indexed _ _ _ Hp) as Hip. pose proof (branch_indexed _ _ _ Hq) as Hiq.
  destruct (branch_elem d p lp x Hwf Hp Hx) as [Hix Hxn]. destruct (branch_elem d q lq y Hwf Hq Hy) as [Hiy Hyn].
  pose proof (same_previous_num d x y Hwf Hix Hiy Hs) as Hnum.
  pose proof (branch_length d p lp Hwf Hp). pose proof (branch_length d q lq Hwf Hq).
  destruct (get_num d p Hwf Hip) as (i & Hgp & _ & Hnp & _). destruct (get_num d q Hwf Hiq) as (j & Hgq & _ & Hnq & _).
  unfold fetch_branch_from. rewrite Hfirst, Hsecond. cbn [from_option_exn]. rewrite !Ok_bind, Hgp, Ok_bind, Hgq, Ok_bind, Hnp, Hnq.
  set (fuel := S _). assert (0 <= item_num d p ∧ 0 <= item_num d q) as Hpos.
  { rewrite <- Hnp, <- Hnq. pose proof (block_num_in (data i)). pose proof (block_num_in (data j)). mlia. }
  destruct (climb_branch d (held ++ [q]) (item_num d q) p lp [] fuel) as (l1 & p' & l2 & -> & -> & Hp' & Hn1 & Hup);
    [done|done|exists x; split; [done|lia]|lia|]. rewrite Ok_bind. cbn [app].
  destruct (get_num d p' Hwf (branch_indexed _ _ _ Hp')) as (i' & Hgp' & _ & Hnp' & _). rewrite Hgp', Ok_bind, Hnp'.
  destruct (climb_branch d (held ++ l1 ++ [p']) (item_num d p') q lq [] fuel) as (r1 & q' & r2 & -> & -> & Hq' & Hn2 & Huq);
    [done|done|exists y; split; [done|lia]|lia|]. rewrite Ok_bind. cbn [app].
  apply elem_of_app in Hx as [Hx%Hup|Hx]; [lia|]. apply elem_of_app in Hy as [Hy%Huq|Hy]; [lia|].
  rewrite !length_app in *.
  destruct (meet_branch d held p' q' l2 r2 l1 r1 fuel) as (l & a & l3 & r & b & r3 & -> & -> & -> & Hab & Huniq);
    [done..|lia|by exists x, y|lia|].
  exists (l1 ++ l), a, (r1 ++ r), b. rewrite <- !app_assoc. split_and!; [done| | |done|].
  - exists l3. by rewrite <- !app_assoc.
  - exists r3. by rewrite <- !app_assoc.
  - intros u v Hu Hv Huv.
    destruct (branch_elem d p _ u Hwf Hp (elem_of_start _ _ _ l3 _ Hu)) as [Hiu _].
    destruct (branch_elem d q _ v Hwf Hq (elem_of_start _ _ _ r3 _ Hv)) as [Hiv _].
    destruct (siblings_above d (item_num d p') l1 (l ++ [a]) r1 (r ++ [b]) u v) as [Hu' Hv'];
      [done|done|done|intros z Hz%Hup; lia|done| | | |done|done|done|by apply Huniq].
    + intros z Hz. by destruct (branch_elem d p' _ z Hwf Hp' (elem_of_prefix _ _ l3 _ Hz)).
    + intros z Hz. destruct (branch_elem d q' _ z Hwf Hq' (elem_of_prefix _ _ r3 _ Hz)). lia.
    + intros z z' Hz%Hup Hz'. destruct (branch_elem d q (r1 ++ r ++ b :: r3) z' Hwf Hq); [apply elem_of_app; by left|lia].
Qed.

(** [fetch_branch_from] on two known blocks whose branches, as far as they
    are in the index, contain blocks with the same previous block returns (the
    loops terminate within their fuel and no assertion fires), and what it
    returns leads back to the most recent such pair: each result is the start of
    its branch, the results end in blocks with the same previous block, and no
    other pair of their blocks has one. *)
Theorem fetch_branch_from_spec held d first second p q lp lq :
  fork_wf d →
  index d !! first = Some p → branch d p lp →
  index d !! second = Some q → branch d q lq →
  (∃ x y, x ∈ lp ∧ y ∈ lq ∧ siblings d x y) →
  ∃ l a r b, fetch_branch_from held first second d = Ok (l ++ [a], r ++ [b]) ∧
    l ++ [a] `prefix_of` lp ∧ r ++ [b] `prefix_of` lq ∧ siblings d a b ∧
    (∀ x y, x ∈ l ++ [a] → y ∈ r ++ [b] → siblings d x y → x = a ∧ y = b).
Proof. apply fetch_branch_parts. Qed.

(** ** Termination *)

Lemma prev_num d p i q :
  fork_wf d → items d !! p = Some i → prev i = Some q → ∃ iq, items d !! q = Some iq ∧ num i = num iq + 1.
Proof.
  intros Hwf Hi Hq. destruct (ik_prev _ _ (proj2 (fw_items d Hwf p i Hi)) q Hq) as (iq & ? & _ & ?). by exists iq.
Qed.

Lemma num_range d p i : fork_wf d → items d !! p = Some i → num i = block_num (data i) ∧ 0 <= num i.
Proof.
  intros Hwf Hi. pose proof (ik_num _ _ (proj2 (fw_items d Hwf p i Hi))) as Hn. pose proof (block_num_in (data i)).
  split; [done|]. rewrite Hn. mlia.
Qed.

Lemma lock_Some held d w q : lock held d w = Some q → w = Some q.
Proof. unfold lock. destruct w; simpl; [|done]. by case_match; simplify_eq. Qed.

#[global] Instance no_fuel_get p d : NoFuel (get_item p d).
Proof. by apply no_fuel_option. Qed.

Lemma climb_no_fuel d held stop p acc fuel :
  fork_wf d → item_num d p < Z.of_nat fuel → NoFuel (climb fuel held stop p acc d).
Proof.
  intros Hwf. revert p acc. induction fuel as [|fuel IH]; intros p acc Hf; unfold item_num in Hf; simpl;
    unfold get_item; destruct (items d !! p) as [i|] eqn:Hi; simpl in Hf |- *; [|done| |done].
  - pose proof (num_range d p i Hwf Hi). lia.
  - case_match; [|done]. destruct (lock _ d (prev i)) as [q|] eqn:Hq; simpl; [|done]. apply lock_Some in Hq.
    destruct (prev_num d p i q Hwf Hi Hq) as (iq & Hiq & ?). apply IH. unfold item_num. rewrite Hiq. simpl. lia.
Qed.

Lemma meet_no_fuel d held p q acc acc' fuel :
  fork_wf d → item_num d p < Z.of_nat fuel → NoFuel (meet fuel held p q acc acc' d).
Proof.
  intros Hwf. revert p q acc acc'. induction fuel as [|fuel IH]; intros p q acc acc' Hf; unfold item_num in Hf; simpl;
    unfold get_item; destruct (items d !! p) as [i|] eqn:Hi; simpl in Hf |- *; [|done| |done];
    (apply no_fuel_bind; [by apply no_fuel_option|]); intros j; case_match; try done.
  - pose proof (num_range d p i Hwf Hi). lia.
  - destruct (lock _ d (prev i)) as [p'|] eqn:Hp; simpl; [|done]. apply lock_Some in Hp.
    apply no_fuel_bind; [by apply no_fuel_option|]. intros q'. apply IH.
    destruct (prev_num d p i p' Hwf Hi Hp) as (iq & Hiq & ?). unfold item_num. rewrite Hiq. simpl. lia.
Qed.

Lemma walk_back_no_fuel d n p fuel :
  fork_wf d → item_num d p < Z.of_nat fuel → NoFuel (walk_back fuel n (Some p) d).
Proof.
  intros Hwf. revert p. induction fuel as [|fuel IH]; intros p Hf; unfold item_num in Hf; simpl;
    unfold get_item; destruct (items d !! p) as [i|] eqn:Hi; simpl in Hf |- *; [|done| |done].
  - pose proof (num_range d p i Hwf Hi). lia.
  - case_match; [|done]. destruct (lock _ d (prev i)) as [q|] eqn:Hq; [|by destruct fuel]. apply lock_Some in Hq.
    destruct (prev_num d p i q Hwf Hi Hq) as (iq & Hiq & ?). apply IH. unfold item_num. rewrite Hiq. simpl. lia.
Qed.

Lemma climb_down d held stop p acc fuel r l :
  fork_wf d → climb fuel held stop p acc d = Ok (r, l) → item_num d r <= item_num d p.
Proof.
  intros Hwf. revert p acc. induction fuel as [|fuel IH]; intros p acc; simpl; unfold get_item;
    destruct (items d !! p) as [i|] eqn:Hi; simpl; [|done| |done]; (case_match; [|intros [= -> _]; lia]); [done|].
  destruct (lock _ d (prev i)) as [q|] eqn:Hq; simpl; [|done]. apply lock_Some in Hq. intros Hc%IH.
  destruct (prev_num d p i q Hwf Hi Hq) as (iq & Hiq & ?). unfold item_num in *. rewrite Hi, Hiq in *. simpl in *. lia.
Qed.

(** The loops of the fork database end: on a well-formed database the walks
    along the links never run out of the steps they are given, whatever they are
    asked for and whichever items were removed. *)
Theorem fork_walks_end held d first second n :
  fork_wf d →
  NoFuel (fetch_branch_from held first second d) ∧ NoFuel (fetch_block_on_main_branch_by_number n d).
Proof.
  intros Hwf. split.
  - unfold fetch_branch_from. apply no_fuel_bind; [by apply no_fuel_option|intros p]. apply no_fuel_bind; [by apply no_fuel_option|intros q].
    unfold get_item. destruct (items d !! p) as [i|] eqn:Hi; [|done]. destruct (items d !! q) as [j|] eqn:Hj; [|done]. cbn [from_option_exn].
    rewrite !Ok_bind. destruct (num_range d p i Hwf Hi) as [<- ?], (num_range d q j Hwf Hj) as [<- ?].
    assert (item_num d p = num i) as Hp by (unfold item_num; by rewrite Hi).
    assert (item_num d q = num j) as Hq by (unfold item_num; by rewrite Hj).
    set (fuel := S _). assert (num i + num j < Z.of_nat fuel) as Hf by (unfold fuel; lia). clearbody fuel.
    pose proof (climb_no_fuel d (held ++ [q]) (num j) p [] fuel Hwf ltac:(lia)) as Hc.
    destruct (climb fuel _ _ p [] d) as [[p' l]|e] eqn:Hcp; [|by intros [= ->]]. rewrite Ok_bind. apply (climb_down _ _ _ _ _ _ _ _ Hwf) in Hcp.
    apply no_fuel_bind; [by apply no_fuel_option|intros ip]. apply no_fuel_bind; [apply climb_no_fuel; [done|lia]|].
    intros [q' r]. apply meet_no_fuel; [done|lia].
  - unfold fetch_block_on_main_branch_by_number. assert (NoFuel (walk_main_branch_to_num n d)) as Hw; [|by repeat case_match].
    unfold walk_main_branch_to_num. apply no_fuel_bind; [by apply no_fuel_option|intros p]. unfold get_item.
    destruct (items d !! p) as [i|] eqn:Hi; [|done]. cbn [from_option_exn]. rewrite Ok_bind.
    case_match; [done|]. apply walk_back_no_fuel; [done|].
    unfold item_num. rewrite Hi. simpl. lia.
Qed.

(** ** Blocks by number *)

Lemma fetch_block_by_number_spec d n p :
  fork_wf d → p ∈ fetch_block_by_number n d ↔ indexed d p ∧ item_num d p = n.
Proof.
  intros Hwf. unfold fetch_block_by_number, indexed, item_num. rewrite list_elem_of_omap. split.
  - intros ([x q] & Hx & Hp). apply elem_of_map_to_list in Hx. destruct (fw_index d Hwf x q Hx) as (i & Hi & Hid).
    simpl in Hp. rewrite Hi in Hp. simpl in Hp. case_match; [|done]. simplify_eq. bools. split; [by exists i|]. by rewrite Hi.
  - intros [(i & Hi & Hx) Hn]. exists (id i, p). split; [by apply elem_of_map_to_list|]. simpl. rewrite Hi in Hn |- *. simpl in *.
    by rewrite (proj2 (Z.eqb_eq _ _) Hn).
Qed.

Lemma walk_back_branch d n p l x fuel :
  fork_wf d → branch d p l → x ∈ l → item_num d x = n → (length l <= S fuel)%nat → walk_back fuel n (Some p) d = Ok (Some x).
Proof.
  intros Hwf Hb. revert fuel. induction Hb as [p Hp|p q l Hp Hl Hb IH]; intros fuel Hx Hn Hf;
    destruct (get_num d p Hwf Hp) as (i & Hget & Hi & _);
    (assert (num i = item_num d p) as Hni by (unfold item_num; by rewrite Hi)).
  - apply list_elem_of_singleton in Hx as ->. destruct fuel; simpl; rewrite Hget; simpl; by rewrite Hni, Hn, Z.ltb_irrefl.
  - apply elem_of_cons in Hx as [->|Hx]; [destruct fuel; simpl; rewrite Hget; simpl; by rewrite Hni, Hn, Z.ltb_irrefl|].
    destruct (branch_head _ _ _ Hb) as [l' ->]. destruct fuel as [|fuel]; simpl in Hf; [lia|].
    pose proof (links_num d p q Hwf Hl). destruct (branch_elem d q _ x Hwf Hb Hx) as [_ ?].
    simpl. rewrite Hget. simpl. rewrite Hni, (proj2 (Z.ltb_lt _ _)) by lia.
    rewrite (lock_link _ d p q i) by (done || by eapply branch_indexed). apply IH; [done..|simpl; lia].
Qed.

(** [fetch_block_on_main_branch_by_number] finds the blocks of the current
    fork: every block of the branch of the head that is still in the index is
    what its number is looked up to, also when other forks have blocks of that
    number. *)
Theorem main_branch_by_number d h l x :
  fork_wf d → head d = Some h → branch d h l → x ∈ l →
  fetch_block_on_main_branch_by_number (item_num d x) d = Ok (Some x).
Proof.
  intros Hwf Hh Hb Hx. destruct (branch_elem d h l x Hwf Hb Hx) as [Hix Hnx].
  unfold fetch_block_on_main_branch_by_number.
  pose proof (proj2 (fetch_block_by_number_spec d _ x Hwf) (conj Hix eq_refl)) as Hin.
  destruct (fetch_block_by_number _ d) as [|y [|z ys]]; [by apply elem_of_nil in Hin|by apply list_elem_of_singleton in Hin as ->|].
  unfold walk_main_branch_to_num. rewrite Hh. cbn [from_option_exn]. rewrite Ok_bind.
  destruct (get_num d h Hwf (branch_indexed _ _ _ Hb)) as (i & -> & Hi & _). rewrite Ok_bind.
  assert (num i = item_num d h) as Hni by (unfold item_num; by rewrite Hi). rewrite Hni, (proj2 (Z.ltb_ge _ _)) by lia.
  apply (walk_back_branch d _ h l); [done..|]. pose proof (branch_length d h l Hwf Hb). lia.
Qed.

(** ** Sequences of operations *)

Inductive fork_op : Type :=
| PushBlock (b : block)
| PopBlock
| StartBlock (b : block)
| Reset
| Remove (x : block_id)
| SetHead (p : Z)             (* a pointer the caller has *)
| SetMaxSize (s : Z).

Definition run_fork_op (d : fdb) (op : fork_op) : res fdb :=
  match op with
  | PushBlock b => fork_push_block b d
  | PopBlock => fork_pop_block [] d
  | StartBlock b => mret (start_block b d)
  | Reset => mret (reset d)
  | Remove x => mret (remove x d)
  | SetHead p => _ ← get_item p d; mret (set_head (Some p) d)
  | SetMaxSize s => mret (set_max_size s d)
  end.

(** An operation that throws does nothing. *)
Definition try_fork_op (d : fdb) (op : fork_op) : fdb :=
  match run_fork_op d op with Ok d => d | Throw _ => d end.

Lemma run_fork_op_wf d op d' : fork_wf d → run_fork_op d op = Ok d' → fork_wf d'.
Proof.
  intros Hwf Hop. destruct op; simpl in Hop.
  - by apply (fork_push_block_Ok b d).
  - by apply (fork_pop_block_wf [] d).
  - res_inv. by apply start_block_wf.
  - res_inv. by apply reset_wf.
  - res_inv. by apply remove_wf.
  - apply bind_Ok in Hop as (i & Hi & Hop). res_inv. apply set_head_wf; [done|]. apply get_item_Ok in Hi. by exists i.
  - res_inv. by apply set_max_size_wf.
Qed.

Lemma try_fork_ops_wf (ops : list fork_op) d : fork_wf d → fork_wf (foldl try_fork_op d ops).
Proof.
  revert d. induction ops as [|op ops IH]; intros d Hwf; simpl; [done|]. apply IH. unfold try_fork_op.
  destruct (run_fork_op d op) eqn:Hop; [|done]. by apply (run_fork_op_wf d op).
Qed.

(** C29: whatever is done to it, the fork database is a forest of blocks: every
    item carries the id and the number of its block, and its link, if it has
    one, leads to the block its block names as the previous one, whose number is
    one less, so a link never leads back and a number never wraps around. *)
Theorem fork_forest (ops : list fork_op) : fork_wf (foldl try_fork_op empty_fork_db ops).
Proof. apply try_fork_ops_wf, fork_wf_empty. Qed.

(** ** The choice of the head *)

(** Pushes blocks one after the other; those that are refused are dropped. *)
Fixpoint push_each (bs : list block) (d : fdb) : fdb * list block :=
  match bs with
  | [] => (d, [])
  | b :: bs =>
      match fork_push_block b d with
      | Ok d' => let '(d', accepted) := push_each bs d' in (d', b :: accepted)
      | Throw _ => push_each bs d
      end
  end.

Lemma push_each_wf bs d : fork_wf d → fork_wf (push_each bs d).1.
Proof.
  revert d. induction bs as [|b bs IH]; intros d Hwf; simpl; [done|].
  destruct (fork_push_block b d) as [d1|e] eqn:Hp; [|by apply IH].
  specialize (IH d1 (proj2 (fork_push_block_Ok b d d1 Hwf Hp))). by destruct (push_each bs d1).
Qed.

(** The longest chain rule: the first block of the greatest number. *)
Definition first_highest (b : block) (bs : list block) : block :=
  foldl (λ best b, if block_num best <? block_num b then b else best) b bs.

Definition head_block (d : fdb) : option block := h ← head d; i ← items d !! h; Some (data i).

Lemma head_block_num d b : fork_wf d → head_block d = Some b → head_num d = Some (block_num b).
Proof.
  intros Hwf. unfold head_block, head_num. destruct (head d) as [h|]; simpl; [|done].
  destruct (items d !! h) as [i|] eqn:Hi; simpl; [|done]. intros [= <-]. by destruct (num_range d h i Hwf Hi) as [-> _].
Qed.

Lemma pushed_items b d p i : fork_wf d → items d !! p = Some i → items (pushed b d) !! p = Some i.
Proof. intros Hwf Hi. simpl. rewrite lookup_insert_ne; [done|]. intros <-. by rewrite (fresh_item d Hwf) in Hi. Qed.

Lemma pushed_new b d :
  items (pushed b d) !! next_item d =
    Some (ForkItem (match head d with Some _ => parent_of b d | None => None end) (block_num b) false (block_id_of b) b).
Proof. apply lookup_insert_eq. Qed.

Lemma pushed_head b d :
  head (pushed b d) =
    match head_num d with Some n => if n <? block_num b then Some (next_item d) else head d | None => Some (next_item d) end.
Proof. done. Qed.

Lemma pushed_head_block b0 b d :
  fork_wf d → head_block d = Some b0 → head_block (pushed b d) = Some (if block_num b0 <? block_num b then b else b0).
Proof.
  intros Hwf Hb. unfold head_block at 1. rewrite pushed_head, (head_block_num d b0 Hwf Hb).
  destruct (block_num b0 <? block_num b).
  - cbn [mbind option_bind]. by rewrite pushed_new.
  - unfold head_block in Hb. destruct (head d) as [h|] eqn:Hh; [|discriminate Hb]. cbn [mbind option_bind] in *.
    destruct (items d !! h) as [i|] eqn:Hi; [|discriminate Hb]. by rewrite (pushed_items b d h i Hwf Hi).
Qed.

Lemma pushed_known b d x :
  is_Some (index (pushed b d) !! x) ↔ is_Some (index d !! x) ∨ x = block_id_of b.
Proof.
  simpl. destruct (index d !! block_id_of b) eqn:Hb.
  - split; [by left|]. intros [?| ->]; [done|]. by rewrite Hb.
  - destruct (decide (x = block_id_of b)) as [->|Hne].
    + rewrite lookup_insert_eq. split; [by right|by eexists].
    + rewrite lookup_insert_ne by done. naive_solver.
Qed.

(** Every known block has a branch of known blocks down to [b0] or to a block
    that has no previous one. *)
Definition rooted (b0 : block) (d : fdb) : Prop :=
  ∀ x p, index d !! x = Some p → ∃ l r i, branch d p (l ++ [r]) ∧ items d !! r = Some i ∧
    (data i = b0 ∨ previous (data i) = null_id).

Lemma pushed_indexed b d p : fork_wf d → indexed d p → indexed (pushed b d) p.
Proof.
  intros Hwf (i & Hi & Hx). exists i. split; [by apply pushed_items|]. simpl. destruct (index d !! block_id_of b) eqn:Hb; [done|].
  rewrite lookup_insert_ne; [done|]. intros Heq. by rewrite Heq, Hx in Hb.
Qed.

Lemma pushed_branch b d p l : fork_wf d → branch d p l → branch (pushed b d) p l.
Proof.
  intros Hwf. induction 1 as [p Hp|p q l Hp (i & Hi & Hq) Hb IH].
  - constructor. by apply pushed_indexed.
  - apply branch_cons with q; [by apply pushed_indexed| |done]. exists i. split; [by apply pushed_items|done].
Qed.

Lemma pushed_rooted b0 b d :
  fork_wf d → is_Some (head d) → (previous b = null_id ∨ is_Some (index d !! previous b)) →
  rooted b0 d → rooted b0 (pushed b d).
Proof.
  intros Hwf [h Hh] Hlink Hr x p Hx.
  assert (index d !! x = Some p ∨ p = next_item d ∧ index (pushed b d) !! block_id_of b = Some p) as [Hold|[-> Hnew]].
  { simpl in *. destruct (index d !! block_id_of b) eqn:Hb; [by left|]. destruct (decide (x = block_id_of b)) as [->|Hne].
    - right. rewrite lookup_insert_eq in Hx |- *. by simplify_eq.
    - left. by rewrite lookup_insert_ne in Hx by done. }
  - destruct (Hr x p Hold) as (l & r & i & Hb & Hi & Hor). exists l, r, i.
    split; [by apply pushed_branch|]. split; [by apply pushed_items|done].
  - set (i := ForkItem (parent_of b d) (block_num b) false (block_id_of b) b).
    assert (items (pushed b d) !! next_item d = Some i) as Hi by (simpl; rewrite Hh; apply lookup_insert_eq).
    assert (indexed (pushed b d) (next_item d)) as Hix by (by exists i).
    destruct (decide (previous b = null_id)) as [Hnull|Hne].
    { exists [], (next_item d), i. split; [by constructor|]. split; [done|]. by right. }
    destruct Hlink as [?|[q Hq]]; [done|]. destruct (Hr _ _ Hq) as (l & r & j & Hb & Hj & Hor).
    exists (next_item d :: l), r, j. split; [|split; [by apply pushed_items|done]].
    simpl. apply branch_cons with q; [done| |by apply pushed_branch]. exists i. split; [done|].
    simpl. unfold parent_of. by rewrite bool_decide_eq_false_2.
Qed.

Lemma push_each_spec b0 bs d b :
  fork_wf d → rooted b0 d → head_block d = Some b →
  let '(d', accepted) := push_each bs d in
  fork_wf d' ∧ rooted b0 d' ∧ head_block d' = Some (first_highest b accepted) ∧
  (∀ x, is_Some (index d' !! x) ↔ is_Some (index d !! x) ∨ x ∈ block_id_of <$> accepted).
Proof.
  revert d b. induction bs as [|b1 bs IH]; intros d b Hwf Hr Hb; simpl.
  { split_and!; [done..|]. intros x. rewrite elem_of_nil. naive_solver. }
  destruct (fork_push_block b1 d) as [d1|e] eqn:Hpush; [|by apply IH].
  pose proof (fork_push_block_link b1 d d1 _ Hwf (head_block_num d b Hwf Hb) Hpush) as [_ Hlink].
  destruct (fork_push_block_Ok b1 d d1 Hwf Hpush) as [-> Hwf1].
  assert (rooted b0 (pushed b1 d)) as Hr1.
  { apply pushed_rooted; [done| |done..]. unfold head_block in Hb. destruct (head d); [done|discriminate Hb]. }
  specialize (IH (pushed b1 d) _ Hwf1 Hr1 (pushed_head_block b b1 d Hwf Hb)).
  destruct (push_each bs (pushed b1 d)) as [d' acc]. destruct IH as (Hwf' & Hr' & Hh & Hx).
  split_and!; [done..|]. intros x. rewrite Hx, pushed_known, fmap_cons, elem_of_cons. tauto.
Qed.

(** C28: pushing any blocks onto a start block makes a tree of them, and its head
    is the one the longest chain rule names: of the accepted blocks, the first
    of the greatest number.  The index has exactly the ids of the accepted
    blocks, and from each of them a branch of known blocks leads down to the
    start block or to a block without a previous one.  However many blocks are pushed,
    pushing removes none of them (against the comment of the class, which lets
    forks be lopped off beyond a depth of 1024); only [set_max_size] does. *)
Theorem fork_choice b0 bs :
  let '(d, accepted) := push_each bs (start_block b0 empty_fork_db) in
  head_block d = Some (first_highest b0 accepted) ∧
  (∀ x, is_Some (index d !! x) ↔ x ∈ block_id_of <$> b0 :: accepted) ∧
  rooted b0 d.
Proof.
  assert (fork_wf (start_block b0 empty_fork_db)) as Hwf by apply start_block_wf, fork_wf_empty.
  assert (index (start_block b0 empty_fork_db) = {[block_id_of b0 := 0]}) as Hidx.
  { unfold start_block, index_insert. simpl. by rewrite lookup_empty. }
  assert (items (start_block b0 empty_fork_db) !! 0 = Some (ForkItem None (block_num b0) false (block_id_of b0) b0)) as Hit by done.
  assert (rooted b0 (start_block b0 empty_fork_db)) as Hr.
  { intros x p Hx. rewrite Hidx in Hx. apply lookup_singleton_Some in Hx as [<- <-]. eexists [], 0, _.
    split; [|split; [exact Hit|by left]]. constructor. eexists. split; [exact Hit|]. rewrite Hidx. apply lookup_singleton_eq. }
  pose proof (push_each_spec b0 bs (start_block b0 empty_fork_db) b0 Hwf Hr eq_refl) as Hs.
  destruct (push_each bs _) as [d acc]. destruct Hs as (_ & Hr' & Hh & Hx). split_and!; [done| |done].
  intros x. rewrite Hx, Hidx, fmap_cons, elem_of_cons, lookup_singleton_is_Some. naive_solver.
Qed.

End ForkDatabase.

(** ** Examples *)

Module ForkExample.

(** Blocks that carry a number, which is also what their id keeps of the hash. *)
#[export] Instance example_hash : BlockHash Z := λ b, content b.

Definition genesis : signed_block Z := SignedBlock (endian_reverse_u32 6, 0) 100.
Definition on (b : signed_block Z) (c : Z) : signed_block Z := SignedBlock (block_id_of b) c.

(** Two forks of block 7: 8 and 9 on one, 8, 9 and 10 on the other. *)
Definition left_fork : list (signed_block Z) := [on genesis 101; on (on genesis 101) 102].
Definition right_fork : list (signed_block Z) :=
  let a := on genesis 201 in let b := on a 202 in [a; b; on b 203].

Definition forked : fork_database Z := (push_each (left_fork ++ right_fork) (start_block genesis empty_fork_db)).1.

Definition left_tip : block_id := (endian_reverse_u32 9, 102).
Definition right_tip : block_id := (endian_reverse_u32 10, 203).

Example forked_numbers : num_from_id left_tip = 9 ∧ head forked = Some 5 ∧ item_num forked 5 = 10.
Proof. by vm_compute. Qed.

(** The tree has a head of number 10; two blocks of number 9, one of them on the
    branch of the head. *)
Example forked_by_number : fetch_block_on_main_branch_by_number 9 forked = Ok (Some 4).
Proof. by vm_compute. Qed.

Lemma forked_indexed p : p ∈ [0; 1; 2; 3; 4; 5] → indexed forked p.
Proof.
  intros Hp. repeat (apply elem_of_cons in Hp as [->|Hp]; [eexists; by vm_compute|]). by apply elem_of_nil in Hp.
Qed.

Lemma forked_links : links forked 2 1 ∧ links forked 1 0 ∧ links forked 5 4 ∧ links forked 4 3 ∧ links forked 3 0.
Proof. split_and!; eexists; by vm_compute. Qed.

Lemma forked_wf : fork_wf forked.
Proof. apply push_each_wf, start_block_wf, fork_wf_empty. Qed.

Lemma forked_left : branch forked 2 [2; 1; 0].
Proof.
  destruct forked_links as (? & ? & _). apply branch_cons with 1; [apply forked_indexed; set_solver|done|].
  apply branch_cons with 0; [apply forked_indexed; set_solver|done|]. constructor. apply forked_indexed. set_solver.
Qed.

Lemma forked_right : branch forked 5 [5; 4; 3; 0].
Proof.
  destruct forked_links as (_ & _ & ? & ? & ?). apply branch_cons with 4; [apply forked_indexed; set_solver|done|].
  apply branch_cons with 3; [apply forked_indexed; set_solver|done|].
  apply branch_cons with 0; [apply forked_indexed; set_solver|done|]. constructor. apply forked_indexed. set_solver.
Qed.

Lemma fetch_branch_from_spec_witness :
  ∃ l a r b, fetch_branch_from [] right_tip left_tip forked = Ok (l ++ [a], r ++ [b]) ∧
    l ++ [a] `prefix_of` [5; 4; 3; 0] ∧ r ++ [b] `prefix_of` [2; 1; 0] ∧ siblings forked a b ∧
    (∀ x y, x ∈ l ++ [a] → y ∈ r ++ [b] → siblings forked x y → x = a ∧ y = b).
Proof.
  apply (fetch_branch_from_spec [] forked right_tip left_tip 5 2); [exact forked_wf|by vm_compute|exact forked_right|
    by vm_compute|exact forked_left|].
  exists 3, 1. split_and!; [set_solver|set_solver|by vm_compute].
Defined.

Example forked_branches : fetch_branch_from [] right_tip left_tip forked = Ok ([5; 4; 3], [2; 1]).
Proof. by vm_compute. Qed.

Lemma fork_walks_end_witness :
  NoFuel (fetch_branch_from [] right_tip left_tip forked) ∧ NoFuel (fetch_block_on_main_branch_by_number 8 forked).
Proof. apply (fork_walks_end [] forked right_tip left_tip 8). exact forked_wf. Defined.

Lemma main_branch_by_number_witness : fetch_block_on_main_branch_by_number (item_num forked 3) forked = Ok (Some 3).
Proof. apply (main_branch_by_number forked 5 [5; 4; 3; 0] 3); [exact forked_wf|by vm_compute|exact forked_right|set_solver]. Defined.

End ForkExample.
