(* ===== verification/ForkSwitch.v ===== *)
(** * Pushing blocks and switching forks

    libraries/chain/database.cpp: [_push_block], [pop_block],
    [migrate_irreversible_state] and the undo sessions around [apply_block],
    over the fork database and the block log.

    What a block does to the chain state is behind an interface, [Chain]: the
    theorems hold for every state machine that keeps the laws of [ChainLaws],
    which say what the checks at the start and at the end of [_apply_block]
    establish.  The state is a value and an undo session remembers the value it
    started from, which is what the sessions of chainbase are shown to do.

    Exceptions are caught here, so an operation returns the node it leaves
    behind also when it throws. *)

From S2P Require Import Prelude Config.
From stdpp Require Import gmap.
From S2P Require Import ForkDatabase.
#[local] Open Scope Z_scope.

(** ** The chain state machine *)

Class Chain (T S Tx : Type) : Type := {
  chain_hash :: BlockHash T;
  execute : signed_block T → S → res S;     (* [_apply_block] up to the migration *)
  head_block_id : S → block_id;
  chain_head_num : S → Z;                   (* [head_block_num()] *)
  last_irreversible : S → Z;                (* [last_irreversible_block_num] *)
  transactions : T → list Tx;
  state_ok : S → Prop                       (* the invariant of the states between blocks *)
}.

(** What block application promises, from a state with the invariant and while
    the 32 bits of block numbers are not exhausted. *)
Class ChainLaws (T S Tx : Type) `{Chain T S Tx} : Prop := {
  execute_ok b s s' : state_ok s → block_num b ≠ 0 → execute b s = Ok s' → state_ok s';
  (** [validate_block_header] *)
  execute_previous b s s' : state_ok s → block_num b ≠ 0 → execute b s = Ok s' → previous b = head_block_id s;
  (** [update_global_dynamic_data] *)
  execute_head b s s' : state_ok s → block_num b ≠ 0 → execute b s = Ok s' →
    head_block_id s' = block_id_of b ∧ chain_head_num s' = block_num b;
  (** [update_last_irreversible_block], after the check of the undo history *)
  execute_lib b s s' : state_ok s → block_num b ≠ 0 → execute b s = Ok s' →
    0 <= last_irreversible s <= last_irreversible s' ∧
    last_irreversible s' <= chain_head_num s' < last_irreversible s' + freezone_MAX_UNDO_HISTORY
}.

(** ** The node *)

Record skip_flags : Set := SkipFlags {
  skip_fork_db : bool;
  skip_block_log : bool
}.

Record node (T S Tx : Type) : Type := Node {
  fork_db : fork_database T;
  state : S;
  undos : list (Z * S);         (* the undo stack, the newest session first: its revision and the state before it *)
  revision : Z;
  block_log : list (signed_block T);
  popped_tx : list Tx;
  pending_session : bool        (* whether the newest session is [_pending_tx_session] *)
}.
#[global] Arguments Node {T S Tx}.
#[global] Arguments fork_db {T S Tx}.
#[global] Arguments state {T S Tx}.
#[global] Arguments undos {T S Tx}.
#[global] Arguments revision {T S Tx}.
#[global] Arguments block_log {T S Tx}.
#[global] Arguments popped_tx {T S Tx}.
#[global] Arguments pending_session {T S Tx}.

Section ForkSwitch.

Context {T S Tx : Type} `{Chain T S Tx} (flags : skip_flags).

Abbreviation block := (signed_block T).
Abbreviation db := (node T S Tx).

Definition with_fork_db f (n : db) : db := Node (f (fork_db n)) (state n) (undos n) (revision n) (block_log n) (popped_tx n) (pending_session n).
Definition with_state s (n : db) : db := Node (fork_db n) s (undos n) (revision n) (block_log n) (popped_tx n) (pending_session n).
Definition with_log l (n : db) : db := Node (fork_db n) (state n) (undos n) (revision n) l (popped_tx n) (pending_session n).
Definition with_popped l (n : db) : db := Node (fork_db n) (state n) (undos n) (revision n) (block_log n) l (pending_session n).

(** ** Computations on a node: a result or an exception, and the node left. *)

Definition act (A : Type) : Type := db → res A * db.

Definition act_ret {A} (a : A) : act A := λ n, (Ok a, n).
Definition act_bind {A B} (m : act A) (k : A → act B) : act B := λ n,
  match m n with
  | (Ok a, n) => k a n
  | (Throw e, n) => (Throw e, n)
  end.
Definition ask {A} (f : db → res A) : act A := λ n, (f n, n).
Definition tell (f : db → db) : act unit := λ n, (Ok tt, f n).

(** ** Undo sessions (chainbase) *)

Definition start_undo_session (n : db) : db :=
  Node (fork_db n) (state n) ((revision n + 1, state n) :: undos n) (revision n + 1) (block_log n) (popped_tx n) (pending_session n).

Definition undo (n : db) : db :=
  match undos n with
  | [] => n
  | (_, s) :: us => Node (fork_db n) s us (revision n - 1) (block_log n) (popped_tx n) (pending_session n)
  end.

(** [commit]: the oldest sessions go while their revision is at most [r]. *)
Fixpoint commit_undos (r : Z) (us : list (Z * S)) : list (Z * S) :=
  match us with
  | [] => []
  | e :: us =>
      match commit_undos r us with
      | [] => if e.1 <=? r then [] else [e]
      | us => e :: us
      end
  end.

Definition commit (r : Z) (n : db) : db :=
  Node (fork_db n) (state n) (commit_undos r (undos n)) (revision n) (block_log n) (popped_tx n) (pending_session n).

(** [_pending_tx_session.reset()] *)
Definition reset_pending_session (n : db) : db :=
  if pending_session n then
    let n := undo n in Node (fork_db n) (state n) (undos n) (revision n) (block_log n) (popped_tx n) false
  else n.

(** ** The block log (block_log.cpp): the block of number [k + 1] at position [k] *)

Definition log_head_num (l : list block) : Z := from_option block_num 0 (last l).

Definition append (b : block) (l : list block) : res (list block) :=
  if Z.of_nat (length l) =? u32 (block_num b - 1) then Ok (l ++ [b]) else Throw assert_exception.

(** A number above the head of the log, or zero, is not in it. *)
Definition read_block_by_num (k : Z) (l : list block) : res (option block) :=
  match last l with
  | Some h =>
      if (k <=? num_from_id (block_id_of h)) && (0 <? k) then
        b ← from_option_exn out_of_range (l !! Z.to_nat (k - 1));
        _ ← fc_assert (block_num b =? k);
        mret (Some b)
      else mret None
  | None => mret None
  end.

(** ** Operations of the database *)

Definition fetch_block_by_id (x : block_id) (n : db) : res (option block) :=
  match fetch_block x (fork_db n) with
  | None =>
      tmp ← read_block_by_num (num_from_id x) (block_log n);
      mret (b ← tmp; if decide (block_id_of b = x) then Some b else None)
  | Some p => i ← get_item p (fork_db n); mret (Some (data i))
  end.

(** [held] are the items the caller's branches keep alive. *)
Definition pop_block (held : list Z) : act unit := λ n,
  let n := reset_pending_session n in
  match fetch_block_by_id (head_block_id (state n)) n with
  | Throw e => (Throw e, n)
  | Ok None => (Throw pop_empty_chain, n)
  | Ok (Some b) =>
      match fork_pop_block held (fork_db n) with
      | Throw e => (Throw e, n)
      | Ok d =>
          let n := undo (with_fork_db (λ _, d) n) in
          (Ok tt, with_popped (transactions (content b) ++ popped_tx n) n)
      end
  end.

(** The blocks from the head of the log up to [lib], all of which must be on the
    current fork. *)
Fixpoint blocks_to_write (count : nat) (log_head : Z) (d : fork_database T) : res (list block) :=
  match count with
  | O => mret []
  | Datatypes.S count =>
      found ← fetch_block_on_main_branch_by_number (u32 (log_head + 1)) d;
      p ← from_option_exn assert_exception found;
      i ← get_item p d;
      rest ← blocks_to_write count (log_head + 1) d;
      mret (data i :: rest)
  end.

(** Appends one block after the other; what was written stays written. *)
Fixpoint append_all (bs : list block) : act unit := λ n,
  match bs with
  | [] => (Ok tt, n)
  | b :: bs =>
      match append b (block_log n) with
      | Throw e => (Throw e, n)
      | Ok l => append_all bs (with_log l n)
      end
  end.

Definition migrate_irreversible_state : act unit :=
  let head_num (n : db) := chain_head_num (state n) in
  let lib (n : db) := last_irreversible (state n) in
  act_bind (ask (λ n,
    match head (fork_db n) with
    | None => Ok tt
    | Some p => i ← get_item p (fork_db n); fc_assert (num i =? head_num n)
    end)) (λ _,
  act_bind (if skip_block_log flags then act_ret tt else
    act_bind (ask (λ n, let l := log_head_num (block_log n) in blocks_to_write (Z.to_nat (lib n - l)) l (fork_db n)))
      append_all) (λ _,
  tell (λ n, commit (lib n) (with_fork_db (set_max_size (u32 (head_num n - lib n + 1))) n)))).

Definition apply_block (b : block) : act unit := λ n,
  match execute b (state n) with
  | Throw e => (Throw e, n)
  | Ok s => migrate_irreversible_state (with_state s n)
  end.

(** A session around [apply_block]: its destructor undoes it when an exception
    leaves the block, [push] keeps it. *)
Definition apply_in_session (b : block) : act unit := λ n,
  match apply_block b (start_undo_session n) with
  | (Ok _, n) => (Ok tt, n)
  | (Throw e, n) => (Throw e, undo n)
  end.

(** [while( head_block_id() != target ) pop_block();] *)
Fixpoint pop_to (fuel : nat) (held : list Z) (target : block_id) : act unit := λ n,
  if decide (head_block_id (state n) = target) then (Ok tt, n)
  else match fuel with
       | O => (Throw fuel_exhausted, n)
       | Datatypes.S fuel => act_bind (pop_block held) (λ _, pop_to fuel held target) n
       end.

(** A pop takes the head of the fork database back to a smaller number. *)
Definition pop_all_to (held : list Z) (target : block_id) : act unit := λ n,
  pop_to (Datatypes.S (Z.to_nat (from_option (λ k, k) 0 (head_num (fork_db n))))) held target n.

(** [_fork_db.set_head( item )] and the block of the item in a session. *)
Definition apply_item (p : Z) : act unit :=
  act_bind (ask (λ n, get_item p (fork_db n))) (λ i,
  act_bind (tell (with_fork_db (set_head (Some p)))) (λ _,
  apply_in_session (data i))).

Fixpoint apply_items (ps : list Z) : act unit :=
  match ps with
  | [] => act_ret tt
  | p :: ps => act_bind (apply_item p) (λ _, apply_items ps)
  end.

Definition remove_items (ps : list Z) (n : db) : db :=
  foldl (λ n p, match items (fork_db n) !! p with
                | Some i => with_fork_db (remove (block_id_of (data i))) n
                | None => n
                end) n ps.

(** The loop over the new branch, from its oldest block on, with the way back
    when a block fails. *)
Fixpoint apply_fork (held : list Z) (target : block_id) (new old : list Z) : act unit := λ n,
  match new with
  | [] => (Ok tt, n)
  | p :: rest =>
      match apply_item p n with
      | (Ok _, n) => apply_fork held target rest old n
      | (Throw e, n) =>
          act_bind (tell (remove_items (p :: rest))) (λ _,
          act_bind (pop_all_to held target) (λ _,
          act_bind (apply_items old) (λ _,
          ask (λ _, Throw e)))) n
      end
  end.

Definition switch_fork (new_head : fork_item T) : act bool :=
  act_bind (ask (λ n, fetch_branch_from [] (block_id_of (data new_head)) (head_block_id (state n)) (fork_db n))) (λ '(first, second),
  act_bind (ask (λ n, p ← from_option_exn out_of_range (last second); i ← get_item p (fork_db n); mret (previous_id i))) (λ target,
  act_bind (pop_all_to (first ++ second) target) (λ _,
  act_bind (apply_fork (first ++ second) target (reverse first) (reverse second)) (λ _,
  act_ret true)))).

(** The block on top of the current head. *)
Definition push_on_head (b : block) : act bool := λ n,
  match apply_in_session b n with
  | (Ok _, n) => (Ok false, n)
  | (Throw e, n) => (Throw e, with_fork_db (remove (block_id_of b)) n)
  end.

Definition push_block (b : block) : act bool :=
  if skip_fork_db flags then push_on_head b
  else λ n,
    match fork_push_block b (fork_db n) with
    | Throw e => (Throw e, n)
    | Ok d =>
        act_bind (tell (with_fork_db (λ _, d))) (λ _,
        act_bind (ask (λ n, p ← from_option_exn out_of_range (head d); get_item p d)) (λ new_head,
        act_bind (ask Ok) (λ n,
        if decide (previous_id new_head = head_block_id (state n)) then push_on_head b
        else if chain_head_num (state n) <? block_num (data new_head) then switch_fork new_head
        else act_ret false))) n
    end.

(** ** Committing *)






(** ** What the undo stack remembers *)


Definition item_block (d : fork_database T) (p : Z) : option block := data <$> items d !! p.

(** The state [s] is that of the known block at [h]. *)
Record at_item (d : fork_database T) (h : Z) (s : S) : Prop := {
  ai_indexed : indexed d h;
  ai_id : head_block_id s = from_option ForkDatabase.id null_id (items d !! h);
  ai_num : chain_head_num s = item_num d h;
  ai_ok : state_ok s
}.

(** The undo stack [us] under the state [s] of the block at [h] has a session for
    each block of the current chain down to the last block of [ms]. *)
Inductive history (d : fork_database T) : Z → S → list (Z * S) → list Z → Prop :=
| history_base h s : at_item d h s → history d h s [] [h]
| history_step h q s s0 us ms b :
    at_item d h s → links d h q → item_block d h = Some b → execute b s0 = Ok s →
    history d q s0 us ms → history d h s ((item_num d h, s0) :: us) (h :: ms).

Record chain_ok (n : db) (h : Z) (ms : list Z) : Prop := {
  co_wf : fork_wf (fork_db n);
  co_pending : pending_session n = false;
  co_history : history (fork_db n) h (state n) (undos n) ms;
  co_revision : revision n = chain_head_num (state n);
  co_log : log_head_num (block_log n) = Z.of_nat (length (block_log n));
  co_base : item_num (fork_db n) <$> last ms = Some (Z.of_nat (length (block_log n)));
  co_lib : 0 <= last_irreversible (state n) <= Z.of_nat (length (block_log n))
}.

(** The database between two pushes: the fork database and the state have the
    same head. *)
Definition node_ok (n : db) (h : Z) (ms : list Z) : Prop := head (fork_db n) = Some h ∧ chain_ok n h ms.

Lemma history_at d h s us ms : history d h s us ms → at_item d h s.
Proof. by destruct 1. Qed.



(** Every session is above the last block. *)
Lemma history_above d h s us ms m :
  fork_wf d → history d h s us ms → last ms = Some m →
  item_num d m <= item_num d h ∧ Forall (λ e, item_num d m < e.1) us.
Proof.
  intros Hwf. induction 1 as [h s Hat|h q s s0 us ms b Hat Hl Hb He Hh IH]; intros Hm.
  - injection Hm as ->. split; [lia|constructor].
  - assert (last ms = Some m) as Hm'.
    { rewrite <- Hm. destruct Hh; [done|]. simpl. done. }
    destruct (IH Hm') as [Hle Hall]. pose proof (links_num d h q Hwf Hl). split; [lia|]. constructor; [simpl; lia|done].
Qed.

Lemma history_above_all d h s us ms m x :
  fork_wf d → history d h s us ms → last ms = Some m → x ∈ ms → indexed d x ∧ item_num d m <= item_num d x.
Proof.
  intros Hwf Hh. revert x. induction Hh as [h s Hat|h q s s0 us ms b Hat Hl Hb He Hh IH]; intros x Hm Hx.
  - injection Hm as ->. apply list_elem_of_singleton in Hx as ->. split; [apply Hat|lia].
  - assert (last ms = Some m) as Hm' by (rewrite <- Hm; by destruct Hh). apply elem_of_cons in Hx as [->|Hx]; [|by apply IH].
    split; [apply Hat|]. destruct (history_above _ _ _ _ _ _ Hwf Hh Hm'). pose proof (links_num _ _ _ Hwf Hl). lia.
Qed.

(** ** Changes of the fork database that keep the blocks from number [k] on *)

Definition kept (k : Z) (d d' : fork_database T) : Prop :=
  items d' = items d ∧ (∀ p, indexed d p → k <= item_num d p → indexed d' p).

#[global] Instance kept_refl k : Reflexive (kept k).
Proof. intros d. by split. Qed.



Lemma kept_mono k k' d d' : k <= k' → kept k d d' → kept k' d d'.
Proof. intros Hk [Hi Hx]. split; [done|]. intros p Hp Hk'. apply Hx; [done|lia]. Qed.







(** ** Popping *)





Context `{!ChainLaws T S Tx}.














(** ** Applying a block *)







Hypothesis log_written : skip_block_log flags = false.







(** ** Applying a branch, from its oldest block on *)









(** ** The way back from a failed branch *)
















(** ** The fork database after a push *)

Lemma item_num_pushed b d p : fork_wf d → is_Some (items d !! p) → item_num (pushed b d) p = item_num d p.
Proof. intros Hwf [i Hi]. unfold item_num. by rewrite Hi, (pushed_items b d p i Hwf Hi). Qed.

Lemma at_item_pushed b d h s : fork_wf d → at_item d h s → at_item (pushed b d) h s.
Proof.
  intros Hwf [Hidx Hid Hnum Hsok]. destruct Hidx as (i & Hi & Hx). split; [| | |done].
  - apply pushed_indexed; [done|]. by exists i.
  - by rewrite Hid, Hi, (pushed_items b d h i Hwf Hi).
  - rewrite item_num_pushed; [done|done|by exists i].
Qed.

Lemma history_pushed b d h s us ms : fork_wf d → history d h s us ms → history (pushed b d) h s us ms.
Proof.
  intros Hwf. induction 1 as [h s Hat|h q s s0 us ms b' Hat (i & Hi & Hl) Hb He Hh IH].
  - constructor. by apply at_item_pushed.
  - rewrite <- (item_num_pushed b d h) by (done || by eexists). pose proof (pushed_items b d h i Hwf Hi) as Hi'.
    apply history_step with q b'; [by apply at_item_pushed|by exists i| |done|done].
    unfold item_block in *. by rewrite Hi', <- Hi.
Qed.

Lemma chain_ok_pushed b n h ms :
  chain_ok n h ms → fork_wf (pushed b (fork_db n)) → chain_ok (with_fork_db (λ _, pushed b (fork_db n)) n) h ms.
Proof.
  intros [Hwf Hpend Hh Hrev Hlog Hbase Hlib] Hwf'. split; cbn [with_fork_db fork_db pending_session state undos revision block_log];
    [done|done|by apply history_pushed|done|done| |done].
  rewrite <- Hbase. destruct (last ms) as [m|] eqn:Hm; [|done]. simpl. rewrite item_num_pushed; [done..|].
  destruct (history_above_all _ _ _ _ _ _ m Hwf Hh Hm) as [(i & Hi & _) _]; [by apply last_Some_elem_of|]. by exists i.
Qed.




Hypothesis fork_db_used : skip_fork_db flags = false.

(** ** A block on top of the head *)

(** What [push_block] does once the block is in the fork database. *)
Lemma push_block_after b n d :
  fork_push_block b (fork_db n) = Ok d →
  push_block b n =
    match h ← head d; items d !! h with
    | None => (Throw out_of_range, with_fork_db (λ _, d) n)
    | Some i =>
        (if decide (previous_id i = head_block_id (state n)) then push_on_head b
         else if chain_head_num (state n) <? block_num (data i) then switch_fork i
         else act_ret false) (with_fork_db (λ _, d) n)
    end.
Proof.
  intros Hp. unfold push_block. rewrite fork_db_used, Hp. unfold act_bind, tell, ask.
  destruct (head d) as [h|]; [|done]. cbn [from_option_exn mbind option_bind]. rewrite Ok_bind.
  unfold get_item. by destruct (items d !! h).
Qed.


(** A block that does not make a longer chain is kept in the fork database only. *)
Lemma push_shorter n h ms b d :
  node_ok n h ms → fork_push_block b (fork_db n) = Ok d → block_num b <= chain_head_num (state n) →
  previous (default b (item_block (fork_db n) h)) ≠ head_block_id (state n) →
  push_block b n = (Ok false, with_fork_db (λ _, d) n) ∧ node_ok (with_fork_db (λ _, d) n) h ms.
Proof.
  intros [Hh Hok] Hp Hnum Hprev. pose proof (co_wf _ _ _ Hok) as Hwf.
  destruct (fork_push_block_Ok b _ d Hwf Hp) as [-> Hwf']. destruct (head_num_head _ _ Hwf Hh) as (i & Hi & Hn).
  destruct (history_at _ _ _ _ _ (co_history _ _ _ Hok)) as [_ _ Hnum']. unfold item_num in Hnum'. rewrite Hi in Hnum'. simpl in Hnum'.
  assert (head (pushed b (fork_db n)) = Some h) as Hh'.
  { rewrite pushed_head, Hn, Hh. by rewrite (proj2 (Z.ltb_ge _ _)) by lia. }
  split; [|split; [done|by apply chain_ok_pushed]].
  rewrite (push_block_after b n _ Hp), Hh'. cbn [mbind option_bind]. rewrite (pushed_items b _ h i Hwf Hi).
  unfold item_block in Hprev. rewrite Hi in Hprev. simpl in Hprev. rewrite decide_False by done.
  destruct (num_range _ _ _ Hwf Hi) as [Heq _]. by rewrite (proj2 (Z.ltb_ge _ _)) by lia.
Qed.

(** ** Where two branches part *)










(** ** Switching forks *)














End ForkSwitch.

(** ** Examples *)

Module SwitchExample.

Import ForkExample.

(** A chain of numbers: a block adds its number to a total, a negative number is
    invalid, and a block is irreversible two blocks later. *)
Record total : Set := Total { t_id : block_id; t_num : Z; t_lib : Z; t_sum : Z }.

#[export] Instance total_eq_dec : EqDecision total.
Proof. solve_decision. Defined.

#[export] Instance example_chain : Chain Z total Z := {|
  chain_hash := example_hash;
  execute b s :=
    _ ← fc_assert (bool_decide (previous b = t_id s));
    _ ← fc_assert (0 <=? content b);
    _ ← fc_assert ((t_lib s <=? block_num b) && (block_num b <? t_lib s + freezone_MAX_UNDO_HISTORY));
    mret (Total (block_id_of b) (block_num b) (Z.max (t_lib s) (block_num b - 2)) (t_sum s + content b));
  head_block_id := t_id;
  chain_head_num := t_num;
  last_irreversible := t_lib;
  transactions c := [c];
  state_ok s := 0 <= t_lib s
|}.

#[export] Instance example_laws : ChainLaws Z total Z.
Proof.
  split; intros b s s' Hs _ He; cbn [execute example_chain] in He; res_inv; bools; cbn in *; [lia|done|done|]. lia.
Qed.

Fixpoint chain_from (b : signed_block Z) (cs : list Z) : list (signed_block Z) :=
  match cs with
  | [] => []
  | c :: cs => on b c :: chain_from (on b c) cs
  end.

Definition first_block : signed_block Z := SignedBlock null_id 1.
Definition trunk : list (signed_block Z) := first_block :: chain_from first_block [2; 3; 4; 5].
Definition tip : signed_block Z := default first_block (last trunk).

(** Five blocks in the log, the state at the fifth. *)
Definition start : node Z total Z :=
  Node (start_block tip empty_fork_db) (Total (block_id_of tip) (block_num tip) 5 15) [] 5 trunk [] false.

Definition flags : skip_flags := SkipFlags false false.

Fixpoint push_list (bs : list (signed_block Z)) (n : node Z total Z) : list (res bool) * node Z total Z :=
  match bs with
  | [] => ([], n)
  | b :: bs => let '(r, n) := push_block flags b n in let '(rs, n) := push_list bs n in (r :: rs, n)
  end.

(** Blocks 6 and 7 are applied; then a fork of blocks 6, 7 and 8 arrives. *)
Definition main_chain : list (signed_block Z) := chain_from tip [6; 7].
Definition longer_fork : list (signed_block Z) := chain_from tip [106; 107; 108].
Definition bad_fork : list (signed_block Z) := chain_from tip [106; 107; -108].

Example switches :
  let '(rs, n) := push_list (main_chain ++ longer_fork) start in
  rs = [Ok false; Ok false; Ok false; Ok false; Ok true] ∧ t_sum (state n) = 336 ∧ popped_tx n = [6; 7] ∧
  length (block_log n) = 6%nat.
Proof. by vm_compute. Qed.

Example switches_back :
  let '(rs, n) := push_list (main_chain ++ bad_fork) start in
  rs = [Ok false; Ok false; Ok false; Ok false; Throw assert_exception] ∧ t_sum (state n) = 28 ∧
  undos n = undos (push_list main_chain start).2.
Proof. by vm_compute. Qed.

(** An invalid block on top of the head stays the head of the fork database: the
    blocks of a valid longer fork that follow are then taken for blocks on top of
    the head, fail, and are forgotten.  Without the invalid block the node
    switches to that fork. *)
Theorem invalid_block_hides_fork :
  let bad := on (default tip (last main_chain)) (-8) in
  (push_list (main_chain ++ [bad] ++ longer_fork) start).1 =
    [Ok false; Ok false; Throw assert_exception; Throw assert_exception; Throw unlinkable_block_exception;
     Throw unlinkable_block_exception] ∧
  (push_list (main_chain ++ longer_fork) start).1 = [Ok false; Ok false; Ok false; Ok false; Ok true].
Proof. by vm_compute. Qed.

(** The fork database keeps the block below the last irreversible one, so blocks
    of a chain that leaves there are accepted; the switch to it undoes what can
    be undone, then fails, and nothing is restored: from block 9 the node is back
    at block 7. *)
Theorem fork_below_irreversible_rolls_back :
  let long := chain_from tip [6; 7; 8; 9] in
  let below := chain_from (default tip (long !! 0%nat)) [107; 108; 109; 110] in
  let '(rs, n) := push_list (long ++ below) start in
  rs = [Ok false; Ok false; Ok false; Ok false; Ok false; Ok false; Ok false; Throw assert_exception] ∧
  last_irreversible (state (push_list long start).2) = 7 ∧ chain_head_num (state (push_list long start).2) = 9 ∧
  chain_head_num (state n) = 7 ∧ undos n = [].
Proof. by vm_compute. Qed.










End SwitchExample.
