(* ===== verification/WitnessSchedule.v ===== *)
(** * The witness schedule

    libraries/chain/witness_schedule.cpp: once per round, which witnesses
    produce the blocks of the next round and in which order, and the chain
    properties they vote on.

    The votes and the members of virtual-time scheduling of a witness are in
    the table [witnesses] of the chain state, which witness voting changes; the
    other members are in the table [infos], with the same keys. *)

From S2P Require Import Prelude Config AccountName Uint128 SafeInt AssetSymbol Asset Manabar ResourceDynamics MapSum State Ledger Votes.
From stdpp Require Import gmap strings sorting.
#[local] Open Scope Z_scope.

(** ** Objects (witness_objects.hpp) *)

Record chain_properties : Type := ChainProperties {
  cp_account_creation_fee : Z;          (* of the liquid symbol *)
  cp_maximum_block_size : Z;            (* uint32_t *)
  cp_sbd_interest_rate : Z;             (* uint16_t *)
  cp_account_subsidy_budget : Z;        (* int32_t *)
  cp_account_subsidy_decay : Z          (* uint32_t *)
}.

Inductive witness_schedule_type : Set := elected | timeshare | miner | none.

(** [public_key_type()] *)
Definition null_key : Z := 0.

(** The members of witness_object beside those of [witness]. *)
Record witness_info : Type := WitnessInfo {
  wi_id : Z;
  pow_worker : Z;                       (* uint64_t *)
  signing_key : Z;
  props : chain_properties;
  schedule : witness_schedule_type;
  running_version : Z;                  (* version::v_num *)
  hardfork_version_vote : Z;
  hardfork_time_vote : Z;
  available_witness_account_subsidies : Z;  (* int64_t *)
  last_confirmed_block_num : Z;         (* uint64_t *)
  last_aslot : Z;                       (* uint64_t *)
  total_missed : Z                      (* uint32_t *)
}.

Definition set_pow_worker (v : Z) (w : witness_info) : witness_info :=
  WitnessInfo (wi_id w) v (signing_key w) (props w) (schedule w) (running_version w) (hardfork_version_vote w)
    (hardfork_time_vote w) (available_witness_account_subsidies w) (last_confirmed_block_num w) (last_aslot w) (total_missed w).
Definition set_schedule (v : witness_schedule_type) (w : witness_info) : witness_info :=
  WitnessInfo (wi_id w) (pow_worker w) (signing_key w) (props w) v (running_version w) (hardfork_version_vote w)
    (hardfork_time_vote w) (available_witness_account_subsidies w) (last_confirmed_block_num w) (last_aslot w) (total_missed w).

(** witness_schedule_object, but for [current_virtual_time] and the median
    account creation fee, which are in the chain state. *)
Record witness_schedule_object : Type := WSO {
  next_shuffle_block_num : Z;           (* uint32_t *)
  current_shuffled_witnesses : list name;   (* an array of freezone_MAX_WITNESSES *)
  num_scheduled_witnesses : Z;          (* uint8_t *)
  elected_weight : Z;
  timeshare_weight : Z;
  miner_weight : Z;
  witness_pay_normalization_factor : Z; (* uint32_t *)
  median_props : chain_properties;
  majority_version : Z;
  max_voted_witnesses : Z;              (* uint8_t *)
  max_miner_witnesses : Z;
  hardfork_required_witnesses : Z;
  account_subsidy_rd : rd_dynamics_params;
  account_subsidy_witness_rd : rd_dynamics_params
}.

(** hardfork_property_object *)
Record hardfork_properties : Type := HardforkProperties {
  current_hardfork_version : Z;
  next_hardfork : Z;
  next_hardfork_time : Z
}.

(** The chain state with the objects of scheduling. *)
Record sched : Type := Sched {
  base : db;
  infos : gmap name witness_info;
  wso : witness_schedule_object;
  num_pow_witnesses : Z;                (* uint64_t *)
  maximum_block_size : Z;               (* uint32_t *)
  hfp : hardfork_properties
}.

Definition set_base (d : db) (s : sched) : sched := Sched d (infos s) (wso s) (num_pow_witnesses s) (maximum_block_size s) (hfp s).
Definition set_infos f (s : sched) : sched := Sched (base s) (f (infos s)) (wso s) (num_pow_witnesses s) (maximum_block_size s) (hfp s).
Definition set_wso (w : witness_schedule_object) (s : sched) : sched := Sched (base s) (infos s) w (num_pow_witnesses s) (maximum_block_size s) (hfp s).
Definition set_num_pow (n : Z) (s : sched) : sched := Sched (base s) (infos s) (wso s) n (maximum_block_size s) (hfp s).
Definition set_hfp (h : hardfork_properties) (s : sched) : sched := Sched (base s) (infos s) (wso s) (num_pow_witnesses s) (maximum_block_size s) h.
Definition set_virtual_time (t : uint128) (s : sched) : sched :=
  set_base (set_staking (λ k, Staking (witnesses k) (witness_votes k) t (routes k) (delegations k) (expirations k)
    (State.account_creation_fee k)) (base s)) s.

Definition wits (s : sched) : gmap name witness := witnesses (staking (base s)).

Definition get_info (n : name) (s : sched) : res witness_info := from_option_exn out_of_range (infos s !! n).

(** ** The indices of the witness table *)

Definition row : Type := name * (witness * witness_info).
Definition rw (r : row) : witness := r.2.1.
Definition ri (r : row) : witness_info := r.2.2.

Definition rows (s : sched) : list row := map_to_list (map_zip (wits s) (infos s)).

Definition by_vote_name (x y : row) : Prop :=
  votes (rw y) < votes (rw x) ∨ votes (rw x) = votes (rw y) ∧ name_le x.1 y.1.
Definition by_pow (x y : row) : Prop :=
  pow_worker (ri x) < pow_worker (ri y) ∨ pow_worker (ri x) = pow_worker (ri y) ∧ wi_id (ri x) <= wi_id (ri y).
Definition by_schedule_time (x y : row) : Prop :=
  to_Z (virtual_scheduled_time (rw x)) < to_Z (virtual_scheduled_time (rw y)) ∨
  to_Z (virtual_scheduled_time (rw x)) = to_Z (virtual_scheduled_time (rw y)) ∧ wi_id (ri x) <= wi_id (ri y).

#[global] Instance by_vote_name_dec x y : Decision (by_vote_name x y).
Proof. unfold by_vote_name. apply _. Defined.
#[global] Instance by_pow_dec x y : Decision (by_pow x y).
Proof. unfold by_pow. apply _. Defined.
#[global] Instance by_schedule_time_dec x y : Decision (by_schedule_time x y).
Proof. unfold by_schedule_time. apply _. Defined.

(** ** Virtual time *)

Definition lap_time (lap : uint128) (v : Z) : res uint128 := div_assign lap (uint128_of_i64 (i64 (v + 1))).

Definition uint128_zero : uint128 := uint128_of_u64 0.

Definition reset_virtual_schedule_time (s : sched) : res sched :=
  let s := set_virtual_time uint128_zero s in
  ws ← res_fold (λ m x, laps ← lap_time freezone_VIRTUAL_SCHEDULE_LAP_LENGTH2 (votes x.2);
         mret (<[x.1 := Witness (votes x.2) uint128_zero uint128_zero laps]> m)) (wits s) (map_to_list (wits s));
  mret (set_base (set_witnesses (λ _, ws) (base s)) s).

(** ** The choice of witnesses *)

(** Whether the scheduler may take a witness: since hardfork 14, not without a
    block signing key. *)
Definition enabled (s : sched) (i : witness_info) : bool :=
  negb (has_hardfork freezone_HARDFORK_0_14 (base s) && (signing_key i =? null_key)).

(** The loops only read members that they do not write, so each is the list of
    rows it takes; the writes follow. *)
Fixpoint take_voted (en : witness_info → bool) (max : nat) (l : list row) : list row :=
  match l, max with
  | [], _ | _, O => []
  | x :: l, S max' => if en (ri x) then x :: take_voted en max' l else take_voted en max l
  end.

(** The miners that are selected and all that are taken off the queue. *)
Fixpoint take_miners (en : witness_info → bool) (voted : list Z) (max : nat) (l : list row) : list row * list row :=
  match l, max with
  | [], _ | _, O => ([], [])
  | x :: l, S max' =>
      if bool_decide (wi_id (ri x) ∉ voted) && en (ri x) then
        let '(selected, processed) := take_miners en voted max' l in (x :: selected, x :: processed)
      else let '(selected, processed) := take_miners en voted max l in (selected, x :: processed)
  end.

(** The witnesses that are next in virtual time, for the room that is left, and
    all that were looked at. *)
Fixpoint take_timeshare (en : witness_info → bool) (taken : list Z) (room : nat) (l : list row) : list row * list row :=
  match l, room with
  | [], _ | _, O => ([], [])
  | x :: l, S room' =>
      if en (ri x) && bool_decide (wi_id (ri x) ∉ taken) then
        let '(selected, processed) := take_timeshare en taken room' l in (x :: selected, x :: processed)
      else let '(selected, processed) := take_timeshare en taken room l in (selected, x :: processed)
  end.

Definition mark (t : witness_schedule_type) (l : list row) (m : gmap name witness_info) : gmap name witness_info :=
  foldl (λ m x, alter (set_schedule t) x.1 m) m l.

Definition leave_queue (l : list row) (m : gmap name witness_info) : gmap name witness_info :=
  foldl (λ m x, alter (set_pow_worker 0) x.1 m) m l.

(** Schedules the processed witnesses anew; [true] when a time overflows. *)
Fixpoint advance (t : uint128) (l : list row) (m : gmap name witness) : res (gmap name witness * bool) :=
  match l with
  | [] => mret (m, false)
  | x :: l =>
      laps ← lap_time freezone_VIRTUAL_SCHEDULE_LAP_LENGTH2 (votes (rw x));
      let t' := add_assign t laps in
      if Uint128.ltb t' t then mret (m, true)
      else advance t l (<[x.1 := Witness (votes (rw x)) t uint128_zero t']> m)
  end.

(** ** Versions and hardfork votes of the round that ends *)

Definition scheduled (s : sched) : list name :=
  take (Z.to_nat (num_scheduled_witnesses (wso s))) (current_shuffled_witnesses (wso s)).

Definition scheduled_infos (s : sched) : res (list witness_info) :=
  res_fold (λ l n, i ← get_info n s; mret (l ++ [i])) [] (scheduled s).

Definition count {A} `{EqDecision A} (x : A) (l : list A) : Z := Z.of_nat (length (filter (x =.) l)).

(** The versions from the highest on, until enough witnesses run at least it. *)
Fixpoint find_majority (required on_version : Z) (versions all : list Z) : option Z :=
  match versions with
  | [] => None
  | v :: versions =>
      let on_version := on_version + count v all in
      if required <=? on_version then Some v else find_majority required on_version versions all
  end.

Definition version_vote_le (x y : Z * Z) : Prop := x.1 < y.1 ∨ x.1 = y.1 ∧ x.2 <= y.2.
#[global] Instance version_vote_le_dec x y : Decision (version_vote_le x y).
Proof. unfold version_vote_le. apply _. Defined.

Definition find_hardfork (required : Z) (all : list (Z * Z)) : option (Z * Z) :=
  List.find (λ v, required <=? count v all) (merge_sort version_vote_le (remove_dups all)).

Definition vote_on_versions (s : sched) : res (Z * hardfork_properties) :=
  if has_hardfork freezone_HARDFORK_0_5 (base s) then
    l ← scheduled_infos s;
    let versions := running_version <$> l in
    let required := hardfork_required_witnesses (wso s) in
    let majority := default (majority_version (wso s))
                      (find_majority required 0 (merge_sort (flip Z.le) (remove_dups versions)) versions) in
    let current := current_hardfork_version (hfp s) in
    mret (majority,
      match find_hardfork required ((λ i, (hardfork_version_vote i, hardfork_time_vote i)) <$> l) with
      | Some (v, t) => HardforkProperties current v t
      | None => HardforkProperties current current (next_hardfork_time (hfp s))
      end)
  else mret (majority_version (wso s), hfp s).

(** ** The shuffle *)

Definition shuffle_number (now_hi i : Z) : Z :=
  let k := u64 (now_hi + u64 (i * 2685821657736338717)) in
  let k := Z.lxor k (Z.shiftr k 12) in
  let k := Z.lxor k (u64 (Z.shiftl k 25)) in
  let k := Z.lxor k (Z.shiftr k 27) in
  u64 (k * 2685821657736338717).

Definition swap {A} (i j : nat) (l : list A) : res (list A) :=
  x ← from_option_exn out_of_range (l !! i);
  y ← from_option_exn out_of_range (l !! j);
  mret (<[j := x]> (<[i := y]> l)).

Definition shuffle_step {A} (now_hi n : Z) (l : list A) (i : nat) : res (list A) :=
  let jmax := u32 (n - Z.of_nat i) in
  let j := u32 (Z.of_nat i + shuffle_number now_hi (Z.of_nat i) mod jmax) in
  swap i (Z.to_nat j) l.

Definition shuffle {A} (now n : Z) (l : list A) : res (list A) :=
  res_fold (shuffle_step (u64 (Z.shiftl now 32)) n) l (seq 0 (Z.to_nat n)).

(** ** Median properties *)

(** The member of the element at position [size / 2] once the witnesses are sorted by it. *)
Definition median (f : witness_info → Z) (l : list witness_info) : res Z :=
  from_option_exn out_of_range (merge_sort Z.le (f <$> l) !! Nat.div (length l) 2).

Definition set_median_props (p : chain_properties) (rd rd_witness : rd_dynamics_params) (w : witness_schedule_object) : witness_schedule_object :=
  WSO (next_shuffle_block_num w) (current_shuffled_witnesses w) (num_scheduled_witnesses w) (elected_weight w) (timeshare_weight w)
    (miner_weight w) (witness_pay_normalization_factor w) p (majority_version w) (max_voted_witnesses w) (max_miner_witnesses w)
    (hardfork_required_witnesses w) rd rd_witness.

Definition set_min_decay (v : Z) (rd : rd_dynamics_params) : rd_dynamics_params :=
  RdDynamicsParams (resource_unit rd) (budget_per_time_unit rd) (pool_eq rd) (max_pool_size rd) (decay_params rd) v.

Definition set_dgp (block_size interest : Z) (fee : Z) (s : sched) : sched :=
  let g := gpo (base s) in
  let g := GPO (head_block_number g) (head_block_time g) (current_supply g) (current_sbd_supply g) (init_sbd_supply g)
    (virtual_supply g) (total_vesting_fund_freezone g) (total_vesting_shares g) (total_reward_fund_freezone g)
    (pending_rewarded_vesting_shares g) (pending_rewarded_vesting_freezone g) interest (sbd_print_rate g)
    (target_votes_per_period g) (delegation_return_period g) (downvote_pool_percent g) in
  let d := set_staking (λ k, Staking (witnesses k) (witness_votes k) (current_virtual_time k) (routes k) (delegations k)
    (expirations k) fee) (set_gpo g (base s)) in
  Sched d (infos s) (wso s) (num_pow_witnesses s) block_size (hfp s).

Definition update_median_witness_props (s : sched) : res sched :=
  active ← scheduled_infos s;
  fee ← median (λ i, cp_account_creation_fee (props i)) active;
  block_size ← median (λ i, cp_maximum_block_size (props i)) active;
  interest ← median (λ i, cp_sbd_interest_rate (props i)) active;
  budget ← median (λ i, cp_account_subsidy_budget (props i)) active;
  decay ← median (λ i, cp_account_subsidy_decay (props i)) active;
  subsidies ← median available_witness_account_subsidies active;
  let system := RdSystemParams freezone_ACCOUNT_SUBSIDY_PRECISION freezone_RD_DECAY_DENOM_SHIFT in
  let user := RdUserParams budget decay in
  let w_budget := Z.quot (i64 (budget * freezone_WITNESS_SUBSIDY_BUDGET_PERCENT)) freezone_100_PERCENT in
  let w_budget := Z.min w_budget int32_max in
  let w_decay := u64 (decay * freezone_WITNESS_SUBSIDY_DECAY_PERCENT) / freezone_100_PERCENT in
  let w_decay := Z.min w_decay uint32_max in
  let per_witness := RdUserParams w_budget w_decay in
  _ ← rd_validate_user_params user;
  rd ← rd_setup_dynamics_params user system (account_subsidy_rd (wso s));
  rd_witness ← rd_setup_dynamics_params per_witness system (account_subsidy_witness_rd (wso s));
  median_decay ← rd_compute_pool_decay (decay_params rd_witness) subsidies 1;
  let median_decay := Z.max median_decay 0 in
  scaled ← mul_assign (uint128_of_i64 median_decay) (uint128_of_u64 freezone_DECAY_BACKSTOP_PERCENT);
  scaled ← div_assign scaled (uint128_of_u64 freezone_100_PERCENT);
  min_decay ← to_int64 scaled;
  let s := set_wso (set_median_props (ChainProperties fee block_size interest budget decay) rd
             (set_min_decay min_decay rd_witness) (wso s)) s in
  mret (set_dgp block_size interest fee s).

(** ** A round *)

Definition ids (l : list row) : list Z := (λ x, wi_id (ri x)) <$> l.

Record round : Type := Round {
  voted : list row;
  miners : list row;
  mined : list row;       (* miners taken off the queue *)
  runners : list row;
  processed : list row    (* witnesses to be scheduled anew *)
}.

Definition choose (s : sched) : round :=
  let en := enabled s in
  let voted := take_voted en (Z.to_nat (max_voted_witnesses (wso s))) (merge_sort by_vote_name (rows s)) in
  let queue := filter (λ x, 0 < pow_worker (ri x)) (merge_sort by_pow (rows s)) in
  let '(miners, mined) := take_miners en (ids voted) (Z.to_nat (max_miner_witnesses (wso s))) queue in
  let room := (Z.to_nat freezone_MAX_WITNESSES - (length voted + length miners))%nat in
  let '(runners, processed) := take_timeshare en (ids (voted ++ miners)) room (merge_sort by_schedule_time (rows s)) in
  Round voted miners mined runners processed.

Definition active (r : round) : list name := (voted r ++ miners r ++ runners r).*1.

Definition round_marks (r : round) (s : sched) : sched :=
  set_num_pow (u64 (num_pow_witnesses s - Z.of_nat (length (mined r))))
    (set_infos (λ m, mark timeshare (runners r) (leave_queue (mined r) (mark miner (miners r) (mark elected (voted r) m)))) s).

(** Everyone advances to at least the time of the last witness looked at. *)
Definition new_virtual_time (r : round) (s : sched) : uint128 :=
  from_option (λ x, virtual_scheduled_time (rw x)) (current_virtual_time (staking (base s))) (last (processed r)).

Definition update_virtual_times (r : round) (s : sched) : res (uint128 * sched) :=
  let t := new_virtual_time r s in
  '(ws, overflow) ← advance t (processed r) (wits s);
  let s := set_base (set_witnesses (λ _, ws) (base s)) s in
  if (overflow : bool) then
    s ← reset_virtual_schedule_time s;
    mret (uint128_zero, s)
  else mret (t, s).

(** The array: the names and, behind them, empty names. *)
Definition fill (l : list name) : list name := l ++ replicate (Z.to_nat freezone_MAX_WITNESSES - length l) "".

Definition new_round (s : sched) (shuffled : list name) (num factor majority : Z) : witness_schedule_object :=
  let w := wso s in
  WSO (u32 (head_block_number (gpo (base s)) + num)) shuffled num (elected_weight w) (timeshare_weight w) (miner_weight w) factor
    (median_props w) majority (max_voted_witnesses w) (max_miner_witnesses w) (hardfork_required_witnesses w)
    (account_subsidy_rd w) (account_subsidy_witness_rd w).

Definition update_witness_schedule4 (s : sched) : res sched :=
  let r := choose s in
  let s := round_marks r s in
  '(t, s) ← update_virtual_times r s;
  let active := active r in
  _ ← fc_assert (Z.of_nat (length active) =? Z.min freezone_MAX_WITNESSES (Z.of_nat (length (rows s))));
  '(majority, h) ← vote_on_versions s;
  let s := set_hfp h s in
  let num := Z.max (u8 (Z.of_nat (length active))) 1 in
  let factor := u32 (elected_weight (wso s) * Z.of_nat (length (voted r)) + miner_weight (wso s) * Z.of_nat (length (miners r))
                     + timeshare_weight (wso s) * Z.of_nat (length (runners r))) in
  shuffled ← shuffle (now (base s)) num (fill active);
  let s := set_virtual_time t (set_wso (new_round s shuffled num factor majority) s) in
  update_median_witness_props s.

(** ** Before hardfork 4 *)

(** The most voted witnesses that have no proof of work leave virtual-time
    scheduling. *)
Fixpoint take_unmined (max : nat) (l : list row) : list row :=
  match l, max with
  | [], _ | _, O => []
  | x :: l, S max' => if pow_worker (ri x) =? 0 then x :: take_unmined max' l else take_unmined max l
  end.

Definition unschedule (l : list row) (m : gmap name witness) : gmap name witness :=
  foldl (λ m x, alter (λ w, Witness (votes w) (virtual_last_update w) (virtual_position w) uint128_max_value) x.1 m) m l.

Definition add_runner (x : name * witness) (s : sched) : res (uint128 * sched) :=
  let w := x.2 in
  let t := virtual_scheduled_time w in
  let t' := if Uint128.eqb t uint128_max_value then uint128_zero else t in
  laps ← lap_time (if has_hardfork freezone_HARDFORK_0_2 (base s) then freezone_VIRTUAL_SCHEDULE_LAP_LENGTH2
                   else freezone_VIRTUAL_SCHEDULE_LAP_LENGTH) (votes w);
  mret (t', set_base (set_witnesses <[x.1 := Witness (votes w) (virtual_last_update w) uint128_zero (add_assign t laps)]> (base s)) s).

(** The proof-of-work witnesses of the round: all until voting takes over, then
    one. *)
Fixpoint take_pow (one : bool) (size : nat) (l : list row) : list row :=
  match l with
  | [] => []
  | x :: l => if one || (freezone_MAX_WITNESSES <=? Z.of_nat (S size)) then [x] else x :: take_pow one (S size) l
  end.

Definition pow_queue (s : sched) : list row := filter (λ x, 1 <= pow_worker (ri x)) (merge_sort by_pow (rows s)).

Definition update_witness_schedule0 (s : sched) : res sched :=
  let late := freezone_START_MINER_VOTING_BLOCK <? head_block_number (gpo (base s)) in
  let voting := (num_pow_witnesses s =? 0) || late in
  '(t, names, s) ←
    (if (voting : bool) then
       let top := take_unmined (Z.to_nat (freezone_MAX_WITNESSES - 2)) (merge_sort by_vote_name (rows s)) in
       let s := set_base (set_witnesses (unschedule top) (base s)) s in
       match List.find (λ x, pow_worker (ri x) =? 0) (merge_sort by_schedule_time (rows s)) with
       | Some x => '(t, s) ← add_runner (x.1, rw x) s; mret (t, top.*1 ++ [x.1], s)
       | None => mret (uint128_zero, top.*1, s)
       end
     else mret (uint128_zero, [], s));
  let popped := if freezone_MAX_WITNESSES <? num_pow_witnesses s then List.head (pow_queue s) else None in
  let s := match popped with
           | Some x => set_num_pow (u64 (num_pow_witnesses s - 1)) (set_infos (leave_queue [x]) s)
           | None => s
           end in
  let active := names ++ (take_pow late (length names) (pow_queue s)).*1 in
  let num := Z.max (u8 (Z.of_nat (length active))) 1 in
  shuffled ← shuffle (now (base s)) num (fill active);
  let w := wso s in
  let s := set_wso (new_round s shuffled num (witness_pay_normalization_factor w) (majority_version w)) s in
  let s := if (num_pow_witnesses s =? 0) || late then set_virtual_time t s else s in
  update_median_witness_props s.

Definition update_witness_schedule (s : sched) : res sched :=
  if head_block_number (gpo (base s)) mod freezone_MAX_WITNESSES =? 0 then
    if has_hardfork freezone_HARDFORK_0_4 (base s) then update_witness_schedule4 s else update_witness_schedule0 s
  else mret s.
