(* ===== verification/Rounds.v ===== *)
(** * Rounds of witnesses

    Theorems about the schedule of WitnessSchedule.v: who is scheduled, how
    virtual time advances, which chain properties and hardforks the scheduled
    witnesses can vote in. *)

From S2P Require Import Prelude Config AccountName Uint128 SafeInt AssetSymbol Asset Manabar ResourceDynamics MapSum State Ledger Votes.
From stdpp Require Import gmap strings sorting.
From S2P Require Import WitnessSchedule.
#[local] Open Scope Z_scope.

(** ** Orders of the indices *)

#[global] Instance name_le_total : Total name_le.
Proof. intros x y. apply String.leb_total. Qed.
#[global] Instance name_le_trans : Transitive name_le.
Proof.
  intros x y z Hx Hy. apply Is_true_true. trans y; [by apply Is_true_true in Hx|by apply Is_true_true in Hy].
Qed.

#[global] Instance by_vote_name_total : Total by_vote_name.
Proof.
  intros x y. unfold by_vote_name. destruct (Z.lt_trichotomy (votes (rw x)) (votes (rw y))) as [?|[?|?]]; [auto| |auto].
  destruct (total name_le x.1 y.1); auto.
Qed.
#[global] Instance by_vote_name_trans : Transitive by_vote_name.
Proof. intros x y z [?|[? Hx]] [?|[? Hy]]; [left; lia..|right; split; [lia|by trans y.1]]. Qed.
#[global] Instance by_schedule_time_total : Total by_schedule_time.
Proof. intros x y. unfold by_schedule_time. lia. Qed.
#[global] Instance by_schedule_time_trans : Transitive by_schedule_time.
Proof. intros x y z. unfold by_schedule_time. lia. Qed.

(** ** The rows *)

Lemma elem_of_rows s x : x ∈ rows s ↔ wits s !! x.1 = Some (rw x) ∧ infos s !! x.1 = Some (ri x).
Proof.
  destruct x as [n [w i]]. unfold rows. rewrite elem_of_map_to_list.
  rewrite map_lookup_zip_with. unfold rw, ri. simpl.
  destruct (wits s !! n), (infos s !! n); simpl; naive_solver.
Qed.

Lemma rows_NoDup s : NoDup (rows s).*1.
Proof. apply NoDup_fst_map_to_list. Qed.

(** Both tables have a row for each witness, no two witnesses have the same id
    and the places of a round are enough for those elected and mined. *)
Definition sched_ok (s : sched) : Prop :=
  dom (wits s) = dom (infos s) ∧
  (∀ n m i j, infos s !! n = Some i → infos s !! m = Some j → wi_id i = wi_id j → n = m) ∧
  0 <= max_voted_witnesses (wso s) ∧ 0 <= max_miner_witnesses (wso s) ∧
  max_voted_witnesses (wso s) + max_miner_witnesses (wso s) <= freezone_MAX_WITNESSES.

Lemma rows_size s : sched_ok s → length (rows s) = size (infos s).
Proof.
  intros (Hd & _). unfold rows. etrans; [apply length_map_to_list|]. rewrite <- !size_dom, dom_map_zip_with, Hd. f_equal. set_solver.
Qed.

Lemma rows_id s x y : sched_ok s → x ∈ rows s → y ∈ rows s → wi_id (ri x) = wi_id (ri y) → x = y.
Proof.
  intros (_ & Hid & _) [Hx Hx']%elem_of_rows [Hy Hy']%elem_of_rows He.
  pose proof (Hid _ _ _ _ Hx' Hy' He) as Hn. destruct x as [n [w i]], y as [m [w' j]].
  unfold rw, ri in *. simpl in *. subst. naive_solver.
Qed.

Lemma rows_name s x y : x ∈ rows s → y ∈ rows s → x.1 = y.1 → x = y.
Proof.
  intros [Hx Hx']%elem_of_rows [Hy Hy']%elem_of_rows He. destruct x as [n [w i]], y as [m [w' j]].
  unfold rw, ri in *. simpl in *. subst. naive_solver.
Qed.

(** ** The loops of the choice *)

Lemma take_voted_spec en max l : take_voted en max l = take max (filter (λ x, en (ri x) = true) l).
Proof.
  revert max. induction l as [|x l IH]; intros [|max]; simpl; [done..|].
  rewrite filter_cons. destruct (en (ri x)) eqn:E.
  - rewrite decide_True by done. simpl. by rewrite IH.
  - rewrite decide_False by done. apply (IH (S max)).
Qed.

(** A loop that takes the rows with [P] until there are [max]: it looks at a
    prefix of the index. *)
Definition picks (P : row → Prop) `{∀ x, Decision (P x)} (max : nat) (l selected processed : list row) : Prop :=
  selected = take max (filter P l) ∧ selected = filter P processed ∧ ∃ rest, l = processed ++ rest.

Lemma picks_cons P `{∀ x, Decision (P x)} max x l selected processed :
  picks P (if decide (P x) then max else S max) l selected processed →
  picks P (S max) (x :: l) (if decide (P x) then x :: selected else selected) (x :: processed).
Proof.
  unfold picks. rewrite !filter_cons. intros (Hs & Hp & rest & ->).
  destruct (decide (P x)); simpl; (split_and!; [congruence|congruence|by exists rest]).
Qed.

Lemma picks_stop P `{∀ x, Decision (P x)} max l : l = [] ∨ max = O → picks P max l [] [].
Proof. intros [-> | ->]; (split; [|split; [done|by eexists]]); [by destruct max|done]. Qed.

Lemma take_miners_spec en voted max l selected processed :
  take_miners en voted max l = (selected, processed) →
  picks (λ x, (wi_id (ri x) ∉ voted) ∧ en (ri x) = true) max l selected processed.
Proof.
  revert max selected processed. induction l as [|x l IH]; intros [|max] sel pro; simpl.
  1-3: (intros [= <- <-]; apply picks_stop; auto).
  intros H.
  set (P := λ x : row, (wi_id (ri x) ∉ voted) ∧ en (ri x) = true).
  assert (bool_decide (wi_id (ri x) ∉ voted) && en (ri x) = bool_decide (P x)) as HP.
  { apply eq_true_iff_eq. rewrite andb_true_iff, !bool_decide_eq_true. done. }
  rewrite HP in H. destruct (bool_decide_reflect (P x)) as [Hx|Hx].
  - destruct (take_miners en voted max l) as [sel' pro'] eqn:E. injection H as <- <-.
    pose proof (picks_cons P max x l sel' pro') as Hc. rewrite !decide_True in Hc by done. by apply Hc, IH.
  - destruct (take_miners en voted (S max) l) as [sel' pro'] eqn:E. injection H as <- <-.
    pose proof (picks_cons P max x l sel' pro') as Hc. rewrite !decide_False in Hc by done. by apply Hc, IH.
Qed.

Lemma take_timeshare_spec en taken room l selected processed :
  take_timeshare en taken room l = (selected, processed) →
  picks (λ x, (wi_id (ri x) ∉ taken) ∧ en (ri x) = true) room l selected processed.
Proof.
  intros H. apply take_miners_spec. rewrite <- H. clear H. revert room.
  induction l as [|x l IH]; intros [|room]; simpl; [done..|]. by rewrite !IH, andb_comm.
Qed.

(** ** A round is made of distinct enabled witnesses *)

(** The witnesses that may be scheduled. *)
Definition runnable (s : sched) : list row := filter (λ x, enabled s (ri x) = true) (rows s).

Lemma runnable_NoDup s : NoDup (runnable s).
Proof. apply NoDup_filter. eapply NoDup_fmap_1, rows_NoDup. Qed.

Lemma sorted_runnable R `{∀ x y, Decision (R x y)} s :
  filter (λ x, enabled s (ri x) = true) (merge_sort R (rows s)) ≡ₚ runnable s.
Proof. unfold runnable. by rewrite merge_sort_Permutation. Qed.

Lemma elem_of_runnable s x : x ∈ runnable s ↔ enabled s (ri x) = true ∧ x ∈ rows s.
Proof. unfold runnable. by rewrite list_elem_of_filter. Qed.

(** What [choose] takes, in terms of the indices. *)
Lemma choose_spec s (r := choose s) :
  voted r = take (Z.to_nat (max_voted_witnesses (wso s))) (filter (λ x, enabled s (ri x) = true) (merge_sort by_vote_name (rows s))) ∧
  picks (λ x, (wi_id (ri x) ∉ ids (voted r)) ∧ enabled s (ri x) = true) (Z.to_nat (max_miner_witnesses (wso s)))
    (filter (λ x, 0 < pow_worker (ri x)) (merge_sort by_pow (rows s))) (miners r) (mined r) ∧
  picks (λ x, (wi_id (ri x) ∉ ids (voted r ++ miners r)) ∧ enabled s (ri x) = true)
    (Z.to_nat freezone_MAX_WITNESSES - (length (voted r) + length (miners r)))
    (merge_sort by_schedule_time (rows s)) (runners r) (processed r).
Proof.
  subst r. unfold choose. rewrite take_voted_spec.
  destruct (take_miners _ _ _ _) as [ms md] eqn:Em. destruct (take_timeshare _ _ _ _) as [rs pr] eqn:Et. simpl.
  split_and!; [done|by apply take_miners_spec|by apply take_timeshare_spec].
Qed.

Lemma elem_of_picked P `{∀ x, Decision (P x)} max l selected processed x :
  picks P max l selected processed → x ∈ selected → P x ∧ x ∈ l.
Proof. intros (-> & _) Hx. apply elem_of_take in Hx as (i & Hx & _). by apply list_elem_of_lookup_2, list_elem_of_filter in Hx. Qed.

Lemma picked_NoDup P `{∀ x, Decision (P x)} max l selected processed :
  picks P max l selected processed → NoDup l → NoDup selected.
Proof. intros (-> & _) Hl. eapply sublist_NoDup; [by apply (NoDup_filter P)|apply sublist_take]. Qed.

(** The elected and the mined witnesses. *)
Lemma chosen_first s (r := choose s) :
  sched_ok s →
  NoDup (voted r ++ miners r) ∧ (∀ x, x ∈ voted r ++ miners r → x ∈ runnable s) ∧
  (length (voted r ++ miners r) <= Z.to_nat freezone_MAX_WITNESSES)%nat.
Proof.
  intros Hok. destruct (choose_spec s) as (Hv & Hm & _). fold r in Hv, Hm.
  assert (∀ x, x ∈ voted r → x ∈ runnable s) as Hvr.
  { intros x. rewrite Hv. intros (i & Hx & _)%elem_of_take. apply list_elem_of_lookup_2 in Hx. by rewrite sorted_runnable in Hx. }
  assert (∀ x, x ∈ miners r → x ∈ runnable s) as Hmr.
  { intros x Hx. apply (elem_of_picked _ _ _ _ _ _ Hm) in Hx as [[_ He] Hx].
    apply list_elem_of_filter in Hx as [_ Hx]. rewrite merge_sort_Permutation in Hx. by apply list_elem_of_filter. }
  split_and!.
  - apply NoDup_app. split_and!.
    + rewrite Hv. eapply sublist_NoDup; [|apply sublist_take]. rewrite sorted_runnable. apply runnable_NoDup.
    + intros x Hx Hx'. apply (elem_of_picked _ _ _ _ _ _ Hm) in Hx' as [[He _] _]. apply He. by apply (list_elem_of_fmap_2 (λ x, wi_id (ri x))).
    + eapply picked_NoDup; [done|]. apply NoDup_filter. rewrite merge_sort_Permutation. eapply NoDup_fmap_1, rows_NoDup.
  - intros x [?|?]%elem_of_app; auto.
  - destruct Hok as (_ & _ & H1 & H2 & H3). rewrite length_app, Hv, length_take. destruct Hm as (-> & _). rewrite length_take. lia.
Qed.

(** With the witnesses that follow in virtual time. *)
Lemma chosen_all s (r := choose s) :
  sched_ok s →
  NoDup (voted r ++ miners r ++ runners r) ∧ (∀ x, x ∈ voted r ++ miners r ++ runners r → x ∈ runnable s) ∧
  length (voted r ++ miners r ++ runners r) = Nat.min (Z.to_nat freezone_MAX_WITNESSES) (length (runnable s)).
Proof.
  intros Hok. destruct (chosen_first s Hok) as (Hnd & Hin & Hlen). destruct (choose_spec s) as (_ & _ & Hr). fold r in Hnd, Hin, Hlen, Hr.
  set (l := voted r ++ miners r) in *.
  set (P := λ x, (wi_id (ri x) ∉ ids l) ∧ enabled s (ri x) = true) in Hr.
  rewrite app_assoc. fold l.
  assert (l ++ filter P (rows s) ≡ₚ runnable s) as Hperm.
  { apply NoDup_Permutation.
    - apply NoDup_app. split_and!; [done| |eapply NoDup_filter, NoDup_fmap_1, rows_NoDup].
      intros x Hx [[Hf _] _]%list_elem_of_filter. apply Hf. by apply (list_elem_of_fmap_2 (λ x, wi_id (ri x))).
    - apply runnable_NoDup.
    - intros x. rewrite elem_of_app, elem_of_runnable, list_elem_of_filter. split.
      + intros [Hx|[[_ ?] ?]]; [by apply elem_of_runnable, Hin|done].
      + intros [He Hx]. destruct (decide (wi_id (ri x) ∈ ids l)) as [Hl|Hl]; [left|by right].
        apply list_elem_of_fmap in Hl as (y & Hid & Hy).
        replace x with y; [done|]. apply (rows_id s); [done| |done|done].
        by apply Hin, elem_of_runnable in Hy as [_ ?]. }
  destruct Hr as (Hr & _). fold l in Hr.
  assert (filter P (merge_sort by_schedule_time (rows s)) ≡ₚ filter P (rows s)) as Hs by by rewrite merge_sort_Permutation.
  assert (l ++ runners r ⊆+ runnable s) as Hsub.
  { rewrite <- Hperm. apply submseteq_skips_l. rewrite <- Hs, Hr. apply sublist_submseteq, sublist_take. }
  split_and!.
  - pose proof (runnable_NoDup s) as Hn. apply submseteq_Permutation in Hsub as [k Hk]. rewrite Hk in Hn. by apply NoDup_app in Hn as [? _].
  - intros x Hx. by eapply elem_of_submseteq.
  - rewrite <- Hperm, !length_app, Hr, length_take, Hs. unfold l in Hlen |- *. rewrite !length_app in *. lia.
Qed.

(** ** The shuffle permutes the scheduled places *)

Lemma swap_spec {A} (i j : nat) (a b : list A) :
  (i < length a)%nat → (j < length a)%nat → ∃ a', swap i j (a ++ b) = Ok (a' ++ b) ∧ a' ≡ₚ a.
Proof.
  intros Hi Hj. destruct (lookup_lt_is_Some_2 _ _ Hi) as [x Hx]. destruct (lookup_lt_is_Some_2 _ _ Hj) as [y Hy].
  exists (<[j := x]> (<[i := y]> a)). split; [|by apply Permutation_insert_swap].
  unfold swap. rewrite !lookup_app_l by done. rewrite Hx, Hy. simpl.
  by rewrite !insert_app_l by (rewrite ?length_insert; done).
Qed.

Lemma shuffle_number_nonneg h i : 0 <= shuffle_number h i.
Proof. unfold shuffle_number. apply Z.mod_pos_bound. done. Qed.

Lemma shuffle_step_spec {A} h (a b : list A) (i : nat) :
  (i < length a)%nat → Z.of_nat (length a) < 2 ^ 32 →
  ∃ a', shuffle_step h (Z.of_nat (length a)) (a ++ b) i = Ok (a' ++ b) ∧ a' ≡ₚ a.
Proof.
  intros Hi Hn. unfold shuffle_step. apply swap_spec; [done|].
  pose proof (shuffle_number_nonneg h (Z.of_nat i)). set (k := shuffle_number _ _) in *. clearbody k.
  rewrite (wrapu_small 32 (_ - _)) by (unfold in_u; lia).
  pose proof (Z.mod_pos_bound k (Z.of_nat (length a) - Z.of_nat i) ltac:(lia)).
  unfold u32. rewrite wrapu_small; unfold in_u; lia.
Qed.

Lemma shuffle_spec {A} t (a b : list A) :
  Z.of_nat (length a) < 2 ^ 32 → ∃ a', shuffle t (Z.of_nat (length a)) (a ++ b) = Ok (a' ++ b) ∧ a' ≡ₚ a.
Proof.
  intros Hn. unfold shuffle. set (h := u64 _). clearbody h. rewrite Nat2Z.id.
  assert (∀ l c, (∀ i, i ∈ l → (i < length a)%nat) → c ≡ₚ a →
    ∃ a', res_fold (shuffle_step h (Z.of_nat (length a))) (c ++ b) l = Ok (a' ++ b) ∧ a' ≡ₚ a) as Hl.
  { intros l. induction l as [|i l IH]; intros c Hl Hc; [by exists c|].
    destruct (shuffle_step_spec h c b i) as (c' & Hs & Hc').
    - rewrite Hc. apply Hl. by left.
    - by rewrite Hc.
    - cbn [res_fold]. rewrite (Permutation_length Hc) in Hs. rewrite Hs, Ok_bind. apply IH; [intros; apply Hl; by right|by rewrite Hc']. }
  apply Hl; [|done]. intros i Hi. apply elem_of_seq in Hi. lia.
Qed.

(** ** What the other steps keep *)

Lemma update_median_frame s s' :
  update_median_witness_props s = Ok s' →
  infos s' = infos s ∧ wits s' = wits s ∧ scheduled s' = scheduled s ∧
  current_virtual_time (staking (base s')) = current_virtual_time (staking (base s)).
Proof.
  intros H. unfold update_median_witness_props in H. cbv zeta in H. repeat (apply bind_Ok in H as (? & _ & H)).
  injection H as <-. split_and!; reflexivity.
Qed.

Lemma update_median_maxima s s' :
  update_median_witness_props s = Ok s' →
  max_voted_witnesses (wso s') = max_voted_witnesses (wso s) ∧ max_miner_witnesses (wso s') = max_miner_witnesses (wso s).
Proof.
  intros H. unfold update_median_witness_props in H. cbv zeta in H. repeat (apply bind_Ok in H as (? & _ & H)).
  injection H as <-. split; reflexivity.
Qed.

Lemma update_median_names s s' n :
  update_median_witness_props s = Ok s' → n ∈ scheduled s → is_Some (infos s !! n).
Proof.
  intros H Hn. unfold update_median_witness_props in H. apply bind_Ok in H as (l & H & _).
  unfold scheduled_infos in H.
  assert (∀ l a a', res_fold (λ l n, i ← get_info n s; mret (l ++ [i])) a l = Ok a' → n ∈ l → is_Some (infos s !! n)) as Hf.
  { clear. intros l. induction l as [|m l IH]; intros a a' Hl Hn; [by apply not_elem_of_nil in Hn|].
    cbn [res_fold] in Hl. apply bind_Ok in Hl as (a1 & H1 & Hl). apply elem_of_cons in Hn as [-> |Hn]; [|by eapply IH].
    apply bind_Ok in H1 as (i & Hi & _). unfold get_info in Hi. apply from_option_exn_Ok in Hi. by exists i. }
  by eapply Hf.
Qed.

Lemma alter_all_dom {A} (f : A → A) (l : list row) (m : gmap name A) : dom (foldl (λ m x, alter f x.1 m) m l) = dom m.
Proof. revert m. induction l as [|x l IH]; intros m; [done|]. simpl. by rewrite IH, dom_alter_L. Qed.

Lemma alter_all_member {A B} (g : A → B) (f : A → A) (l : list row) (m : gmap name A) n :
  (∀ x, g (f x) = g x) → g <$> foldl (λ m x, alter f x.1 m) m l !! n = g <$> m !! n.
Proof.
  intros Hg. revert m. induction l as [|x l IH]; intros m; [done|]. cbn [foldl]. rewrite IH.
  destruct (decide (x.1 = n)) as [<-|Hn]; [rewrite lookup_alter_eq|by rewrite lookup_alter_ne by done].
  destruct (m !! x.1); simpl; by rewrite ?Hg.
Qed.

(** The choice writes neither ids nor votes. *)
Lemma round_marks_id r s n : wi_id <$> infos (round_marks r s) !! n = wi_id <$> infos s !! n.
Proof. unfold round_marks, mark, leave_queue. cbn [infos set_num_pow set_infos]. by rewrite !alter_all_member. Qed.

Lemma round_marks_dom r s : dom (infos (round_marks r s)) = dom (infos s).
Proof. unfold round_marks, mark, leave_queue. simpl. by rewrite !alter_all_dom. Qed.

Lemma lap_time_spec v :
  0 <= v < 2 ^ 63 - 1 →
  ∃ q, lap_time freezone_VIRTUAL_SCHEDULE_LAP_LENGTH2 v = Ok q ∧ Uint128.wf q ∧ to_Z q = (2 ^ 128 - 1) / (v + 1).
Proof.
  intros Hv. unfold lap_time. unfold i64. rewrite wraps_small by (unfold in_s; lia).
  destruct (of_i64_spec (v + 1)) as [Hw He]; [unfold in_s; lia|].
  rewrite u128_small in He by (unfold in_u; lia).
  destruct (div_assign_spec freezone_VIRTUAL_SCHEDULE_LAP_LENGTH2 (uint128_of_i64 (v + 1))) as (q & Hq & Hqw & Hqz); [by vm_compute|done|lia|].
  exists q. rewrite Hqz, He. done.
Qed.

(** Virtual times are numbers, and no witness is scheduled in the past. *)
Definition witness_times_ok (t : uint128) (w : witness) : Prop :=
  0 <= votes w < 2 ^ 63 - 1 ∧ Uint128.wf (virtual_last_update w) ∧ Uint128.wf (virtual_position w) ∧
  Uint128.wf (virtual_scheduled_time w) ∧ to_Z t <= to_Z (virtual_scheduled_time w).

Definition vtime_ok (d : db) : Prop :=
  Uint128.wf (current_virtual_time (staking d)) ∧
  map_Forall (λ _, witness_times_ok (current_virtual_time (staking d))) (witnesses (staking d)).

(** A witness starts a lap at the time [t]. *)
Definition starts_lap (t : uint128) (w w' : witness) : Prop :=
  votes w' = votes w ∧ virtual_last_update w' = t ∧ virtual_position w' = uint128_zero ∧ Uint128.wf (virtual_scheduled_time w') ∧
  to_Z (virtual_scheduled_time w') = to_Z t + (2 ^ 128 - 1) / (votes w + 1).

(** Where a lap that starts at [t] ends. *)
Definition lap_end (t : uint128) (x : row) : Z := to_Z t + (2 ^ 128 - 1) / (votes (rw x) + 1).

Lemma starts_lap_ok t w w' : Uint128.wf t → 0 <= votes w < 2 ^ 63 - 1 → starts_lap t w w' → witness_times_ok t w'.
Proof.
  intros Ht Hv (Hv' & Hl & Hp & Hw & Hs). unfold witness_times_ok. rewrite Hv', Hl, Hp.
  split_and!; [lia|lia|done|by vm_compute|done|]. rewrite Hs. pose proof (Z.div_pos (2 ^ 128 - 1) (votes w + 1)). lia.
Qed.

(** The loop over the processed witnesses. *)
Lemma advance_spec t l m m' overflow :
  Uint128.wf t → (∀ x, x ∈ l → 0 <= votes (rw x) < 2 ^ 63 - 1) →
  (∀ x, x ∈ l → votes <$> m !! x.1 = Some (votes (rw x))) →
  advance t l m = Ok (m', overflow) →
  dom m' = dom m ∧ (∀ n, votes <$> m' !! n = votes <$> m !! n) ∧
  (∀ n w', m' !! n = Some w' →
     (n ∉ l.*1) ∧ m !! n = Some w' ∨ overflow = true ∨ ∃ w, m !! n = Some w ∧ n ∈ l.*1 ∧ starts_lap t w w') ∧
  (if overflow then Exists (λ x, 2 ^ 128 <= lap_end t x) l else Forall (λ x, lap_end t x < 2 ^ 128) l).
Proof.
  intros Ht. revert m. induction l as [|x l IH]; intros m Hv Hm H; cbn [advance] in H.
  { injection H as <- <-. split_and!; [done..| |by apply Forall_nil_2]. intros n w' Hn. left. split; [apply not_elem_of_nil|done]. }
  destruct (lap_time_spec (votes (rw x))) as (q & Hq & Hqw & Hqz); [apply Hv; by left|].
  rewrite Hq, Ok_bind in H. destruct (add_assign_spec t q Ht Hqw) as [Haw Haz].
  rewrite ltb_spec in H by done. pose proof (to_Z_in t Ht) as Hti. pose proof (to_Z_in q Hqw) as Hqi.
  destruct (Z.ltb_spec (to_Z (add_assign t q)) (to_Z t)) as [Hlt|Hge].
  { injection H as <- <-. split_and!; [done..|intros; right; by left|]. left. unfold lap_end. rewrite <- Hqz.
    rewrite Haz in Hlt. unfold u128, wrapu in Hlt. unfold in_u in *.
    destruct (Z.le_gt_cases (2 ^ 128) (to_Z t + to_Z q)); [done|]. rewrite Z.mod_small in Hlt by lia. lia. }
  assert (to_Z (add_assign t q) = to_Z t + to_Z q) as He.
  { rewrite Haz in *. unfold u128 in *. unfold in_u in *. mlia. }
  destruct (m !! x.1) as [w|] eqn:Hx; [|specialize (Hm x ltac:(by left)); rewrite Hx in Hm; done].
  assert (votes w = votes (rw x)) as Hvw by (specialize (Hm x ltac:(by left)); rewrite Hx in Hm; by injection Hm).
  set (w1 := Witness _ _ _ _) in H.
  destruct (IH (<[x.1 := w1]> m)) as (Hd & Hvs & Hn & Hend); [intros; apply Hv; by right| |done|].
  { intros y Hy. destruct (decide (x.1 = y.1)) as [E|E].
    - rewrite E, lookup_insert_eq. simpl. rewrite <- Hvw. specialize (Hm y ltac:(by right)). rewrite <- E, Hx in Hm. done.
    - rewrite lookup_insert_ne by done. apply Hm. by right. }
  assert (starts_lap t w w1) as Hlap.
  { unfold starts_lap, w1. cbn. rewrite Hvw, He, Hqz. done. }
  split_and!.
  - rewrite Hd, dom_insert_L. apply elem_of_dom_2 in Hx. set_solver.
  - intros n. rewrite Hvs. destruct (decide (x.1 = n)) as [<-|]; [|by rewrite lookup_insert_ne by done].
    rewrite lookup_insert_eq, Hx. simpl. by rewrite Hvw.
  - intros n w' Hn'. apply Hn in Hn'. destruct (decide (x.1 = n)) as [<-|Hne].
    + rewrite lookup_insert_eq in Hn'. right. destruct Hn' as [[_ [= <-]]|[?|(w2 & [= <-] & _ & Hw2)]]; [right|by left|right].
      * exists w. split_and!; [done|by left|done].
      * exists w. split_and!; [done|by left|]. destruct Hw2 as (? & ? & ? & ? & ?). unfold starts_lap. rewrite Hvw. done.
    + rewrite lookup_insert_ne in Hn' by done. destruct Hn' as [[? ?]|[?|(w2 & ? & ? & ?)]]; [left|right; by left|].
      * split; [|done]. cbn. rewrite not_elem_of_cons. split; [congruence|done].
      * right. right. exists w2. split_and!; [done|by right|done].
  - assert (lap_end t x < 2 ^ 128).
    { unfold lap_end. rewrite <- Hqz, <- He. pose proof (to_Z_in _ Haw). unfold in_u in *. lia. }
    destruct overflow; [by right|by constructor].
Qed.

Lemma reset_fold_spec l (m m' : gmap name witness) :
  (∀ x, x ∈ l → 0 <= votes x.2 < 2 ^ 63 - 1) →
  res_fold (λ m x, laps ← lap_time freezone_VIRTUAL_SCHEDULE_LAP_LENGTH2 (votes x.2);
    mret (<[x.1 := Witness (votes x.2) uint128_zero uint128_zero laps]> m)) m l = Ok m' →
  ∀ n w', m' !! n = Some w' → (∃ x, x ∈ l ∧ x.1 = n ∧ starts_lap uint128_zero x.2 w') ∨ (n ∉ l.*1) ∧ m !! n = Some w'.
Proof.
  revert m. induction l as [|x l IH]; intros m Hv H n w' Hn; cbn [res_fold] in H.
  { injection H as <-. right. split; [apply not_elem_of_nil|done]. }
  destruct (lap_time_spec (votes x.2)) as (q & Hq & Hqw & Hqz); [apply Hv; by left|].
  rewrite Hq, Ok_bind in H. unfold mret, res_ret in H. rewrite Ok_bind in H.
  destruct (IH _ (λ y Hy, Hv y ltac:(by right)) H n w' Hn) as [(y & ? & ? & ?)|[Hnl Hm]].
  { left. exists y. split; [by right|done]. }
  destruct (decide (x.1 = n)) as [<-|Hne].
  - left. rewrite lookup_insert_eq in Hm. injection Hm as <-. exists x. split_and!; [by left|done|].
    unfold starts_lap. cbn. by rewrite Hqz.
  - right. rewrite lookup_insert_ne in Hm by done. split; [|done]. cbn. apply not_elem_of_cons. split; [congruence|done].
Qed.

Lemma reset_spec s s' :
  map_Forall (λ _ w, 0 <= votes w < 2 ^ 63 - 1) (wits s) → reset_virtual_schedule_time s = Ok s' →
  infos s' = infos s ∧ wso s' = wso s ∧ dom (wits s) ⊆ dom (wits s') ∧
  (∀ n w', wits s' !! n = Some w' → ∃ w, wits s !! n = Some w ∧ starts_lap uint128_zero w w').
Proof.
  intros Hv H. unfold reset_virtual_schedule_time in H. apply bind_Ok in H as (ws & Hf & H). injection H as <-.
  split_and!; [reflexivity..| |].
  { change (dom (wits s) ⊆ dom ws). eapply (res_fold_ind (λ m, dom (wits s) ⊆ dom m)); [| |exact Hf]; [done|].
    intros m x m1 _ Hm H1. apply bind_Ok in H1 as (q & _ & H1). injection H1 as <-. rewrite dom_insert_L. set_solver. }
  intros n w' Hn. change (ws !! n = Some w') in Hn.
  change (wits (set_virtual_time uint128_zero s)) with (wits s) in Hf.
  destruct (reset_fold_spec _ _ _ (λ x Hx, Hv x.1 x.2 ltac:(apply elem_of_map_to_list; by destruct x)) Hf n w' Hn)
    as [([m w] & Hx & <- & Hs)|[Hnl Hm]].
  - exists w. split; [by apply elem_of_map_to_list in Hx|done].
  - destruct Hnl. apply list_elem_of_fmap. exists (n, w'). split; [done|by apply elem_of_map_to_list].
Qed.

(** ** Virtual time in a round *)

(** How a round [r] from [s] to [s'] moves the virtual time to [t']: to that of the
    last witness looked at, where the witnesses looked at start a new lap and all
    others keep their place; or, when one of these laps does not end within 128
    bits, to 0, where all witnesses start a lap. *)
Definition time_moves (r : round) (s s' : sched) (t' : uint128) : Prop :=
  let t := new_virtual_time r s in
  to_Z (current_virtual_time (staking (base s))) <= to_Z t ∧
  (Forall (λ x, lap_end t x < 2 ^ 128) (processed r) ∧ to_Z t' = to_Z t ∧
     (∀ n w', wits s' !! n = Some w' → ∃ w, wits s !! n = Some w ∧
        if decide (n ∈ (processed r).*1) then starts_lap t' w w' else w' = w)
   ∨ Exists (λ x, 2 ^ 128 <= lap_end t x) (processed r) ∧ to_Z t' = 0 ∧
     (∀ n w', wits s' !! n = Some w' → ∃ w, wits s !! n = Some w ∧ starts_lap t' w w')).

Section virtual_time.
Context (s : sched) (Hok : sched_ok s) (Hvt : vtime_ok (base s)).
Let r : round := choose s.

Lemma row_of n w : wits s !! n = Some w → ∃ x, x ∈ rows s ∧ x.1 = n ∧ rw x = w.
Proof using Hok.
  intros Hn. destruct Hok as (Hd & _). pose proof (elem_of_dom_2 _ _ _ Hn) as Hi. rewrite Hd in Hi.
  apply elem_of_dom in Hi as [i Hi]. exists (n, (w, i)). rewrite elem_of_rows. done.
Qed.

Lemma processed_rows x : x ∈ processed r → x ∈ rows s.
Proof using Type.
  intros Hx. destruct (choose_spec s) as (_ & _ & _ & _ & rest & He). fold r in He.
  rewrite <- (merge_sort_Permutation by_schedule_time), He. apply elem_of_app. by left.
Qed.

Lemma row_times x : x ∈ rows s → witness_times_ok (current_virtual_time (staking (base s))) (rw x).
Proof using Hvt. intros [Hx _]%elem_of_rows. destruct Hvt as [_ Hw]. by apply (Hw _ _ Hx). Qed.

Lemma new_virtual_time_ok :
  Uint128.wf (new_virtual_time r s) ∧ to_Z (current_virtual_time (staking (base s))) <= to_Z (new_virtual_time r s).
Proof using Hvt.
  unfold new_virtual_time. destruct (last (processed r)) as [x|] eqn:Hl; cbn [from_option].
  - apply last_Some_elem_of, processed_rows, row_times in Hl. destruct Hl as (_ & _ & _ & ? & ?). done.
  - destruct Hvt as [? _]. split; [done|lia].
Qed.

(** The witnesses that were not looked at are scheduled later. *)
Lemma unprocessed_later n w :
  wits s !! n = Some w → n ∉ (processed r).*1 → to_Z (new_virtual_time r s) <= to_Z (virtual_scheduled_time w).
Proof using Hok Hvt.
  intros Hn Hp. destruct (row_of n w Hn) as (x & Hx & <- & <-).
  destruct (choose_spec s) as (_ & _ & _ & _ & rest & He). fold r in He.
  pose proof (StronglySorted_merge_sort by_schedule_time (rows s)) as Hs. rewrite He in Hs.
  unfold new_virtual_time. destruct (last (processed r)) as [y|] eqn:Hl; cbn [from_option].
  - apply last_Some_elem_of in Hl. assert (x ∈ rest) as Hr.
    { rewrite <- (merge_sort_Permutation by_schedule_time), He in Hx. apply elem_of_app in Hx as [Hx|Hx]; [|done].
      destruct Hp. by apply (list_elem_of_fmap_2 fst). }
    pose proof (StronglySorted_app_1_elem_of _ _ _ _ _ Hs Hl Hr) as [?|[? _]]; lia.
  - by destruct (row_times x Hx) as (_ & _ & _ & _ & ?).
Qed.

Lemma update_virtual_times_spec t s1 :
  update_virtual_times r (round_marks r s) = Ok (t, s1) →
  Uint128.wf t ∧ infos s1 = infos (round_marks r s) ∧ wso s1 = wso s ∧ dom (wits s1) = dom (wits s) ∧
  (∀ n w', wits s1 !! n = Some w' → ∃ w, wits s !! n = Some w ∧
     (w' = w ∧ to_Z t <= to_Z (virtual_scheduled_time w') ∨ starts_lap t w w')) ∧
  time_moves r s s1 t.
Proof using Hok Hvt.
  intros H. unfold update_virtual_times in H. cbv zeta in H.
  destruct new_virtual_time_ok as [Htw Htc].
  change (new_virtual_time r (round_marks r s)) with (new_virtual_time r s) in H.
  change (wits (round_marks r s)) with (wits s) in H.
  apply bind_Ok in H as ([ws overflow] & Ha & H).
  apply advance_spec in Ha as (Hd & Hvs & Hn & Hend); [|done| |].
  2: { intros x Hx%processed_rows%row_times. by destruct Hx as [? _]. }
  2: { intros x Hx%processed_rows%elem_of_rows. destruct Hx as [-> _]. done. }
  set (s2 := set_base _ _) in H. destruct overflow.
  - apply bind_Ok in H as (s3 & Hr & H). injection H as <- <-. apply reset_spec in Hr as (Hi & Hw & Hdom & Hl).
    2: { intros n w Hnw. change (ws !! n = Some w) in Hnw. destruct Hvt as [_ Hf].
         specialize (Hvs n). rewrite Hnw in Hvs. destruct (wits s !! n) as [w0|] eqn:E; [|done].
         injection Hvs as ->. by destruct (Hf _ _ E) as [? _]. }
    assert (∀ n w', wits s3 !! n = Some w' → ∃ w, wits s !! n = Some w ∧ starts_lap uint128_zero w w') as Hlap.
    { intros n w' Hn'. destruct (Hl n w' Hn') as (w & Hw' & Hs). change (ws !! n = Some w) in Hw'.
      specialize (Hvs n). rewrite Hw' in Hvs. destruct (wits s !! n) as [w0|] eqn:E; [|done]. exists w0. split; [done|].
      injection Hvs as Hv. unfold starts_lap in *. rewrite <- Hv. done. }
    split_and!; [by vm_compute|by rewrite Hi|by rewrite Hw| | |split; [done|]; by right].
    + apply (anti_symm (⊆)); [|by rewrite <- Hd].
      rewrite <- Hd. intros n [w' Hn']%elem_of_dom. destruct (Hl n w' Hn') as (w & Hw' & _). by eapply elem_of_dom_2.
    + intros n w' Hn'. destruct (Hlap n w' Hn') as (w & ? & ?). exists w. split; [done|by right].
  - injection H as <- <-. split_and!; [done|done|done|done| |split; [done|left; split_and!; [done|done|]]];
      intros n w' Hn'; change (ws !! n = Some w') in Hn'; destruct (Hn n w' Hn') as [[Hp Hw]|[?|(w & Hw & Hp & Hs)]]; try done.
    + exists w'. split; [done|]. left. split; [done|]. by apply (unprocessed_later n).
    + exists w. split; [done|by right].
    + exists w'. split; [done|]. by rewrite decide_False.
    + exists w. split; [done|]. by rewrite decide_True.
Qed.
End virtual_time.

(** ** A round as a whole *)

Lemma schedule4_parts s s' (r := choose s) :
  sched_ok s → vtime_ok (base s) → update_witness_schedule4 s = Ok s' →
  ∃ t s1 h n factor majority shuffled,
    update_virtual_times r (round_marks r s) = Ok (t, s1) ∧
    Z.of_nat (length (active r)) = Z.min freezone_MAX_WITNESSES (Z.of_nat (size (infos s))) ∧
    n = Z.max (Z.of_nat (length (active r))) 1 ∧
    shuffle (now (base s1)) n (fill (active r)) = Ok shuffled ∧
    update_median_witness_props
      (set_virtual_time t (set_wso (new_round (set_hfp h s1) shuffled n factor majority) (set_hfp h s1))) = Ok s'.
Proof.
  intros Hok Hvt H. unfold update_witness_schedule4 in H. cbv zeta in H. fold r in H.
  apply bind_Ok in H as ([t s1] & Hu & H). apply bind_Ok in H as ([] & Ha & H). apply fc_assert_Ok, Z.eqb_eq in Ha.
  apply bind_Ok in H as ([majority h] & _ & H). apply bind_Ok in H as (shuffled & Hs & H).
  pose proof (update_virtual_times_spec s Hok Hvt t s1 Hu) as (_ & Hi & _ & Hd & _). destruct Hok as (Hdom & Hok).
  assert (dom (wits s1) = dom (infos s1)) as Hdi.
  { rewrite Hi, Hd, Hdom. symmetry. apply (round_marks_dom r s). }
  assert (length (rows s1) = size (infos s)) as Hlen.
  { unfold rows. etrans; [apply length_map_to_list|]. rewrite <- !size_dom, dom_map_zip_with, Hdi, Hi, round_marks_dom.
    f_equal. set_solver. }
  rewrite Hlen in Ha.
  assert (u8 (Z.of_nat (length (active r))) = Z.of_nat (length (active r))) as Hu8.
  { apply wrapu_small. unfold in_u. change freezone_MAX_WITNESSES with 21 in Ha. lia. }
  rewrite Hu8 in *. eexists t, s1, h, _, _, majority, shuffled. done.
Qed.

Lemma length_active s : sched_ok s →
  length (active (choose s)) = Nat.min (Z.to_nat freezone_MAX_WITNESSES) (length (runnable s)).
Proof. intros Hok. unfold active. rewrite length_fmap. by apply chosen_all. Qed.

Lemma active_NoDup s : sched_ok s → NoDup (active (choose s)).
Proof.
  intros Hok. destruct (chosen_all s Hok) as (Hnd & Hin & _). unfold active.
  apply (NoDup_fmap_fst (voted _ ++ _)); [|done]. intros x y1 y2 H1%Hin H2%Hin.
  apply elem_of_runnable in H1 as [_ H1], H2 as [_ H2]. by injection (rows_name _ _ _ H1 H2 eq_refl).
Qed.

(** The places of the schedule, for a round that has a witness. *)
Lemma schedule4_scheduled s s' :
  sched_ok s → vtime_ok (base s) → update_witness_schedule4 s = Ok s' → scheduled s' ≡ₚ active (choose s).
Proof.
  intros Hok Hvt H. destruct (schedule4_parts s s' Hok Hvt H) as (t & s1 & h & n & f & maj & sh & Hu & Hlen & -> & Hs & Hm).
  pose proof (update_median_frame _ _ Hm) as (_ & _ & -> & _).
  set (s2 := set_virtual_time _ _) in Hm |- *. set (a := active (choose s)) in *.
  destruct (decide (a = [])) as [Ha|Ha].
  - exfalso. unfold s2 in *. clear s2. rewrite Ha in *. change (length (@nil name)) with O in *.
    assert (infos s = ∅) as Hi. { apply map_size_empty_inv. change freezone_MAX_WITNESSES with 21 in Hlen. lia. }
    destruct (shuffle_spec (now (base s1)) [""] (replicate 20 "")) as (a' & Hs' & Hp); [done|].
    change (Z.of_nat (length [""])) with (Z.max (Z.of_nat 0) 1) in Hs'. change ([""] ++ replicate 20 "") with (fill []) in Hs'.
    rewrite Hs in Hs'. injection Hs' as ->. apply Permutation_singleton_r in Hp as ->.
    eapply (update_median_names _ _ "") in Hm as [i Hi']; [|apply list_elem_of_here].
    pose proof (update_virtual_times_spec s Hok Hvt t s1 Hu) as (_ & Hi1 & _).
    cbn [infos set_virtual_time set_base set_wso set_hfp] in Hi'. rewrite Hi1 in Hi'. apply elem_of_dom_2 in Hi'.
    rewrite round_marks_dom, Hi, dom_empty_L in Hi'. by apply not_elem_of_empty in Hi'.
  - assert (Z.max (Z.of_nat (length a)) 1 = Z.of_nat (length a)) as Hn by (destruct a; [done|cbn; lia]). rewrite Hn in *.
    destruct (shuffle_spec (now (base s1)) a (replicate (Z.to_nat freezone_MAX_WITNESSES - length a) "")) as (a' & Hs' & Hp).
    { change freezone_MAX_WITNESSES with 21 in Hlen. lia. }
    unfold fill in Hs. rewrite Hs' in Hs. injection Hs as <-.
    unfold scheduled, s2. cbn [wso set_virtual_time set_base set_wso new_round num_scheduled_witnesses current_shuffled_witnesses].
    rewrite ?Hn, Nat2Z.id, <- (Permutation_length Hp), take_app_length. done.
Qed.

Lemma StronglySorted_filter {A} (R : relation A) (P : A → Prop) `{∀ x, Decision (P x)} l :
  StronglySorted R l → StronglySorted R (filter P l).
Proof.
  induction 1 as [|x l _ IH Hx]; [constructor|]. rewrite filter_cons. case_decide; [|done].
  constructor; [done|]. apply Forall_forall. intros y [_ Hy]%list_elem_of_filter. by eapply Forall_forall in Hx.
Qed.

(** A witness that was not elected: the places were taken by others before it in the index. *)
Lemma not_voted s x (r := choose s) :
  x ∈ runnable s → x ∉ voted r →
  length (voted r) = Z.to_nat (max_voted_witnesses (wso s)) ∧ ∀ y, y ∈ voted r → by_vote_name y x.
Proof.
  intros Hx Hv. destruct (choose_spec s) as (He & _). fold r in He.
  set (k := Z.to_nat _) in *. set (l := filter _ _) in He.
  assert (StronglySorted by_vote_name l) as Hs by (apply StronglySorted_filter, StronglySorted_merge_sort; apply _).
  assert (x ∈ l) as Hl by (unfold l; by rewrite sorted_runnable).
  rewrite <- (take_drop k l) in Hl, Hs. rewrite <- He in Hl, Hs. apply elem_of_app in Hl as [Hl|Hl]; [done|].
  split.
  - rewrite He, length_take. apply Nat.min_l. destruct (decide (k <= length l)%nat); [done|].
    rewrite drop_ge in Hl by lia. by apply not_elem_of_nil in Hl.
  - intros y Hy. by eapply StronglySorted_app_1_elem_of.
Qed.

(** C18: A call of [update_witness_schedule4] that returns schedules
    min(21, number of witnesses) different witnesses, each with a block
    signing key (since hardfork 14), and it elects by votes: when a witness
    that could sign is left out, there are [max_voted_witnesses] scheduled
    witnesses with at least as many votes. *)
Theorem schedule4_round s s' :
  sched_ok s → vtime_ok (base s) → update_witness_schedule4 s = Ok s' →
  NoDup (scheduled s') ∧ Z.of_nat (length (scheduled s')) = Z.min freezone_MAX_WITNESSES (Z.of_nat (size (infos s))) ∧
  (∀ n, n ∈ scheduled s' → ∃ i, infos s !! n = Some i ∧ enabled s i = true) ∧
  (∀ n w i, wits s !! n = Some w → infos s !! n = Some i → enabled s i = true → n ∉ scheduled s' →
     ∃ l, NoDup l ∧ l ⊆ scheduled s' ∧ Z.of_nat (length l) = max_voted_witnesses (wso s) ∧
          ∀ m, m ∈ l → ∃ v, wits s !! m = Some v ∧ votes w <= votes v).
Proof.
  intros Hok Hvt H. pose proof (schedule4_scheduled s s' Hok Hvt H) as Hp.
  destruct (chosen_all s Hok) as (_ & Hin & _). pose proof (active_NoDup s Hok) as Hnd.
  split_and!.
  - by rewrite Hp.
  - destruct (schedule4_parts s s' Hok Hvt H) as (? & ? & ? & ? & ? & ? & ? & _ & Hlen & _). by rewrite Hp.
  - intros n Hn. rewrite Hp in Hn. apply list_elem_of_fmap in Hn as (x & -> & Hx).
    apply Hin, elem_of_runnable in Hx as [He [_ Hx]%elem_of_rows]. by exists (ri x).
  - intros n w i Hw Hi He Hn. destruct (not_voted s (n, (w, i))) as [Hlen Hle].
    { apply elem_of_runnable. by rewrite elem_of_rows. }
    { intros Hx. apply Hn. rewrite Hp. apply (list_elem_of_fmap_2' fst _ _ n) in Hx; [|done]. unfold active. rewrite fmap_app. set_solver. }
    exists (voted (choose s)).*1. split_and!.
    + unfold active in Hnd. rewrite fmap_app in Hnd. by apply NoDup_app in Hnd as [? _].
    + intros m Hm. rewrite Hp. unfold active. rewrite fmap_app. set_solver.
    + rewrite length_fmap. etrans; [apply (f_equal Z.of_nat Hlen)|]. destruct Hok as (_ & _ & ? & _). lia.
    + intros m (x & -> & Hx)%list_elem_of_fmap. exists (rw x). split.
      * assert (x ∈ runnable s) as [_ [? _]%elem_of_rows]%elem_of_runnable by (apply Hin, elem_of_app; by left). done.
      * destruct (Hle x Hx) as [?|[? _]]; unfold rw in *; simpl in *; lia.
Qed.

(** When fewer than min(21, number of witnesses) witnesses have a block
    signing key, the round cannot be made: [update_witness_schedule4] throws,
    so that the block that ends the round is rejected. *)
Theorem schedule4_needs_keys s :
  sched_ok s → vtime_ok (base s) →
  Z.of_nat (length (runnable s)) < Z.min freezone_MAX_WITNESSES (Z.of_nat (size (infos s))) →
  ∃ e, update_witness_schedule4 s = Throw e.
Proof.
  intros Hok Hvt Hlt. destruct (update_witness_schedule4 s) as [s'|e] eqn:H; [exfalso|by exists e].
  destruct (schedule4_parts s s' Hok Hvt H) as (? & ? & ? & ? & ? & ? & ? & _ & Hlen & _).
  rewrite length_active in Hlen by done. lia.
Qed.

(** ** Virtual time over rounds and votes *)

Lemma witness_times_weaken t t' w : to_Z t' <= to_Z t → witness_times_ok t w → witness_times_ok t' w.
Proof. intros Ht (? & ? & ? & ? & ?). split_and!; try done; lia. Qed.

Lemma adjust_witness_vote_vtime w wit delta d d' :
  vtime_ok d → has_hardfork freezone_HARDFORK_0_4 d = true → total_vesting_shares (gpo d) < 2 ^ 63 - 1 →
  witnesses (staking d) !! w = Some wit → in_s 64 delta → 0 <= votes wit + delta →
  adjust_witness_vote w delta d = Ok d' → vtime_ok d'.
Proof.
  intros [Ht Hw] Hhf Htv Hwit Hdelta Hpos H. destruct (Hw _ _ Hwit) as (Hv & Hlu & Hvp & Hvs & Hle).
  unfold adjust_witness_vote, get_witness in H. cbv zeta in H. rewrite Hwit in H. cbn [from_option_exn] in H. rewrite Ok_bind in H.
  set (t := current_virtual_time (staking d)) in *.
  destruct (of_i64_spec (votes wit)) as [Hvw _]; [unfold in_s; lia|].
  destruct (sub_assign_spec t (virtual_last_update wit) Ht Hlu) as [Hsw _].
  destruct (mul_assign_spec _ _ Hvw Hsw) as (dp & Hdp & Hdpw & _). rewrite Hdp, Ok_bind in H.
  destruct (add_assign_spec _ _ Hvp Hdpw) as [Hpw _]. set (pos := add_assign _ dp) in *.
  apply bind_Ok in H as (v & Hv' & H). apply safe_add_Ok in Hv' as [-> Hvin]; [|unfold in_s; lia|done].
  apply bind_Ok in H as ([] & Hmax & H). apply fc_assert_Ok, Z.leb_le in Hmax.
  set (lap := if has_hardfork _ d then _ else _) in H. assert (Uint128.wf lap) as Hlw by (unfold lap; case_match; by vm_compute).
  destruct (sub_assign_spec lap pos Hlw Hpw) as [Hlpw _].
  unfold i64 in H. rewrite wraps_small in H by (unfold in_s; lia).
  destruct (of_i64_spec (votes wit + delta + 1)) as [Hdw Hdz]; [unfold in_s; lia|]. rewrite u128_small in Hdz by (unfold in_u; lia).
  destruct (div_assign_spec _ _ Hlpw Hdw) as (q & Hq & Hqw & _); [lia|]. rewrite Hq, Ok_bind in H.
  destruct (add_assign_spec t q Ht Hqw) as [Haw _]. rewrite Hhf, ltb_spec in H by done.
  unfold mret, res_ret in H. injection H as <-. split; [done|].
  intros m u. cbn [staking set_witnesses set_staking witnesses]. 
  destruct (decide (w = m)) as [<-|Hne].
  - intros Hm. cbn in Hm. rewrite lookup_insert_eq in Hm. injection Hm as <-. cbn [andb]. unfold witness_times_ok.
    cbn [votes virtual_last_update virtual_position virtual_scheduled_time].
    destruct (Z.ltb_spec (to_Z (add_assign t q)) (to_Z t)); (split_and!; [lia|lia|done|done| |]); [by vm_compute| |done|done].
    pose proof (to_Z_in t Ht) as Hti. unfold in_u in Hti. change (to_Z uint128_max_value) with (2 ^ 128 - 1). cbn [staking set_witnesses set_staking current_virtual_time]. fold t. lia.
  - intros Hm. cbn in Hm. rewrite lookup_insert_ne in Hm by done. by apply (Hw _ _ Hm).
Qed.

Lemma schedule4_vtime s s' :
  sched_ok s → vtime_ok (base s) → update_witness_schedule4 s = Ok s' →
  let t' := current_virtual_time (staking (base s')) in
  sched_ok s' ∧ vtime_ok (base s') ∧ time_moves (choose s) s s' t'.
Proof.
  intros Hok Hvt H t'.
  destruct (schedule4_parts s s' Hok Hvt H) as (tn & s1 & h & n & f & maj & sh & Hu & _ & _ & _ & Hm).
  destruct (update_virtual_times_spec s Hok Hvt tn s1 Hu) as (Htw & Hi & Hwso & Hd & Hw & Hle).
  pose proof (update_median_frame _ _ Hm) as (Hi' & Hw' & _ & Ht').
  pose proof (update_median_maxima _ _ Hm) as [Hmv Hmm].
  cbn [infos set_virtual_time set_base set_wso set_hfp] in Hi'. 
  change (wits s' = wits s1) in Hw'. change (t' = tn) in Ht'.
  cbn [wso set_virtual_time set_base set_wso set_hfp new_round max_voted_witnesses max_miner_witnesses] in Hmv, Hmm. rewrite Hwso in Hmv, Hmm.
  split_and!.
  - destruct Hok as (Hdom & Hid & Hmax). split_and!; [| |rewrite ?Hmv, ?Hmm; apply Hmax..].
    + rewrite Hw', Hi', Hd, Hi, Hdom. symmetry. apply (round_marks_dom (choose s) s).
    + intros m1 m2 i j H1 H2 He. rewrite Hi', Hi in H1, H2.
      pose proof (round_marks_id (choose s) s m1) as E1. rewrite H1 in E1.
      pose proof (round_marks_id (choose s) s m2) as E2. rewrite H2 in E2.
      destruct (infos s !! m1) as [i1|] eqn:F1; [|done]. destruct (infos s !! m2) as [i2|] eqn:F2; [|done].
      cbn in E1, E2. apply (Hid m1 m2 i1 i2); [done..|congruence].
  - split; fold t'; [by rewrite Ht'|]. intros m w' Hm'. change (wits s' !! m = Some w') in Hm'. rewrite Hw' in Hm'.
    destruct (Hw m w' Hm') as (w & Hmw & Hcase). rewrite Ht'. destruct Hvt as [_ Hf]. pose proof (Hf _ _ Hmw) as Hwo.
    destruct Hcase as [[-> Hle']|Hs].
    + destruct Hwo as (? & ? & ? & ? & _). done.
    + apply (starts_lap_ok tn w); [done|by destruct Hwo as [? _]|done].
  - unfold time_moves in *. by rewrite Ht', Hw'.
Qed.

Lemma update_median_globals s s' :
  update_median_witness_props s = Ok s' →
  processed_hardforks (base s') = processed_hardforks (base s) ∧
  total_vesting_shares (gpo (base s')) = total_vesting_shares (gpo (base s)).
Proof.
  intros H. unfold update_median_witness_props in H. cbv zeta in H. repeat (apply bind_Ok in H as (? & _ & H)).
  injection H as <-. split; reflexivity.
Qed.

Lemma update_virtual_times_globals r s t s' :
  update_virtual_times r s = Ok (t, s') →
  processed_hardforks (base s') = processed_hardforks (base s) ∧ gpo (base s') = gpo (base s).
Proof.
  intros H. unfold update_virtual_times in H. cbv zeta in H. apply bind_Ok in H as ([ws []] & _ & H).
  - apply bind_Ok in H as (s1 & Hr & H). injection H as _ <-. unfold reset_virtual_schedule_time in Hr.
    apply bind_Ok in Hr as (ws' & _ & Hr). injection Hr as <-. split; reflexivity.
  - injection H as _ <-. split; reflexivity.
Qed.

(** The states of the chain between rounds: a round is made, the votes for a
    witness change, or the rest of a block is applied. *)
Inductive sched_step (s : sched) : sched → Prop :=
| step_round s' : update_witness_schedule s = Ok s' → sched_step s s'
| step_vote w wit delta d :
    wits s !! w = Some wit → in_s 64 delta → 0 <= votes wit + delta →
    adjust_witness_vote w delta (base s) = Ok d → sched_step s (set_base d s)
| step_witness n i :
    infos s !! n = None → (∀ m j, infos s !! m = Some j → wi_id j ≠ wi_id i) →
    sched_step s (set_infos <[n := i]> (set_base (set_witnesses <[n := Witness 0 uint128_zero uint128_zero uint128_max_value]> (base s)) s))
| step_block d :
    staking d = staking (base s) → processed_hardforks (base s) <= processed_hardforks d →
    total_vesting_shares (gpo d) < 2 ^ 63 - 1 → sched_step s (set_base d s).

Definition sched_inv (s : sched) : Prop :=
  sched_ok s ∧ vtime_ok (base s) ∧ has_hardfork freezone_HARDFORK_0_4 (base s) = true ∧
  total_vesting_shares (gpo (base s)) < 2 ^ 63 - 1.

Lemma adjust_witness_vote_frame w delta d d' :
  adjust_witness_vote w delta d = Ok d' →
  processed_hardforks d' = processed_hardforks d ∧ gpo d' = gpo d ∧
  (∀ wit, witnesses (staking d) !! w = Some wit → dom (witnesses (staking d')) = dom (witnesses (staking d))).
Proof.
  intros H. unfold adjust_witness_vote in H. cbv zeta in H. repeat (apply bind_Ok in H as (? & _ & H)).
  injection H as <-. split_and!; [reflexivity..|]. intros wit Hw%elem_of_dom_2. cbn. rewrite dom_insert_L. set_solver.
Qed.

Lemma sched_step_inv s s' : sched_inv s → sched_step s s' → sched_inv s'.
Proof.
  intros (Hok & Hvt & Hhf & Htv) [s1 H|w wit delta d Hw Hd Hp H|n i Hn Hi|d Hs Hh Ht].
  - unfold update_witness_schedule in H. destruct (_ =? 0); [|by injection H as <-]. rewrite Hhf in H.
    destruct (schedule4_vtime s s1 Hok Hvt H) as (Hok' & Hvt' & _).
    destruct (schedule4_parts s s1 Hok Hvt H) as (t & s2 & h & n & f & maj & sh & Hu & _ & _ & _ & Hm).
    apply update_median_globals in Hm as [Hm1 Hm2]. apply update_virtual_times_globals in Hu as [Hu1 Hu2].
    change (processed_hardforks (base s1) = processed_hardforks (base s2)) in Hm1.
    change (total_vesting_shares (gpo (base s1)) = total_vesting_shares (gpo (base s2))) in Hm2.
    unfold sched_inv, has_hardfork in *. rewrite Hm1, Hu1, Hm2, Hu2. done.
  - pose proof (adjust_witness_vote_vtime w wit delta _ _ Hvt Hhf Htv Hw Hd Hp H) as Hvt'.
    apply adjust_witness_vote_frame in H as (Hh & Hg & Hdom). specialize (Hdom _ Hw).
    unfold sched_inv, has_hardfork in *. cbn [base set_base]. rewrite Hh, Hg. split_and!; try done.
    destruct Hok as (Hd' & Hok). split; [|done]. change (dom (witnesses (staking d)) = dom (infos s)). by rewrite Hdom.
  - destruct Hok as (Hdom & Hids & Hmax). unfold sched_inv. split; [split; [|split; [|exact Hmax]]|split; [split|done]].
    + change (dom (<[n := Witness 0 uint128_zero uint128_zero uint128_max_value]> (wits s)) = dom (<[n := i]> (infos s))).
      by rewrite !dom_insert_L, Hdom.
    + intros m1 m2 i1 i2. change (<[n := i]> (infos s) !! m1 = Some i1 → <[n := i]> (infos s) !! m2 = Some i2 → wi_id i1 = wi_id i2 → m1 = m2).
      rewrite !lookup_insert_Some. intros [[<- <-]|[? H1]] [[<- <-]|[? H2]] E; [done|by apply Hi in H2|by apply Hi in H1|by eapply Hids].
    + apply Hvt.
    + destruct Hvt as [Ht Hw]. intros m w. change (<[n := Witness 0 uint128_zero uint128_zero uint128_max_value]> (wits s) !! m = Some w → witness_times_ok (current_virtual_time (staking (base s))) w).
      rewrite lookup_insert_Some. intros [[_ <-]|[_ Hm]]; [|by apply (Hw _ _ Hm)].
      pose proof (to_Z_in _ Ht) as Hti. unfold in_u in Hti. split_and!; cbn; try done. change (to_Z uint128_max_value) with (2 ^ 128 - 1). lia.
  - unfold sched_inv, has_hardfork, vtime_ok in *. cbn [base set_base]. rewrite Hs. bools. split; [|split; [done|split; [apply Z.ltb_lt; lia|done]]].
    destruct Hok as (Hd' & Hok). split; [|done]. change (dom (witnesses (staking d)) = dom (infos s)). by rewrite Hs.
Qed.

(** C19: Virtual time.  From hardfork 4 on, in every state reached by rounds, changes of votes,
    new witnesses and blocks, no witness is scheduled before the current virtual
    time, although the 128-bit sums can overflow.  A round moves the virtual time
    forward, to the time of the last witness it looked at: the witnesses it looked
    at start a lap of [(2^128 - 1) / (votes + 1)] there, all others keep their
    place.  Only when the end of one of these laps does not fit 128 bits, the time
    starts at 0 again, and every witness starts a lap there.  The tables of
    witnesses agree, votes are changed by 64-bit amounts to a result that is not negative, and
    fewer than 2^63 - 1 vesting shares exist. *)
Theorem virtual_time_invariant s s' :
  sched_inv s → rtc sched_step s s' →
  sched_inv s' ∧
  ∀ s2, update_witness_schedule4 s' = Ok s2 →
    time_moves (choose s') s' s2 (current_virtual_time (staking (base s2))).
Proof.
  intros Hinv Hr. assert (sched_inv s') as Hinv'.
  { induction Hr as [|s s1 s' H _ IH]; [done|]. by apply IH, (sched_step_inv s). }
  split; [done|]. intros s2 H. destruct Hinv' as (Hok & Hvt & _). by apply schedule4_vtime.
Qed.

(** ** What the scheduled witnesses can vote in *)

Lemma filter_none {A} (P : A → Prop) `{∀ x, Decision (P x)} (l : list A) : (∀ x, x ∈ l → ¬ P x) → filter P l = [].
Proof.
  intros Hl. induction l as [|x l IH]; [done|]. rewrite filter_cons_False by (apply Hl; by left).
  apply IH. intros y Hy. apply Hl. by right.
Qed.

Lemma filter_all {A} (P : A → Prop) `{∀ x, Decision (P x)} (l : list A) : Forall P l → filter P l = l.
Proof. induction 1 as [|x l Hx _ IH]; [done|]. by rewrite filter_cons_True, IH. Qed.

Lemma filter_bound {A} (P : A → Prop) `{∀ x, Decision (P x)} (l1 l2 : list A) :
  Forall (λ x, ¬ P x) l2 → (length (filter P (l1 ++ l2)) <= length l1)%nat.
Proof.
  intros Hl. rewrite filter_app, length_app.
  rewrite (filter_none P l2) by (by apply Forall_forall). cbn [length].
  pose proof (length_filter P l1). lia.
Qed.

Definition within (lo hi : Z) (f : witness_info → Z) (l : list witness_info) : list witness_info :=
  filter (λ i, lo <= f i <= hi) l.

(** More than half of the witnesses decide the median. *)
Lemma median_majority f l m lo hi :
  median f l = Ok m → (length l < 2 * length (within lo hi f l))%nat → lo <= m <= hi.
Proof.
  unfold median. intros Hm Hmaj. apply from_option_exn_Ok in Hm.
  set (v := merge_sort Z.le (f <$> l)) in *. set (k := Nat.div (length l) 2) in *.
  assert (v ≡ₚ f <$> l) as Hp by apply merge_sort_Permutation.
  assert (length v = length l) as Hlen by (by rewrite Hp, length_fmap).
  assert (StronglySorted Z.le v) as Hs by (apply StronglySorted_merge_sort; [intros ???; lia|intros ??; lia]).
  assert (length (within lo hi f l) = length (filter (λ z, lo <= z <= hi) v)) as Hw.
  { rewrite Hp. unfold within. clear. induction l as [|i l IH]; [done|]. rewrite fmap_cons, !filter_cons. case_decide; simpl; lia. }
  rewrite Hw in Hmaj. pose proof (lookup_lt_Some _ _ _ Hm) as Hk.
  assert (2 * k <= length l <= 2 * k + 1)%nat as Hdiv.
  { unfold k. pose proof (Nat.div_mod_eq (length l) 2). pose proof (Nat.mod_upper_bound (length l) 2). lia. }
  pose proof (take_drop_middle v k m Hm) as Hv.
  destruct (Z.lt_ge_cases m lo) as [Hlo|Hlo]; [|destruct (Z.lt_ge_cases hi m) as [Hhi|Hhi]; [|done]]; exfalso.
  - rewrite <- Hv in Hs, Hmaj. rewrite (cons_middle m), app_assoc in Hs, Hmaj.
    rewrite Permutation_app_comm in Hmaj.
    pose proof (filter_bound (λ z, lo <= z <= hi) (drop (S k) v) (take k v ++ [m])) as Hb.
    rewrite length_drop in Hb. rewrite Hlen in *. apply Nat.lt_nge in Hmaj. apply Hmaj. etrans; [apply Nat.mul_le_mono_l, Hb|lia].
    apply Forall_forall. intros z [Hz| ->%list_elem_of_singleton]%elem_of_app; [|lia].
    rewrite StronglySorted_app in Hs. destruct Hs as (_ & Hs & _).
    pose proof (StronglySorted_app_1_elem_of _ _ _ z m Hs Hz ltac:(by left)). lia.
  - rewrite <- Hv in Hs, Hmaj.
    pose proof (filter_bound (λ z, lo <= z <= hi) (take k v) (m :: drop (S k) v)) as Hb.
    rewrite length_take in Hb. apply Nat.lt_nge in Hmaj. apply Hmaj. etrans; [apply Nat.mul_le_mono_l, Hb|lia].
    apply Forall_forall. intros z [-> |Hz]%elem_of_cons; [lia|].
    rewrite StronglySorted_app in Hs. destruct Hs as (_ & _ & Hs). apply StronglySorted_cons in Hs as [Hs _].
    rewrite Forall_forall in Hs. specialize (Hs z Hz). lia.
Qed.

Lemma scheduled_infos_total s :
  (∀ n, n ∈ scheduled s → is_Some (infos s !! n)) →
  ∃ l, scheduled_infos s = Ok l ∧ length l = length (scheduled s) ∧ ∀ i, i ∈ l → ∃ n, n ∈ scheduled s ∧ infos s !! n = Some i.
Proof.
  unfold scheduled_infos. generalize (scheduled s) as names. intros names Hs.
  cut (∀ acc, ∃ l, res_fold (λ l n, i ← get_info n s; mret (l ++ [i])) acc names = Ok (acc ++ l) ∧ length l = length names ∧
    ∀ i, i ∈ l → ∃ n, n ∈ names ∧ infos s !! n = Some i); [intros Hc; apply (Hc [])|].
  induction names as [|n names IH]; intros acc.
  { exists []. rewrite app_nil_r. split_and!; [done..|]. by intros i Hi%not_elem_of_nil. }
  destruct (Hs n ltac:(by left)) as [i Hi]. assert (get_info n s = Ok i) as Hg by (unfold get_info; by rewrite Hi).
  cbn [res_fold]. rewrite Hg, !Ok_bind.
  destruct (IH (λ m Hm, Hs m ltac:(by right)) (acc ++ [i])) as (l & -> & Hlen & Hl).
  exists (i :: l). rewrite <- app_assoc. split_and!; [done|cbn; by rewrite Hlen|].
  intros j [-> |Hj]%elem_of_cons; [exists n; split; [by left|done]|].
  destruct (Hl j Hj) as (m & ? & ?). exists m. split; [by right|done].
Qed.

Lemma median_total f l : l ≠ [] → ∃ m, median f l = Ok m ∧ ∃ i, i ∈ l ∧ m = f i.
Proof.
  intros Hl. unfold median.
  assert (merge_sort Z.le (f <$> l) ≡ₚ f <$> l) as Hp by apply merge_sort_Permutation.
  destruct (lookup_lt_is_Some_2 (merge_sort Z.le (f <$> l)) (Nat.div (length l) 2)) as [m Hm].
  { rewrite Hp, length_fmap. apply Nat.div_lt; [|lia]. destruct l; [done|cbn; lia]. }
  exists m. rewrite Hm. split; [done|]. apply list_elem_of_lookup_2 in Hm. rewrite Hp in Hm.
  apply list_elem_of_fmap in Hm as (i & -> & Hi). by exists i.
Qed.

(** The parameters of one witness, scaled from those of all. *)
Lemma per_witness_usable budget decay :
  1 <= budget < 2 ^ 28 → 64 <= decay < 2 ^ 32 →
  usable_user (RdUserParams (Z.min (Z.quot (i64 (budget * freezone_WITNESS_SUBSIDY_BUDGET_PERCENT)) freezone_100_PERCENT) int32_max)
    (Z.min (u64 (decay * freezone_WITNESS_SUBSIDY_DECAY_PERCENT) / freezone_100_PERCENT) uint32_max)).
Proof.
  intros Hb Hd. unfold usable_user. cbn [user_budget user_decay].
  change freezone_WITNESS_SUBSIDY_BUDGET_PERCENT with 12500. change freezone_WITNESS_SUBSIDY_DECAY_PERCENT with 210000.
  change freezone_100_PERCENT with 10000. unfold i64, u64. rewrite wraps_small, wrapu_small by (unfold in_s, in_u; lia).
  rewrite Z.quot_div_nonneg by lia. mlia.
Qed.

(** The floor of the decay that [update_median_witness_props] computes. *)
Lemma min_decay_total dp subsidies :
  in_u 32 (decay_per_time_unit dp) → decay_per_time_unit_denom_shift dp = 36 → 0 <= subsidies < 2 ^ 63 →
  ∃ d scaled scaled' m, rd_compute_pool_decay dp subsidies 1 = Ok d ∧
    mul_assign (uint128_of_i64 (Z.max d 0)) (uint128_of_u64 freezone_DECAY_BACKSTOP_PERCENT) = Ok scaled ∧
    div_assign scaled (uint128_of_u64 freezone_100_PERCENT) = Ok scaled' ∧ to_int64 scaled' = Ok m.
Proof.
  intros Hu Hs Hp. destruct (decay_dt1 dp subsidies Hu Hs Hp) as [Hd Hb]. set (d := _ / _) in *.

  destruct (of_i64_spec d) as [W1 E1]; [unfold in_s; lia|]. rewrite u128_small in E1 by (unfold in_u; lia).
  destruct (of_u64_spec freezone_DECAY_BACKSTOP_PERCENT) as [W2 E2]; [by vm_compute|].
  destruct (of_u64_spec freezone_100_PERCENT) as [W3 E3]; [by vm_compute|].
  change freezone_DECAY_BACKSTOP_PERCENT with 9000 in *. change freezone_100_PERCENT with 10000 in *.
  destruct (mul_assign_exact _ _ W1 W2) as (p & Hm & Wp & Ep); [rewrite E1, E2; lia|]. rewrite E1, E2 in Ep.
  destruct (div_assign_spec p _ Wp W3) as (q & Hq & Wq & Eq); [lia|]. rewrite E3, Ep in Eq.
  exists d, p, q, (to_Z q). rewrite Z.max_l by lia. split_and!; [done..|]. apply to_int64_spec; [done|]. rewrite Eq. mlia.
Qed.

(** The parameters a witness may set. *)
Definition witness_params_ok (i : witness_info) : Prop :=
  valid_user (RdUserParams (cp_account_subsidy_budget (props i)) (cp_account_subsidy_decay (props i))) ∧
  0 <= available_witness_account_subsidies i < 2 ^ 63.

(** The medians exist and a majority decides each of them. *)
Lemma median_props_total s :
  scheduled s ≠ [] → (∀ n, n ∈ scheduled s → ∃ i, infos s !! n = Some i ∧ witness_params_ok i) →
  ∃ s' l, update_median_witness_props s = Ok s' ∧ scheduled_infos s = Ok l ∧ length l = length (scheduled s) ∧
    (∀ g lo hi, g ∈ [cp_account_creation_fee; cp_maximum_block_size; cp_sbd_interest_rate; cp_account_subsidy_budget; cp_account_subsidy_decay] →
       (length l < 2 * length (within lo hi (λ i, g (props i)) l))%nat → lo <= g (median_props (wso s')) <= hi) ∧
    maximum_block_size s' = cp_maximum_block_size (median_props (wso s')) ∧
    sbd_interest_rate (gpo (base s')) = cp_sbd_interest_rate (median_props (wso s')).
Proof.
  intros Hne Hs. destruct (scheduled_infos_total s) as (l & Hl & Hlen & Hin).
  { intros n (i & Hi & _)%Hs. by exists i. }
  assert (∀ i, i ∈ l → witness_params_ok i) as Hok.
  { intros i (n & Hn & Hi)%Hin. destruct (Hs n Hn) as (j & Hj & ?). naive_solver. }
  assert (l ≠ []) as Hl0 by (destruct l; [destruct (scheduled s); done|done]).
  destruct (median_total (λ i, cp_account_creation_fee (props i)) l Hl0) as (fee & Hfee & _).
  destruct (median_total (λ i, cp_maximum_block_size (props i)) l Hl0) as (size & Hsize & _).
  destruct (median_total (λ i, cp_sbd_interest_rate (props i)) l Hl0) as (interest & Hinterest & _).
  destruct (median_total (λ i, cp_account_subsidy_budget (props i)) l Hl0) as (budget & Hbudget & ib & Hib & Eb).
  destruct (median_total (λ i, cp_account_subsidy_decay (props i)) l Hl0) as (decay & Hdecay & id & Hid & Ed).
  destruct (median_total available_witness_account_subsidies l Hl0) as (subsidies & Hsub & iu & His & Es).
  destruct (Hok ib Hib) as [Hvb _]. destruct (Hok id Hid) as [Hvd _]. destruct (Hok iu His) as [_ Hsr]. rewrite <- Es in Hsr.
  assert (valid_user (RdUserParams budget decay)) as Hvu.
  { destruct Hvb as [_ Hvb], Hvd as [Hdi Hvd]. cbn [user_decay] in Hdi. rewrite <- Ed in Hdi, Hvd. rewrite <- Eb in Hvb.
    split; [done|]. unfold rd_validate_user_params in *. cbn [user_budget user_decay] in *.
    apply bind_Ok in Hvb as ([] & -> & Hvb). apply bind_Ok in Hvb as ([] & -> & _). rewrite !Ok_bind.
    apply bind_Ok in Hvd as ([] & _ & Hvd). by apply bind_Ok in Hvd as ([] & _ & Hvd). }
  unfold update_median_witness_props. rewrite Hl, Ok_bind, Hfee, Ok_bind, Hsize, Ok_bind, Hinterest, Ok_bind, Hbudget, Ok_bind,
    Hdecay, Ok_bind, Hsub, Ok_bind. cbv zeta.
  destruct (valid_user_budget _ Hvu) as [Hbb Hdb]. cbn [user_budget user_decay] in Hbb, Hdb.
  pose proof (per_witness_usable budget decay Hbb Hdb) as Hpw. set (per := RdUserParams (Z.min _ _) _) in *.
  set (system := RdSystemParams _ _). 
  rewrite (proj2 Hvu), Ok_bind.
  destruct (rd_setup_usable _ system (account_subsidy_rd (wso s)) (valid_user_bounds _ Hvu) eq_refl) as [-> _]. rewrite Ok_bind.
  destruct (rd_setup_usable per system (account_subsidy_witness_rd (wso s)) Hpw eq_refl) as [-> _]. rewrite Ok_bind.
  destruct (min_decay_total (RdDecayParams (user_decay per) 36) subsidies) as (d & p & q & m & Hd & Hp & Hq & Hm);
    [unfold in_u; destruct Hpw; cbn [decay_per_time_unit]; lia|done|done|].
  change (decay_params (out_params per system (account_subsidy_witness_rd (wso s)))) with (RdDecayParams (user_decay per) 36).
  rewrite Hd, Ok_bind, Hp, Ok_bind, Hq, Ok_bind, Hm, Ok_bind.
  eexists _, l. split; [reflexivity|]. split_and!; [done|done| |reflexivity|reflexivity].
  intros g lo hi Hg Hmaj. repeat (apply elem_of_cons in Hg as [-> |Hg]); [..|by apply not_elem_of_nil in Hg];
    (eapply median_majority; [|exact Hmaj]); assumption.
Qed.

(** C31: The median properties.  With at least one scheduled witness and
    parameters that passed validation, [update_median_witness_props] does not
    throw (the assertions on the scaled subsidy parameters hold), and each
    property it sets is decided by the majority: when more than half of the
    scheduled witnesses vote for a value between [lo] and [hi], so is the
    median. *)
Theorem median_props_spec s :
  scheduled s ≠ [] → (∀ n, n ∈ scheduled s → ∃ i, infos s !! n = Some i ∧ witness_params_ok i) →
  ∃ s' l, update_median_witness_props s = Ok s' ∧ scheduled_infos s = Ok l ∧ length l = length (scheduled s) ∧
    (∀ g lo hi, g ∈ [cp_account_creation_fee; cp_maximum_block_size; cp_sbd_interest_rate; cp_account_subsidy_budget; cp_account_subsidy_decay] →
       (length l < 2 * length (within lo hi (λ i, g (props i)) l))%nat → lo <= g (median_props (wso s')) <= hi) ∧
    maximum_block_size s' = cp_maximum_block_size (median_props (wso s')) ∧
    sbd_interest_rate (gpo (base s')) = cp_sbd_interest_rate (median_props (wso s')).
Proof. apply median_props_total. Qed.

(** ** Versions and hardforks *)

Lemma filter_split {A} (P Q R : A → Prop) `{∀ x, Decision (P x), ∀ x, Decision (Q x), ∀ x, Decision (R x)} (l : list A) :
  (∀ x, x ∈ l → P x ↔ Q x ∨ R x) → (∀ x, x ∈ l → Q x → R x → False) →
  length (filter P l) = (length (filter Q l) + length (filter R l))%nat.
Proof.
  induction l as [|x l IH]; intros HP HD; [done|].
  assert (length (filter P l) = (length (filter Q l) + length (filter R l))%nat) as IHl.
  { apply IH; intros y Hy; [apply HP|apply HD]; by right. }
  specialize (HP x ltac:(by left)). specialize (HD x ltac:(by left)).
  rewrite !filter_cons. repeat case_decide; cbn [length]; first [lia | tauto].
Qed.

Lemma filter_iff_in {A} (P Q : A → Prop) `{∀ x, Decision (P x), ∀ x, Decision (Q x)} (l : list A) :
  (∀ x, x ∈ l → P x ↔ Q x) → filter P l = filter Q l.
Proof.
  induction l as [|x l IH]; intros HP; [done|]. rewrite !filter_cons, IH by (intros; apply HP; by right).
  specialize (HP x ltac:(by left)). repeat case_decide; tauto.
Qed.

(** The witnesses that run at least version [v]. *)
Definition on_at_least (v : Z) (all : list Z) : Z := Z.of_nat (length (filter (λ x, v <= x) all)).

Lemma find_majority_spec required versions all acc :
  StronglySorted (flip Z.le) versions → NoDup versions →
  (∀ x, x ∈ all → x ∉ versions → ∀ v, v ∈ versions → v < x) →
  acc = Z.of_nat (length (filter (.∉ versions) all)) →
  match find_majority required acc versions all with
  | Some v => v ∈ versions ∧ required <= on_at_least v all ∧ ∀ v', v' ∈ versions → v < v' → on_at_least v' all < required
  | None => ∀ v', v' ∈ versions → on_at_least v' all < required
  end.
Proof.
  revert acc. induction versions as [|v versions IH]; intros acc Hs Hnd Hgt ->; cbn [find_majority].
  { by intros v' Hv%not_elem_of_nil. }
  apply StronglySorted_cons in Hs as [Hv Hs]. apply NoDup_cons in Hnd as [Hvn Hnd]. rewrite Forall_forall in Hv.
  assert (length (filter (.∉ versions) all) = (length (filter (.∉ v :: versions) all) + length (filter (v =.) all))%nat) as Hacc.
  { apply filter_split; intros x Hx; rewrite not_elem_of_cons; [|naive_solver].
    destruct (decide (v = x)) as [<-|]; naive_solver. }
  assert (length (filter (λ x, v <= x) all) = length (filter (.∉ versions) all)) as Hnum.
  { f_equal. apply filter_iff_in. intros x Hx. split.
    - intros Hle Hxv. assert (x = v) as -> by (specialize (Hv x Hxv); simpl in Hv; lia). done.
    - intros Hxv. destruct (decide (x = v)) as [-> |]; [done|].
      apply Z.lt_le_incl, (Hgt x Hx); [by apply not_elem_of_cons|by left]. }
  unfold count. rewrite <- Nat2Z.inj_add, <- Hacc.
  destruct (Z.leb_spec required (Z.of_nat (length (filter (.∉ versions) all)))) as [Hr|Hr].
  { split_and!; [by left|unfold on_at_least; by rewrite Hnum|].
    intros v' [-> |Hv']%elem_of_cons; [lia|]. specialize (Hv v' Hv'). simpl in Hv. lia. }
  assert (on_at_least v all < required) as Hlt by (unfold on_at_least; by rewrite Hnum).
  assert (∀ x, x ∈ all → x ∉ versions → ∀ u, u ∈ versions → u < x) as Hgt'.
  { intros x Hx Hxv u Hu. assert (u < v) by (specialize (Hv u Hu); simpl in Hv; destruct (decide (u = v)); [by subst|lia]).
    destruct (decide (x = v)) as [-> |]; [done|]. apply (Hgt x Hx); [by apply not_elem_of_cons|by right]. }
  specialize (IH _ Hs Hnd Hgt' eq_refl). destruct (find_majority _ _ _ _) as [v0|].
  - destruct IH as (Hin & Hreq & Hmax). split_and!; [by right|done|]. intros v' [-> |?]%elem_of_cons Hlt'; [done|by apply Hmax].
  - intros v' [-> |?]%elem_of_cons; [done|by apply IH].
Qed.

Lemma find_majority_all required all :
  match find_majority required 0 (merge_sort (flip Z.le) (remove_dups all)) all with
  | Some v => required <= on_at_least v all ∧ ∀ v', v' ∈ all → v < v' → on_at_least v' all < required
  | None => ∀ v', v' ∈ all → on_at_least v' all < required
  end.
Proof.
  set (vs := merge_sort _ _). assert (vs ≡ₚ remove_dups all) as Hp by apply merge_sort_Permutation.
  assert (∀ x, x ∈ vs ↔ x ∈ all) as Hin by (intros x; by rewrite Hp, elem_of_remove_dups).
  assert (StronglySorted (flip Z.le) vs) as Hs.
  { apply StronglySorted_merge_sort; [intros x y z; simpl; lia|intros x y; simpl; lia]. }
  assert (NoDup vs) as Hnd by (rewrite Hp; apply NoDup_remove_dups).
  pose proof (find_majority_spec required vs all 0 Hs Hnd ltac:(set_solver)) as H.
  rewrite filter_none in H by set_solver. specialize (H eq_refl). destruct (find_majority _ _ _ _) as [v|].
  - destruct H as (_ & ? & Hmax). split; [done|]. intros v' Hv'. by apply Hmax, Hin.
  - intros v' Hv'. by apply H, Hin.
Qed.

Lemma find_hardfork_spec required all :
  1 <= required →
  match find_hardfork required all with
  | Some v => required <= count v all
  | None => ∀ v, count v all < required
  end.
Proof.
  intros Hr. unfold find_hardfork. destruct (List.find _ _) as [v|] eqn:E.
  - apply List.find_some in E as [_ E]. by apply Z.leb_le.
  - intros v. destruct (decide (v ∈ all)) as [Hv|Hv].
    + apply Z.leb_gt. apply (List.find_none _ _ E v), list_elem_of_In. rewrite merge_sort_Permutation. by apply elem_of_remove_dups.
    + unfold count. rewrite filter_none; [cbn; lia|]. intros x Hx <-. done.
Qed.


(** The version votes of a round.  The hardfork that is scheduled next is
    one for which at least [hardfork_required_witnesses] of the scheduled
    witnesses voted, with its time; when there is none, no hardfork is
    scheduled.  The new majority version is the highest version of a scheduled
    witness that this many of them run or exceed; it stays as it was when there
    is none. *)
Theorem hardfork_votes_spec s l majority h :
  has_hardfork freezone_HARDFORK_0_5 (base s) = true → 1 <= hardfork_required_witnesses (wso s) →
  scheduled_infos s = Ok l → vote_on_versions s = Ok (majority, h) →
  let required := hardfork_required_witnesses (wso s) in
  let votes := (λ i, (hardfork_version_vote i, hardfork_time_vote i)) <$> l in
  let versions := running_version <$> l in
  (required <= count (next_hardfork h, next_hardfork_time h) votes ∨
   next_hardfork h = current_hardfork_version (hfp s) ∧ ∀ v, count v votes < required) ∧
  (required <= on_at_least majority versions ∧ (∀ v, v ∈ versions → majority < v → on_at_least v versions < required) ∨
   majority = majority_version (wso s) ∧ ∀ v, v ∈ versions → on_at_least v versions < required).
Proof.
  intros Hhf Hreq Hl H required votes versions. unfold vote_on_versions in H. rewrite Hhf, Hl, Ok_bind in H. cbv zeta in H.
  fold required votes versions in H. injection H as <- <-. split.
  - pose proof (find_hardfork_spec required votes Hreq) as Hf. destruct (find_hardfork required votes) as [[v t]|]; [by left|by right].
  - pose proof (find_majority_all required versions) as Hf. destruct (find_majority _ _ _ _) as [v|]; [by left|by right].
Qed.

(** ** A small chain

    Three witnesses, one of them without a signing key in [sample_sched false]. *)

Definition round_db (next_time : uint128) : db :=
  DB ∅ ∅ ∅ ∅ ∅ ∅ ∅ ∅ ∅ ∅ ∅
    (Staking {[ "alice" := Witness 500 uint128_zero uint128_zero (uint128_of_u64 7); "bob" := Witness 20 uint128_zero uint128_zero next_time;
       "carol" := Witness 300 uint128_zero uint128_zero (uint128_of_u64 9) ]} ∅ (uint128_of_u64 5) ∅ ∅ ∅ 0)
    0 (GPO 42 1000000 1400 0 0 1400 1400 1400 0 0 0 0 10000 10 432000 2500)
    null_price 22.

Definition sample_info (id key fee : Z) : witness_info :=
  WitnessInfo id 0 key (ChainProperties fee 65536 1000 797 347321) none 21 22 1000 5000 0 0 0.

Definition sample_sched (keys : bool) : sched :=
  Sched (round_db (uint128_of_u64 8))
    {[ "alice" := sample_info 0 11 100; "bob" := sample_info 1 (if keys then 12 else 0) 300; "carol" := sample_info 2 13 250 ]}
    (WSO 42 (fill ["alice"; "bob"; "carol"]) 3 1 5 1 25 (ChainProperties 0 0 0 0 0) 20 1 1 2
       (RdDynamicsParams 0 0 0 0 (RdDecayParams 0 0) 0) (RdDynamicsParams 0 0 0 0 (RdDecayParams 0 0) 0))
    0 65536 (HardforkProperties 20 20 0).

Definition sample_next : sched :=
  match update_witness_schedule4 (sample_sched true) with Ok s => s | Throw _ => sample_sched true end.

Lemma sample_infos keys n i :
  infos (sample_sched keys) !! n = Some i →
  n = "alice" ∧ i = sample_info 0 11 100 ∨ n = "bob" ∧ i = sample_info 1 (if keys then 12 else 0) 300 ∨
  n = "carol" ∧ i = sample_info 2 13 250.
Proof.
  cbn [sample_sched infos]. rewrite !lookup_insert_Some, lookup_singleton_Some. naive_solver.
Qed.

Lemma sample_sched_ok keys : sched_ok (sample_sched keys).
Proof.
  split_and!; [by destruct keys; vm_compute| |done..].
  intros n m i j Hn%sample_infos Hm%sample_infos He.
  destruct Hn as [[-> ->]|[[-> ->]|[-> ->]]], Hm as [[-> ->]|[[-> ->]|[-> ->]]]; done.
Qed.

Lemma sample_vtime_ok keys : vtime_ok (base (sample_sched keys)).
Proof.
  split; [by vm_compute|]. intros n w. cbn [sample_sched base round_db staking witnesses current_virtual_time].
  rewrite !lookup_insert_Some, lookup_singleton_Some.
  intros [[_ <-]|[_ [[_ <-]|[_ [_ <-]]]]]; by vm_compute.
Qed.

Lemma schedule4_round_witness :
  update_witness_schedule4 (sample_sched true) = Ok sample_next ∧ scheduled sample_next = ["bob"; "alice"; "carol"] ∧
  NoDup (scheduled sample_next).
Proof.
  split_and!; [by vm_compute..|].
  apply (schedule4_round (sample_sched true) sample_next); [apply sample_sched_ok|apply sample_vtime_ok|by vm_compute].
Defined.

Lemma schedule4_needs_keys_witness :
  length (runnable (sample_sched false)) = 2%nat ∧ ∃ e, update_witness_schedule4 (sample_sched false) = Throw e.
Proof.
  split; [by vm_compute|]. apply schedule4_needs_keys; [apply sample_sched_ok|apply sample_vtime_ok|by vm_compute].
Defined.

Lemma virtual_time_invariant_witness :
  sched_step (sample_sched true) sample_next ∧ sched_inv sample_next ∧
  to_Z (current_virtual_time (staking (base sample_next))) = 9.
Proof.
  assert (sched_step (sample_sched true) sample_next) as Hs by (apply step_round; by vm_compute).
  split_and!; [done| |by vm_compute]. apply (virtual_time_invariant (sample_sched true) sample_next).
  - split_and!; [apply sample_sched_ok|apply sample_vtime_ok|by vm_compute|by vm_compute].
  - by apply rtc_once.
Defined.

Lemma median_props_spec_witness :
  ∃ s', update_median_witness_props (sample_sched true) = Ok s' ∧ 200 <= cp_account_creation_fee (median_props (wso s')) <= 300.
Proof.
  destruct (median_props_spec (sample_sched true)) as (s' & l & Hs & Hl & _ & Hm & _).
  - done.
  - intros n Hn. assert (n = "alice" ∨ n = "bob" ∨ n = "carol") as Hc by (vm_compute in Hn; set_solver).
    destruct Hc as [-> |[-> | ->]]; (eexists; split; [by vm_compute|]); by vm_compute.
  - exists s'. split; [done|]. apply Hm; [by left|]. injection Hl as <-. vm_compute. lia.
Defined.

Lemma hardfork_votes_spec_witness :
  ∃ majority h, vote_on_versions (sample_sched true) = Ok (majority, h) ∧ next_hardfork h = 22 ∧
    2 <= on_at_least majority [21; 21; 21].
Proof.
  eexists _, _. split; [vm_compute; reflexivity|]. split; [done|].
  destruct (hardfork_votes_spec (sample_sched true) [sample_info 0 11 100; sample_info 1 12 300; sample_info 2 13 250]
    21 (HardforkProperties 20 22 1000)) as [_ [[H _]|[H _]]]; [done|done|by vm_compute|by vm_compute|exact H|discriminate].
Defined.
