(* ===== verification/Slots.v ===== *)
(** * Slots, block headers and irreversibility

    database.cpp: the time slots of block production ([get_slot_time],
    [get_slot_at_time], [get_scheduled_witness]), the checks of a block header
    ([validate_block_header]) and the bookkeeping of an applied block
    ([update_global_dynamic_data], [update_signing_witness],
    [update_last_irreversible_block]).

    A time is a number of seconds, 32 bits wide.  The signee of a header is
    recovered by the elliptic-curve library, which is a parameter. *)

From S2P Require Import Prelude Config AccountName Uint128 SafeInt AssetSymbol Asset Manabar ResourceDynamics MapSum State Ledger Votes.
From stdpp Require Import gmap strings sorting.
From S2P Require Import ForkDatabase WitnessSchedule Rounds.
#[local] Open Scope Z_scope.

(** The extensions of a header; automated actions are opaque here. *)
Inductive header_extension : Type :=
| ext_void
| ext_version (v : Z)
| ext_hardfork_vote (hf_version hf_time : Z)
| ext_required_actions (l : list Z)
| ext_optional_actions (l : list Z).

(** What a block header has beside the id of the previous block. *)
Record body : Type := Body {
  timestamp : Z;                        (* time_point_sec *)
  block_witness : name;
  witness_signature : Z;
  transaction_merkle_root : Z;
  extensions : list header_extension
}.

(** Whether a signature has to be canonical by BIP 62 or by the older rule. *)
Inductive canonical_signature_type : Set := fc_canonical | bip_0062.

(** [signed_block_header::signee] *)
Class Signee : Type := signee : signed_block body → canonical_signature_type → Z.

(** The chain state with the members of dynamic_global_property_object that
    blocks change. *)
Record slots : Type := Slots {
  sc : sched;
  head_block_id : block_id;
  current_aslot : Z;                    (* uint64_t *)
  recent_slots_filled : uint128;
  participation_count : Z;              (* uint8_t *)
  last_irreversible_block_num : Z       (* uint32_t *)
}.

Definition set_sc (s : sched) (n : slots) : slots :=
  Slots s (head_block_id n) (current_aslot n) (recent_slots_filled n) (participation_count n) (last_irreversible_block_num n).
Definition set_irreversible (v : Z) (n : slots) : slots :=
  Slots (sc n) (head_block_id n) (current_aslot n) (recent_slots_filled n) (participation_count n) v.

Definition head_num (n : slots) : Z := head_block_number (gpo (base (sc n))).
Definition head_time (n : slots) : Z := head_block_time (gpo (base (sc n))).

(** ** Slots *)

Definition get_scheduled_witness (slot_num : Z) (n : slots) : res name :=
  let aslot := u64 (current_aslot n + slot_num) in
  let w := wso (sc n) in
  from_option_exn out_of_range (current_shuffled_witnesses w !! Z.to_nat (aslot mod num_scheduled_witnesses w)).

Definition get_slot_time (slot_num : Z) (n : slots) : Z :=
  if slot_num =? 0 then 0
  else if head_num n =? 0 then u32 (head_time n + u32 (slot_num * freezone_BLOCK_INTERVAL))
  else
    let head_block_abs_slot := head_time n / freezone_BLOCK_INTERVAL in
    u32 (u32 (head_block_abs_slot * freezone_BLOCK_INTERVAL) + u32 (slot_num * freezone_BLOCK_INTERVAL)).

Definition get_slot_at_time (when : Z) (n : slots) : Z :=
  let first_slot_time := get_slot_time 1 n in
  if when <? first_slot_time then 0
  else u32 ((when - first_slot_time) / freezone_BLOCK_INTERVAL + 1).

(** ** The header of a block *)

(** The skip flags that the checks look at. *)
Record skip_flags : Type := SkipFlags {
  skip_witness_signature : bool;
  skip_witness_schedule_check : bool;
  skip_undo_history_check : bool
}.

Definition validate_block_header `{Signee} (skip : skip_flags) (b : signed_block body) (n : slots) : res witness_info :=
  _ ← fc_assert (bool_decide (head_block_id n = previous b));
  _ ← fc_assert (head_time n <? timestamp (content b));
  w ← get_info (block_witness (content b)) (sc n);
  _ ← (if skip_witness_signature skip then mret tt
       else fc_assert (signee b (if has_hardfork freezone_HARDFORK_0_20 (base (sc n)) then bip_0062 else fc_canonical) =? signing_key w));
  _ ← (if skip_witness_schedule_check skip then mret tt
       else
         let slot_num := get_slot_at_time (timestamp (content b)) n in
         _ ← fc_assert (0 <? slot_num);
         scheduled_witness ← get_scheduled_witness slot_num n;
         fc_assert (bool_decide (block_witness (content b) = scheduled_witness)));
  mret w.

(** ** The bookkeeping of an applied block *)

Definition set_missed (missed key : Z) (w : witness_info) : witness_info :=
  WitnessInfo (wi_id w) (pow_worker w) key (props w) (schedule w) (running_version w) (hardfork_version_vote w)
    (hardfork_time_vote w) (available_witness_account_subsidies w) (last_confirmed_block_num w) (last_aslot w) missed.
Definition set_confirmed (num aslot : Z) (w : witness_info) : witness_info :=
  WitnessInfo (wi_id w) (pow_worker w) (signing_key w) (props w) (schedule w) (running_version w) (hardfork_version_vote w)
    (hardfork_time_vote w) (available_witness_account_subsidies w) num aslot (total_missed w).

(** The witness of a slot without a block.  Between hardforks 14 and 20 it loses
    its key after a day without one. *)
Definition miss_slot (b : signed_block body) (n : slots) (i : nat) : res slots :=
  m ← get_scheduled_witness (Z.of_nat i + 1) n;
  w ← get_info m (sc n);
  if bool_decide (m = block_witness (content b)) then mret n
  else
    let d := base (sc n) in
    let shut := has_hardfork freezone_HARDFORK_0_14 d && negb (has_hardfork freezone_HARDFORK_0_20 d)
                && (freezone_BLOCKS_PER_DAY <? u64 (head_num n - last_confirmed_block_num w)) in
    mret (set_sc (set_infos <[m := set_missed (u32 (total_missed w + 1)) (if shut then null_key else signing_key w) w]> (sc n)) n).

(** One turn of the loop over the slots since the last block. *)
Definition fill_slot (n : slots) (i : nat) : res slots :=
  let filled := recent_slots_filled n in
  let count := u8 (participation_count n - (if Z.land (hi filled) 0x8000000000000000 =? 0 then 0 else 1)) in
  let new := if (i =? 0)%nat then 1 else 0 in
  shifted ← shl_assign filled (uint128_of_u64 1);
  mret (Slots (sc n) (head_block_id n) (current_aslot n) (add_assign shifted (uint128_of_u64 new)) (u8 (count + new))
          (last_irreversible_block_num n)).

Definition set_head (num time : Z) (g : global_properties) : global_properties :=
  GPO num time (current_supply g) (current_sbd_supply g) (init_sbd_supply g)
    (virtual_supply g) (total_vesting_fund_freezone g) (total_vesting_shares g) (total_reward_fund_freezone g)
    (pending_rewarded_vesting_shares g) (pending_rewarded_vesting_freezone g) (sbd_interest_rate g) (sbd_print_rate g)
    (target_votes_per_period g) (delegation_return_period g) (downvote_pool_percent g).

Definition set_head_block `{BlockHash body} (b : signed_block body) (missed_blocks : Z) (n : slots) : slots :=
  let d := base (sc n) in
  Slots (set_base (set_gpo (set_head (block_num b) (timestamp (content b)) (gpo d)) d) (sc n)) (block_id_of b)
    (u64 (current_aslot n + u32 (missed_blocks + 1))) (recent_slots_filled n) (participation_count n) (last_irreversible_block_num n).

Definition update_global_dynamic_data `{BlockHash body} (skip : skip_flags) (b : signed_block body) (n : slots) : res slots :=
  let missed_blocks := if head_time n =? 0 then 0 else u32 (get_slot_at_time (timestamp (content b)) n - 1) in
  n ← res_fold (miss_slot b) n (seq 0 (Z.to_nat missed_blocks));
  n ← res_fold fill_slot n (seq 0 (Z.to_nat (u32 (missed_blocks + 1))));
  let n := set_head_block b missed_blocks n in
  _ ← (if skip_undo_history_check skip then mret tt
       else check undo_database_exception (u32 (head_num n - last_irreversible_block_num n) <? freezone_MAX_UNDO_HISTORY));
  mret n.

Definition update_signing_witness (signing_witness : name) (b : signed_block body) (n : slots) : res slots :=
  let new_block_aslot := u64 (current_aslot n + get_slot_at_time (timestamp (content b)) n) in
  w ← get_info signing_witness (sc n);
  mret (set_sc (set_infos <[signing_witness := set_confirmed (block_num b) new_block_aslot w]> (sc n)) n).

(** The block that enough witnesses have built on.  [nth_element] puts at
    [offset] what a sort would put there. *)
Definition confirmed_offset (size : nat) : nat :=
  Z.to_nat ((freezone_100_PERCENT - freezone_IRREVERSIBLE_THRESHOLD) * Z.of_nat size / freezone_100_PERCENT).

Definition update_last_irreversible_block (n : slots) : res slots :=
  if head_num n <? freezone_START_MINER_VOTING_BLOCK then
    mret (if freezone_MAX_WITNESSES <? head_num n then set_irreversible (head_num n - freezone_MAX_WITNESSES) n else n)
  else
    l ← scheduled_infos (sc n);
    v ← from_option_exn out_of_range (merge_sort Z.le (last_confirmed_block_num <$> l) !! confirmed_offset (length l));
    let v := u32 v in
    mret (if last_irreversible_block_num n <? v then set_irreversible v n else n).

(** ** Slots and times *)

(** The time of "slot 0". *)
Definition origin (n : slots) : Z := if head_num n =? 0 then head_time n else head_time n / 3 * 3.

Lemma origin_bounds n : 0 <= head_time n → 0 <= origin n <= head_time n ∧ head_time n < origin n + 3.
Proof. unfold origin. destruct (_ =? 0); mlia. Qed.

Lemma get_slot_time_spec n k :
  0 <= head_time n → 1 <= k → origin n + 3 * k < 2 ^ 32 → get_slot_time k n = origin n + 3 * k.
Proof.
  intros Ht Hk Hlt. pose proof (origin_bounds n Ht) as Ho. unfold get_slot_time, origin in *.
  change freezone_BLOCK_INTERVAL with 3. rewrite (proj2 (Z.eqb_neq k 0)) by lia.
  destruct (head_num n =? 0); mlia.
Qed.

Lemma get_slot_at_time_spec n t :
  0 <= head_time n → head_time n + 3 < 2 ^ 32 → 0 <= t < 2 ^ 32 →
  get_slot_at_time t n = if t <? origin n + 3 then 0 else (t - origin n) / 3.
Proof.
  intros Ht Hlt Hw. pose proof (origin_bounds n Ht) as Ho. unfold get_slot_at_time.
  rewrite get_slot_time_spec by lia. rewrite Z.mul_1_r. change freezone_BLOCK_INTERVAL with 3.
  destruct (Z.ltb_spec t (origin n + 3)); [done|]. mlia.
Qed.

(** Slots and times.  The slot of the time of slot [k] is [k]; a time
    before the first slot has slot 0, and every other time [t] lies in the three
    seconds of the slot [get_slot_at_time t]. *)
Theorem slot_time_roundtrip n :
  0 <= head_time n → head_time n + 3 < 2 ^ 32 →
  (∀ k, 1 <= k → head_time n + 3 * k < 2 ^ 32 → get_slot_at_time (get_slot_time k n) n = k) ∧
  (∀ t, 0 <= t < 2 ^ 32 →
     let k := get_slot_at_time t n in
     k = 0 ∧ t < get_slot_time 1 n ∨ 1 <= k ∧ get_slot_time k n <= t < get_slot_time k n + freezone_BLOCK_INTERVAL).
Proof.
  intros Ht Hlt. pose proof (origin_bounds n Ht) as Ho. split.
  - intros k Hk Hov. rewrite get_slot_time_spec by lia. rewrite get_slot_at_time_spec by lia.
    rewrite (proj2 (Z.ltb_ge _ _)) by lia. mlia.
  - intros t Htr k. subst k. change freezone_BLOCK_INTERVAL with 3. rewrite get_slot_at_time_spec by done.
    destruct (Z.ltb_spec t (origin n + 3)); [left; rewrite get_slot_time_spec by lia; lia|right].
    rewrite get_slot_time_spec by mlia. mlia.
Qed.

(** ** The loops of [update_global_dynamic_data] *)

Lemma miss_slots_frame b l n n' :
  res_fold (miss_slot b) n l = Ok n' → ∃ m, n' = set_sc (set_infos (λ _, m) (sc n)) n.
Proof.
  intros H. eapply (res_fold_ind (λ x, ∃ m, x = set_sc (set_infos (λ _, m) (sc n)) n)); [| |exact H].
  - exists (infos (sc n)). destruct n as [[] ? ? ? ? ?]. done.
  - intros n1 i n2 _ [m ->] Hm. unfold miss_slot in Hm.
    apply bind_Ok in Hm as (w & _ & Hm). apply bind_Ok in Hm as (wi & _ & Hm). cbv zeta in Hm.
    destruct (bool_decide _); injection Hm as <-; [by exists m|]. by eexists.
Qed.

Lemma fill_slots_frame l n n' :
  res_fold fill_slot n l = Ok n' →
  ∃ filled count, n' = Slots (sc n) (head_block_id n) (current_aslot n) filled count (last_irreversible_block_num n).
Proof.
  intros H. eapply (res_fold_ind (λ x, ∃ filled count,
    x = Slots (sc n) (head_block_id n) (current_aslot n) filled count (last_irreversible_block_num n))); [| |exact H].
  - exists (recent_slots_filled n), (participation_count n). by destruct n.
  - intros n1 i n2 _ (f & c & ->) Hm. unfold fill_slot in Hm. apply bind_Ok in Hm as (sh & _ & Hm). injection Hm as <-. by eexists _, _.
Qed.

Section block_slots.
Context `{Signee} `{BlockHash body}.

Lemma update_global_frame skip b n n' missed :
  update_global_dynamic_data skip b n = Ok n' →
  missed = (if head_time n =? 0 then 0 else u32 (get_slot_at_time (timestamp (content b)) n - 1)) →
  wso (sc n') = wso (sc n) ∧ head_time n' = timestamp (content b) ∧ head_num n' = block_num b ∧ head_block_id n' = block_id_of b ∧
  current_aslot n' = u64 (current_aslot n + u32 (missed + 1)) ∧ last_irreversible_block_num n' = last_irreversible_block_num n.
Proof.
  intros H1 ->. unfold update_global_dynamic_data in H1. cbv zeta in H1.
  apply bind_Ok in H1 as (n1 & Hm & H1). apply bind_Ok in H1 as (n2 & Hf & H1). apply bind_Ok in H1 as ([] & _ & H1). injection H1 as <-.
  apply miss_slots_frame in Hm as (m & ->). apply fill_slots_frame in Hf as (f & c & ->). split_and!; reflexivity.
Qed.

(** C21: A block fills the slot it was scheduled for.  When a header passes the
    checks and the block is recorded, the block was signed by the witness
    that is scheduled for the slot of its timestamp, the absolute slot number
    advances by that slot number, in step with time, and the slot is used
    up: the time of the block has slot 0 afterwards, so the next block that
    passes has a later slot. *)
Theorem block_fills_its_slot skip b n n' w :
  validate_block_header skip b n = Ok w → update_global_dynamic_data skip b n = Ok n' →
  skip_witness_signature skip = false → skip_witness_schedule_check skip = false →
  head_num n ≠ 0 → 0 < head_time n → timestamp (content b) + 3 < 2 ^ 32 → 0 <= current_aslot n < 2 ^ 63 →
  let k := get_slot_at_time (timestamp (content b)) n in
  1 <= k ∧ get_scheduled_witness k n = Ok (block_witness (content b)) ∧
  infos (sc n) !! block_witness (content b) = Some w ∧ (∃ canonical, signee b canonical = signing_key w) ∧
  previous b = head_block_id n ∧ head_block_id n' = block_id_of b ∧ head_time n' = timestamp (content b) ∧
  current_aslot n' = current_aslot n + k ∧
  current_aslot n' - head_time n' / 3 = current_aslot n - head_time n / 3 ∧
  (block_num b ≠ 0 → get_slot_at_time (timestamp (content b)) n' = 0).
Proof.
  intros Hv Hu Hs1 Hs2 Hnum Ht Hts Has k. unfold validate_block_header in Hv. rewrite Hs1, Hs2 in Hv.
  apply bind_Ok in Hv as ([] & Hid & Hv). apply fc_assert_Ok, bool_decide_eq_true in Hid.
  apply bind_Ok in Hv as ([] & Hlt & Hv). apply fc_assert_Ok, Z.ltb_lt in Hlt.
  apply bind_Ok in Hv as (wi & Hw & Hv). unfold get_info in Hw. apply from_option_exn_Ok in Hw.
  apply bind_Ok in Hv as ([] & Hsig & Hv). apply fc_assert_Ok, Z.eqb_eq in Hsig.
  apply bind_Ok in Hv as ([] & Hsl & Hv). injection Hv as ->. cbv zeta in Hsl. fold k in Hsl.
  apply bind_Ok in Hsl as ([] & Hk & Hsl). apply fc_assert_Ok, Z.ltb_lt in Hk.
  apply bind_Ok in Hsl as (sw & Hsw & Hsl). apply fc_assert_Ok, bool_decide_eq_true in Hsl.
  destruct (update_global_frame skip b n n' _ Hu eq_refl) as (_ & Ht' & Hn' & Hid' & Ha' & _).
  rewrite (proj2 (Z.eqb_neq (head_time n) 0)) in Ha' by lia. fold k in Ha'.
  pose proof (origin_bounds n ltac:(lia)) as Ho.
  assert (k = (timestamp (content b) - origin n) / 3) as Hkv.
  { unfold k in *. rewrite get_slot_at_time_spec in * by lia. by destruct (Z.ltb_spec (timestamp (content b)) (origin n + 3)). }
  assert (k < 2 ^ 32) as Hk32 by mlia.
  assert (current_aslot n' = current_aslot n + k) as Ha by (rewrite Ha'; mlia).
  split_and!; [lia|by rewrite Hsw, Hsl|done|by eexists|done|done|done|done| |].
  - rewrite Ha, Ht', Hkv. unfold origin in *. rewrite (proj2 (Z.eqb_neq (head_num n) 0)) in * by done. mlia.
  - intros Hb. rewrite get_slot_at_time_spec by (rewrite ?Ht'; lia).
    unfold origin. rewrite Hn', Ht', (proj2 (Z.eqb_neq _ 0)) by done.
    rewrite (proj2 (Z.ltb_lt _ _)); [done|]. mlia.
Qed.
End block_slots.

(** ** Participation *)

(** The number of ones among the lowest [k] bits. *)
Definition ones (k : nat) (x : Z) : Z := zsum ((λ i : nat, b2z (Z.testbit x (Z.of_nat i))) <$> seq 0 k).

Lemma ones_S k x : ones (S k) x = ones k x + b2z (Z.testbit x (Z.of_nat k)).
Proof. unfold ones. rewrite seq_S, fmap_app, zsum_app. cbn. lia. Qed.

Lemma ones_bounds k x : 0 <= ones k x <= Z.of_nat k.
Proof. induction k as [|k IH]; [done|]. rewrite ones_S. destruct (Z.testbit _ _); cbn [b2z]; lia. Qed.

Lemma ones_ext k x y : (∀ i, 0 <= i < Z.of_nat k → Z.testbit x i = Z.testbit y i) → ones k x = ones k y.
Proof.
  induction k as [|k IH]; intros Hb; [done|]. rewrite !ones_S, IH by (intros; apply Hb; lia).
  by rewrite (Hb (Z.of_nat k)) by lia.
Qed.

(** A shift by one place that puts a bit at the lower end. *)
Lemma ones_double k x b : ones (S k) (2 * x + b2z b) = ones k x + b2z b.
Proof.
  change (b2z b) with (Z.b2z b). induction k as [|k IH].
  - rewrite ones_S. change (Z.of_nat 0) with 0. rewrite Z.testbit_0_r. by destruct b.
  - rewrite ones_S, IH, ones_S. rewrite Nat2Z.inj_succ, Z.testbit_succ_r by lia. lia.
Qed.

Lemma ones_shift x b : in_u 128 x → ones 128 (u128 (2 * x + b2z b)) = ones 128 x - b2z (Z.testbit x 127) + b2z b.
Proof.
  intros Hx. rewrite (ones_ext 128 _ (2 * x + b2z b)).
  - change 128%nat with (S 127) at 1. rewrite ones_double. change (ones 128 x) with (ones (S 127) x). rewrite (ones_S 127).
    change (Z.of_nat 127) with 127. lia.
  - intros i Hi. unfold u128, wrapu. by rewrite Z.mod_pow2_bits_low by lia.
Qed.

(** [participation_count] counts the filled slots among the last 128. *)
Definition participation_ok (n : slots) : Prop :=
  Uint128.wf (recent_slots_filled n) ∧ participation_count n = ones 128 (to_Z (recent_slots_filled n)).

Lemma top_bit a : Uint128.wf a → (if Z.land (hi a) 0x8000000000000000 =? 0 then 0 else 1) = b2z (Z.testbit (to_Z a) 127).
Proof.
  intros Hw. rewrite to_Z_bits by (done || lia). rewrite decide_False by lia. change (127 - 64) with 63.
  change 0x8000000000000000 with (2 ^ 63).
  destruct (Z.testbit (hi a) 63) eqn:E; destruct (Z.eqb_spec (Z.land (hi a) (2 ^ 63)) 0) as [H|H]; try done; exfalso.
  - apply (f_equal (λ x, Z.testbit x 63)) in H. rewrite Z.land_spec, E, Z.pow2_bits_true, Z.bits_0 in H by lia. done.
  - apply H. apply Z.bits_inj'. intros i Hi. rewrite Z.land_spec, Z.bits_0. destruct (decide (i = 63)) as [-> |].
    + by rewrite E.
    + by rewrite Z.pow2_bits_false, andb_false_r by lia.
Qed.

Lemma fill_slot_spec n i :
  participation_ok n →
  ∃ n', fill_slot n i = Ok n' ∧ participation_ok n' ∧
    to_Z (recent_slots_filled n') = u128 (2 * to_Z (recent_slots_filled n) + b2z (i =? 0)%nat).
Proof.
  intros [Hw Hc]. set (a := recent_slots_filled n) in *. unfold fill_slot. fold a.
  destruct (of_u64_spec 1) as [W1 E1]; [by vm_compute|].
  destruct (shl_assign_spec a (uint128_of_u64 1) Hw W1) as (sh & -> & Wsh & Esh). rewrite Ok_bind, E1 in *.
  set (new := if (i =? 0)%nat then 1 else 0). assert (new = b2z (i =? 0)%nat) as Hnew by (unfold new; by destruct (i =? 0)%nat).
  destruct (of_u64_spec new) as [W2 E2]; [unfold new, in_u; destruct (i =? 0)%nat; lia|].
  destruct (add_assign_spec sh (uint128_of_u64 new) Wsh W2) as [Wa Ea].
  assert (to_Z (add_assign sh (uint128_of_u64 new)) = u128 (2 * to_Z a + b2z (i =? 0)%nat)) as Hval.
  { rewrite Ea, Esh, E2, Hnew. unfold u128. mlia. }
  eexists. split; [reflexivity|]. split; [|exact Hval]. split; [exact Wa|].
  cbn [participation_count recent_slots_filled]. rewrite Hval, ones_shift by (by apply to_Z_in).
  rewrite Hc, top_bit, Hnew by done.
  pose proof (ones_bounds 128 (to_Z a)) as Hb. change (Z.of_nat 128) with 128 in Hb.
  assert (b2z (Z.testbit (to_Z a) 127) <= ones 128 (to_Z a)) as Hle.
  { change (ones 128 (to_Z a)) with (ones (S 127) (to_Z a)). rewrite (ones_S 127). change (Z.of_nat 127) with 127. pose proof (ones_bounds 127 (to_Z a)). lia. }
  destruct (Z.testbit (to_Z a) 127), (i =? 0)%nat; cbn [b2z] in *; mlia.
Qed.

Lemma fill_missed n (l : list nat) :
  participation_ok n → O ∉ l →
  ∃ n', res_fold fill_slot n l = Ok n' ∧ participation_ok n' ∧
    to_Z (recent_slots_filled n') = u128 (to_Z (recent_slots_filled n) * 2 ^ Z.of_nat (length l)).
Proof.
  revert n. induction l as [|i l IH]; intros n Hn Hl.
  { exists n. split_and!; [done..|]. cbn [length]. rewrite Z.mul_1_r. symmetry. apply u128_small, to_Z_in, Hn. }
  apply not_elem_of_cons in Hl as [Hi Hl]. destruct (fill_slot_spec n i Hn) as (n1 & H1 & Hn1 & E1).
  destruct (IH n1 Hn1 Hl) as (n2 & H2 & Hn2 & E2). exists n2. cbn [res_fold]. rewrite H1, Ok_bind. split_and!; [done..|].
  rewrite E2, E1. destruct (Nat.eqb_spec i 0); [done|]. cbn [b2z length].
  rewrite Nat2Z.inj_succ, Z.pow_succ_r, Z.add_0_r by lia. unfold u128, wrapu. rewrite Z.mul_mod_idemp_l by lia. f_equal. lia.
Qed.

Lemma fill_slots_spec n missed :
  participation_ok n →
  ∃ n', res_fold fill_slot n (seq 0 (S missed)) = Ok n' ∧ participation_ok n' ∧
    to_Z (recent_slots_filled n') = u128 ((2 * to_Z (recent_slots_filled n) + 1) * 2 ^ Z.of_nat missed).
Proof.
  intros Hn. cbn [seq res_fold]. destruct (fill_slot_spec n 0 Hn) as (n1 & -> & Hn1 & E1). rewrite Ok_bind.
  destruct (fill_missed n1 (seq 1 missed) Hn1) as (n2 & H2 & Hn2 & E2); [rewrite elem_of_seq; lia|].
  exists n2. split_and!; [done..|]. rewrite E2, E1, length_seq. cbn [Nat.eqb b2z]. unfold u128, wrapu. by rewrite Z.mul_mod_idemp_l by lia.
Qed.

(** Participation.  [participation_count] is the number of ones in
    [recent_slots_filled], a record of the last 128 slots, and a block keeps it
    so: a one for its own slot and a zero for each slot without a block. *)
Theorem participation_counts_slots `{BlockHash body} skip b n n' missed :
  participation_ok n → update_global_dynamic_data skip b n = Ok n' →
  missed = (if head_time n =? 0 then 0 else u32 (get_slot_at_time (timestamp (content b)) n - 1)) → missed < 2 ^ 32 - 1 →
  participation_ok n' ∧ 0 <= participation_count n' <= 128 ∧
  to_Z (recent_slots_filled n') = u128 ((2 * to_Z (recent_slots_filled n) + 1) * 2 ^ missed).
Proof.
  intros Hp H1 Hm Hlt. unfold update_global_dynamic_data in H1. cbv zeta in H1. rewrite <- Hm in H1.
  assert (0 <= missed) as H0 by (rewrite Hm; destruct (_ =? 0); [lia|apply wrapu_in; lia]).
  apply bind_Ok in H1 as (n1 & Hms & H1). apply bind_Ok in H1 as (n2 & Hf & H1). apply bind_Ok in H1 as ([] & _ & H1). injection H1 as <-.
  apply miss_slots_frame in Hms as (m & ->).
  replace (Z.to_nat (u32 (missed + 1))) with (S (Z.to_nat missed)) in Hf by mlia.
  destruct (fill_slots_spec (set_sc (set_infos (λ _, m) (sc n)) n) (Z.to_nat missed) Hp) as (n3 & Hf' & Hp3 & E3).
  rewrite Hf in Hf'. injection Hf' as <-. rewrite Z2Nat.id in E3 by done.
  split; [exact Hp3|]. split; [|exact E3]. destruct Hp3 as [_ Hc]. cbn [participation_count set_head_block]. rewrite Hc.
  apply (ones_bounds 128).
Qed.

(** ** Irreversible blocks *)

Lemma nth_sorted_counts (l : list Z) (k : nat) (m : Z) :
  merge_sort Z.le l !! k = Some m →
  (length l - k <= length (filter (λ x, (m <= x)%Z) l))%nat ∧ ∀ u, m < u → (length (filter (λ x, (u <= x)%Z) l) < length l - k)%nat.
Proof.
  set (v := merge_sort Z.le l). intros Hm.
  assert (v ≡ₚ l) as Hp by apply merge_sort_Permutation.
  assert (StronglySorted Z.le v) as Hs by (apply StronglySorted_merge_sort; [intros ???; lia|intros ??; lia]).
  pose proof (lookup_lt_Some _ _ _ Hm) as Hk. pose proof (take_drop_middle v k m Hm) as Hv.
  assert (length v = length l) as Hlen by (by rewrite Hp). rewrite <- Hv in Hs.
  rewrite StronglySorted_app in Hs. destruct Hs as (Hlow & _ & Hs). apply StronglySorted_cons in Hs as [Hhigh _].
  clearbody v. rewrite <- Hlen.
  split.
  - assert (length (filter (λ x, m <= x) l) = length (filter (λ x, m <= x) (take k v ++ m :: drop (S k) v))) as -> by (by rewrite Hv, Hp).
    rewrite filter_app, length_app.
    assert (filter (λ x, m <= x) (m :: drop (S k) v) = m :: drop (S k) v) as ->.
    { apply (filter_all (λ x, m <= x)). constructor; [lia|done]. }
    cbn [length]. rewrite length_drop. lia.
  - intros u Hu.
    assert (length (filter (λ x, u <= x) l) = length (filter (λ x, u <= x) (take k v ++ m :: drop (S k) v))) as -> by (by rewrite Hv, Hp).
    rewrite (cons_middle m), app_assoc, Permutation_app_comm.
    apply Nat.le_lt_trans with (length (drop (S k) v)); [|rewrite length_drop; lia].
    apply filter_bound, Forall_forall. intros z [Hz| ->%list_elem_of_singleton]%elem_of_app; [|lia].
    specialize (Hlow z m Hz ltac:(by left)). lia.
Qed.

(** C20: Irreversibility.  Once voting has taken over (from the block
    freezone_START_MINER_VOTING_BLOCK on), the number of the last irreversible
    block never goes back; a new one was confirmed by at least three quarters of
    the scheduled witnesses, each with a block of its own of that number or a
    higher one; no higher number was confirmed by as many as the code asks for
    (all but a quarter, rounded down); and it is not above the highest
    block that any of them confirmed, or the number before. *)
Theorem irreversible_supermajority n n' l :
  freezone_START_MINER_VOTING_BLOCK <= head_num n → scheduled_infos (sc n) = Ok l →
  (∀ i, i ∈ l → in_u 32 (last_confirmed_block_num i)) → update_last_irreversible_block n = Ok n' →
  let confirmed v := length (filter (λ i, v <= last_confirmed_block_num i) l) in
  last_irreversible_block_num n <= last_irreversible_block_num n' ∧
  (last_irreversible_block_num n < last_irreversible_block_num n' → (3 * length l <= 4 * confirmed (last_irreversible_block_num n'))%nat) ∧
  (∀ v, last_irreversible_block_num n' < v → (confirmed v < length l - confirmed_offset (length l))%nat) ∧
  (∀ v, last_irreversible_block_num n <= v → (∀ i, i ∈ l → last_confirmed_block_num i <= v) → last_irreversible_block_num n' <= v).
Proof.
  intros Hh Hl Hr Hu confirmed. unfold update_last_irreversible_block in Hu.
  rewrite (proj2 (Z.ltb_ge _ _) Hh), Hl, Ok_bind in Hu. apply bind_Ok in Hu as (m & Hm & Hu). apply from_option_exn_Ok in Hm. cbv zeta in Hu.
  assert (m ∈ last_confirmed_block_num <$> l) as Hin.
  { rewrite <- (merge_sort_Permutation Z.le). by apply list_elem_of_lookup_2 in Hm. }
  apply list_elem_of_fmap in Hin as (i0 & Hi0 & Hin). pose proof (Hr i0 Hin) as Hm32. rewrite <- Hi0 in Hm32.
  unfold u32 in Hu. rewrite wrapu_small in Hu by done.
  apply nth_sorted_counts in Hm as [Hge Hlt]. rewrite length_fmap in Hge, Hlt.
  assert (∀ v, length (filter (λ x, v <= x) (last_confirmed_block_num <$> l)) = confirmed v) as Hc.
  { intros v. unfold confirmed. clear. induction l as [|i l IH]; [done|]. rewrite fmap_cons, !filter_cons. case_decide; simpl; lia. }
  rewrite Hc in Hge.
  assert (4 * confirmed_offset (length l) <= length l)%nat as Hoff.
  { unfold confirmed_offset. change (freezone_100_PERCENT - freezone_IRREVERSIBLE_THRESHOLD) with 2500. change freezone_100_PERCENT with 10000. mlia. }
  destruct (Z.ltb_spec (last_irreversible_block_num n) m) as [Hnew|Hold]; injection Hu as <-; cbn [last_irreversible_block_num set_irreversible].
  - split_and!; [lia|lia| |].
    + intros v Hv. rewrite <- Hc. by apply Hlt.
    + intros v _ Hv. specialize (Hv i0 Hin). lia.
  - split_and!; [lia|lia| |lia]. intros v Hv. rewrite <- Hc. apply Hlt. lia.
Qed.

(** The first example in the comments of [update_last_irreversible_block], whose
    result is said to be 2. *)
Example confirmed_example : merge_sort Z.le [1; 1; 1; 2; 2; 2; 2; 2; 2; 2] !! confirmed_offset 10 = Some 1.
Proof. by vm_compute. Qed.

(** ** A block on the small chain of Rounds.v *)

Module SlotsExample.
#[export] Instance sample_hash : BlockHash body := λ b, timestamp (content b).
#[export] Instance sample_signee : Signee := λ b _, witness_signature (content b).

Definition sample_slots : slots :=
  Slots (sample_sched true) (endian_reverse_u32 42, 7) 100 (uint128_of_u64 1) 1 40.
Definition sample_block : signed_block body := SignedBlock (endian_reverse_u32 42, 7) (Body 1000006 "alice" 11 0 []).
Definition sample_skip : skip_flags := SkipFlags false false false.
Definition after_block : slots :=
  match update_global_dynamic_data sample_skip sample_block sample_slots with Ok n => n | Throw _ => sample_slots end.

(** Late in the chain, with confirmations of the blocks 900000, 900001 and 900004. *)
Definition confirmed_slots : slots :=
  let s := sample_sched true in
  let d := base s in
  Slots (set_base (set_gpo (set_head 900005 1000000 (gpo d)) d)
    (set_infos (λ m, alter (set_confirmed 900000 0) "alice" (alter (set_confirmed 900001 0) "bob" (alter (set_confirmed 900004 0) "carol" m))) s))
    (0, 7) 100 (uint128_of_u64 1) 1 899990.
Definition after_confirmation : slots :=
  match update_last_irreversible_block confirmed_slots with Ok n => n | Throw _ => confirmed_slots end.

Lemma slot_time_roundtrip_witness :
  get_slot_at_time (get_slot_time 5 sample_slots) sample_slots = 5 ∧ get_slot_time 5 sample_slots = 1000014.
Proof. split; [|by vm_compute]. apply slot_time_roundtrip; by vm_compute. Defined.

Lemma block_fills_its_slot_witness :
  get_slot_at_time 1000006 sample_slots = 2 ∧ get_scheduled_witness 2 sample_slots = Ok "alice" ∧ current_aslot after_block = 102.
Proof.
  destruct (block_fills_its_slot sample_skip sample_block sample_slots after_block (sample_info 0 11 100))
    as (_ & Hw & _ & _ & _ & _ & _ & Ha & _); [by vm_compute..|].
  split; [by vm_compute|]. split; [exact Hw|]. rewrite Ha. vm_compute. reflexivity.
Defined.

Lemma participation_counts_slots_witness :
  participation_count after_block = 2 ∧ to_Z (recent_slots_filled after_block) = 6.
Proof.
  destruct (participation_counts_slots sample_skip sample_block sample_slots after_block 1) as ((_ & Hc) & _ & E); [by vm_compute..|].
  rewrite Hc, E. vm_compute. split; reflexivity.
Defined.

Lemma irreversible_supermajority_witness :
  last_irreversible_block_num after_confirmation = 900000 ∧ 899990 <= last_irreversible_block_num after_confirmation.
Proof.
  split; [by vm_compute|].
  apply (irreversible_supermajority confirmed_slots after_confirmation
    [set_confirmed 900000 0 (sample_info 0 11 100); set_confirmed 900001 0 (sample_info 1 12 300); set_confirmed 900004 0 (sample_info 2 13 250)]);
    [by vm_compute|by vm_compute| |by vm_compute].
  intros i [-> |[-> |[-> |Hi%not_elem_of_nil]%elem_of_cons]%elem_of_cons]%elem_of_cons; [by vm_compute..|done].
Defined.
End SlotsExample.
