(* ===== verification/Funds.v ===== *)
(** * Inflation, feeds and the virtual supply

    database.cpp: what a block prints and who gets it ([process_funds],
    [pay_reward_funds], the rewards before hardfork 16), the median of the
    price feeds ([update_median_feed]), the virtual supply and the print rate
    of SBD ([update_virtual_supply]), the pools of account subsidies
    ([process_subsidized_accounts]); compound.hpp ([calc_percent_reward]).

    Notifications and virtual operations are left out, and so is the code of
    test networks. *)

From S2P Require Import Prelude Config AccountName Uint128 SafeInt AssetSymbol Asset Manabar ResourceDynamics MapSum State Ledger Votes Vesting.
From stdpp Require Import gmap strings sorting.
From S2P Require Import WitnessSchedule Rounds.
#[local] Open Scope Z_scope.

(** The feed of a witness: [sbd_exchange_rate] and [last_sbd_exchange_update]. *)
Record feed : Type := Feed {
  sbd_exchange_rate : price;
  last_sbd_exchange_update : Z
}.

(** The chain state with the members of the global properties, the feed
    history, the reward funds and the witnesses that this code uses. *)
Record funds : Type := Funds {
  fs : sched;
  current_witness : name;
  content_reward_percent : Z;           (* uint16_t *)
  vesting_reward_percent : Z;
  sps_fund_percent : Z;
  sps_interval_ledger : Z;              (* of SBD *)
  sbd_start_percent : Z;
  sbd_stop_percent : Z;
  available_account_subsidies : Z;      (* int64_t *)
  percent_content_rewards : gmap Z Z;   (* of the reward funds, uint16_t *)
  price_history : list price;
  feeds : gmap name feed
}.

Definition fdb (f : funds) : db := base (fs f).

Definition set_fs (s : sched) (f : funds) : funds :=
  Funds s (current_witness f) (content_reward_percent f) (vesting_reward_percent f) (sps_fund_percent f) (sps_interval_ledger f)
    (sbd_start_percent f) (sbd_stop_percent f) (available_account_subsidies f) (percent_content_rewards f) (price_history f) (feeds f).
Definition set_fdb (d : db) (f : funds) : funds := set_fs (set_base d (fs f)) f.
Definition set_ledger (v : Z) (f : funds) : funds :=
  Funds (fs f) (current_witness f) (content_reward_percent f) (vesting_reward_percent f) (sps_fund_percent f) v
    (sbd_start_percent f) (sbd_stop_percent f) (available_account_subsidies f) (percent_content_rewards f) (price_history f) (feeds f).
Definition set_subsidies (v : Z) (f : funds) : funds :=
  Funds (fs f) (current_witness f) (content_reward_percent f) (vesting_reward_percent f) (sps_fund_percent f) (sps_interval_ledger f)
    (sbd_start_percent f) (sbd_stop_percent f) v (percent_content_rewards f) (price_history f) (feeds f).
Definition set_history (l : list price) (f : funds) : funds :=
  Funds (fs f) (current_witness f) (content_reward_percent f) (vesting_reward_percent f) (sps_fund_percent f) (sps_interval_ledger f)
    (sbd_start_percent f) (sbd_stop_percent f) (available_account_subsidies f) (percent_content_rewards f) l (feeds f).

Definition set_reward_funds (m : gmap Z Z) (d : db) : db :=
  DB (accounts d) (regular_balances d) (rewards_balances d) (sst_tokens d) (icos d) (orders d) (escrows d)
    (converts d) (withdraws d) (liquidity d) m (staking d) (next_id d) (gpo d) (current_median_history d) (processed_hardforks d).
Definition set_median_history (p : price) (d : db) : db :=
  DB (accounts d) (regular_balances d) (rewards_balances d) (sst_tokens d) (icos d) (orders d) (escrows d)
    (converts d) (withdraws d) (liquidity d) (reward_funds d) (staking d) (next_id d) (gpo d) p (processed_hardforks d).

(** The supplies and the reward fund of the global properties. *)
Definition set_printed (supply sbd_supply virtual fund rewards : Z) (g : global_properties) : global_properties :=
  GPO (head_block_number g) (head_block_time g) supply sbd_supply (init_sbd_supply g) virtual fund (total_vesting_shares g) rewards
    (pending_rewarded_vesting_shares g) (pending_rewarded_vesting_freezone g) (sbd_interest_rate g) (sbd_print_rate g)
    (target_votes_per_period g) (delegation_return_period g) (downvote_pool_percent g).

Definition set_virtual (virtual rate : Z) (g : global_properties) : global_properties :=
  GPO (head_block_number g) (head_block_time g) (current_supply g) (current_sbd_supply g) (init_sbd_supply g) virtual
    (total_vesting_fund_freezone g) (total_vesting_shares g) (total_reward_fund_freezone g)
    (pending_rewarded_vesting_shares g) (pending_rewarded_vesting_freezone g) (sbd_interest_rate g) rate
    (target_votes_per_period g) (delegation_return_period g) (downvote_pool_percent g).

(** ** Rewards per block *)

(** [used] is what the funds before took. *)
Definition pay_reward_fund (reward : Z) (x : Z * gmap Z Z) (k : Z) (percents : gmap Z Z) : res (Z * gmap Z Z) :=
  let '(used, m) := x in
  b ← from_option_exn out_of_range (m !! k);
  p ← from_option_exn out_of_range (percents !! k);
  r ← safe_mul reward p;
  r ← safe_div r freezone_100_PERCENT;
  b ← safe_add b r;
  used ← safe_add used r;
  _ ← fc_assert (used <=? reward);
  mret (used, <[k := b]> m).

Definition pay_reward_funds (reward : Z) (f : funds) : res (Z * funds) :=
  '(used, m) ← res_fold (λ x k, pay_reward_fund reward x k (percent_content_rewards f)) (0, reward_funds (fdb f))
                 (merge_sort Z.le (map_to_list (reward_funds (fdb f))).*1);
  mret (used, set_fdb (set_reward_funds m (fdb f)) f).

Definition inflation_rate (head : Z) : Z :=
  Z.max (freezone_INFLATION_RATE_START_PERCENT - head / freezone_INFLATION_NARROWING_PERIOD) freezone_INFLATION_RATE_STOP_PERCENT.

Definition percent_of (x p : Z) : res Z := y ← safe_mul x p; safe_div y freezone_100_PERCENT.

(** The share of the witness of the block, weighted by how it was scheduled. *)
Definition witness_pay (t : witness_schedule_type) (w : witness_schedule_object) (reward : Z) : res Z :=
  x ← safe_mul reward freezone_MAX_WITNESSES;
  x ← match t with
      | timeshare => safe_mul x (timeshare_weight w)
      | miner => safe_mul x (miner_weight w)
      | elected => safe_mul x (elected_weight w)
      | none => mret x
      end;
  safe_div x (witness_pay_normalization_factor w).

(** ** Before hardfork 16 *)

Definition calc_percent_reward (percent multiply shift supply : Z) : res Z :=
  half ← shl_assign (uint128_of_u64 1) (uint128_of_u64 (shift - 1));
  reward ← mul_assign (uint128_of_i64 supply) (uint128_of_u64 (u64 (percent * multiply)));
  reward ← shr_assign (add_assign reward half) (uint128_of_u64 shift);
  r ← to_uint64 reward;
  mret (i64 r).

Definition calc_percent_reward_per_block (percent supply : Z) : res Z :=
  calc_percent_reward percent freezone_APR_PERCENT_MULTIPLY_PER_BLOCK freezone_APR_PERCENT_SHIFT_PER_BLOCK supply.

Definition get_content_reward (d : db) : res Z :=
  r ← calc_percent_reward_per_block freezone_CONTENT_APR_PERCENT (virtual_supply (gpo d));
  mret (Z.max r freezone_MINING_REWARD).

Definition get_curation_reward (d : db) : res Z :=
  r ← calc_percent_reward_per_block freezone_CURATE_APR_PERCENT (virtual_supply (gpo d));
  mret (Z.max r freezone_MINING_REWARD).

(** Also pays the witness, in vesting shares or liquid. *)
Definition get_producer_reward (w : name) (d : db) : res (Z * db) :=
  r ← calc_percent_reward_per_block freezone_PRODUCER_APR_PERCENT (virtual_supply (gpo d));
  let pay := Z.max r freezone_MINING_REWARD in
  a ← get_account w d;
  if (freezone_START_MINER_VOTING_BLOCK <=? head_block_number (gpo d)) || (vesting_shares a =? 0) then
    '(_, d) ← create_vesting w (Asset pay freezone_SYMBOL) false d;
    mret (pay, d)
  else
    b ← safe_add (balance a) pay;
    mret (pay, put_account w (set_balance b a) d).

Definition process_funds_old (f : funds) : res funds :=
  content ← get_content_reward (fdb f);
  curate ← get_curation_reward (fdb f);
  '(pay, d) ← get_producer_reward (current_witness f) (fdb f);
  vesting ← safe_add content curate;
  vesting ← safe_add vesting pay;
  content ← safe_add content curate;
  let g := gpo d in
  let vesting := if head_block_number g <? freezone_START_VESTING_BLOCK then 0 else i64 (vesting * 9) in
  fund ← safe_add (total_vesting_fund_freezone g) vesting;
  rewards ← safe_add (total_reward_fund_freezone g) content;
  x ← safe_add content pay;
  x ← safe_add x vesting;
  supply ← safe_add (current_supply g) x;
  virtual ← safe_add (virtual_supply g) x;
  mret (set_fdb (set_gpo (set_printed supply (current_sbd_supply g) virtual fund rewards g) d) f).

(** ** process_funds *)

Definition process_funds_new (f : funds) : res funds :=
  let g := gpo (fdb f) in
  let w := wso (fs f) in
  x ← safe_mul (virtual_supply g) (inflation_rate (head_block_number g));
  new_freezone ← safe_div x (freezone_100_PERCENT * freezone_BLOCKS_PER_YEAR);
  content_reward ← percent_of new_freezone (content_reward_percent f);
  '(content_reward, f) ← (if has_hardfork freezone_HARDFORK_0_17 (fdb f) then pay_reward_funds content_reward f
                          else mret (content_reward, f));
  vesting_reward ← percent_of new_freezone (vesting_reward_percent f);
  sps_fund ← percent_of new_freezone (sps_fund_percent f);
  x ← safe_sub new_freezone content_reward;
  x ← safe_sub x vesting_reward;
  witness_reward ← safe_sub x sps_fund;
  cwit ← get_info (current_witness f) (fs f);
  witness_reward ← witness_pay (schedule cwit) w witness_reward;
  '(new_sbd, d) ← (if sps_fund =? 0 then mret (Asset 0 SBD_SYMBOL, fdb f)
                   else
                     sbd ← asset_mul_price (Asset sps_fund freezone_SYMBOL) (current_median_history (fdb f));
                     d ← adjust_balance freezone_TREASURY_ACCOUNT sbd (fdb f);
                     mret (sbd, d));
  x ← safe_add content_reward vesting_reward;
  new_freezone ← safe_add x witness_reward;
  let g := gpo d in
  fund ← safe_add (total_vesting_fund_freezone g) vesting_reward;
  rewards ← (if has_hardfork freezone_HARDFORK_0_17 d then mret (total_reward_fund_freezone g)
             else safe_add (total_reward_fund_freezone g) content_reward);
  supply ← safe_add (current_supply g) new_freezone;
  sbd ← asset_add (Asset (current_sbd_supply g) SBD_SYMBOL) new_sbd;
  x ← safe_add new_freezone sps_fund;
  virtual ← safe_add (virtual_supply g) x;
  ledger ← asset_add (Asset (sps_interval_ledger f) SBD_SYMBOL) new_sbd;
  let d := set_gpo (set_printed supply (amount sbd) virtual fund rewards g) d in
  '(_, d) ← create_vesting (current_witness f) (Asset witness_reward freezone_SYMBOL) false d;
  mret (set_ledger (amount ledger) (set_fdb d f)).

Definition process_funds (f : funds) : res funds :=
  if has_hardfork freezone_HARDFORK_0_16 (fdb f) then process_funds_new f else process_funds_old f.

(** ** Account subsidies *)

Definition set_available (v : Z) (w : witness_info) : witness_info :=
  WitnessInfo (wi_id w) (pow_worker w) (signing_key w) (props w) (schedule w) (running_version w) (hardfork_version_vote w)
    (hardfork_time_vote w) v (last_confirmed_block_num w) (last_aslot w) (total_missed w).

Definition process_subsidized_accounts (f : funds) : res funds :=
  v ← rd_apply (account_subsidy_rd (wso (fs f))) (available_account_subsidies f);
  let f := set_subsidies v f in
  w ← get_info (current_witness f) (fs f);
  match schedule w with
  | elected =>
      v ← rd_apply (account_subsidy_witness_rd (wso (fs f))) (available_witness_account_subsidies w);
      mret (set_fs (set_infos <[current_witness f := set_available v w]> (fs f)) f)
  | _ => mret f
  end.

(** ** Feeds *)

Definition price_le (p q : price) : Prop := price_leb p q = true.
#[global] Instance price_le_dec p q : Decision (price_le p q) := bool_eq_dec _ _.

(** Whether the feed of a scheduled witness counts. *)
Definition feed_counts (d : db) (x : feed) : bool :=
  (if has_hardfork freezone_HARDFORK_0_19 d then
     now d <? u32 (last_sbd_exchange_update x + freezone_MAX_FEED_AGE_SECONDS)
   else last_sbd_exchange_update x <? u32 (now d + freezone_MAX_FEED_AGE_SECONDS))
  && negb (is_null (sbd_exchange_rate x)).

Definition current_feeds (f : funds) : res (list price) :=
  res_fold (λ l n, x ← from_option_exn out_of_range (feeds f !! n);
              mret (if feed_counts (fdb f) x then l ++ [sbd_exchange_rate x] else l)) [] (scheduled (fs f)).

Definition median_price (l : list price) : res price :=
  from_option_exn out_of_range (merge_sort price_le l !! Nat.div (length l) 2).

(** At least the price at which the SBD are a tenth of the market value. *)
Definition limit_price (d : db) (p : price) : res price :=
  if has_hardfork freezone_HARDFORK_0_14 d && (0 <? current_sbd_supply (gpo d)) then
    x ← safe_mul 9 (current_sbd_supply (gpo d));
    min_price ← make_price (Asset x SBD_SYMBOL) (Asset (current_supply (gpo d)) freezone_SYMBOL);
    mret (if price_gtb min_price p then min_price else p)
  else mret p.

Definition update_median_feed (f : funds) : res funds :=
  let d := fdb f in
  if negb (head_block_number (gpo d) mod freezone_FEED_INTERVAL_BLOCKS =? 0) then mret f
  else
    l ← current_feeds f;
    if Z.of_nat (length l) <? freezone_MIN_FEEDS then mret f
    else
      median_feed ← median_price l;
      let window := if has_hardfork freezone_HARDFORK_0_16 d then freezone_FEED_HISTORY_WINDOW
                    else freezone_FEED_HISTORY_WINDOW_PRE_HF_16 in
      let history := price_history f ++ [median_feed] in
      let history := if window <? Z.of_nat (length history) then tail history else history in
      p ← (match history with [] => mret (current_median_history d) | _ => p ← median_price history; limit_price d p end);
      mret (set_history history (set_fdb (set_median_history p d) f)).

(** ** Virtual supply and print rate *)

Definition percent_sbd (hf21 : bool) (value virtual : Z) : res Z :=
  n ← mul_assign (uint128_of_i64 value) (uint128_of_i64 freezone_100_PERCENT);
  q ← div_assign (if hf21 then add_assign n (uint128_of_i64 (Z.quot virtual 2)) else n) (uint128_of_i64 virtual);
  r ← to_uint64 q;
  mret (u16 r).

Definition print_rate (start stop percent : Z) : Z :=
  if percent <=? start then freezone_100_PERCENT
  else if stop <=? percent then 0
  else u16 (Z.quot ((stop - percent) * freezone_100_PERCENT) (stop - start)).

Definition update_virtual_supply (f : funds) : res funds :=
  let d := fdb f in
  let g := gpo d in
  let median := current_median_history d in
  x ← (if is_null median then mret (Asset 0 freezone_SYMBOL) else asset_mul_price (Asset (current_sbd_supply g) SBD_SYMBOL) median);
  v ← asset_add (Asset (current_supply g) freezone_SYMBOL) x;
  rate ← (if negb (is_null median) && has_hardfork freezone_HARDFORK_0_14 d then
            y ← asset_mul_price (Asset (current_sbd_supply g) SBD_SYMBOL) median;
            p ← percent_sbd (has_hardfork freezone_HARDFORK_0_21 d) (amount y) (amount v);
            mret (print_rate (sbd_start_percent f) (sbd_stop_percent f) p)
          else mret (sbd_print_rate g));
  mret (set_fdb (set_gpo (set_virtual (amount v) rate g) d) f).

(** ** What is printed is held *)

Lemma gap_set_printed s supply sbd virtual fund rewards d :
  gap s (set_gpo (set_printed supply sbd virtual fund rewards (gpo d)) d)
  = gap s d + amount_of s (Asset (fund - total_vesting_fund_freezone (gpo d) + (rewards - total_reward_fund_freezone (gpo d))
      - (supply - current_supply (gpo d))) freezone_SYMBOL)
    - amount_of s (Asset (sbd - current_sbd_supply (gpo d)) SBD_SYMBOL).
Proof.
  unfold amount_of. unfold set_printed. unfold_gap. cbn [symbol amount].
  destruct symbol_facts as (? & ? & ?). rewrite (Z.eqb_sym freezone_SYMBOL s), (Z.eqb_sym SBD_SYMBOL s).
  destruct (Z.eqb_spec s freezone_SYMBOL) as [->|]; [rewrite (proj2 (Z.eqb_neq _ _)) by done; lia|].
  destruct (Z.eqb_spec s SBD_SYMBOL); lia.
Qed.

Lemma gap_set_reward_funds s m d :
  gap s (set_reward_funds m d) = gap s d + amount_of s (Asset (msum (λ _ b, b) m - msum (λ _ b, b) (reward_funds d)) freezone_SYMBOL).
Proof.
  unfold amount_of, set_reward_funds. unfold_gap. cbn [symbol amount]. rewrite (Z.eqb_sym freezone_SYMBOL s).
  destruct (Z.eqb_spec s freezone_SYMBOL); lia.
Qed.

Lemma safe_mul_value a b c : safe_mul a b = Ok c → c = a * b.
Proof. unfold safe_mul. intros H. by res_inv. Qed.

Lemma safe_div_value a b c : safe_div a b = Ok c → b ≠ 0 ∧ c = Z.quot a b.
Proof. unfold safe_div. intros H. res_inv. bools. done. Qed.

Lemma pay_reward_funds_spec s reward f used f' :
  pay_reward_funds reward f = Ok (used, f') →
  ∃ m, f' = set_fdb (set_reward_funds m (fdb f)) f ∧ gap s (fdb f') = gap s (fdb f) + amount_of s (Asset used freezone_SYMBOL).
Proof.
  intros H. unfold pay_reward_funds in H. apply bind_Ok in H as ([u m] & Hf & H). injection H as <- <-.
  exists m. split; [done|]. change (fdb (set_fdb (set_reward_funds m (fdb f)) f)) with (set_reward_funds m (fdb f)).
  rewrite gap_set_reward_funds. do 3 f_equal.
  cut (msum (λ _ b, b) m - msum (λ _ b, b) (reward_funds (fdb f)) = u); [lia|].
  eapply (res_fold_ind (λ x : Z * gmap Z Z, msum (λ _ b, b) x.2 - msum (λ _ b, b) (reward_funds (fdb f)) = x.1)) in Hf; [done|cbn; lia|].
  intros [u0 m0] k [u1 m1] _ Hx Hp. cbn [fst snd] in *. unfold pay_reward_fund in Hp.
  apply bind_Ok in Hp as (b & Hb%from_option_exn_Ok & Hp). apply bind_Ok in Hp as (p & _ & Hp).
  apply bind_Ok in Hp as (r0 & _ & Hp). apply bind_Ok in Hp as (r & _ & Hp).
  apply bind_Ok in Hp as (b' & Hb'%safe_add_value & Hp). apply bind_Ok in Hp as (u' & Hu%safe_add_value & Hp).
  apply bind_Ok in Hp as ([] & _ & Hp). injection Hp as <- <-. rewrite msum_insert. unfold MapSum.row. rewrite Hb. lia.
Qed.

Lemma gap_process_funds_new s f f' :
  tokens_wf (fdb f) → process_funds_new f = Ok f' → gap s (fdb f') = gap s (fdb f).
Proof.
  intros Hwf H. unfold process_funds_new in H. cbv zeta in H.
  apply bind_Ok in H as (x & _ & H). apply bind_Ok in H as (new & _ & H). apply bind_Ok in H as (content0 & _ & H).
  apply bind_Ok in H as ([content f1] & Hc & H).
  assert (∃ m, f1 = set_fdb (set_reward_funds m (fdb f)) f ∧ gap s (fdb f1) = gap s (fdb f) +
    (if has_hardfork freezone_HARDFORK_0_17 (fdb f) then amount_of s (Asset content freezone_SYMBOL) else 0)) as (m & -> & Hg1).
  { destruct (has_hardfork _ _); [by apply (pay_reward_funds_spec s) in Hc|]. injection Hc as <- <-.
    exists (reward_funds (fdb f)). split; [|lia]. destruct f as [[[] ? ? ? ? ?] ? ? ? ? ? ? ? ? ? ? ?]. done. }
  set (f1 := set_fdb _ f) in *. change (has_hardfork freezone_HARDFORK_0_17 (fdb f)) with (has_hardfork freezone_HARDFORK_0_17 (fdb f1)) in Hg1.
  assert (tokens_wf (fdb f1)) as Hwf1 by exact Hwf.
  apply bind_Ok in H as (vesting & _ & H). apply bind_Ok in H as (sps & _ & H).
  apply bind_Ok in H as (y1 & _ & H). apply bind_Ok in H as (y2 & _ & H). apply bind_Ok in H as (y3 & _ & H). apply bind_Ok in H as (cwit & _ & H). apply bind_Ok in H as (pay & _ & H).
  apply bind_Ok in H as ([sbd d] & Hs & H).
  assert (gap s d = gap s (fdb f1) + amount_of s sbd ∧ tokens_wf d ∧ has_hardfork freezone_HARDFORK_0_17 d = has_hardfork freezone_HARDFORK_0_17 (fdb f1))
    as (Hg2 & Hwf2 & Hh).
  { destruct (sps =? 0); [injection Hs as <- <-; rewrite amount_of_zero; split_and!; [lia|done|done]|].
    apply bind_Ok in Hs as (sb & _ & Hs). apply bind_Ok in Hs as (d1 & Ha & Hs). injection Hs as <- <-.
    pose proof (frame_adjust_balance _ _ _ _ Ha) as Hfr. apply (gap_adjust_balance s) in Ha.
    split_and!; [done|by eapply tokens_wf_frame|]. unfold has_hardfork. by rewrite (lf_hardforks _ _ Hfr). }
  rewrite <- Hh in Hg1.
  apply bind_Ok in H as (x1 & ->%safe_add_value & H). apply bind_Ok in H as (new' & ->%safe_add_value & H).
  apply bind_Ok in H as (fund & ->%safe_add_value & H). apply bind_Ok in H as (rewards & Hrw & H).
  apply bind_Ok in H as (supply & ->%safe_add_value & H). apply bind_Ok in H as (sbds & Hsb & H).
  apply asset_add_value in Hsb as [Hsym ->]. cbn [symbol amount] in Hsym, H.
  apply bind_Ok in H as (x2 & _ & H). apply bind_Ok in H as (virtual & _ & H). apply bind_Ok in H as (ledger & _ & H).
  apply bind_Ok in H as ([nv d2] & Hv & H). injection H as <-.
  change (fdb (set_ledger (amount ledger) (set_fdb d2 f1))) with d2.
  apply (gap_create_vesting s) in Hv; [|exact Hwf2|done]. rewrite Hv, gap_set_printed, Hg2, Hg1.
  assert (rewards - total_reward_fund_freezone (gpo d) = if has_hardfork freezone_HARDFORK_0_17 d then 0 else content) as Hr.
  { destruct (has_hardfork _ d); [injection Hrw as <-; lia|]. apply safe_add_value in Hrw as ->. lia. }
  rewrite Hr. rewrite <- (amount_of_eta s sbd SBD_SYMBOL) by done. unfold amount_of. cbn [symbol amount].
  destruct (has_hardfork _ d), (freezone_SYMBOL =? s), (SBD_SYMBOL =? s); lia.
Qed.

Lemma held_set_balance s n b a :
  account_held s n (set_balance b a) = account_held s n a + amount_of s (Asset (b - balance a) freezone_SYMBOL).
Proof.
  rewrite !account_held_split. change (vesting_shares (set_balance b a)) with (vesting_shares a).
  cbn [set_balance balance savings_balance reward_freezone_balance sbd savings_sbd reward_sbd_balance reward_vesting_balance].
  rewrite !amount_of_add, amount_of_sub. lia.
Qed.

Lemma gap_process_funds_old s f f' :
  tokens_wf (fdb f) → process_funds_old f = Ok f' → gap s (fdb f') = gap s (fdb f).
Proof.
  intros Hwf H. unfold process_funds_old in H. cbv zeta in H.
  apply bind_Ok in H as (content & _ & H). apply bind_Ok in H as (curate & _ & H). apply bind_Ok in H as ([pay d] & Hp & H).
  assert (gap s d = gap s (fdb f) + amount_of s (Asset pay freezone_SYMBOL)) as Hg.
  { unfold get_producer_reward in Hp. apply bind_Ok in Hp as (r & _ & Hp). cbv zeta in Hp.
    apply bind_Ok in Hp as (a & Ha & Hp). unfold get_account in Ha. apply from_option_exn_Ok in Ha.
    destruct (_ || _).
    - apply bind_Ok in Hp as ([nv d1] & Hv & Hp). injection Hp as <- <-. by apply (gap_create_vesting s) in Hv.
    - apply bind_Ok in Hp as (b & ->%safe_add_value & Hp). injection Hp as <- <-. rewrite (gap_put_account s _ a) by done.
      rewrite held_set_balance.
      rewrite <- Z.add_sub_assoc, Z.add_simpl_l, Z.add_simpl_l. done. }
  apply bind_Ok in H as (v1 & _ & H). apply bind_Ok in H as (v2 & _ & H). apply bind_Ok in H as (c2 & _ & H).
  set (vest := if head_block_number _ <? _ then _ else _) in H.
  apply bind_Ok in H as (fund & ->%safe_add_value & H). apply bind_Ok in H as (rewards & ->%safe_add_value & H).
  apply bind_Ok in H as (x1 & ->%safe_add_value & H). apply bind_Ok in H as (x2 & ->%safe_add_value & H).
  apply bind_Ok in H as (supply & ->%safe_add_value & H). apply bind_Ok in H as (virtual & _ & H). injection H as <-.
  match goal with |- gap s (fdb (set_fdb ?x _)) = _ => change (gap s x = gap s (fdb f)) end.
  rewrite gap_set_printed, Hg. unfold amount_of. cbn [symbol amount].
  destruct (freezone_SYMBOL =? s), (SBD_SYMBOL =? s); lia.
Qed.

(** C22: Inflation is accounted for.  Whatever [process_funds] prints (content
    rewards, vesting, the pay of the witness, SBD of the treasury), under any
    hardfork and for any witness weights, is added to the supply of its symbol
    and to what accounts and funds hold in the same amount. *)
Theorem inflation_conserved s f f' :
  tokens_wf (fdb f) → process_funds f = Ok f' → held s (fdb f') - issued s (fdb f') = held s (fdb f) - issued s (fdb f).
Proof.
  intros Hwf H. unfold process_funds in H.
  destruct (has_hardfork _ _); [by apply gap_process_funds_new|by apply gap_process_funds_old].
Qed.

(** ** The pay of a round *)

Definition weight_of (t : witness_schedule_type) (w : witness_schedule_object) : Z :=
  match t with
  | timeshare => timeshare_weight w
  | miner => miner_weight w
  | elected => elected_weight w
  | none => 1
  end.

Lemma witness_pay_value t w reward p :
  witness_pay t w reward = Ok p →
  witness_pay_normalization_factor w ≠ 0 ∧ p = Z.quot (reward * freezone_MAX_WITNESSES * weight_of t w) (witness_pay_normalization_factor w).
Proof.
  intros H. unfold witness_pay in H. apply bind_Ok in H as (x & ->%safe_mul_value & H). apply bind_Ok in H as (y & Hy & H).
  apply safe_div_value in H as [Hf ->]. split; [done|]. f_equal.
  destruct t; cbn [weight_of]; [by apply safe_mul_value in Hy..|]. injection Hy as <-. lia.
Qed.

(** Shares that are rounded down miss less than one unit each. *)
Lemma shares_bounds (total factor : Z) (ws : list Z) :
  0 <= total → 0 < factor → Forall (λ w, 0 <= w) ws →
  total * zsum ws - factor * Z.of_nat (length ws) <= factor * zsum ((λ w, Z.quot (total * w) factor) <$> ws) <= total * zsum ws.
Proof.
  intros Ht Hf. induction 1 as [|w ws Hw _ IH]; [cbn; lia|].
  rewrite fmap_cons. cbn [zsum foldr length]. fold (zsum ws). fold (zsum ((λ w, Z.quot (total * w) factor) <$> ws)).
  rewrite Z.quot_div_nonneg by nia.
  pose proof (Z.div_mod (total * w) factor ltac:(lia)). pose proof (Z.mod_pos_bound (total * w) factor Hf).
  rewrite Nat2Z.inj_succ. nia.
Qed.

Lemma mark_schedule t l m n :
  schedule <$> mark t l m !! n = if decide (n ∈ l.*1) then (λ _, t) <$> m !! n else schedule <$> m !! n.
Proof.
  unfold mark. revert m. induction l as [|x l IH]; intros m; [done|]. cbn [foldl]. rewrite IH, fmap_cons.
  destruct (decide (x.1 = n)) as [<-|Hne].
  - rewrite lookup_alter_eq. rewrite (decide_True (P := x.1 ∈ x.1 :: l.*1)) by (by left).
    destruct (decide (x.1 ∈ l.*1)); by destruct (m !! x.1).
  - rewrite lookup_alter_ne by done. destruct (decide (n ∈ l.*1)) as [Hl|Hl].
    + by rewrite decide_True by (by right).
    + rewrite decide_False; [done|]. intros [?|?]%elem_of_cons; congruence.
Qed.

Lemma leave_queue_schedule l m n : schedule <$> leave_queue l m !! n = schedule <$> m !! n.
Proof. unfold leave_queue. by apply alter_all_member. Qed.

Lemma mark_const {A} (c : A) t l m n : (λ _, c) <$> mark t l m !! n = (λ _, c) <$> m !! n.
Proof. unfold mark. by rewrite (alter_all_member (λ _, c)). Qed.
Lemma leave_queue_const {A} (c : A) l m n : (λ _, c) <$> leave_queue l m !! n = (λ _, c) <$> m !! n.
Proof. unfold leave_queue. by rewrite (alter_all_member (λ _, c)). Qed.

(** How the witnesses of a round are marked. *)
Lemma round_marks_schedule s n (r := choose s) :
  schedule <$> infos (round_marks r s) !! n =
  if decide (n ∈ (runners r).*1) then (λ _, timeshare) <$> infos s !! n
  else if decide (n ∈ (miners r).*1) then (λ _, miner) <$> infos s !! n
  else if decide (n ∈ (voted r).*1) then (λ _, elected) <$> infos s !! n
  else schedule <$> infos s !! n.
Proof.
  unfold round_marks. cbn [infos set_num_pow set_infos]. rewrite mark_schedule, leave_queue_schedule, mark_schedule, mark_schedule.
  destruct (decide (n ∈ (runners r).*1)); [by rewrite leave_queue_const, !mark_const|].
  destruct (decide (n ∈ (miners r).*1)); [by rewrite mark_const|done].
Qed.

Lemma schedule4_pay s s' (r := choose s) (w := wso s) :
  sched_ok s → vtime_ok (base s) → update_witness_schedule4 s = Ok s' →
  infos s' = infos (round_marks r s) ∧
  witness_pay_normalization_factor (wso s') =
    u32 (elected_weight w * Z.of_nat (length (voted r)) + miner_weight w * Z.of_nat (length (miners r))
         + timeshare_weight w * Z.of_nat (length (runners r))) ∧
  (∀ t, weight_of t (wso s') = weight_of t w).
Proof.
  intros Hok Hvt H. unfold update_witness_schedule4 in H. cbv zeta in H. fold r in H.
  apply bind_Ok in H as ([t s1] & Hu & H). apply bind_Ok in H as ([] & _ & H).
  apply bind_Ok in H as ([majority h] & _ & H). apply bind_Ok in H as (shuffled & _ & H).
  pose proof (update_virtual_times_spec s Hok Hvt t s1 Hu) as (_ & Hi & Hwso & _).
  unfold update_median_witness_props in H. cbv zeta in H. repeat (apply bind_Ok in H as (? & _ & H)). injection H as <-.
  split; [exact Hi|]. subst w. rewrite <- Hwso. split; [reflexivity|]. intros []; reflexivity.
Qed.

(** The weights of the scheduled witnesses add up to the normalization factor. *)
Lemma round_weights s (r := choose s) (m := infos (round_marks r s)) (w : witness_schedule_object) :
  sched_ok s →
  zsum ((λ n, weight_of (from_option schedule none (m !! n)) w) <$> active r) =
    elected_weight w * Z.of_nat (length (voted r)) + miner_weight w * Z.of_nat (length (miners r))
    + timeshare_weight w * Z.of_nat (length (runners r)).
Proof.
  intros Hok. pose proof (active_NoDup s Hok) as Hnd. destruct (chosen_all s Hok) as (_ & Hin & _). fold r in Hnd, Hin.
  assert (∀ (l : list row) t, (∀ x, x ∈ l → schedule <$> m !! x.1 = Some t) →
    zsum ((λ n, weight_of (from_option schedule none (m !! n)) w) <$> l.*1) = weight_of t w * Z.of_nat (length l)) as Hpart.
  { intros l t Hl. induction l as [|x l IH]; [cbn; lia|]. rewrite !fmap_cons. cbn [zsum foldr length].
    fold (zsum ((λ n, weight_of (from_option schedule none (m !! n)) w) <$> l.*1)).
    rewrite IH by (intros; apply Hl; by right). specialize (Hl x ltac:(by left)). destruct (m !! x.1); [|done].
    injection Hl as <-. cbn [from_option]. lia. }
  unfold active in *. rewrite !fmap_app in *. rewrite !zsum_app.
  apply NoDup_app in Hnd as (_ & Hv & Hnd). apply NoDup_app in Hnd as (_ & Hm & _).
  assert (∀ x, x ∈ voted r ++ miners r ++ runners r → is_Some (infos s !! x.1)) as Hsome.
  { intros x Hx. apply Hin, elem_of_runnable in Hx as [_ [_ Hx]%elem_of_rows]. by eexists. }
  rewrite (Hpart (voted r) elected), (Hpart (miners r) miner), (Hpart (runners r) timeshare); [cbn [weight_of]; lia|..];
    intros x Hx; unfold m; subst r; rewrite round_marks_schedule;
    destruct (Hsome x ltac:(rewrite !elem_of_app; auto)) as [i ->]; apply (list_elem_of_fmap_2 fst) in Hx.
  - by rewrite decide_True.
  - rewrite decide_False by (by apply Hm). by rewrite decide_True.
  - specialize (Hv _ Hx). rewrite elem_of_app in Hv.
    rewrite decide_False by tauto. rewrite decide_False by tauto. by rewrite decide_True.
Qed.

Lemma update_median_nonempty s s' : update_median_witness_props s = Ok s' → scheduled s ≠ [].
Proof.
  intros H E. unfold update_median_witness_props in H. apply bind_Ok in H as (l & Hl & H).
  unfold scheduled_infos in Hl. rewrite E in Hl. injection Hl as <-. by apply bind_Ok in H as (? & ? & _).
Qed.

Lemma schedule4_nonempty s s' :
  sched_ok s → vtime_ok (base s) → update_witness_schedule4 s = Ok s' → scheduled s' ≠ [].
Proof.
  intros Hok Hvt H. destruct (schedule4_parts s s' Hok Hvt H) as (? & ? & ? & ? & ? & ? & ? & _ & _ & _ & _ & Hm).
  pose proof (update_median_frame _ _ Hm) as (_ & _ & -> & _). by eapply update_median_nonempty.
Qed.

Lemma zsum_Permutation l l' : l ≡ₚ l' → zsum l = zsum l'.
Proof. induction 1; cbn in *; lia. Qed.

(** The pay of a round.  When every witness that
    [update_witness_schedule4] has scheduled is paid for one block, the pays
    add up to 21 rewards, less a rounding of under one unit for each witness,
    however the witnesses were scheduled and whatever the weights. *)
Theorem round_pays_21_rewards s s' reward pays :
  sched_ok s → vtime_ok (base s) → update_witness_schedule4 s = Ok s' →
  0 <= reward → (∀ t, 0 <= weight_of t (wso s) < 2 ^ 24) →
  Forall2 (λ n p, ∃ i, infos s' !! n = Some i ∧ witness_pay (schedule i) (wso s') reward = Ok p) (scheduled s') pays →
  freezone_MAX_WITNESSES * reward - Z.of_nat (length (scheduled s')) <= zsum pays <= freezone_MAX_WITNESSES * reward.
Proof.
  intros Hok Hvt H Hr Hw Hp. destruct (schedule4_pay s s' Hok Hvt H) as (Hi & Hf & Hwt).
  pose proof (schedule4_scheduled s s' Hok Hvt H) as Hs. pose proof (length_active s Hok) as Hlen.
  set (ws := (λ n, weight_of (from_option schedule none (infos s' !! n)) (wso s')) <$> scheduled s').
  assert (zsum ws = elected_weight (wso s) * Z.of_nat (length (voted (choose s))) + miner_weight (wso s) * Z.of_nat (length (miners (choose s)))
    + timeshare_weight (wso s) * Z.of_nat (length (runners (choose s)))) as Hsum.
  { unfold ws. rewrite (zsum_Permutation _ _ (fmap_Permutation _ _ _ Hs)), <- round_weights by done.
    f_equal. apply list_fmap_ext. intros _ n _. by rewrite Hi, Hwt. }
  assert (length (active (choose s)) = length (voted (choose s)) + (length (miners (choose s)) + length (runners (choose s))))%nat as Hl3.
  { unfold active. by rewrite !fmap_app, !length_app, !length_fmap. }
  change (Z.to_nat freezone_MAX_WITNESSES) with 21%nat in Hlen.
  pose proof (Hw elected) as We. pose proof (Hw miner) as Wm. pose proof (Hw timeshare) as Wt. cbn [weight_of] in We, Wm, Wt.
  assert (in_u 32 (zsum ws)) as Hrange.
  { rewrite Hsum. unfold in_u.
    assert (∀ a (x : nat), 0 <= a < 2 ^ 24 → 0 <= a * Z.of_nat x <= 2 ^ 24 * Z.of_nat x) as Hmul by (intros; nia).
    pose proof (Hmul _ (length (voted (choose s))) We). pose proof (Hmul _ (length (miners (choose s))) Wm).
    pose proof (Hmul _ (length (runners (choose s))) Wt). lia. }
  unfold u32 in Hf. rewrite <- Hsum, wrapu_small in Hf by done.
  set (factor := witness_pay_normalization_factor (wso s')) in *.
  assert (pays = (λ w, Z.quot (reward * freezone_MAX_WITNESSES * w) factor) <$> ws ∧ (ws ≠ [] → factor ≠ 0)) as [-> Hf0].
  { unfold ws. clear -Hp. induction Hp as [|n p names pays (i & Hi & Hpay) _ IH]; [done|].
    rewrite !fmap_cons. apply witness_pay_value in Hpay as [Hf0 ->]. destruct IH as [<- _]. by rewrite Hi. }
  assert (Forall (λ w, 0 <= w) ws) as Hpos.
  { apply Forall_fmap, Forall_true. intros n. simpl. rewrite Hwt. apply Hw. }
  assert (0 <= factor) as Hf1 by (rewrite Hf, Hsum; lia).
  assert (length ws = length (scheduled s')) as Hlw by apply length_fmap.
  assert (ws ≠ []) as E.
  { intros E. rewrite E in Hlw. apply (schedule4_nonempty s s' Hok Hvt H). by destruct (scheduled s'). }
  specialize (Hf0 E).
  change freezone_MAX_WITNESSES with 21 in *.
  pose proof (shares_bounds (reward * 21) factor ws ltac:(lia) ltac:(lia) Hpos) as [Hb1 Hb2].
  rewrite <- Hf, Hlw in Hb1. rewrite <- Hf in Hb2. split; apply (Z.mul_le_mono_pos_l _ _ factor); lia.
Qed.

(** ** Virtual supply and print rate *)

Lemma percent_sbd_spec hf21 value virtual :
  0 <= value <= virtual → 0 < virtual < 2 ^ 63 →
  let p := (value * 10000 + (if hf21 : bool then virtual / 2 else 0)) / virtual in
  percent_sbd hf21 value virtual = Ok p ∧ 0 <= p <= 10000.
Proof.
  intros Hv Hw p.
  assert (0 <= p <= 10000) as Hp.
  { unfold p. split; [apply Z.div_pos; [destruct hf21; mlia|lia]|].
    apply Z.lt_succ_r, Z.div_lt_upper_bound; [lia|]. destruct hf21; mlia. }
  split; [|done]. unfold percent_sbd. change freezone_100_PERCENT with 10000.
  destruct (of_i64_spec value) as [W1 E1]; [unfold in_s; lia|]. rewrite u128_small in E1 by (unfold in_u; lia).
  destruct (of_i64_spec 10000) as [W2 E2]; [by vm_compute|]. rewrite u128_small in E2 by (unfold in_u; lia).
  destruct (of_i64_spec virtual) as [W3 E3]; [unfold in_s; lia|]. rewrite u128_small in E3 by (unfold in_u; lia).
  destruct (mul_assign_exact _ _ W1 W2) as (n & -> & Wn & En); [rewrite E1, E2; lia|]. rewrite Ok_bind. rewrite E1, E2 in En.
  rewrite Z.quot_div_nonneg by lia.
  destruct (of_i64_spec (virtual / 2)) as [W4 E4]; [unfold in_s; mlia|]. rewrite u128_small in E4 by (unfold in_u; mlia).
  set (num := if hf21 then _ else _).
  assert (Uint128.wf num ∧ to_Z num = value * 10000 + (if hf21 then virtual / 2 else 0)) as [Wnum Enum].
  { unfold num. destruct hf21; [|split; [done|lia]]. destruct (add_assign_spec n _ Wn W4) as [Wa Ea]. split; [done|].
    rewrite Ea, En, E4. apply u128_small. unfold in_u. mlia. }
  destruct (div_assign_spec num _ Wnum W3) as (q & -> & Wq & Eq); [lia|]. rewrite Ok_bind. rewrite Enum, E3 in Eq. fold p in Eq.
  rewrite to_uint64_spec by (done || lia). rewrite Ok_bind, Eq. unfold mret, res_ret. f_equal. mlia.
Qed.

Lemma print_rate_bounds start stop p : 0 <= p → 0 <= print_rate start stop p <= freezone_100_PERCENT.
Proof.
  intros Hp. unfold print_rate. change freezone_100_PERCENT with 10000.
  destruct (Z.leb_spec p start); [lia|]. destruct (Z.leb_spec stop p); [lia|].
  rewrite Z.quot_div_nonneg by lia.
  assert (0 <= (stop - p) * 10000 / (stop - start) <= 10000) as Hq.
  { split; [apply Z.div_pos; lia|]. apply Z.div_le_upper_bound; nia. }
  unfold u16. rewrite wrapu_small; unfold in_u; lia.
Qed.

Lemma print_rate_antitone start stop p q : 0 <= p <= q → print_rate start stop q <= print_rate start stop p.
Proof.
  intros Hp. pose proof (print_rate_bounds start stop p ltac:(lia)) as Bp. pose proof (print_rate_bounds start stop q ltac:(lia)) as Bq.
  unfold print_rate in *. change freezone_100_PERCENT with 10000 in *.
  destruct (Z.leb_spec p start); [lia|]. destruct (Z.leb_spec q start); [lia|].
  destruct (Z.leb_spec stop q); [lia|]. destruct (Z.leb_spec stop p); [lia|].
  rewrite !Z.quot_div_nonneg in * by lia.
  assert (∀ x, p <= x < stop → 0 <= (stop - x) * 10000 / (stop - start) < 2 ^ 16) as Hr.
  { intros x Hx. split; [apply Z.div_pos; lia|]. apply Z.div_lt_upper_bound; nia. }
  unfold u16 in *. rewrite !wrapu_small by (apply Hr; lia). apply Z.div_le_mono; lia.
Qed.

(** C25: The virtual supply is the supply plus the SBD at the median price.
    Since hardfork 14 the share of the SBD in it, in hundredths of a percent and
    rounded to the nearest since hardfork 21, is at most 100%, so that its 16 bits
    are enough, and it sets the print rate: within 0 and 100%, 100% up to the
    start percentage, 0 from the stop percentage on, and never higher for a
    larger share. *)
Theorem virtual_supply_spec f f' value :
  let g := gpo (fdb f) in let median := current_median_history (fdb f) in let g' := gpo (fdb f') in
  is_null median = false → asset_mul_price (Asset (current_sbd_supply g) SBD_SYMBOL) median = Ok value →
  0 <= amount value → 0 < current_supply g → current_supply g + amount value < 2 ^ 63 →
  has_hardfork freezone_HARDFORK_0_14 (fdb f) = true → update_virtual_supply f = Ok f' →
  let share := (amount value * 10000 + (if has_hardfork freezone_HARDFORK_0_21 (fdb f) then virtual_supply g' / 2 else 0)) / virtual_supply g' in
  virtual_supply g' = current_supply g + amount value ∧ 0 <= share <= 10000 ∧
  sbd_print_rate g' = print_rate (sbd_start_percent f) (sbd_stop_percent f) share ∧ 0 <= sbd_print_rate g' <= freezone_100_PERCENT ∧
  (∀ p, share <= p → print_rate (sbd_start_percent f) (sbd_stop_percent f) p <= sbd_print_rate g').
Proof.
  intros g median g' Hn Hval H0 Hs Hlt Hhf H share. unfold update_virtual_supply in H. cbv zeta in H. fold g median in H.
  rewrite Hn, Hval, Ok_bind in H. apply bind_Ok in H as (v & [_ ->]%asset_add_value & H). cbn [amount symbol] in H.
  rewrite Hhf in H. cbn [negb andb] in H. rewrite Ok_bind in H.
  destruct (percent_sbd_spec (has_hardfork freezone_HARDFORK_0_21 (fdb f)) (amount value) (current_supply g + amount value)) as [Hp Hb]; [lia|lia|].
  rewrite Hp, Ok_bind in H. unfold mret, res_ret in H. rewrite Ok_bind in H. injection H as <-.
  change (virtual_supply g') with (current_supply g + amount value) in share. fold share in Hb |- *.
  split; [reflexivity|]. split; [exact Hb|]. split; [reflexivity|].
  change (sbd_print_rate g') with (print_rate (sbd_start_percent f) (sbd_stop_percent f) share).
  split; [apply print_rate_bounds; lia|]. intros p Hle. apply print_rate_antitone. lia.
Qed.

(** ** The median feed *)

(** A price of SBD for freezone. *)
Definition feed_ok (p : price) : Prop :=
  wf_price p ∧ symbol (Asset.base p) = SBD_SYMBOL ∧ symbol (quote p) = freezone_SYMBOL.

Lemma feed_le p q : feed_ok p → feed_ok q → price_le p q ↔ amount (Asset.base p) * amount (quote q) <= amount (Asset.base q) * amount (quote p).
Proof.
  intros (Hp & Ep1 & Ep2) (Hq & Eq1 & Eq2). unfold price_le, price_leb, BQ_eqb. rewrite Ep1, Ep2, Eq1, Eq2, !Z.eqb_refl. cbn [andb].
  rewrite !cross_exact by done. rewrite Z.leb_le. lia.
Qed.

Lemma feed_gt p q : feed_ok p → feed_ok q → price_gtb p q = false ↔ price_le p q.
Proof.
  intros (Hp & Ep1 & Ep2) (Hq & Eq1 & Eq2). unfold price_le, price_leb, price_gtb, BQ_eqb. rewrite Ep1, Ep2, Eq1, Eq2, !Z.eqb_refl.
  cbn [andb]. rewrite Z.ltb_ge, Z.leb_le. done.
Qed.

Lemma feed_le_trans p q r : feed_ok p → feed_ok q → feed_ok r → price_le p q → price_le q r → price_le p r.
Proof.
  intros Hp Hq Hr. rewrite !feed_le by done. destruct Hp as ((? & ? & _) & _), Hq as ((? & ? & _) & _), Hr as ((? & ? & _) & _).
  generalize dependent (amount (Asset.base p)). generalize dependent (amount (Asset.base q)). generalize dependent (amount (Asset.base r)).
  generalize dependent (amount (quote p)). generalize dependent (amount (quote q)). generalize dependent (amount (quote r)).
  intros. nia.
Qed.

#[global] Instance price_le_total : Total price_le.
Proof.
  intros p q. unfold price_le, price_leb, BQ_eqb, BQ_ltb. rewrite (Z.eqb_sym (symbol (Asset.base q))), (Z.eqb_sym (symbol (quote q))).
  destruct (Z.eqb_spec (symbol (Asset.base p)) (symbol (Asset.base q))), (Z.eqb_spec (symbol (quote p)) (symbol (quote q))); cbn [andb];
    rewrite ?Z.leb_le, ?Z.ltb_lt; lia.
Qed.

Lemma Sorted_StronglySorted_on {A} (P : A → Prop) (R : relation A) l :
  (∀ x y z, P x → P y → P z → R x y → R y z → R x z) → Forall P l → Sorted R l → StronglySorted R l.
Proof.
  intros Ht HP Hs. induction Hs as [|x l Hs IH Hhd]; [constructor|]. apply Forall_cons in HP as [Hx HP]. specialize (IH HP).
  constructor; [done|]. destruct Hhd as [|y l Hxy]; [constructor|]. apply Forall_cons in HP as [Hy HP].
  apply StronglySorted_cons in IH as [Hyl _]. constructor; [done|].
  apply Forall_forall. intros z Hz. rewrite Forall_forall in HP, Hyl. eapply (Ht x y z); eauto.
Qed.

(** More than half of the prices are at most the median, at least half are at least it. *)
Lemma median_price_spec l m :
  Forall feed_ok l → median_price l = Ok m →
  m ∈ l ∧ (length l < 2 * length (filter (λ p, price_le p m) l))%nat ∧ (length l <= 2 * length (filter (price_le m) l))%nat.
Proof.
  intros Hok Hm. unfold median_price in Hm. apply from_option_exn_Ok in Hm.
  set (v := merge_sort price_le l) in *. set (k := Nat.div (length l) 2) in *.
  assert (v ≡ₚ l) as Hp by apply merge_sort_Permutation.
  assert (StronglySorted price_le v) as Hs.
  { apply (Sorted_StronglySorted_on feed_ok); [apply feed_le_trans|by rewrite Hp|apply Sorted_merge_sort, _]. }
  assert (length v = length l) as Hlen by (by rewrite Hp). pose proof (lookup_lt_Some _ _ _ Hm) as Hk.
  assert (m ∈ l) as Hin by (rewrite <- Hp; by apply list_elem_of_lookup_2 in Hm). split; [done|].
  assert (price_le m m) as Hrefl by (destruct (total price_le m m); done).
  assert (2 * k <= length l <= 2 * k + 1)%nat as Hdiv.
  { unfold k. pose proof (Nat.div_mod_eq (length l) 2). pose proof (Nat.mod_upper_bound (length l) 2). lia. }
  pose proof (take_drop_middle v k m Hm) as Hv. rewrite <- Hv in Hs. clearbody v k.
  rewrite StronglySorted_app in Hs. destruct Hs as (Hlow & _ & Hs). apply StronglySorted_cons in Hs as [Hhigh _].
  assert (∀ P : price → Prop, ∀ H : ∀ x, Decision (P x),
    length (filter P l) = (length (filter P (take k v)) + length (filter P (m :: drop (S k) v)))%nat) as Hsplit.
  { intros P HP. rewrite <- length_app, <- filter_app, Hv. by rewrite Hp. }
  split; rewrite Hsplit, filter_cons_True by done; cbn [length].
  - rewrite (filter_all (λ p, price_le p m) (take k v)); [rewrite length_take; lia|].
    apply Forall_forall. intros x Hx. apply (Hlow x m Hx). by left.
  - rewrite (filter_all (price_le m) (drop (S k) v)) by done. rewrite length_drop. lia.
Qed.

Lemma limit_price_spec d p p' :
  feed_ok p → 0 <= current_sbd_supply (gpo d) < 2 ^ 63 → current_supply (gpo d) < 2 ^ 63 → limit_price d p = Ok p' →
  feed_ok p' ∧ price_le p p' ∧
  (has_hardfork freezone_HARDFORK_0_14 d = true →
   9 * current_sbd_supply (gpo d) * amount (quote p') <= amount (Asset.base p') * current_supply (gpo d) ∨ current_sbd_supply (gpo d) = 0).
Proof.
  intros Hp Hsbd Hsup H. unfold limit_price in H.
  assert (price_le p p) as Hrefl by (destruct (total price_le p p); done).
  destruct (has_hardfork _ d && (0 <? current_sbd_supply (gpo d))) eqn:E.
  2: { injection H as <-. split; [done|]. split; [done|]. intros Hh. rewrite Hh in E. cbn in E. bools. lia. }
  apply bind_Ok in H as (x & Hx & H). apply bind_Ok in H as (mp & Hmp & H). unfold mret, res_ret in H. injection H as <-.
  unfold make_price in Hmp. cbv zeta in Hmp. apply bind_Ok in Hmp as ([] & Hv & Hmp). injection Hmp as <-. unfold price_validate in Hv.
  cbn [Asset.base quote amount symbol] in Hv. apply bind_Ok in Hv as ([] & H1%fc_assert_Ok%Z.ltb_lt & Hv).
  apply bind_Ok in Hv as ([] & H2%fc_assert_Ok%Z.ltb_lt & _).
  apply safe_mul_Ok in Hx as [-> Hx63]; [|by vm_compute|unfold in_s; change (64 - 1) with 63; lia]. unfold in_s in Hx63. change (64 - 1) with 63 in Hx63.
  set (mp := Price _ _). assert (feed_ok mp) as Hmp by (split; [split_and!; cbn [mp Asset.base quote amount symbol]; [lia|lia|lia|lia|done]|done]).
  assert (∀ q, feed_ok q → price_le mp q → 9 * current_sbd_supply (gpo d) * amount (quote q) <= amount (Asset.base q) * current_supply (gpo d)) as Hlim.
  { intros q Hq Hle. apply feed_le in Hle; [|done|done]. exact Hle. }
  destruct (price_gtb mp p) eqn:Eg.
  - assert (price_le mp mp) as Hr by (destruct (total price_le mp mp); done).
    split; [done|]. split; [|intros _; left; by apply Hlim].
    destruct (total price_le p mp) as [?|Hle]; [done|]. apply feed_gt in Hle; [congruence|done|done].
  - split; [done|]. split; [done|]. intros _. left. apply Hlim; [done|]. by apply feed_gt.
Qed.

(** C23: The price feed.  When [update_median_feed] takes the feeds [l] of the
    scheduled witnesses into account, the newest price of the history is a
    median of them (more than half of them are not above it, at least half not
    below it); the effective price is the median of the history or higher, and
    since hardfork 14 high enough that the value of the supply is at least nine
    times the SBD: the SBD are at most a tenth of the combined market value. *)
Theorem median_feed_spec f f' l :
  let d := fdb f in
  head_block_number (gpo d) mod freezone_FEED_INTERVAL_BLOCKS = 0 → current_feeds f = Ok l → freezone_MIN_FEEDS <= Z.of_nat (length l) →
  Forall feed_ok l → Forall feed_ok (price_history f) → 0 <= current_sbd_supply (gpo d) < 2 ^ 63 → current_supply (gpo d) < 2 ^ 63 →
  update_median_feed f = Ok f' →
  let effective := current_median_history (fdb f') in
  ∃ m p, last (price_history f') = Some m ∧ m ∈ l ∧
    (length l < 2 * length (filter (λ p, price_le p m) l))%nat ∧ (length l <= 2 * length (filter (price_le m) l))%nat ∧
    median_price (price_history f') = Ok p ∧ feed_ok effective ∧ price_le p effective ∧
    (has_hardfork freezone_HARDFORK_0_14 d = true → current_sbd_supply (gpo d) ≠ 0 →
     9 * current_sbd_supply (gpo d) * amount (quote effective) <= amount (Asset.base effective) * current_supply (gpo d)).
Proof.
  intros d Hblock Hl Hmin Hok Hhist Hsbd Hsup H effective. unfold update_median_feed in H. cbv zeta in H. fold d in H.
  rewrite Hblock, Hl, Ok_bind in H. cbn [Z.eqb negb] in H. rewrite (proj2 (Z.ltb_ge _ _) Hmin) in H.
  apply bind_Ok in H as (m & Hm & H). destruct (median_price_spec l m Hok Hm) as (Hin & Hc1 & Hc2).
  set (window := if has_hardfork _ d then _ else _) in H. assert (2 <= window) as Hw by (unfold window; destruct (has_hardfork _ d); apply Z.leb_le; reflexivity). clearbody window.
  set (history := if window <? _ then _ else _) in H.
  assert (Forall feed_ok (price_history f ++ [m])) as Hall.
  { apply Forall_app. split; [done|]. rewrite Forall_forall in Hok. by constructor; [apply Hok|]. }
  assert (last history = Some m ∧ Forall feed_ok history ∧ history ≠ []) as (Hlast & Hh & Hne).
  { unfold history. destruct (Z.ltb_spec window (Z.of_nat (length (price_history f ++ [m])))) as [Hlong|_].
    - destruct (price_history f) as [|q h]; [cbn in Hlong; lia|]. cbn [app tail]. rewrite last_snoc. apply Forall_cons in Hall as [_ Hall].
      split_and!; [done|done|by destruct h].
    - rewrite last_snoc. split_and!; [done|done|by destruct (price_history f)]. }
  clearbody history. apply bind_Ok in H as (p' & Hp' & H). injection H as <-.
  destruct history as [|q h] eqn:E; [done|]. rewrite <- E in *. apply bind_Ok in Hp' as (p & Hp & Hp').
  destruct (median_price_spec history p Hh Hp) as (Hpin & _).
  assert (feed_ok p) as Hpok by (rewrite Forall_forall in Hh; by apply Hh).
  destruct (limit_price_spec d p p' Hpok Hsbd Hsup Hp') as (H1 & H2 & H3).
  exists m, p. change effective with p'. split_and!; try done.
  intros Hhf Hz. destruct (H3 Hhf); [done|lia].
Qed.

(** ** A block of the small chain *)

Module FundsExample.
Definition sample_price : price := Price (Asset 1 SBD_SYMBOL) (Asset 2 freezone_SYMBOL).

Definition holder (fz sbds shares : Z) : account :=
  Account fz 0 (SbdAccount sbds (U128 0 0) 1000000 1000000) (SbdAccount 0 (U128 0 0) 0 0) 0 0 0 0 0
    (ManaAccount shares 0 0 time_point_sec_maximum 0 0 0 (Manabar 0 0) (Manabar 0 0)) 0 "" [0; 0; 0; 0] 0 true.

Definition sample_funds (head : Z) : funds :=
  let s := sample_next in
  let d := base s in
  let d := DB {[ "alice" := holder 900000 0 1000; "freezone.dao" := holder 0 200000 0 ]} ∅ ∅ ∅ ∅ ∅ ∅ ∅ ∅ ∅ {[ 0 := 5 ]} (staking d) 0
    (GPO head 1000000 1000005 200000 0 1000000000000 100000 1000 0 0 0 0 10000 10 432000 2500) sample_price 22 in
  Funds (set_base d s) "alice" 6500 1500 1000 0 900 1000 0 {[ 0 := 10000 ]} [sample_price]
    {[ "alice" := Feed (Price (Asset 3 SBD_SYMBOL) (Asset 5 freezone_SYMBOL)) 999000;
       "bob" := Feed sample_price 999000; "carol" := Feed (Price (Asset 2 SBD_SYMBOL) (Asset 5 freezone_SYMBOL)) 999000 ]}.

Definition after {A} (x : res A) (y : A) : A := match x with Ok a => a | Throw _ => y end.

Definition funded : funds := after (process_funds (sample_funds 42)) (sample_funds 42).

Lemma inflation_conserved_witness :
  process_funds (sample_funds 42) = Ok funded ∧ current_supply (gpo (fdb funded)) = 1009225 ∧ current_sbd_supply (gpo (fdb funded)) = 200465 ∧
  held freezone_SYMBOL (fdb funded) - issued freezone_SYMBOL (fdb funded) = 0.
Proof.
  split; [by vm_compute|]. split; [by vm_compute|]. split; [by vm_compute|].
  rewrite (inflation_conserved freezone_SYMBOL (sample_funds 42) funded); [by vm_compute| |by vm_compute].
  intros k t Hk. change ((∅ : gmap Z sst_token) !! k = Some t) in Hk. by rewrite lookup_empty in Hk.
Defined.

Lemma round_pays_21_rewards_witness : 21 * 1000 - 3 <= zsum [9545; 1909; 9545] <= 21 * 1000.
Proof.
  apply (round_pays_21_rewards (sample_sched true) sample_next 1000 [9545; 1909; 9545]);
    [apply sample_sched_ok|apply sample_vtime_ok|by vm_compute|lia|by intros []; vm_compute|].
  change (scheduled sample_next) with (scheduled (after (update_witness_schedule4 (sample_sched true)) (sample_sched true))).
  vm_compute scheduled. repeat constructor; (eexists; split; [vm_compute; reflexivity|by vm_compute]).
Defined.

Definition supplied : funds := after (update_virtual_supply (sample_funds 42)) (sample_funds 42).

Lemma virtual_supply_spec_witness : virtual_supply (gpo (fdb supplied)) = 1400005 ∧ 0 <= sbd_print_rate (gpo (fdb supplied)) <= 10000.
Proof.
  split; [by vm_compute|].
  apply (virtual_supply_spec (sample_funds 42) supplied (Asset 400000 freezone_SYMBOL)); by vm_compute.
Defined.

(** Seven places, so that there are enough feeds. *)
Definition feed_funds : funds :=
  let f := sample_funds 1200 in
  let w := new_round (fs f) (fill ["alice"; "bob"; "carol"; "alice"; "bob"; "carol"; "alice"]) 7 11 21 in
  set_fs (set_wso w (fs f)) f.
Definition fed : funds := after (update_median_feed feed_funds) feed_funds.
Definition sample_feeds : list price := after (current_feeds feed_funds) [].

Lemma sample_feeds_ok : Forall feed_ok sample_feeds.
Proof. vm_compute sample_feeds. repeat constructor; by vm_compute. Qed.

Lemma median_feed_spec_witness :
  price_history fed = [sample_price; sample_price] ∧ feed_ok (current_median_history (fdb fed)) ∧
  current_median_history (fdb fed) = Price (Asset 1800000 SBD_SYMBOL) (Asset 1000005 freezone_SYMBOL).
Proof.
  split; [by vm_compute|]. split; [|by vm_compute].
  destruct (median_feed_spec feed_funds fed sample_feeds) as (m & p & _ & _ & _ & _ & _ & H & _); [by vm_compute|by vm_compute|by vm_compute| | | | |by vm_compute|exact H].
  - apply sample_feeds_ok.
  - repeat constructor; by vm_compute.
  - by vm_compute.
  - by vm_compute.
Defined.
End FundsExample.
