(* ===== verification/Content.v ===== *)
(** * Comments

    steem_evaluator.cpp: the evaluators of comment, delete_comment and
    comment_options, and the objects of comment_object.hpp and
    steem_objects.hpp that they and the votes (Voting.v) keep.

    Comments are keyed by their id; the index by author and permlink is the
    table [permlinks].  A reference to a comment is its id, and a member read
    through the reference is a read of the current row.  The votes on a comment
    are keyed by comment, symbol and voter, which is how the payout visits
    them. *)

From S2P Require Import Prelude Config AccountName Uint128 SafeInt AssetSymbol Asset Manabar Reward MapSum State Ledger Votes Vesting.
From stdpp Require Import gmap strings sorting.
#[local] Open Scope Z_scope.

Definition freezone_ROOT_POST_PARENT : name := "".
Definition freezone_POST_REWARD_FUND_NAME : string := "post".

(** ** Objects *)

(** What the votes on a comment add up to; a comment has one for the native
    token and one for each token it was voted on with. *)
Record rshare_context : Type := RShares {
  net_rshares : Z;          (* share_type *)
  abs_rshares : Z;
  vote_rshares : Z;
  total_vote_weight : Z;    (* uint64_t *)
  net_votes : Z;            (* int32_t *)
  author_rewards : Z        (* share_type *)
}.

Definition no_rshares : rshare_context := RShares 0 0 0 0 0 0.

Record votable_asset_options : Type := VotableAsset {
  va_max_accepted_payout : Z;
  va_allow_curation_rewards : bool
}.

(** The members of comment_object that are set when it is created. *)
Record comment_link : Type := CommentLink {
  cm_author : name;
  cm_permlink : string;
  parent_author : name;
  parent_permlink : string;
  category : string;
  depth : Z;                (* uint16_t *)
  root_comment : Z;
  cm_created : Z;
  cm_reward_weight : Z      (* uint16_t *)
}.

(** The members that comment_options sets. *)
Record comment_settings : Type := CommentSettings {
  max_accepted_payout : asset;
  percent_freezone_dollars : Z;   (* uint16_t *)
  allow_replies : bool;
  allow_votes : bool;
  allow_curation_rewards : bool;
  beneficiaries : list (name * Z);
  allowed_vote_assets : gmap Z votable_asset_options
}.

(** Amounts of SBD. *)
Record comment_payouts : Type := CommentPayouts {
  total_payout_value : Z;
  curator_payout_value : Z;
  beneficiary_payout_value : Z
}.

Record comment : Type := Comment {
  link : comment_link;
  settings : comment_settings;
  payouts : comment_payouts;
  cm_last_update : Z;
  cm_active : Z;
  last_payout : Z;
  cashout_time : Z;
  max_cashout_time : Z;
  children : Z;             (* uint32_t *)
  children_abs_rshares : Z;
  cm_rshares : rshare_context;
  SST_rshares : list (Z * rshare_context)   (* a flat map, in the order of the symbols *)
}.

(** comment_vote_object *)
Record comment_vote : Type := CommentVote {
  vt_weight : Z;            (* uint64_t *)
  vt_rshares : Z;           (* int64_t *)
  vote_percent : Z;         (* int16_t *)
  vt_last_update : Z;
  num_changes : Z           (* int8_t *)
}.

(** The members of account_object that posting, voting and payouts use. *)
Record poster : Type := Poster {
  ac_id : Z;
  last_post : Z;
  last_root_post : Z;
  last_post_edit : Z;
  last_vote_time : Z;
  post_bandwidth : Z;       (* uint32_t *)
  post_count : Z;           (* uint32_t *)
  curation_rewards : Z;
  posting_rewards : Z
}.

(** reward_fund_object but for its balance, which is in the chain state, and
    the members of the same meaning of SST_token_object. *)
Record fund_info : Type := FundInfo {
  recent_claims : uint128;
  fund_last_update : Z;
  fund_constant : uint128;          (* content_constant *)
  percent_curation_rewards : Z;     (* uint16_t *)
  author_reward_curve : curve_id;
  curation_reward_curve : curve_id
}.

Record token_votes : Type := TokenVotes {
  token_fund : fund_info;
  votes_per_regeneration_period : Z (* uint32_t *)
}.

Record social : Type := Social {
  core : db;
  posters : gmap name poster;
  account_names : gmap Z name;                  (* accounts by id *)
  comments : gmap Z comment;
  permlinks : gmap (name * string) Z;
  contents : gmap Z (string * string * string); (* title, body, json_metadata *)
  cvotes : gmap (Z * Z * Z) comment_vote;       (* comment, symbol, voter *)
  sst_beneficiaries : gmap (Z * Z) (list (name * Z));   (* comment, symbol *)
  fund_names : gmap string Z;                   (* reward funds by name *)
  fund_infos : gmap Z fund_info;
  token_infos : gmap Z token_votes;
  token_last_vote : gmap (name * Z) Z;          (* account_regular_balance_object::last_vote_time *)
  reverse_auction_seconds : Z;                  (* of the global properties *)
  total_reward_shares2 : uint128;               (* of the global properties *)
  next_comment_id : Z;
  clear_votes : bool;                           (* the build option CLEAR_VOTES *)
  producing : bool                              (* database::is_producing *)
}.

(** ** Writes *)

Definition set_core (d : db) (s : social) : social :=
  Social d (posters s) (account_names s) (comments s) (permlinks s) (contents s) (cvotes s) (sst_beneficiaries s) (fund_names s)
    (fund_infos s) (token_infos s) (token_last_vote s) (reverse_auction_seconds s) (total_reward_shares2 s) (next_comment_id s)
    (clear_votes s) (producing s).
Definition set_posters f (s : social) : social :=
  Social (core s) (f (posters s)) (account_names s) (comments s) (permlinks s) (contents s) (cvotes s) (sst_beneficiaries s)
    (fund_names s) (fund_infos s) (token_infos s) (token_last_vote s) (reverse_auction_seconds s) (total_reward_shares2 s)
    (next_comment_id s) (clear_votes s) (producing s).
Definition set_comments f (s : social) : social :=
  Social (core s) (posters s) (account_names s) (f (comments s)) (permlinks s) (contents s) (cvotes s) (sst_beneficiaries s)
    (fund_names s) (fund_infos s) (token_infos s) (token_last_vote s) (reverse_auction_seconds s) (total_reward_shares2 s)
    (next_comment_id s) (clear_votes s) (producing s).
Definition set_permlinks f (s : social) : social :=
  Social (core s) (posters s) (account_names s) (comments s) (f (permlinks s)) (contents s) (cvotes s) (sst_beneficiaries s)
    (fund_names s) (fund_infos s) (token_infos s) (token_last_vote s) (reverse_auction_seconds s) (total_reward_shares2 s)
    (next_comment_id s) (clear_votes s) (producing s).
Definition set_contents f (s : social) : social :=
  Social (core s) (posters s) (account_names s) (comments s) (permlinks s) (f (contents s)) (cvotes s) (sst_beneficiaries s)
    (fund_names s) (fund_infos s) (token_infos s) (token_last_vote s) (reverse_auction_seconds s) (total_reward_shares2 s)
    (next_comment_id s) (clear_votes s) (producing s).
Definition set_cvotes f (s : social) : social :=
  Social (core s) (posters s) (account_names s) (comments s) (permlinks s) (contents s) (f (cvotes s)) (sst_beneficiaries s)
    (fund_names s) (fund_infos s) (token_infos s) (token_last_vote s) (reverse_auction_seconds s) (total_reward_shares2 s)
    (next_comment_id s) (clear_votes s) (producing s).
Definition set_sst_beneficiaries f (s : social) : social :=
  Social (core s) (posters s) (account_names s) (comments s) (permlinks s) (contents s) (cvotes s) (f (sst_beneficiaries s))
    (fund_names s) (fund_infos s) (token_infos s) (token_last_vote s) (reverse_auction_seconds s) (total_reward_shares2 s)
    (next_comment_id s) (clear_votes s) (producing s).
Definition set_fund_infos f (s : social) : social :=
  Social (core s) (posters s) (account_names s) (comments s) (permlinks s) (contents s) (cvotes s) (sst_beneficiaries s)
    (fund_names s) (f (fund_infos s)) (token_infos s) (token_last_vote s) (reverse_auction_seconds s) (total_reward_shares2 s)
    (next_comment_id s) (clear_votes s) (producing s).
Definition set_token_infos f (s : social) : social :=
  Social (core s) (posters s) (account_names s) (comments s) (permlinks s) (contents s) (cvotes s) (sst_beneficiaries s)
    (fund_names s) (fund_infos s) (f (token_infos s)) (token_last_vote s) (reverse_auction_seconds s) (total_reward_shares2 s)
    (next_comment_id s) (clear_votes s) (producing s).
Definition set_token_last_vote f (s : social) : social :=
  Social (core s) (posters s) (account_names s) (comments s) (permlinks s) (contents s) (cvotes s) (sst_beneficiaries s)
    (fund_names s) (fund_infos s) (token_infos s) (f (token_last_vote s)) (reverse_auction_seconds s) (total_reward_shares2 s)
    (next_comment_id s) (clear_votes s) (producing s).
Definition set_shares2 (v : uint128) (s : social) : social :=
  Social (core s) (posters s) (account_names s) (comments s) (permlinks s) (contents s) (cvotes s) (sst_beneficiaries s)
    (fund_names s) (fund_infos s) (token_infos s) (token_last_vote s) (reverse_auction_seconds s) v
    (next_comment_id s) (clear_votes s) (producing s).
Definition set_next_comment (v : Z) (s : social) : social :=
  Social (core s) (posters s) (account_names s) (comments s) (permlinks s) (contents s) (cvotes s) (sst_beneficiaries s)
    (fund_names s) (fund_infos s) (token_infos s) (token_last_vote s) (reverse_auction_seconds s) (total_reward_shares2 s)
    v (clear_votes s) (producing s).

Definition put_comment (id : Z) (c : comment) : social → social := set_comments <[id := c]>.
Definition put_poster (n : name) (p : poster) : social → social := set_posters <[n := p]>.
Definition put_vote (k : Z * Z * Z) (v : comment_vote) : social → social := set_cvotes <[k := v]>.

Definition set_rshares (r : rshare_context) (c : comment) : comment :=
  Comment (link c) (settings c) (payouts c) (cm_last_update c) (cm_active c) (last_payout c) (cashout_time c) (max_cashout_time c)
    (children c) (children_abs_rshares c) r (SST_rshares c).
Definition set_SST_rshares (l : list (Z * rshare_context)) (c : comment) : comment :=
  Comment (link c) (settings c) (payouts c) (cm_last_update c) (cm_active c) (last_payout c) (cashout_time c) (max_cashout_time c)
    (children c) (children_abs_rshares c) (cm_rshares c) l.
Definition set_settings (o : comment_settings) (c : comment) : comment :=
  Comment (link c) o (payouts c) (cm_last_update c) (cm_active c) (last_payout c) (cashout_time c) (max_cashout_time c)
    (children c) (children_abs_rshares c) (cm_rshares c) (SST_rshares c).
Definition set_payouts (p : comment_payouts) (c : comment) : comment :=
  Comment (link c) (settings c) p (cm_last_update c) (cm_active c) (last_payout c) (cashout_time c) (max_cashout_time c)
    (children c) (children_abs_rshares c) (cm_rshares c) (SST_rshares c).
Definition set_children_abs (v : Z) (c : comment) : comment :=
  Comment (link c) (settings c) (payouts c) (cm_last_update c) (cm_active c) (last_payout c) (cashout_time c) (max_cashout_time c)
    (children c) v (cm_rshares c) (SST_rshares c).
Definition touch_children (n t : Z) (c : comment) : comment :=
  Comment (link c) (settings c) (payouts c) (cm_last_update c) t (last_payout c) (cashout_time c) (max_cashout_time c)
    n (children_abs_rshares c) (cm_rshares c) (SST_rshares c).
Definition touch (t : Z) (c : comment) : comment :=
  Comment (link c) (settings c) (payouts c) t t (last_payout c) (cashout_time c) (max_cashout_time c)
    (children c) (children_abs_rshares c) (cm_rshares c) (SST_rshares c).

Definition set_last_vote_time (t : Z) (p : poster) : poster :=
  Poster (ac_id p) (last_post p) (last_root_post p) (last_post_edit p) t (post_bandwidth p) (post_count p) (curation_rewards p)
    (posting_rewards p).
Definition set_last_post_edit (t : Z) (p : poster) : poster :=
  Poster (ac_id p) (last_post p) (last_root_post p) t (last_vote_time p) (post_bandwidth p) (post_count p) (curation_rewards p)
    (posting_rewards p).
Definition add_rewards (curation posting : Z) (p : poster) : poster :=
  Poster (ac_id p) (last_post p) (last_root_post p) (last_post_edit p) (last_vote_time p) (post_bandwidth p) (post_count p)
    curation posting.

(** ** Lookups *)

Definition snow (s : social) : Z := now (core s).
Definition hf (h : Z) (s : social) : bool := has_hardfork h (core s).

Definition get_poster (n : name) (s : social) : res poster := from_option_exn out_of_range (posters s !! n).
Definition get_comment_by_id (id : Z) (s : social) : res comment := from_option_exn out_of_range (comments s !! id).

(** [database::get_comment]; the reference it returns is the id. *)
Definition get_comment (author : name) (permlink : string) (s : social) : res Z :=
  from_option_exn out_of_range (permlinks s !! (author, permlink)).

Definition is_root (c : comment) : bool := bool_decide (parent_author (link c) = freezone_ROOT_POST_PARENT).

Definition calculate_discussion_payout_time (c : comment) (s : social) : res Z :=
  if hf freezone_HARDFORK_0_17 s || is_root c then mret (cashout_time c)
  else r ← get_comment_by_id (root_comment (link c)) s; mret (cashout_time r).

Definition get_reward_fund (s : social) : res (Z * fund_info) :=
  id ← from_option_exn out_of_range (fund_names s !! freezone_POST_REWARD_FUND_NAME);
  f ← from_option_exn out_of_range (fund_infos s !! id);
  mret (id, f).

Definition get_curation_rewards_percent (s : social) : res Z :=
  if hf freezone_HARDFORK_0_17 s then f ← get_reward_fund s; mret (percent_curation_rewards f.2)
  else if hf freezone_HARDFORK_0_8 s then mret (freezone_1_PERCENT * 25)
  else mret (freezone_1_PERCENT * 50).

(** [database::adjust_rshares2] *)
Definition adjust_rshares2 (old_rshares2 new_rshares2 : uint128) (s : social) : social :=
  set_shares2 (add_assign (sub_assign (total_reward_shares2 s) old_rshares2) new_rshares2) s.

(** ** comment *)

Definition freezone_MIN_PERMLINK_LENGTH : Z := 0.
Definition freezone_MAX_PERMLINK_LENGTH : Z := 256.

Definition size (s : string) : Z := Z.of_nat (String.length s).

Definition validate_permlink_0_1 (permlink : string) : res unit :=
  _ ← fc_assert ((freezone_MIN_PERMLINK_LENGTH <? size permlink) && (size permlink <? freezone_MAX_PERMLINK_LENGTH));
  fc_assert (forallb is_let_dig_hyp (String.list_ascii_of_string permlink)).

Record comment_operation : Type := CommentOp {
  co_parent_author : name;
  co_parent_permlink : string;
  co_author : name;
  co_permlink : string;
  co_title : string;
  co_body : string;
  co_json_metadata : string
}.

(** The replies a comment has are counted in every comment above it; [f] is the
    change of the count.  The loop ends at a root. *)
Fixpoint count_replies (fuel : nat) (f : Z → Z) (id : Z) (s : social) : res social :=
  match fuel with
  | O => Throw fuel_exhausted
  | S fuel =>
      c ← get_comment_by_id id s;
      let s := put_comment id (touch_children (u32 (f (children c))) (snow s) c) s in
      if is_root c then mret s
      else p ← get_comment (parent_author (link c)) (parent_permlink (link c)) s; count_replies fuel f p s
  end.

Definition reply_fuel (s : social) : nat := S (base.size (comments s)).

(** Before hardfork 17 frequent posts of an author weigh less. *)
Definition post_weight (root : bool) (p : poster) (s : social) : Z * Z :=
  if hf freezone_HARDFORK_0_12 s && negb (hf freezone_HARDFORK_0_17 s) && root then
    let post_delta_time := Z.min (u32 (snow s - last_root_post p)) freezone_POST_AVERAGE_WINDOW in
    let old_weight := u32 (post_bandwidth p * (freezone_POST_AVERAGE_WINDOW - post_delta_time) / freezone_POST_AVERAGE_WINDOW) in
    let bandwidth := u32 (old_weight + freezone_100_PERCENT) in
    (u16 (Z.min (freezone_POST_WEIGHT_CONSTANT * freezone_100_PERCENT / u64 (bandwidth * bandwidth)) freezone_100_PERCENT), bandwidth)
  else (freezone_100_PERCENT, post_bandwidth p).

Definition default_settings : comment_settings :=
  CommentSettings (Asset 1000000000 SBD_SYMBOL) freezone_100_PERCENT true true true [] ∅.

(** The cashout time of a new comment. *)
Definition first_cashout (root : bool) (s : social) : Z :=
  if hf freezone_HARDFORK_0_17 s then u32 (snow s + freezone_CASHOUT_WINDOW_SECONDS)
  else if root then
    if hf freezone_HARDFORK_0_12 s then u32 (snow s + freezone_CASHOUT_WINDOW_SECONDS_PRE_HF17) else time_point_sec_maximum
  else time_point_sec_maximum.

(** The part of the evaluator for a new comment; [parent] is the id of the
    comment it replies to. *)
Definition create_comment (o : comment_operation) (auth : poster) (parent : option Z) (s : social) : res social :=
  let root := bool_decide (co_parent_author o = freezone_ROOT_POST_PARENT) in
  let t := snow s in
  _ ← match parent with
      | None => mret tt
      | Some p =>
          c ← get_comment_by_id p s;
          r ← get_comment_by_id (root_comment (link c)) s;
          _ ← fc_assert (allow_replies (settings r));
          if hf freezone_HARDFORK_0_12 s && negb (hf freezone_HARDFORK_0_17 s) then
            payout ← calculate_discussion_payout_time c s;
            fc_assert (negb (payout =? time_point_sec_maximum))
          else mret tt
      end;
  _ ← (if hf freezone_HARDFORK_0_20 s then
         if root then fc_assert (freezone_MIN_ROOT_COMMENT_INTERVAL <? t - last_root_post auth)
         else fc_assert (freezone_MIN_REPLY_INTERVAL_HF20 <=? t - last_post auth)
       else mret tt);
  let '(reward_weight, bandwidth) := post_weight root auth s in
  let s := put_poster (co_author o)
    (Poster (ac_id auth) t (if root then t else last_root_post auth) t (last_vote_time auth)
       (if root then bandwidth else post_bandwidth auth) (u32 (post_count auth + 1)) (curation_rewards auth) (posting_rewards auth)) s in
  _ ← (if hf freezone_HARDFORK_0_1 s then
         _ ← validate_permlink_0_1 (co_parent_permlink o); validate_permlink_0_1 (co_permlink o)
       else mret tt);
  let id := next_comment_id s in
  l ← match parent with
      | None => mret (CommentLink (co_author o) (co_permlink o) "" (co_parent_permlink o) (co_parent_permlink o) 0 id t reward_weight)
      | Some p =>
          c ← get_comment_by_id p s;
          let k := link c in
          mret (CommentLink (co_author o) (co_permlink o) (cm_author k) (cm_permlink k) (category k) (u16 (depth k + 1)) (root_comment k)
                  t reward_weight)
      end;
  let s := set_permlinks <[(co_author o, co_permlink o) := id]>
    (put_comment id (Comment l default_settings (CommentPayouts 0 0 0) t t 0 (first_cashout root s) time_point_sec_maximum 0 0
       no_rshares []) (set_next_comment (id + 1) s)) in
  let s := set_contents <[id := (co_title o, if size (co_body o) <? 1024 * 1024 * 128 then co_body o else "", co_json_metadata o)]> s in
  match parent with
  | None => mret s
  | Some p => count_replies (reply_fuel s) (Z.add 1) p s
  end.

Section Comment.

(** [fc::is_utf8], and what the diff library makes of an edited body: the patch
    the operation holds applied to the old body, or the new body when it is not
    a patch. *)
Context (is_utf8 : string → bool) (edit_body : string → string → string).

(** Before hardfork 21 a permlink of the same length counts as the same. *)
Definition same_permlink (a b : string) (s : social) : bool :=
  if hf freezone_HARDFORK_0_21 s then (size a =? size b) && bool_decide (a = b) else (size a =? size b) || bool_decide (a = b).

Definition edit_comment (o : comment_operation) (auth : poster) (id : Z) (s : social) : res social :=
  let t := snow s in
  c ← get_comment_by_id id s;
  _ ← (if producing s || hf freezone_HARDFORK_0_21 s
       then fc_assert (freezone_MIN_COMMENT_EDIT_INTERVAL <=? t - last_post_edit auth) else mret tt);
  _ ← (if negb (hf freezone_HARDFORK_0_17 s) then
         if hf freezone_HARDFORK_0_14 s then
           payout ← calculate_discussion_payout_time c s;
           fc_assert (negb (payout =? time_point_sec_maximum))
         else if hf freezone_HARDFORK_0_10 s then fc_assert (last_payout c =? 0)
         else mret tt
       else mret tt);
  _ ← fc_assert (bool_decide (parent_author (link c) = co_parent_author o));
  _ ← fc_assert (same_permlink (parent_permlink (link c)) (co_parent_permlink o) s);
  let s := put_comment id (touch t c) s in
  let s := put_poster (co_author o) (set_last_post_edit t auth) s in
  text ← from_option_exn out_of_range (contents s !! id);
  let '(title, body, json) := text in
  mret (set_contents <[id := (if size (co_title o) =? 0 then title else co_title o,
                              if size (co_body o) =? 0 then body else edit_body body (co_body o),
                              if size (co_json_metadata o) =? 0 then json else co_json_metadata o)]> s).

Definition comment_apply (o : comment_operation) (s : social) : res social :=
  _ ← (if hf freezone_HARDFORK_0_5 s
       then fc_assert (negb (size (co_title o) + size (co_body o) + size (co_json_metadata o) =? 0)) else mret tt);
  auth ← get_poster (co_author o) s;
  parent ← (if decide (co_parent_author o = freezone_ROOT_POST_PARENT) then mret None
            else
              p ← get_comment (co_parent_author o) (co_parent_permlink o) s;
              c ← get_comment_by_id p s;
              _ ← fc_assert (depth (link c) <? if hf freezone_HARDFORK_0_17 s then freezone_MAX_COMMENT_DEPTH
                                               else freezone_MAX_COMMENT_DEPTH_PRE_HF17);
              mret (Some p));
  _ ← fc_assert (is_utf8 (co_json_metadata o));
  match permlinks s !! (co_author o, co_permlink o) with
  | None => create_comment o auth parent s
  | Some id => edit_comment o auth id s
  end.

End Comment.

(** ** delete_comment *)

Record delete_comment_operation : Type := DeleteComment {
  dc_author : name;
  dc_permlink : string
}.

Definition delete_comment_apply (o : delete_comment_operation) (s : social) : res social :=
  id ← get_comment (dc_author o) (dc_permlink o) s;
  c ← get_comment_by_id id s;
  _ ← fc_assert (children c =? 0);
  _ ← (if hf freezone_HARDFORK_0_19 s then fc_assert (negb (cashout_time c =? time_point_sec_maximum)) else mret tt);
  _ ← (if hf freezone_HARDFORK_0_19 s then fc_assert (net_rshares (cm_rshares c) <=? 0) else mret tt);
  if 0 <? net_rshares (cm_rshares c) then mret s
  else
    let s := set_cvotes (filter (λ kv, kv.1.1.1 ≠ id)) s in
    s ← (if hf freezone_HARDFORK_0_6 s && negb (is_root c) then
           p ← get_comment (parent_author (link c)) (parent_permlink (link c)) s;
           count_replies (reply_fuel s) (λ n, n - 1) p s
         else mret s);
    mret (set_permlinks (delete (cm_author (link c), cm_permlink (link c))) (set_comments (delete id) s)).

(** ** comment_options *)

Definition freezone_BENEFICIARY_LIMIT : Z := 128.
Definition SST_MAX_VOTABLE_ASSETS : Z := 2.

(** An option of allowed_vote_assets: symbol, largest payout, curation rewards,
    beneficiaries. *)
Record votable_asset : Type := VotableAssetOp {
  vo_symbol : Z;
  vo_max_accepted_payout : Z;
  vo_allow_curation_rewards : bool;
  vo_beneficiaries : list (name * Z)
}.

Inductive comment_options_extension : Type :=
| comment_payout_beneficiaries (l : list (name * Z))
| allowed_vote_assets_extension (l : list votable_asset).   (* in the order of the symbols *)

Record comment_options_operation : Type := CommentOptions {
  op_author : name;
  op_permlink : string;
  op_max_accepted_payout : asset;
  op_percent_freezone_dollars : Z;   (* uint16_t *)
  op_allow_votes : bool;
  op_allow_curation_rewards : bool;
  op_extensions : list comment_options_extension
}.

(** The loop over the beneficiaries after the first; [prev] is the one before. *)
Fixpoint validate_beneficiaries (prev : name) (sum : Z) (l : list (name * Z)) : res unit :=
  match l with
  | [] => mret tt
  | (n, w) :: l =>
      _ ← validate_account_name n;
      _ ← fc_assert (w <=? freezone_100_PERCENT);
      let sum := u32 (sum + w) in
      _ ← fc_assert (sum <=? freezone_100_PERCENT);
      _ ← fc_assert (String.ltb prev n);
      validate_beneficiaries n sum l
  end.

Definition comment_payout_beneficiaries_validate (l : list (name * Z)) : res unit :=
  _ ← fc_assert (negb (Z.of_nat (length l) =? 0));
  _ ← fc_assert (Z.of_nat (length l) <? freezone_BENEFICIARY_LIMIT);
  match l with
  | [] => Throw assert_exception
  | (n, w) :: l =>
      _ ← validate_account_name n;
      _ ← fc_assert (w <=? freezone_100_PERCENT);
      _ ← fc_assert (u32 (0 + w) <=? freezone_100_PERCENT);
      validate_beneficiaries n (u32 (0 + w)) l
  end.

Definition is_allowed (l : list votable_asset) (symbol : Z) : bool := existsb (λ v, vo_symbol v =? symbol) l.

Definition allowed_vote_assets_validate (l : list votable_asset) : res unit :=
  _ ← fc_assert (Z.of_nat (length l) <=? SST_MAX_VOTABLE_ASSETS);
  _ ← fc_assert (negb (is_allowed l freezone_SYMBOL) && negb (is_allowed l SBD_SYMBOL) && negb (is_allowed l VESTS_SYMBOL));
  res_fold (λ (_ : unit) v, match vo_beneficiaries v with [] => mret tt | b => comment_payout_beneficiaries_validate b end) tt l.

Section Options.

Context (is_utf8 : string → bool).

Definition validate_permlink (permlink : string) : res unit :=
  _ ← fc_assert (size permlink <? freezone_MAX_PERMLINK_LENGTH);
  fc_assert (is_utf8 permlink).

Definition comment_options_validate (o : comment_options_operation) : res unit :=
  _ ← validate_account_name (op_author o);
  _ ← fc_assert (op_percent_freezone_dollars o <=? freezone_100_PERCENT);
  _ ← fc_assert (symbol (op_max_accepted_payout o) =? SBD_SYMBOL);
  _ ← fc_assert (0 <=? amount (op_max_accepted_payout o));
  _ ← validate_permlink (op_permlink o);
  res_fold (λ (_ : unit) e,
    match e with
    | comment_payout_beneficiaries l => comment_payout_beneficiaries_validate l
    | allowed_vote_assets_extension l => allowed_vote_assets_validate l
    end) tt (op_extensions o).

End Options.

Definition beneficiaries_exist (l : list (name * Z)) (s : social) : res unit :=
  res_fold (λ (_ : unit) b, fc_assert (bool_decide (accounts (core s) !! b.1 ≠ None))) tt l.

Definition check_votable (c : comment) (v : votable_asset) (s : social) : res unit :=
  if is_root c then
    t ← from_option_exn assert_exception (sst_tokens (core s) !! vo_symbol v);
    _ ← fc_assert (match phase t with launch_success => true | _ => false end);
    fc_assert (allow_voting t)
  else
    r ← get_comment_by_id (root_comment (link c)) s;
    fc_assert (bool_decide (allowed_vote_assets (settings r) !! vo_symbol v ≠ None)).

Definition apply_options_extension (id : Z) (s : social) (e : comment_options_extension) : res social :=
  c ← get_comment_by_id id s;
  let o := settings c in
  match e with
  | allowed_vote_assets_extension l =>
      _ ← fc_assert (hf freezone_SST_HARDFORK s);
      _ ← fc_assert (abs_rshares (cm_rshares c) =? 0);
      _ ← res_fold (λ (_ : unit) v, check_votable c v s) tt l;
      s ← res_fold (λ s v,
             match vo_beneficiaries v with
             | [] => mret (set_sst_beneficiaries (delete (id, vo_symbol v)) s)
             | b => _ ← beneficiaries_exist b s; mret (set_sst_beneficiaries <[(id, vo_symbol v) := b]> s)
             end) s l;
      let m := foldl (λ m v, <[vo_symbol v := VotableAsset (vo_max_accepted_payout v) (vo_allow_curation_rewards v)]> m)
                 (allowed_vote_assets o) l in
      mret (put_comment id (set_settings (CommentSettings (max_accepted_payout o) (percent_freezone_dollars o) (allow_replies o)
              (allow_votes o) (allow_curation_rewards o) (beneficiaries o) m) c) s)
  | comment_payout_beneficiaries l =>
      _ ← fc_assert (Z.of_nat (length (beneficiaries o)) =? 0);
      _ ← fc_assert (abs_rshares (cm_rshares c) =? 0);
      _ ← beneficiaries_exist l s;
      mret (put_comment id (set_settings (CommentSettings (max_accepted_payout o) (percent_freezone_dollars o) (allow_replies o)
              (allow_votes o) (allow_curation_rewards o) (beneficiaries o ++ l) (allowed_vote_assets o)) c) s)
  end.

Definition comment_options_apply (o : comment_options_operation) (s : social) : res social :=
  id ← get_comment (op_author o) (op_permlink o) s;
  c ← get_comment_by_id id s;
  let old := settings c in
  restricts ← (if negb (op_allow_curation_rewards o) || negb (op_allow_votes o) then Ok true
               else asset_ltb (op_max_accepted_payout o) (max_accepted_payout old));
  _ ← (if restricts : bool then fc_assert (abs_rshares (cm_rshares c) =? 0) else mret tt);
  _ ← fc_assert (implb (op_allow_curation_rewards o) (allow_curation_rewards old));
  _ ← fc_assert (implb (op_allow_votes o) (allow_votes old));
  b ← asset_geb (max_accepted_payout old) (op_max_accepted_payout o);
  _ ← fc_assert b;
  _ ← fc_assert (op_percent_freezone_dollars o <=? percent_freezone_dollars old);
  let s := put_comment id (set_settings (CommentSettings (op_max_accepted_payout o) (op_percent_freezone_dollars o) (allow_replies old)
      (op_allow_votes o) (op_allow_curation_rewards o) (beneficiaries old) (allowed_vote_assets old)) c) s in
  res_fold (apply_options_extension id) s (op_extensions o).
