(* ===== verification/Voting.v ===== *)
(** * Votes on comments

    steem_evaluator.cpp: the evaluators of vote after hardfork 20, and of vote2.
    A vote spends mana, adds its shares to the comment, and gets a weight in the
    curation rewards of the comment.  The evaluator of the hardforks before 20
    is not modelled. *)

From S2P Require Import Prelude Config AccountName Uint128 SafeInt AssetSymbol Asset Manabar Reward MapSum State Ledger Votes Vesting.
From stdpp Require Import gmap strings sorting.
From S2P Require Import Content.
#[local] Open Scope Z_scope.

(** ** Votes *)

(** 128-bit arithmetic with an integer operand. *)
Definition mul_int (a : uint128) (n : Z) : res uint128 := mul_assign a (uint128_of_i64 n).
Definition div_int (a : uint128) (n : Z) : res uint128 := div_assign a (uint128_of_i64 n).

Record vote_operation : Type := VoteOp {
  vo_voter : name;
  vo_author : name;
  vo_permlink : string;
  vo_weight : Z            (* int16_t *)
}.

(** Who votes: an account with its vesting shares, or with its stake of a
    token. *)
Inductive voter_ref : Type :=
| native_voter (n : name)
| token_voter (n : name) (symbol : Z).

Definition voter_stake (v : voter_ref) (s : social) : res mana_account :=
  match v with
  | native_voter n => a ← get_account n (core s); mret (stake a)
  | token_voter n sym => b ← from_option_exn out_of_range (regular_balances (core s) !! (n, sym)); mret (rb_stake b)
  end.

Definition put_voter_stake (v : voter_ref) (m : mana_account) (s : social) : res social :=
  match v with
  | native_voter n => a ← get_account n (core s); mret (set_core (put_account n (set_stake m a) (core s)) s)
  | token_voter n sym =>
      b ← from_option_exn out_of_range (regular_balances (core s) !! (n, sym));
      mret (set_core (set_regular_balances <[(n, sym) := RegularBalance (liquid b) m]> (core s)) s)
  end.

Definition put_vote_time (v : voter_ref) (s : social) : res social :=
  match v with
  | native_voter n => p ← get_poster n s; mret (put_poster n (set_last_vote_time (snow s) p) s)
  | token_voter n sym => mret (set_token_last_vote <[(n, sym) := snow s]> s)
  end.

(** The mana a vote uses; a downvote uses the downvote mana first. *)
Definition spend_mana (downvote : bool) (used : Z) (m : mana_account) : mana_account :=
  if downvote then
    let d := current_mana (downvote_manabar m) in
    if d <? used then
      set_manabars m (use_mana (i64 (used - d)) 0 (voting_manabar m)) (use_mana d 0 (downvote_manabar m))
    else set_manabars m (voting_manabar m) (use_mana used 0 (downvote_manabar m))
  else set_manabars m (use_mana used 0 (voting_manabar m)) (downvote_manabar m).

Definition spend_vote (v : voter_ref) (downvote : bool) (used : Z) (s : social) : res social :=
  m ← voter_stake v s;
  s ← put_voter_stake v (spend_mana downvote used m) s;
  put_vote_time v s.

(** A vote on a comment that was paid out is recorded without effect. *)
Definition late_vote (id voter symbol : Z) (percent : option Z) (s : social) : res social :=
  if clear_votes s then mret s
  else
    match cvotes s !! (id, symbol, voter) with
    | None =>
        _ ← check logic_error (bool_decide (cvotes s !! (id, freezone_SYMBOL, voter) = None));
        mret (put_vote (id, freezone_SYMBOL, voter) (CommentVote 0 0 (default 0 percent) (snow s) 0) s)
    | Some v =>
        mret (put_vote (id, symbol, voter)
          (CommentVote (vt_weight v) (vt_rshares v) (default (vote_percent v) percent) (snow s) (num_changes v)) s)
    end.

(** What is left of a vote after the dust threshold and the lockout before the
    payout. *)
Definition effective_rshares (used cashout now : Z) : res Z :=
  let abs_rshares := Z.max 0 (i64 (used - freezone_VOTE_DUST_THRESHOLD)) in
  let cashout_delta := u32 (cashout - now) in
  if cashout_delta <? freezone_UPVOTE_LOCKOUT_SECONDS then
    p ← mul_int (uint128_of_i64 abs_rshares) cashout_delta;
    q ← div_int p freezone_UPVOTE_LOCKOUT_SECONDS;
    r ← to_uint64 q;
    mret (i64 r)
  else mret abs_rshares.

(** A first vote. *)
Definition add_vote (rshares abs : Z) (r : rshare_context) : res rshare_context :=
  net ← safe_add (net_rshares r) rshares;
  a ← safe_add (abs_rshares r) abs;
  v ← (if 0 <? rshares then safe_add (vote_rshares r) rshares else mret (vote_rshares r));
  mret (RShares net a v (total_vote_weight r) (i32 (if 0 <? rshares then net_votes r + 1 else net_votes r - 1)) (author_rewards r)).

Definition votes_change (rshares old : Z) : Z :=
  if (0 <? rshares) && (old <? 0) then 2
  else if (0 <? rshares) && (old =? 0) then 1
  else if (rshares =? 0) && (old <? 0) then 1
  else if (rshares =? 0) && (0 <? old) then -1
  else if (rshares <? 0) && (old =? 0) then -1
  else if (rshares <? 0) && (0 <? old) then -2
  else 0.

(** A vote that replaces a vote of [old] shares and [weight]. *)
Definition change_vote (rshares abs old weight : Z) (r : rshare_context) : res rshare_context :=
  net ← safe_sub (net_rshares r) old;
  net ← safe_add net rshares;
  a ← safe_add (abs_rshares r) abs;
  mret (RShares net a (vote_rshares r) (u64 (total_vote_weight r - weight)) (i32 (net_votes r + votes_change rshares old)) (author_rewards r)).

Definition add_weight (w : Z) (r : rshare_context) : rshare_context :=
  RShares (net_rshares r) (abs_rshares r) (vote_rshares r) (u64 (total_vote_weight r + w)) (net_votes r) (author_rewards r).

Definition add_children_abs (id abs : Z) (s : social) : res social :=
  c ← get_comment_by_id id s;
  r ← get_comment_by_id (root_comment (link c)) s;
  a ← safe_add (children_abs_rshares r) abs;
  mret (put_comment (root_comment (link c)) (set_children_abs a r) s).

(** The weight of a vote discounted by its time in the reverse auction. *)
Definition discount_weight (max_vote_weight created : Z) (s : social) : res Z :=
  let delta_t := Z.min (u64 (snow s - created)) (reverse_auction_seconds s) in
  p ← mul_assign (uint128_of_u64 max_vote_weight) (uint128_of_u64 delta_t);
  q ← div_assign p (uint128_of_u64 (reverse_auction_seconds s));
  to_uint64 q.

Section Vote.

Context (find_msb64 : Z → Z).

Definition curve_weight (v : Z) (curve : curve_id) (constant : uint128) : res Z :=
  w ← evaluate_reward_curve find_msb64 (uint128_of_i64 v) curve constant;
  to_uint64 w.

(** *** Hardforks 20 to 22 *)

(** The mana a vote of [weight] costs. *)
Definition vote_mana (weight : Z) (m : mana_account) (s : social) : res Z :=
  let abs_weight := Z.abs weight in
  let pool := downvote_pool_percent (gpo (core s)) in
  let voting := uint128_of_i64 (current_mana (voting_manabar m)) in
  let down := current_mana (downvote_manabar m) in
  basis ← (if negb (pool =? 0) && (weight <? 0) then
             d ← (if hf freezone_HARDFORK_0_22 s then mul_int (uint128_of_i64 down) freezone_100_PERCENT
                  else mret (uint128_of_i64 (i64 (down * freezone_100_PERCENT))));
             d ← div_int d pool;
             mret (if Uint128.ltb d voting then voting else d)
           else mret voting);
  u ← mul_int basis abs_weight;
  u ← mul_int u 60;
  u ← mul_int u 60;
  u ← mul_int u 24;
  u ← div_int u freezone_100_PERCENT;
  let max_vote_denom := u32 (target_votes_per_period (gpo (core s)) * freezone_VOTING_MANA_REGENERATION_SECONDS) in
  u ← div_int (sub_assign (add_assign u (uint128_of_i64 max_vote_denom)) (uint128_of_i64 1)) max_vote_denom;
  to_int64 u.

(** The weight of the first vote of a voter on comment [c]: what it gets and
    what it adds to the total.  [old] are the shares voted before it. *)
Definition first_vote_weight (rshares old : Z) (c : comment) (s : social) : res (Z * Z) :=
  eligible ← (if (0 <? rshares) && (last_payout c =? 0) && allow_curation_rewards (settings c)
              then percent ← get_curation_rewards_percent s; mret (0 <? percent) else mret false);
  if eligible : bool then
    f ← get_reward_fund s;
    old_weight ← curve_weight old (curation_reward_curve f.2) (fund_constant f.2);
    new_weight ← curve_weight (vote_rshares (cm_rshares c)) (curation_reward_curve f.2) (fund_constant f.2);
    if new_weight <=? old_weight then mret (0, 0)
    else
      let max_vote_weight := new_weight - old_weight in
      w ← discount_weight max_vote_weight (cm_created (link c)) s;
      mret (w, max_vote_weight)
  else mret (0, 0).

Definition hf20_first_vote (o : vote_operation) (id voter used abs : Z) (s : social) : res social :=
  _ ← fc_assert (negb (vo_weight o =? 0));
  let rshares := if vo_weight o <? 0 then - abs else abs in
  let downvote := hf freezone_HARDFORK_0_21 s && (0 <? downvote_pool_percent (gpo (core s))) && (vo_weight o <? 0) in
  s ← spend_vote (native_voter (vo_voter o)) downvote used s;
  c ← get_comment_by_id id s;
  let old_vote_rshares := vote_rshares (cm_rshares c) in
  r ← add_vote rshares abs (cm_rshares c);
  let s := put_comment id (set_rshares r c) s in
  s ← add_children_abs id abs s;
  c ← get_comment_by_id id s;
  w ← first_vote_weight rshares old_vote_rshares c s;
  let s := put_vote (id, freezone_SYMBOL, voter) (CommentVote w.1 rshares (vo_weight o) (snow s) 0) s in
  mret (if w.2 =? 0 then s else put_comment id (set_rshares (add_weight w.2 (cm_rshares c)) c) s).

Definition hf20_change_vote (o : vote_operation) (id voter used abs : Z) (v : comment_vote) (s : social) : res social :=
  _ ← fc_assert (num_changes v <? freezone_MAX_VOTE_CHANGES);
  _ ← fc_assert (negb (vote_percent v =? vo_weight o));
  let rshares := if vo_weight o <? 0 then - abs else abs in
  let downvote := hf freezone_HARDFORK_0_21 s && (0 <? downvote_pool_percent (gpo (core s))) && (vo_weight o <? 0) in
  s ← spend_vote (native_voter (vo_voter o)) downvote used s;
  c ← get_comment_by_id id s;
  r ← change_vote rshares abs (vt_rshares v) (vt_weight v) (cm_rshares c);
  let s := put_comment id (set_rshares r c) s in
  s ← add_children_abs id abs s;
  mret (put_vote (id, freezone_SYMBOL, voter) (CommentVote 0 rshares (vo_weight o) (snow s) (num_changes v + 1)) s).

Definition hf20_vote_evaluator (o : vote_operation) (s : social) : res social :=
  id ← get_comment (vo_author o) (vo_permlink o) s;
  c ← get_comment_by_id id s;
  a ← get_account (vo_voter o) (core s);
  p ← get_poster (vo_voter o) s;
  _ ← fc_assert (can_vote a);
  _ ← (if 0 <? vo_weight o then fc_assert (allow_votes (settings c)) else mret tt);
  payout ← calculate_discussion_payout_time c s;
  if payout =? time_point_sec_maximum then late_vote id (ac_id p) freezone_SYMBOL (Some (vo_weight o)) s
  else
    _ ← fc_assert (snow s <? cashout_time c);
    let found := cvotes s !! (id, freezone_SYMBOL, ac_id p) in
    _ ← fc_assert (match found with Some v => negb (num_changes v =? -1) | None => true end);
    _ ← fc_assert (freezone_MIN_VOTE_INTERVAL_SEC <=? snow s - last_vote_time p);
    m ← update_manabar (snow s) (downvote_pool_percent (gpo (core s))) (stake a) freezone_VOTING_MANA_REGENERATION_SECONDS
          (hf freezone_HARDFORK_0_21 s) 0;
    let s := set_core (put_account (vo_voter o) (set_stake m a) (core s)) s in
    let voting := current_mana (voting_manabar m) in
    _ ← fc_assert (if hf freezone_HARDFORK_0_21 s then 0 <=? voting else 0 <? voting);
    used ← vote_mana (vo_weight o) m s;
    _ ← fc_assert (if hf freezone_HARDFORK_0_21 s && negb (downvote_pool_percent (gpo (core s)) =? 0) && (vo_weight o <? 0)
                   then used <? i64 (voting + current_mana (downvote_manabar m)) else has_mana used (voting_manabar m));
    abs ← effective_rshares used (cashout_time c) (snow s);
    match found with
    | None => hf20_first_vote o id (ac_id p) used abs s
    | Some v => hf20_change_vote o id (ac_id p) used abs v s
    end.

(** *** Votes with tokens *)

Record vote_context : Type := VoteContext {
  vc_comment : Z;
  vc_voter_id : Z;
  vc_rshares : Z;                  (* int64_t *)
  vc_symbol : Z;
  mana_regen_period : Z;           (* int32_t *)
  votes_per_regen_period : Z       (* int32_t *)
}.

(** The most shares one vote can have. *)
Definition max_vote_rshares (ctx : vote_context) (m : mana_account) (s : social) : res Z :=
  let n := votes_per_regen_period ctx in
  _ ← check divide_by_zero_exception (negb (n =? 0));
  let max_abs := Z.max 0 (Z.quot (i64 (current_mana (voting_manabar m) + n - 1)) n) in
  if vc_rshares ctx <? 0 then
    d ← mul_int (uint128_of_i64 (current_mana (downvote_manabar m))) freezone_100_PERCENT;
    q ← div_int (sub_assign (add_assign d (uint128_of_i64 n)) (uint128_of_i64 1))
          (i32 (n * downvote_pool_percent (gpo (core s))));
    d ← to_int64 q;
    mret (Z.max max_abs d)
  else mret max_abs.

(** The fund a vote counts for. *)
Definition curation_fund (symbol : Z) (s : social) : res fund_info :=
  if symbol =? freezone_SYMBOL then f ← get_reward_fund s; mret f.2
  else t ← from_option_exn out_of_range (token_infos s !! symbol); mret (token_fund t).

(** As [first_vote_weight]; [old] are the shares of the comment in the native
    token and [new] those in the token of the vote. *)
Definition token_vote_weight (ctx : vote_context) (old new : Z) (c : comment) (s : social) : res (Z * Z) :=
  let native := vc_symbol ctx =? freezone_SYMBOL in
  let allowed := if native then allow_curation_rewards (settings c)
                 else from_option va_allow_curation_rewards true (allowed_vote_assets (settings c) !! vc_symbol ctx) in
  eligible ← (if (0 <? vc_rshares ctx) && (last_payout c =? 0) && allowed then
                if native then percent ← get_curation_rewards_percent s; mret (0 <? percent)
                else f ← curation_fund (vc_symbol ctx) s; mret (negb (percent_curation_rewards f =? 0))
              else mret false);
  if eligible : bool then
    f ← curation_fund (vc_symbol ctx) s;
    old_weight ← curve_weight old (curation_reward_curve f) (fund_constant f);
    new_weight ← curve_weight new (curation_reward_curve f) (fund_constant f);
    let max_vote_weight := u64 (new_weight - old_weight) in
    w ← discount_weight max_vote_weight (cm_created (link c)) s;
    mret (w, max_vote_weight)
  else mret (0, 0).

Definition token_first_vote (ctx : vote_context) (voter : voter_ref) (consumed abs : Z) (r : rshare_context) (s : social)
    : res (rshare_context * social) :=
  let id := vc_comment ctx in
  _ ← fc_assert (negb (vc_rshares ctx =? 0));
  let comment_rshares := if vc_rshares ctx <? 0 then - abs else abs in
  s ← spend_vote voter ((0 <? downvote_pool_percent (gpo (core s))) && (vc_rshares ctx <? 0)) consumed s;
  c ← get_comment_by_id id s;
  let old_vote_rshares := vote_rshares (cm_rshares c) in
  r ← add_vote comment_rshares abs r;
  w ← token_vote_weight ctx old_vote_rshares (vote_rshares r) c s;
  let s := put_vote (id, vc_symbol ctx, vc_voter_id ctx) (CommentVote w.1 comment_rshares 0 (snow s) 0) s in
  s ← add_children_abs id abs s;
  mret (add_weight w.2 r, s).

Definition token_change_vote (ctx : vote_context) (voter : voter_ref) (consumed abs : Z) (v : comment_vote) (r : rshare_context)
    (s : social) : res (rshare_context * social) :=
  let id := vc_comment ctx in
  _ ← fc_assert (num_changes v <? freezone_MAX_VOTE_CHANGES);
  let comment_rshares := if vc_rshares ctx <? 0 then - abs else abs in
  _ ← fc_assert (negb (vt_rshares v =? comment_rshares));
  let consumed := if 0 <=? Z.lxor (vt_rshares v) (vc_rshares ctx) then Z.max 0 (i64 (abs - Z.abs (vt_rshares v))) else consumed in
  s ← spend_vote voter ((0 <? downvote_pool_percent (gpo (core s))) && (comment_rshares <? 0)) consumed s;
  r ← change_vote comment_rshares abs (vt_rshares v) (vt_weight v) r;
  let s := put_vote (id, vc_symbol ctx, vc_voter_id ctx) (CommentVote 0 comment_rshares (vote_percent v) (snow s) (num_changes v + 1)) s in
  s ← add_children_abs id abs s;
  mret (r, s).

Definition generic_vote_evaluator (ctx : vote_context) (voter : voter_ref) (r : rshare_context) (s : social)
    : res (rshare_context * social) :=
  let id := vc_comment ctx in
  c ← get_comment_by_id id s;
  payout ← calculate_discussion_payout_time c s;
  if payout =? time_point_sec_maximum then
    s ← late_vote id (vc_voter_id ctx) (vc_symbol ctx) None s;
    mret (r, s)
  else
    _ ← fc_assert (snow s <? cashout_time c);
    let found := cvotes s !! (id, vc_symbol ctx, vc_voter_id ctx) in
    _ ← fc_assert (match found with Some v => negb (num_changes v =? -1) | None => true end);
    m ← voter_stake voter s;
    m ← update_manabar (snow s) (downvote_pool_percent (gpo (core s))) m (mana_regen_period ctx) true 0;
    s ← put_voter_stake voter m s;
    let voting := current_mana (voting_manabar m) in
    _ ← fc_assert (0 <=? voting);
    max_abs ← max_vote_rshares ctx m s;
    let consumed := i64 (Z.abs (vc_rshares ctx)) in
    _ ← fc_assert (consumed <=? max_abs);
    _ ← fc_assert (if negb (downvote_pool_percent (gpo (core s)) =? 0) && (vc_rshares ctx <? 0)
                   then max_abs <? i64 (voting + current_mana (downvote_manabar m)) else has_mana max_abs (voting_manabar m));
    abs ← effective_rshares consumed (cashout_time c) (snow s);
    match found with
    | None => token_first_vote ctx voter consumed abs r s
    | Some v => token_change_vote ctx voter consumed abs v r s
    end.

(** The branch of vote for the hardfork of tokens. *)
Definition vote_with_mana (o : vote_operation) (s : social) : res social :=
  id ← get_comment (vo_author o) (vo_permlink o) s;
  c ← get_comment_by_id id s;
  a ← get_account (vo_voter o) (core s);
  p ← get_poster (vo_voter o) s;
  _ ← fc_assert (can_vote a);
  _ ← fc_assert (freezone_MIN_VOTE_INTERVAL_SEC <=? snow s - last_vote_time p);
  _ ← (if 0 <? vo_weight o then fc_assert (allow_votes (settings c)) else mret tt);
  let g := gpo (core s) in
  m ← update_manabar (snow s) (downvote_pool_percent g) (stake a) freezone_VOTING_MANA_REGENERATION_SECONDS true 0;
  let s := set_core (put_account (vo_voter o) (set_stake m a) (core s)) s in
  let abs_weight := Z.abs (vo_weight o) in
  let target := target_votes_per_period g in
  u ← mul_int (uint128_of_i64 (current_mana (voting_manabar m))) abs_weight;
  u ← div_int (sub_assign (add_assign u (uint128_of_i64 target)) (uint128_of_i64 1)) (u32 (target * freezone_100_PERCENT));
  rshares ← to_int64 u;
  rshares ← (if vo_weight o <? 0 then
               u ← mul_int (uint128_of_i64 (current_mana (downvote_manabar m))) abs_weight;
               u ← div_int (sub_assign (add_assign u (uint128_of_i64 target)) (uint128_of_i64 1)) (u32 (target * downvote_pool_percent g));
               d ← to_int64 u;
               mret (i64 (-1 * Z.max rshares d))
             else mret rshares);
  let ctx := VoteContext id (ac_id p) rshares freezone_SYMBOL freezone_VOTING_MANA_REGENERATION_SECONDS (i32 target) in
  rs ← generic_vote_evaluator ctx (native_voter (vo_voter o)) (cm_rshares c) s;
  c ← get_comment_by_id id rs.2;
  mret (put_comment id (set_rshares rs.1 c) rs.2).

Record vote2_operation : Type := Vote2Op {
  v2_voter : name;
  v2_author : name;
  v2_permlink : string;
  v2_rshares : list (Z * Z)      (* a flat map from symbols to shares *)
}.

Fixpoint put_flat {A} (k : Z) (x : A) (l : list (Z * A)) : list (Z * A) :=
  match l with
  | [] => [(k, x)]
  | (k', y) :: l => if k <? k' then (k, x) :: (k', y) :: l else if k =? k' then (k, x) :: l else (k', y) :: put_flat k x l
  end.

Fixpoint find_flat {A} (k : Z) (l : list (Z * A)) : option A :=
  match l with
  | [] => None
  | (k', y) :: l => if k =? k' then Some y else find_flat k l
  end.

Definition vote2_one (o : vote2_operation) (id : Z) (s : social) (x : Z * Z) : res social :=
  let '(symbol, rshares) := x in
  c ← get_comment_by_id id s;
  root ← get_comment_by_id (root_comment (link c)) s;
  p ← get_poster (v2_voter o) s;
  if symbol =? freezone_SYMBOL then
    _ ← (if 0 <? rshares then fc_assert (allow_votes (settings c)) else mret tt);
    _ ← fc_assert (freezone_MIN_VOTE_INTERVAL_SEC <=? snow s - last_vote_time p);
    let ctx := VoteContext id (ac_id p) rshares symbol freezone_VOTING_MANA_REGENERATION_SECONDS
                 (i32 (target_votes_per_period (gpo (core s)))) in
    rs ← generic_vote_evaluator ctx (native_voter (v2_voter o)) (cm_rshares c) s;
    c ← get_comment_by_id id rs.2;
    mret (put_comment id (set_rshares rs.1 c) rs.2)
  else
    _ ← fc_assert (bool_decide (allowed_vote_assets (settings root) !! symbol ≠ None));
    t ← from_option_exn out_of_range (sst_tokens (core s) !! symbol);
    i ← from_option_exn out_of_range (token_infos s !! symbol);
    _ ← from_option_exn out_of_range (regular_balances (core s) !! (v2_voter o, symbol));
    let last := default 0 (token_last_vote s !! (v2_voter o, symbol)) in
    _ ← fc_assert (freezone_MIN_VOTE_INTERVAL_SEC <=? snow s - last);
    let ctx := VoteContext id (ac_id p) rshares symbol (i32 (tk_regeneration_seconds t)) (i32 (votes_per_regeneration_period i)) in
    rs ← generic_vote_evaluator ctx (token_voter (v2_voter o) symbol) (default no_rshares (find_flat symbol (SST_rshares c))) s;
    c ← get_comment_by_id id rs.2;
    mret (put_comment id (set_SST_rshares (put_flat symbol rs.1 (SST_rshares c)) c) rs.2).

Definition vote2_apply (o : vote2_operation) (s : social) : res social :=
  _ ← fc_assert (hf freezone_SST_HARDFORK s);
  id ← get_comment (v2_author o) (v2_permlink o) s;
  c ← get_comment_by_id id s;
  _ ← get_comment_by_id (root_comment (link c)) s;
  a ← get_account (v2_voter o) (core s);
  _ ← fc_assert (can_vote a);
  res_fold (vote2_one o id) s (v2_rshares o).

End Vote.
