(* ===== verification/Cashout.v ===== *)
(** * The payout of comments

    database.cpp: [process_comment_cashout], [cashout_comment_helper],
    [pay_curators], [adjust_total_payout]; comment_rewards.cpp, which pays the
    rewards of tokens after the hardfork of tokens.

    A comment is paid once its cashout time has passed.  Its share of the
    reward fund goes to those who voted for it, to its beneficiaries and to its
    author; the fund is charged with what was paid.

    Virtual operations are left out, but for the conversions in their
    arguments, which can throw. *)

From S2P Require Import Prelude Config AccountName Uint128 SafeInt AssetSymbol Asset Manabar Reward MapSum State Ledger Votes Vesting.
From stdpp Require Import gmap strings sorting.
From S2P Require Import Content Voting.
#[local] Open Scope Z_scope.

(** ** util/asset.hpp *)

Definition to_sbd (p : price) (freezone : asset) : res asset :=
  _ ← fc_assert (symbol freezone =? freezone_SYMBOL);
  if is_null p then mret (Asset 0 SBD_SYMBOL) else asset_mul_price freezone p.

Definition to_freezone (p : price) (sbd : asset) : res asset :=
  _ ← fc_assert (symbol sbd =? SBD_SYMBOL);
  if is_null p then mret (Asset 0 freezone_SYMBOL) else asset_mul_price sbd p.

(** [database::to_sbd] *)
Definition to_sbd_now (freezone : Z) (s : social) : res Z :=
  a ← to_sbd (current_median_history (core s)) (Asset freezone freezone_SYMBOL);
  mret (amount a).

(** ** Curators *)

Definition vote_row : Type := (Z * Z * Z) * comment_vote.
Definition row_voter (x : vote_row) : Z := x.1.2.
Definition row_weight (x : vote_row) : Z := vt_weight x.2.

(** The order of [proxy_set]: by weight, the largest first, then by voter. *)
Definition curator_le (x y : vote_row) : Prop :=
  row_weight y < row_weight x ∨ row_weight x = row_weight y ∧ row_voter x <= row_voter y.
#[global] Instance curator_le_dec x y : Decision (curator_le x y).
Proof. unfold curator_le. apply _. Defined.

Definition votes_on (id symbol : Z) (s : social) : list vote_row :=
  filter (λ x, x.1.1 = (id, symbol)) (map_to_list (cvotes s)).

Definition proxy_set (id symbol : Z) (s : social) : list vote_row := merge_sort curator_le (votes_on id symbol s).

Definition set_core_of (r : res (asset * db)) (s : social) : res social := x ← r; mret (set_core x.2 s).

(** The share of one vote in [max_rewards]. *)
Definition curator_claim (max_rewards total_weight : Z) (x : vote_row) : res Z :=
  p ← mul_assign (uint128_of_i64 max_rewards) (uint128_of_u64 (row_weight x));
  q ← div_assign p (uint128_of_u64 total_weight);
  to_uint64 q.

Definition pay_curator (max_rewards total_weight : Z) (st : Z * social) (x : vote_row) : res (Z * social) :=
  let '(unclaimed, s) := st in
  claim ← curator_claim max_rewards total_weight x;
  if 0 <? claim then
    unclaimed ← safe_sub unclaimed (i64 claim);
    n ← from_option_exn out_of_range (account_names s !! row_voter x);
    s ← set_core_of (create_vesting n (Asset (i64 claim) freezone_SYMBOL) (hf freezone_HARDFORK_0_17 s) (core s)) s;
    p ← get_poster n s;
    c ← safe_add (curation_rewards p) (i64 claim);
    mret (unclaimed, put_poster n (add_rewards c (posting_rewards p) p) s)
  else mret (unclaimed, s).

(** Returns the unclaimed rewards and what is left of [max_rewards]. *)
Definition pay_curators (id max_rewards : Z) (s : social) : res (Z * Z * social) :=
  c ← get_comment_by_id id s;
  let total := total_vote_weight (cm_rshares c) in
  if negb (allow_curation_rewards (settings c)) then m ← safe_sub 0 0; mret (0, m, s)
  else
    st ← (if 0 <? total then res_fold (pay_curator max_rewards total) (max_rewards, s) (proxy_set id freezone_SYMBOL s)
          else mret (max_rewards, s));
    m ← safe_sub max_rewards st.1;
    mret (st.1, m, st.2).

(** ** Beneficiaries and the author *)

Definition pay_beneficiary (percent author_tokens : Z) (st : Z * social) (b : name * Z) : res (Z * social) :=
  let '(total_beneficiary, s) := st in
  p ← safe_mul author_tokens b.2;
  benefactor_tokens ← safe_div p freezone_100_PERCENT;
  x ← (if hf freezone_HARDFORK_0_21 s && bool_decide (b.1 = freezone_TREASURY_ACCOUNT) then
         sbd_payout ← asset_mul_price (Asset benefactor_tokens freezone_SYMBOL) (current_median_history (core s));
         d ← adjust_balance freezone_TREASURY_ACCOUNT sbd_payout (core s);
         minus ← safe_neg benefactor_tokens;
         d ← adjust_supply (Asset minus freezone_SYMBOL) false d;
         d ← adjust_supply sbd_payout false d;
         mret (0, d)
       else if hf freezone_HARDFORK_0_20 s then
         p ← safe_mul benefactor_tokens percent;
         sbd ← safe_div p (2 * freezone_100_PERCENT);
         vesting ← safe_sub benefactor_tokens sbd;
         _ ← get_account b.1 (core s);
         r ← create_sbd b.1 (Asset sbd freezone_SYMBOL) true (core s);
         mret (vesting, r.2)
       else mret (benefactor_tokens, core s));
  _ ← get_account b.1 x.2;
  s ← set_core_of (create_vesting b.1 (Asset x.1 freezone_SYMBOL) (hf freezone_HARDFORK_0_17 s) x.2) s;
  total ← safe_add total_beneficiary benefactor_tokens;
  mret (total, s).

(** [database::adjust_total_payout]; the amounts are of SBD. *)
Definition adjust_total_payout (id sbd_created curator_sbd_value beneficiary_value : Z) (s : social) : res social :=
  c ← get_comment_by_id id s;
  t ← safe_add (total_payout_value (payouts c)) sbd_created;
  u ← safe_add (curator_payout_value (payouts c)) curator_sbd_value;
  b ← safe_add (beneficiary_payout_value (payouts c)) beneficiary_value;
  mret (put_comment id (set_payouts (CommentPayouts t u b) c) s).

Definition pay_author (id author_tokens curation_tokens total_beneficiary claimed_reward : Z) (s : social) : res social :=
  c ← get_comment_by_id id s;
  let author := cm_author (link c) in
  let to_rewards := hf freezone_HARDFORK_0_17 s in
  p ← safe_mul author_tokens (percent_freezone_dollars (settings c));
  sbd_freezone ← safe_div p (2 * freezone_100_PERCENT);
  vesting_freezone ← safe_sub author_tokens sbd_freezone;
  _ ← get_account author (core s);
  r ← create_sbd author (Asset sbd_freezone freezone_SYMBOL) to_rewards (core s);
  let sbd_payout := r.1 in
  s ← set_core_of (create_vesting author (Asset vesting_freezone freezone_SYMBOL) to_rewards r.2) s;
  liquid ← safe_add (amount sbd_payout.2) vesting_freezone;
  liquid_value ← to_sbd_now liquid s;
  created ← safe_add (amount sbd_payout.1) liquid_value;
  curator_value ← to_sbd_now curation_tokens s;
  beneficiary_value ← to_sbd_now total_beneficiary s;
  s ← adjust_total_payout id created curator_value beneficiary_value s;
  _ ← to_sbd_now claimed_reward s;
  c ← get_comment_by_id id s;
  let r := cm_rshares c in
  a ← safe_add (author_rewards r) author_tokens;
  let s := put_comment id (set_rshares (RShares (net_rshares r) (abs_rshares r) (vote_rshares r) (total_vote_weight r) (net_votes r) a) c) s in
  p ← get_poster author s;
  a ← safe_add (posting_rewards p) author_tokens;
  mret (put_poster author (add_rewards (curation_rewards p) a p) s).

Section Cashout.

Context (find_msb64 : Z → Z).

Definition default_constant : uint128 := uint128_of_u64 freezone_CONTENT_CONSTANT_HF0.

(** What a comment may be paid from [fund] with [total] claims, in tokens. *)
Definition comment_reward (total : uint128) (fund : Z) (p : price) (c : comment) (s : social) : res Z :=
  k ← (if hf freezone_HARDFORK_0_17 s then f ← get_reward_fund s; mret (author_reward_curve f.2, fund_constant f.2)
       else mret (quadratic, default_constant));
  reward ← get_rshare_reward find_msb64
    (RewardContext (net_rshares (cm_rshares c)) (cm_reward_weight (link c)) total fund k.1 k.2);
  value ← to_sbd p (Asset (i64 reward) freezone_SYMBOL);
  dust ← asset_ltb value (Asset freezone_MIN_PAYOUT_SBD SBD_SYMBOL);
  max_freezone ← to_freezone p (max_accepted_payout (settings c));
  mret (Z.min (if dust : bool then 0 else reward) (u64 (amount max_freezone))).

(** Pays [reward] tokens; returns what was claimed of them. *)
Definition pay_reward (id reward : Z) (forward_curation_remainder : bool) (s : social) : res (Z * social) :=
  c ← get_comment_by_id id s;
  percent ← get_curation_rewards_percent s;
  p ← mul_int (uint128_of_u64 reward) percent;
  q ← div_int p freezone_100_PERCENT;
  curation_tokens ← to_uint64 q;
  let curation_tokens := i64 curation_tokens in
  author_tokens ← safe_sub (i64 reward) curation_tokens;
  r ← pay_curators id curation_tokens s;
  let '(curation_remainder, curation_tokens, s) := r in
  author_tokens ← (if forward_curation_remainder then safe_add author_tokens curation_remainder else mret author_tokens);
  claimed_reward ← safe_add author_tokens curation_tokens;
  r ← res_fold (pay_beneficiary (percent_freezone_dollars (settings c)) author_tokens) (0, s) (beneficiaries (settings c));
  let '(total_beneficiary, s) := r in
  author_tokens ← safe_sub author_tokens total_beneficiary;
  s ← pay_author id author_tokens curation_tokens total_beneficiary claimed_reward s;
  mret (claimed_reward, s).

(** The comment after its payout. *)
Definition close_comment (c : comment) (s : social) : comment :=
  let r := cm_rshares c in
  let cashout :=
    if hf freezone_HARDFORK_0_17 s then time_point_sec_maximum
    else if is_root c then
      if hf freezone_HARDFORK_0_12 s && (last_payout c =? 0) then u32 (snow s + freezone_SECOND_CASHOUT_WINDOW)
      else time_point_sec_maximum
    else cashout_time c in
  Comment (link c) (settings c) (payouts c) (cm_last_update c) (cm_active c) (snow s) cashout time_point_sec_maximum (children c) 0
    (RShares (if 0 <? net_rshares r then 0 else net_rshares r) 0 0 0 (net_votes r) (author_rewards r)) (SST_rshares c).

(** The votes on a paid comment are closed, or removed. *)
Definition close_votes (id : Z) (s : social) : res social :=
  c ← get_comment_by_id id s;
  keep ← (if negb (hf freezone_HARDFORK_0_12 s) then Ok true
          else t ← calculate_discussion_payout_time c s; mret (negb (t =? time_point_sec_maximum)));
  mret (if keep : bool then
          set_cvotes (map_imap (λ k v, Some (if bool_decide (k.1 = (id, freezone_SYMBOL))
            then CommentVote (vt_weight v) (vt_rshares v) (vote_percent v) (vt_last_update v) (-1) else v))) s
        else if clear_votes s then set_cvotes (filter (λ kv, kv.1.1 ≠ (id, freezone_SYMBOL))) s
        else s).

Definition cashout_comment_helper (total : uint128) (fund : Z) (p : price) (forward_curation_remainder : bool) (id : Z) (s : social)
    : res (Z * social) :=
  c ← get_comment_by_id id s;
  r ← (if 0 <? net_rshares (cm_rshares c) then
         reward ← comment_reward total fund p c s;
         r ← (if 0 <? reward then pay_reward id reward forward_curation_remainder s else mret (0, s));
         let '(claimed, s) := r in
         s ← (if hf freezone_HARDFORK_0_17 s then mret s
              else
                old ← evaluate_reward_curve find_msb64 (uint128_of_i64 (net_rshares (cm_rshares c))) quadratic default_constant;
                mret (adjust_rshares2 old (uint128_of_u64 0) s));
         mret (claimed, s)
       else mret (0, s));
  let '(claimed, s) := r in
  c ← get_comment_by_id id s;
  s ← close_votes id (put_comment id (close_comment c s) s);
  mret (claimed, s).

(** ** The payout of a block *)

(** reward_fund_context: claims, balance, tokens awarded. *)
Record fund_context : Type := FundContext {
  fc_claims : uint128;
  fc_balance : Z;
  fc_awarded : Z
}.

(** The claims decay with the time since the last update. *)
Definition decay_claims (decay_time : Z) (t : Z) (f : fund_info) : res fund_info :=
  p ← mul_int (recent_claims f) (t - fund_last_update f);
  q ← div_int p decay_time;
  mret (FundInfo (sub_assign (recent_claims f) q) t (fund_constant f) (percent_curation_rewards f) (author_reward_curve f)
    (curation_reward_curve f)).

Definition decay_fund (st : social * gmap Z fund_context) (id : Z) : res (social * gmap Z fund_context) :=
  let '(s, m) := st in
  f ← from_option_exn out_of_range (fund_infos s !! id);
  let decay_time := if hf freezone_HARDFORK_0_19 s then freezone_RECENT_RSHARES_DECAY_TIME_HF19
                    else freezone_RECENT_RSHARES_DECAY_TIME_HF17 in
  f ← decay_claims decay_time (snow s) f;
  b ← from_option_exn out_of_range (reward_funds (core s) !! id);
  mret (set_fund_infos <[id := f]> s, <[id := FundContext (recent_claims f) b 0]> m).

(** The comments to be paid, by cashout time and id. *)
Definition cashout_le (x y : Z * comment) : Prop :=
  cashout_time x.2 < cashout_time y.2 ∨ cashout_time x.2 = cashout_time y.2 ∧ x.1 <= y.1.
#[global] Instance cashout_le_dec x y : Decision (cashout_le x y).
Proof. unfold cashout_le. apply _. Defined.

Definition due (s : social) : list (Z * comment) :=
  merge_sort cashout_le (filter (λ x, cashout_time x.2 <= snow s) (map_to_list (comments s))).

(** Its shares are added to the claims of the fund before any is paid. *)
Definition claim_comment (s : social) (m : gmap Z fund_context) (x : Z * comment) : res (gmap Z fund_context) :=
  let r := net_rshares (cm_rshares x.2) in
  if 0 <? r then
    f ← get_reward_fund s;
    k ← from_option_exn out_of_range (m !! f.1);
    v ← evaluate_reward_curve find_msb64 (uint128_of_i64 r) (author_reward_curve f.2) (fund_constant f.2);
    mret (<[f.1 := FundContext (add_assign (fc_claims k) v) (fc_balance k) (fc_awarded k)]> m)
  else mret m.

(** A payout from a reward fund. *)
Definition cashout_from_fund (p : price) (id : Z) (st : social * gmap Z fund_context) : res (social * gmap Z fund_context) :=
  let '(s, m) := st in
  f ← get_reward_fund s;
  k ← from_option_exn out_of_range (m !! f.1);
  r ← cashout_comment_helper (fc_claims k) (fc_balance k) p (negb (hf freezone_HARDFORK_0_20 s)) id s;
  a ← safe_add (fc_awarded k) r.1;
  mret (r.2, <[f.1 := FundContext (fc_claims k) (fc_balance k) a]> m).

(** Before hardfork 17 a whole discussion is paid from the global fund. *)
Definition set_reward_fund (v : Z) (g : global_properties) : global_properties :=
  GPO (head_block_number g) (head_block_time g) (current_supply g) (current_sbd_supply g) (init_sbd_supply g) (virtual_supply g)
    (total_vesting_fund_freezone g) (total_vesting_shares g) v (pending_rewarded_vesting_shares g) (pending_rewarded_vesting_freezone g)
    (sbd_interest_rate g) (sbd_print_rate g) (target_votes_per_period g) (delegation_return_period g) (downvote_pool_percent g).

Definition cashout_from_gpo (p : price) (s : social) (id : Z) : res social :=
  let g := gpo (core s) in
  r ← cashout_comment_helper (total_reward_shares2 s) (total_reward_fund_freezone g) p true id s;
  let '(reward, s) := r in
  if 0 <? reward then
    v ← safe_sub (total_reward_fund_freezone (gpo (core s))) reward;
    mret (set_core (set_gpo (set_reward_fund v (gpo (core s))) (core s)) s)
  else mret s.

Definition discussion_le (x y : Z * comment) : Prop := x.1 <= y.1.
#[global] Instance discussion_le_dec x y : Decision (discussion_le x y).
Proof. unfold discussion_le. apply _. Defined.

Definition discussion (root : Z) (s : social) : list Z :=
  (merge_sort discussion_le (filter (λ x, root_comment (link x.2) = root) (map_to_list (comments s)))).*1.

Fixpoint cashout_loop (fuel : nat) (p : price) (st : social * gmap Z fund_context) : res (social * gmap Z fund_context) :=
  match due st.1 with
  | [] => mret st
  | (id, c) :: _ =>
      match fuel with
      | O => Throw fuel_exhausted
      | S fuel =>
          st ← (if hf freezone_HARDFORK_0_17 st.1 then cashout_from_fund p id st
                else s ← res_fold (cashout_from_gpo p) st.1 (discussion (root_comment (link c)) st.1); mret (s, st.2));
          cashout_loop fuel p st
      end
  end.

Definition set_reward_balance (id b : Z) (d : db) : db :=
  DB (accounts d) (regular_balances d) (rewards_balances d) (sst_tokens d) (icos d) (orders d) (escrows d) (converts d)
    (withdraws d) (liquidity d) (<[id := b]> (reward_funds d)) (staking d) (next_id d) (gpo d) (current_median_history d)
    (processed_hardforks d).

(** The cached state of a fund is written back. *)
Definition settle_fund (s : social) (x : Z * fund_context) : res social :=
  let '(id, k) := x in
  f ← from_option_exn out_of_range (fund_infos s !! id);
  b ← from_option_exn out_of_range (reward_funds (core s) !! id);
  b ← safe_sub b (fc_awarded k);
  mret (set_fund_infos <[id := FundInfo (fc_claims k) (fund_last_update f) (fund_constant f) (percent_curation_rewards f)
            (author_reward_curve f) (curation_reward_curve f)]> (set_core (set_reward_balance id b (core s)) s)).

Definition fund_ids (s : social) : list Z := merge_sort Z.le (map_to_list (fund_infos s)).*1.

(** [process_comment_cashout] up to the hardfork of tokens. *)
Definition process_cashout (s : social) : res social :=
  let p := current_median_history (core s) in
  st ← res_fold decay_fund (s, ∅) (fund_ids s);
  m ← (if hf freezone_HARDFORK_0_17 st.1 then res_fold (claim_comment st.1) st.2 (due st.1) else mret st.2);
  st ← cashout_loop (length (due st.1)) p (st.1, m);
  res_fold settle_fund st.1 (map_to_list st.2).

(** ** Rewards of tokens *)

(** As [pay_curator], in tokens. *)
Definition reward_curator (symbol tokens total_weight : Z) (st : Z * social) (x : vote_row) : res (Z * social) :=
  let '(unclaimed, s) := st in
  claim ← curator_claim tokens total_weight x;
  if 0 <? claim then
    unclaimed ← safe_sub unclaimed (i64 claim);
    n ← from_option_exn out_of_range (account_names s !! row_voter x);
    s ← set_core_of (create_vesting n (Asset (i64 claim) symbol) true (core s)) s;
    mret (unclaimed, s)
  else mret (unclaimed, s).

(** What is left of [tokens]; [total] is a [share_type] here. *)
Definition reward_curators (tokens id symbol total : Z) (allowed : bool) (s : social) : res (Z * social) :=
  if negb allowed then m ← safe_sub 0 0; mret (m, s)
  else
    st ← (if 0 <? total then res_fold (reward_curator symbol tokens (u64 total)) (tokens, s) (proxy_set id symbol s) else mret (tokens, s));
    m ← safe_sub tokens st.1;
    mret (m, st.2).

Definition reward_beneficiary (symbol author_tokens : Z) (st : Z * social) (b : name * Z) : res (Z * social) :=
  let '(total_beneficiary, s) := st in
  p ← safe_mul author_tokens b.2;
  benefactor_tokens ← safe_div p freezone_100_PERCENT;
  _ ← get_account b.1 (core s);
  s ← set_core_of (create_vesting b.1 (Asset benefactor_tokens symbol) true (core s)) s;
  total ← safe_add total_beneficiary benefactor_tokens;
  mret (total, s).

(** The fund of a token during a payout. *)
Record token_context : Type := TokenContext {
  tc_fund : fund_info;
  tc_balance : Z;
  tc_awarded : Z
}.

Definition close_token_votes (id symbol : Z) (s : social) : social :=
  if clear_votes s then set_cvotes (filter (λ kv, kv.1.1 ≠ (id, symbol))) s
  else set_cvotes (map_imap (λ k v, Some (if bool_decide (k.1 = (id, symbol))
         then CommentVote (vt_weight v) (vt_rshares v) (vote_percent v) (vt_last_update v) (-1) else v))) s.

(** Its argument [c_ctx] is a copy: what it sets in it is lost. *)
Definition reward_comment (id symbol : Z) (r : rshare_context) (opts : votable_asset_options) (k : token_context) (s : social)
    : res (Z * social) :=
  c ← get_comment_by_id id s;
  let f := tc_fund k in
  x ← (if 0 <? net_rshares r then
         reward ← get_rshare_reward find_msb64
           (RewardContext (net_rshares r) freezone_100_PERCENT (recent_claims f) (tc_balance k) (author_reward_curve f) (fund_constant f));
         let reward := Z.min reward (u64 (va_max_accepted_payout opts)) in
         if 0 <? reward then
           p ← mul_int (uint128_of_u64 reward) (percent_curation_rewards f);
           q ← div_int p freezone_100_PERCENT;
           curation_tokens ← to_uint64 q;
           author_tokens ← safe_sub (i64 reward) (i64 curation_tokens);
           y ← reward_curators (i64 curation_tokens) id symbol (i64 (total_vote_weight r)) (va_allow_curation_rewards opts) s;
           let '(curation_tokens, s) := y in
           claimed_reward ← safe_add author_tokens curation_tokens;
           y ← res_fold (reward_beneficiary symbol author_tokens) (0, s) (default [] (sst_beneficiaries s !! (id, symbol)));
           let '(total_beneficiary, s) := y in
           author_tokens ← safe_sub author_tokens total_beneficiary;
           _ ← get_account (cm_author (link c)) (core s);
           s ← set_core_of (create_vesting (cm_author (link c)) (Asset author_tokens symbol) true (core s)) s;
           mret (claimed_reward, s)
         else mret (0, s)
       else mret (0, s));
  mret (x.1, close_token_votes id symbol x.2).

(** The tokens a comment was voted on with; [opts] does not exist for a token
    that only the root comment allows, and the code dereferences it. *)
Definition reward_tokens (id : Z) (st : social * gmap Z token_context) (x : Z * rshare_context) : res (social * gmap Z token_context) :=
  let '(s, m) := st in
  let '(symbol, r) := x in
  c ← get_comment_by_id id s;
  opts ← from_option_exn out_of_range (allowed_vote_assets (settings c) !! symbol);
  k ← from_option_exn out_of_range (m !! symbol);
  y ← reward_comment id symbol r opts k s;
  a ← safe_add (tc_awarded k) y.1;
  c ← get_comment_by_id id y.2;
  let old := cm_rshares c in
  mret (put_comment id (set_rshares (RShares (net_rshares r) (abs_rshares r) (vote_rshares r) (total_vote_weight r) (net_votes old)
          (author_rewards old)) c) y.2, <[symbol := TokenContext (tc_fund k) (tc_balance k) a]> m).

(** New claims of one comment, with the funds of its tokens. *)
Definition claim_tokens (native : fund_info) (s : social) (st : gmap Z token_context * gmap Z uint128) (x : Z * comment)
    : res (gmap Z token_context * gmap Z uint128) :=
  let '(m, claims) := st in
  let net := net_rshares (cm_rshares x.2) in
  claims ← (if 0 <? net then
              v ← evaluate_reward_curve find_msb64 (uint128_of_i64 net) (author_reward_curve native) (fund_constant native);
              mret (<[freezone_SYMBOL := add_assign (default (uint128_of_u64 0) (claims !! freezone_SYMBOL)) v]> claims)
            else mret claims);
  res_fold (λ st y,
    let '(m, claims) := st in
    let '(symbol, r) := y in
    mc ← match m !! symbol with
         | Some _ => mret (m, claims)
         | None =>
             i ← from_option_exn out_of_range (token_infos s !! symbol);
             t ← from_option_exn out_of_range (sst_tokens (core s) !! symbol);
             mret (<[symbol := TokenContext (token_fund i) (tk_reward_balance t) 0]> m, <[symbol := uint128_of_u64 0]> claims)
         end;
    let '(m, claims) := mc in
    k ← from_option_exn out_of_range (m !! symbol);
    if 0 <? net_rshares r then
      v ← evaluate_reward_curve find_msb64 (uint128_of_i64 (net_rshares r)) (author_reward_curve (tc_fund k)) (fund_constant (tc_fund k));
      mret (m, <[symbol := add_assign (default (uint128_of_u64 0) (claims !! symbol)) v]> claims)
    else mret (m, claims)) (m, claims) (SST_rshares x.2).

Definition decay_token (t : Z) (claims : gmap Z uint128) (m : gmap Z token_context) (symbol : Z) : res (gmap Z token_context) :=
  k ← from_option_exn out_of_range (m !! symbol);
  f ← decay_claims freezone_RECENT_RSHARES_DECAY_TIME_HF19 t (tc_fund k);
  mret (<[symbol := TokenContext (FundInfo (add_assign (recent_claims f) (default (uint128_of_u64 0) (claims !! symbol))) t
    (fund_constant f) (percent_curation_rewards f) (author_reward_curve f) (curation_reward_curve f)) (tc_balance k) (tc_awarded k)]> m).

Fixpoint token_cashout_loop (fuel : nat) (p : price) (st : social * gmap Z token_context) : res (social * gmap Z token_context) :=
  match due st.1 with
  | [] => mret st
  | (id, c) :: _ =>
      match fuel with
      | O => Throw fuel_exhausted
      | S fuel =>
          k ← from_option_exn out_of_range (st.2 !! freezone_SYMBOL);
          r ← cashout_comment_helper (recent_claims (tc_fund k)) (tc_balance k) p false id st.1;
          a ← safe_add (tc_awarded k) r.1;
          st ← res_fold (reward_tokens id) (r.2, <[freezone_SYMBOL := TokenContext (tc_fund k) (tc_balance k) a]> st.2) (SST_rshares c);
          token_cashout_loop fuel p st
      end
  end.

Definition set_tk_reward_balance (v : Z) (t : sst_token) : sst_token :=
  SstToken (phase t) (tk_current_supply t) (tk_vesting_fund t) (tk_vesting_shares t) (tk_fund_ballast t) (tk_shares_ballast t)
    (tk_pending_shares t) (tk_pending_value t) v (mm_freezone_balance t) (mm_token_balance t) (allow_voting t) (tk_regeneration_seconds t).

Definition settle_token (s : social) (x : Z * token_context) : res social :=
  let '(symbol, k) := x in
  if symbol =? freezone_SYMBOL then
    b ← from_option_exn out_of_range (reward_funds (core s) !! 0);
    b ← safe_sub b (tc_awarded k);
    mret (set_fund_infos <[0 := tc_fund k]> (set_core (set_reward_balance 0 b (core s)) s))
  else
    t ← from_option_exn out_of_range (sst_tokens (core s) !! symbol);
    i ← from_option_exn out_of_range (token_infos s !! symbol);
    b ← safe_sub (tk_reward_balance t) (tc_awarded k);
    mret (set_token_infos <[symbol := TokenVotes (tc_fund k) (votes_per_regeneration_period i)]>
      (set_core (set_sst_tokens <[symbol := set_tk_reward_balance b t]> (core s)) s)).

Definition token_keys {A} (m : gmap Z A) : list Z := merge_sort Z.le (map_to_list m).*1.

Definition process_comment_rewards (s : social) : res social :=
  native ← from_option_exn out_of_range (fund_infos s !! 0);
  b ← from_option_exn out_of_range (reward_funds (core s) !! 0);
  st ← res_fold (claim_tokens native s) ({[ freezone_SYMBOL := TokenContext native b 0 ]}, {[ freezone_SYMBOL := uint128_of_u64 0 ]}) (due s);
  m ← res_fold (decay_token (snow s) st.2) st.1 (token_keys st.1);
  st ← token_cashout_loop (length (due s)) (current_median_history (core s)) (s, m);
  res_fold settle_token st.1 (map_to_list st.2).

(** ** [database::process_comment_cashout] *)

Definition process_comment_cashout (s : social) : res social :=
  if negb (hf freezone_FIRST_CASHOUT_TIME s) then mret s
  else if hf freezone_SST_HARDFORK s then process_comment_rewards s
  else process_cashout s.

End Cashout.
