(* ===== verification/Curation.v ===== *)
(** * What the votes on a comment add up to

    Invariants of the comments and votes of Content.v under the rules of
    hardforks 20 to 22: the shares of a comment are the sum of the shares of
    the votes on it, and the weights of the votes never exceed the total weight
    their payouts are divided by. *)

From S2P Require Import Prelude Config AccountName Uint128 SafeInt AssetSymbol Asset Manabar Reward MapSum State Ledger Votes Vesting.
From stdpp Require Import gmap strings sorting.
From S2P Require Import Content Voting.
#[local] Open Scope Z_scope.

Tactic Notation "step_in" hyp(H) ident(x) ident(Hx) := apply bind_Ok in H as (x & Hx & H).

(** ** Sums over the votes on a comment *)

Definition vote_total (g : comment_vote → Z) (id : Z) (m : gmap (Z * Z * Z) comment_vote) : Z :=
  msum (λ k v, if decide (k.1 = (id, freezone_SYMBOL)) then g v else 0) m.

(** What the vote with key [k] counts for. *)
Definition vote_part (g : comment_vote → Z) (m : gmap (Z * Z * Z) comment_vote) (k : Z * Z * Z) : Z := from_option g 0 (m !! k).

Lemma vote_total_put g id voter v m :
  vote_total g id (<[(id, freezone_SYMBOL, voter) := v]> m) = vote_total g id m - vote_part g m (id, freezone_SYMBOL, voter) + g v.
Proof.
  unfold vote_total, vote_part. rewrite msum_insert. unfold row. cbn [fst].
  destruct (m !! _); cbn [from_option]; rewrite ?decide_True by done; lia.
Qed.

Lemma vote_total_put_other g id k v m : k.1 ≠ (id, freezone_SYMBOL) → vote_total g id (<[k := v]> m) = vote_total g id m.
Proof.
  intros Hk. unfold vote_total. rewrite msum_insert. unfold row.
  destruct (m !! k); rewrite ?decide_False by done; lia.
Qed.

Lemma vote_total_filter g id (P : (Z * Z * Z) * comment_vote → Prop) `{!∀ x, Decision (P x)} m :
  (∀ k v, k.1 = (id, freezone_SYMBOL) → P (k, v)) → vote_total g id (filter P m) = vote_total g id m.
Proof.
  intros HP. induction m as [|k v m Hk IH] using map_ind; [done|]. unfold vote_total in *.
  destruct (decide (P (k, v))) as [E|E].
  - rewrite map_filter_insert_True by done. rewrite !msum_insert_new; [by rewrite IH|done|].
    apply map_lookup_filter_None. by left.
  - rewrite map_filter_insert_False by done. rewrite map_filter_delete, delete_id.
    2: { apply map_lookup_filter_None. by left. }
    rewrite IH, msum_insert_new by done. rewrite decide_False; [lia|]. intros Hk1. by apply E, HP.
Qed.

Lemma vote_total_part_le g id voter m :
  (∀ k v, m !! k = Some v → 0 <= g v) → vote_part g m (id, freezone_SYMBOL, voter) <= vote_total g id m.
Proof.
  intros Hg. unfold vote_total, vote_part. set (k := (id, freezone_SYMBOL, voter)).
  pose proof (msum_delete (λ k v, if decide (k.1 = (id, freezone_SYMBOL)) then g v else 0) m k) as Hd.
  assert (0 <= msum (λ k v, if decide (k.1 = (id, freezone_SYMBOL)) then g v else 0) (delete k m)) as H0.
  { apply msum_nonneg. intros k' v' Hv. apply lookup_delete_Some in Hv as [_ Hv]. case_decide; [by eapply Hg|lia]. }
  unfold row in Hd. destruct (m !! k); cbn [from_option]; [|lia]. rewrite decide_True in Hd by done. lia.
Qed.

Lemma vote_total_none g id m : (∀ k v, m !! k = Some v → k.1.1 ≠ id) → vote_total g id m = 0.
Proof.
  intros Hm. unfold vote_total. rewrite (msum_ext _ (λ _ _, 0)).
  - induction m as [|k v m Hk IH] using map_ind; [done|]. rewrite msum_insert_new by done. rewrite IH; [lia|].
    intros k' v' Hv. eapply (Hm k' v'). rewrite lookup_insert_ne; [done|]. intros ->. congruence.
  - intros k v Hk. rewrite decide_False; [done|]. intros E. apply (Hm k v Hk). by rewrite E.
Qed.

(** Each voter has at most one vote on a comment. *)
Lemma vote_count_le (id : Z) (m : gmap (Z * Z * Z) comment_vote) (names : gmap Z name) :
  (∀ k v, m !! k = Some v → is_Some (names !! k.2)) → vote_total (λ _, 1) id m <= Z.of_nat (base.size names).
Proof.
  intros Hm. set (f := filter (λ kv : (Z * Z * Z) * comment_vote, kv.1.1 = (id, freezone_SYMBOL)) m).
  assert (vote_total (λ _, 1) id m = Z.of_nat (base.size f)) as ->.
  { subst f. clear Hm. unfold vote_total. induction m as [|k v m Hk IH] using map_ind; [done|]. rewrite msum_insert_new by done.
    rewrite IH. case_decide as E.
    - rewrite map_filter_insert_True by done. rewrite map_size_insert_None; [lia|]. apply map_lookup_filter_None. by left.
    - rewrite map_filter_insert_False by done. rewrite map_filter_delete, delete_id; [lia|]. apply map_lookup_filter_None. by left. }
  apply Nat2Z.inj_le. rewrite <- (length_map_to_list f), <- (length_map_to_list names).
  rewrite <- (length_fmap (λ kv : (Z * Z * Z) * comment_vote, kv.1.2)), <- (length_fmap fst (map_to_list names)).
  apply submseteq_length, NoDup_submseteq.
  - apply NoDup_fmap_2_strong; [|apply NoDup_map_to_list].
    intros [[p x] v] [[p' x'] v'] H1%elem_of_map_to_list H2%elem_of_map_to_list E. cbn in E. subst x'.
    apply map_lookup_filter_Some in H1 as [H1 E1], H2 as [H2 E2]. cbn in E1, E2. subst p p'. congruence.
  - intros x Hx. apply list_elem_of_fmap in Hx as ([k v] & -> & Hk%elem_of_map_to_list).
    apply map_lookup_filter_Some in Hk as [Hk _]. apply Hm in Hk as [n Hn]. apply list_elem_of_fmap.
    exists (k.2, n). split; [done|]. by apply elem_of_map_to_list.
Qed.

(** ** The invariant *)

(** No weight exceeds this under the curves in use for curators. *)
Definition max_weight : Z := 2 ^ 33.

Definition curation_curve (c : curve_id) : Prop := c = square_root ∨ c = convergent_square_root.

Record vote_tally (id : Z) (c : comment) (m : gmap (Z * Z * Z) comment_vote) : Prop := Tally {
  t_net : net_rshares (cm_rshares c) = vote_total vt_rshares id m;
  t_low : vote_total vt_weight id m <= total_vote_weight (cm_rshares c);
  t_high : total_vote_weight (cm_rshares c) <= max_weight * vote_total (λ _, 1) id m;
  t_votes : 0 <= vote_rshares (cm_rshares c) < 2 ^ 63
}.

Definition settings_ok (o : comment_settings) : Prop :=
  Forall (λ b, 0 <= b.2) (beneficiaries o) ∧ zsum (beneficiaries o).*2 <= freezone_100_PERCENT
  ∧ 0 <= percent_freezone_dollars o <= freezone_100_PERCENT.

(** A comment that can still be paid. *)
Definition open (c : comment) : Prop := cashout_time c ≠ time_point_sec_maximum.

(** The tally of the comment [x] may be off, while a vote on it is counted. *)
Record content_ok_but (x : option Z) (s : social) : Prop := ContentOk {
  ok_votes : ∀ k v, cvotes s !! k = Some v → 0 <= vt_weight v ∧ k.1.1 < next_comment_id s ∧ is_Some (account_names s !! k.2);
  ok_ids : ∀ id c, comments s !! id = Some c → id < next_comment_id s;
  ok_tally : ∀ id c, comments s !! id = Some c → x ≠ Some id → open c → vote_tally id c (cvotes s);
  ok_settings : ∀ id c, comments s !! id = Some c → settings_ok (settings c) ∧ 0 <= cm_reward_weight (link c) <= freezone_100_PERCENT;
  ok_posters : ∀ n p, posters s !! n = Some p → is_Some (account_names s !! ac_id p);
  ok_auction : 0 <= reverse_auction_seconds s < 2 ^ 64
}.

Abbreviation content_ok := (content_ok_but None).

(** ** Weights *)

Section Weights.

Context (find_msb64 : Z → Z) `{Hmsb : !FindMsb64 find_msb64}.

(** The constant of the reward funds of this chain fits easily. *)
Definition constant_ok (k : uint128) : Prop := wf k ∧ to_Z k < 2 ^ 62.

Lemma to_uint64_value a x : to_uint64 a = Ok x → hi a = 0 ∧ x = lo a.
Proof. unfold to_uint64. intros H. step_in H u Hu. apply fc_assert_Ok, Z.eqb_eq in Hu. by injection H as <-. Qed.

Lemma conv_bound v k z w :
  0 < v < 2 ^ 63 → 0 <= k < 2 ^ 62 → 8 * z ^ 2 <= 9 * (v + 2 * k) → v + 2 * k < (z + 1) ^ 2 → w = v / z → 0 <= w → w <= 2 ^ 33.
Proof.
  intros Hv Hk H1 H2 Ew Hw. change (2 ^ 33) with 8589934592. rewrite ?Z.pow_2_r in *. int_unfold.
  change (2 ^ 62) with 4611686018427387904 in *.
  destruct (Z.lt_trichotomy z 0) as [Hz|[Hz|Hz]].
  - pose proof (Z.div_lt_upper_bound (- v) (- z) 0 ltac:(lia) ltac:(lia)). rewrite Z.div_opp_opp in H by lia. lia.
  - subst z. rewrite Z.div_0_r in Ew. lia.
  - rewrite Ew. apply Z.div_le_upper_bound; [lia|]. assert (z <= 4700000000).
    { destruct (Z.le_gt_cases z 4700000000); [done|]. assert (4700000000 * 4700000000 <= z * z) by nia. lia. }
    assert (z * (z + 3) <= z * 8589934592) by nia. lia.
Qed.

Lemma curve_weight_bound v curve k w :
  curation_curve curve → constant_ok k → 0 < v < 2 ^ 63 → curve_weight find_msb64 v curve k = Ok w → 0 <= w <= max_weight.
Proof.
  intros Hc [Wk Hk] Hv H. unfold curve_weight in H. step_in H c Hcv. apply to_uint64_value in H as [Hhi ->].
  pose proof (to_Z_in k Wk) as Hk0. unfold in_u in Hk0.
  destruct (curve_total find_msb64 curve v (to_Z k) k Hv ltac:(lia) Wk eq_refl) as (c' & E & Wc & Hval).
  rewrite E in Hcv. injection Hcv as <-. assert (to_Z c' = lo c') as El by (unfold to_Z; rewrite Hhi; lia).
  rewrite El in Hval. destruct Wc as [_ Hlo]. unfold in_u in Hlo. unfold max_weight.
  set (w := lo c') in *. clearbody w. split; [lia|].
  destruct Hc as [->| ->]; cbn [curve_value] in Hval; [change (2 ^ 33) with 8589934592; rewrite ?Z.pow_2_r in Hval; int_unfold; nia|].
  destruct Hval as (z & Hz1 & Hz2 & Ew). apply (conv_bound v (to_Z k) z); [lia..|done|done|lia].
Qed.

Lemma div_assign_lo a b q : div_assign a b = Ok q → 0 <= lo q.
Proof. unfold div_assign. cbv zeta. intros H. step_in H u Hu. injection H as <-. cbn [lo]. apply wrapu_in. lia. Qed.

Lemma approx_sqrt_zero : approx_sqrt find_msb64 (uint128_of_i64 0) = Ok 0.
Proof. reflexivity. Qed.

Lemma conv_zero k c : evaluate_reward_curve find_msb64 (uint128_of_i64 0) convergent_square_root k = Ok c → 0 <= lo c.
Proof.
  cbn [evaluate_reward_curve]. generalize (uint128_of_i64 0), (uint128_of_i64 2). intros r two H.
  step_in H x Hx. step_in H z Hz. exact (div_assign_lo _ _ _ H).
Qed.

Lemma curve_weight_zero curve k w :
  curation_curve curve → curve_weight find_msb64 0 curve k = Ok w → 0 <= w.
Proof.
  intros Hc H. unfold curve_weight in H. step_in H c Hcv. apply to_uint64_value in H as [_ ->].
  destruct Hc as [->| ->]; [|by eapply conv_zero].
  cbn [evaluate_reward_curve] in Hcv. rewrite approx_sqrt_zero, Ok_bind in Hcv. injection Hcv as <-. apply Z.le_refl.
Qed.

Lemma discount_weight_bound w created s x :
  0 <= reverse_auction_seconds s < 2 ^ 64 → 0 <= w < 2 ^ 64 → discount_weight w created s = Ok x → 0 <= x <= w.
Proof.
  intros Hr Hw H. unfold discount_weight in H. cbv zeta in H. set (r := reverse_auction_seconds s) in *.
  set (dt := Z.min (u64 (snow s - created)) r) in *. step_in H p Hp. step_in H q Hq. apply to_uint64_value in H as [Hh ->].
  assert (0 <= dt <= r) as Hdt. { subst dt. pose proof (wrapu_in 64 (snow s - created) ltac:(lia)) as [? _]. unfold u64. lia. }
  clearbody r dt. destruct (of_u64_spec w Hw) as [Ww Ew]. destruct (of_u64_spec dt ltac:(unfold in_u; lia)) as [Wd Ed].
  destruct (of_u64_spec r Hr) as [Wr Er].
  destruct (mul_assign_exact _ _ Ww Wd) as (p' & Ep & Wp & Hpv); [rewrite Ew, Ed; int_unfold; nia|].
  rewrite Ep in Hp. injection Hp as <-. rewrite Ew, Ed in Hpv.
  assert (0 < r) as Hr0.
  { destruct (decide (r = 0)) as [->|]; [|lia]. unfold div_assign in Hq. cbv zeta in Hq. step_in Hq u Hu. by apply check_Ok in Hu. }
  destruct (div_assign_spec _ _ Wp Wr) as (q' & Eq & Wq & Hqv); [rewrite Er; lia|].
  rewrite Eq in Hq. injection Hq as <-. rewrite Hpv, Er in Hqv. unfold to_Z in Hqv at 1. rewrite Hh in Hqv.
  replace (lo q') with (w * dt / r) by lia. split; [apply Z.div_pos; nia|]. apply Z.div_le_upper_bound; [lia|nia].
Qed.

(** What a first vote gets and what it adds to the total. *)
Lemma first_vote_weight_bound rshares old c s f w :
  0 <= reverse_auction_seconds s < 2 ^ 64 → get_reward_fund s = Ok f → curation_curve (curation_reward_curve f.2) → constant_ok (fund_constant f.2) →
  0 <= old → (0 < rshares → old < vote_rshares (cm_rshares c) < 2 ^ 63) →
  first_vote_weight find_msb64 rshares old c s = Ok w → 0 <= w.1 <= w.2 ∧ w.2 <= max_weight.
Proof.
  intros Ha Hf Hc Hk Hold Hnew H. unfold first_vote_weight in H. step_in H e He.
  assert (0 <= 0 <= 0 ∧ 0 <= max_weight) as Hz by (unfold max_weight; lia).
  destruct e; [|injection H as <-; exact Hz].
  assert (0 < rshares) as Hr. { destruct (Z.ltb_spec 0 rshares); [done|]. cbn in He. by injection He. }
  specialize (Hnew Hr). rewrite Hf, Ok_bind in H. step_in H ow How. step_in H nw Hnw.
  apply curve_weight_bound in Hnw; [|done|done|lia].
  assert (0 <= ow) as Ho.
  { destruct (decide (old = 0)) as [->|]; [by eapply curve_weight_zero|]. apply curve_weight_bound in How; [lia|done|done|lia]. }
  destruct (Z.leb_spec nw ow); [injection H as <-; exact Hz|]. step_in H x Hx. injection H as <-. cbn [fst snd].
  assert (max_weight < 2 ^ 64) by (unfold max_weight; lia).
  apply discount_weight_bound in Hx; [lia|done|lia].
Qed.

End Weights.

(** ** What spending mana leaves alone *)

Record same_content (s s' : social) : Prop := SameContent {
  sc_comments : comments s' = comments s;
  sc_cvotes : cvotes s' = cvotes s;
  sc_names : account_names s' = account_names s;
  sc_next : next_comment_id s' = next_comment_id s;
  sc_posters : ∀ n, ac_id <$> posters s' !! n = ac_id <$> posters s !! n;
  sc_auction : reverse_auction_seconds s' = reverse_auction_seconds s;
  sc_fund : get_reward_fund s' = get_reward_fund s;
  sc_now : snow s' = snow s
}.

#[global] Instance same_content_refl : Reflexive same_content.
Proof. by split. Qed.
#[global] Instance same_content_trans : Transitive same_content.
Proof. intros s1 s2 s3 [] []. split; intros; etransitivity; eauto. Qed.

Lemma same_content_core d s : now d = snow s → same_content s (set_core d s).
Proof. by split. Qed.

Lemma same_content_poster n p p' s : posters s !! n = Some p → ac_id p' = ac_id p → same_content s (put_poster n p' s).
Proof.
  intros Hp E. split; try done. intros n'. cbn [put_poster set_posters posters]. destruct (decide (n' = n)) as [->|Hne].
  - rewrite lookup_insert_eq, Hp. cbn. by rewrite E.
  - by rewrite lookup_insert_ne.
Qed.

Lemma spend_vote_same v b used s s' : spend_vote v b used s = Ok s' → same_content s s'.
Proof.
  unfold spend_vote. intros H. step_in H m Hm. step_in H s1 H1.
  assert (same_content s s1) as Hs1.
  { destruct v; step_in H1 a Ha; injection H1 as <-; by apply same_content_core. }
  etransitivity; [exact Hs1|]. destruct v; [|by injection H as <-; split].
  step_in H p Hp. injection H as <-. apply from_option_exn_Ok in Hp. by eapply same_content_poster.
Qed.

Lemma content_ok_same x s s' : same_content s s' → content_ok_but x s → content_ok_but x s'.
Proof.
  intros [Ec Ev En Ei Ep Ea _ _] []. split; rewrite ?Ec, ?Ev, ?En, ?Ei, ?Ea; [done..| |done].
  intros n p Hp. specialize (Ep n). rewrite Hp in Ep. destruct (posters s !! n) as [q|] eqn:Eq; [|done].
  cbn in Ep. injection Ep as ->. by eapply ok_posters0.
Qed.

(** ** A vote keeps the tallies *)

(** The shares of a comment are replaced. *)
Lemma content_ok_rshares id c r s :
  comments s !! id = Some c → content_ok s → content_ok_but (Some id) (put_comment id (set_rshares r c) s).
Proof.
  intros Hc [V I T S P A]. split; try done; cbn [put_comment set_comments comments cvotes].
  - intros i c' H. apply lookup_insert_Some in H as [[<- _]|[_ H]]; by eapply I.
  - intros i c' H Hx Ho. apply lookup_insert_Some in H as [[<- _]|[_ H]]; [done|by apply T].
  - intros i c' H. apply lookup_insert_Some in H as [[<- <-]|[_ H]]; [by apply (S id c)|by eapply S].
Qed.

(** Replacing a comment and a vote on it. *)
Lemma content_ok_vote id voter c v s (k := (id, freezone_SYMBOL, voter)) :
  content_ok_but (Some id) s → comments s !! id ≠ None → 0 <= vt_weight v → is_Some (account_names s !! voter) →
  vote_tally id c (<[k := v]> (cvotes s)) → settings_ok (settings c) → 0 <= cm_reward_weight (link c) <= freezone_100_PERCENT →
  content_ok (put_vote k v (put_comment id c s)).
Proof.
  intros [V I T S P A] Hid Hw Hn Ht Hs Hrw. split; cbn [put_vote set_cvotes cvotes put_comment set_comments comments posters
    next_comment_id account_names reverse_auction_seconds]; try done.
  - intros k' v' Hk. apply lookup_insert_Some in Hk as [[<- <-]|[_ Hk]]; [|by apply V]. split_and!; [done| |done].
    destruct (comments s !! id) as [c0|] eqn:E; [|done]. by eapply I.
  - intros i c' Hc. apply lookup_insert_Some in Hc as [[<- _]|[_ Hc]]; [|by eapply I].
    destruct (comments s !! id) as [c0|] eqn:E; [|done]. by eapply I.
  - intros i c' Hc _ Ho. apply lookup_insert_Some in Hc as [[<- <-]|[Hne Hc]]; [done|].
    destruct (T i c' Hc ltac:(congruence) Ho) as []. assert (k.1 ≠ (i, freezone_SYMBOL)) as Hk by (intros [= E]; done).
    split; rewrite ?vote_total_put_other by done; done.
  - intros i c' Hc. apply lookup_insert_Some in Hc as [[_ <-]|[_ Hc]]; [done|by eapply S].
Qed.

Lemma safe_add_upper a b c : 0 < b → safe_add a b = Ok c → c < 2 ^ 63.
Proof.
  intros Hb H. unfold safe_add in H. step_in H u Hu. step_in H w Hw. injection H as <-. apply check_Ok, negb_true_iff in Hu.
  rewrite (proj2 (Z.ltb_lt _ _) Hb) in Hu. apply Z.ltb_ge in Hu. lia.
Qed.

Lemma add_vote_spec rshares abs r r' :
  add_vote rshares abs r = Ok r' → 0 <= vote_rshares r < 2 ^ 63 →
  net_rshares r' = net_rshares r + rshares ∧ total_vote_weight r' = total_vote_weight r
  ∧ vote_rshares r <= vote_rshares r' < 2 ^ 63 ∧ (0 < rshares → vote_rshares r < vote_rshares r').
Proof.
  unfold add_vote. intros H Hv. step_in H net Hn. step_in H a Ha. step_in H v Hvr. injection H as <-.
  cbn [net_rshares total_vote_weight vote_rshares]. apply safe_add_value in Hn as ->.
  destruct (Z.ltb_spec 0 rshares); [|injection Hvr as <-; split_and!; lia].
  pose proof (safe_add_upper _ _ _ H Hvr). apply safe_add_value in Hvr as ->. split_and!; lia.
Qed.

Lemma get_comment_Ok id c s : comments s !! id = Some c → get_comment_by_id id s = Ok c.
Proof. unfold get_comment_by_id. by intros ->. Qed.

Lemma add_children_abs_spec id abs c s s' :
  comments s !! id = Some c → add_children_abs id abs s = Ok s' →
  ∃ r a, comments s !! root_comment (link c) = Some r ∧ s' = put_comment (root_comment (link c)) (set_children_abs a r) s.
Proof.
  unfold add_children_abs. intros Hc H. rewrite (get_comment_Ok _ _ _ Hc), Ok_bind in H.
  step_in H r Hr. step_in H a Ha. injection H as <-. apply from_option_exn_Ok in Hr. eauto.
Qed.

(** The shares of a root comment that its replies count in are not part of any
    vote_tally. *)
Definition same_tallied (c c' : comment) : Prop :=
  cm_rshares c' = cm_rshares c ∧ settings c' = settings c ∧ link c' = link c ∧ cashout_time c' = cashout_time c
  ∧ last_payout c' = last_payout c.

Lemma tally_same id c c' m : same_tallied c c' → vote_tally id c m → vote_tally id c' m.
Proof. intros (E & _) []. split; by rewrite E. Qed.

Lemma content_ok_untallied x id c c' s :
  comments s !! id = Some c → same_tallied c c' → content_ok_but x s → content_ok_but x (put_comment id c' s).
Proof.
  intros Hc Hs [V I T S P A]. pose proof Hs as (_ & Es & El & Et & _). split; try done; cbn [put_comment set_comments comments cvotes].
  - intros i c0 H. apply lookup_insert_Some in H as [[<- _]|[_ H]]; by eapply I.
  - intros i c0 H Hx Ho. apply lookup_insert_Some in H as [[<- <-]|[_ H]]; [|by apply T].
    eapply tally_same; [done|]. apply T; [done|done|]. unfold open in *. congruence.
  - intros i c0 H. apply lookup_insert_Some in H as [[<- <-]|[_ H]]; [|by eapply S]. rewrite Es, El. by eapply S.
Qed.

Lemma put_comment_same id c s : comments s !! id = Some c → put_comment id c s = s.
Proof. intros Hc. unfold put_comment, set_comments. rewrite insert_id by done. by destruct s. Qed.

Lemma set_rshares_same c : set_rshares (cm_rshares c) c = c.
Proof. by destruct c. Qed.

Lemma add_weight_zero r : in_u 64 (total_vote_weight r) → add_weight 0 r = r.
Proof. intros H. unfold add_weight. rewrite Z.add_0_r, (wrapu_small 64) by done. by destruct r. Qed.

(** After the root was touched, the comment is as it was but for that. *)
Lemma add_children_abs_keeps id abs c s s' :
  comments s !! id = Some c → add_children_abs id abs s = Ok s' →
  (∀ x, content_ok_but x s → content_ok_but x s') ∧ (∃ c', comments s' !! id = Some c' ∧ same_tallied c c')
  ∧ cvotes s' = cvotes s ∧ account_names s' = account_names s ∧ snow s' = snow s ∧ get_reward_fund s' = get_reward_fund s
  ∧ reverse_auction_seconds s' = reverse_auction_seconds s
  ∧ (∀ i, i ≠ id → i ≠ root_comment (link c) → comments s' !! i = comments s !! i).
Proof.
  intros Hc H. apply (add_children_abs_spec id abs c) in H as (r & a & Hr & ->); [|done].
  split_and!; try done.
  - intros x Hok. by eapply content_ok_untallied.
  - cbn [put_comment set_comments comments]. destruct (decide (root_comment (link c) = id)) as [E|E].
    + rewrite E, lookup_insert_eq. rewrite E, Hc in Hr. injection Hr as <-. eexists. split; [done|]. by split_and!.
    + rewrite lookup_insert_ne by done. exists c. split; [done|]. by split_and!.
  - intros i _ Hi. cbn [put_comment set_comments comments]. by rewrite lookup_insert_ne.
Qed.

Section VoteRules.

Context (find_msb64 : Z → Z) `{Hmsb : !FindMsb64 find_msb64}.

(** The fund of the comments uses one of the curves for curators, and there are
    not too many accounts to vote. *)
Record voting_ok (s : social) : Prop := VotingOk {
  vo_fund : ∃ f, get_reward_fund s = Ok f ∧ curation_curve (curation_reward_curve f.2) ∧ constant_ok (fund_constant f.2);
  vo_accounts : Z.of_nat (base.size (account_names s)) < 2 ^ 30
}.

Lemma few_votes id s : content_ok s → voting_ok s → max_weight * (vote_total (λ _, 1) id (cvotes s) + 1) < 2 ^ 64.
Proof.
  intros Hok [_ Hn]. pose proof (vote_count_le id (cvotes s) (account_names s)) as H.
  assert (∀ k v, cvotes s !! k = Some v → is_Some (account_names s !! k.2)) as Hv by (intros k v Hk; by apply (ok_votes _ s Hok k v)).
  specialize (H Hv). unfold max_weight. lia.
Qed.

Lemma tally_first id voter c v r w m :
  vote_tally id c m → m !! (id, freezone_SYMBOL, voter) = None → max_weight * (vote_total (λ _, 1) id m + 1) < 2 ^ 64 →
  0 <= vt_weight v <= w → w <= max_weight → 0 <= vote_total vt_weight id m →
  net_rshares r = net_rshares (cm_rshares c) + vt_rshares v → total_vote_weight r = u64 (total_vote_weight (cm_rshares c) + w) →
  0 <= vote_rshares r < 2 ^ 63 → vote_tally id (set_rshares r c) (<[(id, freezone_SYMBOL, voter) := v]> m).
Proof.
  intros [Hn Hl Hh Hv] Hnew Hfew Hw Hwm H0 En Et Evr.
  assert (∀ g, vote_part g m (id, freezone_SYMBOL, voter) = 0) as Hp by (intros g; unfold vote_part; by rewrite Hnew).
  unfold u64 in Et. rewrite wrapu_small in Et by (unfold in_u; lia).
  split; rewrite ?vote_total_put, ?Hp; cbn [set_rshares cm_rshares]; lia.
Qed.

Lemma weights_nonneg x s id : content_ok_but x s → 0 <= vote_total vt_weight id (cvotes s).
Proof. intros Hok. apply msum_nonneg. intros k v Hk. apply (ok_votes _ _ Hok) in Hk as [? _]. case_decide; lia. Qed.

Lemma hf20_first_vote_ok o id voter used abs c s s' :
  content_ok s → voting_ok s → comments s !! id = Some c → open c → cvotes s !! (id, freezone_SYMBOL, voter) = None →
  is_Some (account_names s !! voter) → hf20_first_vote find_msb64 o id voter used abs s = Ok s' → content_ok s'.
Proof.
  intros Hok Hvo Hc Ho Hnew Hn H. unfold hf20_first_vote in H. step_in H u Hu. cbv zeta in H.
  set (rshares := if vo_weight o <? 0 then - abs else abs) in *. step_in H s1 Hs1. apply spend_vote_same in Hs1.
  pose proof (content_ok_same _ _ _ Hs1 Hok) as Hok1. destruct Hs1 as [Ec Ev En Ei _ Ea Ef _].
  rewrite (get_comment_Ok id c) in H by (by rewrite Ec). rewrite Ok_bind in H. step_in H r Hr.
  pose proof (ok_tally _ _ Hok _ _ Hc ltac:(done) Ho) as Ht. destruct (ok_settings _ _ Hok _ _ Hc) as [Hset Hrw].
  pose proof (add_vote_spec _ _ _ _ Hr (t_votes _ _ _ Ht)) as (Hnet & Htw & Hvr & Hvr').
  set (c1 := set_rshares r c) in *. step_in H s2 Hs2.
  destruct (add_children_abs_keeps id abs c1 _ s2 (lookup_insert_eq _ _ _) Hs2) as (Hok2 & (c2 & Hc2 & Hsame) & Ev2 & En2 & _ & Ef2 & Ea2 & _).
  specialize (Hok2 (Some id) (content_ok_rshares id c r s1 ltac:(by rewrite Ec) Hok1)).
  rewrite (get_comment_Ok _ _ _ Hc2), Ok_bind in H. step_in H w Hw. cbv zeta in H.
  pose proof (few_votes id s Hok Hvo) as Hfew. destruct Hvo as [(f & Hf & Hcv & Hk) Hacc].
  pose proof Hsame as (Er2 & Es2 & El2 & _). cbn [cm_rshares settings link c1 set_rshares] in Er2, Es2, El2.
  apply (first_vote_weight_bound find_msb64 _ _ _ _ f) in Hw as [Hw1 Hw2];
    [|rewrite Ea2; cbn; rewrite Ea; apply Hok|rewrite Ef2; cbn; by rewrite <- Hf|done|done|apply Ht|rewrite Er2; lia].
  set (v := CommentVote w.1 rshares (vo_weight o) (snow s2) 0) in *.
  pose proof (weights_nonneg _ _ id Hok) as H0.
  assert (s' = put_vote (id, freezone_SYMBOL, voter) v (put_comment id (set_rshares (add_weight w.2 r) c2) s2)) as ->.
  { destruct (Z.eqb_spec w.2 0) as [E0|_]; injection H as <-.
    - rewrite E0, add_weight_zero by (unfold in_u; destruct Ht; lia). rewrite <- Er2, set_rshares_same.
      by rewrite (put_comment_same id c2 s2) by done.
    - by rewrite Er2. }
  apply content_ok_vote; [done|by rewrite Hc2|cbn; lia|rewrite En2; cbn; by rewrite En| |cbn; by rewrite Es2|cbn; by rewrite El2].
  rewrite Ev2. cbn [put_comment set_comments cvotes]. rewrite Ev.
  apply (tally_same id (set_rshares (add_weight w.2 r) c)); [split_and!; try done; apply Hsame|].
  apply (tally_first id voter c v (add_weight w.2 r) w.2); try done; cbn [add_weight net_rshares total_vote_weight vote_rshares vt_rshares v vt_weight]; try lia.
  - by rewrite Htw.
  - destruct Ht. lia.
Qed.

Lemma change_vote_spec rshares abs old w r r' :
  change_vote rshares abs old w r = Ok r' →
  net_rshares r' = net_rshares r - old + rshares ∧ total_vote_weight r' = u64 (total_vote_weight r - w) ∧ vote_rshares r' = vote_rshares r.
Proof.
  unfold change_vote. intros H. step_in H n Hn. step_in H n' Hn'. step_in H a Ha. injection H as <-.
  apply safe_sub_value in Hn as ->. by apply safe_add_value in Hn' as ->.
Qed.

Lemma tally_change id voter c v old r m :
  vote_tally id c m → m !! (id, freezone_SYMBOL, voter) = Some old → (∀ k v, m !! k = Some v → 0 <= vt_weight v) →
  max_weight * (vote_total (λ _, 1) id m + 1) < 2 ^ 64 → vt_weight v = 0 →
  net_rshares r = net_rshares (cm_rshares c) - vt_rshares old + vt_rshares v →
  total_vote_weight r = u64 (total_vote_weight (cm_rshares c) - vt_weight old) → vote_rshares r = vote_rshares (cm_rshares c) →
  vote_tally id (set_rshares r c) (<[(id, freezone_SYMBOL, voter) := v]> m).
Proof.
  intros [Hn Hl Hh Hv] Hold Hnn Hfew Hw En Et Evr.
  pose proof (vote_total_part_le vt_weight id voter m Hnn) as Hle.
  assert (∀ g, vote_part g m (id, freezone_SYMBOL, voter) = g old) as Hp by (intros g; unfold vote_part; by rewrite Hold).
  rewrite Hp in Hle. pose proof (Hnn _ _ Hold). assert (0 <= max_weight) by (unfold max_weight; lia). unfold u64 in Et. rewrite wrapu_small in Et by (unfold in_u; lia).
  split; rewrite ?vote_total_put, ?Hp; cbn [set_rshares cm_rshares]; lia.
Qed.

Lemma hf20_change_vote_ok o id voter used abs c v s s' :
  content_ok s → voting_ok s → comments s !! id = Some c → open c → cvotes s !! (id, freezone_SYMBOL, voter) = Some v →
  hf20_change_vote o id voter used abs v s = Ok s' → content_ok s'.
Proof.
  intros Hok Hvo Hc Ho Hold H. unfold hf20_change_vote in H. step_in H u Hu. step_in H u' Hu'. cbv zeta in H.
  set (rshares := if vo_weight o <? 0 then - abs else abs) in *. step_in H s1 Hs1. apply spend_vote_same in Hs1.
  pose proof (content_ok_same _ _ _ Hs1 Hok) as Hok1. destruct Hs1 as [Ec Ev En Ei _ Ea Ef _].
  rewrite (get_comment_Ok id c) in H by (by rewrite Ec). rewrite Ok_bind in H. step_in H r Hr.
  pose proof (ok_tally _ _ Hok _ _ Hc ltac:(done) Ho) as Ht. destruct (ok_settings _ _ Hok _ _ Hc) as [Hset Hrw].
  pose proof (change_vote_spec _ _ _ _ _ _ Hr) as (Hnet & Htw & Hvr).
  set (c1 := set_rshares r c) in *. step_in H s2 Hs2.
  destruct (add_children_abs_keeps id abs c1 _ s2 (lookup_insert_eq _ _ _) Hs2) as (Hok2 & (c2 & Hc2 & Hsame) & Ev2 & En2 & _).
  specialize (Hok2 (Some id) (content_ok_rshares id c r s1 ltac:(by rewrite Ec) Hok1)).
  injection H as <-. pose proof (few_votes id s Hok Hvo) as Hfew. pose proof (ok_votes _ _ Hok) as Hvs.
  destruct (Hvs _ _ Hold) as (Hw & _ & Hn).
  rewrite <- (put_comment_same id c2 s2 Hc2).
  pose proof Hsame as (_ & Es2 & El2 & _). cbn [settings link c1 set_rshares] in Es2, El2.
  apply content_ok_vote; [done|by rewrite Hc2|cbn; lia|rewrite En2; cbn; by rewrite En| |cbn; by rewrite Es2|cbn; by rewrite El2].
  rewrite Ev2. cbn [put_comment set_comments cvotes]. rewrite Ev. apply (tally_same id c1); [done|].
  apply (tally_change id voter c _ v); try done. intros k v0 Hk. by apply (Hvs k v0).
Qed.

Lemma late_vote_ok id voter percent c s s' :
  content_ok s → comments s !! id = Some c → cashout_time c = time_point_sec_maximum → is_Some (account_names s !! voter) →
  late_vote id voter freezone_SYMBOL percent s = Ok s' → content_ok s'.
Proof.
  intros Hok Hc Em Hn H. unfold late_vote in H. destruct (clear_votes s); [by injection H as <-|].
  assert (∀ v, 0 <= vt_weight v → content_ok (put_vote (id, freezone_SYMBOL, voter) v s)) as Hput.
  { intros v Hw. destruct Hok as [V I T S P A]. split; try done; cbn [put_vote set_cvotes cvotes comments].
    - intros k v' Hk. apply lookup_insert_Some in Hk as [[<- <-]|[_ Hk]]; [|by apply V]. split_and!; [done|by eapply I|done].
    - intros i c' Hc' _ Ho. assert ((id, freezone_SYMBOL, voter).1 ≠ (i, freezone_SYMBOL)) as Hne.
      { intros E%(f_equal fst). cbn [fst] in E. subst i. apply Ho. rewrite Hc in Hc'. by injection Hc' as <-. }
      destruct (T i c' Hc' ltac:(done) Ho). split; by rewrite ?vote_total_put_other by done. }
  destruct (cvotes s !! _) as [v|] eqn:Ev.
  - injection H as <-. apply Hput. cbn. by apply (ok_votes _ _ Hok _ _ Ev).
  - step_in H u Hu. injection H as <-. apply Hput. cbn. lia.
Qed.

(** Every vote under the rules of hardforks 20 to 22 keeps the invariant. *)
Lemma hf20_vote_ok o s s' : content_ok s → voting_ok s → hf freezone_HARDFORK_0_17 s = true →
  hf20_vote_evaluator find_msb64 o s = Ok s' → content_ok s'.
Proof.
  intros Hok Hvo Hhf H. unfold hf20_vote_evaluator in H. step_in H cid Hid. step_in H c Hc. apply from_option_exn_Ok in Hc.
  step_in H a Ha. step_in H p Hp. apply from_option_exn_Ok in Hp. step_in H u1 Hu1. step_in H u2 Hu2.
  unfold calculate_discussion_payout_time in H. rewrite Hhf in H. cbn [orb] in H. rewrite Ok_bind in H.
  pose proof (ok_posters _ _ Hok _ _ Hp) as Hn.
  destruct (Z.eqb_spec (cashout_time c) time_point_sec_maximum) as [Em|Ho]; [by eapply late_vote_ok|].
  step_in H u3 Hu3. cbv zeta in H. step_in H u4 Hu4. step_in H u5 Hu5. step_in H m Hm. step_in H u6 Hu6.
  step_in H used Hus. step_in H u7 Hu7. step_in H abs Habs. set (s1 := set_core _ s) in *.
  assert (same_content s s1) as Hs1 by (by apply same_content_core).
  pose proof (content_ok_same _ _ _ Hs1 Hok) as Hok1.
  assert (voting_ok s1) as Hvo1 by (destruct Hvo; by split).
  destruct (cvotes s !! (cid, freezone_SYMBOL, ac_id p)) as [v|] eqn:Ev.
  - by eapply hf20_change_vote_ok in H.
  - by eapply hf20_first_vote_ok in H.
Qed.

End VoteRules.

(** ** The other operations on comments *)

(** A change of what the invariant does not look at. *)
Lemma content_ok_frame x s s' :
  content_ok_but x s → comments s' = comments s → cvotes s' = cvotes s → account_names s' = account_names s →
  next_comment_id s' = next_comment_id s → (∀ n, ac_id <$> posters s' !! n = ac_id <$> posters s !! n) →
  reverse_auction_seconds s' = reverse_auction_seconds s → content_ok_but x s'.
Proof.
  intros [V I T S P A] Ec Ev En Ei Ep Ea. split; rewrite ?Ec, ?Ev, ?En, ?Ei, ?Ea; [done..| |done].
  intros n p Hp. specialize (Ep n). rewrite Hp in Ep. destruct (posters s !! n) as [q|] eqn:Eq; [|done].
  cbn in Ep. injection Ep as ->. by eapply P.
Qed.

(** The voters and the fund, which no operation on comments changes. *)
Definition same_voters (s s' : social) : Prop :=
  account_names s' = account_names s ∧ get_reward_fund s' = get_reward_fund s ∧ core s' = core s.

Lemma count_replies_ok x fuel f p s s' :
  content_ok_but x s → count_replies fuel f p s = Ok s' →
  content_ok_but x s' ∧ same_voters s s' ∧ next_comment_id s' = next_comment_id s ∧ dom (comments s') = dom (comments s).
Proof.
  revert p s. induction fuel as [|fuel IH]; intros p s Hok H; [done|]. cbn [count_replies] in H.
  step_in H c Hc. apply from_option_exn_Ok in Hc. cbv zeta in H. set (s1 := put_comment p _ s) in *.
  assert (content_ok_but x s1) as Hok1 by (by eapply content_ok_untallied).
  assert (dom (comments s1) = dom (comments s)) as Hd.
  { subst s1. cbn [put_comment set_comments comments]. rewrite dom_insert_lookup_L by eauto. done. }
  destruct (is_root c); [injection H as <-; by split_and!|]. step_in H q Hq.
  apply IH in H as (H1 & (H2 & H3 & H4) & H5 & H6); [|done]. split_and!; [done|split_and!; [rewrite H2|rewrite H3|rewrite H4]; done|by rewrite H5|by rewrite H6].
Qed.

Lemma content_ok_new c s :
  content_ok s → cm_rshares c = no_rshares → settings c = default_settings → 0 <= cm_reward_weight (link c) <= freezone_100_PERCENT →
  content_ok (put_comment (next_comment_id s) c (set_next_comment (next_comment_id s + 1) s)).
Proof.
  intros [V I T S P A] Er Es Hw. split; try done; cbn [put_comment set_comments set_next_comment comments next_comment_id cvotes account_names].
  - intros k v Hk. apply V in Hk as (? & ? & ?). split_and!; [done|lia|done].
  - intros i c' Hc. apply lookup_insert_Some in Hc as [[<- _]|[_ Hc]]; [lia|]. apply I in Hc. lia.
  - intros i c' Hc _ Ho. apply lookup_insert_Some in Hc as [[<- <-]|[_ Hc]]; [|by apply T].
    assert (∀ k v, cvotes s !! k = Some v → k.1.1 ≠ next_comment_id s) as Hn.
    { intros k v Hk. apply V in Hk as (_ & ? & _). lia. }
    split; rewrite ?Er, ?(vote_total_none _ _ _ Hn); cbn; lia.
  - intros i c' Hc. apply lookup_insert_Some in Hc as [[_ <-]|[_ Hc]]; [|by eapply S]. rewrite Es.
    split; [|done]. split_and!; [constructor|done..].
Qed.

Lemma post_weight_range root p s : 0 <= (post_weight root p s).1 <= freezone_100_PERCENT.
Proof.
  unfold post_weight, freezone_100_PERCENT. destruct (_ && _ && _); [|done]. cbv zeta. cbn [fst].
  set (b := u64 _). assert (0 <= b) by (apply wrapu_in; lia).
  assert (0 <= freezone_POST_WEIGHT_CONSTANT * 10000 / b).
  { destruct (decide (b = 0)) as [->|]; [done|]. apply Z.div_pos; [done|lia]. }
  unfold u16. rewrite wrapu_small by (unfold in_u; lia). lia.
Qed.

Lemma create_comment_ok o auth parent s s' :
  content_ok s → posters s !! co_author o = Some auth → create_comment o auth parent s = Ok s' → content_ok s' ∧ same_voters s s'.
Proof.
  intros Hok Hauth H. unfold create_comment in H. cbv zeta in H. step_in H u1 Hu1. step_in H u2 Hu2.
  pose proof (post_weight_range (bool_decide (co_parent_author o = freezone_ROOT_POST_PARENT)) auth s) as Hrw.
  destruct (post_weight _ _ _) as [rw bw]. cbn [fst] in Hrw. set (s1 := put_poster _ _ s) in *.
  assert (same_content s s1) as Hs1 by (eapply same_content_poster; [done|done]).
  step_in H u3 Hu3. step_in H l Hl.
  assert (0 <= cm_reward_weight l <= freezone_100_PERCENT) as Hlw.
  { destruct parent; [step_in Hl c Hc|]; by injection Hl as <-. }
  set (s2 := set_permlinks _ _) in *. set (s3 := set_contents _ s2) in *.
  assert (content_ok s3 ∧ same_voters s s3) as [Hok3 Hsv].
  { split; [|by split_and!]. eapply (content_ok_frame None (put_comment _ _ _)); try done.
    apply content_ok_new; try done. by eapply content_ok_same. }
  destruct parent as [p|]; [|by injection H as <-].
  apply (count_replies_ok None) in H as (H1 & (H2 & H3 & H4) & _); [|done]. split; [done|].
  destruct Hsv as (E1 & E2 & E3). split_and!; congruence.
Qed.

Lemma edit_comment_ok edit_body o auth id s s' :
  content_ok s → posters s !! co_author o = Some auth → edit_comment edit_body o auth id s = Ok s' → content_ok s' ∧ same_voters s s'.
Proof.
  intros Hok Hauth H. unfold edit_comment in H. cbv zeta in H. step_in H c Hc. apply from_option_exn_Ok in Hc.
  step_in H u1 Hu1. step_in H u2 Hu2. step_in H u3 Hu3. step_in H u4 Hu4. step_in H text Ht. destruct text as [[title body] json].
  injection H as <-. split; [|by split_and!]. eapply (content_ok_frame None (put_comment id (touch (snow s) c) s)); try done.
  - by eapply content_ok_untallied.
  - intros n. cbn [set_contents put_poster set_posters put_comment set_comments posters]. destruct (decide (n = co_author o)) as [->|].
    + by rewrite lookup_insert_eq, Hauth.
    + by rewrite lookup_insert_ne.
Qed.

Lemma comment_apply_ok is_utf8 edit_body o s s' :
  content_ok s → comment_apply is_utf8 edit_body o s = Ok s' → content_ok s' ∧ same_voters s s'.
Proof.
  intros Hok H. unfold comment_apply in H. step_in H u1 Hu1. step_in H auth Ha. apply from_option_exn_Ok in Ha.
  step_in H parent Hp. step_in H u2 Hu2. destruct (permlinks s !! _); [by eapply edit_comment_ok|by eapply create_comment_ok].
Qed.

Lemma content_ok_delete id l s :
  content_ok_but (Some id) s → content_ok (set_permlinks (delete l) (set_comments (delete id) s)).
Proof.
  intros [V I T S P A]. split; try done; cbn [set_permlinks set_comments comments cvotes next_comment_id].
  - intros i c [_ Hc]%lookup_delete_Some. by eapply I.
  - intros i c [Hne Hc]%lookup_delete_Some _ Ho. apply T; [done|congruence|done].
  - intros i c [_ Hc]%lookup_delete_Some. by eapply S.
Qed.

Lemma content_ok_unvote id s :
  content_ok s → content_ok_but (Some id) (set_cvotes (filter (λ kv : (Z * Z * Z) * comment_vote, kv.1.1.1 ≠ id)) s).
Proof.
  intros [V I T S P A]. split; try done; cbn [set_cvotes comments cvotes next_comment_id account_names].
  - intros k v [Hk _]%map_lookup_filter_Some. by apply V.
  - intros i c Hc Hx Ho. destruct (T i c Hc ltac:(done) Ho).
    assert (∀ (k : Z * Z * Z) (v : comment_vote), k.1 = (i, freezone_SYMBOL) → (k, v).1.1.1 ≠ id) by (intros k v E; cbn; rewrite E; cbn; congruence).
    split; by rewrite ?vote_total_filter by done.
Qed.

Lemma delete_comment_ok o s s' : content_ok s → delete_comment_apply o s = Ok s' → content_ok s' ∧ same_voters s s'.
Proof.
  intros Hok H. unfold delete_comment_apply in H. step_in H cid Hid. step_in H c Hc. step_in H u1 Hu1. step_in H u2 Hu2. step_in H u3 Hu3.
  destruct (0 <? _); [injection H as <-; by split|]. cbv zeta in H. set (s1 := set_cvotes _ s) in *. step_in H s2 Hs2. injection H as <-.
  assert (content_ok_but (Some cid) s2 ∧ same_voters s s2) as [H2 Hsv].
  { pose proof (content_ok_unvote cid s Hok) as Hok1. fold s1 in Hok1. destruct (_ && _); [|injection Hs2 as <-; split; [done|by split_and!]].
    step_in Hs2 p Hp. by apply (count_replies_ok (Some cid)) in Hs2 as (? & ? & _). }
  split; [by apply content_ok_delete|]. by destruct Hsv.
Qed.

(** *** Options *)

(** Percents are unsigned. *)
Definition options_typed (o : comment_options_operation) : Prop :=
  0 <= op_percent_freezone_dollars o
  ∧ Forall (λ e, match e with comment_payout_beneficiaries l => Forall (λ b, in_u 16 b.2) l | _ => True end) (op_extensions o).

Lemma zsum_cons x l : zsum (x :: l) = x + zsum l.
Proof. done. Qed.

Lemma validate_beneficiaries_sum prev sum l :
  0 <= sum <= freezone_100_PERCENT → Forall (λ b : name * Z, in_u 16 b.2) l → validate_beneficiaries prev sum l = Ok tt →
  sum + zsum l.*2 <= freezone_100_PERCENT.
Proof.
  revert prev sum. induction l as [|[n w] l IH]; intros prev sum Hs Hl H; [cbn; lia|]. apply Forall_cons in Hl as [Hw Hl].
  cbn [validate_beneficiaries] in H. step_in H u1 H1. step_in H u2 H2. cbv zeta in H. step_in H u3 H3. step_in H u4 H4.
  apply fc_assert_Ok, Z.leb_le in H2, H3. cbn [snd] in Hw. unfold freezone_100_PERCENT in *.
  assert (u32 (sum + w) = sum + w) as E by (unfold u32; apply wrapu_small; int_unfold; lia). rewrite E in *.
  apply IH in H; [|unfold in_u in Hw; lia|done]. rewrite fmap_cons, zsum_cons. cbn [snd]. lia.
Qed.

Lemma beneficiaries_validated l :
  Forall (λ b : name * Z, in_u 16 b.2) l → comment_payout_beneficiaries_validate l = Ok tt → zsum l.*2 <= freezone_100_PERCENT.
Proof.
  intros Hl H. unfold comment_payout_beneficiaries_validate in H. step_in H u1 H1. step_in H u2 H2.
  destruct l as [|[n w] l]; [done|]. apply Forall_cons in Hl as [Hw Hl]. cbn [snd] in Hw.
  step_in H u3 H3. step_in H u4 H4. step_in H u5 H5. apply fc_assert_Ok, Z.leb_le in H4, H5. unfold freezone_100_PERCENT in *.
  assert (u32 (0 + w) = w) as E by (unfold u32; rewrite wrapu_small; [lia|int_unfold; lia]). rewrite E in *.
  apply validate_beneficiaries_sum in H; [|unfold in_u in Hw; unfold freezone_100_PERCENT; lia|done].
  rewrite fmap_cons, zsum_cons. cbn [snd]. unfold freezone_100_PERCENT in H. lia.
Qed.

Lemma content_ok_settings id c o s :
  content_ok s → comments s !! id = Some c → settings_ok o → content_ok (put_comment id (set_settings o c) s).
Proof.
  intros [V I T S P A] Hc Ho. split; try done; cbn [put_comment set_comments comments cvotes next_comment_id].
  - intros i c' H. apply lookup_insert_Some in H as [[<- _]|[_ H]]; by eapply I.
  - intros i c' H Hx Hop. apply lookup_insert_Some in H as [[<- <-]|[_ H]]; [|by apply T]. destruct (T id c Hc Hx Hop). by split.
  - intros i c' H. apply lookup_insert_Some in H as [[<- <-]|[_ H]]; [|by eapply S]. split; [done|]. by apply (S id c).
Qed.

Definition extension_validated (e : comment_options_extension) : Prop :=
  match e with
  | comment_payout_beneficiaries l => Forall (λ b, in_u 16 b.2) l ∧ comment_payout_beneficiaries_validate l = Ok tt
  | allowed_vote_assets_extension l => True
  end.

Lemma options_extension_ok id s e s' :
  content_ok s → extension_validated e → apply_options_extension id s e = Ok s' → content_ok s' ∧ same_voters s s'.
Proof.
  intros Hok He H. unfold apply_options_extension in H. step_in H c Hc. apply from_option_exn_Ok in Hc. cbv zeta in H.
  destruct (ok_settings _ _ Hok _ _ Hc) as [(Hb & Hs & Hp) _]. destruct e as [l|l].
  - step_in H u1 H1. step_in H u2 H2. step_in H u3 H3. injection H as <-. destruct He as [Hl Hv].
    split; [|by split_and!]. apply content_ok_settings; [done..|]. apply fc_assert_Ok, Z.eqb_eq in H1.
    assert (beneficiaries (settings c) = []) as Ebn by (destruct (beneficiaries (settings c)); [done|cbn in H1; lia]).
    split_and!; cbn [beneficiaries percent_freezone_dollars]; rewrite ?Ebn; [|by apply beneficiaries_validated|lia..].
    eapply Forall_impl; [exact Hl|]. intros b [? _]. done.
  - step_in H u1 H1. step_in H u2 H2. step_in H u3 H3. step_in H s1 Hs1. injection H as <-.
    assert (content_ok s1 ∧ same_voters s s1 ∧ comments s1 = comments s) as (Hok1 & Hsv & Ec).
    { eapply (res_fold_ind (λ s1, content_ok s1 ∧ same_voters s s1 ∧ comments s1 = comments s)) in Hs1; [done|by split_and!|].
      intros s2 v s3 _ (Ho2 & (Hv1 & Hv2 & Hv3) & Ec2) H. assert (∀ f, content_ok (set_sst_beneficiaries f s2)) as Hf.
      { intros f. eapply content_ok_frame; done. }
      destruct (vo_beneficiaries v); [|step_in H u Hu]; injection H as <-; by split_and!. }
    split; [|destruct Hsv as (? & ? & ?); by split_and!]. apply content_ok_settings; [done|by rewrite Ec|]. unfold settings_ok. cbn [beneficiaries percent_freezone_dollars]. split_and!; [done..|lia|lia].
Qed.

Lemma comment_options_ok is_utf8 o s s' :
  content_ok s → options_typed o → comment_options_validate is_utf8 o = Ok tt → comment_options_apply o s = Ok s' →
  content_ok s' ∧ same_voters s s'.
Proof.
  intros Hok [Hpct Hext] Hval H. unfold comment_options_validate in Hval. step_in Hval v1 Hv1. step_in Hval v2 Hv2.
  step_in Hval v3 Hv3. step_in Hval v4 Hv4. step_in Hval v5 Hv5. apply fc_assert_Ok, Z.leb_le in Hv2.
  assert (Forall extension_validated (op_extensions o)) as Hes.
  { clear -Hext Hval. induction (op_extensions o) as [|e l IH]; [constructor|]. apply Forall_cons in Hext as [He Hl].
    cbn [res_fold] in Hval. step_in Hval u Hu. destruct u. constructor; [|by apply IH]. by destruct e. }
  unfold comment_options_apply in H. step_in H cid Hid. step_in H c Hc. apply from_option_exn_Ok in Hc. cbv zeta in H.
  step_in H b1 Hb1. step_in H u1 Hu1. step_in H u2 Hu2. step_in H u3 Hu3. step_in H b2 Hb2. step_in H u4 Hu4. step_in H u5 Hu5.
  destruct (ok_settings _ _ Hok _ _ Hc) as [(Hb & Hs & Hp) _].
  set (s1 := put_comment _ _ s) in *.
  assert (content_ok s1) as Hok1. { apply content_ok_settings; [done..|]. unfold settings_ok. cbn [beneficiaries percent_freezone_dollars]. split_and!; [done..|lia|lia]. }
  eapply (res_fold_ind (λ s2, content_ok s2 ∧ same_voters s s2)) in H; [done|by split; [|split_and!]|].
  intros s2 e s3 He (Ho2 & Hv1' & Hv2' & Hv3') He'. rewrite Forall_forall in Hes.
  apply options_extension_ok in He' as (Ho3 & H1 & H2 & H3); [|done|by apply Hes]. split; [done|]. split_and!; congruence.
Qed.

(** ** Sequences of operations *)

(** What decides how votes count. *)
Definition same_rules (s s' : social) : Prop :=
  account_names s' = account_names s ∧ fund_names s' = fund_names s ∧ fund_infos s' = fund_infos s
  ∧ processed_hardforks (core s') = processed_hardforks (core s).

#[global] Instance same_rules_trans : Transitive same_rules.
Proof. intros s1 s2 s3 (? & ? & ? & ?) (? & ? & ? & ?). split_and!; congruence. Qed.

Lemma spend_vote_rules v b used s s' : spend_vote v b used s = Ok s' → same_rules s s'.
Proof.
  unfold spend_vote. intros H. step_in H m Hm. step_in H s1 H1. trans s1.
  - destruct v; step_in H1 a Ha; injection H1 as <-; by split_and!.
  - destruct v; [step_in H p Hp|]; injection H as <-; by split_and!.
Qed.

Lemma add_children_rules id abs s s' : add_children_abs id abs s = Ok s' → same_rules s s'.
Proof. unfold add_children_abs. intros H. step_in H c Hc. step_in H r Hr. step_in H a Ha. injection H as <-. by split_and!. Qed.

Lemma hf20_vote_rules find_msb64 o s s' : hf20_vote_evaluator find_msb64 o s = Ok s' → same_rules s s'.
Proof.
  intros H. unfold hf20_vote_evaluator in H. step_in H cid Hid. step_in H c Hc. step_in H a Ha. step_in H p Hp.
  step_in H u1 Hu1. step_in H u2 Hu2. step_in H t Ht. destruct (_ =? _).
  { unfold late_vote in H. destruct (clear_votes s); [by injection H as <-|].
    case_match; [|step_in H u Hu]; injection H as <-; by split_and!. }
  step_in H u3 Hu3. cbv zeta in H. step_in H u4 Hu4. step_in H u5 Hu5. step_in H m Hm. step_in H u6 Hu6.
  step_in H used Hus. step_in H u7 Hu7. step_in H abs Habs. set (s1 := set_core _ s) in *.
  assert (same_rules s s1) as Hs1 by (by split_and!). etransitivity; [exact Hs1|]. clear Hs1.
  destruct (cvotes s !! _) as [v|].
  - unfold hf20_change_vote in H. step_in H w1 Hw1. step_in H w2 Hw2. cbv zeta in H. step_in H s2 Hs2. step_in H c2 Hc2.
    step_in H r Hr. step_in H s3 Hs3. injection H as <-. apply spend_vote_rules in Hs2. apply add_children_rules in Hs3.
    trans s2; [done|]. trans (put_comment cid (set_rshares r c2) s2); [by split_and!|]. trans s3; [done|by split_and!].
  - unfold hf20_first_vote in H. step_in H w1 Hw1. cbv zeta in H. step_in H s2 Hs2. step_in H c2 Hc2.
    step_in H r Hr. step_in H s3 Hs3. step_in H c3 Hc3. step_in H w Hw. apply spend_vote_rules in Hs2. apply add_children_rules in Hs3.
    trans s2; [done|]. trans (put_comment cid (set_rshares r c2) s2); [by split_and!|]. trans s3; [done|].
    destruct (w.2 =? 0); injection H as <-; by split_and!.
Qed.

Inductive content_op : Type :=
| do_comment (o : comment_operation)
| do_delete (o : delete_comment_operation)
| do_options (o : comment_options_operation)
| do_vote (o : vote_operation).

Section Sequences.

Context (find_msb64 : Z → Z) `{Hmsb : !FindMsb64 find_msb64} (is_utf8 : string → bool) (edit_body : string → string → string).

(** Options are validated before they are applied. *)
Definition run_content_op (s : social) (op : content_op) : res social :=
  match op with
  | do_comment o => comment_apply is_utf8 edit_body o s
  | do_delete o => delete_comment_apply o s
  | do_options o => _ ← comment_options_validate is_utf8 o; comment_options_apply o s
  | do_vote o => hf20_vote_evaluator find_msb64 o s
  end.

Definition content_op_typed (op : content_op) : Prop :=
  match op with do_options o => options_typed o | _ => True end.

Lemma voting_ok_names s s' :
  account_names s' = account_names s → get_reward_fund s' = get_reward_fund s → voting_ok s → voting_ok s'.
Proof. intros En Ef []. split; by rewrite ?En, ?Ef. Qed.

Lemma run_content_op_ok op s s' :
  content_ok s → voting_ok s → hf freezone_HARDFORK_0_17 s = true → content_op_typed op → run_content_op s op = Ok s' →
  content_ok s' ∧ voting_ok s' ∧ hf freezone_HARDFORK_0_17 s' = true.
Proof.
  intros Hok Hvo Hhf Ht H.
  assert (content_ok s' ∧ same_voters s s' → content_ok s' ∧ voting_ok s' ∧ hf freezone_HARDFORK_0_17 s' = true) as Hcut.
  { intros (H1 & En & Ef & Ec). split_and!; [done|by eapply voting_ok_names|unfold hf; by rewrite Ec]. }
  destruct op as [o|o|o|o]; cbn [run_content_op] in H.
  - apply Hcut. by eapply comment_apply_ok.
  - apply Hcut. by eapply delete_comment_ok.
  - step_in H u Hu. destruct u. apply Hcut. by eapply comment_options_ok.
  - pose proof (hf20_vote_rules _ _ _ _ H) as (En & Efn & Efi & Eh). split_and!; [by eapply hf20_vote_ok| |].
    + eapply voting_ok_names; [done|unfold get_reward_fund; by rewrite Efn, Efi|done].
    + unfold hf, has_hardfork in *. by rewrite Eh.
Qed.

Lemma run_content_ops_ok ops s s' :
  content_ok s → voting_ok s → hf freezone_HARDFORK_0_17 s = true → Forall content_op_typed ops → res_fold run_content_op s ops = Ok s' →
  content_ok s' ∧ voting_ok s' ∧ hf freezone_HARDFORK_0_17 s' = true.
Proof.
  intros Hok Hvo Hhf Ht H. rewrite Forall_forall in Ht.
  eapply (res_fold_ind (λ s, content_ok s ∧ voting_ok s ∧ hf freezone_HARDFORK_0_17 s = true)) in H; [done..|].
  intros s1 op s2 Hin (H1 & H2 & H3) Hs. by eapply run_content_op_ok; eauto.
Qed.

(** C10: the votes on a comment are counted exactly.  After any sequence of
    posts, edits, deletions, changes of options and votes under the rules of
    hardforks 20 to 22, the net shares of every comment that can still be paid
    are the sum of the shares of the votes on it, and the weights of the votes
    are nonnegative and add up to at most the total weight that curation
    rewards are divided by, which has not wrapped around. *)
Theorem vote_tallies_exact ops s s' id c :
  content_ok s → voting_ok s → hf freezone_HARDFORK_0_17 s = true → Forall content_op_typed ops → res_fold run_content_op s ops = Ok s' →
  comments s' !! id = Some c → open c →
  net_rshares (cm_rshares c) = vote_total vt_rshares id (cvotes s')
  ∧ 0 <= vote_total vt_weight id (cvotes s') <= total_vote_weight (cm_rshares c)
  ∧ total_vote_weight (cm_rshares c) < 2 ^ 64.
Proof.
  intros Hok Hvo Hhf Ht H Hc Ho. destruct (run_content_ops_ok _ _ _ Hok Hvo Hhf Ht H) as (Hok' & Hvo' & _).
  pose proof (few_votes id s' Hok' Hvo') as Hfew. destruct (ok_tally _ _ Hok' _ _ Hc ltac:(done) Ho).
  pose proof (weights_nonneg _ _ id Hok'). unfold max_weight in *. split_and!; lia.
Qed.

End Sequences.

(** ** A sample *)

Definition sample_bar (v : Z) : manabar := Manabar v 1000000.
Definition sample_stake (v : Z) : mana_account := ManaAccount v 0 0 time_point_sec_maximum 0 0 0 (sample_bar v) (sample_bar (v / 4)).
Definition sample_voter (v : Z) : account :=
  Account 0 0 (SbdAccount 0 (U128 0 0) 0 0) (SbdAccount 0 (U128 0 0) 0 0) 0 0 0 0 0 (sample_stake v) 0 "" [0; 0; 0; 0] 0 true.
Definition sample_time : Z := 1000000.
Definition sample_gpo (t : Z) : global_properties := GPO 100 t 100000000 1000000 0 0 1000000 2000000000000 0 0 0 0 10000 50 432000 2500.
Definition sample_core : db :=
  DB {["alice" := sample_voter 1000000000000; "bob" := sample_voter 1000000000000; "carol" := sample_voter 0]} ∅ ∅ ∅ ∅ ∅ ∅ ∅ ∅ ∅
    {[0 := 5000000]} (Staking ∅ ∅ (U128 0 0) ∅ ∅ ∅ 0) 0 (sample_gpo sample_time)
    (Price (Asset 1000 SBD_SYMBOL) (Asset 2000 freezone_SYMBOL)) 23.
Definition sample_poster (i : Z) : poster := Poster i 0 0 0 0 0 0 0 0.
Definition sample_fund : fund_info :=
  FundInfo (U128 0 1000000000) sample_time (U128 0 2000000000000) 5000 convergent_linear convergent_square_root.
Definition sample_empty : social :=
  Social sample_core {["alice" := sample_poster 1; "bob" := sample_poster 2; "carol" := sample_poster 3]}
    {[1 := "alice"; 2 := "bob"; 3 := "carol"]} ∅ ∅ ∅ ∅ ∅ {["post" := 0]} {[0 := sample_fund]} ∅ ∅ 300 (U128 0 0) 0 true false.

Definition at_time (t : Z) (s : social) : social := set_core (set_gpo (sample_gpo t) (core s)) s.
Definition sample_do : social → content_op → res social := run_content_op Z.log2 (λ _, true) (λ _ b, b).

(** Alice has posted, ten minutes ago. *)
Definition sample_posted : social :=
  at_time (sample_time + 600) (value_of sample_empty (sample_do sample_empty (do_comment (CommentOp "" "cat" "alice" "hello" "t" "b" "")))).

(** Bob votes for it. *)
Definition sample_vote : content_op := do_vote (VoteOp "bob" "alice" "hello" 10000).
Definition sample_voted : social := value_of sample_posted (sample_do sample_posted sample_vote).

Definition sample_ok (s : social) : Prop := content_ok s ∧ voting_ok s ∧ hf freezone_HARDFORK_0_17 s = true.

Lemma sample_empty_ok : sample_ok sample_empty.
Proof.
  split_and!; [split| |done].
  - intros k v Hk. cbn in Hk. by rewrite lookup_empty in Hk.
  - intros id c Hc. cbn in Hc. by rewrite lookup_empty in Hc.
  - intros id c Hc. cbn in Hc. by rewrite lookup_empty in Hc.
  - intros id c Hc. cbn in Hc. by rewrite lookup_empty in Hc.
  - intros n p Hp. assert (map_Forall (λ _ p, is_Some (account_names sample_empty !! ac_id p)) (posters sample_empty)) as H
      by (apply (bool_decide_unpack _); vm_compute; exact I). exact (H n p Hp).
  - cbn. lia.
  - split; [|vm_compute; done]. exists (0, sample_fund). split_and!; [by vm_compute|by right|]. split; [split; vm_compute; split; congruence|vm_compute; done].
Qed.

Lemma at_time_ok t s : processed_hardforks (core s) = 23 → sample_ok s → sample_ok (at_time t s).
Proof.
  intros Hh (H1 & [H2 H3] & H4). split_and!; [by eapply content_ok_frame|by split|]. unfold hf, has_hardfork. cbn. by rewrite Hh.
Qed.

Lemma sample_step s op s' : sample_ok s → content_op_typed op → sample_do s op = Ok s' → sample_ok s'.
Proof. intros (H1 & H2 & H3) Ht H. by eapply (run_content_op_ok Z.log2). Qed.

Lemma sample_posted_ok : sample_ok sample_posted.
Proof.
  apply at_time_ok; [by vm_compute|]. eapply (sample_step _ (do_comment _)); [apply sample_empty_ok|exact I|].
  apply value_of_Ok. vm_compute. reflexivity.
Qed.

Lemma sample_vote_run : sample_do sample_posted sample_vote = Ok sample_voted.
Proof. apply value_of_Ok. vm_compute. reflexivity. Qed.

Lemma sample_voted_run : res_fold sample_do sample_posted [sample_vote] = Ok sample_voted.
Proof. cbn [res_fold]. rewrite sample_vote_run, Ok_bind. reflexivity. Qed.

Lemma sample_voted_ok : sample_ok sample_voted.
Proof. exact (sample_step _ sample_vote _ sample_posted_ok I sample_vote_run). Qed.

Lemma vote_tallies_exact_witness :
  ∃ c, comments sample_voted !! 0 = Some c ∧ 0 < net_rshares (cm_rshares c)
    ∧ net_rshares (cm_rshares c) = vote_total vt_rshares 0 (cvotes sample_voted)
    ∧ 0 <= vote_total vt_weight 0 (cvotes sample_voted) <= total_vote_weight (cm_rshares c)
    ∧ total_vote_weight (cm_rshares c) < 2 ^ 64.
Proof.
  destruct sample_posted_ok as (H1 & H2 & H3).
  destruct (comments sample_voted !! 0) as [c|] eqn:E; [|vm_compute in E; discriminate].
  assert (bool_decide (0 < net_rshares (cm_rshares c)) && bool_decide (open c) = true) as Hc.
  { pose proof (f_equal (λ o, match o with Some c => bool_decide (0 < net_rshares (cm_rshares c)) && bool_decide (open c) | None => true end) E) as F.
    cbn beta iota in F. rewrite <- F. vm_compute. reflexivity. }
  apply andb_true_iff in Hc as [Hc1%bool_decide_eq_true Hc2%bool_decide_eq_true].
  exists c. split; [done|]. split; [done|].
  exact (vote_tallies_exact Z.log2 (λ _, true) (λ _ b, b) [sample_vote] sample_posted sample_voted 0 c H1 H2 H3
    (Forall_cons_2 content_op_typed sample_vote [] I (Forall_nil_2 _)) sample_voted_run E Hc2).
Defined.
