(* ===== verification/CommentPayouts.v ===== *)
(** * Payouts come out of the reward fund

    The payout of comments of Cashout.v between hardfork 17 and the hardfork of
    tokens: what curators, beneficiaries and authors receive is charged to the
    reward fund, no more than the fund holds is paid, and every comment that
    is due is closed. *)

From S2P Require Import Prelude Config AccountName Uint128 SafeInt AssetSymbol Asset Manabar Reward MapSum State Ledger Votes Vesting.
From stdpp Require Import gmap strings sorting.
From S2P Require Import Payouts Funds Content Voting Cashout Curation.
#[local] Open Scope Z_scope.

(** ** The vesting pools and the reward funds *)

Definition pools (d : db) : Z * Z * Z * Z * gmap Z Z :=
  (total_vesting_fund_freezone (gpo d), total_vesting_shares (gpo d), pending_rewarded_vesting_freezone (gpo d),
   pending_rewarded_vesting_shares (gpo d), reward_funds d).

Lemma pools_modify_balance n delta c d d' : modify_balance n delta c d = Ok d' → pools d' = pools d.
Proof.
  unfold modify_balance. intros H. step_in H a Ha. destruct (_ =? _).
  { step_in H b Hb. step_in H u Hu. by injection H as <-. }
  destruct (_ =? _).
  { apply bind_Ok in H as ([s' d1] & H1 & H). apply (modify_sbd_spec 0) in H1 as (sb & v & -> & _). by injection H as <-. }
  destruct (_ =? _); [|done]. step_in H b Hb. step_in H u Hu. by injection H as <-.
Qed.

Lemma pools_adjust_supply delta d d' : adjust_supply delta false d = Ok d' → pools d' = pools d.
Proof.
  unfold adjust_supply. intros H. destruct (space _).
  - cbv zeta in H. cbn [andb] in H. destruct (_ =? _).
    + step_in H nv Hnv. injection Hnv as <-. step_in H dv Hdv. step_in H s Hs. step_in H v Hv. step_in H f Hf. step_in H u Hu.
      injection H as <-. apply safe_add_value in Hf as ->. unfold pools. cbn. by rewrite Z.add_0_r.
    + destruct (_ =? _); [|done]. step_in H sb Hsb. step_in H x Hx. step_in H v Hv. step_in H u Hu. by injection H as <-.
  - step_in H t Ht. step_in H v Hv. step_in H u Hu. by injection H as <-.
Qed.

Lemma pools_adjust_balance n delta d d' : adjust_balance n delta d = Ok d' → pools d' = pools d.
Proof.
  unfold adjust_balance. intros H. step_in H u Hu. destruct (space _); [by eapply pools_modify_balance|].
  case_decide; [step_in H nd Hnd; by eapply pools_adjust_supply|]. step_in H m Hm. by injection H as <-.
Qed.

Lemma pools_adjust_reward_balance n vd sd b d d' : adjust_reward_balance n vd sd b d = Ok d' → pools d' = pools d.
Proof.
  unfold adjust_reward_balance. intros H. step_in H u Hu. destruct (space _).
  - unfold modify_reward_balance in H. step_in H a Ha.
    destruct (_ =? _); [destruct (_ =? _)|destruct (_ =? _); [|done]];
      repeat (let x := fresh in let Hx := fresh in step_in H x Hx); by injection H as <-.
  - case_decide; [step_in H nd Hnd; by eapply pools_adjust_supply|]. step_in H m Hm. by injection H as <-.
Qed.

Lemma pools_create_sbd n fz b d r d' : create_sbd n fz b d = Ok (r, d') → pools d' = pools d.
Proof.
  unfold create_sbd. intros H. destruct (_ =? _); [by injection H as _ <-|]. destruct (negb _).
  - step_in H x Hx. step_in H ts Hts. step_in H tf Htf. step_in H sb Hsb. step_in H d1 H1. step_in H m Hm. step_in H d2 H2. step_in H d3 H3.
    injection H as _ <-. apply pools_adjust_supply in H2, H3. rewrite H3, H2.
    destruct b; step_in H1 d0 H0; [apply pools_adjust_reward_balance in H0, H1|apply pools_adjust_balance in H0, H1]; congruence.
  - step_in H d1 H1. injection H as _ <-. by eapply pools_adjust_balance.
Qed.

(** ** Buying shares with rewards *)

Definition reward_fund_total (d : db) : Z := total_vesting_fund_freezone (gpo d) + pending_rewarded_vesting_freezone (gpo d).
Definition reward_shares_total (d : db) : Z := total_vesting_shares (gpo d) + pending_rewarded_vesting_shares (gpo d).

(** A share costs at most one unit of the token, and [R] tokens buy an amount
    of shares that fits in 64 bits. *)
Record share_price_ok (R : Z) (d : db) : Prop := SharePriceOk {
  sp_limit : 0 <= R < 2 ^ 63;
  sp_fund : 0 <= total_vesting_fund_freezone (gpo d) < 2 ^ 63 ∧ 0 <= pending_rewarded_vesting_freezone (gpo d);
  sp_shares : 0 <= total_vesting_shares (gpo d) < 2 ^ 63 ∧ 0 <= pending_rewarded_vesting_shares (gpo d);
  sp_cheap : 0 < reward_fund_total d <= reward_shares_total d;
  sp_fits : R * reward_shares_total d < 2 ^ 63 * reward_fund_total d
}.

Lemma share_price_pools R d d' : pools d' = pools d → share_price_ok R d → share_price_ok R d'.
Proof.
  unfold pools. intros E. injection E as E1 E2 E3 E4 _.
  intros []. split; unfold reward_fund_total, reward_shares_total in *; rewrite ?E1, ?E2, ?E3, ?E4; done.
Qed.

Lemma safe_add_small a b c : 0 <= a < 2 ^ 63 → 0 <= b → safe_add a b = Ok c → c = a + b ∧ 0 <= c < 2 ^ 63.
Proof.
  intros Ha Hb H. destruct (decide (b = 0)) as [->|]; [apply safe_add_value in H; lia|].
  pose proof (safe_add_upper a b c ltac:(lia) H). apply safe_add_value in H. lia.
Qed.

(** What [x] tokens buy. *)
Lemma bought_shares R d p x nv :
  share_price_ok R d → 0 <= x <= R → get_reward_vesting_share_price (gpo d) = Ok p →
  asset_mul_price (Asset x freezone_SYMBOL) p = Ok nv →
  amount nv = x * reward_shares_total d / reward_fund_total d ∧ x <= amount nv ∧ symbol nv = VESTS_SYMBOL.
Proof.
  intros [Hl [Hf1 Hf2] [Hs1 Hs2] Hc Hfit] Hx Hp Hnv. unfold get_reward_vesting_share_price in Hp.
  step_in Hp S HS. step_in Hp F HF. apply make_price_Ok in Hp as ->.
  apply safe_add_small in HS as [ES HS]; [|done..]. apply safe_add_small in HF as [EF HF]; [|done..].
  change (S = reward_shares_total d) in ES. change (F = reward_fund_total d) in EF. rewrite <- ES, <- EF in *.
  unfold asset_mul_price in Hnv. cbn [symbol amount base quote] in Hnv. change (freezone_SYMBOL =? VESTS_SYMBOL) with false in Hnv.
  rewrite Z.eqb_refl in Hnv. cbn iota in Hnv. step_in Hnv v Hv. injection Hnv as <-. cbn [amount symbol].
  unfold convert_amount in Hv. step_in Hv u1 Hu1. cbv zeta in Hv. step_in Hv u2 Hu2. injection Hv as <-.
  assert (x * S <= R * S) as Hle by (apply Z.mul_le_mono_nonneg_r; lia).
  assert (0 <= x * S) by (apply Z.mul_nonneg_nonneg; lia).
  assert (2 ^ 63 * F < 2 ^ 128) as H128 by (int_unfold; lia).
  unfold u128. rewrite (wrapu_small 128 x), (wrapu_small 128 S), (wrapu_small 128 F) by (unfold in_u; int_unfold; lia).
  rewrite (wrapu_small 128 (x * S)) by (unfold in_u; lia).
  assert (x <= x * S / F < 2 ^ 63) as Hq.
  { split; [apply Z.div_le_lower_bound; [lia|]|apply Z.div_lt_upper_bound; [lia|lia]].
    rewrite Z.mul_comm. apply Z.mul_le_mono_nonneg_l; lia. }
  unfold u64, i64. rewrite wrapu_small by (unfold in_u; lia). rewrite wraps_small by (unfold in_s; lia). split_and!; [done|lia|done].
Qed.

(** Paying [x] tokens as shares. *)
Lemma gap_vest R s n x d nv d' :
  share_price_ok R d → tokens_wf d → 0 <= x <= R → create_vesting n (Asset x freezone_SYMBOL) true d = Ok (nv, d') →
  gap s d' = gap s d + amount_of s (Asset x freezone_SYMBOL) ∧ share_price_ok R d' ∧ reward_funds d' = reward_funds d ∧ ledger_frame d d'.
Proof.
  intros Hsp Hwf Hx H. pose proof (frame_create_vesting _ _ _ _ _ _ H) as Hfr. pose proof H as H0.
  unfold create_vesting in H. change (space (symbol (Asset x freezone_SYMBOL))) with legacy_space in H. cbv iota in H.
  step_in H u Hu. step_in H p Hp. step_in H nv' Hnv. step_in H d1 H1. step_in H g Hg. step_in H d2 H2. injection H as -> <-. injection H2 as <-.
  destruct (bought_shares R d p x nv Hsp Hx Hp Hnv) as (Ev & Hle & Esym).
  pose proof (pools_adjust_reward_balance _ _ _ _ _ _ H1) as Ep. pose proof (share_price_pools R _ _ Ep Hsp) as Hsp1.
  unfold add_global_vesting in Hg. step_in Hg ps Hps. step_in Hg pv Hpv. injection Hg as <-.
  apply safe_add_value in Hps as ->, Hpv as ->. cbn [amount] in *.
  unfold pools in Ep. injection Ep as E1 E2 E3 E4 E5.
  assert (gap s d1 = gap s d + if amount nv =? 0 then amount_of s (Asset x freezone_SYMBOL) else amount_of s nv) as Hg1.
  { apply (gap_adjust_reward_balance s) in H1; [done|done|discriminate..]. }
  split_and!; [|destruct Hsp1 as [Hl [Hf1 Hf2] [Hs1 Hs2] Hc Hfit]|exact E5|exact Hfr].
  - rewrite gap_set_vesting. rewrite Hg1. destruct (Z.eqb_spec (amount nv) 0) as [Hz|_].
    + assert (x = 0) as -> by lia. rewrite Hz. unfold amount_of. cbn [symbol amount]. repeat (destruct (_ =? s)); lia.
    + rewrite <- (amount_of_eta s nv VESTS_SYMBOL) by done. unfold amount_of. cbn [symbol amount]. repeat (destruct (_ =? s)); lia.
  - unfold reward_fund_total, reward_shares_total in *. cbn [set_gpo gpo set_vesting total_vesting_fund_freezone total_vesting_shares
      pending_rewarded_vesting_freezone pending_rewarded_vesting_shares]. rewrite E1, E2, E3, E4 in *.
    set (F := total_vesting_fund_freezone (gpo d) + pending_rewarded_vesting_freezone (gpo d)) in *.
    set (S := total_vesting_shares (gpo d) + pending_rewarded_vesting_shares (gpo d)) in *.
    split; unfold reward_fund_total, reward_shares_total;
      cbn [set_gpo gpo set_vesting total_vesting_fund_freezone total_vesting_shares
      pending_rewarded_vesting_freezone pending_rewarded_vesting_shares]; rewrite ?E1, ?E2, ?E3, ?E4; try lia.
    pose proof (Z.mul_div_le (x * S) F ltac:(lia)). rewrite <- Ev in *. nia.
Qed.

(** ** Payments *)

Definition feed_symbols (d : db) : Prop :=
  symbol (Asset.base (current_median_history d)) = SBD_SYMBOL ∧ symbol (quote (current_median_history d)) = freezone_SYMBOL.

(** A state in which rewards of up to [R] tokens can be paid. *)
Record ready (R : Z) (d : db) : Prop := Ready {
  rd_price : share_price_ok R d;
  rd_tokens : tokens_wf d;
  rd_feed : feed_symbols d
}.

(** [x] tokens more are held than were issued, and the reward funds are as
    before. *)
Record pays (R x : Z) (d d' : db) : Prop := Pays {
  py_ready : ready R d';
  py_gap : ∀ y, gap y d' = gap y d + amount_of y (Asset x freezone_SYMBOL);
  py_funds : reward_funds d' = reward_funds d;
  py_frame : ledger_frame d d'
}.

Lemma pays_nothing R d : ready R d → pays R 0 d d.
Proof. intros H. split; [done| |done|done]. intros y. rewrite amount_of_zero. lia. Qed.

Lemma pays_trans R x y d d1 d2 : pays R x d d1 → pays R y d1 d2 → pays R (x + y) d d2.
Proof.
  intros [_ G1 F1 L1] [R2 G2 F2 L2]. split; [done| |congruence|by etrans].
  intros z. rewrite G2, G1, amount_of_add. lia.
Qed.

Lemma feed_frame d d' : ledger_frame d d' → feed_symbols d → feed_symbols d'.
Proof. intros Hf. unfold feed_symbols. by rewrite (lf_median _ _ Hf). Qed.

Lemma ready_pools R d d' : pools d' = pools d → ledger_frame d d' → ready R d → ready R d'.
Proof.
  intros Hp Hf []. split; [by eapply share_price_pools|by eapply tokens_wf_frame|by eapply feed_frame].
Qed.

Lemma pools_funds d d' : pools d' = pools d → reward_funds d' = reward_funds d.
Proof. unfold pools. intros E. by injection E. Qed.

Lemma pays_vest R n x d nv d' :
  ready R d → 0 <= x <= R → create_vesting n (Asset x freezone_SYMBOL) true d = Ok (nv, d') → pays R x d d'.
Proof.
  intros [Hp Ht Hf] Hx H. destruct (gap_vest R 0 n x d nv d' Hp Ht Hx H) as (_ & Hp' & Hfu & Hfr).
  split; [|intros y; by destruct (gap_vest R y n x d nv d' Hp Ht Hx H)|done|done].
  split; [done|by eapply tokens_wf_frame|by eapply feed_frame].
Qed.

Lemma frame_create_sbd n fz b d r d' : create_sbd n fz b d = Ok (r, d') → ledger_frame d d'.
Proof.
  unfold create_sbd. intros H. destruct (_ =? _); [by injection H as _ <-|]. destruct (negb _).
  - step_in H x Hx. step_in H ts Hts. step_in H tf Htf. step_in H sb Hsb. step_in H d1 H1. step_in H m Hm. step_in H d2 H2. step_in H d3 H3.
    injection H as _ <-. trans d1; [destruct b; step_in H1 d0 H0; trans d0|trans d2]; eauto with freezone.
  - step_in H d1 H1. injection H as _ <-. eauto with freezone.
Qed.

Lemma pays_sbd R n x d r d' : ready R d → create_sbd n (Asset x freezone_SYMBOL) true d = Ok (r, d') → pays R x d d'.
Proof.
  intros Hr H. pose proof (pools_create_sbd _ _ _ _ _ _ H) as Hp. pose proof (frame_create_sbd _ _ _ _ _ _ H) as Hf.
  split; [by eapply ready_pools| |by apply pools_funds|done].
  destruct Hr as [_ _ [Hb Hq]]. intros y. eapply (gap_create_sbd y) in H; [done|done| |].
  - by destruct (Asset.base _); cbn in *; subst.
  - by destruct (quote _); cbn in *; subst.
Qed.

(** Tokens given to the treasury are exchanged for SBD. *)
Lemma pays_treasury R n x sbd minus d d1 d2 d3 :
  ready R d → asset_mul_price (Asset x freezone_SYMBOL) (current_median_history d) = Ok sbd →
  adjust_balance n sbd d = Ok d1 → safe_neg x = Ok minus → adjust_supply (Asset minus freezone_SYMBOL) false d1 = Ok d2 →
  adjust_supply sbd false d2 = Ok d3 → pays R x d d3.
Proof.
  intros Hr Hsbd H1 Hm H2 H3. apply safe_neg_value in Hm as ->.
  assert (ledger_frame d d3) as Hf by (trans d1; [by eapply frame_adjust_balance|trans d2; by eapply frame_adjust_supply]).
  pose proof (pools_adjust_balance _ _ _ _ H1) as P1. pose proof (pools_adjust_supply _ _ _ H2) as P2. pose proof (pools_adjust_supply _ _ _ H3) as P3.
  assert (pools d3 = pools d) as P by congruence.
  split; [by eapply ready_pools| |by apply pools_funds|done].
  intros y. apply (gap_adjust_balance y) in H1. apply (gap_adjust_supply y) in H2, H3.
  rewrite H3, H2, H1. unfold amount_of. cbn [symbol amount]. repeat (destruct (_ =? y)); lia.
Qed.

(** ** Payments of a comment's reward *)

(** [x] tokens were paid; comments, votes and the rules are as before. *)
Record rewarded (R x : Z) (s s' : social) : Prop := Rewarded {
  rw_pays : pays R x (core s) (core s');
  rw_same : same_content s s';
  rw_names : fund_names s' = fund_names s;
  rw_infos : fund_infos s' = fund_infos s;
  rw_build : clear_votes s' = clear_votes s
}.

Lemma rewarded_nothing R s : ready R (core s) → rewarded R 0 s s.
Proof. intros H. by split; [apply pays_nothing|..]. Qed.

Lemma rewarded_trans R x y s s1 s2 : rewarded R x s s1 → rewarded R y s1 s2 → rewarded R (x + y) s s2.
Proof. intros [] []. split; [by eapply pays_trans|by etrans|congruence..]. Qed.

Lemma rewarded_core R x d s : pays R x (core s) d → rewarded R x s (set_core d s).
Proof. intros H. split; [done| |done..]. apply same_content_core, H. Qed.

Lemma rewarded_poster R x n p p' s s' :
  rewarded R x s s' → posters s' !! n = Some p → ac_id p' = ac_id p → rewarded R x s (put_poster n p' s').
Proof. intros [] Hp E. split; [done| |done..]. etrans; [done|by eapply same_content_poster]. Qed.

Lemma rewarded_ready R x s s' : rewarded R x s s' → ready R (core s').
Proof. intros H. apply H. Qed.

Lemma rewarded_hf R x s s' h : rewarded R x s s' → hf h s' = hf h s.
Proof. intros H. unfold hf, has_hardfork. by rewrite (lf_hardforks _ _ (py_frame _ _ _ _ (rw_pays _ _ _ _ H))). Qed.

Lemma set_core_of_vest R n x b d s s' :
  b = true → ready R d → 0 <= x <= R → set_core_of (create_vesting n (Asset x freezone_SYMBOL) b d) s = Ok s' →
  ∃ d', s' = set_core d' s ∧ pays R x d d'.
Proof.
  intros -> Hr Hx H. unfold set_core_of in H. step_in H y Hy. injection H as <-. destruct y as [nv d']. exists d'. split; [done|].
  by eapply pays_vest.
Qed.

(** ** Curators *)

Lemma curator_claim_spec m T x :
  0 <= m < 2 ^ 63 → 0 <= row_weight x <= T → 0 < T < 2 ^ 64 → curator_claim m T x = Ok (m * row_weight x / T).
Proof.
  intros Hm Hw HT. unfold curator_claim. set (w := row_weight x) in *. clearbody w.
  destruct (of_i64_nonneg m Hm) as [W1 E1]. destruct (of_u64_spec w) as [W2 E2]; [unfold in_u; lia|].
  destruct (of_u64_spec T) as [W3 E3]; [unfold in_u; lia|].
  destruct (mul_assign_exact _ _ W1 W2) as (p & -> & Wp & Ep); [rewrite E1, E2; nia|]. rewrite Ok_bind.
  destruct (div_assign_spec p _ Wp W3) as (q & -> & Wq & Eq); [lia|]. rewrite Ok_bind, <- E1, <- E2, <- Ep, <- E3, <- Eq.
  apply to_uint64_spec; [done|]. rewrite Eq, E3, Ep, E1, E2. apply Z.div_lt_upper_bound; nia.
Qed.

Lemma pay_curator_spec R m T u s x u' s' :
  ready R (core s) → hf freezone_HARDFORK_0_17 s = true → 0 <= m <= R → 0 <= row_weight x <= T → 0 < T < 2 ^ 64 →
  pay_curator m T (u, s) x = Ok (u', s') →
  u' = u - m * row_weight x / T ∧ rewarded R (m * row_weight x / T) s s'.
Proof.
  intros Hr Hhf Hm Hw HT H. pose proof (sp_limit _ _ (rd_price _ _ Hr)) as HR. unfold pay_curator in H.
  rewrite curator_claim_spec in H by lia. rewrite Ok_bind in H. set (k := m * row_weight x / T) in *.
  assert (0 <= k <= m) as Hk by (split; [apply Z.div_pos; nia|apply Z.div_le_upper_bound; nia]).
  rewrite i64_small in H by (unfold in_s; lia). destruct (Z.ltb_spec 0 k).
  - step_in H v Hv. apply safe_sub_value in Hv as ->. step_in H n Hn. step_in H s1 H1. step_in H p Hp. step_in H c Hc.
    injection H as <- <-. apply (set_core_of_vest R) in H1 as (d' & -> & Hd); [|done|done|lia].
    split; [done|]. apply from_option_exn_Ok in Hp. eapply rewarded_poster; [by apply rewarded_core|exact Hp|done].
  - injection H as <- <-. assert (k = 0) as -> by lia. split; [lia|by apply rewarded_nothing].
Qed.

Lemma pay_curator_list R m T l u s u' s' :
  ready R (core s) → hf freezone_HARDFORK_0_17 s = true → 0 <= m <= R → 0 < T < 2 ^ 64 → Forall (λ x, 0 <= row_weight x <= T) l →
  res_fold (pay_curator m T) (u, s) l = Ok (u', s') →
  ∃ x, 0 <= x ∧ u' = u - x ∧ x * T <= m * zsum (row_weight <$> l) ∧ rewarded R x s s'.
Proof.
  intros Hr Hhf Hm HT Hl. revert u s Hr Hhf. induction Hl as [|x l Hx Hl IH]; intros u s Hr Hhf H.
  - injection H as <- <-. exists 0. split_and!; [done|lia|cbn; lia|by apply rewarded_nothing].
  - cbn [res_fold] in H. step_in H st Hst. destruct st as [u1 s1]. eapply pay_curator_spec in Hst as [-> Hs1]; [|done..].
    eapply IH in H as (y & Hy & -> & Hle & Hs'); [|by eapply rewarded_ready|by rewrite (rewarded_hf _ _ _ _ _ Hs1)].
    exists (m * row_weight x / T + y). pose proof (Z.mul_div_le (m * row_weight x) T ltac:(lia)).
    split_and!; [|lia| |by eapply rewarded_trans].
    + assert (0 <= m * row_weight x / T) by (apply Z.div_pos; nia). lia.
    + rewrite fmap_cons. unfold zsum in *. cbn [foldr]. lia.
Qed.

Lemma zsum_perm l l' : l ≡ₚ l' → zsum l = zsum l'.
Proof. unfold zsum. induction 1; cbn [foldr]; lia. Qed.

Lemma votes_on_total id s : zsum (row_weight <$> proxy_set id freezone_SYMBOL s) = vote_total vt_weight id (cvotes s).
Proof.
  unfold proxy_set. rewrite (zsum_perm _ _ (fmap_Permutation row_weight _ _ (merge_sort_Permutation _ _))).
  unfold votes_on, vote_total. rewrite msum_list. induction (map_to_list (cvotes s)) as [|x l IH]; [done|].
  rewrite filter_cons. cbn [foldr]. destruct (decide (x.1.1 = (id, freezone_SYMBOL))); [|rewrite <- IH; lia].
  rewrite fmap_cons. unfold zsum in *. cbn [foldr]. rewrite IH. done.
Qed.

Lemma zsum_all_nonneg l : Forall (λ y, 0 <= y) l → 0 <= zsum l.
Proof. unfold zsum. induction 1; cbn [foldr]; lia. Qed.

Lemma zsum_mem_le x l : Forall (λ y, 0 <= y) l → x ∈ l → x <= zsum l.
Proof.
  induction 1 as [|y l Hy Hl IH]; [by intros ?%not_elem_of_nil|]. unfold zsum in *. cbn [foldr].
  assert (0 <= foldr Z.add 0 l) by by apply zsum_all_nonneg. intros [->|Hx]%elem_of_cons; [lia|]. specialize (IH Hx). lia.
Qed.

Lemma proxy_weights id s :
  content_ok s → Forall (λ x, 0 <= row_weight x <= vote_total vt_weight id (cvotes s)) (proxy_set id freezone_SYMBOL s).
Proof.
  intros Hok. assert (Forall (λ y, 0 <= y) (row_weight <$> proxy_set id freezone_SYMBOL s)) as Hnn.
  { apply Forall_fmap, Forall_forall. intros [k v] Hx. unfold proxy_set, votes_on in Hx. rewrite merge_sort_Permutation in Hx.
    apply list_elem_of_filter in Hx as [_ Hx]. apply elem_of_map_to_list in Hx. by apply (ok_votes _ _ Hok k v). }
  rewrite <- votes_on_total. apply Forall_forall. intros x Hx. assert (row_weight x ∈ row_weight <$> proxy_set id freezone_SYMBOL s) as Hin
    by (apply list_elem_of_fmap; eauto).
  split; [by eapply Forall_forall in Hnn|by apply zsum_mem_le].
Qed.

(** No more than [m] tokens are paid, and what is not paid is accounted for. *)
Lemma pay_curators_spec R id c m s u m' s' :
  ready R (core s) → content_ok s → voting_ok s → hf freezone_HARDFORK_0_17 s = true →
  comments s !! id = Some c → open c → 0 <= m <= R →
  pay_curators id m s = Ok (u, m', s') → 0 <= u ∧ 0 <= m' ∧ u + m' <= m ∧ rewarded R m' s s'.
Proof.
  intros Hr Hok Hv Hhf Hc Ho Hm H. unfold pay_curators in H. rewrite (get_comment_Ok id c) in H by done. rewrite Ok_bind in H. cbv zeta in H.
  destruct (ok_tally _ _ Hok id c Hc ltac:(done) Ho) as [_ Hlow Hhigh _]. pose proof (few_votes id s Hok Hv) as Hfew.
  set (T := total_vote_weight (cm_rshares c)) in *. destruct (negb _).
  { step_in H z Hz. injection H as <- <- <-. apply safe_sub_value in Hz as ->. split_and!; [lia..|by apply rewarded_nothing]. }
  step_in H st Hst. destruct st as [v s1]. step_in H z Hz. injection H as <- <- <-. apply safe_sub_value in Hz as ->. cbn [fst] in *.
  destruct (Z.ltb_spec 0 T).
  - assert (max_weight * vote_total (λ _, 1) id (cvotes s) < 2 ^ 64) by (unfold max_weight in *; lia).
    eapply pay_curator_list in Hst as (x & Hx & -> & Hle & Hs); [|done..|lia|].
    + rewrite votes_on_total in Hle. assert (x <= m) by nia. replace (m - (m - x)) with x by lia. split_and!; [lia..|done].
    + eapply Forall_impl; [by apply proxy_weights|]. intros y Hy. cbn beta in Hy. lia.
  - injection Hst as <- <-. rewrite Z.sub_diag. split_and!; [lia..|by apply rewarded_nothing].
Qed.

(** ** Beneficiaries *)

(** A part of [x] in basis points. *)
Lemma share_of_spec x k p q : 0 <= x → 0 <= k <= freezone_100_PERCENT → safe_mul x k = Ok p → safe_div p freezone_100_PERCENT = Ok q →
  q = x * k / freezone_100_PERCENT ∧ 0 <= q <= x.
Proof.
  intros Hx Hk Hp Hq. apply safe_mul_value in Hp as ->. apply safe_div_value in Hq as [_ ->]. unfold freezone_100_PERCENT in *.
  rewrite Z.quot_div_nonneg by nia. split_and!; [done|apply Z.div_pos; nia|apply Z.div_le_upper_bound; nia].
Qed.

(** The part of [x] paid in SBD. *)
Lemma sbd_part_spec x k p q : 0 <= x → 0 <= k <= freezone_100_PERCENT → safe_mul x k = Ok p → safe_div p (2 * freezone_100_PERCENT) = Ok q →
  0 <= q <= x.
Proof.
  intros Hx Hk Hp Hq. apply safe_mul_value in Hp as ->. apply safe_div_value in Hq as [_ ->]. unfold freezone_100_PERCENT in *.
  rewrite Z.quot_div_nonneg by nia. split; [apply Z.div_pos; nia|apply Z.div_le_upper_bound; nia].
Qed.

Lemma pay_beneficiary_spec R percent A t s b t' s' :
  ready R (core s) → hf freezone_HARDFORK_0_17 s = true → 0 <= A <= R → 0 <= b.2 <= freezone_100_PERCENT →
  0 <= percent <= freezone_100_PERCENT → pay_beneficiary percent A (t, s) b = Ok (t', s') →
  t' = t + A * b.2 / freezone_100_PERCENT ∧ rewarded R (A * b.2 / freezone_100_PERCENT) s s'.
Proof.
  intros Hr Hhf HA Hb Hp H. unfold pay_beneficiary in H. step_in H m Hm. step_in H k Hk.
  destruct (share_of_spec A b.2 m k) as [Ek Hk0]; [lia|done..|]. rewrite <- Ek. clear Hm Hk Ek m.
  step_in H x Hx. step_in H ac Hac. step_in H s1 H1. step_in H tt Ht. injection H as <- <-. apply safe_add_value in Ht as ->. split; [done|].
  assert (∃ y, pays R y (core s) x.2 ∧ y + x.1 = k ∧ 0 <= x.1 <= R) as (y & Hy & Ey & Hx1).
  { clear Hac H1 s1. destruct (_ && _).
    - step_in Hx sbd Hsbd. step_in Hx d1 H1. step_in Hx mi Hmi. step_in Hx d2 H2. step_in Hx d3 H3. injection Hx as <-.
      exists k. split_and!; [|cbn; lia..]. by eapply pays_treasury.
    - destruct (hf freezone_HARDFORK_0_20 s).
      + step_in Hx p1 Hp1. step_in Hx sbd Hsbd. step_in Hx v Hv. step_in Hx a Ha. step_in Hx r Hr'. injection Hx as <-. destruct r as [r d'].
        apply safe_sub_value in Hv as ->. pose proof (sbd_part_spec _ _ _ _ (proj1 Hk0) Hp Hp1 Hsbd).
        exists sbd. cbn [fst snd]. split_and!; [by eapply pays_sbd|lia..].
      + injection Hx as <-. exists 0. cbn [fst snd]. split_and!; [by apply pays_nothing|lia..]. }
  apply (set_core_of_vest R) in H1 as (d' & -> & Hd); [|done|apply Hy|done].
  apply rewarded_core. rewrite <- Ey. by eapply pays_trans.
Qed.

Lemma pay_beneficiaries_spec R percent A l t s t' s' :
  ready R (core s) → hf freezone_HARDFORK_0_17 s = true → 0 <= A <= R → Forall (λ b : name * Z, 0 <= b.2) l →
  zsum l.*2 <= freezone_100_PERCENT → 0 <= percent <= freezone_100_PERCENT →
  res_fold (pay_beneficiary percent A) (t, s) l = Ok (t', s') →
  ∃ x, 0 <= x ∧ t' = t + x ∧ x * freezone_100_PERCENT <= A * zsum l.*2 ∧ rewarded R x s s'.
Proof.
  intros Hr Hhf HA Hl Hsum Hp. revert t s Hr Hhf. induction Hl as [|b l Hb Hl IH]; intros t s Hr Hhf H.
  - injection H as <- <-. exists 0. split_and!; [done|lia|cbn; lia|by apply rewarded_nothing].
  - rewrite fmap_cons in *. unfold zsum in *. cbn [foldr] in *. step_in H st Hst. destruct st as [t1 s1].
    assert (0 <= foldr Z.add 0 l.*2) by (apply zsum_all_nonneg, Forall_fmap, Hl).
    eapply pay_beneficiary_spec in Hst as [-> Hs1]; [|done..|lia|done].
    eapply IH in H as (y & Hy & -> & Hle & Hs'); [|lia|by eapply rewarded_ready|by rewrite (rewarded_hf _ _ _ _ _ Hs1)].
    exists (A * b.2 / freezone_100_PERCENT + y). unfold freezone_100_PERCENT in *. pose proof (Z.mul_div_le (A * b.2) 10000 ltac:(lia)).
    assert (0 <= A * b.2 / 10000) by (apply Z.div_pos; nia). split_and!; [lia..|by eapply rewarded_trans].
Qed.

(** ** The author *)

(** The same comment but for its payouts and shares. *)
Definition same_post (c c' : comment) : Prop := link c' = link c ∧ settings c' = settings c.

Lemma put_comment_twice id c c' s : put_comment id c (put_comment id c' s) = put_comment id c s.
Proof. unfold put_comment, set_comments. cbn [core posters account_names comments permlinks contents cvotes sst_beneficiaries fund_names
  fund_infos token_infos token_last_vote reverse_auction_seconds total_reward_shares2 next_comment_id clear_votes producing]. by rewrite insert_insert_eq. Qed.

Lemma get_put_comment id c s : get_comment_by_id id (put_comment id c s) = Ok c.
Proof. apply get_comment_Ok. cbn. apply lookup_insert_eq. Qed.

Lemma adjust_total_payout_spec id c a b v s s' :
  comments s !! id = Some c → adjust_total_payout id a b v s = Ok s' → ∃ p, s' = put_comment id (set_payouts p c) s.
Proof.
  intros Hc H. unfold adjust_total_payout in H. rewrite (get_comment_Ok id c), Ok_bind in H by done.
  step_in H t Ht. step_in H u Hu. step_in H w Hw. injection H as <-. eauto.
Qed.

Lemma pay_author_spec R id c A cur ben claimed s s' :
  ready R (core s) → hf freezone_HARDFORK_0_17 s = true → comments s !! id = Some c →
  0 <= percent_freezone_dollars (settings c) <= freezone_100_PERCENT → 0 <= A <= R →
  pay_author id A cur ben claimed s = Ok s' →
  ∃ s1 c', rewarded R A s s1 ∧ s' = put_comment id c' s1 ∧ same_post c c'.
Proof.
  intros Hr Hhf Hc Hp HA H. unfold pay_author in H. rewrite (get_comment_Ok id c), Ok_bind in H by done. cbv zeta in H. rewrite Hhf in H.
  step_in H m Hm. step_in H sbd Hsbd. step_in H v Hv. step_in H ac Hac. step_in H r Hr'. destruct r as [r d1]. cbn [fst snd] in H.
  step_in H s2 H2. pose proof (sbd_part_spec _ _ _ _ (proj1 HA) Hp Hm Hsbd) as Hpart. apply safe_sub_value in Hv as ->.
  pose proof (pays_sbd _ _ _ _ _ _ Hr Hr') as P1. apply (set_core_of_vest R) in H2 as (d2 & -> & P2); [|done|apply P1|lia].
  pose proof (pays_trans _ _ _ _ _ _ P1 P2) as P. replace (sbd + (A - sbd)) with A in P by lia. clear P1 P2 Hr'.
  step_in H li Hli. step_in H lv Hlv. step_in H cr Hcr. step_in H cv Hcv. step_in H bv Hbv. step_in H s3 H3.
  apply (adjust_total_payout_spec id c) in H3 as (po & ->); [|done]. step_in H x Hx. rewrite get_put_comment, Ok_bind in H.
  step_in H a Ha. rewrite put_comment_twice in H. step_in H p Hpo. step_in H a' Ha'. injection H as <-. apply from_option_exn_Ok in Hpo.
  eexists (put_poster _ _ (set_core d2 s)), _. split_and!; [eapply rewarded_poster; [by apply rewarded_core|exact Hpo|]|reflexivity|]; done.
Qed.

(** ** The reward of a comment *)

Lemma rewarded_comment R x s s' id : rewarded R x s s' → comments s' !! id = comments s !! id.
Proof. intros H. by rewrite (sc_comments _ _ (rw_same _ _ _ _ H)). Qed.

Lemma share_u64_spec reward percent p q x :
  0 <= reward < 2 ^ 63 → 0 <= percent <= freezone_100_PERCENT → mul_int (uint128_of_u64 reward) percent = Ok p →
  div_int p freezone_100_PERCENT = Ok q → to_uint64 q = Ok x → 0 <= x <= reward.
Proof.
  intros Hr Hp H1 H2 H3. unfold mul_int in H1. unfold div_int in H2.
  destruct (of_u64_spec reward) as [W1 E1]; [unfold in_u; lia|]. destruct (of_i64_nonneg percent) as [W2 E2]; [unfold freezone_100_PERCENT in *; lia|].
  destruct (of_i64_nonneg freezone_100_PERCENT) as [W3 E3]; [unfold freezone_100_PERCENT; lia|].
  destruct (mul_assign_exact _ _ W1 W2) as (p' & Hp' & Wp & Ep); [rewrite E1, E2; unfold freezone_100_PERCENT in *; nia|].
  rewrite Hp' in H1. injection H1 as <-. destruct (div_assign_spec p' _ Wp W3) as (q' & Hq' & Wq & Eq); [rewrite E3; unfold freezone_100_PERCENT; lia|].
  rewrite Hq' in H2. injection H2 as <-. rewrite E3, Ep, E1, E2 in Eq.
  assert (0 <= to_Z q' <= reward) as Hq.
  { rewrite Eq. unfold freezone_100_PERCENT in *. split; [apply Z.div_pos; nia|apply Z.div_le_upper_bound; nia]. }
  rewrite to_uint64_spec in H3 by (done || lia). by injection H3 as <-.
Qed.

(** The share of the fund that goes to curators is a share. *)
Definition percent_ok (s : social) : Prop :=
  ∀ f, get_reward_fund s = Ok f → 0 <= percent_curation_rewards f.2 <= freezone_100_PERCENT.

Lemma pay_reward_spec R id c reward forward s claimed s' :
  ready R (core s) → content_ok s → voting_ok s → percent_ok s → hf freezone_HARDFORK_0_17 s = true →
  comments s !! id = Some c → open c → 0 <= reward <= R → pay_reward id reward forward s = Ok (claimed, s') →
  0 <= claimed <= reward ∧ ∃ s1 c', rewarded R claimed s s1 ∧ s' = put_comment id c' s1 ∧ same_post c c'.
Proof.
  intros Hr Hok Hv Hpc Hhf Hc Ho Hrew H. pose proof (sp_limit _ _ (rd_price _ _ Hr)) as HR.
  destruct (ok_settings _ _ Hok id c Hc) as [(Hb & Hbsum & Hpd) _].
  unfold pay_reward in H. rewrite (get_comment_Ok id c), Ok_bind in H by done. unfold get_curation_rewards_percent in H. rewrite Hhf in H.
  step_in H percent Hpercent. step_in Hpercent f Hf. injection Hpercent as <-. step_in H p Hp. step_in H q Hq. step_in H cur Hcur. cbv zeta in H.
  assert (0 <= reward < 2 ^ 63) as Hrew63 by lia.
  pose proof (share_u64_spec _ _ _ _ _ Hrew63 (Hpc f Hf) Hp Hq Hcur) as Hc0. rewrite !i64_small in H by (unfold in_s; lia).
  step_in H au Hau. apply safe_sub_value in Hau as ->. step_in H pc Hpcu. destruct pc as [[u m] s1].
  destruct (pay_curators_spec R id c cur s u m s1 Hr Hok Hv Hhf Hc Ho ltac:(lia) Hpcu) as (Hu & Hm & Hum & P1).
  step_in H au Hau.
  assert (reward - cur <= au <= reward - cur + u) as Hau0.
  { destruct forward; [apply safe_add_value in Hau as ->; lia|injection Hau as <-; lia]. }
  step_in H cl Hcl. apply safe_add_value in Hcl as ->. step_in H bt Hbt. destruct bt as [tb s2].
  eapply pay_beneficiaries_spec in Hbt as (x & Hx & -> & Hxs & P2);
    [|by eapply rewarded_ready|by rewrite (rewarded_hf _ _ _ _ _ P1)|lia|done..].
  assert (x <= au) by (unfold freezone_100_PERCENT in *; nia).
  step_in H rest Hrest. apply safe_sub_value in Hrest as ->. step_in H s3 H3. injection H as <- <-. split; [lia|].
  pose proof (rewarded_trans _ _ _ _ _ _ P1 P2) as P12.
  eapply pay_author_spec in H3 as (s4 & c' & P3 & -> & Hs);
    [|by eapply rewarded_ready|by rewrite (rewarded_hf _ _ _ _ _ P12)|by rewrite (rewarded_comment _ _ _ _ id P12)|done|lia].
  exists s4, c'. split_and!; [|done|done]. replace (au + m) with (m + x + (au - (0 + x))) by lia. by eapply rewarded_trans.
Qed.

Section Payouts.

Context (find_msb64 : Z → Z) `{Hmsb : !FindMsb64 find_msb64}.

(** What a comment claims of the fund. *)
Definition comment_claim (f : fund_info) (c : comment) : Z :=
  if 0 <? net_rshares (cm_rshares c) then
    match evaluate_reward_curve find_msb64 (uint128_of_i64 (net_rshares (cm_rshares c))) (author_reward_curve f) (fund_constant f) with
    | Ok v => to_Z v
    | Throw _ => 0
    end
  else 0.

Lemma comment_claim_eval f c :
  constant_ok (fund_constant f) → 0 < net_rshares (cm_rshares c) < 2 ^ 63 →
  ∃ v, evaluate_reward_curve find_msb64 (uint128_of_i64 (net_rshares (cm_rshares c))) (author_reward_curve f) (fund_constant f) = Ok v
    ∧ wf v ∧ to_Z v = comment_claim f c.
Proof.
  intros [Wk Hk] Hr. pose proof (to_Z_in _ Wk) as Hk0. unfold comment_claim. rewrite (proj2 (Z.ltb_lt _ _)) by lia.
  destruct (curve_total find_msb64 (author_reward_curve f) (net_rshares (cm_rshares c)) (to_Z (fund_constant f)) (fund_constant f)
    Hr ltac:(unfold in_u in Hk0; lia) Wk eq_refl) as (v & -> & Wv & _). eauto.
Qed.

Definition shares_ok (c : comment) : Prop := net_rshares (cm_rshares c) < 2 ^ 63.

Lemma comment_claim_nonneg f c : constant_ok (fund_constant f) → shares_ok c → 0 <= comment_claim f c.
Proof.
  intros Hk Hr. destruct (decide (0 < net_rshares (cm_rshares c))).
  - destruct (comment_claim_eval f c Hk) as (v & _ & Wv & <-); [unfold shares_ok in *; lia|]. apply to_Z_in in Wv. unfold in_u in Wv. lia.
  - unfold comment_claim. rewrite (proj2 (Z.ltb_ge _ _)) by lia. done.
Qed.

(** A comment gets at most the part of the fund it claims. *)
Lemma comment_reward_spec f T R p c s reward :
  get_reward_fund s = Ok f → constant_ok (fund_constant f.2) → hf freezone_HARDFORK_0_17 s = true →
  0 <= cm_reward_weight (link c) <= freezone_100_PERCENT → 0 < net_rshares (cm_rshares c) < 2 ^ 63 → wf T → 0 <= R < 2 ^ 63 →
  comment_claim f.2 c <= to_Z T → comment_reward find_msb64 T R p c s = Ok reward →
  0 < to_Z T ∧ 0 <= reward <= R ∧ reward * to_Z T <= R * comment_claim f.2 c.
Proof.
  intros Hf Hk Hhf Hw Hr WT HR Hle H. unfold comment_reward in H. rewrite Hhf, Hf in H. rewrite !Ok_bind in H. cbn [fst snd] in H.
  step_in H rew Hrew. step_in H v Hv. step_in H dust Hd. step_in H mx Hmx. injection H as <-.
  destruct (comment_claim_eval f.2 c Hk Hr) as (cl & Ecl & Wcl & Ecv).
  assert (0 < to_Z T) as HT.
  { unfold get_rshare_reward in Hrew. cbn [rshares total_claims] in Hrew. step_in Hrew u1 Hu1. step_in Hrew u2 Hu2.
    apply fc_assert_Ok in Hu2. destruct (of_i64_nonneg 0 ltac:(lia)) as [W0 E0].
    rewrite ltb_spec in Hu2 by done. apply Z.ltb_lt in Hu2. by rewrite E0 in Hu2. }
  set (ctx := RewardContext _ _ _ _ _ _) in Hrew. assert (claim_of find_msb64 ctx = comment_claim f.2 c) as Ec.
  { unfold claim_of, ctx. cbn [rshares reward_curve content_constant]. by rewrite Ecl. }
  destruct (get_rshare_reward_spec find_msb64 R T ctx HR WT HT) as [E Hc0]; [by destruct Hk|by rewrite Ec|].
  rewrite Hrew in E. injection E as ->. rewrite Ec in *. change (reward_weight ctx) with (cm_reward_weight (link c)).
  set (w := cm_reward_weight (link c)) in *. set (C := comment_claim f.2 c) in *. set (N := to_Z T) in *. unfold freezone_100_PERCENT in *.
  assert (0 <= C * w / 10000 <= C) as HK by (split; [apply Z.div_pos; nia|apply Z.div_le_upper_bound; nia]).
  set (K := C * w / 10000) in *. pose proof (Z.mul_div_le (R * K) N HT). assert (0 <= R * K / N) by (apply Z.div_pos; nia).
  assert (0 <= u64 (amount mx)) by (apply wrapu_in; lia). set (q := R * K / N) in *.
  assert (q * N <= R * C) by nia. assert (q <= R) by nia. split; [done|].
  destruct dust; split; [lia|nia|lia|]. destruct (Z.min_spec q (u64 (amount mx))) as [[? ->]|[? ->]]; nia.
Qed.

(** ** One comment *)

(** The comment [id] was paid [x] tokens and closed; nothing else changed but
    for the votes on it. *)
Definition cashed (R x id : Z) (s s' : social) : Prop :=
  ∃ s1 c c', rewarded R x s s1 ∧ comments s !! id = Some c ∧ same_post c c' ∧ cashout_time c' = time_point_sec_maximum
    ∧ last_payout c' = snow s ∧ net_rshares (cm_rshares c') <= 0
    ∧ (s' = put_comment id c' s1
       ∨ s' = set_cvotes (filter (λ kv : (Z * Z * Z) * comment_vote, kv.1.1 ≠ (id, freezone_SYMBOL))) (put_comment id c' s1)).

Lemma close_votes_spec id c s s' :
  hf freezone_HARDFORK_0_17 s = true → hf freezone_HARDFORK_0_12 s = true → cashout_time c = time_point_sec_maximum →
  close_votes id (put_comment id c s) = Ok s' →
  s' = put_comment id c s
  ∨ s' = set_cvotes (filter (λ kv : (Z * Z * Z) * comment_vote, kv.1.1 ≠ (id, freezone_SYMBOL))) (put_comment id c s).
Proof.
  intros H17 H12 Hc H. unfold close_votes in H. rewrite get_put_comment, Ok_bind in H.
  change (hf freezone_HARDFORK_0_12 (put_comment id c s)) with (hf freezone_HARDFORK_0_12 s) in H. rewrite H12 in H. cbn [negb] in H.
  unfold calculate_discussion_payout_time in H. change (hf freezone_HARDFORK_0_17 (put_comment id c s)) with (hf freezone_HARDFORK_0_17 s) in H.
  rewrite H17 in H. cbn [orb] in H. rewrite Ok_bind, Hc, Ok_bind in H. rewrite Z.eqb_refl in H. cbn [negb] in H. injection H as <-.
  destruct (clear_votes _); [by right|by left].
Qed.

Lemma hf_12_17 s : hf freezone_HARDFORK_0_17 s = true → hf freezone_HARDFORK_0_12 s = true.
Proof. unfold hf, has_hardfork, freezone_HARDFORK_0_17, freezone_HARDFORK_0_12. rewrite !Z.ltb_lt. lia. Qed.

Lemma cashout_comment_spec f T R id c p forward s claimed s' :
  ready R (core s) → content_ok s → voting_ok s → percent_ok s → hf freezone_HARDFORK_0_17 s = true →
  get_reward_fund s = Ok f → comments s !! id = Some c → open c → shares_ok c → wf T → comment_claim f.2 c <= to_Z T →
  cashout_comment_helper find_msb64 T R p forward id s = Ok (claimed, s') →
  0 <= claimed <= R ∧ claimed * to_Z T <= R * comment_claim f.2 c ∧ (claimed = 0 ∨ 0 < to_Z T) ∧ cashed R claimed id s s'.
Proof.
  intros Hr Hok Hv Hpc Hhf Hf Hc Ho Hsh WT Hcl H. pose proof (sp_limit _ _ (rd_price _ _ Hr)) as HR.
  destruct (vo_fund _ Hv) as (f' & Hf' & _ & Hk). assert (f' = f) as -> by congruence. clear Hf'.
  unfold cashout_comment_helper in H. rewrite (get_comment_Ok id c), Ok_bind in H by done. step_in H r Hr'. destruct r as [x s1].
  assert (0 <= x <= R ∧ x * to_Z T <= R * comment_claim f.2 c ∧ (x = 0 ∨ 0 < to_Z T)
    ∧ ∃ s2 c', rewarded R x s s2 ∧ s1 = put_comment id c' s2 ∧ same_post c c') as (Hx & Hle & H0T & s2 & c' & P & -> & Hsame).
  { pose proof (comment_claim_nonneg f.2 c Hk Hsh) as Hnn.
    assert (∃ s2 c', rewarded R 0 s s2 ∧ s = put_comment id c' s2 ∧ same_post c c') as H0.
    { exists s, c. split_and!; [by apply rewarded_nothing|by rewrite put_comment_same|done..]. }
    destruct (Z.ltb_spec 0 (net_rshares (cm_rshares c))) as [Hpos|_]; [|injection Hr' as <- <-; split_and!; [lia|lia|nia|by left|done]].
    step_in Hr' reward Hrw. step_in Hr' q Hq. destruct q as [y s3].
    destruct (comment_reward_spec f T R p c s reward Hf Hk Hhf) as (HT & Hb & Hbc);
      [by apply (ok_settings _ _ Hok id)|unfold shares_ok in *; lia|done..|].
    destruct (Z.ltb_spec 0 reward).
    - eapply pay_reward_spec in Hq as (Hy & s4 & c' & P & -> & Hs); [|done..].
      change (hf freezone_HARDFORK_0_17 (put_comment id c' s4)) with (hf freezone_HARDFORK_0_17 s4) in Hr'.
      rewrite (rewarded_hf _ _ _ _ _ P), Hhf in Hr'. injection Hr' as <- <-. split_and!; [lia|lia|nia|by right|].
      exists s4, c'. done.
    - injection Hq as <- <-. rewrite Hhf in Hr'. injection Hr' as <- <-. split_and!; [lia|lia|nia|by left|done]. }
  rewrite get_put_comment, Ok_bind in H. step_in H s3 H3. injection H as <- <-. split_and!; [lia|lia|lia|done|].
  assert (hf freezone_HARDFORK_0_17 s2 = true) as H17 by by rewrite (rewarded_hf _ _ _ _ _ P).
  assert (snow s2 = snow s) as En by apply (rw_same _ _ _ _ P).
  assert (cashout_time (close_comment c' (put_comment id c' s2)) = time_point_sec_maximum) as Ec.
  { unfold close_comment. cbn [cashout_time]. change (hf freezone_HARDFORK_0_17 (put_comment id c' s2)) with (hf freezone_HARDFORK_0_17 s2). by rewrite H17. }
  rewrite put_comment_twice in H3. apply close_votes_spec in H3; [|done|by apply hf_12_17|done].
  exists s2, c, (close_comment c' (put_comment id c' s2)). split_and!; [done..| |done].
  unfold close_comment. cbn [cm_rshares net_rshares]. destruct (Z.ltb_spec 0 (net_rshares (cm_rshares c'))); lia.
Qed.

Lemma cashed_ok R x id s s' : cashed R x id s s' → content_ok s → content_ok s'.
Proof.
  intros (s1 & c & c' & P & Hc & [El Es] & Et & Hl & _ & Hs) Hok.
  assert (content_ok s1) as Hok1 by (by eapply content_ok_same; [apply P|]). rewrite <- (rewarded_comment _ _ _ _ id P) in Hc.
  assert (content_ok (put_comment id c' s1)) as Hok2.
  { destruct Hok1 as [V I T S Po A]. split; try done; cbn [put_comment set_comments comments cvotes].
    - intros i c0 H. apply lookup_insert_Some in H as [[<- _]|[_ H]]; by eapply I.
    - intros i c0 H _ Ho. apply lookup_insert_Some in H as [[_ <-]|[_ H]]; [by destruct Ho|by apply T].
    - intros i c0 H. apply lookup_insert_Some in H as [[<- <-]|[_ H]]; [|by eapply S]. rewrite Es, El. by eapply S. }
  destruct Hs as [->| ->]; [done|]. destruct Hok2 as [V I T S Po A]. split; try done; cbn [set_cvotes comments cvotes next_comment_id account_names].
  - intros k v [Hk _]%map_lookup_filter_Some. by apply V.
  - intros i c0 Hc0 Hx Ho. assert (id ≠ i).
    { intros <-. cbn [put_comment set_comments comments] in Hc0. rewrite lookup_insert_eq in Hc0. injection Hc0 as <-. by destruct Ho. }
    assert (∀ (k : Z * Z * Z) (v : comment_vote), k.1 = (i, freezone_SYMBOL) → (k, v).1.1 ≠ (id, freezone_SYMBOL)) by (intros k v E; cbn; rewrite E; cbn; congruence).
    destruct (T i c0 Hc0 Hx Ho). split; by rewrite ?vote_total_filter by done.
Qed.

(** What [cashed] says of the comments and of what decides the payouts. *)
Record cashed_frame (R x id : Z) (s s' : social) : Prop := CashedFrame {
  cf_pays : pays R x (core s) (core s');
  cf_comments : ∃ c', comments s' = <[id := c']> (comments s) ∧ cashout_time c' = time_point_sec_maximum ∧ last_payout c' = snow s
    ∧ net_rshares (cm_rshares c') <= 0;
  cf_names : account_names s' = account_names s;
  cf_fund_names : fund_names s' = fund_names s;
  cf_fund_infos : fund_infos s' = fund_infos s;
  cf_now : snow s' = snow s
}.

Lemma cashed_framed R x id s s' : cashed R x id s s' → cashed_frame R x id s s'.
Proof.
  intros (s1 & c & c' & P & _ & _ & Ht & Hl & Hr & Hs). destruct P as [Pp [Ec ? ? ? ? ? ? ?] ? ? ?].
  destruct Hs as [->| ->]; (split; [exact Pp| |done..]); exists c'; cbn [put_comment set_comments set_cvotes comments]; by rewrite Ec.
Qed.

(** ** The comments that are due *)

Definition due_total (g : comment → Z) (s : social) : Z :=
  msum (λ _ c, if decide (cashout_time c <= snow s) then g c else 0) (comments s).

Lemma due_sum g s : zsum (g ∘ snd <$> due s) = due_total g s.
Proof.
  unfold due. rewrite (zsum_perm _ _ (fmap_Permutation _ _ _ (merge_sort_Permutation _ _))).
  unfold due_total. rewrite msum_list. induction (map_to_list (comments s)) as [|x l IH]; [done|].
  rewrite filter_cons. cbn [foldr]. destruct (decide (cashout_time x.2 <= snow s)); [|rewrite <- IH; lia].
  rewrite fmap_cons. unfold zsum in *. cbn [foldr]. by rewrite IH.
Qed.

Lemma due_length s : Z.of_nat (length (due s)) = due_total (λ _, 1) s.
Proof.
  rewrite <- due_sum. induction (due s) as [|x l IH]; [done|]. rewrite fmap_cons. unfold zsum in *. cbn [foldr length]. rewrite <- IH. cbn. lia.
Qed.

Lemma due_elem x s : x ∈ due s ↔ comments s !! x.1 = Some x.2 ∧ cashout_time x.2 <= snow s.
Proof.
  unfold due. rewrite merge_sort_Permutation, list_elem_of_filter. destruct x as [k c]. rewrite elem_of_map_to_list. cbn. tauto.
Qed.

Lemma due_cashed R x id c g s s' :
  cashed_frame R x id s s' → comments s !! id = Some c → cashout_time c <= snow s → snow s < time_point_sec_maximum →
  due_total g s' = due_total g s - g c.
Proof.
  intros [_ (c' & Ec & Ht & _) _ _ _ En] Hc Hd Hn. unfold due_total. rewrite Ec, En, msum_insert. unfold row. rewrite Hc.
  rewrite decide_True by done. rewrite decide_False by lia. lia.
Qed.

Lemma due_total_le g s x : (∀ y, y ∈ due s → 0 <= g y.2) → x ∈ due s → g x.2 <= due_total g s.
Proof.
  intros Hg Hx. rewrite <- due_sum. apply zsum_mem_le.
  - apply Forall_fmap, Forall_forall. intros y Hy. by apply Hg.
  - apply list_elem_of_fmap. by exists x.
Qed.

(** ** The payout loop *)

(** The state of the loop: of the [R] tokens of the fund [F], which [T] claims
    are made on, [a] are paid. *)
Record paying (F : Z) (f : fund_info) (T : uint128) (R a : Z) (s : social) : Prop := Paying {
  pg_ready : ready R (core s);
  pg_content : content_ok s;
  pg_voting : voting_ok s;
  pg_percent : percent_ok s;
  pg_hf : hf freezone_HARDFORK_0_17 s = true;
  pg_fund : get_reward_fund s = Ok (F, f);
  pg_now : snow s < time_point_sec_maximum;
  pg_shares : ∀ id c, comments s !! id = Some c → shares_ok c;
  pg_total : wf T;
  pg_paid : 0 <= a ∧ (a = 0 ∨ 0 < to_Z T);
  pg_due : due_total (comment_claim f) s <= to_Z T;
  pg_left : a * to_Z T + R * due_total (comment_claim f) s <= R * to_Z T
}.

(** The comments that were due are closed, the others are as before. *)
Definition closed_due (s s' : social) : Prop :=
  ∀ id, match comments s !! id with
        | Some c =>
            if decide (cashout_time c <= snow s)
            then ∃ c', comments s' !! id = Some c' ∧ cashout_time c' = time_point_sec_maximum ∧ last_payout c' = snow s
            else comments s' !! id = Some c
        | None => comments s' !! id = None
        end.

Lemma cashed_hf R x id s s' h : cashed_frame R x id s s' → hf h s' = hf h s.
Proof. intros [P _ _ _ _ _]. unfold hf, has_hardfork. by rewrite (lf_hardforks _ _ (py_frame _ _ _ _ P)). Qed.

Lemma cashed_fund R x id s s' : cashed_frame R x id s s' → get_reward_fund s' = get_reward_fund s.
Proof. intros [_ _ _ E1 E2 _]. unfold get_reward_fund. by rewrite E1, E2. Qed.

Lemma cashed_voting R x id s s' : cashed_frame R x id s s' → voting_ok s → voting_ok s'.
Proof. intros H [Hf Hn]. split; [by rewrite (cashed_fund _ _ _ _ _ H)|by rewrite (cf_names _ _ _ _ _ H)]. Qed.

Lemma cashed_paying F f T R a p id c x forward s s' :
  paying F f T R a s → (id, c) ∈ due s →
  cashout_comment_helper find_msb64 T R p forward id s = Ok (x, s') →
  paying F f T R (a + x) s' ∧ cashed_frame R x id s s'.
Proof.
  intros [Hr Hok Hv Hpc Hhf Hf Hn Hsh WT [Ha Ha0] Hdue Hleft] Hin H. pose proof Hin as [Hc Hd]%due_elem. cbn [fst snd] in Hc, Hd.
  destruct (vo_fund _ Hv) as (f' & Hf' & _ & Hk). assert (f' = (F, f)) as -> by congruence. clear Hf'. cbn [snd] in Hk.
  assert (comment_claim f c <= due_total (comment_claim f) s) as Hle.
  { apply (due_total_le _ s (id, c)); [|done]. intros [i y] [Hy _]%due_elem. apply comment_claim_nonneg; [done|by eapply Hsh]. }
  eapply (cashout_comment_spec (F, f) T R id c) in H as (Hx & Hxc & Hx0 & HC); [|done..|unfold open; lia|by eapply Hsh|done|cbn [snd]; lia].
  cbn [snd] in *. pose proof (cashed_framed _ _ _ _ _ HC) as Hfr. split; [|done].
  pose proof (due_cashed _ _ _ c (comment_claim f) _ _ Hfr Hc Hd Hn) as Ed.
  split; try done.
  - apply (cf_pays _ _ _ _ _ Hfr).
  - by eapply cashed_ok.
  - by eapply cashed_voting.
  - intros y. rewrite (cashed_fund _ _ _ _ _ Hfr). apply Hpc.
  - by rewrite (cashed_hf _ _ _ _ _ _ Hfr).
  - by rewrite (cashed_fund _ _ _ _ _ Hfr).
  - by rewrite (cf_now _ _ _ _ _ Hfr).
  - intros i c0 Hi. destruct (cf_comments _ _ _ _ _ Hfr) as (c' & Ec & _ & _ & Hneg). rewrite Ec in Hi.
    apply lookup_insert_Some in Hi as [[_ <-]|[_ Hi]]; [unfold shares_ok; lia|by eapply Hsh].
  - split; [lia|]. destruct Hx0 as [->|?]; [rewrite Z.add_0_r; done|by right].
  - rewrite Ed. pose proof (comment_claim_nonneg f c Hk ltac:(by eapply Hsh)). lia.
  - rewrite Ed. lia.
Qed.

Lemma closed_due_step R x id c s s' s'' :
  cashed_frame R x id s s' → comments s !! id = Some c → cashout_time c <= snow s → snow s < time_point_sec_maximum →
  closed_due s' s'' → closed_due s s''.
Proof.
  intros [_ (c' & Ec & Ht & Hl & _) _ _ _ En] Hc Hd Hn Hcl i. specialize (Hcl i). rewrite Ec in Hcl.
  destruct (decide (i = id)) as [->|Hne].
  - rewrite lookup_insert_eq, En, decide_False in Hcl by lia. rewrite Hc, decide_True by done. exists c'. split_and!; done.
  - rewrite lookup_insert_ne, En in Hcl by done. done.
Qed.

Lemma closed_due_none s : due s = [] → closed_due s s.
Proof.
  intros H id. destruct (comments s !! id) as [c|] eqn:Hc; [|done]. rewrite decide_False; [done|]. intros Hd.
  assert ((id, c) ∈ due s) as Hin by by apply due_elem. rewrite H in Hin. by apply not_elem_of_nil in Hin.
Qed.

(** What the loop does to the money and to the tables. *)
Record cashout_result (F : Z) (f : fund_info) (T : uint128) (R a a' : Z) (s s' : social) : Prop := LoopResult {
  lr_paying : paying F f T R a' s';
  lr_due : due s' = [];
  lr_gap : ∀ y, gap y (core s') = gap y (core s) + amount_of y (Asset (a' - a) freezone_SYMBOL);
  lr_funds : reward_funds (core s') = reward_funds (core s);
  lr_infos : fund_infos s' = fund_infos s;
  lr_closed : closed_due s s';
  lr_now : snow s' = snow s
}.

Lemma cashout_loop_spec fuel F f T R a p s m s' m' :
  paying F f T R a s → m !! F = Some (FundContext T R a) → length (due s) = fuel →
  cashout_loop find_msb64 fuel p (s, m) = Ok (s', m') →
  ∃ a', cashout_result F f T R a a' s s' ∧ m' = <[F := FundContext T R a']> m.
Proof.
  revert a s m. induction fuel as [|fuel IH]; intros a s m Hp Hm Hlen H; cbn [cashout_loop fst snd] in H.
  - destruct (due s) as [|[id c] l] eqn:Ed; [|done]. injection H as <- <-. exists a. split; [|by rewrite insert_id].
    split; [done..| |done|done|by apply closed_due_none|done]. intros y. rewrite Z.sub_diag, amount_of_zero. lia.
  - destruct (due s) as [|[id c] l] eqn:Ed; [done|]. assert ((id, c) ∈ due s) as Hin by (rewrite Ed; by left).
    rewrite (pg_hf _ _ _ _ _ _ Hp) in H. step_in H st Hst. unfold cashout_from_fund in Hst. rewrite (pg_fund _ _ _ _ _ _ Hp), Ok_bind in Hst.
    cbn [fst snd] in Hst. rewrite Hm in Hst. cbn [from_option_exn] in Hst. rewrite Ok_bind in Hst. cbn [fc_claims fc_balance fc_awarded] in Hst. step_in Hst r Hr. destruct r as [x s1].
    step_in Hst a1 Ha1. injection Hst as <-. cbn [fst snd] in *. apply safe_add_value in Ha1 as ->.
    destruct (cashed_paying _ _ _ _ _ _ _ _ _ _ _ _ Hp Hin Hr) as [Hp1 Hfr]. pose proof Hin as [Hc Hd]%due_elem. cbn [fst snd] in Hc, Hd.
    pose proof (due_cashed _ _ _ c (λ _, 1) _ _ Hfr Hc Hd (pg_now _ _ _ _ _ _ Hp)) as El. rewrite <- !due_length, Ed, Hlen in El.
    eapply IH in H as (a' & [] & ->); [|done|apply lookup_insert_eq|lia]. exists a'. rewrite insert_insert_eq. split; [|done].
    pose proof (cf_pays _ _ _ _ _ Hfr) as [_ Hg Hrf _]. split; try done.
    + intros y. rewrite lr_gap0, Hg. unfold amount_of. cbn [symbol amount]. destruct (_ =? y); lia.
    + congruence.
    + rewrite lr_infos0. apply Hfr.
    + eapply closed_due_step; [done..|apply Hp|done].
    + rewrite lr_now0. apply Hfr.
Qed.

(** ** The claims *)

Definition decay_time (s : social) : Z :=
  if hf freezone_HARDFORK_0_19 s then freezone_RECENT_RSHARES_DECAY_TIME_HF19 else freezone_RECENT_RSHARES_DECAY_TIME_HF17.

Lemma decay_time_range s : 0 < decay_time s < 2 ^ 24.
Proof. unfold decay_time. destruct (hf _ s); vm_compute; done. Qed.

(** The same fund but for its claims. *)
Definition same_fund (f g : fund_info) : Prop :=
  fund_constant g = fund_constant f ∧ percent_curation_rewards g = percent_curation_rewards f
  ∧ author_reward_curve g = author_reward_curve f ∧ curation_reward_curve g = curation_reward_curve f.

Lemma decay_claims_spec k t f g :
  wf (recent_claims f) → to_Z (recent_claims f) < 2 ^ 100 → 0 <= t - fund_last_update f <= k → 0 < k < 2 ^ 24 →
  decay_claims k t f = Ok g →
  same_fund f g ∧ wf (recent_claims g)
  ∧ to_Z (recent_claims g) = to_Z (recent_claims f) - to_Z (recent_claims f) * (t - fund_last_update f) / k.
Proof.
  intros Wc Hc Ht Hk H. unfold decay_claims, mul_int, div_int in H. set (dt := t - fund_last_update f) in *.
  destruct (of_i64_nonneg dt ltac:(lia)) as [W1 E1]. destruct (of_i64_nonneg k ltac:(lia)) as [W2 E2]. pose proof (to_Z_in _ Wc) as Hc0.
  unfold in_u in Hc0. assert (to_Z (recent_claims f) * dt < 2 ^ 128) by nia.
  destruct (mul_assign_exact _ _ Wc W1) as (p & Hp & Wp & Ep); [rewrite E1; done|]. rewrite Hp, Ok_bind in H. rewrite E1 in Ep.
  destruct (div_assign_spec p _ Wp W2) as (q & Hq & Wq & Eq); [lia|]. rewrite Hq, Ok_bind in H. rewrite E2, Ep in Eq. injection H as <-.
  split; [done|]. cbn [recent_claims]. destruct (sub_assign_spec (recent_claims f) q Wc Wq) as [Ws Es]. split; [done|].
  rewrite Es, <- Eq. apply u128_small. unfold in_u. rewrite Eq.
  assert (0 <= to_Z (recent_claims f) * dt / k <= to_Z (recent_claims f))
    by (split; [apply Z.div_pos; nia|apply Z.div_le_upper_bound; nia]). lia.
Qed.

Lemma decay_funds_spec l s m s1 m1 :
  NoDup l → res_fold decay_fund (s, m) l = Ok (s1, m1) →
  ∃ fi, s1 = set_fund_infos (λ _, fi) s
    ∧ (∀ id, id ∉ l → fi !! id = fund_infos s !! id ∧ m1 !! id = m !! id)
    ∧ (∀ id, id ∈ l → ∃ f g b, fund_infos s !! id = Some f ∧ decay_claims (decay_time s) (snow s) f = Ok g ∧ fi !! id = Some g
         ∧ reward_funds (core s) !! id = Some b ∧ m1 !! id = Some (FundContext (recent_claims g) b 0)).
Proof.
  intros Hnd. revert s m. induction Hnd as [|i l Hi Hnd IH]; intros s m H.
  - injection H as <- <-. exists (fund_infos s). split_and!; [by destruct s|done|]. intros id Hid. by apply not_elem_of_nil in Hid.
  - cbn [res_fold] in H. step_in H st Hst. unfold decay_fund in Hst. step_in Hst f Hf. cbv zeta in Hst. step_in Hst g Hg. step_in Hst b Hb.
    injection Hst as <-. apply from_option_exn_Ok in Hf, Hb. apply IH in H as (fi & -> & H1 & H2). exists fi. split_and!; [done|..].
    + intros id [Hne Hid]%not_elem_of_cons. destruct (H1 id Hid) as [-> ->]. cbn [set_fund_infos fund_infos]. by rewrite !lookup_insert_ne.
    + intros id [->|Hid]%elem_of_cons.
      * destruct (H1 i Hi) as [E1 E2]. cbn [set_fund_infos fund_infos] in E1. rewrite lookup_insert_eq in E1. rewrite lookup_insert_eq in E2. exists f, g, b. done.
      * destruct (H2 id Hid) as (f' & g' & b' & Hf' & Hrest). cbn [set_fund_infos fund_infos core] in *.
        rewrite lookup_insert_ne in Hf' by (intros ->; done). exists f', g', b'. done.
Qed.

Lemma fund_ids_spec s id : id ∈ fund_ids s ↔ is_Some (fund_infos s !! id).
Proof.
  unfold fund_ids. rewrite merge_sort_Permutation, list_elem_of_fmap. split.
  - intros ([k v] & -> & Hk%elem_of_map_to_list). eauto.
  - intros [v Hv]. exists (id, v). split; [done|]. by apply elem_of_map_to_list.
Qed.

Lemma fund_ids_NoDup s : NoDup (fund_ids s).
Proof. unfold fund_ids. rewrite merge_sort_Permutation. apply NoDup_fst_map_to_list. Qed.

Lemma claim_comments_spec F f s l m T b m' :
  get_reward_fund s = Ok (F, f) → constant_ok (fund_constant f) → Forall (λ x, shares_ok x.2) l →
  wf T → to_Z T + zsum (comment_claim f ∘ snd <$> l) < 2 ^ 128 → m !! F = Some (FundContext T b 0) →
  res_fold (claim_comment find_msb64 s) m l = Ok m' →
  ∃ T', m' = <[F := FundContext T' b 0]> m ∧ wf T' ∧ to_Z T' = to_Z T + zsum (comment_claim f ∘ snd <$> l).
Proof.
  intros Hf Hk Hl. revert m T. induction Hl as [|x l Hx Hl IH]; intros m T WT Hfit Hm H.
  - injection H as <-. exists T. rewrite insert_id by done. unfold zsum. cbn. split_and!; [done..|lia].
  - rewrite fmap_cons in *. unfold zsum in *. cbn [foldr] in *. cbn [compose] in *. step_in H m1 H1.
    assert (0 <= foldr Z.add 0 (comment_claim f ∘ snd <$> l)) as Hnn.
    { apply zsum_all_nonneg, Forall_fmap. eapply Forall_impl; [exact Hl|]. intros y Hy. by apply comment_claim_nonneg. }
    assert (∃ T1, m1 = <[F := FundContext T1 b 0]> m ∧ wf T1 ∧ to_Z T1 = to_Z T + comment_claim f x.2) as (T1 & -> & W1 & E1).
    { unfold claim_comment in H1. cbv zeta in H1. destruct (Z.ltb_spec 0 (net_rshares (cm_rshares x.2))) as [Hpos|Hneg].
      - rewrite Hf, Ok_bind in H1. cbn [fst snd] in H1. rewrite Hm in H1. cbn [from_option_exn] in H1. rewrite Ok_bind in H1.
        destruct (comment_claim_eval f x.2 Hk) as (v & Hv & Wv & Ev); [unfold shares_ok in Hx; lia|]. rewrite Hv, Ok_bind in H1.
        injection H1 as <-. cbn [fc_claims fc_balance fc_awarded]. destruct (add_assign_spec T v WT Wv) as [Wa Ea].
        exists (add_assign T v). split_and!; [done..|]. rewrite Ea, Ev. apply u128_small. pose proof (to_Z_in _ WT) as HT.
        pose proof (comment_claim_nonneg f x.2 Hk Hx). unfold in_u in *. lia.
      - injection H1 as <-. exists T. rewrite insert_id by done. split_and!; [done..|].
        unfold comment_claim. rewrite (proj2 (Z.ltb_ge _ _)) by lia. lia. }
    eapply IH in H as (T' & -> & WT' & ET'); [|done|lia|apply lookup_insert_eq]. exists T'. rewrite insert_insert_eq. split_and!; [done..|lia].
Qed.

(** ** The funds are charged *)

Lemma gap_set_reward_balance y id b b' d :
  reward_funds d !! id = Some b →
  gap y (set_reward_balance id b' d) = gap y d + amount_of y (Asset (b' - b) freezone_SYMBOL).
Proof.
  intros Hb. change (set_reward_balance id b' d) with (set_reward_funds (<[id := b']> (reward_funds d)) d).
  rewrite gap_set_reward_funds, msum_insert. unfold row. rewrite Hb. do 3 f_equal. lia.
Qed.

Definition fund_awards (l : list (Z * fund_context)) : Z := zsum (fc_awarded ∘ snd <$> l).

Lemma settle_funds_spec l s s' :
  NoDup l.*1 → res_fold settle_fund s l = Ok s' →
  (∃ fi d, s' = set_fund_infos (λ _, fi) (set_core d s) ∧ now d = snow s)
  ∧ (∀ y, gap y (core s') = gap y (core s) - amount_of y (Asset (fund_awards l) freezone_SYMBOL))
  ∧ (∀ id, reward_funds (core s') !! id
       = (λ b, b - from_option fc_awarded 0 ((list_to_map l : gmap Z fund_context) !! id)) <$> reward_funds (core s) !! id).
Proof.
  revert s. induction l as [|[i k] l IH]; intros s Hnd H.
  - injection H as <-. split_and!; [exists (fund_infos s), (core s); by destruct s|intros y; unfold fund_awards; cbn; rewrite amount_of_zero; lia|].
    intros id. change (list_to_map [] : gmap Z fund_context) with (∅ : gmap Z fund_context). rewrite lookup_empty. destruct (reward_funds (core s) !! id); cbn; [f_equal; lia|done].
  - rewrite fmap_cons in Hnd. apply NoDup_cons in Hnd as [Hi Hnd]. cbn [res_fold] in H. step_in H s1 H1. unfold settle_fund in H1.
    step_in H1 f Hf. step_in H1 b Hb. step_in H1 b' Hb'. injection H1 as <-. apply from_option_exn_Ok in Hb. apply safe_sub_value in Hb' as ->.
    apply IH in H as ((fi & d & -> & Hn) & Hg & Hr); [|done]. split_and!.
    + exists fi, d. by rewrite Hn.
    + intros y. rewrite Hg. cbn [set_fund_infos set_core core]. rewrite (gap_set_reward_balance y i b) by done.
      change (fund_awards ((i, k) :: l)) with (fc_awarded k + fund_awards l). unfold amount_of. cbn [symbol amount]. destruct (_ =? y); lia.
    + intros id. rewrite Hr, list_to_map_cons. cbn [set_fund_infos set_core core set_reward_balance reward_funds].
      destruct (decide (id = i)) as [->|Hne].
      * rewrite !lookup_insert_eq, Hb. cbn [fmap option_fmap option_map from_option]. f_equal. assert ((list_to_map l : gmap Z fund_context) !! i = None) as -> by by apply not_elem_of_list_to_map_1.
        cbn. lia.
      * by rewrite !lookup_insert_ne by done.
Qed.

Lemma fund_awards_map (m : gmap Z fund_context) : fund_awards (map_to_list m) = msum (λ _ k, fc_awarded k) m.
Proof. rewrite msum_list. unfold fund_awards. induction (map_to_list m) as [|x l IH]; [done|]. rewrite fmap_cons. unfold zsum in *. cbn [foldr]. by rewrite IH. Qed.

(** ** The payout of a block *)

(** A state before the payout: the reward fund [F] holds [R] tokens, and the
    claims, the shares and the prices are far from the ends of their types. *)
Record payable (F : Z) (f : fund_info) (R : Z) (s : social) : Prop := Payable {
  pb_hf : hf freezone_HARDFORK_0_17 s = true ∧ hf freezone_SST_HARDFORK s = false;
  pb_now : snow s < time_point_sec_maximum;
  pb_fund : get_reward_fund s = Ok (F, f);
  pb_balance : reward_funds (core s) !! F = Some R;
  pb_ready : ready R (core s);
  pb_content : content_ok s;
  pb_voting : voting_ok s;
  pb_percent : percent_ok s;
  pb_shares : ∀ id c, comments s !! id = Some c → shares_ok c;
  pb_claims : wf (recent_claims f) ∧ to_Z (recent_claims f) < 2 ^ 100;
  pb_recent : 0 <= snow s - fund_last_update f <= decay_time s;
  pb_fit : due_total (comment_claim f) s < 2 ^ 127
}.

Lemma comment_claim_same f g c : same_fund f g → comment_claim g c = comment_claim f c.
Proof. intros (E1 & _ & E2 & _). unfold comment_claim. by rewrite E1, E2. Qed.

Lemma due_total_ext g h s : (∀ c, g c = h c) → due_total g s = due_total h s.
Proof. intros E. apply msum_ext. intros k c _. by rewrite E. Qed.

Lemma get_reward_fund_ids s F f : get_reward_fund s = Ok (F, f) → fund_names s !! freezone_POST_REWARD_FUND_NAME = Some F ∧ fund_infos s !! F = Some f.
Proof.
  unfold get_reward_fund. intros H. step_in H i Hi. step_in H g Hg. injection H as <- <-. by apply from_option_exn_Ok in Hi, Hg.
Qed.

(** The claims on the fund before the first payment. *)
Lemma claims_made F f R s s1 m1 m2 :
  payable F f R s → res_fold decay_fund (s, ∅) (fund_ids s) = Ok (s1, m1) →
  res_fold (claim_comment find_msb64 s1) m1 (due s1) = Ok m2 →
  ∃ g T fi, s1 = set_fund_infos (λ _, fi) s ∧ paying F g T R 0 s1 ∧ m2 !! F = Some (FundContext T R 0)
    ∧ (∀ id k, m2 !! id = Some k → fc_awarded k = 0).
Proof.
  intros [[Hhf _] Hn Hf Hb Hr Hok Hv Hpc Hsh [Wc Hc] Hrec Hfit] H1 H2.
  apply decay_funds_spec in H1 as (fi & -> & Hout & Hin); [|apply fund_ids_NoDup].
  destruct (get_reward_fund_ids _ _ _ Hf) as [Hname Hinfo].
  destruct (Hin F) as (f' & g & b & Hf' & Hg & Hfi & Hb' & Hm1); [by apply fund_ids_spec|].
  assert (f' = f) as -> by congruence. assert (b = R) as -> by congruence. clear Hf' Hb'.
  apply decay_claims_spec in Hg as (Hsame & Wg & Eg); [|done..|apply decay_time_range].
  pose proof Hsame as (Ek & Ep & Ea & Ecu). set (s1 := set_fund_infos (λ _, fi) s) in *.
  assert (get_reward_fund s1 = Ok (F, g)) as Hf1.
  { unfold get_reward_fund, s1. cbn [set_fund_infos fund_names fund_infos]. rewrite Hname. cbn [from_option_exn]. rewrite Ok_bind, Hfi. done. }
  assert (constant_ok (fund_constant g)) as Hkg.
  { destruct (vo_fund _ Hv) as (f' & Hf' & _ & Hk). rewrite Hf in Hf'. injection Hf' as <-. by rewrite Ek. }
  assert (due_total (comment_claim g) s1 = due_total (comment_claim f) s) as Ed.
  { change (due_total (comment_claim g) s1) with (due_total (comment_claim g) s). apply due_total_ext. intros c. by apply comment_claim_same. }
  assert (0 <= to_Z (recent_claims g) <= to_Z (recent_claims f)) as Hgc.
  { split; [apply to_Z_in in Wg; unfold in_u in Wg; lia|]. rewrite Eg. pose proof (decay_time_range s). apply to_Z_in in Wc. unfold in_u in Wc.
    assert (0 <= to_Z (recent_claims f) * (snow s - fund_last_update f) / decay_time s) by (apply Z.div_pos; nia). lia. }
  eapply (claim_comments_spec F g s1 (due s1) m1) in H2 as (T & -> & WT & ET);
    [|done..| |done|rewrite due_sum, Ed; lia|done].
  2: { apply Forall_forall. intros x [Hx _]%due_elem. by eapply Hsh. }
  rewrite due_sum in ET. assert (0 <= due_total (comment_claim g) s1).
  { rewrite <- due_sum. apply zsum_all_nonneg, Forall_fmap, Forall_forall. intros x [Hx _]%due_elem. apply comment_claim_nonneg; [done|by eapply Hsh]. }
  pose proof (sp_limit _ _ (rd_price _ _ Hr)) as HR. exists g, T, fi. split_and!; [done| |apply lookup_insert_eq|].
  - split; try done.
    + eapply content_ok_frame; [exact Hok|done..].
    + destruct Hv as [(f' & Hf' & Hcu & _) Hacc]. split; [|done]. exists (F, g). split_and!; [done|cbn [snd]|done].
      rewrite Hf in Hf'. injection Hf' as <-. by rewrite Ecu.
    + intros y Hy. rewrite Hf1 in Hy. injection Hy as <-. cbn [snd]. rewrite Ep. by apply (Hpc (F, f)).
    + split; [done|by left].
    + lia.
    + nia.
  - intros id k Hk. apply lookup_insert_Some in Hk as [[_ <-]|[Hne Hk]]; [done|].
    destruct (decide (id ∈ fund_ids s)) as [Hid|Hid].
    + destruct (Hin id Hid) as (? & ? & ? & _ & _ & _ & _ & E). rewrite Hk in E. by injection E as ->.
    + destruct (Hout id Hid) as [_ E]. rewrite Hk in E. by rewrite lookup_empty in E.
Qed.

Lemma awards_of F T R a (m : gmap Z fund_context) :
  (∀ id k, m !! id = Some k → fc_awarded k = 0) → msum (λ _ k, fc_awarded k) (<[F := FundContext T R a]> m) = a.
Proof.
  intros H. rewrite msum_insert. unfold row. assert (msum (λ _ k, fc_awarded k) m = 0) as ->.
  { rewrite (msum_ext _ (λ _ _, 0)) by (intros k v Hk; by eapply H). clear H. induction m as [|k v m Hk IH] using map_ind; [done|].
    rewrite msum_insert_new by done. lia. }
  cbn [fc_awarded]. destruct (m !! F) as [k|] eqn:E; [rewrite (H F k E)|]; lia.
Qed.

Record payout_done (F R : Z) (s s' : social) : Prop := PayoutDone {
  pd_money : ∀ y, gap y (core s') = gap y (core s);
  pd_fund : ∃ b, reward_funds (core s') !! F = Some b ∧ 0 <= b <= R;
  pd_others : ∀ id, id ≠ F → reward_funds (core s') !! id = reward_funds (core s) !! id;
  pd_closed : closed_due s s';
  pd_due : due s' = [];
  pd_content : content_ok s'
}.

Lemma process_cashout_spec F f R s s' : payable F f R s → process_cashout find_msb64 s = Ok s' → payout_done F R s s'.
Proof.
  intros Hpay H. unfold process_cashout in H. step_in H st Hst. destruct st as [s1 m1]. cbn [fst snd] in H. step_in H m2 Hm2.
  assert (∃ fi, s1 = set_fund_infos (λ _, fi) s) as (fi0 & E1).
  { apply decay_funds_spec in Hst as (fi & -> & _); [eauto|apply fund_ids_NoDup]. }
  assert (hf freezone_HARDFORK_0_17 s1 = true) as H17 by (rewrite E1; apply Hpay). rewrite H17 in Hm2.
  destruct (claims_made _ _ _ _ _ _ _ Hpay Hst Hm2) as (g & T & fi & -> & Hp & HmF & Hz). clear E1 fi0.
  step_in H st2 Hst2. destruct st2 as [s2 m3]. cbn [fst snd] in H.
  eapply cashout_loop_spec in Hst2 as (a & Hl & Em); [|done..]. rewrite Em in H. clear Em m3.
  destruct Hl as [Hp2 Hd2 Hg2 Hf2 Hi2 Hc2 Hn2].
  apply settle_funds_spec in H as ((fi' & d & -> & Hnd) & Hg & Hr); [|apply NoDup_fst_map_to_list].
  rewrite fund_awards_map, awards_of in Hg by done. rewrite list_to_map_to_list in Hr. change (reward_funds (core (set_fund_infos (λ _, fi) s))) with (reward_funds (core s)) in Hf2.
  destruct Hp2 as [[[HR _ _ _ _] _ _] Hok2 _ _ _ _ _ _ _ [Ha Ha0] _ Hleft].
  assert (a <= R) as HaR.
  { destruct Ha0 as [->|HT]; [lia|]. rewrite <- due_sum, Hd2 in Hleft. unfold zsum in Hleft. cbn in Hleft. nia. }
  split.
  - intros y. rewrite Hg, Hg2. rewrite Z.sub_0_r. cbn [set_fund_infos core]. lia.
  - exists (R - a). split; [|lia]. rewrite Hr, Hf2, (pb_balance _ _ _ _ Hpay), lookup_insert_eq. done.
  - intros id Hne. rewrite Hr, Hf2, lookup_insert_ne by done. destruct (reward_funds (core s) !! id) as [b|]; [|done]. cbn [fmap option_fmap option_map].
    destruct (m2 !! id) as [k|] eqn:E; cbn [from_option]; [rewrite (Hz id k E)|]; f_equal; lia.
  - exact Hc2.
  - unfold due in *. cbn [set_fund_infos set_core comments]. change (snow (set_fund_infos (λ _, fi') (set_core d s2))) with (now d). by rewrite Hnd.
  - eapply content_ok_frame; [exact Hok2|done..].
Qed.

(** ** The payout ends *)

#[local] Remove Hints no_fuel_bind no_fuel_fold : typeclass_instances.

(** Goes down to the calls of a function, which have instances of their own. *)
Ltac fuel_free_step :=
  lazymatch goal with
  | |- NoFuel (_ ≫= _) => apply no_fuel_bind; [|intros ?]
  | |- NoFuel (if ?b then _ else _) => destruct b
  | |- NoFuel (match ?x with _ => _ end) => destruct x
  | |- NoFuel (let _ := _ in _) => cbv zeta
  | |- NoFuel (res_fold _ _ _) => apply no_fuel_fold; intros ? ?
  | |- NoFuel (from_option_exn _ _) => apply no_fuel_option; discriminate
  | |- NoFuel (mret _) => apply no_fuel_ret
  | |- NoFuel (Ok _) => apply no_fuel_Ok
  | |- NoFuel (fc_assert _) => apply no_fuel_assert
  | |- NoFuel (Throw _) => discriminate
  | |- NoFuel _ => exact _
  end.
Ltac fuel_free := repeat fuel_free_step.

#[local] Instance no_fuel_safe_mul a b : NoFuel (safe_mul a b).
Proof. unfold safe_mul, check. fuel_free. Qed.
#[local] Instance no_fuel_safe_div a b : NoFuel (safe_div a b).
Proof. unfold safe_div, check. fuel_free. Qed.
#[local] Instance no_fuel_shr a b : NoFuel (shr_assign a b).
Proof. unfold shr_assign, to_integer. fuel_free. Qed.
#[local] Instance no_fuel_sqrt x : NoFuel (approx_sqrt find_msb64 x).
Proof. unfold approx_sqrt. destruct (_ && _); [exact _|]. apply no_fuel_bind; [exact _|intros a]. by apply no_fuel_bind; [exact _|intros b]. Qed.
#[local] Instance no_fuel_curve r k v : NoFuel (evaluate_reward_curve find_msb64 r k v).
Proof. unfold evaluate_reward_curve. destruct k; fuel_free. Qed.
#[local] Instance no_fuel_rshare_reward c : NoFuel (get_rshare_reward find_msb64 c).
Proof. unfold get_rshare_reward. fuel_free. Qed.
#[local] Instance no_fuel_reward_fund s : NoFuel (get_reward_fund s).
Proof. unfold get_reward_fund. fuel_free. Qed.
#[local] Instance no_fuel_comment id s : NoFuel (get_comment_by_id id s).
Proof. unfold get_comment_by_id. fuel_free. Qed.
#[local] Instance no_fuel_poster n s : NoFuel (get_poster n s).
Proof. unfold get_poster. fuel_free. Qed.
#[local] Instance no_fuel_to_sbd p a : NoFuel (to_sbd p a).
Proof. unfold to_sbd. fuel_free. Qed.
#[local] Instance no_fuel_to_freezone p a : NoFuel (to_freezone p a).
Proof. unfold to_freezone. fuel_free. Qed.
#[local] Instance no_fuel_to_sbd_now x s : NoFuel (to_sbd_now x s).
Proof. unfold to_sbd_now. fuel_free. Qed.
#[local] Instance no_fuel_ltb a b : NoFuel (asset_ltb a b).
Proof. unfold asset_ltb. fuel_free. Qed.
#[local] Instance no_fuel_geb a b : NoFuel (asset_geb a b).
Proof. unfold asset_geb. fuel_free. Qed.
#[local] Instance no_fuel_neg a : NoFuel (asset_neg a).
Proof. unfold asset_neg. fuel_free. Qed.
#[local] Instance no_fuel_adjust_supply x b d : NoFuel (adjust_supply x b d).
Proof. unfold adjust_supply. fuel_free. Qed.
#[local] Instance no_fuel_accrue s d : NoFuel (accrue_interest s d).
Proof. unfold accrue_interest. fuel_free. Qed.
#[local] Instance no_fuel_modify_balance n x b d : NoFuel (modify_balance n x b d).
Proof. unfold modify_balance, modify_sbd. fuel_free. Qed.
#[local] Instance no_fuel_modify_rewards n x y b d : NoFuel (modify_reward_balance n x y b d).
Proof. unfold modify_reward_balance. fuel_free. Qed.
#[local] Instance no_fuel_adjust_sst {B} (op : balance_operator B) n x b d t :
  (∀ y, NoFuel (add_to_balance op y)) → (∀ y, NoFuel (get_combined_balance op y)) → NoFuel (adjust_SST_balance op n x b d t).
Proof. intros H1 H2. unfold adjust_SST_balance. fuel_free. Qed.
#[local] Instance no_fuel_adjust_balance n x d : NoFuel (adjust_balance n x d).
Proof.
  unfold adjust_balance, get_balance. apply no_fuel_bind; [fuel_free|intros _]. destruct (space _); [fuel_free|]. case_decide; [fuel_free|].
  apply no_fuel_bind; [|intros ?; fuel_free]. apply no_fuel_adjust_sst; intros y; cbn [add_to_balance get_combined_balance SST_regular_balance_operator]; fuel_free.
Qed.
#[local] Instance no_fuel_adjust_rewards n x y b d : NoFuel (adjust_reward_balance n x y b d).
Proof.
  unfold adjust_reward_balance. apply no_fuel_bind; [fuel_free|intros _]. destruct (space _); [fuel_free|]. case_decide; [fuel_free|].
  apply no_fuel_bind; [|intros ?; fuel_free]. apply no_fuel_adjust_sst; intros z; cbn [add_to_balance get_combined_balance SST_reward_balance_operator]; fuel_free.
Qed.
#[local] Instance no_fuel_int64 a : NoFuel (to_int64 a).
Proof. unfold to_int64. fuel_free. Qed.
#[local] Instance no_fuel_regeneration b p t m : NoFuel (regenerate_mana b p t m).
Proof.
  unfold regenerate_mana, params_validate. do 2 (apply no_fuel_bind; [exact _|intros _]). cbv zeta. destruct (_ <=? _); [exact _|].
  by repeat (apply no_fuel_bind; [exact _|intros ?]).
Qed.
#[local] Instance no_fuel_refresh_mana r x d a : NoFuel (refresh_mana r x d a).
Proof. unfold refresh_mana, update_manabar. fuel_free. Qed.
#[local] Instance no_fuel_create_vesting n x b d : NoFuel (create_vesting n x b d).
Proof.
  unfold create_vesting, create_vesting_SST, get_reward_vesting_share_price, token_reward_vesting_share_price, initial_vesting_share_price, add_token_vesting,
    add_global_vesting. destruct (space _); fuel_free.
Qed.
#[local] Instance no_fuel_create_sbd n x b d : NoFuel (create_sbd n x b d).
Proof. unfold create_sbd. fuel_free. Qed.
#[local] Instance no_fuel_set_core r s : NoFuel r → NoFuel (set_core_of r s).
Proof. intros H. unfold set_core_of. fuel_free. Qed.
#[local] Instance no_fuel_pay_curator m t st x : NoFuel (pay_curator m t st x).
Proof. unfold pay_curator, curator_claim. fuel_free. Qed.
#[local] Instance no_fuel_pay_curators id m s : NoFuel (pay_curators id m s).
Proof. unfold pay_curators. fuel_free. Qed.
#[local] Instance no_fuel_pay_beneficiary p a st x : NoFuel (pay_beneficiary p a st x).
Proof. unfold pay_beneficiary. fuel_free. Qed.
#[local] Instance no_fuel_pay_author id a b c r s : NoFuel (pay_author id a b c r s).
Proof. unfold pay_author, adjust_total_payout. fuel_free. Qed.
#[local] Instance no_fuel_pay_reward id r b s : NoFuel (pay_reward id r b s).
Proof. unfold pay_reward, get_curation_rewards_percent, mul_int, div_int. fuel_free. Qed.
#[local] Instance no_fuel_comment_reward t f p c s : NoFuel (comment_reward find_msb64 t f p c s).
Proof. unfold comment_reward. fuel_free. Qed.
#[local] Instance no_fuel_close_votes id s : NoFuel (close_votes id s).
Proof. unfold close_votes, calculate_discussion_payout_time. fuel_free. Qed.
#[local] Instance no_fuel_cashout t f p b id s : NoFuel (cashout_comment_helper find_msb64 t f p b id s).
Proof. unfold cashout_comment_helper. fuel_free. Qed.
#[local] Instance no_fuel_decay_fund st id : NoFuel (decay_fund st id).
Proof. unfold decay_fund, decay_claims, mul_int, div_int. fuel_free. Qed.
#[local] Instance no_fuel_claim s m x : NoFuel (claim_comment find_msb64 s m x).
Proof. unfold claim_comment. fuel_free. Qed.
#[local] Instance no_fuel_settle s x : NoFuel (settle_fund s x).
Proof. unfold settle_fund. fuel_free. Qed.

Lemma cashout_loop_ends fuel F f T R a p s m :
  paying F f T R a s → m !! F = Some (FundContext T R a) → length (due s) = fuel → NoFuel (cashout_loop find_msb64 fuel p (s, m)).
Proof.
  revert a s m. induction fuel as [|fuel IH]; intros a s m Hp Hm Hlen; cbn [cashout_loop fst snd].
  - destruct (due s); [fuel_free|done].
  - destruct (due s) as [|[id c] l] eqn:Ed; [fuel_free|]. assert ((id, c) ∈ due s) as Hin by (rewrite Ed; by left).
    rewrite (pg_hf _ _ _ _ _ _ Hp). unfold cashout_from_fund. rewrite (pg_fund _ _ _ _ _ _ Hp), Ok_bind. cbn [fst snd]. rewrite Hm.
    cbn [from_option_exn]. rewrite Ok_bind. cbn [fc_claims fc_balance fc_awarded].
    apply no_fuel_bind_Ok; [fuel_free|]. intros st Hst. step_in Hst r Hr. destruct r as [x s1]. step_in Hst a1 Ha1. injection Hst as <-.
    cbn [fst snd] in *. apply safe_add_value in Ha1 as ->.
    destruct (cashed_paying _ _ _ _ _ _ _ _ _ _ _ _ Hp Hin Hr) as [Hp1 Hfr]. pose proof Hin as [Hc Hd]%due_elem. cbn [fst snd] in Hc, Hd.
    pose proof (due_cashed _ _ _ c (λ _, 1) _ _ Hfr Hc Hd (pg_now _ _ _ _ _ _ Hp)) as El. rewrite <- !due_length, Ed, Hlen in El.
    eapply IH; [done|apply lookup_insert_eq|lia].
Qed.

Lemma process_cashout_ends F f R s : payable F f R s → NoFuel (process_cashout find_msb64 s).
Proof.
  intros Hpay. unfold process_cashout. apply no_fuel_bind_Ok; [fuel_free|]. intros [s1 m1] Hst. cbn [fst snd].
  assert (∃ fi, s1 = set_fund_infos (λ _, fi) s) as (fi0 & E1).
  { apply decay_funds_spec in Hst as (fi & -> & _); [eauto|apply fund_ids_NoDup]. }
  assert (hf freezone_HARDFORK_0_17 s1 = true) as -> by (rewrite E1; apply Hpay). clear fi0 E1.
  apply no_fuel_bind_Ok; [fuel_free|]. intros m2 Hm2.
  destruct (claims_made _ _ _ _ _ _ _ Hpay Hst Hm2) as (g & T & fi & -> & Hp & HmF & _).
  apply no_fuel_bind; [by eapply cashout_loop_ends|]. intros st. fuel_free.
Qed.

(** C9: from hardfork 17 up to the hardfork of tokens, the payout of a block
    ends, and when it succeeds it neither creates nor loses money: what curators,
    beneficiaries and authors receive is what the post reward fund is charged,
    and this fund never goes below zero.  Every comment whose cashout time has
    passed is closed, with the head time as its last payout, and no comment is due
    any more; every other comment is as before, so is the balance of every
    other fund (the recent claims of all funds decay), and the votes still add up.
    Conditions ([payable]): the votes add up, the net shares of a comment are
    below 2^63, the recent claims of the fund below 2^100 and decayed within the decay
    time, the claims due below 2^127, and the fund, the share price (a token buys
    at least one share and the whole fund fewer than 2^63) and the feed are well
    formed. *)
Theorem cashout_pays_from_fund F f R s :
  payable F f R s →
  match process_comment_cashout find_msb64 s with
  | Ok s' => payout_done F R s s'
  | Throw e => e ≠ fuel_exhausted
  end.
Proof.
  intros Hpay. pose proof (pb_hf _ _ _ _ Hpay) as [H17 HS]. unfold process_comment_cashout. rewrite HS.
  assert (hf freezone_FIRST_CASHOUT_TIME s = true) as ->.
  { unfold hf, has_hardfork, freezone_FIRST_CASHOUT_TIME, freezone_HARDFORK_0_7, freezone_HARDFORK_0_17 in *. apply Z.ltb_lt in H17. apply Z.ltb_lt. lia. }
  cbn [negb]. destruct (process_cashout find_msb64 s) as [s'|e] eqn:E; [by eapply process_cashout_spec|].
  pose proof (process_cashout_ends _ _ _ _ Hpay) as Hnf. rewrite E in Hnf. intros ->. by apply Hnf.
Qed.

End Payouts.

(** ** A sample *)

(** A week after Alice's post, which Bob voted for. *)
Definition sample_due : social := at_time (sample_time + 7 * 86400) sample_voted.

Lemma sample_due_ok : sample_ok sample_due.
Proof. apply at_time_ok; [vm_compute; reflexivity|exact sample_voted_ok]. Qed.

Lemma sample_due_ready : ready 5000000 (core sample_due).
Proof.
  split; [split|..].
  - lia.
  - split; vm_compute; [split|]; congruence.
  - split; vm_compute; [split|]; congruence.
  - vm_compute. split; congruence.
  - vm_compute. reflexivity.
  - assert (sst_tokens (core sample_due) = ∅) as E by (vm_compute; reflexivity). unfold tokens_wf. rewrite E. done.
  - split; vm_compute; reflexivity.
Qed.

Lemma sample_due_payable : payable Z.log2 0 sample_fund 5000000 sample_due.
Proof.
  destruct sample_due_ok as (H1 & H2 & H3). split; [|vm_compute; reflexivity|vm_compute; reflexivity|vm_compute; reflexivity|exact sample_due_ready|exact H1|exact H2|..].
  - split; vm_compute; reflexivity.
  - intros f Hf. assert (get_reward_fund sample_due = Ok (0, sample_fund)) as E by (vm_compute; reflexivity). rewrite E in Hf. injection Hf as <-.
    vm_compute. split; congruence.
  - assert (map_Forall (λ _ c, net_rshares (cm_rshares c) < 2 ^ 63) (comments sample_due)) as H by (apply (bool_decide_unpack _); vm_compute; exact I).
    exact H.
  - split; [split; vm_compute; split; congruence|vm_compute; reflexivity].
  - vm_compute. split; congruence.
  - vm_compute. reflexivity.
Qed.

Lemma cashout_pays_from_fund_witness :
  length (due sample_due) = 1%nat ∧ ∃ s', process_comment_cashout Z.log2 sample_due = Ok s' ∧ payout_done 0 5000000 sample_due s'
    ∧ (∃ b, reward_funds (core s') !! 0 = Some b ∧ b < 5000000).
Proof.
  split; [vm_compute; reflexivity|]. exists (value_of sample_due (process_comment_cashout Z.log2 sample_due)).
  pose proof (value_of_Ok sample_due (process_comment_cashout Z.log2 sample_due) ltac:(vm_compute; reflexivity)) as E. split; [exact E|].
  pose proof (cashout_pays_from_fund Z.log2 0 sample_fund 5000000 sample_due sample_due_payable) as H. rewrite E in H. split; [exact H|].
  destruct (reward_funds (core (value_of sample_due (process_comment_cashout Z.log2 sample_due))) !! 0) as [b|] eqn:Eb; [|vm_compute in Eb; discriminate].
  exists b. split; [reflexivity|]. apply Z.ltb_lt.
  pose proof (f_equal (λ o, match o with Some b => b <? 5000000 | None => true end) Eb) as F. cbn beta iota in F. rewrite <- F. vm_compute. reflexivity.
Defined.

(** ** A vote that stops the payouts *)

(** The sample after the hardfork of tokens; the one vote on the post has
    100204789759 shares, and so has the post. *)
Definition wrap_core (d : db) : db :=
  DB (accounts d) (regular_balances d) (rewards_balances d) (sst_tokens d) (icos d) (orders d) (escrows d) (converts d)
    (withdraws d) (liquidity d) (reward_funds d) (staking d) (next_id d) (gpo d) (current_median_history d) 24.
Definition wrap_state : social :=
  set_comments (alter (set_rshares (RShares 100204789759 100204789759 100204789759 49456 1 0)) 0)
    (set_cvotes (alter (λ v, CommentVote 49456 100204789759 (vote_percent v) (vt_last_update v) (num_changes v)) (0, freezone_SYMBOL, 2))
       (set_core (wrap_core (core sample_voted)) sample_voted)).

(** One share above the dust threshold. *)
Definition wrap_vote : vote2_operation := Vote2Op "alice" "alice" "hello" [(freezone_SYMBOL, 50000001)].
Definition payout_time : Z := sample_time + 7 * 86400.

(** The curve the weights of curators are taken from is not monotone. *)
Lemma curation_curve_not_monotone :
  curve_weight Z.log2 100204789759 convergent_square_root (fund_constant sample_fund) = Ok 49456
  ∧ curve_weight Z.log2 100204789760 convergent_square_root (fund_constant sample_fund) = Ok 49455.
Proof. split; vm_compute; reflexivity. Qed.

(** Under the hardfork of tokens a single vote can stop the payout of
    comments.  The curation curve falls at some points; there the weight of a
    vote2 of one effective share wraps around to 2^64 - 1, the vote is
    accepted, and when the comment is due the payout of the whole block throws,
    although it succeeds without the vote.  The evaluator of hardfork 20 guards
    against this case. *)
Theorem vote_can_stop_payouts :
  is_ok (process_comment_cashout Z.log2 (at_time payout_time wrap_state)) = true
  ∧ (vote2_apply Z.log2 wrap_vote wrap_state ≫= λ s, mret (vt_weight <$> cvotes s !! (0, freezone_SYMBOL, 1))) = Ok (Some (2 ^ 64 - 1))
  ∧ (s ← vote2_apply Z.log2 wrap_vote wrap_state; process_comment_cashout Z.log2 (at_time payout_time s)) = Throw assert_exception.
Proof. split_and!; vm_compute; reflexivity. Qed.
