(* ===== verification/Burn.v ===== *)
(** * The null account

    database.cpp: [clear_null_account_balance].  What is sent to the null
    account is burned at the end of the block: its balances are cleared and
    taken out of the supplies, and its vesting shares leave the vesting pools.

    The virtual operation with the burned amounts is left out. *)

From S2P Require Import Prelude Config AccountName Uint128 SafeInt AssetSymbol Asset Manabar MapSum State Ledger Votes Vesting Conservation.
From stdpp Require Import gmap strings.
#[local] Open Scope Z_scope.

(** [if( x.amount > 0 ) total += x] *)
Definition add_positive (total x : Z) : res Z := if 0 <? x then safe_add total x else mret total.

(** The members the code clears. *)
Definition emptied (a : account) : account :=
  Account 0 0
    (SbdAccount 0 (sbd_seconds (sbd a)) (sbd_seconds_last_update (sbd a)) (sbd_last_interest_payment (sbd a)))
    (SbdAccount 0 (sbd_seconds (savings_sbd a)) (sbd_seconds_last_update (savings_sbd a)) (sbd_last_interest_payment (savings_sbd a)))
    (savings_withdraw_requests a) 0 0 0 0 (set_ma_vesting 0 (stake a)) (withdraw_routes a) (proxy a) (proxied_vsf_votes a)
    (witnesses_voted_for a) (can_vote a).

(** What the shares of the null account are worth. *)
Definition shares_value (a : account) (g : global_properties) : res Z :=
  if 0 <? vesting_shares a then
    p ← get_vesting_share_price g;
    v ← asset_mul_price (Asset (vesting_shares a) VESTS_SYMBOL) p;
    _ ← fc_assert (symbol v =? freezone_SYMBOL);
    mret (amount v)
  else mret 0.

Record burn_totals : Type := BurnTotals {
  total_freezone : Z;
  total_sbd : Z;
  total_vests : Z
}.

Definition burn_sums (a : account) (value : Z) : res burn_totals :=
  f ← add_positive 0 (balance a);
  f ← add_positive f (savings_balance a);
  b ← add_positive 0 (sbd_balance (sbd a));
  b ← add_positive b (sbd_balance (savings_sbd a));
  f ← (if 0 <? vesting_shares a then safe_add f value else mret f);
  v ← (if 0 <? vesting_shares a then safe_add 0 (vesting_shares a) else mret 0);
  f ← add_positive f (reward_freezone_balance a);
  b ← add_positive b (reward_sbd_balance a);
  f ← (if 0 <? reward_vesting_balance a then safe_add f (reward_vesting_freezone a) else mret f);
  v ← (if 0 <? reward_vesting_balance a then safe_add v (reward_vesting_balance a) else mret v);
  mret (BurnTotals f b v).

(** The vesting shares of the null account leave the pools. *)
Definition burn_shares (a : account) (value : Z) (d : db) : res db :=
  let g := gpo d in
  if 0 <? vesting_shares a then
    s ← safe_sub (total_vesting_shares g) (vesting_shares a);
    f ← safe_sub (total_vesting_fund_freezone g) value;
    mret (set_gpo (set_vesting f s (pending_rewarded_vesting_shares g) (pending_rewarded_vesting_freezone g) g) d)
  else mret d.

Definition burn_rewards (a : account) (d : db) : res db :=
  let g := gpo d in
  if 0 <? reward_vesting_balance a then
    s ← safe_sub (pending_rewarded_vesting_shares g) (reward_vesting_balance a);
    f ← safe_sub (pending_rewarded_vesting_freezone g) (reward_vesting_freezone a);
    mret (set_gpo (set_vesting (total_vesting_fund_freezone g) (total_vesting_shares g) s f g) d)
  else mret d.

(** [if( total.amount > 0 ) adjust_supply( -total )] *)
Definition burn_supply (total : asset) (d : db) : res db :=
  if 0 <? amount total then n ← asset_neg total; adjust_supply n false d else mret d.

Definition clear_null_account_balance (d : db) : res db :=
  if negb (has_hardfork freezone_HARDFORK_0_14 d) then mret d
  else
    a ← get_account freezone_NULL_ACCOUNT d;
    value ← shares_value a (gpo d);
    t ← burn_sums a value;
    if (total_freezone t =? 0) && (total_sbd t =? 0) && (total_vests t =? 0) then mret d
    else
      d ← burn_shares a value d;
      d ← burn_rewards a d;
      let d := if (0 <? total_freezone t) || (0 <? total_sbd t) then put_account freezone_NULL_ACCOUNT (emptied a) d else d in
      d ← burn_supply (Asset (total_freezone t) freezone_SYMBOL) d;
      burn_supply (Asset (total_sbd t) SBD_SYMBOL) d.

(** ** What a call does *)

(** The balances the code leaves non-negative, and no value is pending without
    the shares it pays for. *)
Record null_ok (a : account) : Prop := {
  null_balance : 0 <= balance a;
  null_savings : 0 <= savings_balance a;
  null_sbd : 0 <= sbd_balance (sbd a);
  null_savings_sbd : 0 <= sbd_balance (savings_sbd a);
  null_shares : 0 <= vesting_shares a;
  null_reward : 0 <= reward_freezone_balance a;
  null_reward_sbd : 0 <= reward_sbd_balance a;
  null_reward_shares : 0 <= reward_vesting_balance a;
  null_reward_value : 0 <= reward_vesting_freezone a;
  null_reward_paid : reward_vesting_balance a = 0 → reward_vesting_freezone a = 0
}.

Lemma add_positive_value t x r : 0 <= x → add_positive t x = Ok r → r = t + x.
Proof.
  unfold add_positive. intros Hx H. destruct (Z.ltb_spec 0 x); [by apply safe_add_value|].
  injection H as <-. lia.
Qed.

Lemma guarded_add_value (g t x r : Z) :
  0 <= g → (g = 0 → x = 0) → (if 0 <? g then safe_add t x else mret t) = Ok r → r = t + x.
Proof.
  intros Hg Hx H. destruct (Z.ltb_spec 0 g); [by apply safe_add_value|].
  injection H as <-. rewrite Hx; lia.
Qed.

Lemma shares_value_zero a g v : 0 <= vesting_shares a → shares_value a g = Ok v → vesting_shares a = 0 → v = 0.
Proof. unfold shares_value. intros Hs H E. rewrite E in H. by injection H. Qed.

Lemma burn_sums_value a v t :
  null_ok a → (vesting_shares a = 0 → v = 0) → burn_sums a v = Ok t →
  t = BurnTotals (balance a + savings_balance a + v + reward_freezone_balance a + reward_vesting_freezone a)
        (sbd_balance (sbd a) + sbd_balance (savings_sbd a) + reward_sbd_balance a)
        (vesting_shares a + reward_vesting_balance a).
Proof.
  intros [] Hv H. unfold burn_sums in H. repeat (apply bind_Ok in H as (? & ? & H)). injection H as <-.
  repeat match goal with
    | E : add_positive _ _ = Ok _ |- _ => apply add_positive_value in E; [|done]
    | E : (if _ then _ else _) = Ok _ |- _ => apply guarded_add_value in E; [|done|done]
    end. subst. f_equal; lia.
Qed.

Lemma gap_burn_shares s a v d d' :
  0 <= vesting_shares a → (vesting_shares a = 0 → v = 0) → burn_shares a v d = Ok d' →
  gap s d' = gap s d - amount_of s (Asset v freezone_SYMBOL) + amount_of s (Asset (vesting_shares a) VESTS_SYMBOL)
  ∧ accounts d' = accounts d.
Proof.
  intros Hs Hv H. unfold burn_shares in H. destruct (Z.ltb_spec 0 (vesting_shares a)).
  - repeat (apply bind_Ok in H as (? & ? & H)). injection H as <-. safe_values. rewrite gap_set_vesting.
    split; [|done]. unfold amount_of; cbn [symbol amount]. repeat case_match; lia.
  - injection H as <-. replace (vesting_shares a) with 0 by lia. rewrite Hv, !amount_of_zero by lia. split; [lia|done].
Qed.

Lemma gap_burn_rewards s a d d' :
  null_ok a → burn_rewards a d = Ok d' →
  gap s d' = gap s d - amount_of s (Asset (reward_vesting_freezone a) freezone_SYMBOL)
             + amount_of s (Asset (reward_vesting_balance a) VESTS_SYMBOL)
  ∧ accounts d' = accounts d.
Proof.
  intros [] H. unfold burn_rewards in H. destruct (Z.ltb_spec 0 (reward_vesting_balance a)).
  - repeat (apply bind_Ok in H as (? & ? & H)). injection H as <-. safe_values. rewrite gap_set_vesting.
    split; [|done]. unfold amount_of; cbn [symbol amount]. repeat case_match; lia.
  - injection H as <-. assert (reward_vesting_balance a = 0) as E by lia. rewrite null_reward_paid0, E, !amount_of_zero by done.
    split; [lia|done].
Qed.

Lemma accounts_adjust_supply x d d' : symbol x = freezone_SYMBOL ∨ symbol x = SBD_SYMBOL →
  adjust_supply x false d = Ok d' → accounts d' = accounts d.
Proof.
  intros Hs H. unfold adjust_supply in H. rewrite (proj2 (space_legacy _)) in H by tauto. cbv zeta in H.
  case_match; [|case_match; [|done]]; repeat (apply bind_Ok in H as (? & _ & H)); by injection H as <-.
Qed.

Lemma gap_burn_supply s x d d' :
  symbol x = freezone_SYMBOL ∨ symbol x = SBD_SYMBOL → 0 <= amount x → burn_supply x d = Ok d' →
  gap s d' = gap s d + amount_of s x ∧ accounts d' = accounts d.
Proof.
  intros Hs Hx H. unfold burn_supply in H. destruct (Z.ltb_spec 0 (amount x)).
  - apply bind_Ok in H as (n & Hn & H). pose proof (gap_adjust_supply s _ _ _ _ H) as ->.
    rewrite (amount_of_neg _ _ _ Hn). split; [lia|]. eapply accounts_adjust_supply; [|done].
    by apply asset_neg_value in Hn as ->.
  - injection H as <-. unfold amount_of. case_match; split; try done; lia.
Qed.

Lemma gap_burn_supplies y f b d d1 d2 :
  0 <= f → 0 <= b → burn_supply (Asset f freezone_SYMBOL) d = Ok d1 → burn_supply (Asset b SBD_SYMBOL) d1 = Ok d2 →
  gap y d2 = gap y d + amount_of y (Asset f freezone_SYMBOL) + amount_of y (Asset b SBD_SYMBOL) ∧ accounts d2 = accounts d.
Proof.
  intros Hf Hb H1 H2. apply (gap_burn_supply y) in H1 as [G1 A1]; [|by left|done].
  apply (gap_burn_supply y) in H2 as [G2 A2]; [|by right|done]. split; [lia|congruence].
Qed.

(** What an emptied account holds. *)
Lemma held_emptied s n a : account_held s n (emptied a) = 0.
Proof. unfold account_held. repeat case_match; reflexivity. Qed.

(** ** Theorems *)

(** The amounts a call burns: freezone (with the value of the shares), SBD,
    and vesting shares. *)
Definition burned (a : account) (v : Z) : burn_totals :=
  BurnTotals (balance a + savings_balance a + v + reward_freezone_balance a + reward_vesting_freezone a)
    (sbd_balance (sbd a) + sbd_balance (savings_sbd a) + reward_sbd_balance a)
    (vesting_shares a + reward_vesting_balance a).

Definition cleared (t : burn_totals) : bool := (0 <? total_freezone t) || (0 <? total_sbd t).

(** What a call does to the null account and to the balance of every symbol. *)
Lemma clear_null_account_Ok a v d d' :
  has_hardfork freezone_HARDFORK_0_14 d = true → accounts d !! freezone_NULL_ACCOUNT = Some a → null_ok a →
  shares_value a (gpo d) = Ok v → 0 <= v → clear_null_account_balance d = Ok d' →
  accounts d' = (if cleared (burned a v) then <[freezone_NULL_ACCOUNT := emptied a]> (accounts d) else accounts d)
  ∧ ∀ y, gap y d' = gap y d + (if cleared (burned a v) then 0 else amount_of y (Asset (total_vests (burned a v)) VESTS_SYMBOL)).
Proof.
  intros Hhf Ha Hok Hv Hv0 H. unfold clear_null_account_balance, get_account in H. rewrite Hhf, Ha in H. cbn [negb] in H.
  apply bind_Ok in H as (a0 & Ea & H). injection Ea as <-. rewrite Hv in H. apply bind_Ok in H as (v0 & Ev & H). injection Ev as <-.
  pose proof (shares_value_zero _ _ _ (null_shares _ Hok) Hv) as Hz.
  apply bind_Ok in H as (t & Ht & H). apply burn_sums_value in Ht; [|done..]. fold (burned a v) in Ht. subst t.
  assert (0 <= total_freezone (burned a v) ∧ 0 <= total_sbd (burned a v)) as [Hf Hb] by (destruct Hok; cbn; lia).
  destruct (_ && _) eqn:E0 in H.
  { injection H as <-. apply andb_true_iff in E0 as [[E1%Z.eqb_eq E2%Z.eqb_eq]%andb_true_iff E3%Z.eqb_eq].
    unfold cleared. rewrite E1, E2, E3. split; [done|]. intros y. rewrite amount_of_zero. cbn. lia. }
  apply bind_Ok in H as (d1 & H1 & H). apply bind_Ok in H as (d2 & H2 & H). cbv zeta in H.
  fold (cleared (burned a v)) in H. apply bind_Ok in H as (d3 & H3 & H4).
  apply (gap_burn_shares 0) in H1 as H1'; [|by destruct Hok|done]. apply (gap_burn_rewards 0) in H2 as H2'; [|done].
  destruct H1' as [_ A1], H2' as [_ A2].
  pose proof (λ y, gap_burn_supplies y _ _ _ _ _ Hf Hb H3 H4) as Hs.
  split; [destruct (Hs 0) as [_ ->]; destruct (cleared _); cbn; congruence|].
  intros y. destruct (Hs y) as [-> _].
  apply (gap_burn_shares y) in H1 as [G1 _]; [|by destruct Hok|done]. apply (gap_burn_rewards y) in H2 as [G2 _]; [|done].
  destruct (cleared (burned a v)) eqn:Ec.
  - rewrite (gap_put_account _ _ a) by congruence. rewrite held_emptied, account_held_split, G2, G1. unfold burned. cbn [total_freezone total_sbd].
    rewrite !amount_of_add. lia.
  - unfold cleared in Ec. bools. assert (total_freezone (burned a v) = 0) as -> by lia. assert (total_sbd (burned a v) = 0) as -> by lia.
    rewrite !amount_of_zero, G2, G1. assert (v = 0 ∧ reward_vesting_freezone a = 0) as [-> ->] by (destruct Hok; cbn in *; lia).
    cbn [burned total_vests]. rewrite !amount_of_zero, amount_of_add. lia.
Qed.



(** C26: what is sent to the null account is burned exactly.  After a call of
    [clear_null_account_balance] that finds freezone or SBD (or shares worth
    some) the null account is empty and, for every symbol, the difference
    between what is held and what is issued is unchanged: the supplies and the
    vesting pools lose exactly what the account held.  When all it finds are
    shares worth nothing, the account keeps them although they have left
    [total_vesting_shares], and the difference grows by them. *)
Theorem null_account_burned a v d d' :
  has_hardfork freezone_HARDFORK_0_14 d = true → accounts d !! freezone_NULL_ACCOUNT = Some a → null_ok a →
  shares_value a (gpo d) = Ok v → 0 <= v → clear_null_account_balance d = Ok d' →
  accounts d' = (if cleared (burned a v) then <[freezone_NULL_ACCOUNT := emptied a]> (accounts d) else accounts d)
  ∧ ∀ y, gap y d' = gap y d + (if cleared (burned a v) then 0 else amount_of y (Asset (total_vests (burned a v)) VESTS_SYMBOL)).
Proof. apply clear_null_account_Ok. Qed.

(** ** Dust

    Alice powers up one satoshi of freezone to the null account. *)

Definition dust_holder (fz shares : Z) : account :=
  Account fz 0 (SbdAccount 0 (U128 0 0) 0 0) (SbdAccount 0 (U128 0 0) 0 0) 0 0 0 0 0
    (ManaAccount shares 0 0 time_point_sec_maximum 0 0 0 (Manabar 0 0) (Manabar 0 0)) 0 "" [0; 0; 0; 0] 0 true.

Definition dust_db : db :=
  DB {[ "alice" := dust_holder 1000 150; freezone_NULL_ACCOUNT := dust_holder 0 0 ]}
    ∅ ∅ ∅ ∅ ∅ ∅ ∅ ∅ ∅ {[0 := 70]} (Staking ∅ ∅ (U128 0 0) ∅ ∅ ∅ 3000) 0
    (GPO 1000 100000000 1170 0 0 1170 100 150 0 0 0 1000 10000 10 432000 2500) null_price 23.

Definition dust : transfer_to_vesting_operation := TransferToVesting "alice" freezone_NULL_ACCOUNT (Asset 1 freezone_SYMBOL).

Definition power_up_dust : res db := _ ← transfer_to_vesting_validate dust; transfer_to_vesting_apply dust dust_db.

(** The shares [total_vesting_shares] counts, and those the accounts hold. *)
Definition shares_issued_and_held (d : db) : Z * Z := (total_vesting_shares (gpo d), held VESTS_SYMBOL d).

(** From a state that [validate_invariants] accepts, powering up one satoshi to
    the null account gives another such state; the next call of
    [clear_null_account_balance] takes the share out of the total, [validate_invariants]
    throws, and the call after it takes the same share again. *)
Lemma dust_example :
  validate_invariants dust_db = Ok tt
  ∧ (d ← power_up_dust; validate_invariants d) = Ok tt
  ∧ (d ← power_up_dust; mret (shares_issued_and_held d)) = Ok (151, 151)
  ∧ (d ← power_up_dust; d ← clear_null_account_balance d; mret (shares_issued_and_held d)) = Ok (150, 151)
  ∧ (d ← power_up_dust; d ← clear_null_account_balance d; validate_invariants d) = Throw assert_exception
  ∧ (d ← power_up_dust; d ← clear_null_account_balance d; d ← clear_null_account_balance d;
     mret (shares_issued_and_held d)) = Ok (149, 151).
Proof. split_and!; vm_compute; reflexivity. Qed.






(** ** A burn *)

Definition burn_db : db :=
  DB {[ "alice" := dust_holder 1000 150; freezone_NULL_ACCOUNT := dust_holder 30 3 ]}
    ∅ ∅ ∅ ∅ ∅ ∅ ∅ ∅ ∅ {[0 := 70]} (Staking ∅ ∅ (U128 0 0) ∅ ∅ ∅ 3000) 0
    (GPO 1000 100000000 1200 0 0 1200 100 153 0 0 0 1000 10000 10 432000 2500) null_price 23.

Lemma null_account_burned_witness :
  ∃ d', clear_null_account_balance burn_db = Ok d'
    ∧ accounts d' = <[freezone_NULL_ACCOUNT := emptied (dust_holder 30 3)]> (accounts burn_db)
    ∧ ∀ y, gap y d' = gap y burn_db.
Proof.
  destruct (clear_null_account_balance burn_db) as [d'|e] eqn:E; [|by vm_compute in E].
  exists d'. split; [done|].
  destruct (null_account_burned (dust_holder 30 3) 1 burn_db d') as [HA HG];
    [reflexivity|reflexivity|split; (vm_compute; discriminate) || done|vm_compute; reflexivity|lia|exact E|].
  split; [exact HA|]. intros y. rewrite HG. apply Z.add_0_r.
Defined.
