(* ===== verification/Accounts.v ===== *)
(** * Accounts and their authorities

    protocol/steem_operations.cpp (the [validate] of the account operations),
    chain/steem_evaluator.cpp: [verify_authority_accounts_exist],
    [initialize_account_object], the evaluators of account_create,
    account_create_with_delegation, account_update, account_update2,
    claim_account and create_claimed_account; database.cpp:
    [update_owner_authority].

    An account is a row of [accounts] of the chain state, a row of [ids] with
    the members only this code uses, a row of [auths]
    (account_authority_object) and a row of [metas] (account_metadata_object,
    of a build that is not IS_LOW_MEM), all by its name.  A new account must
    not exist: [create] throws when a unique index has the key already.  The
    code is that of the main network. *)

From S2P Require Import Prelude Config AccountName Authority Uint128 SafeInt AssetSymbol Asset Manabar ResourceDynamics MapSum State Ledger Votes Vesting WitnessSchedule Funds.
From stdpp Require Import gmap strings.
#[local] Open Scope Z_scope.

Definition freezone_TEMP_ACCOUNT : name := "temp".

#[global] Instance authority_eq_dec : EqDecision authority.
Proof. solve_decision. Defined.

(** ** Objects *)

(** The members of account_object beside those of [account]. *)
Record identity : Type := Identity {
  memo_key : public_key;
  last_account_update : Z;
  created : Z;
  mined : bool;
  recovery_account : name;
  last_account_recovery : Z;
  pending_claimed_accounts : Z         (* share_type *)
}.

Definition set_recovery_account (n : name) (i : identity) : identity :=
  Identity (memo_key i) (last_account_update i) (created i) (mined i) n (last_account_recovery i) (pending_claimed_accounts i).
Definition set_last_recovery (t : Z) (i : identity) : identity :=
  Identity (memo_key i) (last_account_update i) (created i) (mined i) (recovery_account i) t (pending_claimed_accounts i).
Definition set_claimed (v : Z) (i : identity) : identity :=
  Identity (memo_key i) (last_account_update i) (created i) (mined i) (recovery_account i) (last_account_recovery i) v.

Record account_authority : Type := AccountAuthority {
  owner : authority;
  active : authority;
  posting : authority;
  last_owner_update : Z
}.

(** owner_authority_history_object *)
Record owner_history : Type := OwnerHistory {
  oh_account : name;
  previous_owner_authority : authority;
  last_valid_time : Z
}.

(** account_recovery_request_object and change_recovery_account_request_object,
    by [account_to_recover]. *)
Record recovery_request : Type := RecoveryRequest {
  rr_new_owner_authority : authority;
  rr_expires : Z
}.
Record change_request : Type := ChangeRequest {
  cr_recovery_account : name;
  cr_effective_on : Z
}.

(** The chain state with these objects.  Histories are listed by id, which is
    the order of creation.  [is_producing] and [is_pending_tx] are flags of the
    database. *)
Record registry : Type := Registry {
  rf : funds;
  ids : gmap name identity;
  auths : gmap name account_authority;
  metas : gmap name (string * string);           (* json_metadata, posting_json_metadata *)
  histories : list owner_history;
  recovery_requests : gmap name recovery_request;
  change_requests : gmap name change_request;
  decline_requests : gmap name Z;                (* effective_date of decline_voting_rights_request_object *)
  is_producing : bool;
  is_pending_tx : bool
}.

Definition rdb (r : registry) : db := fdb (rf r).

Definition set_rf (f : funds) (r : registry) : registry :=
  Registry f (ids r) (auths r) (metas r) (histories r) (recovery_requests r) (change_requests r) (decline_requests r)
    (is_producing r) (is_pending_tx r).
Definition set_rdb (d : db) (r : registry) : registry := set_rf (set_fdb d (rf r)) r.
Definition set_ids f (r : registry) : registry :=
  Registry (rf r) (f (ids r)) (auths r) (metas r) (histories r) (recovery_requests r) (change_requests r) (decline_requests r)
    (is_producing r) (is_pending_tx r).
Definition set_auths f (r : registry) : registry :=
  Registry (rf r) (ids r) (f (auths r)) (metas r) (histories r) (recovery_requests r) (change_requests r) (decline_requests r)
    (is_producing r) (is_pending_tx r).
Definition set_metas f (r : registry) : registry :=
  Registry (rf r) (ids r) (auths r) (f (metas r)) (histories r) (recovery_requests r) (change_requests r) (decline_requests r)
    (is_producing r) (is_pending_tx r).
Definition set_histories f (r : registry) : registry :=
  Registry (rf r) (ids r) (auths r) (metas r) (f (histories r)) (recovery_requests r) (change_requests r) (decline_requests r)
    (is_producing r) (is_pending_tx r).
Definition set_recovery_requests f (r : registry) : registry :=
  Registry (rf r) (ids r) (auths r) (metas r) (histories r) (f (recovery_requests r)) (change_requests r) (decline_requests r)
    (is_producing r) (is_pending_tx r).
Definition set_change_requests f (r : registry) : registry :=
  Registry (rf r) (ids r) (auths r) (metas r) (histories r) (recovery_requests r) (f (change_requests r)) (decline_requests r)
    (is_producing r) (is_pending_tx r).
Definition set_decline_requests f (r : registry) : registry :=
  Registry (rf r) (ids r) (auths r) (metas r) (histories r) (recovery_requests r) (change_requests r) (f (decline_requests r))
    (is_producing r) (is_pending_tx r).

Definition rhf (hardfork : Z) (r : registry) : bool := has_hardfork hardfork (rdb r).
Definition rnow (r : registry) : Z := now (rdb r).

Definition get_identity (n : name) (r : registry) : res identity := from_option_exn out_of_range (ids r !! n).
Definition get_authorities (n : name) (r : registry) : res account_authority := from_option_exn out_of_range (auths r !! n).

(** [modify( account, f )] of the members in [ids]. *)
Definition modify_identity (n : name) (f : identity → res identity) (r : registry) : res registry :=
  i ← get_identity n r;
  i ← f i;
  mret (set_ids <[n := i]> r).

(** ** Checks *)

Definition validate_auth_size (a : authority) : res unit :=
  fc_assert (Z.of_nat (length (account_auths a) + length (key_auths a)) <=? freezone_MAX_AUTHORITY_MEMBERSHIP).

Definition verify_authority_accounts_exist (a : authority) (r : registry) : res unit :=
  res_fold (λ _ aw, fc_assert (bool_decide (is_Some (accounts (rdb r) !! aw.1)))) tt (account_auths a).

(** [for( a : auth.account_auths ) _db.get_account( a.first )] *)
Definition get_authority_accounts (a : authority) (r : registry) : res unit :=
  res_fold (λ _ aw, _ ← get_account aw.1 (rdb r); mret tt) tt (account_auths a).

(** The same check for an optional authority. *)
Definition check_opt (f : authority → res unit) (a : option authority) : res unit :=
  match a with Some a => f a | None => mret tt end.

(** ** Creation *)

Definition initialize_account_object (key : public_key) (mined_account : bool) (recovery : name) (d : db) : account * identity :=
  let t := now d in
  let mana := if has_hardfork freezone_HARDFORK_0_20 d then 0 else freezone_100_PERCENT in
  let recovery :=
    if has_hardfork freezone_HARDFORK_0_11 d then
      if negb (has_hardfork freezone_HARDFORK_0_20 d) || negb (bool_decide (recovery = freezone_TEMP_ACCOUNT)) then recovery else ""
    else "freezone" in
  (Account 0 0 (SbdAccount 0 (U128 0 0) 0 0) (SbdAccount 0 (U128 0 0) 0 0) 0 0 0 0 0
     (ManaAccount 0 0 0 time_point_sec_maximum 0 0 0 (Manabar mana t) (Manabar 0 t)) 0 "" [0; 0; 0; 0] 0 true,
   Identity key 0 t mined_account recovery 0 0).

(** [create< account_object >], [create< account_metadata_object >] and
    [create< account_authority_object >]; [received] are the shares delegated
    to the new account. *)
Definition create_account (n : name) (key : public_key) (recovery : name) (received : Z) (json : string)
    (o a p : authority) (r : registry) : res registry :=
  let '(acc, i) := initialize_account_object key false recovery (rdb r) in
  let acc := set_stake (ManaAccount 0 received 0 time_point_sec_maximum 0 0 0 (voting_manabar (stake acc)) (downvote_manabar (stake acc))) acc in
  _ ← check logic_error (bool_decide (accounts (rdb r) !! n = None ∧ ids r !! n = None));
  let r := set_ids <[n := i]> (set_rdb (put_account n acc (rdb r)) r) in
  _ ← check logic_error (bool_decide (metas r !! n = None));
  let r := set_metas <[n := (json, "")]> r in
  _ ← check logic_error (bool_decide (auths r !! n = None));
  mret (set_auths <[n := AccountAuthority o a p 0]> r).

Section Operations.

(** [fc::is_utf8] and [fc::json::is_valid]. *)
Context (is_utf8 json_is_valid : string → bool).

Definition json_validate (s : string) : res unit :=
  if decide (s = "") then mret tt
  else _ ← fc_assert (is_utf8 s); fc_assert (json_is_valid s).

Record account_create_operation : Type := AccountCreate {
  ac_fee : asset;
  ac_creator : name;
  ac_new_account_name : name;
  ac_owner : authority;
  ac_active : authority;
  ac_posting : authority;
  ac_memo_key : public_key;
  ac_json_metadata : string
}.

Definition account_create_validate (o : account_create_operation) : res unit :=
  _ ← validate_account_name (ac_new_account_name o);
  _ ← fc_assert (symbol (ac_fee o) =? freezone_SYMBOL);
  _ ← authority_validate (ac_owner o);
  _ ← authority_validate (ac_active o);
  _ ← json_validate (ac_json_metadata o);
  b ← asset_geb (ac_fee o) (Asset 0 freezone_SYMBOL);
  fc_assert b.

(** What must be paid for an account. *)
Definition check_creation_fee (fee : asset) (r : registry) : res unit :=
  let median := Asset (account_creation_fee (staking (rdb r))) freezone_SYMBOL in
  if rhf freezone_HARDFORK_0_20 r then fc_assert (asset_eqb fee median)
  else if negb (rhf freezone_HARDFORK_0_20 r) && rhf freezone_HARDFORK_0_19 r then
    x ← safe_mul (amount median) freezone_CREATE_ACCOUNT_WITH_freezone_MODIFIER;
    b ← asset_geb fee (Asset x freezone_SYMBOL);
    fc_assert b
  else if rhf freezone_HARDFORK_0_1 r then
    b ← asset_geb fee median;
    fc_assert b
  else mret tt.

Definition check_max_fee (fee : asset) (r : registry) : res unit :=
  let most := Asset freezone_MAX_ACCOUNT_CREATION_FEE freezone_SYMBOL in
  _ ← asset_gtb fee most;
  if rhf freezone_HARDFORK_0_20 r || is_producing r then b ← asset_leb fee most; fc_assert b else mret tt.

Definition check_sizes (o a p : authority) (r : registry) : res unit :=
  if rhf freezone_HARDFORK_0_20 r then
    _ ← validate_auth_size o; _ ← validate_auth_size a; validate_auth_size p
  else mret tt.

(** [if( !HF20 && fee.amount > 0 ) create_vesting( new_account, fee )] *)
Definition vest_fee (n : name) (fee : asset) (r : registry) : res registry :=
  if negb (rhf freezone_HARDFORK_0_20 r) && (0 <? amount fee) then
    '(_, d) ← create_vesting n fee false (rdb r);
    mret (set_rdb d r)
  else mret r.

(** [if( HF20 ) adjust_balance( null account, fee )] *)
Definition burn_fee (fee : asset) (r : registry) : res registry :=
  if rhf freezone_HARDFORK_0_20 r then
    _ ← get_account freezone_NULL_ACCOUNT (rdb r);
    d ← adjust_balance freezone_NULL_ACCOUNT fee (rdb r);
    mret (set_rdb d r)
  else mret r.

Definition account_create_apply (o : account_create_operation) (r : registry) : res registry :=
  _ ← get_account (ac_creator o) (rdb r);
  _ ← check_max_fee (ac_fee o) r;
  _ ← check_creation_fee (ac_fee o) r;
  _ ← check_sizes (ac_owner o) (ac_active o) (ac_posting o) r;
  _ ← (if rhf freezone_HARDFORK_0_15 r then
         _ ← verify_authority_accounts_exist (ac_owner o) r;
         _ ← verify_authority_accounts_exist (ac_active o) r;
         verify_authority_accounts_exist (ac_posting o) r
       else mret tt);
  minus ← asset_neg (ac_fee o);
  d ← adjust_balance (ac_creator o) minus (rdb r);
  r ← burn_fee (ac_fee o) (set_rdb d r);
  r ← create_account (ac_new_account_name o) (ac_memo_key o) (ac_creator o) 0 (ac_json_metadata o)
        (ac_owner o) (ac_active o) (ac_posting o) r;
  vest_fee (ac_new_account_name o) (ac_fee o) r.

(** *** account_create_with_delegation *)

Record account_create_with_delegation_operation : Type := AccountCreateWithDelegation {
  acd_fee : asset;
  acd_delegation : asset;
  acd_creator : name;
  acd_new_account_name : name;
  acd_owner : authority;
  acd_active : authority;
  acd_posting : authority;
  acd_memo_key : public_key;
  acd_json_metadata : string
}.

Definition account_create_with_delegation_validate (o : account_create_with_delegation_operation) : res unit :=
  _ ← validate_account_name (acd_new_account_name o);
  _ ← validate_account_name (acd_creator o);
  _ ← fc_assert (symbol (acd_fee o) =? freezone_SYMBOL);
  _ ← fc_assert (symbol (acd_delegation o) =? VESTS_SYMBOL);
  _ ← authority_validate (acd_owner o);
  _ ← authority_validate (acd_active o);
  _ ← authority_validate (acd_posting o);
  _ ← json_validate (acd_json_metadata o);
  b ← asset_geb (acd_fee o) (Asset 0 freezone_SYMBOL);
  _ ← fc_assert b;
  b ← asset_geb (acd_delegation o) (Asset 0 VESTS_SYMBOL);
  fc_assert b.

(** The fee and the delegation together must be worth the fee of an account
    without delegation. *)
Definition check_delegation (o : account_create_with_delegation_operation) (creator : account) (d : db) : res unit :=
  b ← asset_geb (Asset (balance creator) freezone_SYMBOL) (acd_fee o);
  _ ← fc_assert b;
  x ← safe_sub (vesting_shares creator) (ma_delegated_vesting_shares (stake creator));
  w ← safe_sub (ma_to_withdraw (stake creator)) (ma_withdrawn (stake creator));
  x ← safe_sub x w;
  b ← asset_geb (Asset x VESTS_SYMBOL) (acd_delegation o);
  _ ← fc_assert b;
  let median := account_creation_fee (staking d) in
  p ← get_vesting_share_price (gpo d);
  y ← safe_mul median freezone_CREATE_ACCOUNT_WITH_freezone_MODIFIER;
  y ← safe_mul y freezone_CREATE_ACCOUNT_DELEGATION_RATIO;
  target ← asset_mul_price (Asset y freezone_SYMBOL) p;
  z ← safe_mul (amount (acd_fee o)) freezone_CREATE_ACCOUNT_DELEGATION_RATIO;
  current ← asset_mul_price (Asset z freezone_SYMBOL) p;
  current ← asset_add current (acd_delegation o);
  b ← asset_geb current target;
  _ ← fc_assert b;
  b ← asset_geb (acd_fee o) (Asset median freezone_SYMBOL);
  fc_assert b.

Definition account_create_with_delegation_apply (o : account_create_with_delegation_operation) (r : registry) : res registry :=
  _ ← fc_assert (negb (rhf freezone_HARDFORK_0_20 r));
  _ ← check_max_fee (acd_fee o) r;
  creator ← get_account (acd_creator o) (rdb r);
  _ ← check_delegation o creator (rdb r);
  _ ← check_sizes (acd_owner o) (acd_active o) (acd_posting o) r;
  _ ← get_authority_accounts (acd_owner o) r;
  _ ← get_authority_accounts (acd_active o) r;
  _ ← get_authority_accounts (acd_posting o) r;
  b ← asset_sub (Asset (balance creator) freezone_SYMBOL) (acd_fee o);
  v ← asset_add (Asset (ma_delegated_vesting_shares (stake creator)) VESTS_SYMBOL) (acd_delegation o);
  let m := stake creator in
  let creator := set_stake (ManaAccount (ma_vesting_shares m) (ma_received_vesting_shares m) (amount v)
                   (ma_next_vesting_withdrawal m) (ma_vesting_withdraw_rate m) (ma_to_withdraw m) (ma_withdrawn m)
                   (voting_manabar m) (downvote_manabar m)) (set_balance (amount b) creator) in
  r ← burn_fee (acd_fee o) (set_rdb (put_account (acd_creator o) creator (rdb r)) r);
  r ← create_account (acd_new_account_name o) (acd_memo_key o) (acd_creator o) (amount (acd_delegation o)) (acd_json_metadata o)
        (acd_owner o) (acd_active o) (acd_posting o) r;
  let key := (acd_creator o, acd_new_account_name o, freezone_SYMBOL) in
  r ← (if (0 <? amount (acd_delegation o)) || negb (rhf freezone_HARDFORK_0_19 r) then
         _ ← check logic_error (bool_decide (delegations (staking (rdb r)) !! key = None));
         mret (set_rdb (set_delegations <[key := Delegation (amount (acd_delegation o))
                 (u32 (rnow r + freezone_CREATE_ACCOUNT_DELEGATION_TIME))]> (rdb r)) r)
       else mret r);
  vest_fee (acd_new_account_name o) (acd_fee o) r.

(** *** claim_account and create_claimed_account *)

Record claim_account_operation : Type := ClaimAccount {
  ca_creator : name;
  ca_fee : asset;
  ca_extensions : nat                   (* their number *)
}.

Definition claim_account_validate (o : claim_account_operation) : res unit :=
  _ ← validate_account_name (ca_creator o);
  _ ← fc_assert (symbol (ca_fee o) =? freezone_SYMBOL);
  b ← asset_geb (ca_fee o) (Asset 0 freezone_SYMBOL);
  _ ← fc_assert b;
  b ← asset_leb (ca_fee o) (Asset freezone_MAX_ACCOUNT_CREATION_FEE freezone_SYMBOL);
  _ ← fc_assert b;
  fc_assert (ca_extensions o =? 0)%nat.

(** A subsidized account is taken from the pool of the witness who produces
    the block, who must be elected, and from the common pool. *)
Definition use_subsidy (r : registry) : res registry :=
  let f := rf r in
  f ← (if is_pending_tx r then mret f
       else
         w ← get_info (current_witness f) (fs f);
         _ ← fc_assert (match schedule w with elected => true | _ => false end);
         _ ← fc_assert (freezone_ACCOUNT_SUBSIDY_PRECISION <=? available_witness_account_subsidies w);
         mret (set_fs (set_infos <[current_witness f :=
                 set_available (i64 (available_witness_account_subsidies w - freezone_ACCOUNT_SUBSIDY_PRECISION)) w]> (fs f)) f));
  _ ← fc_assert (freezone_ACCOUNT_SUBSIDY_PRECISION <=? available_account_subsidies f);
  mret (set_rf (set_subsidies (i64 (available_account_subsidies f - freezone_ACCOUNT_SUBSIDY_PRECISION)) f) r).

Definition claim_account_apply (o : claim_account_operation) (r : registry) : res registry :=
  _ ← fc_assert (rhf freezone_HARDFORK_0_20 r);
  creator ← get_account (ca_creator o) (rdb r);
  b ← asset_geb (Asset (balance creator) freezone_SYMBOL) (ca_fee o);
  _ ← fc_assert b;
  r ← (if amount (ca_fee o) =? 0 then use_subsidy r
       else
         _ ← fc_assert (asset_eqb (ca_fee o) (Asset (account_creation_fee (staking (rdb r))) freezone_SYMBOL));
         mret r);
  _ ← get_account freezone_NULL_ACCOUNT (rdb r);
  d ← adjust_balance freezone_NULL_ACCOUNT (ca_fee o) (rdb r);
  creator ← get_account (ca_creator o) d;
  b ← asset_sub (Asset (balance creator) freezone_SYMBOL) (ca_fee o);
  let r := set_rdb (put_account (ca_creator o) (set_balance (amount b) creator) d) r in
  modify_identity (ca_creator o) (λ i, v ← safe_add (pending_claimed_accounts i) 1; mret (set_claimed v i)) r.

Record create_claimed_account_operation : Type := CreateClaimedAccount {
  cca_creator : name;
  cca_new_account_name : name;
  cca_owner : authority;
  cca_active : authority;
  cca_posting : authority;
  cca_memo_key : public_key;
  cca_json_metadata : string;
  cca_extensions : nat
}.

Definition create_claimed_account_validate (o : create_claimed_account_operation) : res unit :=
  _ ← validate_account_name (cca_creator o);
  _ ← validate_account_name (cca_new_account_name o);
  _ ← authority_validate (cca_owner o);
  _ ← authority_validate (cca_active o);
  _ ← authority_validate (cca_posting o);
  _ ← validate_auth_size (cca_owner o);
  _ ← validate_auth_size (cca_active o);
  _ ← validate_auth_size (cca_posting o);
  _ ← json_validate (cca_json_metadata o);
  fc_assert (cca_extensions o =? 0)%nat.

Definition create_claimed_account_apply (o : create_claimed_account_operation) (r : registry) : res registry :=
  _ ← fc_assert (rhf freezone_HARDFORK_0_20 r);
  _ ← get_account (cca_creator o) (rdb r);
  i ← get_identity (cca_creator o) r;
  _ ← fc_assert (0 <? pending_claimed_accounts i);
  _ ← verify_authority_accounts_exist (cca_owner o) r;
  _ ← verify_authority_accounts_exist (cca_active o) r;
  _ ← verify_authority_accounts_exist (cca_posting o) r;
  r ← modify_identity (cca_creator o) (λ i, v ← safe_sub (pending_claimed_accounts i) 1; mret (set_claimed v i)) r;
  create_account (cca_new_account_name o) (cca_memo_key o) (cca_creator o) 0 (cca_json_metadata o)
    (cca_owner o) (cca_active o) (cca_posting o) r.

(** *** account_update and account_update2 *)

Definition update_owner_authority (n : name) (a : authority) (r : registry) : res registry :=
  let g := gpo (rdb r) in
  old ← get_authorities n r;
  let r := if freezone_OWNER_AUTH_HISTORY_TRACKING_START_BLOCK_NUM <=? head_block_number g
           then set_histories (λ l, l ++ [OwnerHistory n (owner old) (rnow r)]) r else r in
  mret (set_auths <[n := AccountAuthority a (active old) (posting old) (rnow r)]> r).

Record account_update_operation : Type := AccountUpdate {
  au_account : name;
  au_owner : option authority;
  au_active : option authority;
  au_posting : option authority;
  au_memo_key : public_key;
  au_json_metadata : string
}.

Definition account_update_validate (o : account_update_operation) : res unit :=
  _ ← validate_account_name (au_account o);
  json_validate (au_json_metadata o).

(** [if( o.owner )] of both evaluators: at most one change an hour (from
    hardfork 11 on, [limited]), of accounts that exist ([verify]). *)
Definition update_owner (limited verify : bool) (n : name) (a : option authority) (r : registry) : res registry :=
  match a with
  | None => mret r
  | Some a =>
      x ← get_authorities n r;
      _ ← (if limited then fc_assert (freezone_OWNER_UPDATE_LIMIT <? rnow r - last_owner_update x) else mret tt);
      _ ← (if verify then verify_authority_accounts_exist a r else mret tt);
      update_owner_authority n a r
  end.

Definition set_active_posting (a p : option authority) (x : account_authority) : account_authority :=
  AccountAuthority (owner x) (default (active x) a) (default (posting x) p) (last_owner_update x).

(** [if( o.active || o.posting ) modify( account_auth, ... )] *)
Definition update_authorities (n : name) (a p : option authority) (r : registry) : res registry :=
  match a, p with
  | None, None => mret r
  | _, _ => x ← get_authorities n r; mret (set_auths <[n := set_active_posting a p x]> r)
  end.

(** The new memo key (null keeps the old one) and the time of the update. *)
Definition touch_account (n : name) (key : public_key) (r : registry) : res registry :=
  modify_identity n (λ i, mret (Identity (if key =? null_key then memo_key i else key) (rnow r) (created i) (mined i)
    (recovery_account i) (last_account_recovery i) (pending_claimed_accounts i))) r.

Definition account_update_apply (o : account_update_operation) (r : registry) : res registry :=
  let n := au_account o in
  _ ← (if rhf freezone_HARDFORK_0_1 r then fc_assert (negb (bool_decide (n = freezone_TEMP_ACCOUNT))) else mret tt);
  let verify := rhf freezone_HARDFORK_0_15 r in
  _ ← (if verify then check_opt authority_validate (au_posting o) else mret tt);
  _ ← get_account n (rdb r);
  _ ← get_authorities n r;
  _ ← (if is_producing r || rhf freezone_HARDFORK_0_20 r then
         _ ← check_opt validate_auth_size (au_owner o);
         _ ← check_opt validate_auth_size (au_active o);
         check_opt validate_auth_size (au_posting o)
       else mret tt);
  r ← update_owner (rhf freezone_HARDFORK_0_11 r) verify n (au_owner o) r;
  _ ← (if verify then check_opt (λ a, verify_authority_accounts_exist a r) (au_active o) else mret tt);
  _ ← (if verify then check_opt (λ a, verify_authority_accounts_exist a r) (au_posting o) else mret tt);
  r ← touch_account n (au_memo_key o) r;
  r ← (if decide (au_json_metadata o = "") then mret r
       else
         m ← from_option_exn out_of_range (metas r !! n);
         mret (set_metas <[n := (au_json_metadata o, if rhf freezone_HARDFORK_0_21 r then m.2 else au_json_metadata o)]> r));
  update_authorities n (au_active o) (au_posting o) r.

Record account_update2_operation : Type := AccountUpdate2 {
  au2_account : name;
  au2_owner : option authority;
  au2_active : option authority;
  au2_posting : option authority;
  au2_memo_key : option public_key;
  au2_json_metadata : string;
  au2_posting_json_metadata : string
}.

Definition account_update2_validate (o : account_update2_operation) : res unit :=
  _ ← validate_account_name (au2_account o);
  _ ← json_validate (au2_json_metadata o);
  json_validate (au2_posting_json_metadata o).

Definition account_update2_apply (o : account_update2_operation) (r : registry) : res registry :=
  let n := au2_account o in
  _ ← fc_assert (rhf freezone_HARDFORK_0_21 r);
  _ ← fc_assert (negb (bool_decide (n = freezone_TEMP_ACCOUNT)));
  _ ← check_opt authority_validate (au2_posting o);
  _ ← get_account n (rdb r);
  _ ← get_authorities n r;
  _ ← check_opt validate_auth_size (au2_owner o);
  _ ← check_opt validate_auth_size (au2_active o);
  _ ← check_opt validate_auth_size (au2_posting o);
  r ← update_owner true true n (au2_owner o) r;
  _ ← check_opt (λ a, verify_authority_accounts_exist a r) (au2_active o);
  _ ← check_opt (λ a, verify_authority_accounts_exist a r) (au2_posting o);
  r ← touch_account n (default null_key (au2_memo_key o)) r;
  let j := au2_json_metadata o in
  let pj := au2_posting_json_metadata o in
  r ← (if decide (j = "" ∧ pj = "") then mret r
       else
         m ← from_option_exn out_of_range (metas r !! n);
         mret (set_metas <[n := (if decide (j = "") then m.1 else j, if decide (pj = "") then m.2 else pj)]> r));
  update_authorities n (au2_active o) (au2_posting o) r.

End Operations.

(** ** What the ledger leaves alone *)

(** The head, the hardforks and the set of accounts. *)
Record same_world (d d' : db) : Prop := SameWorld {
  w_num : head_block_number (gpo d') = head_block_number (gpo d);
  w_now : now d' = now d;
  w_hardforks : processed_hardforks d' = processed_hardforks d;
  w_accounts : dom (accounts d') = dom (accounts d)
}.

#[global] Instance same_world_refl : Reflexive same_world.
Proof. by split. Qed.
#[global] Instance same_world_trans : Transitive same_world.
Proof. intros d1 d2 d3 [] []. split; congruence. Qed.

Lemma world_put n a a' d : accounts d !! n = Some a → same_world d (put_account n a' d).
Proof. intros Ha. split; try done. cbn. apply dom_insert_lookup_L. eauto. Qed.

Lemma world_adjust_supply delta v d d' : adjust_supply delta v d = Ok d' → same_world d d'.
Proof. unfold adjust_supply. intros H. case_match; repeat frame_step; by split. Qed.

Lemma world_put_supplies n a a' sb v d :
  accounts d !! n = Some a →
  same_world d (put_account n a' (set_gpo (set_supplies (current_supply (gpo d)) sb v (total_vesting_fund_freezone (gpo d)) (gpo d)) d)).
Proof. intros Ha. etrans; [|by apply (world_put n a)]. by split. Qed.

Lemma world_modify_balance n delta c d d' : modify_balance n delta c d = Ok d' → same_world d d'.
Proof.
  unfold modify_balance. intros H. apply bind_Ok in H as (a & Ha%from_option_exn_Ok & H).
  destruct (_ =? _); [|destruct (_ =? _); [|destruct (_ =? _); [|done]]].
  - repeat (apply bind_Ok in H as (? & _ & H)). injection H as <-. by apply (world_put n a).
  - apply bind_Ok in H as ([s d1] & H1 & H). injection H as <-. apply (modify_sbd_spec 0) in H1 as (sb & v & -> & _).
    by apply (world_put_supplies n a).
  - repeat (apply bind_Ok in H as (? & _ & H)). injection H as <-. by apply (world_put n a).
Qed.

Lemma world_adjust_balance n delta d d' : adjust_balance n delta d = Ok d' → same_world d d'.
Proof.
  unfold adjust_balance. intros H. apply bind_Ok in H as (? & _ & H). destruct (space _).
  - by eapply world_modify_balance.
  - case_decide; apply bind_Ok in H as (? & _ & H); [by eapply world_adjust_supply|]. injection H as <-. by split.
Qed.

Lemma world_walk d d' : walk_result d d' → same_world d d'.
Proof.
  intros (m & ws & -> & Hm). split; try done. cbn. apply set_eq. intros k. rewrite !elem_of_dom. specialize (Hm k).
  destruct (accounts d !! k) as [a|]; [destruct Hm as (l & -> & _); split; eauto|by rewrite Hm].
Qed.

Lemma world_push n x d d' :
  adjust_proxied_witness_votes_one freezone_MAX_PROXY_RECURSION_DEPTH n x d = Ok d' → same_world d d'.
Proof. intros H. by eapply world_walk, pushed_result, adjust_proxied_one_pushed. Qed.

Lemma world_create_vesting n liquid d nv d' :
  symbol liquid = freezone_SYMBOL → create_vesting n liquid false d = Ok (nv, d') → same_world d d'.
Proof.
  intros Es H. unfold create_vesting in H. rewrite Es in H. change (space freezone_SYMBOL) with legacy_space in H. cbn match in H.
  do 3 apply bind_Ok in H as (? & _ & H). apply bind_Ok in H as (d1 & H1 & H). apply bind_Ok in H as (g & Hg & H).
  apply bind_Ok in H as (d2 & H2%world_push & H). injection H as -> <-.
  apply bind_Ok in H1 as (a & Ha%from_option_exn_Ok & H1). apply bind_Ok in H1 as (st & _ & H1%world_adjust_balance).
  etrans; [by apply (world_put n a)|]. etrans; [exact H1|]. etrans; [|exact H2].
  unfold add_global_vesting in Hg. do 2 apply bind_Ok in Hg as (? & _ & Hg). injection Hg as <-. by split.
Qed.
