(* ===== verification/Recovery.v ===== *)
(** * Account recovery and declined voting rights

    protocol/steem_operations.cpp ([validate]), chain/steem_evaluator.cpp: the
    evaluators of request_account_recovery, recover_account,
    change_recovery_account and decline_voting_rights; database.cpp:
    [account_recovery_processing] and [process_decline_voting_rights].

    Whoever obtains the owner key of an account can replace its authorities.
    The account stays recoverable for thirty days: with the help of its
    recovery account, which takes thirty days to change, an owner authority
    replaced at most thirty days ago is enough to set a new one. *)

From S2P Require Import Prelude Config AccountName Authority Uint128 SafeInt AssetSymbol Asset Manabar ResourceDynamics MapSum State Ledger Votes Vesting WitnessSchedule Slots Funds Accounts.
From stdpp Require Import gmap strings sorting.
#[local] Open Scope Z_scope.

(** ** The operations *)

Record request_account_recovery_operation : Type := RequestAccountRecovery {
  rar_recovery_account : name;
  rar_account_to_recover : name;
  rar_new_owner_authority : authority
}.

Definition request_account_recovery_validate (o : request_account_recovery_operation) : res unit :=
  _ ← validate_account_name (rar_recovery_account o);
  _ ← validate_account_name (rar_account_to_recover o);
  authority_validate (rar_new_owner_authority o).

(** The first witness of the index [by_vote_name]. *)
Definition top_witness (r : registry) : res name :=
  from_option_exn out_of_range (fst <$> head (merge_sort by_vote_name (rows (fs (rf r))))).

Definition request_account_recovery_apply (o : request_account_recovery_operation) (r : registry) : res registry :=
  let n := rar_account_to_recover o in
  let a := rar_new_owner_authority o in
  i ← get_identity n r;
  _ ← (if decide (recovery_account i = "") then
         w ← top_witness r; fc_assert (bool_decide (w = rar_recovery_account o))
       else fc_assert (bool_decide (recovery_account i = rar_recovery_account o)));
  let check_accounts := if rhf freezone_HARDFORK_0_15 r then get_authority_accounts a r else mret tt in
  let request := RecoveryRequest a (u32 (rnow r + freezone_ACCOUNT_RECOVERY_REQUEST_EXPIRATION_PERIOD)) in
  match recovery_requests r !! n with
  | None =>
      _ ← fc_assert (negb (is_impossible a));
      _ ← fc_assert (negb (weight_threshold a =? 0));
      _ ← (if is_producing r || rhf freezone_HARDFORK_0_20 r then validate_auth_size a else mret tt);
      _ ← check_accounts;
      mret (set_recovery_requests <[n := request]> r)
  | Some _ =>
      if weight_threshold a =? 0 then mret (set_recovery_requests (delete n) r)
      else
        _ ← fc_assert (negb (is_impossible a));
        _ ← check_accounts;
        mret (set_recovery_requests <[n := request]> r)
  end.

Record recover_account_operation : Type := RecoverAccount {
  ra_account_to_recover : name;
  ra_new_owner_authority : authority;
  ra_recent_owner_authority : authority
}.

Definition recover_account_validate (o : recover_account_operation) : res unit :=
  let new := ra_new_owner_authority o in
  let recent := ra_recent_owner_authority o in
  _ ← validate_account_name (ra_account_to_recover o);
  _ ← fc_assert (negb (bool_decide (new = recent)));
  _ ← fc_assert (negb (is_impossible new));
  _ ← fc_assert (negb (is_impossible recent));
  _ ← fc_assert (negb (weight_threshold new =? 0));
  _ ← authority_validate new;
  authority_validate recent.

Definition in_history (n : name) (a : authority) (r : registry) : bool :=
  existsb (λ h, bool_decide (oh_account h = n ∧ previous_owner_authority h = a)) (histories r).

Definition recover_account_apply (o : recover_account_operation) (r : registry) : res registry :=
  let n := ra_account_to_recover o in
  i ← get_identity n r;
  _ ← (if rhf freezone_HARDFORK_0_12 r then
         fc_assert (freezone_OWNER_UPDATE_LIMIT <? rnow r - last_account_recovery i) else mret tt);
  request ← from_option_exn assert_exception (recovery_requests r !! n);
  _ ← fc_assert (bool_decide (rr_new_owner_authority request = ra_new_owner_authority o));
  _ ← fc_assert (in_history n (ra_recent_owner_authority o) r);
  let r := set_recovery_requests (delete n) r in
  r ← update_owner_authority n (ra_new_owner_authority o) r;
  modify_identity n (λ i, mret (set_last_recovery (rnow r) i)) r.

Record change_recovery_account_operation : Type := ChangeRecoveryAccount {
  cra_account_to_recover : name;
  cra_new_recovery_account : name
}.

Definition change_recovery_account_validate (o : change_recovery_account_operation) : res unit :=
  _ ← validate_account_name (cra_account_to_recover o);
  validate_account_name (cra_new_recovery_account o).

Definition change_recovery_account_apply (o : change_recovery_account_operation) (r : registry) : res registry :=
  let n := cra_account_to_recover o in
  _ ← get_identity (cra_new_recovery_account o) r;
  i ← get_identity n r;
  let request := ChangeRequest (cra_new_recovery_account o) (u32 (rnow r + freezone_OWNER_AUTH_RECOVERY_PERIOD)) in
  match change_requests r !! n with
  | None => mret (set_change_requests <[n := request]> r)
  | Some _ =>
      if decide (recovery_account i ≠ cra_new_recovery_account o)
      then mret (set_change_requests <[n := request]> r)
      else mret (set_change_requests (delete n) r)
  end.

Record decline_voting_rights_operation : Type := DeclineVotingRights {
  dvr_account : name;
  dvr_decline : bool
}.

Definition decline_voting_rights_validate (o : decline_voting_rights_operation) : res unit :=
  validate_account_name (dvr_account o).

Definition decline_voting_rights_apply (o : decline_voting_rights_operation) (r : registry) : res registry :=
  let n := dvr_account o in
  _ ← fc_assert (rhf freezone_HARDFORK_0_14 r);
  _ ← get_account n (rdb r);
  if dvr_decline o then
    _ ← fc_assert (bool_decide (decline_requests r !! n = None));
    mret (set_decline_requests <[n := u32 (rnow r + freezone_OWNER_AUTH_RECOVERY_PERIOD)]> r)
  else
    _ ← fc_assert (bool_decide (is_Some (decline_requests r !! n)));
    mret (set_decline_requests (delete n) r).

(** ** Block processing *)

(** The indices by time ([by_expiration], [by_effective_date]): time, then
    account. *)
Definition by_time {A} (t : A → Z) (x y : name * A) : Prop :=
  t x.2 < t y.2 ∨ t x.2 = t y.2 ∧ name_le x.1 y.1.
#[global] Instance by_time_dec {A} (t : A → Z) x y : Decision (by_time t x y).
Proof. unfold by_time. apply _. Defined.

(** The rows whose time has come, in the order of the index. *)
Definition due {A} (t : A → Z) (now : Z) (m : gmap name A) : list (name * A) :=
  List.filter (λ x, t x.2 <=? now) (merge_sort (by_time t) (map_to_list m)).

Definition clear_expired_requests (r : registry) : registry :=
  set_recovery_requests (λ m, foldl (λ m x, delete x.1 m) m (due rr_expires (rnow r) m)) r.

(** The loop over the histories by id stops at the first that is valid. *)
Fixpoint drop_invalid (now : Z) (l : list owner_history) : list owner_history :=
  match l with
  | [] => []
  | h :: l' => if u32 (last_valid_time h + freezone_OWNER_AUTH_RECOVERY_PERIOD) <? now then drop_invalid now l' else h :: l'
  end.

Definition apply_change (r : registry) (x : name * change_request) : res registry :=
  r ← modify_identity x.1 (λ i, mret (set_recovery_account (cr_recovery_account x.2) i)) r;
  mret (set_change_requests (delete x.1) r).

Definition account_recovery_processing (r : registry) : res registry :=
  let r := clear_expired_requests r in
  let r := set_histories (drop_invalid (rnow r)) r in
  res_fold apply_change r (due cr_effective_on (rnow r) (change_requests r)).

Definition decline_one (n : name) (d : db) : res db :=
  a ← get_account n d;
  delta ← negate_all (vesting_shares a :: proxied_vsf_votes a);
  d ← adjust_proxied_witness_votes freezone_MAX_PROXY_RECURSION_DEPTH n delta d;
  d ← clear_witness_votes n d;
  a ← get_account n d;
  mret (put_account n (Account (balance a) (savings_balance a) (sbd a) (savings_sbd a) (savings_withdraw_requests a)
          (reward_freezone_balance a) (reward_sbd_balance a) (reward_vesting_balance a) (reward_vesting_freezone a) (stake a)
          (withdraw_routes a) freezone_PROXY_TO_SELF_ACCOUNT (proxied_vsf_votes a) (witnesses_voted_for a) false) d).

Definition apply_decline (r : registry) (x : name * Z) : res registry :=
  d ← decline_one x.1 (rdb r);
  mret (set_decline_requests (delete x.1) (set_rdb d r)).

Definition process_decline_voting_rights (r : registry) : res registry :=
  res_fold apply_decline r (due id (rnow r) (decline_requests r)).

(** The part of a block that this state sees: the new head, then the two
    steps. *)
Definition next_block (num time : Z) (r : registry) : res registry :=
  let r := set_rdb (set_gpo (set_head num time (gpo (rdb r))) (rdb r)) r in
  r ← account_recovery_processing r;
  process_decline_voting_rights r.

(** ** The machine *)

Section Events.

Context (is_utf8 json_is_valid : string → bool).

Inductive event : Type :=
| Create (o : account_create_operation)
| Create_delegated (o : account_create_with_delegation_operation)
| Claim (o : claim_account_operation)
| Create_claimed (o : create_claimed_account_operation)
| Update (o : account_update_operation)
| Update2 (o : account_update2_operation)
| Request (o : request_account_recovery_operation)
| Recover (o : recover_account_operation)
| Change (o : change_recovery_account_operation)
| Decline (o : decline_voting_rights_operation).

(** An operation is validated and applied. *)
Definition run_event (e : event) (r : registry) : res registry :=
  match e with
  | Create o => _ ← account_create_validate is_utf8 json_is_valid o; account_create_apply o r
  | Create_delegated o =>
      _ ← account_create_with_delegation_validate is_utf8 json_is_valid o; account_create_with_delegation_apply o r
  | Claim o => _ ← claim_account_validate o; claim_account_apply o r
  | Create_claimed o => _ ← create_claimed_account_validate is_utf8 json_is_valid o; create_claimed_account_apply o r
  | Update o => _ ← account_update_validate is_utf8 json_is_valid o; account_update_apply o r
  | Update2 o => _ ← account_update2_validate is_utf8 json_is_valid o; account_update2_apply o r
  | Request o => _ ← request_account_recovery_validate o; request_account_recovery_apply o r
  | Recover o => _ ← recover_account_validate o; recover_account_apply o r
  | Change o => _ ← change_recovery_account_validate o; change_recovery_account_apply o r
  | Decline o => _ ← decline_voting_rights_validate o; decline_voting_rights_apply o r
  end.

(** Everything else the chain does: mining makes new accounts, hardfork 21 takes
    over the treasury account, and any other table may change; the head, the
    owner histories and, of all accounts but the treasury, the owner authority, the recovery account
    and its pending change do not. *)
Record elsewhere (r r' : registry) : Prop := Elsewhere {
  el_now : rnow r' = rnow r;
  el_num : head_block_number (gpo (rdb r')) = head_block_number (gpo (rdb r));
  el_accounts : dom (accounts (rdb r)) ⊆ dom (accounts (rdb r'));
  el_ids : ∀ n i, n ≠ freezone_TREASURY_ACCOUNT → ids r !! n = Some i →
    ∃ i', ids r' !! n = Some i' ∧ recovery_account i' = recovery_account i;
  el_auths : ∀ n x, n ≠ freezone_TREASURY_ACCOUNT → auths r !! n = Some x → ∃ x', auths r' !! n = Some x' ∧ owner x' = owner x;
  el_histories : histories r' = histories r;
  el_changes : ∀ n, n ≠ freezone_TREASURY_ACCOUNT → change_requests r' !! n = change_requests r !! n
}.

(** A step of the chain: one of these operations, a block, the replacement of an
    owner authority by hardfork 9, or anything else. *)
Inductive reg_step (r : registry) : registry → Prop :=
| step_event e r' : run_event e r = Ok r' → reg_step r r'
| step_block num time r' :
    head_block_number (gpo (rdb r)) <= num → rnow r <= time → in_u 32 time → next_block num time r = Ok r' → reg_step r r'
| step_hardfork9 m a r' : update_owner_authority m a r = Ok r' → reg_step r r'
| step_other r' : elsewhere r r' → reg_step r r'.

(** ** What a step may do to one account *)

(** The relation between the rows of an account before and after an operation:
    its recovery account is the same; its owner authority is the same or was
    recorded with the time of the operation; histories are only added; a new
    request to change the recovery account waits thirty days. *)
Record owned (n : name) (r r' : registry) : Prop := Owned {
  ow_id : ∀ i, ids r !! n = Some i → ∃ i', ids r' !! n = Some i' ∧ recovery_account i' = recovery_account i;
  ow_owner : ∀ x, auths r !! n = Some x →
    ∃ x', auths r' !! n = Some x' ∧ (owner x' = owner x ∨ OwnerHistory n (owner x) (rnow r) ∈ histories r');
  ow_histories : histories r ⊆ histories r';
  ow_change : ∀ c, change_requests r' !! n = Some c →
    change_requests r !! n = Some c ∨ cr_effective_on c = u32 (rnow r + freezone_OWNER_AUTH_RECOVERY_PERIOD);
  ow_now : rnow r' = rnow r;
  ow_num : head_block_number (gpo (rdb r')) = head_block_number (gpo (rdb r))
}.

End Events.

#[global] Instance owned_refl n : Reflexive (owned n).
Proof. intros r. split; eauto. Qed.

#[global] Instance owned_trans n : Transitive (owned n).
Proof.
  intros r1 r2 r3 [I1 O1 H1 C1 N1 M1] [I2 O2 H2 C2 N2 M2]. split; [| |set_solver| |congruence|congruence].
  - intros i (i2 & Hi & E)%I1. apply I2 in Hi as (i3 & ? & E'). exists i3. split; [done|congruence].
  - intros x (x2 & Hx & E)%O1. apply O2 in Hx as (x3 & ? & E'). exists x3. split; [done|]. rewrite N1 in E'.
    destruct E as [E|E]; [rewrite <- E; done|]. right. by apply H2.
  - intros c [Hc|E]%C2; [by apply C1|]. right. by rewrite <- N1.
Qed.

Lemma owned_rdb n d r : same_world (rdb r) d → owned n r (set_rdb d r).
Proof. intros [W1 W2 _ _]. split; eauto. Qed.

Lemma owned_metas n f r : owned n r (set_metas f r).
Proof. split; eauto. Qed.
Lemma owned_recovery n f r : owned n r (set_recovery_requests f r).
Proof. split; eauto. Qed.
Lemma owned_decline n f r : owned n r (set_decline_requests f r).
Proof. split; eauto. Qed.

Lemma owned_identity n m f r r' :
  (∀ i i', f i = Ok i' → recovery_account i' = recovery_account i) → modify_identity m f r = Ok r' → owned n r r'.
Proof.
  intros Hf H. unfold modify_identity in H. apply bind_Ok in H as (i & Hi%from_option_exn_Ok & H).
  apply bind_Ok in H as (i1 & H1%Hf & H). injection H as <-. split; eauto. intros i2 Hi2. cbn.
  destruct (decide (n = m)) as [->|]; [rewrite lookup_insert_eq; exists i1; split; [done|congruence]|].
  rewrite lookup_insert_ne by done. eauto.
Qed.

Lemma owned_create n m key rec x json o a p r r' : create_account m key rec x json o a p r = Ok r' → owned n r r'.
Proof.
  intros H. unfold create_account in H. destruct (initialize_account_object _ _ _ _) as [acc i] eqn:Ei.
  apply bind_Ok in H as (? & [_ Hn]%check_Ok%bool_decide_eq_true & H). apply bind_Ok in H as (? & _ & H).
  apply bind_Ok in H as (? & Ha%check_Ok%bool_decide_eq_true & H). injection H as <-. cbn in Ha. split; eauto.
  - intros i0 H0. cbn. exists i0. split; [|done]. rewrite lookup_insert_ne; [done|congruence].
  - intros y H0. cbn. exists y. split; [|by left]. rewrite lookup_insert_ne; [done|congruence].
Qed.

(** A change of the owner leaves a trace. *)
Lemma owned_update_owner_authority n m a r r' :
  freezone_OWNER_AUTH_HISTORY_TRACKING_START_BLOCK_NUM <= head_block_number (gpo (rdb r)) →
  update_owner_authority m a r = Ok r' → owned n r r'.
Proof.
  intros Hn H. unfold update_owner_authority in H. apply bind_Ok in H as (old & Ho%from_option_exn_Ok & H).
  rewrite (proj2 (Z.leb_le _ _)) in H by done. injection H as <-. split; eauto; [|cbn; set_solver].
  intros x Hx. cbn. destruct (decide (n = m)) as [->|Hne]; [|rewrite lookup_insert_ne by done; eauto].
  rewrite lookup_insert_eq. eexists. split; [done|]. right. assert (x = old) as -> by congruence. set_solver.
Qed.

Lemma owned_update_authorities n m a p r r' : update_authorities m a p r = Ok r' → owned n r r'.
Proof.
  intros H. assert (r' = r ∨ ∃ x, auths r !! m = Some x ∧ r' = set_auths <[m := set_active_posting a p x]> r) as [->|(x & Hx & ->)]; [|done|].
  { unfold update_authorities in H. destruct a, p; try (apply bind_Ok in H as (x & Hx%from_option_exn_Ok & H); injection H as <-; eauto).
    injection H as <-. by left. }
  split; eauto. intros y Hy. cbn. destruct (decide (n = m)) as [->|Hne]; [|rewrite lookup_insert_ne by done; eauto].
  rewrite lookup_insert_eq. eexists. split; [done|]. left. cbn. congruence.
Qed.

Definition tracked (r : registry) : Prop :=
  freezone_OWNER_AUTH_HISTORY_TRACKING_START_BLOCK_NUM <= head_block_number (gpo (rdb r)).

Lemma owned_update_owner n lim ver m a r r' : tracked r → update_owner lim ver m a r = Ok r' → owned n r r'.
Proof.
  intros Ht H. destruct a as [a|]; [|by injection H as <-]. unfold update_owner in H. do 3 apply bind_Ok in H as (? & _ & H).
  by eapply owned_update_owner_authority.
Qed.

Lemma owned_touch n m key r r' : touch_account m key r = Ok r' → owned n r r'.
Proof. apply owned_identity. intros i i' H. by injection H as <-. Qed.

Lemma owned_burn n fee r r' : burn_fee fee r = Ok r' → owned n r r'.
Proof.
  unfold burn_fee. intros H. destruct (rhf _ _); [|by injection H as <-].
  apply bind_Ok in H as (? & _ & H). apply bind_Ok in H as (d & Hd & H). injection H as <-.
  by eapply owned_rdb, world_adjust_balance.
Qed.

Lemma owned_vest n m fee r r' : symbol fee = freezone_SYMBOL → vest_fee m fee r = Ok r' → owned n r r'.
Proof.
  unfold vest_fee. intros Es H. destruct (_ && _); [|by injection H as <-].
  apply bind_Ok in H as ([nv d] & Hd & H). injection H as <-. by eapply owned_rdb, world_create_vesting.
Qed.

(** [steps H]: the checks of an operation are passed over, the state changes
    are kept as hypotheses. *)
Ltac skip H := apply bind_Ok in H as (? & _ & H).

Lemma owned_account_create n o r r' :
  symbol (ac_fee o) = freezone_SYMBOL → account_create_apply o r = Ok r' → owned n r r'.
Proof.
  intros Es H. unfold account_create_apply in H. do 6 skip H. apply bind_Ok in H as (d & Hd%world_adjust_balance & H).
  apply bind_Ok in H as (r1 & H1%(owned_burn n) & H). apply bind_Ok in H as (r2 & H2%(owned_create n) & H%(owned_vest n)); [|done].
  etrans; [by apply owned_rdb|]. by do 2 (etrans; [done|]).
Qed.

Lemma owned_account_create_with_delegation n o r r' :
  symbol (acd_fee o) = freezone_SYMBOL → account_create_with_delegation_apply o r = Ok r' → owned n r r'.
Proof.
  intros Es H. unfold account_create_with_delegation_apply in H. do 2 skip H.
  apply bind_Ok in H as (c & Hc%from_option_exn_Ok & H). do 7 skip H. cbv zeta in H.
  apply bind_Ok in H as (r1 & H1%(owned_burn n) & H). apply bind_Ok in H as (r2 & H2%(owned_create n) & H).
  apply bind_Ok in H as (r3 & H3 & H%(owned_vest n)); [|done].
  etrans; [by eapply owned_rdb, (world_put _ c)|]. etrans; [done|]. etrans; [done|]. etrans; [|done].
  destruct (_ || _); [|by injection H3 as <-]. skip H3. injection H3 as <-. apply owned_rdb. by split.
Qed.

Lemma world_subsidy r r' : use_subsidy r = Ok r' → ∃ f, r' = set_rf f r ∧ fdb f = rdb r.
Proof.
  intros H. unfold use_subsidy in H. apply bind_Ok in H as (f & Hf & H). skip H. injection H as <-.
  eexists. split; [done|]. destruct (is_pending_tx r); [by injection Hf as <-|]. do 3 skip Hf. by injection Hf as <-.
Qed.

Lemma owned_claim_account n o r r' : claim_account_apply o r = Ok r' → owned n r r'.
Proof.
  intros H. unfold claim_account_apply in H. do 4 skip H. apply bind_Ok in H as (r1 & H1 & H).
  assert (owned n r r1) as O1.
  { destruct (_ =? 0); [|skip H1; by injection H1 as <-]. apply world_subsidy in H1 as (f & -> & E).
    assert (rdb (set_rf f r) = rdb r) as Er by done. split; eauto; unfold rnow; by rewrite Er. }
  skip H. apply bind_Ok in H as (d & Hd%world_adjust_balance & H). apply bind_Ok in H as (c & Hc%from_option_exn_Ok & H).
  skip H. cbv zeta in H. etrans; [exact O1|]. etrans; [|eapply owned_identity, H].
  - apply owned_rdb. etrans; [exact Hd|]. by apply (world_put _ c).
  - intros i i' Hi. skip Hi. by injection Hi as <-.
Qed.

Lemma owned_create_claimed n o r r' : create_claimed_account_apply o r = Ok r' → owned n r r'.
Proof.
  intros H. unfold create_claimed_account_apply in H. do 7 skip H. apply bind_Ok in H as (r1 & H1 & H%(owned_create n)).
  etrans; [|done]. eapply owned_identity, H1. intros i i' Hi. skip Hi. by injection Hi as <-.
Qed.

Lemma owned_account_update n o r r' : tracked r → account_update_apply o r = Ok r' → owned n r r'.
Proof.
  intros Ht H. unfold account_update_apply in H. do 5 skip H.
  apply bind_Ok in H as (r1 & H1%(owned_update_owner n) & H); [|done]. do 2 skip H.
  apply bind_Ok in H as (r2 & H2%(owned_touch n) & H). apply bind_Ok in H as (r3 & H3 & H%(owned_update_authorities n)).
  etrans; [done|]. etrans; [done|]. etrans; [|done].
  case_decide; [by injection H3 as <-|]. skip H3. injection H3 as <-. apply owned_metas.
Qed.

Lemma owned_account_update2 n o r r' : tracked r → account_update2_apply o r = Ok r' → owned n r r'.
Proof.
  intros Ht H. unfold account_update2_apply in H. do 8 skip H.
  apply bind_Ok in H as (r1 & H1%(owned_update_owner n) & H); [|done]. do 2 skip H.
  apply bind_Ok in H as (r2 & H2%(owned_touch n) & H). cbv zeta in H. apply bind_Ok in H as (r3 & H3 & H%(owned_update_authorities n)).
  etrans; [done|]. etrans; [done|]. etrans; [|done].
  case_decide; [by injection H3 as <-|]. skip H3. injection H3 as <-. apply owned_metas.
Qed.

Lemma owned_request n o r r' : request_account_recovery_apply o r = Ok r' → owned n r r'.
Proof.
  intros H. unfold request_account_recovery_apply in H. do 2 skip H. cbv zeta in H.
  destruct (recovery_requests r !! _); [destruct (_ =? 0)|]; [|do 2 skip H|do 4 skip H]; injection H as <-; apply owned_recovery.
Qed.

Lemma owned_recover n o r r' : tracked r → recover_account_apply o r = Ok r' → owned n r r'.
Proof.
  intros Ht H. unfold recover_account_apply in H. do 5 skip H. cbv zeta in H. apply bind_Ok in H as (r1 & H1 & H).
  etrans; [apply (owned_recovery n (delete (ra_account_to_recover o)))|].
  etrans; [by eapply owned_update_owner_authority, H1|]. eapply owned_identity, H. intros i i' Hi. by injection Hi as <-.
Qed.

Lemma owned_change n o r r' : change_recovery_account_apply o r = Ok r' → owned n r r'.
Proof.
  intros H. unfold change_recovery_account_apply in H. do 2 skip H. cbv zeta in H.
  assert (r' = set_change_requests (delete (cra_account_to_recover o)) r
    ∨ ∃ c, cr_effective_on c = u32 (rnow r + freezone_OWNER_AUTH_RECOVERY_PERIOD)
        ∧ r' = set_change_requests <[cra_account_to_recover o := c]> r) as Hr.
  { destruct (change_requests r !! _); [case_decide|]; injection H as <-; [|by left|]; right; eexists; (split; [|done]); done. }
  destruct Hr as [->|(c & Ec & ->)]; split; eauto; intros c' Hc; cbn in Hc.
  - apply lookup_delete_Some in Hc as [_ Hc]. by left.
  - apply lookup_insert_Some in Hc as [[_ <-]|[_ Hc]]; [by right|by left].
Qed.

Lemma owned_decline_op n o r r' : decline_voting_rights_apply o r = Ok r' → owned n r r'.
Proof.
  intros H. unfold decline_voting_rights_apply in H. do 2 skip H. destruct (dvr_decline o); skip H; injection H as <-; apply owned_decline.
Qed.

(** Every operation respects the owners. *)
Lemma owned_event u j n e r r' : tracked r → run_event u j e r = Ok r' → owned n r r'.
Proof.
  intros Ht H. destruct e; cbn [run_event] in H; apply bind_Ok in H as (? & Hval & H).
  - eapply owned_account_create; [|exact H]. unfold account_create_validate in Hval. skip Hval.
    by apply bind_Ok in Hval as (? & ?%fc_assert_Ok%Z.eqb_eq & _).
  - eapply owned_account_create_with_delegation; [|exact H]. unfold account_create_with_delegation_validate in Hval. do 2 skip Hval.
    by apply bind_Ok in Hval as (? & ?%fc_assert_Ok%Z.eqb_eq & _).
  - by eapply owned_claim_account.
  - by eapply owned_create_claimed.
  - by eapply owned_account_update.
  - by eapply owned_account_update2.
  - by eapply owned_request.
  - by eapply owned_recover.
  - by eapply owned_change.
  - by eapply owned_decline_op.
Qed.

(** ** Blocks *)

Lemma elem_of_due {A} (t : A → Z) now (m : gmap name A) x : x ∈ due t now m ↔ m !! x.1 = Some x.2 ∧ t x.2 <= now.
Proof.
  unfold due. rewrite list_elem_of_In, filter_In, <- list_elem_of_In, merge_sort_Permutation, Z.leb_le.
  destruct x as [k a]. by rewrite elem_of_map_to_list.
Qed.

Lemma due_nodup {A} (t : A → Z) now (m : gmap name A) : NoDup (due t now m).*1.
Proof.
  destruct (rows_filter m (λ x, t x.2 <=? now) (merge_sort (by_time t) (map_to_list m))) as [H _]; [|done].
  apply rows_sort, rows_all.
Qed.

Lemma drop_invalid_keep now h l :
  h ∈ l → now <= u32 (last_valid_time h + freezone_OWNER_AUTH_RECOVERY_PERIOD) → h ∈ drop_invalid now l.
Proof.
  intros Hin Hle. induction l as [|h' l IH]; cbn [drop_invalid]; [done|]. case_match eqn:E; [|done].
  apply Z.ltb_lt in E. apply elem_of_cons in Hin as [<-|Hin]; [lia|auto].
Qed.

(** What a decline does: the walk takes the account's power from its proxy or
    its witnesses, then its votes and its proxy are gone. *)
Definition declined (v : Z) (a : account) : account :=
  Account (balance a) (savings_balance a) (sbd a) (savings_sbd a) (savings_withdraw_requests a)
    (reward_freezone_balance a) (reward_sbd_balance a) (reward_vesting_balance a) (reward_vesting_freezone a) (stake a)
    (withdraw_routes a) freezone_PROXY_TO_SELF_ACCOUNT (proxied_vsf_votes a) v false.

Lemma decline_one_Ok n d d' :
  decline_one n d = Ok d' →
  ∃ a d1 a1 v, accounts d !! n = Some a
    ∧ adjust_proxied_witness_votes freezone_MAX_PROXY_RECURSION_DEPTH n (Z.opp <$> (vesting_shares a :: proxied_vsf_votes a)) d = Ok d1
    ∧ walk_result d d1 ∧ accounts d1 !! n = Some a1
    ∧ d' = put_account n (declined v a1) (set_witness_votes (filter (λ p, p.1 ≠ n)) d1).
Proof.
  unfold decline_one. intros H. apply bind_Ok in H as (a & Ha%from_option_exn_Ok & H).
  apply bind_Ok in H as (delta & ->%negate_all_Ok & H). apply bind_Ok in H as (d1 & H1 & H).
  pose proof H1 as Hw. apply adjust_proxied_pushed in Hw; [|done]. apply pushed_result in Hw.
  assert (∃ a1, accounts d1 !! n = Some a1) as [a1 Ha1].
  { destruct Hw as (m & ws & -> & Hm). specialize (Hm n). rewrite Ha in Hm. destruct Hm as (l & ? & _). eauto. }
  apply bind_Ok in H as (d2 & H2 & H). apply (clear_witness_votes_Ok n a1) in H2 as (v & ->); [|done].
  apply bind_Ok in H as (a2 & Ha2%from_option_exn_Ok & H). cbn in Ha2. rewrite lookup_insert_eq in Ha2. injection Ha2 as <-.
  injection H as <-. exists a, d1, a1, v. split_and!; try done.
  unfold put_account, set_accounts. cbn. by rewrite insert_insert_eq.
Qed.

Lemma world_decline n d d' : decline_one n d = Ok d' → same_world d d'.
Proof.
  intros (a & d1 & a1 & v & Ha & _ & Hw & Ha1 & ->)%decline_one_Ok. etrans; [by apply world_walk|].
  trans (set_witness_votes (filter (λ p, p.1 ≠ n)) d1); [by split|]. by apply (world_put n a1).
Qed.

(** The steps of the block that change neither requests of [n] nor its rows. *)
Lemma process_decline_frame r r' :
  process_decline_voting_rights r = Ok r' →
  ∃ d m, r' = set_decline_requests (λ _, m) (set_rdb d r) ∧ same_world (rdb r) d ∧ m ⊆ decline_requests r.
Proof.
  unfold process_decline_voting_rights. intros H.
  apply (res_fold_ind (λ r1, ∃ d m, r1 = set_decline_requests (λ _, m) (set_rdb d r) ∧ same_world (rdb r) d ∧ m ⊆ decline_requests r)) in H; [done| |].
  - exists (rdb r), (decline_requests r). split_and!; try done. by destruct r as [[[]]].
  - intros r1 x r2 _ (d & m & -> & Hw & Hm) H1. unfold apply_decline in H1. apply bind_Ok in H1 as (d2 & H2%world_decline & H1).
    injection H1 as <-. exists d2, (delete x.1 m). split_and!; [done|by etrans|]. etrans; [|done]. apply delete_subseteq.
Qed.

Lemma apply_change_Ok r x r' :
  apply_change r x = Ok r' →
  ∃ i, ids r !! x.1 = Some i ∧
    r' = set_change_requests (delete x.1) (set_ids <[x.1 := set_recovery_account (cr_recovery_account x.2) i]> r).
Proof.
  unfold apply_change, modify_identity. intros H. apply bind_Ok in H as (r1 & H1 & H).
  apply bind_Ok in H1 as (i & Hi%from_option_exn_Ok & H1). apply bind_Ok in H1 as (i' & Hi' & H1). injection Hi' as <-.
  injection H1 as <-. injection H as <-. eauto.
Qed.

(** ** The account of [n], stolen after [t0] *)

Definition recovery_period : Z := freezone_OWNER_AUTH_RECOVERY_PERIOD.

Record guarded (n : name) (A : authority) (R : name) (t0 : Z) (r : registry) : Prop := Guarded {
  g_id : ∃ i, ids r !! n = Some i ∧ recovery_account i = R;
  g_auths : is_Some (auths r !! n);
  g_owner : (∃ x, auths r !! n = Some x ∧ owner x = A)
    ∨ ∃ h, h ∈ histories r ∧ oh_account h = n ∧ previous_owner_authority h = A ∧ t0 <= last_valid_time h <= rnow r;
  g_change : ∀ c, change_requests r !! n = Some c → t0 + recovery_period <= cr_effective_on c;
  g_now : 0 <= t0 <= rnow r;
  g_tracked : tracked r
}.

Lemma u32_clock t : 0 <= t → t + recovery_period < 2 ^ 32 → u32 (t + recovery_period) = t + recovery_period.
Proof. intros. unfold u32, wrapu. apply Z.mod_small. unfold recovery_period, freezone_OWNER_AUTH_RECOVERY_PERIOD in *. lia. Qed.

Lemma guarded_owned n A R t0 r r' :
  rnow r + recovery_period < 2 ^ 32 → owned n r r' → guarded n A R t0 r → guarded n A R t0 r'.
Proof.
  intros Hclock [OI OO OH OC ON OM] [(i & Hi & Er) [x Hx] Hown Hch Hnow Ht].
  destruct (OI i Hi) as (i' & Hi' & E'). destruct (OO x Hx) as (x' & Hx' & E).
  split; rewrite ?ON; try done; try (unfold tracked; by rewrite OM).
  - exists i'. split; [done|congruence].
  - destruct Hown as [(y & Hy & <-)|(h & Hh & ?)]; [|right; exists h; split; [by apply OH|done]].
    assert (y = x) as -> by congruence. destruct E as [E|E]; [left; eauto|]. right. eexists. split_and!; [exact E|done|done|cbn; lia..].
  - intros c [Hc| ->]%OC; [by apply Hch|]. change freezone_OWNER_AUTH_RECOVERY_PERIOD with recovery_period.
    rewrite u32_clock by lia. lia.
Qed.

Lemma guarded_processing n A R t0 r r' :
  rnow r < t0 + recovery_period → rnow r + recovery_period < 2 ^ 32 →
  guarded n A R t0 r → account_recovery_processing r = Ok r' → guarded n A R t0 r'.
Proof.
  intros Hlt Hclock Hg H. unfold account_recovery_processing in H. cbv zeta in H.
  set (r1 := set_histories _ _) in H.
  assert (guarded n A R t0 r1) as Hg1.
  { destruct Hg as [Hi Ha Hown Hch Hnow Ht]. split; try done. destruct Hown as [?|(h & Hh & ? & ? & Hl)]; [by left|]. right.
    exists h. split; [|done]. apply drop_invalid_keep; [done|]. change freezone_OWNER_AUTH_RECOVERY_PERIOD with recovery_period.
    rewrite u32_clock by lia. change (rnow (clear_expired_requests r)) with (rnow r). lia. }
  change (rnow r1) with (rnow r) in H.
  apply (res_fold_ind (λ r2, guarded n A R t0 r2)) in H; [done|done|].
  intros r2 x r3 [Hx Hle]%elem_of_due [(i & Hi & Er) Ha Hown Hch Hnow Ht] (i2 & Hi2 & ->)%apply_change_Ok.
  assert (x.1 ≠ n) as Hne by (intros E; rewrite E in Hx; apply (g_change _ _ _ _ _ Hg1) in Hx; lia).
  split; try done; cbn.
  - exists i. by rewrite lookup_insert_ne.
  - intros c [_ Hc]%lookup_delete_Some. by apply Hch.
Qed.

Lemma guarded_block n A R t0 num time r r' :
  head_block_number (gpo (rdb r)) <= num → rnow r <= time → time < t0 + recovery_period → time + recovery_period < 2 ^ 32 →
  guarded n A R t0 r → next_block num time r = Ok r' → guarded n A R t0 r'.
Proof.
  intros Hnum Htime Hlt Hclock Hg H. unfold next_block in H. cbv zeta in H. set (r1 := set_rdb _ r) in H.
  apply bind_Ok in H as (r2 & H2 & H). apply (guarded_processing n A R t0) in H2; [|done|done|].
  - apply process_decline_frame in H as (d & m & -> & [W1 W2 _ _] & _). destruct H2 as [Hi Ha Hown Hch Hnow Ht].
    assert (rnow (set_decline_requests (λ _, m) (set_rdb d r2)) = rnow r2) as EN by done.
    split; rewrite ?EN; try done. unfold tracked. change (rdb (set_decline_requests _ (set_rdb d r2))) with d. by rewrite W1.
  - destruct Hg as [Hi Ha Hown Hch Hnow Ht]. split; try done.
    + destruct Hown as [?|(h & ? & ? & ? & ?)]; [by left|]. right. exists h. change (rnow r1) with time. split_and!; try done; lia.
    + change (rnow r1) with time. lia.
    + unfold tracked in *. change (head_block_number (gpo (rdb r1))) with num. lia.
Qed.

Lemma next_block_head num time r r' :
  next_block num time r = Ok r' → rnow r' = time ∧ head_block_number (gpo (rdb r')) = num.
Proof.
  unfold next_block. cbv zeta. set (r1 := set_rdb _ r). intros H. apply bind_Ok in H as (r2 & H2 & H).
  apply process_decline_frame in H as (d & m & -> & [W1 W2 _ _] & _). unfold rnow.
  change (rdb (set_decline_requests (λ _, m) (set_rdb d r2))) with d. rewrite W1, W2.
  enough (rdb r2 = rdb r1) as -> by done.
  unfold account_recovery_processing in H2. cbv zeta in H2. apply (res_fold_ind (λ r3, rdb r3 = rdb r1)) in H2; [done|done|].
  intros r3 x r4 _ E (i & _ & ->)%apply_change_Ok. exact E.
Qed.

Lemma step_time u j r r' : tracked r → reg_step u j r r' → rnow r <= rnow r' ∧ tracked r'.
Proof.
  intros Ht [e r1 H|num time r1 Hnum Htime Hu H|m a r1 H|r1 [Hn Hb _ _ _ _ _]].
  - destruct (owned_event u j "" e r r1 Ht H) as [_ _ _ _ ON OM]. split; [lia|]. unfold tracked. by rewrite OM.
  - apply next_block_head in H as [-> EN]. split; [done|]. unfold tracked in *. lia.
  - destruct (owned_update_owner_authority "" m a r r1 Ht H) as [_ _ _ _ ON OM]. split; [lia|]. unfold tracked. by rewrite OM.
  - split; [lia|]. unfold tracked. by rewrite Hb.
Qed.

Lemma owned_elsewhere n r r' : n ≠ freezone_TREASURY_ACCOUNT → elsewhere r r' → owned n r r'.
Proof.
  intros Hn [EN EM _ EI EA EH EC]. split; [eauto| |by rewrite EH| |done|done].
  - intros x Hx. destruct (EA n x Hn Hx) as (x' & ? & ?). eauto.
  - intros c. rewrite EC by done. eauto.
Qed.

Lemma guarded_step u j n A R t0 r r' :
  n ≠ freezone_TREASURY_ACCOUNT → rnow r' < t0 + recovery_period → rnow r' + recovery_period < 2 ^ 32 →
  guarded n A R t0 r → reg_step u j r r' → guarded n A R t0 r'.
Proof.
  intros Hne Hlt Hclock Hg Hs. pose proof (step_time u j r r' (g_tracked _ _ _ _ _ Hg) Hs) as [Hmono _].
  destruct Hs as [e r1 H|num time r1 Hnum Htime Hu H|m a r1 H|r1 H].
  - apply (guarded_owned n A R t0 r r1); [lia| |exact Hg]. eapply owned_event; [apply Hg|exact H].
  - destruct (next_block_head _ _ _ _ H) as [E _]. rewrite E in *. by eapply guarded_block.
  - apply (guarded_owned n A R t0 r r1); [lia| |exact Hg]. eapply owned_update_owner_authority; [apply Hg|exact H].
  - apply (guarded_owned n A R t0 r r1); [lia| |exact Hg]. by apply owned_elsewhere.
Qed.

Lemma guarded_steps u j n A R t0 r r' :
  n ≠ freezone_TREASURY_ACCOUNT → guarded n A R t0 r → rtc (reg_step u j) r r' → rnow r' < t0 + recovery_period → rnow r' + recovery_period < 2 ^ 32 →
  guarded n A R t0 r'.
Proof.
  intros Hne Hg Hs. induction Hs as [|r1 r2 r3 H12 H23 IH]; [done|]. intros Hlt Hclock.
  enough (rnow r2 <= rnow r3) by (apply IH; [apply (guarded_step u j n A R t0 r1 r2); [done|lia|lia|done|done]|done..]).
  clear IH Hlt Hclock. apply step_time in H12 as [_ Ht]; [|apply Hg]. clear Hg r1. induction H23 as [|r1 r2 r3 H12 _ IH]; [done|].
  apply step_time in H12 as [? Ht']; [|done]. apply IH in Ht'. lia.
Qed.

(** ** Recovering *)

(** An authority the owner can be set to. *)
Record usable (N : authority) (r : registry) : Prop := Usable {
  us_possible : is_impossible N = false;
  us_closed : weight_threshold N ≠ 0;
  us_size : validate_auth_size N = Ok tt;
  us_names : authority_validate N = Ok tt;
  us_accounts : ∀ aw, aw ∈ account_auths N → is_Some (accounts (rdb r) !! aw.1)
}.

Lemma authority_accounts_exist a r :
  (∀ aw, aw ∈ account_auths a → is_Some (accounts (rdb r) !! aw.1)) → get_authority_accounts a r = Ok tt.
Proof.
  unfold get_authority_accounts. intros H. induction (account_auths a) as [|x l IH]; [done|]. cbn [res_fold].
  destruct (H x) as [y Hy]; [set_solver|]. unfold get_account. rewrite Hy. cbn. apply IH. set_solver.
Qed.

Lemma request_accepted n R N i r :
  usable N r → ids r !! n = Some i → recovery_account i = R → R ≠ "" →
  request_account_recovery_apply (RequestAccountRecovery R n N) r
  = Ok (set_recovery_requests <[n := RecoveryRequest N (u32 (rnow r + freezone_ACCOUNT_RECOVERY_REQUEST_EXPIRATION_PERIOD))]> r).
Proof.
  intros [Hp Hc Hsz Hn Ha] Hi Er HR. unfold request_account_recovery_apply, get_identity.
  cbn [rar_account_to_recover rar_new_owner_authority rar_recovery_account]. rewrite Hi. cbn [from_option_exn]. rewrite Ok_bind.
  rewrite decide_False by congruence. rewrite bool_decide_true by done. cbn [fc_assert]. rewrite Ok_bind. cbv zeta.
  rewrite (authority_accounts_exist N r Ha), Hp, (proj2 (Z.eqb_neq _ _) Hc), Hsz. cbn [negb fc_assert].
  destruct (recovery_requests r !! n); repeat case_match; rewrite ?Ok_bind; done.
Qed.

Lemma recovery_accepted n N A i x q r :
  ids r !! n = Some i → auths r !! n = Some x → recovery_requests r !! n = Some q → rr_new_owner_authority q = N →
  in_history n A r = true → freezone_OWNER_UPDATE_LIMIT < rnow r - last_account_recovery i →
  ∃ r', recover_account_apply (RecoverAccount n N A) r = Ok r'
    ∧ ∃ x', auths r' !! n = Some x' ∧ owner x' = N.
Proof.
  intros Hi Hx Hq EN Hh Hl. unfold recover_account_apply, get_identity.
  cbn [ra_account_to_recover ra_new_owner_authority ra_recent_owner_authority]. rewrite Hi, Hq, Hh. cbn [from_option_exn].
  rewrite !Ok_bind, (proj2 (Z.ltb_lt _ _) Hl), bool_decide_true by done.
  assert ((if rhf freezone_HARDFORK_0_12 r then fc_assert true else mret tt) = Ok tt) as -> by (by destruct (rhf _ _)).
  cbn [fc_assert]. rewrite !Ok_bind. cbv zeta. unfold update_owner_authority, get_authorities. cbn [auths set_recovery_requests].
  rewrite Hx. cbn [from_option_exn]. rewrite Ok_bind, Ok_bind. unfold modify_identity, get_identity.
  destruct (_ <=? _); cbn [ids set_auths set_histories set_recovery_requests]; rewrite Hi; cbn [from_option_exn];
    rewrite !Ok_bind; (eexists; split; [done|]); cbn; rewrite lookup_insert_eq; by eexists.
Qed.

Lemma guarded_history n A R t0 r :
  guarded n A R t0 r → (∃ x, auths r !! n = Some x ∧ owner x = A) ∨ in_history n A r = true.
Proof.
  intros Hg. destruct (g_owner _ _ _ _ _ Hg) as [?|(h & Hh & En & EA & _)]; [by left|]. right.
  unfold in_history. apply existsb_exists. exists h. split; [by apply list_elem_of_In|]. by apply bool_decide_eq_true.
Qed.

(** ** Theorems *)

(** An account with owner authority [A] and recovery account [R], and no
    pending change of it. *)
Record held_by (n : name) (A : authority) (R : name) (r : registry) : Prop := HeldBy {
  hb_id : ∃ i, ids r !! n = Some i ∧ recovery_account i = R;
  hb_owner : ∃ x, auths r !! n = Some x ∧ owner x = A;
  hb_settled : change_requests r !! n = None;
  hb_now : 0 <= rnow r;
  hb_tracked : tracked r
}.

Lemma held_guarded n A R r : held_by n A R r → guarded n A R (rnow r) r.
Proof.
  intros [Hi (x & Hx & <-) Hc Hn Ht]. split; try done; [left; eauto|by rewrite Hc].
Qed.

(** The names and authorities of the two operations pass their validation. *)
Record valid_recovery (n R : name) (N A : authority) : Prop := ValidRecovery {
  vr_name : valid_account_name n = true;
  vr_partner : valid_account_name R = true;
  vr_possible : is_impossible A = false;
  vr_recent : authority_validate A = Ok tt;
  vr_new : N ≠ A
}.

(** C11: a stolen account can be recovered for thirty days.  Let an account other
    than the treasury have owner authority [A] and a recovery account, and no
    request to change it, from the block on at which owner authorities are recorded
    (3186477; before it no owner history is kept and this fails).
    Whatever happens in less than thirty days - the thief may replace the
    authorities, ask for another recovery account, pass recovery requests of his
    own; accounts are created and mined, blocks go by, hardforks 9 and 21 replace
    authorities - either the owner authority is still [A], or the
    recovery account can request, and the holder of [A] then perform, a recovery
    that sets the owner authority to any other usable one they agree on (of
    at most 40 members that exist, not impossible), unless the account was recovered in
    the last hour.  The names and [A] pass validation, and the 32-bit clock does
    not end within thirty days. *)
Theorem stolen_account_recoverable u j n A R N r r' :
  n ≠ freezone_TREASURY_ACCOUNT → held_by n A R r → valid_recovery n R N A → usable N r' →
  rtc (reg_step u j) r r' → rnow r' < rnow r + recovery_period → rnow r' + recovery_period < 2 ^ 32 →
  (∃ x, auths r' !! n = Some x ∧ owner x = A)
  ∨ ∀ i, ids r' !! n = Some i → freezone_OWNER_UPDATE_LIMIT < rnow r' - last_account_recovery i →
      ∃ r1 r2 x, run_event u j (Request (RequestAccountRecovery R n N)) r' = Ok r1
        ∧ run_event u j (Recover (RecoverAccount n N A)) r1 = Ok r2
        ∧ auths r2 !! n = Some x ∧ owner x = N.
Proof.
  intros Hne Hh [Vn VR Vi Va VN] HN Hs Hlt Hclock.
  pose proof (guarded_steps u j n A R _ r r' Hne (held_guarded _ _ _ _ Hh) Hs Hlt Hclock) as Hg.
  destruct (guarded_history _ _ _ _ _ Hg) as [Ho|Hin]; [by left|]. right. intros i Hi Hl.
  destruct (g_id _ _ _ _ _ Hg) as (i' & Hi' & ER). assert (i' = i) as -> by congruence.
  destruct (g_auths _ _ _ _ _ Hg) as [x Hx].
  assert (R ≠ "") as HR by (intros ->; by vm_compute in VR).
  cbn [run_event]. unfold request_account_recovery_validate, recover_account_validate, validate_account_name.
  cbn [rar_recovery_account rar_account_to_recover rar_new_owner_authority ra_account_to_recover ra_new_owner_authority ra_recent_owner_authority].
  rewrite Vn, VR, Va, Vi, (us_possible _ _ HN), (us_names _ _ HN), (proj2 (Z.eqb_neq _ _) (us_closed _ _ HN)), bool_decide_false by done.
  cbn [fc_assert negb]. rewrite !Ok_bind, (request_accepted n R N i) by done.
  set (r1 := set_recovery_requests _ r').
  destruct (recovery_accepted n N A i x (RecoveryRequest N (u32 (rnow r' + freezone_ACCOUNT_RECOVERY_REQUEST_EXPIRATION_PERIOD))) r1)
    as (r2 & H2 & x2 & Hx2 & E2); try done.
  { cbn. apply lookup_insert_eq. }
  exists r1, r2, x2. by rewrite !Ok_bind.
Qed.

(** ** Housekeeping *)

Lemma foldl_delete {A B} (l : list (name * B)) (m : gmap name A) k :
  foldl (λ m x, delete x.1 m) m l !! k = if decide (k ∈ l.*1) then None else m !! k.
Proof.
  revert m. induction l as [|x l IH]; intros m; [done|]. cbn [foldl fmap list_fmap]. rewrite IH.
  destruct (decide (k ∈ l.*1)); [rewrite decide_True by set_solver; done|].
  destruct (decide (k = x.1)) as [->|Hne]; [rewrite lookup_delete_eq, decide_True by set_solver; done|].
  rewrite lookup_delete_ne, decide_False by set_solver. done.
Qed.

Lemma due_keys {A} (t : A → Z) now (m : gmap name A) k :
  k ∈ (due t now m).*1 ↔ ∃ a, m !! k = Some a ∧ t a <= now.
Proof.
  rewrite list_elem_of_fmap. split.
  - intros ([k' a] & -> & Hx%elem_of_due). eauto.
  - intros (a & Ha & Ht). exists (k, a). split; [done|]. by apply elem_of_due.
Qed.

Lemma drop_invalid_filter now l :
  StronglySorted (λ h h', last_valid_time h <= last_valid_time h') l →
  (∀ h, h ∈ l → u32 (last_valid_time h + recovery_period) = last_valid_time h + recovery_period) →
  drop_invalid now l = List.filter (λ h, now <=? last_valid_time h + recovery_period) l.
Proof.
  induction 1 as [|h l Hl IH Hh]; intros Hu; [done|]. cbn [drop_invalid List.filter].
  change freezone_OWNER_AUTH_RECOVERY_PERIOD with recovery_period. rewrite Hu by set_solver.
  destruct (Z.ltb_spec (last_valid_time h + recovery_period) now).
  - rewrite (proj2 (Z.leb_gt _ _)) by done. apply IH. set_solver.
  - rewrite (proj2 (Z.leb_le _ _)) by done. f_equal. symmetry. apply forallb_filter_id, forallb_forall.
    intros h' Hin%list_elem_of_In. rewrite Forall_forall in Hh. apply Hh in Hin. apply Z.leb_le. lia.
Qed.

Lemma change_fold l r :
  NoDup l.*1 → (∀ x, x ∈ l → is_Some (ids r !! x.1)) →
  ∃ r', res_fold apply_change r l = Ok r'
    ∧ recovery_requests r' = recovery_requests r ∧ histories r' = histories r
    ∧ change_requests r' = foldl (λ m x, delete x.1 m) (change_requests r) l
    ∧ (∀ n, n ∉ l.*1 → ids r' !! n = ids r !! n)
    ∧ ∀ x, x ∈ l → ids r' !! x.1 = set_recovery_account (cr_recovery_account x.2) <$> ids r !! x.1.
Proof.
  revert r. induction l as [|x l IH]; intros r Hnd Hall; [exists r; split_and!; set_solver|].
  apply NoDup_cons in Hnd as [Hx Hnd]. destruct (Hall x ltac:(set_solver)) as [i Hi].
  set (r1 := set_change_requests (delete x.1) (set_ids <[x.1 := set_recovery_account (cr_recovery_account x.2) i]> r)).
  assert (apply_change r x = Ok r1) as E1.
  { unfold apply_change, modify_identity, get_identity. rewrite Hi. done. }
  destruct (IH r1 Hnd) as (r' & Hr & HR & HH & HC & HO & HI).
  { intros y Hy. cbn. destruct (decide (y.1 = x.1)) as [->|]; [rewrite lookup_insert_eq; eauto|].
    rewrite lookup_insert_ne by done. apply Hall. set_solver. }
  exists r'. cbn [res_fold]. rewrite E1, Ok_bind. split_and!; try done.
  - intros n Hn. cbn in Hn. rewrite HO by set_solver. cbn. apply lookup_insert_ne. set_solver.
  - intros y [->|Hy]%elem_of_cons.
    + rewrite HO by done. cbn. by rewrite lookup_insert_eq, Hi.
    + rewrite HI by done. cbn. rewrite lookup_insert_ne; [done|]. intros Exy. apply Hx. rewrite Exy.
      apply list_elem_of_fmap. eauto.
Qed.

(** C27: the recovery tables are cleaned up exactly.  Once every block, whatever
    is pending: a request to recover is dropped exactly when it has expired, an
    owner authority is forgotten exactly when it was replaced more than thirty
    days ago (although the loop stops at the first that is valid), and a change
    of the recovery account is applied exactly when its thirty days are over;
    all other rows are as before, and the step does not throw. *)
Theorem recovery_processing_exact r :
  (∀ n c, change_requests r !! n = Some c → is_Some (ids r !! n)) →
  StronglySorted (λ h h', last_valid_time h <= last_valid_time h') (histories r) →
  (∀ h, h ∈ histories r → 0 <= last_valid_time h ∧ last_valid_time h + recovery_period < 2 ^ 32) →
  ∃ r', account_recovery_processing r = Ok r'
    ∧ (∀ n q, recovery_requests r' !! n = Some q ↔ recovery_requests r !! n = Some q ∧ rnow r < rr_expires q)
    ∧ histories r' = List.filter (λ h, rnow r <=? last_valid_time h + recovery_period) (histories r)
    ∧ (∀ n c, change_requests r' !! n = Some c ↔ change_requests r !! n = Some c ∧ rnow r < cr_effective_on c)
    ∧ ∀ n, ids r' !! n =
        match change_requests r !! n with
        | Some c => if cr_effective_on c <=? rnow r then set_recovery_account (cr_recovery_account c) <$> ids r !! n else ids r !! n
        | None => ids r !! n
        end.
Proof.
  intros Hids Hsort Hu. unfold account_recovery_processing. cbv zeta. set (r1 := set_histories _ _).
  change (rnow r1) with (rnow r). change (change_requests r1) with (change_requests r).
  destruct (change_fold (due cr_effective_on (rnow r) (change_requests r)) r1) as (r' & Hr & HR & HH & HC & HO & HI).
  { apply due_nodup. }
  { intros x [Hx _]%elem_of_due. by eapply Hids. }
  exists r'. split; [done|]. rewrite HR, HC. split_and!.
  - intros n q. cbn. rewrite foldl_delete. destruct (decide _) as [Hd|Hd]; rewrite due_keys in Hd.
    + destruct Hd as (q' & Hq & Hle). split; [done|]. intros [Hq' Hlt]. assert (q' = q) as -> by congruence. lia.
    + split; [|by intros []]. intros Hq. split; [done|]. apply Z.nle_gt. eauto.
  - rewrite HH. apply drop_invalid_filter; [done|]. intros h Hh. apply Hu in Hh as [? ?]. by apply u32_clock.
  - intros n c. rewrite foldl_delete. destruct (decide _) as [Hd|Hd]; rewrite due_keys in Hd.
    + destruct Hd as (c' & Hc & Hle). split; [done|]. intros [Hc' Hlt]. assert (c' = c) as -> by congruence. lia.
    + split; [|by intros []]. intros Hc. split; [done|]. apply Z.nle_gt. eauto.
  - intros n. destruct (change_requests r !! n) as [c|] eqn:Ec.
    + destruct (Z.leb_spec (cr_effective_on c) (rnow r)) as [Hle|Hlt].
      * apply (HI (n, c)). by apply elem_of_due.
      * apply HO. rewrite due_keys. intros (c' & Hc & Hle). assert (c' = c) as -> by congruence. lia.
    + apply HO. rewrite due_keys, Ec. by intros (c' & ? & _).
Qed.

(** ** A theft

    Alice names the partner as her recovery account.  A thief obtains her owner
    key, replaces the owner authority and asks for another recovery account;
    some days pass. *)

Module RecoveryExample.
Definition key_authority (k : public_key) : authority := Authority 1 [] [(k, 1)].

Definition sample_account (fz : Z) : account :=
  Account fz 0 (SbdAccount 0 (U128 0 0) 0 0) (SbdAccount 0 (U128 0 0) 0 0) 0 0 0 0 0
    (ManaAccount 0 0 0 time_point_sec_maximum 0 0 0 (Manabar 0 0) (Manabar 0 0)) 0 "" [0; 0; 0; 0] 0 true.

Definition sample_identity (rec : name) : identity := Identity 9 0 0 false rec 0 0.
Definition sample_auths (k : public_key) : account_authority :=
  AccountAuthority (key_authority k) (key_authority (k + 1)) (key_authority (k + 2)) 0.

Definition sample_db : db :=
  DB {[ "alice" := sample_account 100; "partner" := sample_account 100; "thief" := sample_account 100; freezone_NULL_ACCOUNT := sample_account 0 ]}
    ∅ ∅ ∅ ∅ ∅ ∅ ∅ ∅ ∅ ∅ (Staking ∅ ∅ (U128 0 0) ∅ ∅ ∅ 30) 0
    (GPO 4000000 1000000 300 0 0 300 0 0 0 0 0 0 10000 10 432000 2500) null_price 22.

Definition no_pool : rd_dynamics_params := RdDynamicsParams 0 0 0 0 (RdDecayParams 0 0) 0.

Definition sample_funds : funds :=
  Funds (Sched sample_db ∅ (WSO 0 [] 0 1 5 1 25 (ChainProperties 30 65536 0 0 0) 0 20 1 17 no_pool no_pool) 0 65536 (HardforkProperties 0 0 0))
    "" 0 0 0 0 0 0 0 ∅ [] ∅.

Definition sample_registry : registry :=
  Registry sample_funds
    {[ "alice" := sample_identity "partner"; "partner" := sample_identity ""; "thief" := sample_identity ""; freezone_NULL_ACCOUNT := sample_identity "" ]}
    {[ "alice" := sample_auths 10; "partner" := sample_auths 20; "thief" := sample_auths 30; freezone_NULL_ACCOUNT := sample_auths 0 ]}
    {[ "alice" := ("", ""); "partner" := ("", ""); "thief" := ("", ""); freezone_NULL_ACCOUNT := ("", "") ]}
    [] ∅ ∅ ∅ false false.

Definition any_text (_ : string) : bool := true.

Definition theft : event := Update (AccountUpdate "alice" (Some (key_authority 66)) None None null_key "").
Definition new_partner : event := Change (ChangeRecoveryAccount "alice" "thief").

Definition stolen : registry := value_of sample_registry (run_event any_text any_text theft sample_registry).
Definition stolen2 : registry := value_of stolen (run_event any_text any_text new_partner stolen).
Definition days_later : registry := value_of stolen2 (next_block 4100000 2000000 stolen2).

Lemma theft_run : run_event any_text any_text theft sample_registry = Ok stolen.
Proof. apply value_of_Ok. vm_compute. reflexivity. Qed.
Lemma new_partner_run : run_event any_text any_text new_partner stolen = Ok stolen2.
Proof. apply value_of_Ok. vm_compute. reflexivity. Qed.
Lemma days_later_run : next_block 4100000 2000000 stolen2 = Ok days_later.
Proof. apply value_of_Ok. vm_compute. reflexivity. Qed.
Lemma stolen_head :
  (head_block_number (gpo (rdb stolen2)) <=? 4100000) && (rnow stolen2 <=? 2000000) = true.
Proof. vm_compute. reflexivity. Qed.

Lemma theft_steps : rtc (reg_step any_text any_text) sample_registry days_later.
Proof.
  pose proof stolen_head as [H1%Z.leb_le H2%Z.leb_le]%andb_true_iff.
  refine (rtc_l _ _ _ _ (step_event any_text any_text sample_registry theft stolen theft_run) _).
  refine (rtc_l _ _ _ _ (step_event any_text any_text stolen new_partner stolen2 new_partner_run) _).
  refine (rtc_once _ _ (step_block any_text any_text stolen2 4100000 2000000 days_later H1 H2 _ days_later_run)).
  unfold in_u. lia.
Qed.

Lemma sample_held : held_by "alice" (key_authority 10) "partner" sample_registry.
Proof. split; [by eexists|by eexists|done|vm_compute; discriminate|vm_compute; discriminate]. Qed.

Lemma sample_valid : valid_recovery "alice" "partner" (key_authority 77) (key_authority 10).
Proof. split; done. Qed.

Lemma sample_usable : usable (key_authority 77) days_later.
Proof. split; try done. intros aw H. by apply not_elem_of_nil in H. Qed.

Lemma stolen_account_recoverable_witness :
  ∃ i r1 r2 x, ids days_later !! "alice" = Some i
    ∧ run_event any_text any_text (Request (RequestAccountRecovery "partner" "alice" (key_authority 77))) days_later = Ok r1
    ∧ run_event any_text any_text (Recover (RecoverAccount "alice" (key_authority 77) (key_authority 10))) r1 = Ok r2
    ∧ auths r2 !! "alice" = Some x ∧ owner x = key_authority 77.
Proof.
  destruct (stolen_account_recoverable any_text any_text "alice" (key_authority 10) "partner" (key_authority 77)
    sample_registry days_later ltac:(done) sample_held sample_valid sample_usable theft_steps) as [(x & Hx & E)|H].
  - vm_compute. reflexivity.
  - vm_compute. reflexivity.
  - exfalso. assert ((owner <$> auths days_later !! "alice") = Some (key_authority 66)) as H by (vm_compute; reflexivity).
    rewrite Hx in H. cbn in H. rewrite E in H. discriminate H.
  - destruct (ids days_later !! "alice") as [i|] eqn:Ei; [|vm_compute in Ei; discriminate].
    destruct (H i eq_refl) as (r1 & r2 & x & H1 & H2 & H3 & H4).
    + assert ((last_account_recovery <$> ids days_later !! "alice") = Some 0) as El by (vm_compute; reflexivity).
      rewrite Ei in El. injection El as ->. vm_compute. reflexivity.
    + exists i, r1, r2, x. exact (conj eq_refl (conj H1 (conj H2 (conj H3 H4)))).
Defined.

Lemma recovery_processing_exact_witness :
  ∃ r', account_recovery_processing stolen2 = Ok r' ∧ histories r' = histories stolen2
    ∧ ids r' !! "alice" = ids stolen2 !! "alice".
Proof.
  destruct (recovery_processing_exact stolen2) as (r' & H1 & _ & H3 & _ & H5).
  - intros n c Hc. assert (change_requests stolen2 = {[ "alice" := ChangeRequest "thief" 3592000 ]}) as E by (vm_compute; reflexivity).
    rewrite E, lookup_singleton_Some in Hc. destruct Hc as [<- _].
    destruct (ids stolen2 !! "alice") as [i|] eqn:Ei; [by exists i|vm_compute in Ei; discriminate].
  - assert (histories stolen2 = [OwnerHistory "alice" (key_authority 10) 1000000]) as -> by (vm_compute; reflexivity).
    repeat constructor.
  - intros h Hh. assert (histories stolen2 = [OwnerHistory "alice" (key_authority 10) 1000000]) as E by (vm_compute; reflexivity).
    rewrite E, list_elem_of_singleton in Hh. subst h. split; vm_compute; discriminate || reflexivity.
  - exists r'. split; [exact H1|]. split; [rewrite H3; vm_compute; reflexivity|]. rewrite H5. vm_compute. reflexivity.
Defined.

(** The size of an authority is checked for a new request only: an authority
    with 41 keys is refused, but accepted as the change of a pending request,
    and becomes the owner authority.  When it needs all of its keys it cannot be
    satisfied any more, since the check of signatures stops at 40 members. *)
Definition large_authority : authority := Authority 41 [] ((λ k, (Z.of_nat k, 1)) <$> seq 1 41).

Lemma change_of_request_skips_size :
  validate_auth_size large_authority = Throw assert_exception
  ∧ run_event any_text any_text (Request (RequestAccountRecovery "partner" "alice" large_authority)) days_later = Throw assert_exception
  ∧ (r ← run_event any_text any_text (Request (RequestAccountRecovery "partner" "alice" (key_authority 77))) days_later;
     r ← run_event any_text any_text (Request (RequestAccountRecovery "partner" "alice" large_authority)) r;
     r ← run_event any_text any_text (Recover (RecoverAccount "alice" large_authority (key_authority 10))) r;
     mret (owner <$> auths r !! "alice")) = Ok (Some large_authority)
  ∧ (let keys := list_to_set (get_keys large_authority) in
     '(b, _) ← check_authority (λ _, Throw out_of_range) keys freezone_MAX_AUTHORITY_MEMBERSHIP freezone_MAX_SIG_CHECK_ACCOUNTS
       freezone_MAX_SIG_CHECK_DEPTH large_authority (make_sign_state keys); mret b) = Ok false.
Proof. split_and!; vm_compute; reflexivity. Qed.

End RecoveryExample.
