(* ===== verification/Registry.v ===== *)
(** * Accounts, money and votes together

    The operations on accounts (Accounts.v), recovery and declined votes
    (Recovery.v) on the chain state of the ledger and of staking: what they
    keep.  The tables that describe an account agree on which accounts exist,
    pending requests name accounts that exist, and no money, vesting share or
    vote is created or lost. *)

From S2P Require Import Prelude Config AccountName Authority Uint128 SafeInt AssetSymbol Asset Manabar ResourceDynamics MapSum State Ledger Votes Vesting Payouts Delegation Claims Staking WitnessSchedule Slots Funds Accounts Recovery.
From stdpp Require Import gmap strings sorting.
#[local] Open Scope Z_scope.

(** ** A new account *)

Lemma gap_new_account s n a d : accounts d !! n = None → account_held s n a = 0 → gap s (put_account n a d) = gap s d.
Proof. intros Hn Hz. unfold_gap. rewrite msum_insert_new, Hz by done. lia. Qed.

(** The members of a new account: no shares, no proxy, no votes. *)
Record blank (received : Z) (a : account) : Prop := Blank {
  bl_held : ∀ s n, account_held s n a = 0;
  bl_stake : ∃ v w, stake a = ManaAccount 0 received 0 time_point_sec_maximum 0 0 0 v w;
  bl_proxy : proxy a = freezone_PROXY_TO_SELF_ACCOUNT;
  bl_levels : proxied_vsf_votes a = [0; 0; 0; 0]
}.

Lemma blank_power x a : blank x a → voting_power a = 0.
Proof.
  intros [_ (v & w & E) _ El]. unfold voting_power, vesting_shares. by rewrite E, El.
Qed.

Lemma chain_depth_new n a d m k : accounts d !! n = None → chain_depth d m k → chain_depth (put_account n a d) m k.
Proof.
  intros Hn. induction 1 as [m b Hb Ep|m b k Hb Ep Hk IH].
  - eapply depth_end; [|done]. cbn. rewrite lookup_insert_ne; [done|congruence].
  - eapply depth_next; [|done..]. cbn. rewrite lookup_insert_ne; [done|congruence].
Qed.

Lemma votes_ok_new_account n x a d : accounts d !! n = None → blank x a → votes_ok d → votes_ok (put_account n a d).
Proof.
  intros Hn Hb [[Hl Hv Hac] Ht Hw]. pose proof Hb as [_ _ Ep El]. split; [split| |].
  - intros m b. cbn. rewrite lookup_insert_Some. intros [[<- <-]|[_ Hm]]; [by rewrite El|by eapply Hl].
  - intros m w b Hin. cbn. rewrite lookup_insert_Some. intros [[<- <-]|[_ Hm]]; [done|by eapply Hv].
  - intros m b. cbn. rewrite lookup_insert_Some. intros [[<- <-]|[_ Hm]].
    + exists O. eapply depth_end; [apply lookup_insert_eq|done].
    + destruct (Hac m b Hm) as [k Hk]. exists k. by apply chain_depth_new.
  - unfold counted_votes in *. cbn. rewrite msum_insert_new by done. unfold counted at 1. rewrite decide_True by done.
    rewrite (blank_power x a Hb). done.
  - intros w. rewrite <- (Hw w). unfold tally_error, votes_cast.
    change (tally w (put_account n a d)) with (tally w d). cbn [put_account set_accounts accounts staking].
    rewrite msum_insert_new by done. unfold cast at 1. rewrite (blank_power x a Hb). case_decide; lia.
Qed.

Lemma kept_new_account n a d : accounts d !! n = None → blank 0 a → kept d (put_account n a d).
Proof.
  intros Hn [_ (v & w & E) _ _]. split; try done. intros r Hr. assert (kept d d) as [H _ _ _] by done. specialize (H r Hr).
  destruct r as [m|m s]; [|exact H]. cbn in *. destruct (decide (m = n)) as [->|Hne]; [|by rewrite lookup_insert_ne].
  rewrite Hn, lookup_insert_eq. cbn. intros m' [= <-]. rewrite E. done.
Qed.

Lemma staking_ok_new_account n a d : accounts d !! n = None → blank 0 a → staking_ok d → staking_ok (put_account n a d).
Proof.
  intros Hn Hb Hok. apply (staking_ok_moved d); [by apply kept_new_account| |done|by split|done].
  eapply votes_ok_new_account; [done..|apply Hok].
Qed.

(** ** What an operation keeps *)

(** The books: votes and stakes stay consistent, and nothing but [k] freezone
    is created. *)
Record books (k : Z) (d d' : db) : Prop := Books {
  bk_staking : staking_ok d → staking_ok d';
  bk_gap : tokens_wf d → ∀ s, gap s d' = gap s d + amount_of s (Asset k freezone_SYMBOL);
  bk_frame : ledger_frame d d'
}.

Lemma books_refl d : books 0 d d.
Proof. split; try done. intros _ s. rewrite amount_of_zero. lia. Qed.

Lemma books_trans k1 k2 d1 d2 d3 : books k1 d1 d2 → books k2 d2 d3 → books (k1 + k2) d1 d3.
Proof.
  intros [S1 G1 F1] [S2 G2 F2]. split; [auto| |by etrans].
  intros Hw s. rewrite G2, G1, amount_of_add by (done || by eapply tokens_wf_frame). lia.
Qed.

Lemma books_sum k1 k2 k d1 d2 d2' d3 : books k1 d1 d2 → books k2 d2' d3 → k1 + k2 = k → d2' = d2 → books k d1 d3.
Proof. intros B1 B2 <- ->. by eapply books_trans. Qed.

Lemma books_new_account n a d : accounts d !! n = None → blank 0 a → books 0 d (put_account n a d).
Proof.
  intros Hn Hb. split; [by apply staking_ok_new_account| |by split]. intros _ s. rewrite amount_of_zero, gap_new_account; [lia|done|].
  by apply Hb.
Qed.

Lemma books_adjust n x d d' : symbol x = freezone_SYMBOL → adjust_balance n x d = Ok d' → books (amount x) d d'.
Proof.
  intros Es H. split.
  - intros Hok. eapply staking_ok_still; [|exact Hok]. eapply still_adjust_balance; [by rewrite Es| |exact H].
    intros Hv. rewrite Es in Hv. by vm_compute in Hv.
  - intros _ s. rewrite amount_of_eta by done. by apply (gap_adjust_balance s) in H.
  - eauto with freezone.
Qed.

Lemma books_vest n x d nv d' : symbol x = freezone_SYMBOL → create_vesting n x false d = Ok (nv, d') → books (amount x) d d'.
Proof.
  intros Es H. split.
  - intros Hok. eapply staking_ok_create_vesting; [exact Hok| |exact H]. rewrite Es. done.
  - intros Hw s. rewrite amount_of_eta by done. by apply (gap_create_vesting s) in H.
  - by eapply frame_create_vesting.
Qed.

Lemma books_put_balance n a b d : accounts d !! n = Some a → books (b - balance a) d (put_account n (set_balance b a) d).
Proof.
  intros Ha. split; [|  |by split].
  - apply staking_ok_still, (still_put_account n a); done.
  - intros _ s. rewrite (gap_put_account _ _ a) by done. held_diff. rewrite amount_of_sub. lia.
Qed.

(** ** The operations *)

Lemma create_account_Ok n key rec x json o a p r r' :
  create_account n key rec x json o a p r = Ok r' →
  ∃ acc i, accounts (rdb r) !! n = None ∧ ids r !! n = None ∧ metas r !! n = None ∧ auths r !! n = None ∧ blank x acc
    ∧ (recovery_account i = rec ∨ recovery_account i = "" ∨ recovery_account i = "freezone")
    ∧ r' = set_auths <[n := AccountAuthority o a p 0]> (set_metas <[n := (json, "")]> (set_ids <[n := i]> (set_rdb (put_account n acc (rdb r)) r))).
Proof.
  unfold create_account, initialize_account_object. cbv zeta. intros H.
  apply bind_Ok in H as (? & [Hn Hi]%check_Ok%bool_decide_eq_true & H).
  apply bind_Ok in H as (? & Hm%check_Ok%bool_decide_eq_true & H).
  apply bind_Ok in H as (? & Ha%check_Ok%bool_decide_eq_true & H). injection H as <-.
  eexists _, _. split_and!; try done.
  - split; try done. 2: by eexists _, _. intros s m. rewrite account_held_split. cbn. by rewrite !amount_of_zero.
  - cbn. destruct (has_hardfork _ _); [destruct (_ || _)|]; auto.
Qed.

Lemma rhf_frame h r r' : ledger_frame (rdb r) (rdb r') → rhf h r' = rhf h r.
Proof. intros F. unfold rhf, has_hardfork. by rewrite (lf_hardforks _ _ F). Qed.

Definition burnt (fee : asset) (r : registry) : Z := if rhf freezone_HARDFORK_0_20 r then amount fee else 0.

Lemma books_burn fee r r' : symbol fee = freezone_SYMBOL → burn_fee fee r = Ok r' → books (burnt fee r) (rdb r) (rdb r').
Proof.
  unfold burn_fee, burnt. intros Es H. destruct (rhf _ _); [|injection H as <-; apply books_refl].
  skip H. apply bind_Ok in H as (d & Hd & H). injection H as <-. by eapply books_adjust.
Qed.

Lemma books_vest_fee n fee r r' :
  symbol fee = freezone_SYMBOL → 0 <= amount fee → vest_fee n fee r = Ok r' → books (amount fee - burnt fee r) (rdb r) (rdb r').
Proof.
  unfold vest_fee, burnt. intros Es Hf H. destruct (rhf _ _); cbn [negb andb] in H.
  { injection H as <-. rewrite Z.sub_diag. apply books_refl. }
  rewrite Z.sub_0_r. destruct (Z.ltb_spec 0 (amount fee)).
  - apply bind_Ok in H as ([nv d] & Hd & H). injection H as <-. by eapply books_vest.
  - injection H as <-. replace (amount fee) with 0 by lia. apply books_refl.
Qed.

Lemma burnt_frame fee r r' : ledger_frame (rdb r) (rdb r') → burnt fee r' = burnt fee r.
Proof. intros F. unfold burnt. by rewrite (rhf_frame _ _ _ F). Qed.

Lemma fee_valid fee : (b ← asset_geb fee (Asset 0 freezone_SYMBOL); fc_assert b) = Ok tt → 0 <= amount fee.
Proof. unfold asset_geb. intros H. apply bind_Ok in H as (b & Hb & H%fc_assert_Ok). skip Hb. injection Hb as <-. by apply Z.leb_le in H. Qed.

Lemma books_account_create u j o r r' :
  account_create_validate u j o = Ok tt → account_create_apply o r = Ok r' → books 0 (rdb r) (rdb r').
Proof.
  intros Hval H. unfold account_create_validate in Hval. skip Hval. apply bind_Ok in Hval as (? & Es%fc_assert_Ok%Z.eqb_eq & Hval).
  do 3 skip Hval. apply fee_valid in Hval as Hf. unfold account_create_apply in H. do 5 skip H.
  apply bind_Ok in H as (mi & ->%asset_neg_value & H). apply bind_Ok in H as (d & Hd & H).
  apply books_adjust in Hd as B1; [|done]. cbn [amount] in B1.
  apply bind_Ok in H as (r1 & B2%books_burn & H); [|done]. apply bind_Ok in H as (r2 & H2 & H).
  apply create_account_Ok in H2 as (acc & i & Hn & _ & _ & _ & Hb & _ & ->).
  pose proof (books_new_account _ _ _ Hn Hb) as B3. apply books_vest_fee in H as B4; [|done..].
  match type of B4 with context [burnt _ ?x] =>
    rewrite (burnt_frame (ac_fee o) (set_rdb d r) x) in B4 by (etrans; [apply B2|apply B3]) end.
  eapply books_sum; [exact (books_trans _ _ _ _ _ B1 B2)|exact (books_trans _ _ _ _ _ B3 B4)|lia|done].
Qed.

(** *** Creation with a delegation *)

Definition add_delegated (x : Z) (m : mana_account) : mana_account :=
  set_ma_delegated (ma_delegated_vesting_shares m + x) m.

Lemma set_stake_twice m m' a : set_stake m (set_stake m' a) = set_stake m a.
Proof. done. Qed.
Lemma set_stake_id a : set_stake (stake a) a = a.
Proof. by destruct a. Qed.

Lemma blank_received x a : blank x a → blank 0 (set_stake (set_ma_received 0 (stake a)) a).
Proof.
  intros [Hh (v & w & E) Hp Hl]. split; [|cbn; rewrite E; by eexists _, _|done|done].
  intros s n. rewrite <- (Hh s n). done.
Qed.

Section Delegated.

Context (n m : name) (c acc : account) (b x t : Z) (d : db).
Hypothesis Hc : accounts d !! n = Some c.
Hypothesis Hm : accounts d !! m = None.
Hypothesis Hacc : blank x acc.
Hypothesis Hx : 0 <= x.

Let key : delegation_key := (n, m, freezone_SYMBOL).
Let creator : account := set_stake (add_delegated x (stake c)) (set_balance b c).
(** The accounts before the delegation. *)
Let acc0 : account := set_stake (set_ma_received 0 (stake acc)) acc.
Let d0 : db := put_account m acc0 (put_account n (set_balance b c) d).
Let d' : db := set_delegations <[key := Delegation x t]> (put_account m acc (put_account n creator d)).

Lemma delegated_neq : n ≠ m.
Proof. intros ->. congruence. Qed.

Lemma delegated_before : books (b - balance c) d d0.
Proof.
  eapply (books_sum (b - balance c) 0); [by apply books_put_balance| |lia|done].
  apply books_new_account; [|by eapply blank_received]. cbn. rewrite lookup_insert_ne; [done|apply delegated_neq].
Qed.

Lemma delegated_state :
  d' = put_stake (account_stake m) (stake acc) (put_stake (account_stake n) (add_delegated x (stake c)) (set_delegations <[key := Delegation x t]> d0)).
Proof.
  pose proof delegated_neq as Hne. unfold d', d0, put_stake, put_account, set_delegations, set_staking, set_accounts.
  cbn. f_equal. apply map_eq. intros i. destruct (decide (i = m)) as [->|Him].
  - rewrite lookup_insert_eq, lookup_alter_eq, lookup_alter_ne, lookup_insert_eq by done. cbn.
    unfold acc0. by rewrite set_stake_twice, set_stake_id.
  - rewrite lookup_insert_ne, lookup_alter_ne by done. destruct (decide (i = n)) as [->|Hin].
    + by rewrite lookup_insert_eq, lookup_alter_eq, lookup_insert_ne, lookup_insert_eq by done.
    + by rewrite lookup_insert_ne, lookup_alter_ne, !lookup_insert_ne by done.
Qed.

Lemma delegated_step :
  delegations (staking d) !! key = None → x <= own_shares (stake c) → x < 2 ^ 63 →
  delegated (account_stake n) (account_stake m) key (Asset x VESTS_SYMBOL) d0 d'.
Proof.
  intros Hkey Hown Hb. rewrite delegated_state. pose proof delegated_neq as Hne. destruct (bl_stake _ _ Hacc) as (v & w & E).
  change (Delegation x t) with (Delegation (amount (Asset x VESTS_SYMBOL)) t).
  eapply (delegated_more _ _ _ _ _ x t (stake c) (stake acc0)); cbn; try done.
  - by rewrite lookup_insert_ne, lookup_insert_eq by done.
  - by rewrite lookup_insert_eq.
  - unfold delegated_amount. cbn. rewrite Hkey. done.
  - by eexists _, _.
  - rewrite E. by eexists _, _.
  - rewrite E. cbn. apply safe_add_Ok; unfold in_s; lia.
Qed.

Lemma books_delegated :
  (staking_ok d → delegations (staking d) !! key = None ∧ x <= own_shares (stake c)) → books (b - balance c) d d'.
Proof.
  intros Hpre. pose proof delegated_before as [B1 G1 F1]. pose proof delegated_neq as Hne.
  assert (account_stake n ≠ account_stake m) as Hab by congruence.
  assert (quiet d0 d') as Q.
  { rewrite delegated_state. eapply quiet_put_two; [done| | |..]; [by split|by intros []|cbn; by rewrite lookup_insert_ne, lookup_insert_eq by done|cbn; by rewrite lookup_insert_eq| |]; done. }
  split; [| |etrans; [exact F1|apply Q]].
  - intros Hok. destruct (Hpre Hok) as [Hk Hown].
    assert (x < 2 ^ 63) as Hb.
    { pose proof (rows_stakes_ok _ (ok_rows _ Hok) n c Hc) as S. destruct S. unfold own_shares in Hown. case_match; lia. }
    pose proof (delegated_step Hk Hown Hb) as Hd. apply B1 in Hok as Hok0.
    assert (delegations_ok d') as Hdel.
    { eapply (delegated_keeps (account_stake n) (account_stake m) (Asset x VESTS_SYMBOL)); [done..|by left|exact Hd|apply Hok0]. }
    eapply staking_ok_quiet; [|exact Hdel|exact Q|exact Hok0].
    eapply (rows_ok_delegated (account_stake n) (account_stake m)); [done..|apply Hok0|apply Hok0|exact Hdel|exact Hd].
  - intros Hw s. rewrite (q_gap _ _ Q). by apply G1.
Qed.

End Delegated.

Lemma delegation_covered o c d :
  check_delegation o c d = Ok tt → stake_ok (stake c) → amount (acd_delegation o) <= own_shares (stake c).
Proof.
  intros H S. unfold check_delegation in H. do 2 skip H. apply bind_Ok in H as (w & Hw & H).
  apply bind_Ok in H as (y & Hy & H). apply bind_Ok in H as (z & Hz & H). apply bind_Ok in H as (b & Hb & H).
  apply bind_Ok in H as (? & Hle%fc_assert_Ok & _). unfold asset_geb in Hb. skip Hb. injection Hb as <-. apply Z.leb_le in Hle. cbn in Hle.
  safe_values. unfold own_shares, vesting_shares in *. destruct S. case_match; lia.
Qed.

Lemma create_with_delegation_valid u j o :
  account_create_with_delegation_validate u j o = Ok tt →
  symbol (acd_fee o) = freezone_SYMBOL ∧ 0 <= amount (acd_fee o) ∧ 0 <= amount (acd_delegation o).
Proof.
  intros H. unfold account_create_with_delegation_validate in H. do 2 skip H.
  apply bind_Ok in H as (? & Es%fc_assert_Ok%Z.eqb_eq & H). do 5 skip H.
  apply bind_Ok in H as (b1 & Hb1 & H). apply bind_Ok in H as ([] & Hb2 & H). split_and!; [done|apply fee_valid; by rewrite Hb1|].
  apply bind_Ok in H as (b & Hb & H%fc_assert_Ok). unfold asset_geb in Hb. skip Hb. injection Hb as <-. by apply Z.leb_le in H.
Qed.

(** The part before the fee is vested. *)
Lemma books_delegated_account o c acc t r r' n m (row : bool) :
  n = acd_creator o → m = acd_new_account_name o →
  0 <= amount (acd_delegation o) → accounts (rdb r) !! n = Some c → check_delegation o c (rdb r) = Ok tt →
  accounts (rdb r) !! m = None → blank (amount (acd_delegation o)) acc →
  let cr := set_stake (add_delegated (amount (acd_delegation o)) (stake c)) (set_balance (balance c - amount (acd_fee o)) c) in
  let d := put_account m acc (put_account n cr (rdb r)) in
  (row = false → amount (acd_delegation o) = 0) →
  (if row then
     delegations (staking d) !! (n, m, freezone_SYMBOL) = None
     ∧ rdb r' = set_delegations <[(n, m, freezone_SYMBOL) := Delegation (amount (acd_delegation o)) t]> d
   else rdb r' = d) →
  books (- amount (acd_fee o)) (rdb r) (rdb r').
Proof.
  intros -> -> Hx Hc Hchk Hm Hb cr d Hrow H. destruct row.
  - destruct H as [Hk ->]. eapply (books_sum _ 0); [|apply books_refl|apply Z.add_0_r|reflexivity].
    replace (- amount (acd_fee o)) with (balance c - amount (acd_fee o) - balance c) by lia.
    apply (books_delegated _ _ c acc _ _ t (rdb r) Hc Hm Hb Hx). intros Hok. split; [exact Hk|].
    eapply delegation_covered; [exact Hchk|]. by eapply (rows_stakes_ok _ (ok_rows _ Hok)).
  - rewrite H. pose proof (Hrow eq_refl) as E0.
    assert (cr = set_balance (balance c - amount (acd_fee o)) c) as Ecr.
    { unfold cr, add_delegated. rewrite E0, Z.add_0_r. by destruct c as [????????? []]. }
    assert (acd_creator o ≠ acd_new_account_name o) by congruence.
    eapply (books_sum _ 0); [apply (books_put_balance _ c (balance c - amount (acd_fee o)) (rdb r) Hc)| |lia|reflexivity].
    rewrite <- Ecr. apply books_new_account; [|by rewrite <- E0]. cbn. by rewrite lookup_insert_ne.
Qed.

Lemma books_account_create_with_delegation u j o r r' :
  account_create_with_delegation_validate u j o = Ok tt → account_create_with_delegation_apply o r = Ok r' → books 0 (rdb r) (rdb r').
Proof.
  intros (Es & Hf & Hx)%create_with_delegation_valid H. unfold account_create_with_delegation_apply in H.
  apply bind_Ok in H as (? & Hhf%fc_assert_Ok%negb_true_iff & H). skip H. apply bind_Ok in H as (c & Hc%from_option_exn_Ok & H).
  apply bind_Ok in H as ([] & Hchk & H). do 4 skip H. apply bind_Ok in H as (b & [_ ->]%asset_sub_value & H).
  apply bind_Ok in H as (v & [_ ->]%asset_add_value & H). cbv zeta in H. cbn [amount symbol] in H.
  set (cr := set_stake _ _) in H. apply bind_Ok in H as (r1 & H1 & H).
  assert (r1 = set_rdb (put_account (acd_creator o) cr (rdb r)) r) as ->.
  { unfold burn_fee in H1. change (rhf freezone_HARDFORK_0_20 (set_rdb _ r)) with (rhf freezone_HARDFORK_0_20 r) in H1.
    rewrite Hhf in H1. by injection H1 as <-. }
  apply bind_Ok in H as (r2 & H2 & H). apply create_account_Ok in H2 as (acc & i & Hn & _ & _ & _ & Hb & _ & ->).
  apply bind_Ok in H as (r3 & H3 & H). apply books_vest_fee in H as B4; [|done..].
  change (accounts (put_account (acd_creator o) cr (rdb r)) !! acd_new_account_name o = None) in Hn. cbn in Hn.
  apply lookup_insert_None in Hn as [Hm _].
  assert (books (- amount (acd_fee o)) (rdb r) (rdb r3)) as B3.
  { destruct (_ || _) eqn:Ecase in H3.
    - apply bind_Ok in H3 as (? & Hk%check_Ok%bool_decide_eq_true & H3). injection H3 as <-.
      eapply (books_delegated_account o c acc _ r _ _ _ true eq_refl eq_refl Hx Hc Hchk Hm Hb); [done|]. split; [exact Hk|reflexivity].
    - injection H3 as <-. apply orb_false_iff in Ecase as [Hz%Z.ltb_ge _].
      apply (books_delegated_account o c acc 0 r _ _ _ false eq_refl eq_refl Hx Hc Hchk Hm Hb); [lia|reflexivity]. }
  assert (burnt (acd_fee o) r3 = 0) as Eb.
  { unfold burnt. rewrite (rhf_frame _ r) by apply B3. by rewrite Hhf. }
  rewrite Eb in B4. eapply books_sum; [exact B3|exact B4|lia|done].
Qed.

(** *** The other operations *)

Lemma books_claim_account o r r' : claim_account_validate o = Ok tt → claim_account_apply o r = Ok r' → books 0 (rdb r) (rdb r').
Proof.
  intros Hval H. unfold claim_account_validate in Hval. skip Hval. apply bind_Ok in Hval as (? & Es%fc_assert_Ok%Z.eqb_eq & _).
  unfold claim_account_apply in H. do 4 skip H. apply bind_Ok in H as (r1 & H1 & H).
  assert (rdb r1 = rdb r) as E1.
  { destruct (_ =? 0); [|skip H1; by injection H1 as <-]. by apply world_subsidy in H1 as (f & -> & E). }
  skip H. apply bind_Ok in H as (d & Hd & H). apply bind_Ok in H as (c & Hc%from_option_exn_Ok & H).
  apply bind_Ok in H as (b & [_ ->]%asset_sub_value & H). cbv zeta in H. cbn [amount symbol] in H. unfold modify_identity in H.
  do 2 skip H. injection H as <-. rewrite E1 in Hd. apply books_adjust in Hd; [|done].
  eapply books_sum; [exact Hd|exact (books_put_balance _ c (balance c - amount (ca_fee o)) d Hc)|lia|done].
Qed.

Lemma books_create_claimed o r r' : create_claimed_account_apply o r = Ok r' → books 0 (rdb r) (rdb r').
Proof.
  intros H. unfold create_claimed_account_apply in H. do 7 skip H. apply bind_Ok in H as (r1 & H1 & H).
  unfold modify_identity in H1. do 2 skip H1. injection H1 as <-.
  apply create_account_Ok in H as (acc & i & Hn & _ & _ & _ & Hb & _ & ->). exact (books_new_account _ _ _ Hn Hb).
Qed.

(** Updates and requests write no table of the ledger. *)
Lemma update_owner_rdb lim ver n a r r' : update_owner lim ver n a r = Ok r' → rdb r' = rdb r.
Proof.
  intros H. destruct a as [a|]; [|by injection H as <-]. unfold update_owner, update_owner_authority in H. do 4 skip H.
  injection H as <-. by case_match.
Qed.

Lemma update_authorities_rdb n a p r r' : update_authorities n a p r = Ok r' → rdb r' = rdb r.
Proof. unfold update_authorities. intros H. destruct a, p; try skip H; by injection H as <-. Qed.

Lemma touch_rdb n k r r' : touch_account n k r = Ok r' → rdb r' = rdb r.
Proof. unfold touch_account, modify_identity. intros H. do 2 skip H. by injection H as <-. Qed.

Lemma update_rdb o r r' : account_update_apply o r = Ok r' → rdb r' = rdb r.
Proof.
  intros H. unfold account_update_apply in H. do 5 skip H. apply bind_Ok in H as (r1 & E1%update_owner_rdb & H). do 2 skip H.
  apply bind_Ok in H as (r2 & E2%touch_rdb & H). apply bind_Ok in H as (r3 & H3 & E4%update_authorities_rdb).
  assert (rdb r3 = rdb r2) by (case_decide; [|skip H3]; by injection H3 as <-). congruence.
Qed.

Lemma update2_rdb o r r' : account_update2_apply o r = Ok r' → rdb r' = rdb r.
Proof.
  intros H. unfold account_update2_apply in H. do 8 skip H. apply bind_Ok in H as (r1 & E1%update_owner_rdb & H). do 2 skip H.
  apply bind_Ok in H as (r2 & E2%touch_rdb & H). cbv zeta in H. apply bind_Ok in H as (r3 & H3 & E4%update_authorities_rdb).
  assert (rdb r3 = rdb r2) by (case_decide; [|skip H3]; by injection H3 as <-). congruence.
Qed.

Lemma recover_rdb o r r' : recover_account_apply o r = Ok r' → rdb r' = rdb r.
Proof.
  intros H. unfold recover_account_apply, update_owner_authority, modify_identity in H. do 5 skip H. cbv zeta in H.
  apply bind_Ok in H as (r1 & H1 & H). skip H1. injection H1 as <-. do 2 skip H. injection H as <-. by case_match.
Qed.

Lemma books_event u j e r r' : run_event u j e r = Ok r' → books 0 (rdb r) (rdb r').
Proof.
  intros H. destruct e; cbn [run_event] in H; apply bind_Ok in H as ([] & Hval & H).
  - by eapply books_account_create.
  - by eapply books_account_create_with_delegation.
  - by eapply books_claim_account.
  - by eapply books_create_claimed.
  - apply update_rdb in H as ->. apply books_refl.
  - apply update2_rdb in H as ->. apply books_refl.
  - unfold request_account_recovery_apply in H. do 2 skip H. cbv zeta in H.
    destruct (recovery_requests r !! _); [destruct (_ =? 0)|]; [|do 2 skip H|do 4 skip H]; injection H as <-; apply books_refl.
  - apply recover_rdb in H as ->. apply books_refl.
  - unfold change_recovery_account_apply in H. do 2 skip H. cbv zeta in H.
    destruct (change_requests r !! _); [case_decide|]; injection H as <-; apply books_refl.
  - unfold decline_voting_rights_apply in H. do 2 skip H. destruct (dvr_decline o); skip H; injection H as <-; apply books_refl.
Qed.

(** ** Declined voting rights *)

Lemma votes_ok_declined n v a d d1 :
  votes_ok d → accounts d !! n = Some a →
  adjust_proxied_witness_votes freezone_MAX_PROXY_RECURSION_DEPTH n (Z.opp <$> (vesting_shares a :: proxied_vsf_votes a)) d = Ok d1 →
  votes_ok (put_account n (declined v a) (set_witness_votes (filter (λ p, p.1 ≠ n)) d1)).
Proof.
  intros [Hs Ht Hw] Ha H. apply adjust_proxied_pushed in H; [|done].
  pose proof (walk_keeps_start _ _ _ _ _ _ Hs Ha H) as Ha1. pose proof (pushed_result _ _ _ _ _ H) as Hr.
  destruct (pushed_spec _ _ _ a _ _ eq_refl H (vs_voters _ Hs) Ha) as [Hc He].
  destruct (power_levels a (vs_levels _ Hs n a Ha)) as [E5 E4]. rewrite <- fmap_take, zsum_opp in Hc.
  pose proof (shape_walk _ _ Hr Hs) as Hs1. destruct Hr as (m & ws & E1 & Hm).
  set (d2 := put_account n (declined v a) _).
  assert (proxies d2 = <[n := freezone_PROXY_TO_SELF_ACCOUNT]> (proxies d1)) as Ep by (unfold proxies; cbn; by rewrite fmap_insert).
  split; [split| |].
  - intros k b. cbn. rewrite lookup_insert_Some. intros [[<- <-]|[_ Hb]]; [exact (vs_levels _ Hs1 n a Ha1)|by eapply (vs_levels _ Hs1)].
  - intros k w b. cbn. rewrite elem_of_filter, lookup_insert_Some. cbn. intros [_ Hin] [[<- <-]|[_ Hb]]; [done|].
    by eapply (vs_voters _ Hs1).
  - eapply acyclic_put; [exact (vs_acyclic _ Hs1)|exact Ep|]. eapply depth_end; [apply lookup_insert_eq|done].
  - change (counted_votes d2) with (counted_votes (put_account n (declined v a) d1)). rewrite (counted_votes_put n a), Hc by done.
    replace (gpo d2) with (gpo d) by (unfold d2; by rewrite E1). rewrite <- Ht.
    unfold freezone_MAX_PROXY_RECURSION_DEPTH. rewrite E4.
    unfold counted, carried. rewrite (decide_True (P := proxy (declined v a) = _)) by done. change (voting_power (declined v a)) with (voting_power a).
    unfold freezone_MAX_PROXY_RECURSION_DEPTH. destruct (decide (proxy a = _)); lia.
  - intros w. specialize (He w). specialize (Hw w). cbv beta in He. unfold freezone_MAX_PROXY_RECURSION_DEPTH in He.
    rewrite <- fmap_take, zsum_opp, E5 in He. unfold tally_error in *. unfold d2. rewrite (votes_cast_clear w n a) by done.
    replace (witness_votes (staking d1)) with (witness_votes (staking d)) by (by rewrite E1).
    change (tally w (put_account n (declined v a) (set_witness_votes (filter (λ x, x.1 ≠ n)) d1))) with (tally w d1).
    destruct (decide ((n, w) ∈ _)); lia.
Qed.

Lemma voted_declined n v a d : accounts d !! n = Some a → Staking.voted d (put_account n (declined v a) d).
Proof. intros Ha. by apply (voted_put n a). Qed.

Lemma books_decline n d d' : decline_one n d = Ok d' → books 0 d d'.
Proof.
  intros (a & d1 & a1 & v & Ha & H1 & Hw & Ha1 & ->)%decline_one_Ok.
  assert (Staking.voted d (put_account n (declined v a1) (set_witness_votes (filter (λ p, p.1 ≠ n)) d1))) as V.
  { trans d1; [by eapply voted_walk|]. trans (set_witness_votes (filter (λ p, p.1 ≠ n)) d1); [apply voted_witness_votes|].
    by apply voted_declined. }
  split; [|intros _ s; rewrite (voted_gap s _ _ V), amount_of_zero; lia|by apply voted_frame].
  intros Hok. apply (staking_ok_voted d); [exact V| |exact Hok].
  assert (accounts d1 !! n = Some a) as Ha2.
  { pose proof H1 as H2. apply adjust_proxied_pushed in H2; [|done]. eapply walk_keeps_start; [apply (ok_votes _ Hok)|exact Ha|exact H2]. }
  assert (a1 = a) as -> by congruence. eapply votes_ok_declined; [apply Hok|exact Ha|exact H1].
Qed.

(** ** The tables agree *)

Record registry_ok (r : registry) : Prop := RegistryOk {
  ro_ids : dom (ids r) = dom (accounts (rdb r));
  ro_auths : dom (auths r) = dom (accounts (rdb r));
  ro_metas : dom (metas r) = dom (accounts (rdb r));
  ro_requests : ∀ n q, recovery_requests r !! n = Some q →
    n ∈ dom (accounts (rdb r)) ∧ is_impossible (rr_new_owner_authority q) = false
    ∧ weight_threshold (rr_new_owner_authority q) ≠ 0;
  ro_changes : ∀ n c, change_requests r !! n = Some c →
    n ∈ dom (accounts (rdb r)) ∧ cr_recovery_account c ∈ dom (accounts (rdb r));
  ro_declines : dom (decline_requests r) ⊆ dom (accounts (rdb r));
  ro_partners : ∀ n i, ids r !! n = Some i →
    recovery_account i ∈ dom (accounts (rdb r)) ∨ recovery_account i = "" ∨ recovery_account i = "freezone";
  ro_sorted : StronglySorted (λ h h', last_valid_time h <= last_valid_time h') (histories r);
  ro_histories : ∀ h, h ∈ histories r → oh_account h ∈ dom (accounts (rdb r)) ∧ 0 <= last_valid_time h <= rnow r
}.

(** The invariant reads the accounts and the time of the chain state. *)
Lemma registry_ok_world f r :
  same_world (rdb r) (fdb f) → registry_ok r → registry_ok (set_rf f r).
Proof.
  intros [_ W2 _ W4] [H1 H2 H3 H4 H5 H6 H7 H8 H9].
  assert (dom (accounts (rdb (set_rf f r))) = dom (accounts (rdb r))) as E by exact W4.
  assert (rnow (set_rf f r) = rnow r) as EN by exact W2.
  split; rewrite ?E, ?EN; try done.
Qed.

Lemma dom_put_row {A} (n : name) (x y : A) (m : gmap name A) : m !! n = Some x → dom (<[n := y]> m) = dom m.
Proof. intros H. apply dom_insert_lookup_L. eauto. Qed.

Lemma registry_ok_identity n f r r' :
  (∀ i i', f i = Ok i' → recovery_account i' = recovery_account i) → modify_identity n f r = Ok r' →
  registry_ok r → registry_ok r'.
Proof.
  intros Hf H [H1 H2 H3 H4 H5 H6 H7 H8 H9]. unfold modify_identity in H. apply bind_Ok in H as (i & Hi%from_option_exn_Ok & H).
  apply bind_Ok in H as (i1 & Hi1%Hf & H). injection H as <-. split; try done; cbn.
  - by rewrite (dom_put_row n i).
  - intros m j. rewrite lookup_insert_Some. intros [[<- <-]|[_ Hj]]; [rewrite Hi1|]; by eapply H7.
Qed.

Lemma registry_ok_create n key rec x json o a p r r' :
  rec ∈ dom (accounts (rdb r)) → create_account n key rec x json o a p r = Ok r' → registry_ok r → registry_ok r'.
Proof.
  intros Hrec (acc & i & Hn & Hi & Hm & Ha & _ & Er & ->)%create_account_Ok [H1 H2 H3 H4 H5 H6 H7 H8 H9].
  split; cbn; change (base (set_base _ _)) with (put_account n acc (rdb r)); cbn; rewrite ?dom_insert_L.
  - by rewrite H1.
  - by rewrite H2.
  - by rewrite H3.
  - intros m q Hq. destruct (H4 m q Hq). split; [set_solver|done].
  - intros m c Hc. destruct (H5 m c Hc). split; set_solver.
  - set_solver.
  - intros m j. rewrite lookup_insert_Some. intros [[<- <-]|[_ Hj]].
    + destruct Er as [->|Er]; [left; set_solver|by right].
    + destruct (H7 m j Hj) as [?|?]; [left; set_solver|by right].
  - exact H8.
  - intros h Hh. destruct (H9 h Hh) as [? ?]. split; [set_solver|done].
Qed.

Lemma registry_ok_metas n m0 m r : metas r !! n = Some m0 → registry_ok r → registry_ok (set_metas <[n := m]> r).
Proof. intros Hm [H1 H2 H3 H4 H5 H6 H7 H8 H9]. split; try done. cbn. by rewrite (dom_put_row n m0). Qed.

Lemma registry_ok_auths n x0 x r : auths r !! n = Some x0 → registry_ok r → registry_ok (set_auths <[n := x]> r).
Proof. intros Hx [H1 H2 H3 H4 H5 H6 H7 H8 H9]. split; try done. cbn. by rewrite (dom_put_row n x0). Qed.

Lemma sorted_snoc {A} (R : A → A → Prop) l x : StronglySorted R l → (∀ y, y ∈ l → R y x) → StronglySorted R (l ++ [x]).
Proof.
  induction 1 as [|y l Hl IH Hy]; intros Hx; cbn; [repeat constructor|]. constructor; [apply IH; set_solver|].
  apply Forall_app. split; [done|]. repeat constructor. apply Hx. set_solver.
Qed.

Lemma registry_ok_owner_authority n a r r' :
  0 <= rnow r → update_owner_authority n a r = Ok r' → registry_ok r → registry_ok r'.
Proof.
  intros Hnow H Hok. unfold update_owner_authority in H. apply bind_Ok in H as (old & Ho%from_option_exn_Ok & H).
  injection H as <-. destruct (_ <=? _); [|by apply (registry_ok_auths n old)].
  apply (registry_ok_auths n old); [done|]. destruct Hok as [H1 H2 H3 H4 H5 H6 H7 H8 H9]. split; try done; cbn.
  - apply sorted_snoc; [done|]. intros h Hh. cbn. by apply H9 in Hh as [_ [_ ?]].
  - intros h [Hh|Hh]%elem_of_app; [by apply H9|]. apply list_elem_of_singleton in Hh as ->. cbn. split; [|unfold rnow, rdb in *; cbn; lia].
    change (n ∈ dom (accounts (rdb r))). rewrite <- H2. apply elem_of_dom. eauto.
Qed.

Lemma registry_ok_update_owner lim ver n a r r' :
  0 <= rnow r → update_owner lim ver n a r = Ok r' → registry_ok r → registry_ok r'.
Proof.
  intros Hnow H. destruct a as [a|]; [|by injection H as <-]. unfold update_owner in H. do 3 skip H.
  by eapply registry_ok_owner_authority.
Qed.

Lemma registry_ok_update_authorities n a p r r' : update_authorities n a p r = Ok r' → registry_ok r → registry_ok r'.
Proof.
  unfold update_authorities. intros H Hok. destruct a, p; try (by injection H as <-);
    apply bind_Ok in H as (x & Hx%from_option_exn_Ok & H); injection H as <-; by apply (registry_ok_auths n x).
Qed.

Lemma registry_ok_touch n k r r' : touch_account n k r = Ok r' → registry_ok r → registry_ok r'.
Proof. apply registry_ok_identity. intros i i' H. by injection H as <-. Qed.

Lemma now_update_owner lim ver n a r r' : update_owner lim ver n a r = Ok r' → rnow r' = rnow r.
Proof. intros H%update_owner_rdb. unfold rnow. by rewrite H. Qed.

Lemma registry_ok_update o r r' : 0 <= rnow r → account_update_apply o r = Ok r' → registry_ok r → registry_ok r'.
Proof.
  intros Hnow H Hok. unfold account_update_apply in H. do 5 skip H.
  apply bind_Ok in H as (r1 & Hok1%registry_ok_update_owner & H); [|done..]. do 2 skip H.
  apply bind_Ok in H as (r2 & Hok2%registry_ok_touch & H); [|done].
  apply bind_Ok in H as (r3 & H3 & H). eapply registry_ok_update_authorities; [exact H|].
  case_decide; [by injection H3 as <-|]. apply bind_Ok in H3 as (m & Hm%from_option_exn_Ok & H3). injection H3 as <-.
  by apply (registry_ok_metas _ m).
Qed.

Lemma registry_ok_update2 o r r' : 0 <= rnow r → account_update2_apply o r = Ok r' → registry_ok r → registry_ok r'.
Proof.
  intros Hnow H Hok. unfold account_update2_apply in H. do 8 skip H.
  apply bind_Ok in H as (r1 & Hok1%registry_ok_update_owner & H); [|done..]. do 2 skip H.
  apply bind_Ok in H as (r2 & Hok2%registry_ok_touch & H); [|done]. cbv zeta in H.
  apply bind_Ok in H as (r3 & H3 & H). eapply registry_ok_update_authorities; [exact H|].
  case_decide; [by injection H3 as <-|]. apply bind_Ok in H3 as (m & Hm%from_option_exn_Ok & H3). injection H3 as <-.
  by apply (registry_ok_metas _ m).
Qed.

Lemma registry_ok_request o r r' : request_account_recovery_apply o r = Ok r' → registry_ok r → registry_ok r'.
Proof.
  intros H Hok. unfold request_account_recovery_apply in H. apply bind_Ok in H as (i & Hi%from_option_exn_Ok & H). skip H. cbv zeta in H.
  assert (rar_account_to_recover o ∈ dom (accounts (rdb r))) as Hin by (rewrite <- (ro_ids _ Hok); apply elem_of_dom; eauto).
  destruct Hok as [H1 H2 H3 H4 H5 H6 H7 H8 H9].
  destruct (recovery_requests r !! _) as [q0|]; [destruct (Z.eqb_spec (weight_threshold (rar_new_owner_authority o)) 0) as [|Hw]|].
  - injection H as <-. split; try done. intros n q. cbn. intros [_ Hq]%lookup_delete_Some. by apply H4.
  - apply bind_Ok in H as (? & Hp%fc_assert_Ok%negb_true_iff & H). skip H. injection H as <-. split; try done.
    intros n q. cbn. rewrite lookup_insert_Some. intros [[<- <-]|[_ Hq]]; [done|by apply H4].
  - apply bind_Ok in H as (? & Hp%fc_assert_Ok%negb_true_iff & H). apply bind_Ok in H as (? & Hw%fc_assert_Ok%negb_true_iff%Z.eqb_neq & H).
    do 2 skip H. injection H as <-. split; try done.
    intros n q. cbn. rewrite lookup_insert_Some. intros [[<- <-]|[_ Hq]]; [done|by apply H4].
Qed.

Lemma registry_ok_recover o r r' : 0 <= rnow r → recover_account_apply o r = Ok r' → registry_ok r → registry_ok r'.
Proof.
  intros Hnow H Hok. unfold recover_account_apply in H. do 5 skip H. cbv zeta in H. apply bind_Ok in H as (r1 & H1 & H).
  eapply registry_ok_identity; [|exact H|]; [intros i i' Hi; by injection Hi as <-|].
  eapply registry_ok_owner_authority; [|exact H1|]; [done|].
  destruct Hok as [K1 K2 K3 K4 K5 K6 K7 K8 K9]. split; try done. intros n q. cbn. intros [_ Hq]%lookup_delete_Some. by apply K4.
Qed.

Lemma registry_ok_change o r r' : change_recovery_account_apply o r = Ok r' → registry_ok r → registry_ok r'.
Proof.
  intros H Hok. unfold change_recovery_account_apply in H. apply bind_Ok in H as (i0 & Hi0%from_option_exn_Ok & H).
  apply bind_Ok in H as (i & Hi%from_option_exn_Ok & H). cbv zeta in H.
  assert (cra_new_recovery_account o ∈ dom (accounts (rdb r)) ∧ cra_account_to_recover o ∈ dom (accounts (rdb r))) as [Hn Hm].
  { rewrite <- (ro_ids _ Hok), !elem_of_dom. split; eauto. }
  destruct Hok as [H1 H2 H3 H4 H5 H6 H7 H8 H9].
  assert (∀ t, registry_ok (set_change_requests <[cra_account_to_recover o := ChangeRequest (cra_new_recovery_account o) t]> r)) as Hput.
  { intros t. split; try done. intros n c. cbn. rewrite lookup_insert_Some. intros [[<- <-]|[_ Hc]]; [done|by apply H5]. }
  destruct (change_requests r !! _); [case_decide|]; injection H as <-; [apply Hput| |apply Hput].
  split; try done. intros k q. cbn. intros [_ Hq]%lookup_delete_Some. by apply H5.
Qed.

Lemma registry_ok_decline o r r' : decline_voting_rights_apply o r = Ok r' → registry_ok r → registry_ok r'.
Proof.
  intros H [H1 H2 H3 H4 H5 H6 H7 H8 H9]. unfold decline_voting_rights_apply in H. skip H.
  apply bind_Ok in H as (a & Ha%from_option_exn_Ok & H). destruct (dvr_decline o); skip H; injection H as <-; split; try done; cbn.
  - rewrite dom_insert_L. assert (dvr_account o ∈ dom (accounts (rdb r))) by (apply elem_of_dom; eauto). set_solver.
  - rewrite dom_delete_L. set_solver.
Qed.

Lemma registry_ok_rdb d r : same_world (rdb r) d → registry_ok r → registry_ok (set_rdb d r).
Proof. intros W. by apply registry_ok_world. Qed.

Lemma registry_ok_burn fee r r' : burn_fee fee r = Ok r' → registry_ok r → registry_ok r' ∧ same_world (rdb r) (rdb r').
Proof.
  unfold burn_fee. intros H Hok. destruct (rhf _ _); [|by injection H as <-]. skip H.
  apply bind_Ok in H as (d & W%world_adjust_balance & H). injection H as <-. split; [by apply registry_ok_rdb|done].
Qed.

Lemma registry_ok_vest n fee r r' : symbol fee = freezone_SYMBOL → vest_fee n fee r = Ok r' → registry_ok r → registry_ok r'.
Proof.
  unfold vest_fee. intros Es H Hok. destruct (_ && _); [|by injection H as <-].
  apply bind_Ok in H as ([nv d] & W%world_create_vesting & H); [|done]. injection H as <-. by apply registry_ok_rdb.
Qed.

Lemma registry_ok_account_create o r r' :
  symbol (ac_fee o) = freezone_SYMBOL → account_create_apply o r = Ok r' → registry_ok r → registry_ok r'.
Proof.
  intros Es H Hok. unfold account_create_apply in H. apply bind_Ok in H as (c & Hc%from_option_exn_Ok & H). do 5 skip H.
  apply bind_Ok in H as (d & W%world_adjust_balance & H). apply bind_Ok in H as (r1 & H1 & H).
  apply registry_ok_burn in H1 as [Hok1 W1]; [|by apply registry_ok_rdb]. apply bind_Ok in H as (r2 & H2 & H).
  eapply registry_ok_vest; [exact Es|exact H|]. eapply registry_ok_create; [|exact H2|exact Hok1].
  rewrite (w_accounts _ _ W1). change (rdb (set_rdb d r)) with d. rewrite (w_accounts _ _ W). apply elem_of_dom. eauto.
Qed.

Lemma registry_ok_create_with_delegation o r r' :
  symbol (acd_fee o) = freezone_SYMBOL → account_create_with_delegation_apply o r = Ok r' → registry_ok r → registry_ok r'.
Proof.
  intros Es H Hok. unfold account_create_with_delegation_apply in H. do 2 skip H.
  apply bind_Ok in H as (c & Hc%from_option_exn_Ok & H). do 7 skip H. cbv zeta in H. set (cr := set_stake _ _) in H.
  apply bind_Ok in H as (r1 & H1 & H). pose proof (world_put _ c cr (rdb r) Hc) as W.
  apply registry_ok_burn in H1 as [Hok1 W1]; [|by apply registry_ok_rdb]. apply bind_Ok in H as (r2 & H2 & H).
  apply bind_Ok in H as (r3 & H3 & H). eapply registry_ok_vest; [exact Es|exact H|].
  assert (registry_ok r2) as Hok2.
  { eapply registry_ok_create; [|exact H2|exact Hok1]. rewrite (w_accounts _ _ W1).
    change (rdb (set_rdb (put_account (acd_creator o) cr (rdb r)) r)) with (put_account (acd_creator o) cr (rdb r)).
    rewrite (w_accounts _ _ W). apply elem_of_dom. eauto. }
  destruct (_ || _); [|by injection H3 as <-]. skip H3. injection H3 as <-. apply registry_ok_rdb; [by split|done].
Qed.

Lemma registry_ok_claim o r r' : claim_account_apply o r = Ok r' → registry_ok r → registry_ok r'.
Proof.
  intros H Hok. unfold claim_account_apply in H. do 4 skip H. apply bind_Ok in H as (r1 & H1 & H).
  assert (registry_ok r1) as Hok1.
  { destruct (_ =? 0); [|skip H1; by injection H1 as <-]. apply world_subsidy in H1 as (f & -> & E).
    apply registry_ok_world; [by rewrite E|done]. }
  skip H. apply bind_Ok in H as (d & W%world_adjust_balance & H). apply bind_Ok in H as (c & Hc%from_option_exn_Ok & H).
  skip H. cbv zeta in H. eapply registry_ok_identity; [|exact H|]; [intros i i' Hi; skip Hi; by injection Hi as <-|].
  apply registry_ok_rdb; [|done]. etrans; [exact W|]. by apply (world_put _ c).
Qed.

Lemma registry_ok_create_claimed o r r' : create_claimed_account_apply o r = Ok r' → registry_ok r → registry_ok r'.
Proof.
  intros H Hok. unfold create_claimed_account_apply in H. skip H. apply bind_Ok in H as (c & Hc%from_option_exn_Ok & H). do 5 skip H.
  apply bind_Ok in H as (r1 & H1 & H). eapply registry_ok_create; [|exact H|].
  - unfold modify_identity in H1. do 2 skip H1. injection H1 as <-. apply elem_of_dom. exists c. exact Hc.
  - eapply registry_ok_identity; [|exact H1|done]. intros i i' Hi. skip Hi. by injection Hi as <-.
Qed.

Lemma registry_ok_event u j e r r' : 0 <= rnow r → run_event u j e r = Ok r' → registry_ok r → registry_ok r'.
Proof.
  intros Hnow H Hok. destruct e; cbn [run_event] in H; apply bind_Ok in H as (? & Hval & H).
  - eapply registry_ok_account_create; [|exact H|exact Hok]. unfold account_create_validate in Hval. skip Hval.
    by apply bind_Ok in Hval as (? & ?%fc_assert_Ok%Z.eqb_eq & _).
  - eapply registry_ok_create_with_delegation; [|exact H|exact Hok]. unfold account_create_with_delegation_validate in Hval.
    do 2 skip Hval. by apply bind_Ok in Hval as (? & ?%fc_assert_Ok%Z.eqb_eq & _).
  - by eapply registry_ok_claim.
  - by eapply registry_ok_create_claimed.
  - by eapply registry_ok_update.
  - by eapply registry_ok_update2.
  - by eapply registry_ok_request.
  - by eapply registry_ok_recover.
  - by eapply registry_ok_change.
  - by eapply registry_ok_decline.
Qed.

(** ** Blocks *)

Lemma staking_ok_head num time d :
  time + freezone_VESTING_WITHDRAW_INTERVAL_SECONDS < time_point_sec_maximum → staking_ok d →
  staking_ok (set_gpo (set_head num time (gpo d)) d).
Proof.
  intros Hc [Hv Hr Hd Hro Ht _]. split; try done.
  - by apply (votes_ok_view 0 0 d).
  - destruct Hd as [Ho Hi Hrows Hret]. split; try done.
Qed.

Lemma gap_head s num time d : gap s (set_gpo (set_head num time (gpo d)) d) = gap s d.
Proof. unfold_gap. done. Qed.

Lemma recovery_processing_rdb r r' : account_recovery_processing r = Ok r' → rdb r' = rdb r.
Proof.
  unfold account_recovery_processing. cbv zeta. intros H. apply (res_fold_ind (λ r1, rdb r1 = rdb r)) in H; [done|done|].
  intros r1 x r2 _ E (i & _ & ->)%apply_change_Ok. exact E.
Qed.

Lemma books_declines r r' : process_decline_voting_rights r = Ok r' → books 0 (rdb r) (rdb r').
Proof.
  unfold process_decline_voting_rights. intros H. apply (res_fold_ind (λ r1, books 0 (rdb r) (rdb r1))) in H; [done|apply books_refl|].
  intros r1 x r2 _ B H1. unfold apply_decline in H1. apply bind_Ok in H1 as (d & Hd%books_decline & H1). injection H1 as <-.
  exact (books_sum 0 0 0 _ _ _ _ B Hd eq_refl eq_refl).
Qed.

Lemma drop_invalid_sub now l h : h ∈ drop_invalid now l → h ∈ l.
Proof. induction l as [|h' l IH]; cbn [drop_invalid]; [done|]. case_match; set_solver. Qed.

Lemma drop_invalid_sorted now R l : StronglySorted R l → StronglySorted R (drop_invalid now l).
Proof. induction 1 as [|h l Hl IH Hh]; cbn [drop_invalid]; [constructor|]. case_match; [done|by constructor]. Qed.

Lemma registry_ok_processing r r' : account_recovery_processing r = Ok r' → registry_ok r → registry_ok r'.
Proof.
  intros H [H1 H2 H3 H4 H5 H6 H7 H8 H9]. unfold account_recovery_processing in H. cbv zeta in H. set (r1 := set_histories _ _) in H.
  assert (registry_ok r1) as Hok1.
  { split; try done.
    - intros n q. cbn. rewrite foldl_delete. destruct (decide _); [done|]. apply H4.
    - cbn. by apply drop_invalid_sorted.
    - intros h Hh%drop_invalid_sub. by apply H9. }
  clearbody r1. apply (res_fold_ind (λ r2, registry_ok r2 ∧ accounts (rdb r2) = accounts (rdb r1))) in H; [by destruct H|done|].
  intros r2 x r3 [Hx _]%elem_of_due [[K1 K2 K3 K4 K5 K6 K7 K8 K9] EA] (i & Hi & ->)%apply_change_Ok.
  split; [|exact EA]. split; try done; cbn.
  - by rewrite (dom_put_row _ i).
  - intros n c [_ Hc]%lookup_delete_Some. by apply K5.
  - intros n k. rewrite lookup_insert_Some. intros [[<- <-]|[_ Hk]]; [|by eapply K7].
    left. apply (ro_changes _ Hok1) in Hx as [_ Hx]. change (cr_recovery_account x.2 ∈ dom (accounts (rdb r2))). by rewrite EA.
Qed.

Lemma registry_ok_head num time r :
  rnow r <= time → registry_ok r → registry_ok (set_rdb (set_gpo (set_head num time (gpo (rdb r))) (rdb r)) r).
Proof.
  intros Ht [H1 H2 H3 H4 H5 H6 H7 H8 H9]. split; try done. intros h Hh. destruct (H9 h Hh) as (? & ? & ?).
  split; [done|]. change (rnow (set_rdb _ r)) with time. lia.
Qed.

Lemma registry_ok_declines r r' : process_decline_voting_rights r = Ok r' → registry_ok r → registry_ok r'.
Proof.
  intros (d & m & -> & W & Hm)%process_decline_frame Hok. apply (registry_ok_rdb d) in Hok as [H1 H2 H3 H4 H5 H6 H7 H8 H9]; [|done].
  split; try done. cbn. etrans; [|exact H6]. by apply subseteq_dom.
Qed.

(** ** Theorems *)

Inductive chain_step : Type :=
| Operation (e : event)
| Block (num time : Z).

Definition run_chain_step (u j : string → bool) (r : registry) (s : chain_step) : res registry :=
  match s with
  | Operation e => run_event u j e r
  | Block num time => next_block num time r
  end.

(** Time goes on and is a week from its end. *)
Definition step_in_time (r : registry) (s : chain_step) : Prop :=
  match s with
  | Operation _ => True
  | Block num time => rnow r <= time ∧ time + freezone_VESTING_WITHDRAW_INTERVAL_SECONDS < time_point_sec_maximum
  end.

Definition chain_ok (r : registry) : Prop := registry_ok r ∧ staking_ok (rdb r) ∧ 0 <= rnow r.

Lemma chain_step_ok u j r s r' :
  chain_ok r → step_in_time r s → run_chain_step u j r s = Ok r' →
  chain_ok r' ∧ ∀ y, gap y (rdb r') = gap y (rdb r).
Proof.
  intros (Hok & Hst & Hnow) Htime H. destruct s as [e|num time]; cbn [run_chain_step] in H.
  - pose proof (books_event u j e r r' H) as [BS BG BF]. split_and!; [split_and!|].
    + by eapply registry_ok_event.
    + by apply BS.
    + unfold rnow. by rewrite (lf_now _ _ BF).
    + intros y. rewrite (BG (ok_tokens _ Hst) y), amount_of_zero. lia.
  - destruct Htime as [Ht Hc]. destruct (next_block_head _ _ _ _ H) as [EN _]. unfold next_block in H. cbv zeta in H.
    set (d1 := set_gpo _ _) in H. apply bind_Ok in H as (r2 & H2 & H).
    pose proof (recovery_processing_rdb _ _ H2) as E2. change (rdb (set_rdb d1 r)) with d1 in E2.
    assert (staking_ok d1) as Hst1 by (by apply staking_ok_head). pose proof (books_declines _ _ H) as [BS BG BF].
    rewrite E2 in BS, BG. split_and!; [split_and!|].
    + eapply registry_ok_declines; [exact H|]. eapply registry_ok_processing; [exact H2|]. by apply registry_ok_head.
    + by apply BS.
    + lia.
    + intros y. rewrite (BG (ok_tokens _ Hst1) y), amount_of_zero. unfold d1. rewrite gap_head. lia.
Qed.

Inductive chain_runs (u j : string → bool) : registry → list chain_step → registry → Prop :=
| runs_nil r : chain_runs u j r [] r
| runs_cons r s r1 l r' :
    step_in_time r s → run_chain_step u j r s = Ok r1 → chain_runs u j r1 l r' → chain_runs u j r (s :: l) r'.

(** C13: accounts keep the books.  However creations (with or without a
    delegation), claims, updates, recoveries, changes of the recovery account,
    declines of voting rights and blocks follow each other, from a consistent
    state: the tables of an account agree on which accounts exist; pending
    requests and histories name accounts that exist, and a recovery account
    exists, is empty, or is the name freezone; a requested owner authority has a
    threshold other than 0 that the weights of all its members reach (whether the
    members are too many to be checked is not part of it); histories are in the order of time;
    the votes of witnesses, the stakes and the delegations stay consistent; and
    no amount of any symbol is created or lost.  The times of blocks do not go
    back and end a week before the 32-bit clock does. *)
Theorem accounts_keep_books u j l r r' :
  chain_ok r → chain_runs u j r l r' →
  registry_ok r' ∧ staking_ok (rdb r') ∧ ∀ y, gap y (rdb r') = gap y (rdb r).
Proof.
  intros Hok H. induction H as [r|r s r1 l r' Ht Hs H IH]; [destruct Hok as (? & ? & _); done|].
  destruct (chain_step_ok u j r s r1 Hok Ht Hs) as [Hok1 G1]. destruct (IH Hok1) as (? & ? & G).
  split_and!; [done|done|]. intros y. by rewrite G.
Qed.

(** ** A run *)

Import RecoveryExample.

Lemma sample_rows n a : accounts sample_db !! n = Some a → ∃ z, a = sample_account z.
Proof.
  unfold sample_db. cbn [accounts]. rewrite !lookup_insert_Some, lookup_singleton_Some.
  intros [[_ <-]|[_ [[_ <-]|[_ [[_ <-]|[_ [_ <-]]]]]]]; eauto.
Qed.

Lemma sample_staking : staking_ok sample_db.
Proof.
  assert (∀ r m, find_stake r sample_db = Some m → m = stake (sample_account 0)) as Hrow.
  { intros [n|n s] m; cbn [find_stake]; intros (x & Hx & ->)%fmap_Some; [|done]. by destruct (sample_rows n x Hx) as [z ->]. }
  split; [split; [split| |]| | | |done|done].
  - intros n a Ha. by destruct (sample_rows n a Ha) as [z ->].
  - intros n w a Hin. by apply elem_of_empty in Hin.
  - intros n a Ha. exists O. eapply depth_end; [exact Ha|]. by destruct (sample_rows n a Ha) as [z ->].
  - vm_compute. reflexivity.
  - intros w. unfold tally_error, tally, votes_cast. rewrite (msum_ext _ (λ _ _, 0)); [vm_compute; reflexivity|].
    intros k a Ha. unfold cast. by rewrite decide_False.
  - intros r m _ H. rewrite (Hrow r m H). done.
  - assert (∀ (f : mana_account → Z) r, f (stake (sample_account 0)) = 0 → stake_value f r sample_db = 0) as E.
    { intros f r Hf. unfold stake_value. destruct (find_stake r sample_db) as [m|] eqn:F; [|done]. by rewrite (Hrow r m F). }
    split; try done; intros r _; rewrite E by done; cbn [sample_db staking delegations expirations]; by rewrite ?msum_empty.
  - intros k r H. cbn in H. by rewrite lookup_empty in H.
Qed.

Lemma sample_registry_ok : registry_ok sample_registry.
Proof.
  split; [vm_compute; reflexivity..| | | | | |].
  - intros n q H. cbn in H. by rewrite lookup_empty in H.
  - intros n c H. cbn in H. by rewrite lookup_empty in H.
  - cbn. set_solver.
  - intros n i. unfold sample_registry. cbn [ids]. rewrite !lookup_insert_Some, lookup_singleton_Some.
    intros [[_ <-]|[_ [[_ <-]|[_ [[_ <-]|[_ [_ <-]]]]]]]; [left|by right; left..].
    apply elem_of_dom. by eexists.
  - constructor.
  - intros h Hh. by apply not_elem_of_nil in Hh.
Qed.

(** The partner pays for a new account, the thief replaces Alice's owner
    authority, Alice's partner declines his voting rights, and blocks pass. *)
Definition new_account : event :=
  Create (AccountCreate (Asset 30 freezone_SYMBOL) "partner" "newbie" (key_authority 50) (key_authority 51) (key_authority 52) 53 "").
Definition no_votes : event := Decline (DeclineVotingRights "partner" true).

Definition run1 : registry := value_of sample_registry (run_event any_text any_text new_account sample_registry).
Definition run2 : registry := value_of run1 (run_event any_text any_text theft run1).
Definition run3 : registry := value_of run2 (run_event any_text any_text no_votes run2).
Definition run4 : registry := value_of run3 (next_block 5000000 (1000000 + recovery_period) run3).

Lemma run1_Ok : run_event any_text any_text new_account sample_registry = Ok run1.
Proof. apply value_of_Ok. vm_compute. reflexivity. Qed.
Lemma run2_Ok : run_event any_text any_text theft run1 = Ok run2.
Proof. apply value_of_Ok. vm_compute. reflexivity. Qed.
Lemma run3_Ok : run_event any_text any_text no_votes run2 = Ok run3.
Proof. apply value_of_Ok. vm_compute. reflexivity. Qed.
Lemma run4_Ok : next_block 5000000 (1000000 + recovery_period) run3 = Ok run4.
Proof. apply value_of_Ok. vm_compute. reflexivity. Qed.

Lemma sample_runs :
  chain_runs any_text any_text sample_registry
    [Operation new_account; Operation theft; Operation no_votes; Block 5000000 (1000000 + recovery_period)] run4.
Proof.
  assert ((rnow run3 <=? 1000000 + recovery_period) = true) as Ht by (vm_compute; reflexivity).
  refine (runs_cons _ _ sample_registry (Operation new_account) run1 _ _ _ run1_Ok _); [exact I|].
  refine (runs_cons _ _ run1 (Operation theft) run2 _ _ _ run2_Ok _); [exact I|].
  refine (runs_cons _ _ run2 (Operation no_votes) run3 _ _ _ run3_Ok _); [exact I|].
  refine (runs_cons _ _ run3 (Block _ _) run4 _ _ _ run4_Ok (runs_nil _ _ _)).
  split; [by apply Z.leb_le|by vm_compute].
Qed.

Lemma sample_chain_ok : chain_ok sample_registry.
Proof.
  assert (rdb sample_registry = sample_db) as E by reflexivity.
  split; [exact sample_registry_ok|]. rewrite E. split; [exact sample_staking|]. unfold rnow. rewrite E. by vm_compute.
Qed.

Lemma accounts_keep_books_witness :
  registry_ok run4 ∧ staking_ok (rdb run4) ∧ (∀ y, gap y (rdb run4) = gap y (rdb sample_registry))
  ∧ can_vote <$> accounts (rdb run4) !! "partner" = Some false ∧ balance <$> accounts (rdb run4) !! freezone_NULL_ACCOUNT = Some 30.
Proof.
  destruct (accounts_keep_books any_text any_text _ sample_registry run4 sample_chain_ok sample_runs) as (H1 & H2 & H3).
  split; [exact H1|]. split; [exact H2|]. split; [exact H3|]. split; vm_compute; reflexivity.
Defined.
