(* ===== verification/Proposals.v ===== *)
(** * The proposal system

    protocol/sps_operations.cpp ([validate]), chain/sps_evaluator.cpp (the
    evaluators of create_proposal, update_proposal_votes and remove_proposal),
    chain/util/sps_helper.cpp and sps_helper.hpp (the removal of a proposal with
    its votes, which may stop half way), chain/util/sps_processor.cpp (what a
    block does: it removes proposals that have ended, and once per hour pays the
    active ones from the treasury in the order of their votes).

    A reference to a proposal is its id.  Virtual operations and benchmarks are
    left out. *)

From S2P Require Import Prelude Config AccountName Uint128 SafeInt AssetSymbol Asset Manabar MapSum State Ledger Votes Content.
From stdpp Require Import gmap strings sorting.
#[local] Open Scope Z_scope.

Definition freezone_PROPOSALS_HARDFORK : Z := freezone_HARDFORK_0_21.
Definition freezone_TREASURY_FEE : Z := 10 * 1000.
Definition freezone_PROPOSAL_MAINTENANCE_PERIOD : Z := 3600.
Definition freezone_PROPOSAL_MAINTENANCE_CLEANUP : Z := 60 * 60 * 24 * 1.
Definition freezone_PROPOSAL_SUBJECT_MAX_LENGTH : Z := 80.
Definition freezone_PROPOSAL_MAX_IDS_NUMBER : Z := 5.

(** ** The state *)

Record proposal : Type := Proposal {
  pr_creator : name;
  pr_receiver : name;
  start_date : Z;
  end_date : Z;
  daily_pay : asset;
  subject : string;
  pr_permlink : string;
  total_votes : Z;     (* uint64_t *)
  removed : bool
}.

(** [proposal_id] is always the object id; it is the key of the table.  A vote
    has no members but its key. *)
Record dao : Type := Dao {
  ds : social;
  proposals : gmap Z proposal;
  proposal_votes : gset (Z * name);
  next_proposal_id : Z;
  sps_interval_ledger : Z;              (* of the global properties, in SBD *)
  next_maintenance_time : Z;            (* of the global properties *)
  last_budget_time : Z;                 (* of the global properties *)
  sps_remove_threshold : Z              (* an option of the node, int16_t *)
}.

Definition dcore (s : dao) : db := core (ds s).
Definition set_dcore (d : db) (s : dao) : dao :=
  Dao (set_core d (ds s)) (proposals s) (proposal_votes s) (next_proposal_id s) (sps_interval_ledger s) (next_maintenance_time s)
    (last_budget_time s) (sps_remove_threshold s).
Definition set_proposals f (s : dao) : dao :=
  Dao (ds s) (f (proposals s)) (proposal_votes s) (next_proposal_id s) (sps_interval_ledger s) (next_maintenance_time s)
    (last_budget_time s) (sps_remove_threshold s).
Definition set_proposal_votes f (s : dao) : dao :=
  Dao (ds s) (proposals s) (f (proposal_votes s)) (next_proposal_id s) (sps_interval_ledger s) (next_maintenance_time s)
    (last_budget_time s) (sps_remove_threshold s).

Definition get_end_date_with_delay (p : proposal) : Z := u32 (end_date p + freezone_PROPOSAL_MAINTENANCE_CLEANUP).

(** The indices [by_start_date] and [by_end_date]: a time, then the id. *)
Definition by_date (t : proposal → Z) (x y : Z * proposal) : Prop :=
  t x.2 < t y.2 ∨ t x.2 = t y.2 ∧ x.1 <= y.1.
#[global] Instance by_date_dec t x y : Decision (by_date t x y).
Proof. unfold by_date. apply _. Defined.

(** The rows from [begin()] to [upper_bound( time )]. *)
Definition rows_until (t : proposal → Z) (time : Z) (s : dao) : list (Z * proposal) :=
  List.filter (λ x, t x.2 <=? time) (merge_sort (by_date t) (map_to_list (proposals s))).

(** The votes on a proposal in the order of [by_proposal_voter]. *)
Definition voters_of (id : Z) (s : dao) : list name :=
  merge_sort name_le (omap (λ v, if decide (v.1 = id) then Some v.2 else None) (elements (proposal_votes s))).

(** ** create_proposal and update_proposal_votes *)

Record create_proposal_operation : Type := CreateProposal {
  cp_creator : name;
  cp_receiver : name;
  cp_start_date : Z;
  cp_end_date : Z;
  cp_daily_pay : asset;
  cp_subject : string;
  cp_permlink : string
}.

Section Validate.

Context (is_utf8 : string → bool).

Definition create_proposal_validate (o : create_proposal_operation) : res unit :=
  _ ← validate_account_name (cp_creator o);
  _ ← validate_account_name (cp_receiver o);
  _ ← fc_assert (cp_start_date o <? cp_end_date o);
  _ ← fc_assert (0 <=? amount (cp_daily_pay o));
  _ ← fc_assert (symbol (cp_daily_pay o) =? SBD_SYMBOL);
  _ ← fc_assert (negb (Content.size (cp_subject o) =? 0));
  _ ← fc_assert (Content.size (cp_subject o) <=? freezone_PROPOSAL_SUBJECT_MAX_LENGTH);
  _ ← fc_assert (is_utf8 (cp_subject o));
  _ ← fc_assert (negb (Content.size (cp_permlink o) =? 0));
  validate_permlink is_utf8 (cp_permlink o).

End Validate.

Definition create_proposal_apply (o : create_proposal_operation) (s : dao) : res dao :=
  _ ← fc_assert (has_hardfork freezone_PROPOSALS_HARDFORK (dcore s));
  _ ← fc_assert (now (dcore s) <? cp_end_date o);
  let fee_sbd := Asset freezone_TREASURY_FEE SBD_SYMBOL in
  _ ← get_account freezone_TREASURY_ACCOUNT (dcore s);
  _ ← get_account (cp_creator o) (dcore s);
  _ ← fc_assert (bool_decide (is_Some (accounts (dcore s) !! cp_receiver o)));
  _ ← (if decide (permlinks (ds s) !! (cp_creator o, cp_permlink o) = None)
       then fc_assert (bool_decide (is_Some (permlinks (ds s) !! (cp_receiver o, cp_permlink o)))) else mret tt);
  let id := next_proposal_id s in
  let s := Dao (ds s)
    (<[id := Proposal (cp_creator o) (cp_receiver o) (cp_start_date o) (cp_end_date o) (cp_daily_pay o) (cp_subject o) (cp_permlink o)
               0 false]> (proposals s))
    (proposal_votes s) (id + 1) (sps_interval_ledger s) (next_maintenance_time s) (last_budget_time s) (sps_remove_threshold s) in
  fee ← asset_neg fee_sbd;
  d ← adjust_balance (cp_creator o) fee (dcore s);
  d ← adjust_balance freezone_TREASURY_ACCOUNT fee_sbd d;
  mret (set_dcore d s).

(** [proposal_ids] is a [flat_set]: visited in ascending order. *)
Definition ascending (ids : gset Z) : list Z := merge_sort Z.le (elements ids).

Definition validate_ids (ids : gset Z) : res unit :=
  _ ← fc_assert (negb (bool_decide (ids = ∅)));
  fc_assert (Z.of_nat (base.size ids) <=? freezone_PROPOSAL_MAX_IDS_NUMBER).

Record update_proposal_votes_operation : Type := UpdateProposalVotes {
  uv_voter : name;
  uv_proposal_ids : gset Z;
  uv_approve : bool
}.

Definition update_proposal_votes_validate (o : update_proposal_votes_operation) : res unit :=
  _ ← validate_account_name (uv_voter o);
  validate_ids (uv_proposal_ids o).

Definition update_vote (voter : name) (approve : bool) (s : dao) (id : Z) : dao :=
  match proposals s !! id with
  | None => s
  | Some p =>
      if removed p then s
      else set_proposal_votes (λ v, if approve then v ∪ {[(id, voter)]} else v ∖ {[(id, voter)]}) s
  end.

Definition update_proposal_votes_apply (o : update_proposal_votes_operation) (s : dao) : res dao :=
  _ ← fc_assert (has_hardfork freezone_PROPOSALS_HARDFORK (dcore s));
  mret (foldl (update_vote (uv_voter o) (uv_approve o)) s (ascending (uv_proposal_ids o))).

(** ** Removing proposals *)

(** [sps_removing_reducer]: counts what is removed and says when to stop. *)
Record reducer : Type := Reducer {
  threshold : Z;    (* int16_t *)
  counter : Z;      (* int16_t *)
  stop : bool       (* [done] *)
}.

(** What [checker] does with the reducer; a negative threshold is no limit. *)
Definition checker (r : reducer) : reducer :=
  if threshold r <? 0 then Reducer (threshold r) (counter r) false
  else
    let c := wraps 16 (counter r + 1) in
    Reducer (threshold r) c (threshold r <? c).

(** The loop over the votes; the last component says whether it returned
    before its end. *)
Fixpoint erase_votes (l : list (Z * name)) (r : reducer) (votes : gset (Z * name)) : reducer * gset (Z * name) * bool :=
  match l with
  | [] => (r, votes, false)
  | v :: l =>
      let r := checker r in
      if stop r then (r, votes, true) else erase_votes l r (votes ∖ {[v]})
  end.

Definition remove_proposal (id : Z) (x : reducer * dao) : reducer * dao :=
  let '(r, votes, stopped) := erase_votes (pair id <$> voters_of id x.2) x.1 (proposal_votes x.2) in
  let s := set_proposal_votes (λ _, votes) x.2 in
  if (stopped : bool) then (r, s)
  else
    let r := checker r in
    if stop r then (r, s) else (r, set_proposals (delete id) s).

(** [sps_helper::remove_proposals] *)
Fixpoint remove_owned (owner : name) (ids : list Z) (x : reducer * dao) : res dao :=
  match ids with
  | [] => mret x.2
  | id :: ids =>
      match proposals x.2 !! id with
      | None => remove_owned owner ids x
      | Some p =>
          _ ← fc_assert (bool_decide (pr_creator p = owner));
          let x := remove_proposal id x in
          if stop x.1 then mret x.2 else remove_owned owner ids x
      end
  end.

Record remove_proposal_operation : Type := RemoveProposal {
  rp_proposal_owner : name;
  rp_proposal_ids : gset Z
}.

Definition remove_proposal_validate (o : remove_proposal_operation) : res unit :=
  _ ← validate_account_name (rp_proposal_owner o);
  validate_ids (rp_proposal_ids o).

Definition as_removed (time : Z) (p : proposal) : proposal :=
  Proposal (pr_creator p) (pr_receiver p) (start_date p) (u32 (time - freezone_PROPOSAL_MAINTENANCE_CLEANUP)) (daily_pay p)
    (subject p) (pr_permlink p) (total_votes p) true.

Definition mark_removed (s : dao) (id : Z) : dao :=
  match proposals s !! id with
  | None => s
  | Some p => if removed p then s else set_proposals <[id := as_removed (now (dcore s)) p]> s
  end.

Definition remove_proposal_apply (o : remove_proposal_operation) (s : dao) : res dao :=
  _ ← fc_assert (has_hardfork freezone_PROPOSALS_HARDFORK (dcore s));
  s ← remove_owned (rp_proposal_owner o) (ascending (rp_proposal_ids o)) (Reducer (sps_remove_threshold s) 0 false, s);
  mret (foldl mark_removed s (ascending (rp_proposal_ids o))).

(** ** What a block does *)

(** [sps_processor::remove_proposals] *)
Fixpoint remove_ended (ids : list Z) (x : reducer * dao) : dao :=
  match ids with
  | [] => x.2
  | id :: ids =>
      let x := remove_proposal id x in
      if stop x.1 then x.2 else remove_ended ids x
  end.

Definition ended (head_time : Z) (s : dao) : list Z := (rows_until get_end_date_with_delay head_time s).*1.

Definition remove_old_proposals (head_time : Z) (s : dao) : dao :=
  remove_ended (ended head_time s) (Reducer (sps_remove_threshold s) 0 false, s).

Definition is_maintenance_period (head_time : Z) (s : dao) : bool := next_maintenance_time s <=? head_time.

Definition record_funding (head_time : Z) (s : dao) : dao :=
  if negb (is_maintenance_period head_time s) then s
  else if sps_interval_ledger s <=? 0 then s
  else Dao (ds s) (proposals s) (proposal_votes s) (next_proposal_id s) 0 (next_maintenance_time s) (last_budget_time s)
         (sps_remove_threshold s).

Definition find_active_proposals (head_time : Z) (s : dao) : list Z :=
  (List.filter (λ x, (start_date x.2 <=? head_time) && (head_time <=? end_date x.2)) (rows_until start_date head_time s)).*1.

(** The votes of one proposal; who has a proxy does not count. *)
Definition count_votes (id : Z) (s : dao) : res Z :=
  res_fold (λ ret v,
    a ← get_account v (dcore s);
    if decide (proxy a = freezone_PROXY_TO_SELF_ACCOUNT) then
      sum ← witness_vote_weight a;
      mret (u64 (ret + sum))
    else mret ret) 0 (voters_of id s).

Definition set_total_votes (v : Z) (p : proposal) : proposal :=
  Proposal (pr_creator p) (pr_receiver p) (start_date p) (end_date p) (daily_pay p) (subject p) (pr_permlink p) v (removed p).

Definition calculate_votes (ids : list Z) (s : dao) : res dao :=
  res_fold (λ s id,
    p ← from_option_exn out_of_range (proposals s !! id);
    v ← count_votes id s;
    mret (set_proposals <[id := set_total_votes v p]> s)) s ids.

(** More votes first, then the lower id. *)
Definition by_votes (s : dao) (x y : Z) : Prop :=
  let v := λ id, from_option total_votes 0 (proposals s !! id) in
  v y < v x ∨ v x = v y ∧ x <= y.
#[global] Instance by_votes_dec s x y : Decision (by_votes s x y).
Proof. unfold by_votes. apply _. Defined.

Definition sort_by_votes (ids : list Z) (s : dao) : list Z := merge_sort (by_votes s) ids.

Definition get_treasury_fund (s : dao) : res asset :=
  a ← get_account freezone_TREASURY_ACCOUNT (dcore s);
  mret (Asset (sbd_balance (sbd a)) SBD_SYMBOL).

Definition total_amount_divider : Z := 100.
Definition daily_seconds : Z := 60 * 60 * 24.

Definition get_daily_inflation : asset := Asset 0 SBD_SYMBOL.

Definition passed_time_seconds (head_time : Z) (s : dao) : Z := u32 (head_time - last_budget_time s).

Definition calculate_maintenance_budget (head_time : Z) (s : dao) : res asset :=
  treasury_fund ← get_treasury_fund s;
  let daily_inflation := get_daily_inflation in
  _ ← fc_assert (symbol treasury_fund =? symbol daily_inflation);
  let daily_budget_limit := i64 (Z.quot (amount treasury_fund) total_amount_divider + amount daily_inflation) in
  let x := u128 (u128 (passed_time_seconds head_time s) * u128 daily_budget_limit) / daily_seconds in
  _ ← fc_assert (Z.shiftr x 64 =? 0);
  mret (Asset (i64 (u64 x)) (symbol treasury_fund)).

Definition pay_ratio (head_time : Z) (s : dao) : Z := u32 (passed_time_seconds head_time s * freezone_100_PERCENT) / daily_seconds.

Definition period_pay (ratio : Z) (p : proposal) : res asset :=
  let x := u128 (ratio * u128 (amount (daily_pay p))) in
  _ ← fc_assert (Z.shiftr x 64 =? 0);
  mret (Asset (i64 (u64 x / freezone_100_PERCENT)) (symbol (daily_pay p))).

(** The lambda [processing]. *)
Definition pay_proposal (p : proposal) (payment : asset) (s : dao) : res dao :=
  _ ← get_account (pr_receiver p) (dcore s);
  n ← asset_neg payment;
  d ← adjust_balance freezone_TREASURY_ACCOUNT n (dcore s);
  d ← adjust_balance (pr_receiver p) payment d;
  mret (set_dcore d s).

Fixpoint pay_loop (ratio : Z) (ids : list Z) (maintenance_budget_limit : asset) (s : dao) : res dao :=
  match ids with
  | [] => mret s
  | id :: ids =>
      p ← from_option_exn out_of_range (proposals s !! id);
      if total_votes p =? 0 then mret s
      else
        pay ← period_pay ratio p;
        ge ← asset_geb pay maintenance_budget_limit;
        if (ge : bool) then pay_proposal p maintenance_budget_limit s
        else
          s ← pay_proposal p pay s;
          maintenance_budget_limit ← asset_sub maintenance_budget_limit pay;
          pay_loop ratio ids maintenance_budget_limit s
  end.

Definition transfer_payments (head_time : Z) (maintenance_budget_limit : asset) (ids : list Z) (s : dao) : res dao :=
  if amount maintenance_budget_limit =? 0 then mret s
  else
    _ ← get_account freezone_TREASURY_ACCOUNT (dcore s);
    pay_loop (pay_ratio head_time s) ids maintenance_budget_limit s.

Definition update_settings (head_time : Z) (s : dao) : dao :=
  Dao (ds s) (proposals s) (proposal_votes s) (next_proposal_id s) (sps_interval_ledger s)
    (u32 (head_time + freezone_PROPOSAL_MAINTENANCE_PERIOD)) head_time (sps_remove_threshold s).

Definition make_payments (head_time : Z) (s : dao) : res dao :=
  if negb (is_maintenance_period head_time s) then mret s
  else
    match find_active_proposals head_time s with
    | [] => mret (update_settings head_time s)
    | active =>
        s ← calculate_votes active s;
        let active := sort_by_votes active s in
        budget ← calculate_maintenance_budget head_time s;
        s ← transfer_payments head_time budget active s;
        mret (update_settings head_time s)
    end.

(** [database::process_proposals] and [sps_processor::run] *)
Definition process_proposals (head_time : Z) (s : dao) : res dao :=
  if has_hardfork freezone_PROPOSALS_HARDFORK (dcore s) then
    make_payments head_time (record_funding head_time (remove_old_proposals head_time s))
  else mret s.

(** ** The votes on a proposal *)

Lemma elem_of_voters id n s : n ∈ voters_of id s ↔ (id, n) ∈ proposal_votes s.
Proof.
  unfold voters_of. rewrite merge_sort_Permutation, list_elem_of_omap. split.
  - intros ([i m] & Hx & E). cbn in E. case_decide; [|done]. injection E as ->. subst. by apply elem_of_elements.
  - intros H. exists (id, n). split; [by apply elem_of_elements|]. cbn. by rewrite decide_True.
Qed.

Lemma voters_nodup id s : NoDup (voters_of id s).
Proof.
  unfold voters_of. rewrite merge_sort_Permutation. generalize (NoDup_elements (proposal_votes s)).
  induction (elements (proposal_votes s)) as [|[i m] l IH]; intros Hnd; cbn; [constructor|].
  apply NoDup_cons in Hnd as [Hx Hnd]. destruct (decide (i = id)) as [->|]; [|auto]. constructor; [|auto].
  rewrite list_elem_of_omap. intros ([i' m'] & Hin & E). cbn in E. case_decide; [|done]. injection E as ->. subst. done.
Qed.

Lemma voters_ext id s l :
  NoDup l → (∀ n, n ∈ l ↔ (id, n) ∈ proposal_votes s) → voters_of id s ≡ₚ l.
Proof. intros Hl H. apply NoDup_Permutation; [apply voters_nodup|done|]. intros n. by rewrite elem_of_voters, H. Qed.

(** ** Removal that stops at a threshold *)

(** The counter does not overflow: true of every threshold but the largest. *)
Definition reducer_ok (r : reducer) : Prop := threshold r < 0 ∨ 0 <= counter r <= threshold r ∧ threshold r < 32767.

(** What the reducer still allows, and what is left of [w] objects when it is
    used up. *)
Definition room (r : reducer) : Z := threshold r - counter r.
Definition left_over (r : reducer) (w : Z) : Z := if threshold r <? 0 then 0 else Z.max 0 (w - room r).
Definition fits (r : reducer) (w : Z) : Prop := threshold r < 0 ∨ w <= room r.

Definition spend (w : Z) (r : reducer) : reducer :=
  Reducer (threshold r) (if threshold r <? 0 then counter r else counter r + w) false.

Lemma checker_fits r : reducer_ok r → fits r 1 → checker r = spend 1 r.
Proof.
  unfold reducer_ok, fits, room, checker, spend. intros Hr Hf. destruct (Z.ltb_spec (threshold r) 0); [done|].
  rewrite wraps_small by (unfold in_s; cbn; lia). f_equal. apply Z.ltb_ge. lia.
Qed.

Lemma checker_full r : reducer_ok r → ¬ fits r 1 → stop (checker r) = true.
Proof.
  unfold reducer_ok, fits, room, checker. intros Hr Hf. destruct (Z.ltb_spec (threshold r) 0); [tauto|].
  rewrite wraps_small by (unfold in_s; cbn; lia). cbn. apply Z.ltb_lt. lia.
Qed.

Lemma spend_ok w r : 0 <= w → reducer_ok r → fits r w → reducer_ok (spend w r).
Proof. unfold reducer_ok, fits, room, spend. cbn. destruct (Z.ltb_spec (threshold r) 0); lia. Qed.

Lemma spend_fits w x r : fits (spend w r) x ↔ threshold r < 0 ∨ w + x <= room r.
Proof. unfold fits, room, spend. cbn. destruct (Z.ltb_spec (threshold r) 0); lia. Qed.

Lemma fits_dec r w : {fits r w} + {¬ fits r w}.
Proof.
  destruct (decide (threshold r < 0 ∨ w <= room r)); [by left|by right].
Qed.

Lemma erase_all l r v :
  reducer_ok r → fits r (Z.of_nat (length l)) →
  ∃ r', erase_votes l r v = (r', v ∖ list_to_set l, false) ∧ (r' = r ∧ l = [] ∨ r' = spend (Z.of_nat (length l)) r).
Proof.
  revert r v. induction l as [|x l IH]; intros r v Hr Hf; cbn [erase_votes].
  { exists r. split; [f_equal; f_equal; set_solver|by left]. }
  assert (fits r 1) as H1 by (unfold fits in *; cbn [length] in Hf; lia).
  rewrite checker_fits by done. cbn [stop spend].
  destruct (IH (spend 1 r) (v ∖ {[x]})) as (r' & E & Hr').
  { by apply spend_ok. }
  { apply spend_fits. unfold fits in Hf. cbn [length] in Hf. lia. }
  exists r'. rewrite E. split; [f_equal; f_equal; set_solver|]. right.
  unfold spend in *. cbn [threshold counter length] in *. destruct Hr' as [[-> ->]| ->]; cbn [length];
    destruct (threshold r <? 0); f_equal; lia.
Qed.

Lemma erase_some l r v :
  reducer_ok r → ¬ fits r (Z.of_nat (length l)) →
  ∃ r', erase_votes l r v = (r', v ∖ list_to_set (take (Z.to_nat (room r)) l), true) ∧ stop r' = true.
Proof.
  revert r v. induction l as [|x l IH]; intros r v Hr Hf; cbn [erase_votes].
  { exfalso. apply Hf. unfold fits, reducer_ok, room in *. cbn. lia. }
  destruct (fits_dec r 1) as [H1|H1].
  - rewrite checker_fits by done. cbn [stop spend].
    destruct (IH (spend 1 r) (v ∖ {[x]})) as (r' & E & Hr').
    { by apply spend_ok. }
    { rewrite spend_fits. unfold fits in Hf. cbn [length] in Hf. lia. }
    exists r'. rewrite E. split; [|done]. f_equal. f_equal.
    assert (Z.to_nat (room r) = S (Z.to_nat (room (spend 1 r)))) as ->.
    { unfold room, spend, fits, reducer_ok in *. cbn. destruct (Z.ltb_spec (threshold r) 0); [exfalso; apply Hf; by left|]. unfold room in *. lia. }
    cbn [take]. set_solver.
  - rewrite (checker_full r Hr H1). exists (checker r). split; [|by apply checker_full].
    assert (Z.to_nat (room r) = 0%nat) as ->.
    { unfold fits, room, reducer_ok in *. lia. }
    cbn. f_equal. f_equal. set_solver.
Qed.

(** The votes [l] are taken off a proposal. *)
Definition without_votes (id : Z) (l : list name) (s : dao) : dao :=
  set_proposal_votes (λ v, v ∖ list_to_set (pair id <$> l)) s.

Definition work (s : dao) (id : Z) : Z := 1 + Z.of_nat (length (voters_of id s)).

Lemma remove_whole id r s :
  reducer_ok r → fits r (work s id) →
  remove_proposal id (r, s) = (spend (work s id) r, set_proposals (delete id) (without_votes id (voters_of id s) s)).
Proof.
  unfold work. intros Hr Hf. unfold remove_proposal, without_votes. cbn [fst snd].
  set (l := pair id <$> voters_of id s). assert (length l = length (voters_of id s)) as El by apply length_fmap.
  destruct (erase_all l r (proposal_votes s)) as (r' & -> & Hr'); [done|unfold fits in *; lia|].
  assert (spend 1 r' = spend (1 + Z.of_nat (length (voters_of id s))) r ∧ reducer_ok r' ∧ fits r' 1) as (E & Hok & H1).
  { destruct Hr' as [[-> E]| ->].
    - rewrite E in El. rewrite <- El. cbn. split; [done|]. split; [done|]. unfold fits in *. lia.
    - split; [|split; [apply spend_ok; [lia|done|unfold fits in *; lia]|apply spend_fits; unfold fits in *; lia]].
      unfold spend. cbn [threshold counter]. destruct (threshold r <? 0); f_equal; lia. }
  rewrite checker_fits, E by done. done.
Qed.

Lemma remove_part id r s :
  reducer_ok r → ¬ fits r (work s id) →
  ∃ r', remove_proposal id (r, s) = (r', without_votes id (take (Z.to_nat (room r)) (voters_of id s)) s) ∧ stop r' = true.
Proof.
  unfold work. intros Hr Hf. unfold remove_proposal, without_votes. cbn [fst snd].
  set (l := pair id <$> voters_of id s). assert (length l = length (voters_of id s)) as El by apply length_fmap.
  destruct (fits_dec r (Z.of_nat (length l))) as [Hl|Hl].
  - destruct (erase_all l r (proposal_votes s)) as (r' & -> & Hr'); [done|done|].
    assert (room r = Z.of_nat (length l)) as Er by (unfold fits in *; lia).
    assert (reducer_ok r' ∧ ¬ fits r' 1) as [Hok H1].
    { destruct Hr' as [[-> E]| ->].
      - split; [done|]. rewrite E in El. cbn in El. unfold fits in *. lia.
      - split; [apply spend_ok; [lia|done|done]|]. rewrite spend_fits. unfold fits in *. lia. }
    rewrite (checker_full r') by done. exists (checker r'). split; [|by apply checker_full].
    rewrite Er, Nat2Z.id, take_ge by lia. done.
  - destruct (erase_some l r (proposal_votes s)) as (r' & -> & Hr'); [done|done|]. exists r'. split; [|done].
    unfold l. by rewrite fmap_take.
Qed.

(** ** What removal leaves *)

Lemma votes_without id l s i n : (i, n) ∈ proposal_votes (without_votes id l s) ↔ (i, n) ∈ proposal_votes s ∧ ¬ (i = id ∧ n ∈ l).
Proof.
  cbn. rewrite elem_of_difference, elem_of_list_to_set, list_elem_of_fmap. split.
  - intros [H Hn]. split; [done|]. intros [-> Hl]. apply Hn. eauto.
  - intros [H Hn]. split; [done|]. intros (m & [= -> ->] & Hl). by apply Hn.
Qed.

Lemma voters_without id k s : voters_of id (without_votes id (take k (voters_of id s)) s) ≡ₚ drop k (voters_of id s).
Proof.
  pose proof (voters_nodup id s) as Hnd. pose proof (take_drop k (voters_of id s)) as Hl.
  rewrite <- Hl in Hnd. apply NoDup_app in Hnd as (_ & Hdis & Hnd). apply voters_ext; [done|]. intros n.
  rewrite votes_without, <- elem_of_voters. rewrite <- Hl at 2. rewrite elem_of_app. split; [|tauto].
  intros Hn. split; [tauto|]. intros [_ Ht]. by apply (Hdis n).
Qed.

(** From [s] to [s'], only the proposals [ids] and votes on them were removed. *)
Record removed_from (ids : list Z) (s s' : dao) : Prop := RemovedFrom {
  rf_kept : ∀ id p, proposals s' !! id = Some p → proposals s !! id = Some p;
  rf_others : ∀ id, id ∉ ids → proposals s' !! id = proposals s !! id;
  rf_votes : proposal_votes s' ⊆ proposal_votes s;
  rf_other_votes : ∀ id, id ∉ ids → voters_of id s' ≡ₚ voters_of id s;
  rf_with_votes : ∀ id, is_Some (proposals s !! id) → proposals s' !! id = None → voters_of id s' = [];
  rf_frame : s' = set_proposals (λ _, proposals s') (set_proposal_votes (λ _, proposal_votes s') s)
}.

Lemma removed_refl ids s : removed_from ids s s.
Proof. split; try done; [intros id [p Hp] Hn; congruence|by destruct s]. Qed.

Lemma removed_trans ids s1 s2 s3 : removed_from ids s1 s2 → removed_from ids s2 s3 → removed_from ids s1 s3.
Proof.
  intros [K1 O1 V1 W1 X1 F1] [K2 O2 V2 W2 X2 F2]. split.
  - eauto.
  - intros id Hid. by rewrite O2, O1.
  - set_solver.
  - intros id Hid. by rewrite W2, W1.
  - intros id Hs H3. destruct (proposals s2 !! id) as [p|] eqn:E2; [by apply X2|].
    pose proof (X1 id Hs E2) as Hv. apply elem_of_nil_inv. intros n Hn%elem_of_voters%V2%elem_of_voters. rewrite Hv in Hn. by apply not_elem_of_nil in Hn.
  - rewrite F2, F1. done.
Qed.

Lemma removed_weaken ids ids' s s' : ids ⊆ ids' → removed_from ids s s' → removed_from ids' s s'.
Proof. intros Hi [K O V W X F]. split; try done; intros id Hid; [apply O|apply W]; set_solver. Qed.

Lemma removed_votes id l s : removed_from [id] s (without_votes id l s).
Proof.
  split; try done.
  - cbn. set_solver.
  - intros i Hi. apply voters_ext; [apply voters_nodup|]. intros n. rewrite elem_of_voters, votes_without. set_solver.
  - intros i [p Hp] Hn. cbn in Hn. congruence.
Qed.

Lemma removed_whole id s : removed_from [id] s (set_proposals (delete id) (without_votes id (voters_of id s) s)).
Proof.
  assert (∀ i, voters_of i (set_proposals (delete id) (without_votes id (voters_of id s) s))
               = voters_of i (without_votes id (voters_of id s) s)) as Ev by done.
  destruct (removed_votes id (voters_of id s) s) as [K O V W X F]. split.
  - intros i p Hp. cbn in Hp. by apply lookup_delete_Some in Hp as [_ Hp].
  - intros i Hi. cbn. rewrite lookup_delete_ne; [done|]. set_solver.
  - exact V.
  - intros i Hi. rewrite Ev. by apply W.
  - intros i [p Hp] Hn. cbn in Hn. destruct (decide (i = id)) as [->|]; [|by rewrite lookup_delete_ne, Hp in Hn].
    rewrite Ev. apply elem_of_nil_inv. intros n Hn'%elem_of_voters%votes_without. rewrite elem_of_voters in Hn'. tauto.
  - done.
Qed.

(** The loop of [remove_old_proposals]. *)
Lemma remove_ended_spec ids r s :
  NoDup ids → (∀ id, id ∈ ids → is_Some (proposals s !! id)) → reducer_ok r →
  let s' := remove_ended ids (r, s) in
  removed_from ids s s'
  ∧ ∃ rest, NoDup rest ∧ (∀ id, id ∈ rest ↔ id ∈ ids ∧ is_Some (proposals s' !! id))
      ∧ zsum (work s' <$> rest) = left_over r (zsum (work s <$> ids)).
Proof.
  revert r s. induction ids as [|id ids IH]; intros r s Hnd Hin Hr; cbn [remove_ended].
  { split; [apply removed_refl|]. exists []. split; [constructor|]. split; [set_solver|].
    unfold left_over, room, reducer_ok in *. cbn. destruct (Z.ltb_spec (threshold r) 0); lia. }
  apply NoDup_cons in Hnd as [Hid Hnd].
  assert (∀ s1, removed_from [id] s s1 → work s1 <$> ids = work s <$> ids) as Hwork.
  { intros s1 [_ _ _ W _ _]. apply list_fmap_ext. intros i x Hx. unfold work. rewrite (W x); [done|].
    apply list_elem_of_lookup_2 in Hx. set_solver. }
  assert (0 <= zsum (work s <$> ids)) as Hpos.
  { clear. induction ids as [|x l IH]; cbn in *; [lia|]. unfold work at 1. lia. }
  destruct (fits_dec r (work s id)) as [Hf|Hf].
  - rewrite remove_whole by done. cbn [fst snd stop spend]. set (s1 := set_proposals _ _).
    assert (removed_from [id] s s1) as H1 by apply removed_whole.
    assert (proposals s1 !! id = None) as Hgone by (cbn; apply lookup_delete_eq).
    destruct (IH (spend (work s id) r) s1) as (H2 & rest & Hrnd & Hrest & Hw); [done| | |].
    { intros i Hi. destruct H1 as [_ O _ _ _ _]. rewrite O by set_solver. apply Hin. set_solver. }
    { apply spend_ok; [unfold work; lia|done..]. }
    split; [eapply removed_trans; [eapply removed_weaken, H1|eapply removed_weaken, H2]; set_solver|].
    exists rest. split; [done|]. split.
    + intros i. rewrite Hrest. split; [set_solver|]. intros [Hi Hs]. split; [|done].
      apply elem_of_cons in Hi as [->|Hi]; [|done]. destruct Hs as [p Hp%(rf_kept _ _ _ H2)]. congruence.
    + rewrite Hw, Hwork by done. unfold left_over, spend, room, fits in *. cbn. destruct (Z.ltb_spec (threshold r) 0); [done|].
      unfold room in *. lia.
  - destruct (remove_part id r s) as (r' & -> & Hstop); [done|done|]. cbn [fst snd]. rewrite Hstop.
    set (s1 := without_votes _ _ _). assert (removed_from [id] s s1) as H1 by apply removed_votes.
    split; [eapply removed_weaken, H1; set_solver|]. exists (id :: ids). split; [by constructor|]. split.
    + intros i. split; [|tauto]. intros Hi. split; [done|]. by apply Hin.
    + cbn [fmap list_fmap zsum foldr]. fold (zsum (work s <$> ids)) (zsum (work s1 <$> ids)). rewrite (Hwork s1 H1).
      unfold work at 1. unfold s1 at 1. rewrite voters_without, length_drop.
      unfold left_over, fits, room, reducer_ok, work in *. destruct (Z.ltb_spec (threshold r) 0); [tauto|]. lia.
Qed.

Lemma elem_of_rows_until t time s id p : (id, p) ∈ rows_until t time s ↔ proposals s !! id = Some p ∧ t p <= time.
Proof.
  unfold rows_until. rewrite list_elem_of_In, filter_In, <- list_elem_of_In, merge_sort_Permutation, elem_of_map_to_list.
  cbn. by rewrite Z.leb_le.
Qed.

Lemma rows_until_rows t time s : rows_of (proposals s) (rows_until t time s).
Proof. unfold rows_until. auto with freezone. Qed.

Lemma rows_nodup t time s : NoDup (rows_until t time s).*1.
Proof. apply rows_until_rows. Qed.

Lemma elem_of_ended head s id : id ∈ ended head s ↔ ∃ p, proposals s !! id = Some p ∧ get_end_date_with_delay p <= head.
Proof.
  unfold ended. rewrite list_elem_of_fmap. split.
  - intros ([i p] & -> & H%elem_of_rows_until). eauto.
  - intros (p & H). exists (id, p). split; [done|]. by apply elem_of_rows_until.
Qed.

(** The objects that a block has to remove: proposals that have ended, and the
    votes on them. *)
Definition unremoved (head : Z) (s : dao) : Z := zsum (work s <$> ended head s).

Lemma zsum_permutation l l' : l ≡ₚ l' → zsum l = zsum l'.
Proof. induction 1; cbn in *; lia. Qed.

Lemma remove_old_spec head s :
  sps_remove_threshold s < 32767 →
  let s' := remove_old_proposals head s in
  removed_from (ended head s) s s'
  ∧ unremoved head s' = if sps_remove_threshold s <? 0 then 0 else Z.max 0 (unremoved head s - sps_remove_threshold s).
Proof.
  intros HT s'.
  destruct (remove_ended_spec (ended head s) (Reducer (sps_remove_threshold s) 0 false) s) as (H & rest & Hnd & Hrest & Hw).
  { apply rows_nodup. }
  { intros id (p & Hp & _)%elem_of_ended. eauto. }
  { unfold reducer_ok. cbn. lia. }
  fold (remove_old_proposals head s) in H, Hrest, Hw. fold s' in H, Hrest, Hw. split; [done|].
  unfold unremoved, left_over, room in *. cbn [threshold counter] in Hw. rewrite Z.sub_0_r in Hw. rewrite <- Hw.
  apply zsum_permutation. apply fmap_Permutation. apply NoDup_Permutation; [apply rows_nodup|done|]. intros id.
  rewrite Hrest, !elem_of_ended. split.
  - intros (p & Hp & He). split; [exists p; split; [by apply (rf_kept _ _ _ H)|done]|eauto].
  - intros [(p & Hp & He) [p' Hp']]. exists p'. split; [done|]. apply (rf_kept _ _ _ H) in Hp'. congruence.
Qed.

Lemma removed_threshold ids s s' : removed_from ids s s' → sps_remove_threshold s' = sps_remove_threshold s.
Proof. intros H. by rewrite (rf_frame _ _ _ H). Qed.

Lemma removed_ended head ids s s' : removed_from ids s s' → ended head s' ⊆ ended head s.
Proof. intros H id (p & Hp & He)%elem_of_ended. apply elem_of_ended. exists p. split; [by apply (rf_kept _ _ _ H)|done]. Qed.

Lemma unremoved_zero head s : unremoved head s <= 0 → ended head s = [].
Proof.
  unfold unremoved. destruct (ended head s) as [|id l]; [done|]. cbn [fmap list_fmap zsum foldr].
  assert (0 <= zsum (work s <$> l)) by (induction l as [|x l IH]; cbn in *; [lia|]; unfold work at 1; lia).
  unfold zsum in *. unfold work at 1. lia.
Qed.

Lemma unremoved_nonneg head s : 0 <= unremoved head s.
Proof. unfold unremoved. induction (ended head s) as [|x l IH]; cbn in *; [lia|]. unfold work at 1. lia. Qed.

Lemma remove_old_iter n head s :
  sps_remove_threshold s < 32767 →
  let s' := Nat.iter n (remove_old_proposals head) s in
  removed_from (ended head s) s s'
  ∧ unremoved head s' = if sps_remove_threshold s <? 0 then (if decide (n = 0%nat) then unremoved head s else 0)
                         else Z.max 0 (unremoved head s - Z.of_nat n * sps_remove_threshold s).
Proof.
  intros HT. induction n as [|n IH].
  { split; [apply removed_refl|]. rewrite decide_True by done. rewrite Z.mul_0_l, Z.sub_0_r. change (Nat.iter 0 _ s) with s.
    pose proof (unremoved_nonneg head s). destruct (Z.ltb_spec (sps_remove_threshold s) 0); lia. }
  change (Nat.iter (S n) ?f s) with (f (Nat.iter n f s)). cbn zeta in *. set (s1 := Nat.iter n _ s) in *. destruct IH as [H1 U1]. pose proof (removed_threshold _ _ _ H1) as ET.
  destruct (remove_old_spec head s1) as [H2 U2]; [lia|]. split.
  - eapply removed_trans; [exact H1|]. eapply removed_weaken; [|exact H2]. by eapply removed_ended.
  - rewrite U2, ET. destruct (Z.ltb_spec (sps_remove_threshold s) 0); [cbn; done|]. lia.
Qed.

(** ** Theorems *)

(** C36: proposals that ended are removed with their votes, a bounded number of
    them per block.  With a threshold [T] (from 0 up to 32766, one below the
    largest of its type) a block removes exactly [T] of the proposals that ended
    and of the votes on them, or all when there are not more, so that after [n]
    blocks exactly what exceeds [n * T] is left; when nothing exceeds it, or there is no
    threshold ([T] negative), every proposal that had ended is gone with all of its votes.
    No other proposal or vote is touched, and a proposal never leaves before its
    votes. *)
Theorem ended_proposals_removed n head s :
  sps_remove_threshold s < 32767 → (0 < n)%nat →
  let s' := Nat.iter n (remove_old_proposals head) s in
  removed_from (ended head s) s s'
  ∧ (0 <= sps_remove_threshold s → unremoved head s' = Z.max 0 (unremoved head s - Z.of_nat n * sps_remove_threshold s))
  ∧ (sps_remove_threshold s < 0 ∨ unremoved head s <= Z.of_nat n * sps_remove_threshold s →
     ∀ id, id ∈ ended head s → proposals s' !! id = None ∧ voters_of id s' = []).
Proof.
  intros HT Hn s'. destruct (remove_old_iter n head s HT) as [H U]. fold s' in H, U. split; [done|]. split.
  { intros HT0. destruct (Z.ltb_spec (sps_remove_threshold s) 0); [lia|done]. }
  intros Hall id Hid. rewrite decide_False in U by lia.
  assert (ended head s' = []) as He.
  { apply unremoved_zero. destruct (Z.ltb_spec (sps_remove_threshold s) 0); lia. }
  apply elem_of_ended in Hid as (p & Hp & Hend).
  assert (proposals s' !! id = None) as Hgone.
  { destruct (proposals s' !! id) as [q|] eqn:E; [|done]. exfalso. apply (not_elem_of_nil id). rewrite <- He.
    apply elem_of_ended. exists q. split; [done|]. apply (rf_kept _ _ _ H) in E. congruence. }
  split; [done|]. apply (rf_with_votes _ _ _ H); [eauto|done].
Qed.

(** *** remove_proposal *)

Lemma elem_of_ascending id ids : id ∈ ascending ids ↔ id ∈ ids.
Proof. unfold ascending. by rewrite merge_sort_Permutation, elem_of_elements. Qed.

Lemma ascending_pair i j : i < j → ascending {[i; j]} = [i; j].
Proof.
  intros Hij. unfold ascending. apply (Sorted_unique Z.le).
  - apply Sorted_merge_sort, _.
  - repeat constructor. lia.
  - rewrite merge_sort_Permutation, elements_union_singleton by (apply not_elem_of_singleton; lia). by rewrite elements_singleton.
Qed.

(** Whatever has been removed before, a listed proposal of another account
    stops the operation when nothing stops the loop. *)
Lemma remove_owned_foreign owner ids r s id p :
  threshold r < 0 → NoDup ids → id ∈ ids → proposals s !! id = Some p → pr_creator p ≠ owner →
  remove_owned owner ids (r, s) = Throw assert_exception.
Proof.
  revert r s. induction ids as [|i ids IH]; intros r s Hr Hnd Hid Hp Hc; [by apply not_elem_of_nil in Hid|].
  apply NoDup_cons in Hnd as [Hi Hnd]. cbn [remove_owned snd]. destruct (decide (i = id)) as [->|Hne].
  { rewrite Hp, bool_decide_false by done. done. }
  assert (id ∈ ids) as Hid' by set_solver. destruct (proposals s !! i) as [q|] eqn:E; [|by apply IH].
  destruct (bool_decide _); [|done]. cbn [fc_assert]. rewrite Ok_bind.
  rewrite remove_whole by (by left). cbn [fst snd stop spend]. apply IH; [done|done|done| |done]. cbn. by rewrite lookup_delete_ne.
Qed.

Lemma remove_owned_all owner ids r s :
  threshold r < 0 → (∀ id p, id ∈ ids → proposals s !! id = Some p → pr_creator p = owner) →
  ∃ s', remove_owned owner ids (r, s) = Ok s' ∧ removed_from ids s s' ∧ ∀ id, id ∈ ids → proposals s' !! id = None.
Proof.
  revert r s. induction ids as [|i ids IH]; intros r s Hr Hc; cbn [remove_owned snd].
  { exists s. split; [done|]. split; [apply removed_refl|]. intros id Hid. by apply not_elem_of_nil in Hid. }
  destruct (proposals s !! i) as [q|] eqn:E.
  - rewrite bool_decide_true by (eapply Hc, E; set_solver). cbn [fc_assert]. rewrite Ok_bind.
    rewrite remove_whole by (by left). cbn [fst snd stop spend]. set (s1 := set_proposals _ _).
    assert (removed_from [i] s s1) as H1 by apply removed_whole.
    destruct (IH (spend (work s i) r) s1) as (s' & E' & H2 & Hall); [done| |].
    { intros id p Hid Hp%(rf_kept _ _ _ H1). by apply (Hc id); [set_solver|]. }
    exists s'. split; [done|]. split; [eapply removed_trans; eapply removed_weaken; [|exact H1| |exact H2]; set_solver|].
    intros id [->|Hid]%elem_of_cons; [|by apply Hall]. destruct (proposals s' !! i) as [p|] eqn:Ep; [|done].
    apply (rf_kept _ _ _ H2) in Ep. cbn in Ep. by rewrite lookup_delete_eq in Ep.
  - destruct (IH r s) as (s' & E' & H & Hall); [done|intros id p Hid; apply Hc; set_solver|].
    exists s'. split; [done|]. split; [eapply removed_weaken, H; set_solver|].
    intros id [->|Hid]%elem_of_cons; [|by apply Hall]. destruct (proposals s' !! i) as [p|] eqn:Ep; [|done].
    apply (rf_kept _ _ _ H) in Ep. congruence.
Qed.

Lemma mark_gone l s : (∀ id, id ∈ l → proposals s !! id = None) → foldl mark_removed s l = s.
Proof.
  induction l as [|id l IH]; intros H; [done|]. cbn [foldl]. unfold mark_removed at 2. rewrite (H id) by set_solver.
  apply IH. set_solver.
Qed.

(** C38: only its creator removes a proposal, unless the threshold is reached.
    Without a threshold, remove_proposal fails when a listed proposal was
    created by somebody else, and otherwise removes exactly the listed
    proposals with their votes.  With a threshold [T], listing an own proposal
    that has at least [T] votes before a proposal of somebody else ends the
    loop that checks the creators, and the operation marks the other proposal
    as removed: from then on it is not paid and is cleared by the next
    blocks. *)
Theorem remove_proposal_owner_check owner s :
  has_hardfork freezone_PROPOSALS_HARDFORK (dcore s) = true →
  (sps_remove_threshold s < 0 → ∀ ids,
     (∀ id p, id ∈ ids → proposals s !! id = Some p → pr_creator p ≠ owner → remove_proposal_apply (RemoveProposal owner ids) s = Throw assert_exception)
     ∧ ((∀ id p, id ∈ ids → proposals s !! id = Some p → pr_creator p = owner) →
        ∃ s', remove_proposal_apply (RemoveProposal owner ids) s = Ok s' ∧ removed_from (ascending ids) s s'
          ∧ ∀ id, id ∈ ids → proposals s' !! id = None))
  ∧ (0 <= sps_remove_threshold s < 32767 → ∀ mine foreign p q,
       mine < foreign → proposals s !! mine = Some p → pr_creator p = owner → proposals s !! foreign = Some q → removed q = false →
       sps_remove_threshold s <= Z.of_nat (length (voters_of mine s)) → freezone_PROPOSAL_MAINTENANCE_CLEANUP <= now (dcore s) < 2 ^ 32 →
       ∃ s', remove_proposal_apply (RemoveProposal owner {[mine; foreign]}) s = Ok s'
         ∧ proposals s' !! foreign = Some (as_removed (now (dcore s)) q)
         ∧ ∀ head, now (dcore s) <= head → foreign ∈ ended head s' ∧ foreign ∉ find_active_proposals head s').
Proof.
  intros Hhf. unfold remove_proposal_apply. rewrite Hhf. cbn [fc_assert rp_proposal_owner rp_proposal_ids]. split.
  - intros HT ids. split.
    + intros id p Hid Hp Hc. rewrite Ok_bind. by rewrite (remove_owned_foreign _ _ _ _ id p);
        [|done|unfold ascending; rewrite merge_sort_Permutation; apply NoDup_elements|by apply elem_of_ascending|..].
    + intros Hc. rewrite Ok_bind.
      destruct (remove_owned_all owner (ascending ids) (Reducer (sps_remove_threshold s) 0 false) s) as (s' & -> & H & Hall); [done| |].
      { intros id p Hid%elem_of_ascending. by apply Hc. }
      rewrite Ok_bind, mark_gone by done. exists s'. split; [done|]. split; [done|]. intros id Hid. apply Hall. by apply elem_of_ascending.
  - intros HT mine foreign p q Hlt Hp Hc Hq Hrm Hv Hnow. rewrite Ok_bind, ascending_pair by done. cbn [remove_owned snd].
    rewrite Hp, bool_decide_true by done. cbn [fc_assert]. rewrite Ok_bind.
    destruct (remove_part mine (Reducer (sps_remove_threshold s) 0 false) s) as (r' & -> & Hstop).
    { unfold reducer_ok. cbn. lia. }
    { unfold fits, work, room. cbn [threshold counter]. lia. }
    cbn [fst snd]. rewrite Hstop, Ok_bind. eexists. split; [done|]. cbn [foldl]. set (s1 := without_votes _ _ _).
    set (s' := mark_removed (mark_removed s1 mine) foreign).
    assert (proposals s' !! foreign = Some (as_removed (now (dcore s)) q)) as Hf.
    { unfold s'. unfold mark_removed at 1. assert (proposals (mark_removed s1 mine) !! foreign = Some q) as ->.
      { unfold mark_removed. cbn [proposals s1 without_votes set_proposal_votes]. rewrite Hp. destruct (removed p); [done|].
        cbn. by rewrite lookup_insert_ne by lia. }
      rewrite Hrm. cbn. rewrite lookup_insert_eq. unfold mark_removed. cbn [proposals s1 without_votes set_proposal_votes].
      rewrite Hp. by destruct (removed p). }
    split; [done|]. intros head Hh. unfold freezone_PROPOSAL_MAINTENANCE_CLEANUP in Hnow. split.
    + apply elem_of_ended. eexists. split; [exact Hf|]. unfold get_end_date_with_delay, as_removed. cbn [end_date].
      unfold freezone_PROPOSAL_MAINTENANCE_CLEANUP. mlia.
    + unfold find_active_proposals. intros ([id x] & E & Hx)%list_elem_of_fmap. cbn in E. subst id.
      apply list_elem_of_In, filter_In in Hx as [Hx Hb]. apply list_elem_of_In, elem_of_rows_until in Hx as [Hx _].
      rewrite Hf in Hx. injection Hx as <-. cbn [snd] in Hb. bools. cbn [as_removed end_date] in *.
      unfold freezone_PROPOSAL_MAINTENANCE_CLEANUP in *. mlia.
Qed.

(** ** Payments *)

(** What a voter counts for: nothing when a proxy votes for it. *)
Definition vote_weight (d : db) (n : name) : Z :=
  match accounts d !! n with
  | Some a => if decide (proxy a = freezone_PROXY_TO_SELF_ACCOUNT) then voting_power a else 0
  | None => 0
  end.
Definition approval (s : dao) (id : Z) : Z := zsum (vote_weight (dcore s) <$> voters_of id s).

Lemma count_votes_value id s v : count_votes id s = Ok v → v = u64 (approval s id).
Proof.
  unfold count_votes, approval. generalize (voters_of id s). intros l.
  enough (∀ r v, in_u 64 r → res_fold (λ ret v0, a ← get_account v0 (dcore s);
      if decide (proxy a = freezone_PROXY_TO_SELF_ACCOUNT) then sum ← witness_vote_weight a; mret (u64 (ret + sum)) else mret ret) r l = Ok v
    → v = u64 (r + zsum (vote_weight (dcore s) <$> l))) as H.
  { intros Hv. apply H in Hv; [done|]. unfold in_u. lia. }
  clear v. induction l as [|n l IH]; intros r v Hr H; cbn [res_fold] in H.
  { injection H as <-. cbn. rewrite Z.add_0_r. unfold u64. by rewrite wrapu_small. }
  apply bind_Ok in H as (r1 & H1 & H). apply bind_Ok in H1 as (a & Ha & H1). apply from_option_exn_Ok in Ha.
  cbn [fmap list_fmap zsum foldr]. fold (zsum (vote_weight (dcore s) <$> l)). unfold vote_weight at 1. rewrite Ha.
  destruct (decide _).
  - apply bind_Ok in H1 as (w & Hw%voting_power_weight & H1). injection H1 as <-. subst w.
    apply IH in H; [|by apply wrapu_in]. subst v. unfold u64, wrapu. rewrite Zplus_mod_idemp_l. f_equal. lia.
  - injection H1 as <-. apply IH in H; [|done]. by rewrite Z.add_0_l.
Qed.

Definition with_totals (ids : list Z) (s : dao) (id : Z) (p : proposal) : proposal :=
  if decide (id ∈ ids) then set_total_votes (u64 (approval s id)) p else p.

Lemma calculate_votes_value ids s s1 :
  calculate_votes ids s = Ok s1 →
  s1 = set_proposals (λ _, proposals s1) s ∧ ∀ id, proposals s1 !! id = with_totals ids s id <$> proposals s !! id.
Proof.
  unfold calculate_votes. revert s. induction ids as [|i ids IH]; intros s H; cbn [res_fold] in H.
  { injection H as <-. split; [by destruct s|]. intros id. unfold with_totals.
    destruct (proposals s !! id); [|done]. cbn. by rewrite decide_False by apply not_elem_of_nil. }
  apply bind_Ok in H as (s2 & H2 & H). apply bind_Ok in H2 as (p & Hp & H2). apply from_option_exn_Ok in Hp.
  apply bind_Ok in H2 as (v & Hv%count_votes_value & H2). injection H2 as <-. apply IH in H as [E H]. subst v. split; [by rewrite E|].
  intros id. rewrite H. unfold with_totals. cbn [proposals set_proposals].
  assert (∀ id, approval (set_proposals <[i := set_total_votes (u64 (approval s i)) p]> s) id = approval s id) as Ea by done.
  destruct (decide (id = i)) as [->|Hne].
  - rewrite lookup_insert_eq, Hp. cbn. rewrite (decide_True (P := i ∈ i :: ids)) by set_solver. rewrite Ea. by destruct (decide (i ∈ ids)).
  - rewrite lookup_insert_ne by done. destruct (proposals s !! id); [|done]. cbn. rewrite Ea.
    destruct (decide (id ∈ ids)); [rewrite decide_True by set_solver|rewrite decide_False by set_solver]; done.
Qed.

(** The share of the daily pay that falls due, and the money that may be
    spent. *)
Definition quota (ratio : Z) (p : proposal) : Z := ratio * amount (daily_pay p) / freezone_100_PERCENT.

Definition pay_ok (p : proposal) : Prop := symbol (daily_pay p) = SBD_SYMBOL ∧ 0 <= amount (daily_pay p) < 2 ^ 63.

Lemma period_pay_value ratio p x :
  0 <= ratio < 2 ^ 32 → pay_ok p → period_pay ratio p = Ok x → x = Asset (quota ratio p) SBD_SYMBOL.
Proof.
  intros Hr [Es Ha] H. unfold period_pay in H. apply bind_Ok in H as (? & Hc%fc_assert_Ok & H). injection H as <-. rewrite Es.
  assert (u128 (ratio * u128 (amount (daily_pay p))) = ratio * amount (daily_pay p)) as E.
  { unfold u128. rewrite (wrapu_small 128 (amount _)) by (unfold in_u; lia). apply wrapu_small. unfold in_u. nia. }
  rewrite E in *. apply Z.eqb_eq in Hc. rewrite Z.shiftr_div_pow2 in Hc by lia.
  assert (0 <= ratio * amount (daily_pay p) < 2 ^ 64) as Hb.
  { split; [nia|]. apply Z.div_small_iff in Hc; [|lia]. nia. }
  unfold quota, freezone_100_PERCENT. f_equal. unfold u64. rewrite (wrapu_small 64) by (unfold in_u; lia). apply wraps_small; [lia|].
  unfold in_s. cbn. Z.div_mod_to_equations. lia.
Qed.

(** A payment from the treasury. *)
Definition treasury_pays (d : db) (x : name * Z) : res db :=
  d ← adjust_balance freezone_TREASURY_ACCOUNT (Asset (- x.2) SBD_SYMBOL) d;
  adjust_balance x.1 (Asset x.2 SBD_SYMBOL) d.

Lemma pay_proposal_pays p x s s' :
  pay_proposal p (Asset x SBD_SYMBOL) s = Ok s' →
  s' = set_dcore (dcore s') s ∧ treasury_pays (dcore s) (pr_receiver p, x) = Ok (dcore s').
Proof.
  unfold pay_proposal, treasury_pays. intros H. apply bind_Ok in H as (? & _ & H). apply bind_Ok in H as (n & ->%asset_neg_value & H).
  cbn [amount symbol] in H. apply bind_Ok in H as (d & Hd & H). apply bind_Ok in H as (d' & Hd' & H). injection H as <-.
  split; [done|]. cbn [fst snd]. by rewrite Hd, Ok_bind.
Qed.

(** Who is paid what: in the order [ids], each as much as falls due while the
    budget lasts, until a proposal has no votes. *)
Record paid (ratio budget : Z) (votes : Z → Z) (ps : gmap Z proposal) (ids : list Z) (pays : list (name * Z)) : Prop := Paid {
  pd_each : ∀ i n x, pays !! i = Some (n, x) →
    ∃ id p, ids !! i = Some id ∧ ps !! id = Some p ∧ n = pr_receiver p ∧ votes id ≠ 0
      ∧ x = Z.min (quota ratio p) (budget - zsum (take i pays).*2);
  pd_total : zsum pays.*2 <= budget;
  pd_end : ∀ id, ids !! length pays = Some id → votes id = 0 ∨ zsum pays.*2 = budget
}.

Lemma paid_nil ratio b votes ps ids :
  0 <= b → (∀ id, ids !! 0%nat = Some id → votes id = 0 ∨ b = 0) → paid ratio b votes ps ids [].
Proof. intros Hb H. split; [done|done|]. cbn. intros id [?|?]%H; [by left|right; lia]. Qed.

Lemma paid_cons ratio b votes ps id p ids pays :
  ps !! id = Some p → votes id ≠ 0 → 0 <= quota ratio p <= b →
  paid ratio (b - quota ratio p) votes ps ids pays → paid ratio b votes ps (id :: ids) ((pr_receiver p, quota ratio p) :: pays).
Proof.
  intros Hp Hv Hq [He Ht Hend]. split.
  - intros [|i] n x Hi; cbn in Hi.
    + injection Hi as <- <-. exists id, p. split_and!; try done. cbn. lia.
    + apply He in Hi as (id' & p' & Hid & Hp' & -> & Hv' & ->). exists id', p'. split_and!; try done. cbn. f_equal. fold (zsum (take i pays).*2). lia.
  - cbn. unfold zsum in *. lia.
  - cbn. intros id' Hid. apply Hend in Hid. unfold zsum in *. destruct Hid; [by left|right; lia].
Qed.

Lemma pay_loop_paid ratio ids b s s' :
  0 <= ratio < 2 ^ 32 → (∀ id p, proposals s !! id = Some p → pay_ok p) → 0 <= b →
  pay_loop ratio ids (Asset b SBD_SYMBOL) s = Ok s' →
  s' = set_dcore (dcore s') s
  ∧ ∃ pays, paid ratio b (λ id, from_option total_votes 0 (proposals s !! id)) (proposals s) ids pays
      ∧ res_fold treasury_pays (dcore s) pays = Ok (dcore s').
Proof.
  intros Hr. revert b s. induction ids as [|id ids IH]; intros b s Hok Hb H; cbn [pay_loop] in H.
  { injection H as <-. split; [by destruct s as [[] ? ? ? ? ? ? ?]|]. exists []. split; [by apply paid_nil|done]. }
  apply bind_Ok in H as (p & Hp & H). apply from_option_exn_Ok in Hp. destruct (Z.eqb_spec (total_votes p) 0) as [Ez|Hz].
  { injection H as <-. split; [by destruct s as [[] ? ? ? ? ? ? ?]|]. exists []. split; [|done].
    apply paid_nil; [done|]. intros i [= <-]. left. by rewrite Hp. }
  apply bind_Ok in H as (pay & Hpay & H). apply period_pay_value in Hpay as ->; [|done|by eapply Hok].
  assert (0 <= quota ratio p) as Hq.
  { unfold quota. destruct (Hok _ _ Hp) as [_ ?]. apply Z.div_pos; [nia|done]. }
  apply bind_Ok in H as (ge & Hge & H). unfold asset_geb in Hge. cbn in Hge. injection Hge as <-.
  destruct (Z.leb_spec b (quota ratio p)).
  - apply pay_proposal_pays in H as [E H]. split; [done|]. exists [(pr_receiver p, b)]. split; [|cbn; by rewrite H].
    split; cbn.
    + intros [|i] n x Hi; cbn in Hi; [|done]. injection Hi as <- <-. exists id, p. split_and!; try done; [by rewrite Hp|cbn; lia].
    + lia.
    + right. lia.
  - apply bind_Ok in H as (s1 & H1 & H). apply pay_proposal_pays in H1 as [E1 H1]. apply bind_Ok in H as (b1 & Hb1 & H).
    unfold asset_sub in Hb1. cbn in Hb1. apply bind_Ok in Hb1 as (? & _ & Hb1). apply bind_Ok in Hb1 as (v & Hv%safe_sub_value & Hb1). injection Hb1 as <-. subst v.
    assert (proposals s1 = proposals s) as Eps by (by rewrite E1).
    apply IH in H as (E & pays & Hpays & H); [|by rewrite Eps|lia]. rewrite Eps in Hpays. split; [by rewrite E, E1|].
    exists ((pr_receiver p, quota ratio p) :: pays). split; [|cbn [res_fold]; by rewrite H1, Ok_bind].
    apply paid_cons; [done|by rewrite Hp|lia|done].
Qed.

Definition more_votes (votes : Z → Z) (x y : Z) : Prop := votes y < votes x ∨ votes x = votes y ∧ x <= y.

#[local] Instance by_votes_total s : Total (by_votes s).
Proof. intros x y. unfold by_votes. lia. Qed.
#[local] Instance by_votes_trans s : Transitive (by_votes s).
Proof. intros x y z. unfold by_votes. lia. Qed.

Lemma sorted_weaken {A} (R R' : A → A → Prop) l :
  (∀ x y, x ∈ l → y ∈ l → R x y → R' x y) → StronglySorted R l → StronglySorted R' l.
Proof.
  induction l as [|a l IH]; intros H Hl; [constructor|]. inversion Hl as [|? ? Hs Hf]; subst. constructor.
  - apply IH; [|done]. intros x y Hx Hy. apply H; by right.
  - rewrite Forall_forall in Hf |- *. intros x Hx. apply H; [by left|by right|by apply Hf].
Qed.

Lemma active_present head s id : id ∈ find_active_proposals head s ↔
  ∃ p, proposals s !! id = Some p ∧ start_date p <= head <= end_date p.
Proof.
  unfold find_active_proposals. rewrite list_elem_of_fmap. split.
  - intros ([i p] & -> & H). apply list_elem_of_In, filter_In in H as [H Hb]. apply list_elem_of_In, elem_of_rows_until in H as [H _].
    cbn in Hb. bools. exists p. by split.
  - intros (p & Hp & Hd). exists (id, p). split; [done|]. apply list_elem_of_In, filter_In. split; [|cbn; lia].
    apply list_elem_of_In, elem_of_rows_until. split; [done|lia].
Qed.

(** What can be spent when [t] seconds have passed: a hundredth of the fund per
    day. *)
Definition budget_after (t fund : Z) : Z := t * (fund / 100) / daily_seconds.

(** The part of a daily pay that is paid then, of 10000: the product is one of
    [uint32_t]. *)
Definition ratio_after (t : Z) : Z := u32 (t * freezone_100_PERCENT) / daily_seconds.

Lemma ratio_exact t : 0 <= t < 429497 → ratio_after t = t * freezone_100_PERCENT / daily_seconds.
Proof. intros Ht. unfold ratio_after, freezone_100_PERCENT, u32. by rewrite wrapu_small by (unfold in_u; lia). Qed.

Lemma u32_below x : 0 <= x → 0 <= u32 x <= x ∧ u32 x < 2 ^ 32.
Proof. intros Hx. unfold u32, wrapu. Z.div_mod_to_equations. lia. Qed.

Lemma budget_value head s a b t :
  accounts (dcore s) !! freezone_TREASURY_ACCOUNT = Some a → 0 <= sbd_balance (sbd a) < 2 ^ 63 →
  head - last_budget_time s = t → 0 <= t < 2 ^ 32 → budget_after t (sbd_balance (sbd a)) < 2 ^ 63 →
  calculate_maintenance_budget head s = Ok b → b = Asset (budget_after t (sbd_balance (sbd a))) SBD_SYMBOL.
Proof.
  intros Ha Hf Ht Hb Hfit H. unfold calculate_maintenance_budget, get_treasury_fund, get_account in H. rewrite Ha in H. cbn in H.
  unfold passed_time_seconds in H. rewrite Ht in H. do 2 apply bind_Ok in H as (? & _ & H). injection H as <-. f_equal.
  set (f := sbd_balance (sbd a)) in *. unfold total_amount_divider. rewrite Z.quot_div_nonneg, Z.add_0_r by lia.
  assert (0 <= f / 100 <= f) as Hd by (Z.div_mod_to_equations; lia).
  assert (u32 t = t) as -> by (apply wrapu_small; unfold in_u; lia).
  assert (i64 (f / 100) = f / 100) as -> by (apply wraps_small; [lia|]; unfold in_s; cbn; lia).
  unfold u128. rewrite (wrapu_small 128 t), (wrapu_small 128 (f / 100)), (wrapu_small 128 (t * (f / 100))) by (unfold in_u; nia). unfold budget_after.
  assert (0 <= t * (f / 100) / daily_seconds < 2 ^ 63) as Hx.
  { split; [apply Z.div_pos; [nia|done]|exact Hfit]. }
  unfold u64. rewrite wrapu_small by (unfold in_u; lia). apply wraps_small; [lia|]. unfold in_s. cbn. lia.
Qed.

Lemma ratio_value head s t : head - last_budget_time s = t → 0 <= t < 2 ^ 32 → pay_ratio head s = ratio_after t.
Proof.
  intros Ht Hb. unfold pay_ratio, passed_time_seconds, ratio_after. rewrite Ht.
  unfold u32 at 2. by rewrite (wrapu_small 32 t) by (unfold in_u; lia).
Qed.

Lemma budget_bound t f : 0 <= t → 0 <= f → 0 <= budget_after t f ∧ budget_after t f * (100 * daily_seconds) <= f * t.
Proof.
  intros Ht Hf. unfold budget_after, daily_seconds. assert (0 <= f / 100 ∧ f / 100 * 100 <= f) by (Z.div_mod_to_equations; lia).
  assert (t * (f / 100) / (60 * 60 * 24) * (60 * 60 * 24) <= t * (f / 100)) by (Z.div_mod_to_equations; lia).
  split; [apply Z.div_pos; nia|nia].
Qed.

Lemma quota_bound t p : 0 <= t → pay_ok p → quota (ratio_after t) p * daily_seconds <= amount (daily_pay p) * t.
Proof.
  intros Ht [_ [Hp _]]. unfold quota, ratio_after, daily_seconds, freezone_100_PERCENT. set (x := amount (daily_pay p)) in *.
  destruct (u32_below (t * 10000)) as [Hu _]; [lia|].
  assert (u32 (t * 10000) / (60 * 60 * 24) * (60 * 60 * 24) <= t * 10000) by (Z.div_mod_to_equations; lia).
  set (r := u32 (t * 10000) / (60 * 60 * 24)) in *. assert (r * x / 10000 * 10000 <= r * x) by (Z.div_mod_to_equations; lia). nia.
Qed.

(** Every vote is for a proposal, and proposals ask for SBD. *)
Record dao_ok (s : dao) : Prop := DaoOk {
  dk_votes : ∀ id n, (id, n) ∈ proposal_votes s → is_Some (proposals s !! id);
  dk_ids : ∀ id, is_Some (proposals s !! id) → id < next_proposal_id s;
  dk_pay : ∀ id p, proposals s !! id = Some p → pay_ok p
}.

Lemma make_payments_parts head s s' a t :
  accounts (dcore s) !! freezone_TREASURY_ACCOUNT = Some a → 0 <= sbd_balance (sbd a) < 2 ^ 63 →
  head - last_budget_time s = t → 0 <= t < 2 ^ 32 → budget_after t (sbd_balance (sbd a)) < 2 ^ 63 →
  is_maintenance_period head s = true → make_payments head s = Ok s' →
  let active := find_active_proposals head s in
  let budget := budget_after t (sbd_balance (sbd a)) in
  ∃ s1 s2, calculate_votes active s = Ok s1 ∧ s' = update_settings head s2
    ∧ (s1 = s2 ∧ (active = [] ∨ budget = 0) ∨ pay_loop (ratio_after t) (sort_by_votes active s1) (Asset budget SBD_SYMBOL) s1 = Ok s2).
Proof.
  intros Ha Hf Ht Hb Hfit Hm H active budget. unfold make_payments in H. rewrite Hm in H. cbn [negb] in H. fold active in H.
  destruct active as [|id l]; [injection H as <-; by exists s, s; split_and!; [..|left; split; [|left]]|].
  apply bind_Ok in H as (s1 & H1 & H). apply bind_Ok in H as (b & Hbud & H). apply bind_Ok in H as (s2 & H2 & H). injection H as <-.
  exists s1, s2. split_and!; [done|done|]. destruct (calculate_votes_value _ _ _ H1) as [E1 _].
  apply (budget_value head s1 a b t) in Hbud; [|by rewrite E1|done|by rewrite E1|done|done]. subst b. unfold transfer_payments in H2.
  cbn [amount] in H2. change (budget_after t (sbd_balance (sbd a))) with budget in H2.
  destruct (Z.eqb_spec budget 0); [injection H2 as <-; left; auto|].
  apply bind_Ok in H2 as (? & _ & H2). right. rewrite <- (ratio_value head s1 t); [done|by rewrite E1|done].
Qed.

(** C12: in a maintenance period (once per hour) the treasury pays the active proposals in the order of
    their votes.  The votes of a proposal are the voting power of the accounts
    that vote for it without a proxy.  Proposals are paid from the most votes
    down (equal votes: the older one first) until one has no votes or the budget
    is used up: each gets the share of its daily pay for the time that has
    passed, the last one what is left.  The budget is a hundredth of the
    treasury per day; nobody is paid more than its daily pay for the time that
    has passed, and all together not more than the budget.  The share is computed
    with 32 bits: it is that of the time [t] that has passed when [t] is less than
    429497 seconds (five days), and what is left of it modulo 2^32 otherwise.
    Assumed: proposals ask for SBD, the treasury account exists, its fund and the
    budget fit 63 bits, and [t] is not negative. *)
Theorem proposals_paid_by_votes head s s' a t :
  dao_ok s → accounts (dcore s) !! freezone_TREASURY_ACCOUNT = Some a → 0 <= sbd_balance (sbd a) < 2 ^ 63 →
  head - last_budget_time s = t → 0 <= t < 2 ^ 32 → budget_after t (sbd_balance (sbd a)) < 2 ^ 63 →
  is_maintenance_period head s = true → make_payments head s = Ok s' →
  let votes := λ id, u64 (approval s id) in
  let budget := budget_after t (sbd_balance (sbd a)) in
  ∃ ids pays,
    ids ≡ₚ find_active_proposals head s ∧ StronglySorted (more_votes votes) ids
    ∧ paid (ratio_after t) budget votes (proposals s) ids pays
    ∧ res_fold treasury_pays (dcore s) pays = Ok (dcore s')
    ∧ budget * (100 * daily_seconds) <= sbd_balance (sbd a) * t
    ∧ (∀ p, pay_ok p → quota (ratio_after t) p * daily_seconds <= amount (daily_pay p) * t)
    ∧ (t < 429497 → ratio_after t = t * freezone_100_PERCENT / daily_seconds)
    ∧ s' = update_settings head (set_dcore (dcore s') (set_proposals (map_imap (λ id p, Some (with_totals (find_active_proposals head s) s id p))) s)).
Proof.
  intros [_ _ Hpay] Ha Hf Ht Hb Hfit Hm H votes budget.
  destruct (budget_bound t (sbd_balance (sbd a))) as [Hb0 Hbudget]; [lia|lia|].
  pose proof (λ p, quota_bound t p (proj1 Hb)) as Hquota.
  pose proof (λ H, ratio_exact t (conj (proj1 Hb) H)) as Hexact.
  set (active := find_active_proposals head s) in *.
  assert (∀ m, (∀ id, m !! id = with_totals active s id <$> proposals s !! id) →
            m = map_imap (λ id p, Some (with_totals active s id p)) (proposals s)) as Hmap.
  { intros m Hx. apply map_eq. intros id. rewrite map_lookup_imap, Hx. by destruct (proposals s !! id). }
  destruct (make_payments_parts head s s' a t Ha Hf Ht Hb Hfit Hm H) as (s1 & s2 & H1 & -> & H2). fold active budget in H1, H2.
  clear H. destruct (calculate_votes_value _ _ _ H1) as [E1 Ep].
  assert (∀ id, id ∈ active → from_option total_votes 0 (proposals s1 !! id) = votes id) as Hvotes.
  { intros id Hid. rewrite Ep. apply active_present in Hid as Hp. destruct Hp as (p & -> & _). cbn. unfold with_totals. by rewrite decide_True. }
  exists (sort_by_votes active s1).
  assert (sort_by_votes active s1 ≡ₚ active) as Hperm by apply merge_sort_Permutation.
  assert (StronglySorted (more_votes votes) (sort_by_votes active s1)) as Hsort.
  { eapply sorted_weaken; [|apply (StronglySorted_merge_sort (by_votes s1))]. intros x y Hx Hy.
    rewrite Hperm in Hx, Hy. unfold by_votes, more_votes. by rewrite !Hvotes. }
  rewrite (Hmap _ Ep : proposals s1 = _) in E1. change (set_proposals (λ _, map_imap _ _) s)
    with (set_proposals (map_imap (λ id p, Some (with_totals active s id p))) s) in E1. rewrite <- E1.
  assert (∀ x, set_dcore (dcore x) x = x) as Hsame by (by intros [[] ? ? ? ? ? ? ?]).
  assert (dcore s1 = dcore s) as Ed by (by rewrite E1).
  destruct H2 as [[-> Hnone]|H2].
  - exists []. split_and!; try done; [|by rewrite <- Ed|symmetry; f_equal; apply (Hsame s2)].
    apply paid_nil; [done|]. intros id Hid. destruct Hnone as [E|E]; [|by right].
    apply list_elem_of_lookup_2 in Hid. rewrite Hperm, E in Hid. by apply not_elem_of_nil in Hid.
  - apply pay_loop_paid in H2 as (E2 & pays & Hpaid & Hfold); [| | |done].
    + exists pays. split_and!; try done; [|by rewrite <- Ed|by rewrite E2 at 1]. destruct Hpaid as [He Htot Hend]. split; [|done|].
      * intros i n x Hi. apply He in Hi as (id & p & Hid & Hp & -> & Hv & ->). rewrite Ep in Hp. apply fmap_Some in Hp as (q & Hq & ->).
        assert (id ∈ active) as Hin by (rewrite <- Hperm; by eapply list_elem_of_lookup_2).
        rewrite Hvotes in Hv by done. exists id, q. unfold with_totals. rewrite decide_True by done. done.
      * intros id Hid. rewrite <- (Hvotes id); [by apply Hend|]. rewrite <- Hperm. by eapply list_elem_of_lookup_2.
    + destruct (u32_below (t * freezone_100_PERCENT)) as [[? _] ?]; [unfold freezone_100_PERCENT; lia|].
      unfold ratio_after, daily_seconds. Z.div_mod_to_equations. lia.
    + intros id p Hp. rewrite Ep in Hp. apply fmap_Some in Hp as (q & Hq%Hpay & ->). unfold with_totals. by case_decide.
Qed.

(** ** The system as a whole *)

Lemma erase_votes_prefix l r v :
  ∃ k, (erase_votes l r v).1.2 = v ∖ list_to_set (take k l) ∧ ((erase_votes l r v).2 = false → take k l = l).
Proof.
  revert r v. induction l as [|x l IH]; intros r v; cbn [erase_votes].
  { exists 0%nat. split; [cbn; set_solver|done]. }
  destruct (stop _); [exists 0%nat; split; [cbn; set_solver|done]|].
  destruct (IH (checker r) (v ∖ {[x]})) as (k & -> & Hk). exists (S k). split; [cbn; set_solver|]. intros E%Hk. cbn. by rewrite E.
Qed.

Lemma remove_proposal_from id r s : removed_from [id] s (remove_proposal id (r, s)).2.
Proof.
  unfold remove_proposal. cbn [fst snd]. destruct (erase_votes_prefix (pair id <$> voters_of id s) r (proposal_votes s)) as (k & Ev & Hk).
  destruct (erase_votes _ _ _) as [[r1 v1] stopped]. cbn [fst snd] in *. subst v1.
  rewrite <- fmap_take in *. destruct stopped; [apply (removed_votes id)|]. destruct (stop _); [apply (removed_votes id)|].
  rewrite Hk by done. apply removed_whole.
Qed.

Lemma remove_ended_from ids r s : removed_from ids s (remove_ended ids (r, s)).
Proof.
  revert r s. induction ids as [|id ids IH]; intros r s; cbn [remove_ended]; [apply removed_refl|].
  pose proof (remove_proposal_from id r s) as H1. destruct (remove_proposal id (r, s)) as [r1 s1]. cbn [fst snd] in *.
  destruct (stop r1); [eapply removed_weaken, H1; set_solver|].
  eapply removed_trans; eapply removed_weaken; [|exact H1| |apply IH]; set_solver.
Qed.

Lemma remove_owned_from owner ids r s s' : remove_owned owner ids (r, s) = Ok s' → removed_from ids s s'.
Proof.
  revert r s. induction ids as [|id ids IH]; intros r s H; cbn [remove_owned snd] in H; [injection H as <-; apply removed_refl|].
  destruct (proposals s !! id); [|eapply removed_weaken, IH, H; set_solver].
  apply bind_Ok in H as (? & _ & H). pose proof (remove_proposal_from id r s) as H1.
  destruct (remove_proposal id (r, s)) as [r1 s1]. cbn [fst snd] in *.
  destruct (stop r1); [injection H as <-; eapply removed_weaken, H1; set_solver|].
  eapply removed_trans; eapply removed_weaken; [|exact H1| |eapply IH, H]; set_solver.
Qed.

Lemma removed_ok ids s s' : removed_from ids s s' → dao_ok s → dao_ok s'.
Proof.
  intros H [Hv Hi Hp]. split.
  - intros id n Hn. destruct (proposals s' !! id) eqn:E; [done|]. exfalso. pose proof (rf_votes _ _ _ H _ Hn) as Hn'.
    apply Hv in Hn'. apply (not_elem_of_nil n). rewrite <- (rf_with_votes _ _ _ H id); [by apply elem_of_voters|done|done].
  - intros id [p Hp'%(rf_kept _ _ _ H)]. rewrite (rf_frame _ _ _ H). apply Hi. eauto.
  - intros id p Hp'%(rf_kept _ _ _ H). eauto.
Qed.

(** The proposals change, but neither their keys nor what they ask for. *)
Lemma same_keys_ok m s :
  (∀ id, match proposals s !! id with
         | Some p => ∃ q, m !! id = Some q ∧ daily_pay q = daily_pay p
         | None => m !! id = None
         end) → dao_ok s → dao_ok (set_proposals (λ _, m) s).
Proof.
  intros Hm [Hv Hi Hp]. split; cbn.
  - intros id n [p E]%Hv. specialize (Hm id). rewrite E in Hm. destruct Hm as (q & -> & _). eauto.
  - intros id [q E]. apply Hi. specialize (Hm id). destruct (proposals s !! id); [eauto|congruence].
  - intros id q E. specialize (Hm id). destruct (proposals s !! id) as [p|] eqn:Ep; [|congruence].
    destruct Hm as (q' & E' & Ed). assert (q' = q) as -> by congruence. apply Hp in Ep. unfold pay_ok in *. by rewrite Ed.
Qed.

(** Ids are not used again: a proposal with an id that was given before was there
    before, with the same terms (its end and its votes may have changed). *)
Definition same_terms (p q : proposal) : Prop :=
  pr_creator q = pr_creator p ∧ pr_receiver q = pr_receiver p ∧ start_date q = start_date p ∧ daily_pay q = daily_pay p
  ∧ subject q = subject p ∧ pr_permlink q = pr_permlink p.

Record carried (s s' : dao) : Prop := Carried {
  ca_next : next_proposal_id s <= next_proposal_id s';
  ca_same : ∀ id q, proposals s' !! id = Some q → id < next_proposal_id s → ∃ p, proposals s !! id = Some p ∧ same_terms p q
}.

#[local] Instance same_terms_refl : Reflexive same_terms.
Proof. done. Qed.
#[local] Instance carried_refl : Reflexive carried.
Proof. intros s. split; [done|]. intros id p Hp _. by exists p. Qed.
#[local] Instance carried_trans : Transitive carried.
Proof.
  intros s1 s2 s3 [N1 C1] [N2 C2]. split; [lia|]. intros id q Hq Hid. destruct (C2 id q Hq) as (p2 & Hp2 & E2); [lia|].
  destruct (C1 id p2 Hp2 Hid) as (p1 & Hp1 & E1). exists p1. split; [done|]. unfold same_terms in *. naive_solver congruence.
Qed.

Lemma removed_carried ids s s' : removed_from ids s s' → carried s s'.
Proof.
  intros H. split; [by rewrite (rf_frame _ _ _ H)|]. intros id q Hq%(rf_kept _ _ _ H) _. by exists q.
Qed.

(** Terms that stay, in a table of proposals that is rewritten. *)
Lemma carried_rewrite s s' :
  next_proposal_id s' = next_proposal_id s →
  (∀ id q, proposals s' !! id = Some q → ∃ p, proposals s !! id = Some p ∧ same_terms p q) → carried s s'.
Proof. intros E H. split; [lia|]. eauto. Qed.

Lemma mark_removed_carried s id : carried s (mark_removed s id).
Proof.
  unfold mark_removed. destruct (proposals s !! id) as [p|] eqn:E; [|done]. destruct (removed p); [done|].
  apply carried_rewrite; [done|]. cbn. intros i q Hq. destruct (decide (i = id)) as [->|Hne].
  - rewrite lookup_insert_eq in Hq. injection Hq as <-. by exists p.
  - rewrite lookup_insert_ne in Hq by done. by exists q.
Qed.

Lemma update_vote_carried voter b s id : carried s (update_vote voter b s id).
Proof.
  unfold update_vote. destruct (proposals s !! id); [|done]. destruct (removed _); [done|].
  apply carried_rewrite; [done|]. intros i q Hq. by exists q.
Qed.

Lemma foldl_carried {A} (f : dao → A → dao) l s : (∀ s x, carried s (f s x)) → carried s (foldl f s l).
Proof. intros Hf. revert s. induction l as [|x l IH]; intros s; [done|]. cbn [foldl]. etrans; [apply Hf|apply IH]. Qed.

Lemma mark_removed_ok s id : dao_ok s → dao_ok (mark_removed s id) ∧ dcore (mark_removed s id) = dcore s.
Proof.
  unfold mark_removed. intros H. destruct (proposals s !! id) as [p|] eqn:E; [|done]. destruct (removed p); [done|]. split; [|done].
  apply (same_keys_ok (<[id := as_removed (now (dcore s)) p]> (proposals s))); [|done]. intros i. destruct (decide (i = id)) as [->|].
  - rewrite E, lookup_insert_eq. by eexists.
  - rewrite lookup_insert_ne by done. destruct (proposals s !! i); [by eexists|done].
Qed.

Lemma mark_all_ok l s : dao_ok s → dao_ok (foldl mark_removed s l) ∧ dcore (foldl mark_removed s l) = dcore s.
Proof.
  revert s. induction l as [|id l IH]; intros s H; [done|]. cbn [foldl]. apply (mark_removed_ok s id) in H as [H E].
  apply IH in H as [H E']. split; [done|congruence].
Qed.

Lemma update_votes_ok voter b l s :
  dao_ok s → dao_ok (foldl (update_vote voter b) s l) ∧ dcore (foldl (update_vote voter b) s l) = dcore s.
Proof.
  revert s. induction l as [|id l IH]; intros s H; [done|]. cbn [foldl].
  assert (dao_ok (update_vote voter b s id) ∧ dcore (update_vote voter b s id) = dcore s) as [H1 E1].
  { unfold update_vote. destruct (proposals s !! id) as [p|] eqn:E; [|done]. destruct (removed p); [done|]. split; [|done].
    destruct H as [Hv Hi Hp]. split; [|exact Hi|exact Hp]. cbn. intros i n Hn. destruct b; [|set_solver].
    apply elem_of_union in Hn as [Hn|[= -> ->]%elem_of_singleton]; [eauto|by rewrite E]. }
  apply IH in H1 as [H2 E2]. split; [done|congruence].
Qed.

Lemma gap_pay sym p x s s' : pay_proposal p x s = Ok s' → s' = set_dcore (dcore s') s ∧ gap sym (dcore s') = gap sym (dcore s).
Proof.
  unfold pay_proposal. intros H. apply bind_Ok in H as (? & _ & H). apply bind_Ok in H as (n & Hn & H). apply (amount_of_neg sym) in Hn.
  apply bind_Ok in H as (d & Hd & H). apply bind_Ok in H as (d' & Hd' & H). injection H as <-. split; [done|]. cbn.
  apply (gap_adjust_balance sym) in Hd, Hd'. change (dcore (set_dcore d' s)) with d'. lia.
Qed.

Lemma gap_pay_loop sym ratio ids b s s' :
  pay_loop ratio ids b s = Ok s' → s' = set_dcore (dcore s') s ∧ gap sym (dcore s') = gap sym (dcore s).
Proof.
  assert (∀ x, set_dcore (dcore x) x = x) as Hsame by (by intros [[] ? ? ? ? ? ? ?]).
  revert b s. induction ids as [|id ids IH]; intros b s H; cbn [pay_loop] in H; [by injection H as <-|].
  apply bind_Ok in H as (p & _ & H). destruct (_ =? 0); [by injection H as <-|]. apply bind_Ok in H as (x & _ & H).
  apply bind_Ok in H as ([] & _ & H); [by eapply gap_pay|]. apply bind_Ok in H as (s1 & [E1 G1]%(gap_pay sym) & H).
  apply bind_Ok in H as (b1 & _ & H). apply IH in H as [E G]. split; [by rewrite E, E1|congruence].
Qed.

Lemma make_payments_keeps sym head s s' :
  dao_ok s → make_payments head s = Ok s' → dao_ok s' ∧ gap sym (dcore s') = gap sym (dcore s) ∧ carried s s'.
Proof.
  intros Hok H. unfold make_payments in H. destruct (is_maintenance_period head s); cbn [negb] in H; [|by injection H as <-].
  assert (∀ x, dao_ok x → dao_ok (update_settings head x)) as Hset by (by intros x []).
  assert (∀ x, carried x (update_settings head x)) as Hcar by (intros x; split; [done|]; intros id p Hp _; by exists p).
  destruct (find_active_proposals head s) as [|id l]; [injection H as <-; auto|].
  apply bind_Ok in H as (s1 & [E1 Ep]%calculate_votes_value & H). apply bind_Ok in H as (b & _ & H).
  apply bind_Ok in H as (s2 & H2 & H). injection H as <-.
  assert (dao_ok s1) as Hok1.
  { rewrite E1. apply same_keys_ok; [|done]. intros i. rewrite Ep. destruct (proposals s !! i) as [p|]; [|done].
    eexists. split; [done|]. unfold with_totals. by case_decide. }
  assert (dcore s1 = dcore s) as Ed by (by rewrite E1).
  assert (s2 = set_dcore (dcore s2) s1 ∧ gap sym (dcore s2) = gap sym (dcore s1)) as [E2 G].
  { unfold transfer_payments in H2. destruct (_ =? 0); [injection H2 as <-; split; [by destruct s1 as [[] ? ? ? ? ? ? ?]|done]|].
    apply bind_Ok in H2 as (? & _ & H2). by eapply gap_pay_loop. }
  split_and!; [|by rewrite <- Ed|].
  - apply Hset. rewrite E2. by destruct Hok1.
  - etrans; [|apply Hcar]. rewrite E2, E1. apply carried_rewrite; [done|]. cbn. intros i q. rewrite Ep.
    intros (p & -> & ->)%fmap_Some. exists p. split; [done|]. unfold with_totals. by case_decide.
Qed.

Inductive dao_event : Type :=
| Create_proposal (o : create_proposal_operation)
| Vote_proposals (o : update_proposal_votes_operation)
| Remove_proposals (o : remove_proposal_operation)
| Proposal_block (head_time : Z).

(** Operations are validated and applied; a block runs the processor.  Amounts
    of operations have 64 bits. *)
Definition run_dao (is_utf8 : string → bool) (s : dao) (e : dao_event) : res dao :=
  match e with
  | Create_proposal o =>
      if decide (in_s 64 (amount (cp_daily_pay o)))
      then _ ← create_proposal_validate is_utf8 o; create_proposal_apply o s else Throw overflow_exception
  | Vote_proposals o => _ ← update_proposal_votes_validate o; update_proposal_votes_apply o s
  | Remove_proposals o => _ ← remove_proposal_validate o; remove_proposal_apply o s
  | Proposal_block t => process_proposals t s
  end.

Lemma create_keeps u sym o s s' :
  in_s 64 (amount (cp_daily_pay o)) → create_proposal_validate u o = Ok tt → dao_ok s → create_proposal_apply o s = Ok s' →
  dao_ok s' ∧ gap sym (dcore s') = gap sym (dcore s) ∧ carried s s'.
Proof.
  intros Ha Hval [Hv Hi Hp] H.
  assert (pay_ok (Proposal (cp_creator o) (cp_receiver o) (cp_start_date o) (cp_end_date o) (cp_daily_pay o) (cp_subject o) (cp_permlink o) 0 false)) as Hpay.
  { unfold create_proposal_validate in Hval. do 3 apply bind_Ok in Hval as (? & _ & Hval).
    apply bind_Ok in Hval as (? & H0%fc_assert_Ok & Hval). apply bind_Ok in Hval as (? & H1%fc_assert_Ok & _). bools.
    unfold in_s in Ha. cbn in Ha. split; cbn; lia. }
  unfold create_proposal_apply in H. do 6 apply bind_Ok in H as (? & _ & H). cbv zeta in H.
  apply bind_Ok in H as (fee & Hf%(amount_of_neg sym) & H). apply bind_Ok in H as (d & Hd%(gap_adjust_balance sym) & H).
  apply bind_Ok in H as (d' & Hd'%(gap_adjust_balance sym) & H). injection H as <-. split_and!.
  - split; cbn.
    + intros id n [p E]%Hv. destruct (decide (id = next_proposal_id s)) as [->|]; [rewrite lookup_insert_eq; eauto|].
      rewrite lookup_insert_ne; eauto.
    + intros id [p E]. destruct (decide (id = next_proposal_id s)) as [->|]; [lia|]. rewrite lookup_insert_ne in E by done.
      assert (id < next_proposal_id s) by eauto. lia.
    + intros id p E. destruct (decide (id = next_proposal_id s)) as [->|].
      * rewrite lookup_insert_eq in E. injection E as <-. done.
      * rewrite lookup_insert_ne in E by done. eauto.
  - change (gap sym d' = gap sym (dcore s)). unfold dcore in *. cbn [ds] in Hd. lia.
  - split; cbn; [lia|]. intros id q Hq Hid. rewrite lookup_insert_ne in Hq by lia. by exists q.
Qed.

Lemma run_dao_keeps sym u s e s' :
  dao_ok s → run_dao u s e = Ok s' → dao_ok s' ∧ gap sym (dcore s') = gap sym (dcore s) ∧ carried s s'.
Proof.
  intros Hx H. destruct e as [o|o|o|t]; cbn [run_dao] in H.
  - case_decide; [|done]. apply bind_Ok in H as ([] & Hval & H). by eapply create_keeps.
  - apply bind_Ok in H as (? & _ & H). apply bind_Ok in H as (? & _ & H). injection H as <-.
    destruct (update_votes_ok (uv_voter o) (uv_approve o) (ascending (uv_proposal_ids o)) s Hx) as [? E]. rewrite E.
    split_and!; [done|done|]. apply foldl_carried, update_vote_carried.
  - apply bind_Ok in H as (? & _ & H). apply bind_Ok in H as (? & _ & H). apply bind_Ok in H as (z & H1%remove_owned_from & H).
    injection H as <-. destruct (mark_all_ok (ascending (rp_proposal_ids o)) z (removed_ok _ _ _ H1 Hx)) as [? E].
    split_and!; [done|by rewrite E, (rf_frame _ _ _ H1)|].
    etrans; [by eapply removed_carried|]. apply foldl_carried, mark_removed_carried.
  - unfold process_proposals in H. destruct (has_hardfork _ _); [|by injection H as <-].
    pose proof (remove_ended_from (ended t s) (Reducer (sps_remove_threshold s) 0 false) s) as H1.
    fold (remove_old_proposals t s) in H1. set (x1 := remove_old_proposals t s) in *.
    assert (dao_ok (record_funding t x1) ∧ dcore (record_funding t x1) = dcore x1 ∧ carried x1 (record_funding t x1)) as (Hok2 & E2 & C2).
    { apply removed_ok in H1; [|done]. unfold record_funding. destruct (negb _); [done|]. destruct (_ <=? 0); [done|].
      split_and!; [by destruct H1|done|]. split; [done|]. intros id p Hp _. by exists p. }
    eapply (make_payments_keeps sym) in H as (Hok' & G & C); [|done]. rewrite E2, (rf_frame _ _ _ H1) in G.
    split_and!; [done|done|]. etrans; [by eapply removed_carried|]. by etrans.
Qed.

(** C14: the proposal system keeps its books.  Whatever sequence of operations and
    blocks succeeds from a state with consistent tables, no money is created or
    lost by creating, paying and removing proposals, every vote is for a proposal that exists, also when a removal
    stopped half way, and every proposal asks for a non-negative amount of SBD.
    Ids are not used again: the next id never goes back, and a proposal with an
    id below the next id of the beginning is the one that had this id then, with
    the same creator, receiver, start, daily pay, subject and permlink. *)
Theorem proposals_keep_books u l s s' :
  dao_ok s → res_fold (run_dao u) s l = Ok s' →
  dao_ok s' ∧ (∀ sym, gap sym (dcore s') = gap sym (dcore s)) ∧ carried s s'.
Proof.
  intros Hok H. assert (∀ sym, dao_ok s' ∧ gap sym (dcore s') = gap sym (dcore s) ∧ carried s s') as Hall.
  2: { split_and!; [apply (Hall SBD_SYMBOL)|apply Hall|apply (Hall SBD_SYMBOL)]. }
  intros sym. revert H. apply (res_fold_ind (λ x, dao_ok x ∧ gap sym (dcore x) = gap sym (dcore s) ∧ carried s x)); [done|].
  intros x e y _ (Hx & Gx & Cx) H. apply (run_dao_keeps sym) in H as (Hy & Gy & Cy); [|done].
  split_and!; [done|congruence|by etrans].
Qed.

(** ** A treasury and three proposals *)

Definition citizen (usd shares : Z) : account :=
  Account 0 0 (SbdAccount usd (U128 0 0) 100000000 100000000) (SbdAccount 0 (U128 0 0) 0 0) 0 0 0 0 0
    (ManaAccount shares 0 0 time_point_sec_maximum 0 0 0 (Manabar 0 0) (Manabar 0 0)) 0 "" [0; 0; 0; 0] 0 true.

Definition dao_db : db :=
  DB {[ "alice" := citizen 50000 100; "bob" := citizen 50000 300; "carol" := citizen 0 0;
        freezone_TREASURY_ACCOUNT := citizen 100000000 0 ]}
    ∅ ∅ ∅ ∅ ∅ ∅ ∅ ∅ ∅ {[0 := 70]} (Staking ∅ ∅ (U128 0 0) ∅ ∅ ∅ 3000) 0
    (GPO 1000 100000000 1170 100100000 0 1170 100 400 0 0 0 1000 10000 10 432000 2500) null_price 23.

Definition dao_social : social :=
  Social dao_db ∅ ∅ ∅ {[ ("alice", "plan") := 0; ("bob", "plan") := 1; ("carol", "plan") := 2 ]} ∅ ∅ ∅ ∅ ∅ ∅ ∅ 0 (U128 0 0) 3 false false.

Definition sample_proposal (who : name) (last : Z) (pay : Z) : proposal :=
  Proposal who who 99000000 last (Asset pay SBD_SYMBOL) "work" "plan" 0 false.

(** Two proposals with votes, one without, and a threshold of two. *)
Definition sample_dao (limit last : Z) : dao :=
  Dao dao_social
    {[ 0 := sample_proposal "alice" last 1000000; 1 := sample_proposal "bob" last 240000; 2 := sample_proposal "carol" last 240000 ]}
    {[ (0, "alice"); (0, "carol"); (1, "bob") ]} 3 0 100000000 99996400 limit.

Lemma sample_dao_ok limit last : dao_ok (sample_dao limit last).
Proof.
  split.
  - intros id n Hn. cbn in Hn. rewrite !elem_of_union, !elem_of_singleton in Hn.
    destruct Hn as [[[= -> ->]|[= -> ->]]|[= -> ->]]; by eexists.
  - intros id [p Hp]. cbn in Hp. rewrite !lookup_insert_Some, lookup_singleton_Some in Hp. cbn. naive_solver lia.
  - intros id p Hp. cbn in Hp. rewrite !lookup_insert_Some, lookup_singleton_Some in Hp.
    assert (daily_pay p = Asset 1000000 SBD_SYMBOL ∨ daily_pay p = Asset 240000 SBD_SYMBOL) as Hd by naive_solver.
    unfold pay_ok. destruct Hd as [-> | ->]; cbn; lia.
Qed.

(** Six objects have ended; a block removes two of them. *)
Lemma ended_proposals_removed_witness :
  unremoved 100000000 (sample_dao 2 99000001) = 6
  ∧ unremoved 100000000 (remove_old_proposals 100000000 (sample_dao 2 99000001)) = 4
  ∧ proposals (Nat.iter 3 (remove_old_proposals 100000000) (sample_dao 2 99000001)) !! 0 = None.
Proof.
  split; [vm_compute; reflexivity|]. split.
  - destruct (ended_proposals_removed 1 100000000 (sample_dao 2 99000001)) as (_ & H & _); [reflexivity|lia|].
    etransitivity; [apply H; vm_compute; discriminate|]. vm_compute. reflexivity.
  - destruct (ended_proposals_removed 3 100000000 (sample_dao 2 99000001)) as (_ & _ & H); [reflexivity|lia|].
    apply H; [right; vm_compute; discriminate|]. apply elem_of_ended. eexists. split; [reflexivity|]. vm_compute. discriminate.
Defined.

(** Alice removes a proposal of hers that has two votes, and with it the
    proposal of Bob. *)
Lemma remove_proposal_owner_check_witness :
  remove_proposal_apply (RemoveProposal "alice" {[0; 1]}) (sample_dao (-1) 200000000) = Throw assert_exception
  ∧ ∃ s', remove_proposal_apply (RemoveProposal "alice" {[0; 1]}) (sample_dao 2 200000000) = Ok s'
      ∧ proposals s' !! 1 = Some (as_removed 100000000 (sample_proposal "bob" 200000000 240000))
      ∧ 1 ∉ find_active_proposals 100000000 s'.
Proof.
  split.
  - destruct (remove_proposal_owner_check "alice" (sample_dao (-1) 200000000)) as [H _]; [reflexivity|].
    destruct (H ltac:(reflexivity) {[0; 1]}) as [H1 _].
    apply (H1 1 (sample_proposal "bob" 200000000 240000)); [set_solver|reflexivity|discriminate].
  - destruct (remove_proposal_owner_check "alice" (sample_dao 2 200000000)) as [_ H]; [reflexivity|].
    destruct (H ltac:(vm_compute; split; [discriminate|reflexivity]) 0 1 (sample_proposal "alice" 200000000 1000000) (sample_proposal "bob" 200000000 240000))
      as (s' & E & Hp & Ha); [reflexivity..|vm_compute; discriminate|vm_compute; split; [discriminate|reflexivity]|].
    exists s'. split; [exact E|]. split; [exact Hp|]. apply (Ha 100000000). vm_compute. discriminate.
Defined.

(** An hour later the budget is 41.666 SBD: Bob, with more votes, is paid his
    quota, Alice the rest. *)
Definition paid_dao : dao := value_of (sample_dao 2 200000000) (make_payments 100000000 (sample_dao 2 200000000)).
Lemma paid_dao_ok : make_payments 100000000 (sample_dao 2 200000000) = Ok paid_dao.
Proof. apply value_of_Ok. vm_compute. reflexivity. Qed.

Lemma proposals_paid_by_votes_witness :
  budget_after 3600 100000000 = 41666
  ∧ ∃ ids pays, ids ≡ₚ find_active_proposals 100000000 (sample_dao 2 200000000) ∧ zsum pays.*2 <= 41666
      ∧ res_fold treasury_pays dao_db pays = Ok (dcore paid_dao).
Proof.
  split; [reflexivity|].
  destruct (proposals_paid_by_votes 100000000 (sample_dao 2 200000000) paid_dao (citizen 100000000 0) 3600)
    as (ids & pays & Hp & _ & Hpaid & Hf & _);
    [apply sample_dao_ok|reflexivity|vm_compute; split; [discriminate|reflexivity]|reflexivity|lia|vm_compute; reflexivity|reflexivity|exact paid_dao_ok|].
  exists ids, pays. split; [exact Hp|]. split; [exact (pd_total _ _ _ _ _ _ Hpaid)|exact Hf].
Defined.

Example paid_dao_balances :
  (λ n, sbd_balance ∘ sbd <$> accounts (dcore paid_dao) !! n) <$> ["alice"; "bob"; "carol"; freezone_TREASURY_ACCOUNT]
  = [Some (50000 + 31682); Some (50000 + 9984); Some 0; Some (100000000 - 41666)].
Proof. vm_compute. reflexivity. Qed.

Definition dao_events : list dao_event :=
  [ Create_proposal (CreateProposal "bob" "alice" 99000000 150000000 (Asset 1000 SBD_SYMBOL) "more" "plan");
    Vote_proposals (UpdateProposalVotes "bob" {[3; 2]} true);
    Proposal_block 100000000;
    Remove_proposals (RemoveProposal "alice" {[0]});
    Proposal_block 100003600 ].

Definition dao_run : dao := value_of (sample_dao 2 200000000) (res_fold (run_dao (λ _, true)) (sample_dao 2 200000000) dao_events).
Lemma dao_run_ok : res_fold (run_dao (λ _, true)) (sample_dao 2 200000000) dao_events = Ok dao_run.
Proof. apply value_of_Ok. vm_compute. reflexivity. Qed.

Lemma proposals_keep_books_witness :
  dao_ok dao_run ∧ gap SBD_SYMBOL (dcore dao_run) = gap SBD_SYMBOL dao_db ∧ 3 <= next_proposal_id dao_run.
Proof.
  destruct (proposals_keep_books (λ _, true) dao_events (sample_dao 2 200000000) dao_run) as (Hok & Hg & Hc);
    [apply sample_dao_ok|exact dao_run_ok|].
  split; [exact Hok|]. split; [rewrite Hg; reflexivity|]. exact (ca_next _ _ Hc).
Defined.
