(* ===== verification/Witnesses.v ===== *)
(** * What witnesses publish

    protocol/steem_operations.cpp ([validate]) and chain/steem_evaluator.cpp: the
    evaluators of witness_update, witness_set_properties and feed_publish, with
    which a witness registers, and votes on the properties of the chain and on
    the price of SBD.  The witness table is that of WitnessSchedule.v and
    Funds.v, which take medians of what is published here.

    The properties of witness_set_properties are a map from names to packed
    values; the operation has the values as fc::raw unpacks them, [None] when a
    name is absent. *)

From S2P Require Import Prelude Config AccountName Uint128 SafeInt AssetSymbol Asset Manabar ResourceDynamics MapSum State Ledger Votes WitnessSchedule Rounds Slots Funds.
From stdpp Require Import gmap strings sorting.
#[local] Open Scope Z_scope.

Definition freezone_MIN_ACCOUNT_CREATION_FEE : Z := 1.
Definition freezone_MIN_BLOCK_SIZE_LIMIT : Z := 1024 * 64.
Definition freezone_SOFT_MAX_BLOCK_SIZE : Z := 2 * 1024 * 1024.
Definition freezone_MAX_WITNESS_URL_LENGTH : Z := 2048.
Definition freezone_DEFAULT_ACCOUNT_SUBSIDY_BUDGET : Z := 797.
Definition freezone_DEFAULT_ACCOUNT_SUBSIDY_DECAY : Z := 347321.
Definition freezone_GENESIS_TIME : Z := 1458835200.

(** ** The state *)

(** The funds with the members of witnesses that only this code uses (url and
    time of creation), and the next id of the witness table. *)
Record roster : Type := Roster {
  rfunds : funds;
  urls : gmap name (string * Z);
  next_witness_id : Z;
  producing : bool                      (* database::is_producing *)
}.

Definition wdb (r : roster) : db := fdb (rfunds r).
Definition winfos (r : roster) : gmap name witness_info := infos (fs (rfunds r)).
Definition whf (h : Z) (r : roster) : bool := has_hardfork h (wdb r).

Definition set_rfunds (f : funds) (r : roster) : roster := Roster f (urls r) (next_witness_id r) (producing r).
Definition set_urls f (r : roster) : roster := Roster (rfunds r) (f (urls r)) (next_witness_id r) (producing r).
Definition put_info (n : name) (i : witness_info) (r : roster) : roster :=
  set_rfunds (set_fs (set_infos <[n := i]> (fs (rfunds r))) (rfunds r)) r.
Definition put_feed (n : name) (x : feed) (r : roster) : roster :=
  let f := rfunds r in
  set_rfunds (Funds (fs f) (current_witness f) (content_reward_percent f) (vesting_reward_percent f) (sps_fund_percent f)
    (sps_interval_ledger f) (sbd_start_percent f) (sbd_stop_percent f) (available_account_subsidies f) (percent_content_rewards f)
    (price_history f) (<[n := x]> (feeds f))) r.

Definition set_key_props (key : Z) (p : chain_properties) (w : witness_info) : witness_info :=
  WitnessInfo (wi_id w) (pow_worker w) key p (schedule w) (running_version w) (hardfork_version_vote w)
    (hardfork_time_vote w) (available_witness_account_subsidies w) (last_confirmed_block_num w) (last_aslot w) (total_missed w).

(** ** witness_update *)

Record legacy_chain_properties : Type := LegacyProps {
  lp_account_creation_fee : Z;      (* share_type *)
  lp_canon : bool;                  (* the symbol is serialized canonically *)
  lp_maximum_block_size : Z;        (* uint32_t *)
  lp_sbd_interest_rate : Z          (* uint16_t *)
}.

Definition legacy_validate (force_canon : bool) (p : legacy_chain_properties) : res unit :=
  _ ← (if force_canon then fc_assert (lp_canon p) else mret tt);
  _ ← fc_assert (freezone_MIN_ACCOUNT_CREATION_FEE <=? lp_account_creation_fee p);
  _ ← fc_assert (freezone_MIN_BLOCK_SIZE_LIMIT <=? lp_maximum_block_size p);
  _ ← fc_assert (0 <=? lp_sbd_interest_rate p);
  fc_assert (lp_sbd_interest_rate p <=? freezone_100_PERCENT).

Definition copy_legacy_chain_properties (force_canon : bool) (dest : chain_properties) (src : legacy_chain_properties) : res chain_properties :=
  _ ← (if force_canon then fc_assert (lp_canon src) else mret tt);
  mret (ChainProperties (lp_account_creation_fee src) (lp_maximum_block_size src) (lp_sbd_interest_rate src)
          (cp_account_subsidy_budget dest) (cp_account_subsidy_decay dest)).

(** The members of a new object. *)
Definition default_props : chain_properties :=
  ChainProperties freezone_MIN_ACCOUNT_CREATION_FEE (freezone_MIN_BLOCK_SIZE_LIMIT * 2) (10 * freezone_1_PERCENT)
    freezone_DEFAULT_ACCOUNT_SUBSIDY_BUDGET freezone_DEFAULT_ACCOUNT_SUBSIDY_DECAY.
Definition new_witness : witness := Witness 0 uint128_zero uint128_zero (U128 uint64_max uint64_max).
Definition new_info (id key : Z) (p : chain_properties) : witness_info :=
  WitnessInfo id 0 key p none 0 0 freezone_GENESIS_TIME 0 0 0 0.

Definition create_witness (n : name) (key : Z) (p : chain_properties) (url : string) (r : roster) : roster :=
  let id := next_witness_id r in
  let s := fs (rfunds r) in
  let s := set_infos <[n := new_info id key p]> (set_base (set_witnesses <[n := new_witness]> (base s)) s) in
  let r := put_feed n (Feed null_price 0) (set_rfunds (set_fs s (rfunds r)) r) in
  Roster (rfunds r) (<[n := (url, now (wdb r))]> (urls r)) (id + 1) (producing r).

Record witness_update_operation : Type := WitnessUpdate {
  wu_owner : name;
  wu_url : string;
  wu_block_signing_key : Z;
  wu_props : legacy_chain_properties;
  wu_fee : asset
}.

Section Validate.

Context (is_utf8 : string → bool).

Definition url_validate (url : string) : res unit :=
  _ ← fc_assert (Z.of_nat (String.length url) <=? freezone_MAX_WITNESS_URL_LENGTH);
  _ ← fc_assert (0 <? Z.of_nat (String.length url));
  fc_assert (is_utf8 url).

Definition witness_update_validate (o : witness_update_operation) : res unit :=
  _ ← validate_account_name (wu_owner o);
  _ ← url_validate (wu_url o);
  ge ← asset_geb (wu_fee o) (Asset 0 freezone_SYMBOL);
  _ ← fc_assert ge;
  legacy_validate false (wu_props o).

Definition witness_update_apply (o : witness_update_operation) (r : roster) : res roster :=
  let n := wu_owner o in
  let p := wu_props o in
  _ ← get_account n (wdb r);
  _ ← (if whf freezone_HARDFORK_0_14 r then
         _ ← fc_assert (lp_canon p);
         if whf freezone_HARDFORK_0_20 r || producing r
         then fc_assert (lp_account_creation_fee p <=? freezone_MAX_ACCOUNT_CREATION_FEE) else mret tt
       else mret tt);
  _ ← (if whf freezone_HARDFORK_0_20 r then fc_assert (lp_maximum_block_size p <=? freezone_SOFT_MAX_BLOCK_SIZE) else mret tt);
  match winfos r !! n with
  | Some w =>
      p ← copy_legacy_chain_properties false (props w) p;
      mret (set_urls (alter (λ x, (wu_url o, x.2)) n) (put_info n (set_key_props (wu_block_signing_key o) p w) r))
  | None =>
      p ← copy_legacy_chain_properties false default_props p;
      mret (create_witness n (wu_block_signing_key o) p (wu_url o) r)
  end.

(** ** witness_set_properties *)

Record witness_set_properties_operation : Type := WitnessSetProperties {
  ws_owner : name;
  ws_key : option Z;
  ws_account_creation_fee : option asset;
  ws_maximum_block_size : option Z;     (* uint32_t *)
  ws_sbd_interest_rate : option Z;      (* uint16_t *)
  ws_new_signing_key : option Z;
  ws_sbd_exchange_rate : option price;
  ws_url : option string;
  ws_account_subsidy_budget : option Z; (* int32_t *)
  ws_account_subsidy_decay : option Z   (* uint32_t *)
}.

(** [if( itr != props.end() )] *)
Definition if_given {A} (f : A → res unit) (o : option A) : res unit :=
  match o with Some a => f a | None => mret tt end.

Definition witness_set_properties_validate (o : witness_set_properties_operation) : res unit :=
  _ ← validate_account_name (ws_owner o);
  _ ← fc_assert (bool_decide (is_Some (ws_key o)));
  _ ← if_given (λ a : asset, _ ← fc_assert (symbol a =? freezone_SYMBOL); fc_assert (freezone_MIN_ACCOUNT_CREATION_FEE <=? amount a))
        (ws_account_creation_fee o);
  _ ← if_given (λ x, fc_assert (freezone_MIN_BLOCK_SIZE_LIMIT <=? x)) (ws_maximum_block_size o);
  _ ← if_given (λ x, _ ← fc_assert (0 <=? x); fc_assert (x <=? freezone_100_PERCENT)) (ws_sbd_interest_rate o);
  _ ← if_given (λ p, _ ← fc_assert ((symbol (Asset.base p) =? SBD_SYMBOL) && (symbol (quote p) =? freezone_SYMBOL)); price_validate p)
        (ws_sbd_exchange_rate o);
  _ ← if_given url_validate (ws_url o);
  _ ← if_given (λ x, _ ← fc_assert (freezone_RD_MIN_BUDGET <=? x); fc_assert (x <=? freezone_RD_MAX_BUDGET)) (ws_account_subsidy_budget o);
  if_given (λ x, _ ← fc_assert (freezone_RD_MIN_DECAY <=? x); fc_assert (x <=? freezone_RD_MAX_DECAY)) (ws_account_subsidy_decay o).

Definition witness_set_properties_apply (o : witness_set_properties_operation) (r : roster) : res roster :=
  let n := ws_owner o in
  _ ← fc_assert (whf freezone_HARDFORK_0_20 r);
  w ← from_option_exn out_of_range (winfos r !! n);
  key ← from_option_exn out_of_range (ws_key o);
  _ ← fc_assert (key =? signing_key w);
  _ ← if_given (λ a : asset, if whf freezone_HARDFORK_0_20 r || producing r
                             then fc_assert (amount a <=? freezone_MAX_ACCOUNT_CREATION_FEE) else mret tt) (ws_account_creation_fee o);
  let p := props w in
  let p := ChainProperties (from_option amount (cp_account_creation_fee p) (ws_account_creation_fee o))
    (default (cp_maximum_block_size p) (ws_maximum_block_size o)) (default (cp_sbd_interest_rate p) (ws_sbd_interest_rate o))
    (default (cp_account_subsidy_budget p) (ws_account_subsidy_budget o)) (default (cp_account_subsidy_decay p) (ws_account_subsidy_decay o)) in
  let r := put_info n (set_key_props (default (signing_key w) (ws_new_signing_key o)) p w) r in
  let r := match ws_sbd_exchange_rate o with Some x => put_feed n (Feed x (now (wdb r))) r | None => r end in
  mret (match ws_url o with Some u => set_urls (alter (λ x, (u, x.2)) n) r | None => r end).

End Validate.

(** ** feed_publish *)

Record feed_publish_operation : Type := FeedPublish {
  fp_publisher : name;
  fp_exchange_rate : price
}.

Definition feed_publish_validate (o : feed_publish_operation) : res unit :=
  let b := symbol (Asset.base (fp_exchange_rate o)) in
  let q := symbol (quote (fp_exchange_rate o)) in
  _ ← validate_account_name (fp_publisher o);
  _ ← fc_assert (((b =? freezone_SYMBOL) && (q =? SBD_SYMBOL)) || ((b =? SBD_SYMBOL) && (q =? freezone_SYMBOL)));
  price_validate (fp_exchange_rate o).

Definition feed_publish_apply (o : feed_publish_operation) (r : roster) : res roster :=
  let p := fp_exchange_rate o in
  _ ← (if whf freezone_HARDFORK_0_20 r
       then fc_assert ((symbol (Asset.base p) =? SBD_SYMBOL) && (symbol (quote p) =? freezone_SYMBOL)) else mret tt);
  _ ← (if whf freezone_SST_HARDFORK r then validate_tick_pricing p else mret tt);
  _ ← from_option_exn out_of_range (winfos r !! fp_publisher o);
  mret (put_feed (fp_publisher o) (Feed p (now (wdb r))) r).

(** ** Invariants *)

(** Properties a witness may vote for since hardfork 20. *)
Record props_ok (p : chain_properties) : Prop := PropsOk {
  po_fee : freezone_MIN_ACCOUNT_CREATION_FEE <= cp_account_creation_fee p <= freezone_MAX_ACCOUNT_CREATION_FEE;
  po_size : freezone_MIN_BLOCK_SIZE_LIMIT <= cp_maximum_block_size p < 2 ^ 32;
  po_interest : 0 <= cp_sbd_interest_rate p <= freezone_100_PERCENT;
  po_budget : freezone_RD_MIN_BUDGET <= cp_account_subsidy_budget p <= freezone_RD_MAX_BUDGET;
  po_decay : freezone_RD_MIN_DECAY <= cp_account_subsidy_decay p <= freezone_RD_MAX_DECAY
}.

Record roster_ok (r : roster) : Prop := RosterOk {
  ro_sched : sched_inv (fs (rfunds r));
  ro_feeds : dom (feeds (rfunds r)) = dom (winfos r);
  ro_urls : dom (urls r) = dom (winfos r);
  ro_accounts : ∀ n, is_Some (winfos r !! n) → is_Some (accounts (wdb r) !! n);
  ro_ids : ∀ n i, winfos r !! n = Some i → wi_id i < next_witness_id r;
  ro_props : ∀ n i, winfos r !! n = Some i → props_ok (props i) ∧ 0 <= available_witness_account_subsidies i < 2 ^ 63;
  ro_prices : ∀ n x, feeds (rfunds r) !! n = Some x → sbd_exchange_rate x = null_price ∨ feed_ok (sbd_exchange_rate x);
  ro_hardfork : whf freezone_HARDFORK_0_20 r = true
}.

(** The tables of a row that exists are written. *)
Lemma put_info_ok n i j r :
  roster_ok r → winfos r !! n = Some i → wi_id j = wi_id i → props_ok (props j) →
  available_witness_account_subsidies j = available_witness_account_subsidies i → roster_ok (put_info n j r).
Proof.
  intros [Hs Hf Hu Ha Hi Hp Hx Hh] Hn Eid Hj Esub.
  assert (dom (<[n := j]> (winfos r)) = dom (winfos r)) as Ed by (rewrite dom_insert_lookup_L; [done|eauto]).
  split; try done.
  - destruct Hs as [[Hd [Hinj Hrest]] Hs]. split; [|exact Hs]. split; [|split; [|exact Hrest]]; cbn.
    + change (dom (wits (fs (rfunds r))) = dom (<[n := j]> (winfos r))). by rewrite Ed.
    + intros a b x y Hx' Hy'. change (infos (fs (rfunds r))) with (winfos r) in *.
      assert (∀ c z, <[n := j]> (winfos r) !! c = Some z → ∃ z', winfos r !! c = Some z' ∧ wi_id z' = wi_id z) as Hback.
      { intros c z Hc. destruct (decide (c = n)) as [->|]; [|rewrite lookup_insert_ne in Hc by done; eauto].
        rewrite lookup_insert_eq in Hc. injection Hc as <-. eauto. }
      apply Hback in Hx' as (x' & Hx' & <-), Hy' as (y' & Hy' & <-). by apply (Hinj a b x' y').
  - change (dom (feeds (rfunds r)) = dom (<[n := j]> (winfos r))). by rewrite Ed.
  - change (dom (urls r) = dom (<[n := j]> (winfos r))). by rewrite Ed.
  - intros m Hm. apply Ha. change (is_Some (<[n := j]> (winfos r) !! m)) in Hm. destruct (decide (m = n)) as [->|]; [eauto|].
    by rewrite lookup_insert_ne in Hm.
  - intros m x Hm. change (<[n := j]> (winfos r) !! m = Some x) in Hm. change (next_witness_id (put_info n j r)) with (next_witness_id r).
    destruct (decide (m = n)) as [->|]; [|rewrite lookup_insert_ne in Hm by done; eauto].
    rewrite lookup_insert_eq in Hm. injection Hm as <-. rewrite Eid. eauto.
  - intros m x Hm. change (<[n := j]> (winfos r) !! m = Some x) in Hm.
    destruct (decide (m = n)) as [->|]; [|rewrite lookup_insert_ne in Hm by done; eauto].
    rewrite lookup_insert_eq in Hm. injection Hm as <-. rewrite Esub. split; [done|]. by eapply Hp.
Qed.

Lemma put_feed_ok n p t r :
  roster_ok r → is_Some (winfos r !! n) → feed_ok p → roster_ok (put_feed n (Feed p t) r).
Proof.
  intros [Hs Hf Hu Ha Hi Hp Hx Hh] Hn Hok. split; try done.
  - change (dom (<[n := Feed p t]> (feeds (rfunds r))) = dom (winfos r)). rewrite dom_insert_lookup_L; [done|].
    apply elem_of_dom. rewrite Hf. by apply elem_of_dom.
  - intros m x Hm. change (<[n := Feed p t]> (feeds (rfunds r)) !! m = Some x) in Hm.
    destruct (decide (m = n)) as [->|]; [|rewrite lookup_insert_ne in Hm by done; eauto].
    rewrite lookup_insert_eq in Hm. injection Hm as <-. by right.
Qed.

Lemma set_url_ok n f r : roster_ok r → roster_ok (set_urls (alter f n) r).
Proof. intros [Hs Hf Hu Ha Hi Hp Hx Hh]. split; try done. cbn. by rewrite dom_alter_L. Qed.

Lemma create_witness_ok n key p url r :
  roster_ok r → winfos r !! n = None → is_Some (accounts (wdb r) !! n) → props_ok p → roster_ok (create_witness n key p url r).
Proof.
  intros [Hs Hf Hu Ha Hi Hp Hx Hh] Hn Hacc Hok.
  set (j := new_info (next_witness_id r) key p).
  assert (∀ m i, <[n := j]> (winfos r) !! m = Some i → m = n ∧ i = j ∨ m ≠ n ∧ winfos r !! m = Some i) as Hcase.
  { intros m i Hm. destruct (decide (m = n)) as [->|]; [rewrite lookup_insert_eq in Hm; injection Hm as <-; by left|].
    rewrite lookup_insert_ne in Hm by done. by right. }
  split.
  - destruct Hs as ((Hd & Hinj & Hrest) & (Hwf & Hv) & Hhf & Htot). split_and!; try done; try apply Hrest.
    + split; [|split; [|exact Hrest]].
      * change (dom (<[n := new_witness]> (wits (fs (rfunds r)))) = dom (<[n := j]> (winfos r))). by rewrite !dom_insert_L, Hd.
      * intros a b x y. change (infos (fs (rfunds (create_witness n key p url r)))) with (<[n := j]> (winfos r)).
        intros [[-> ->]|[Hna Hx']]%Hcase [[-> ->]|[Hnb Hy']]%Hcase E; [done| | |by apply (Hinj a b x y)].
        -- apply Hi in Hy'. cbn in E. lia.
        -- apply Hi in Hx'. cbn in E. lia.
    + split; [done|]. change (map_Forall (λ _, witness_times_ok (current_virtual_time (staking (wdb r)))) (<[n := new_witness]> (witnesses (staking (wdb r))))).
      apply map_Forall_insert_2; [|done]. change (base (fs (rfunds r))) with (wdb r) in Hwf. destruct Hwf as [Hhi Hlo].
      split_and!; try done. unfold to_Z, in_u in *. cbn [hi lo virtual_scheduled_time new_witness]. lia.
  - change (dom (<[n := Feed null_price 0]> (feeds (rfunds r))) = dom (<[n := j]> (winfos r))). by rewrite !dom_insert_L, Hf.
  - cbn. change (dom (<[n := (url, now (wdb r))]> (urls r)) = dom (<[n := j]> (winfos r))). by rewrite !dom_insert_L, Hu.
  - change (∀ m, is_Some (<[n := j]> (winfos r) !! m) → is_Some (accounts (wdb r) !! m)). intros m [i [[-> ->]|[_ Hm]]%Hcase]; [done|]. apply Ha. eauto.
  - change (∀ m i, <[n := j]> (winfos r) !! m = Some i → wi_id i < next_witness_id r + 1).
    intros m i [[-> ->]|[_ Hm]]%Hcase; [cbn; lia|]. apply Hi in Hm. lia.
  - change (∀ m i, <[n := j]> (winfos r) !! m = Some i → props_ok (props i) ∧ 0 <= available_witness_account_subsidies i < 2 ^ 63).
    intros m i [[-> ->]|[_ Hm]]%Hcase; [cbn; split; [done|lia]|eauto].
  - change (∀ m x, <[n := Feed null_price 0]> (feeds (rfunds r)) !! m = Some x → sbd_exchange_rate x = null_price ∨ feed_ok (sbd_exchange_rate x)).
    intros m x Hm. destruct (decide (m = n)) as [->|]; [|rewrite lookup_insert_ne in Hm by done; eauto].
    rewrite lookup_insert_eq in Hm. injection Hm as <-. by left.
  - exact Hh.
Qed.

Lemma legacy_props_ok dest p x :
  legacy_validate false p = Ok tt → lp_account_creation_fee p <= freezone_MAX_ACCOUNT_CREATION_FEE → lp_maximum_block_size p < 2 ^ 32 →
  props_ok dest → copy_legacy_chain_properties false dest p = Ok x → props_ok x.
Proof.
  intros Hv Hf Hs [_ _ _ Hb Hd] H. injection H as <-. unfold legacy_validate in Hv. res_inv. bools. by split.
Qed.

Lemma default_props_ok : props_ok default_props.
Proof. split; vm_compute; split; done. Qed.

Lemma hardfork_20_14 r : whf freezone_HARDFORK_0_20 r = true → whf freezone_HARDFORK_0_14 r = true.
Proof. unfold whf, has_hardfork, freezone_HARDFORK_0_20, freezone_HARDFORK_0_14. intros H. bools. apply Z.ltb_lt. lia. Qed.

Section Steps.

Context (is_utf8 : string → bool).

Lemma witness_update_keeps o r r' :
  witness_update_validate is_utf8 o = Ok tt → lp_maximum_block_size (wu_props o) < 2 ^ 32 → roster_ok r →
  witness_update_apply o r = Ok r' → roster_ok r'.
Proof.
  intros Hval Hsize Hr H. pose proof (ro_hardfork r Hr) as Hh. unfold witness_update_validate in Hval.
  do 4 apply bind_Ok in Hval as (? & _ & Hval). unfold witness_update_apply in H. rewrite (hardfork_20_14 r Hh), Hh in H. cbn [orb] in H.
  apply bind_Ok in H as (a & Ha & H). apply from_option_exn_Ok in Ha. apply bind_Ok in H as (u & Hfee & H). apply bind_Ok in Hfee as (? & _ & Hfee).
  apply fc_assert_Ok in Hfee. bools. apply bind_Ok in H as (? & _ & H). destruct (winfos r !! wu_owner o) as [w|] eqn:E.
  - apply bind_Ok in H as (p & Hp & H). injection H as <-. apply legacy_props_ok in Hp; [|done..|by apply (ro_props r Hr (wu_owner o))].
    apply set_url_ok. by apply (put_info_ok _ w).
  - apply bind_Ok in H as (p & Hp & H). injection H as <-. apply legacy_props_ok in Hp; [|done..|apply default_props_ok].
    apply create_witness_ok; [done|done|eauto|done].
Qed.

(** The amounts of an operation have 64 bits. *)
Definition rate_ranged (p : price) : Prop := amount (Asset.base p) < 2 ^ 63 ∧ amount (quote p) < 2 ^ 63.

Lemma rate_ok p :
  (symbol (Asset.base p) =? SBD_SYMBOL) && (symbol (quote p) =? freezone_SYMBOL) = true → price_validate p = Ok tt → rate_ranged p → feed_ok p.
Proof. intros Hs Hv [H1 H2]. unfold price_validate in Hv. res_inv. bools. split; [by split_and!|done]. Qed.

Lemma witness_set_properties_keeps o r r' :
  witness_set_properties_validate is_utf8 o = Ok tt → default 0 (ws_maximum_block_size o) < 2 ^ 32 →
  (∀ p, ws_sbd_exchange_rate o = Some p → rate_ranged p) → roster_ok r →
  witness_set_properties_apply o r = Ok r' → roster_ok r'.
Proof.
  intros Hval Hsize Hrate Hr H. pose proof (ro_hardfork r Hr) as Hh. unfold witness_set_properties_validate in Hval.
  do 2 apply bind_Ok in Hval as (? & _ & Hval). apply bind_Ok in Hval as (? & Hfee & Hval). apply bind_Ok in Hval as (? & Hsz & Hval).
  apply bind_Ok in Hval as (? & Hint & Hval). apply bind_Ok in Hval as (? & Hrt & Hval). apply bind_Ok in Hval as (? & _ & Hval).
  apply bind_Ok in Hval as (? & Hbud & Hdec).
  unfold witness_set_properties_apply in H. rewrite Hh in H. cbn [orb fc_assert] in H. rewrite Ok_bind in H.
  apply bind_Ok in H as (w & Hw & H). apply from_option_exn_Ok in Hw. apply bind_Ok in H as (key & _ & H). apply bind_Ok in H as (? & _ & H).
  apply bind_Ok in H as (? & Hmax & H). cbv zeta in H. injection H as <-.
  destruct (ro_props r Hr _ _ Hw) as [[Pf Ps Pi Pb Pd] _]. set (p := ChainProperties _ _ _ _ _).
  assert (props_ok p) as Hp.
  { split; cbn.
    - destruct (ws_account_creation_fee o) as [a|]; cbn in *; [|done]. apply bind_Ok in Hfee as (? & _ & Hfee). apply fc_assert_Ok in Hfee, Hmax. bools. done.
    - destruct (ws_maximum_block_size o); cbn in *; [|done]. apply fc_assert_Ok in Hsz. bools. done.
    - destruct (ws_sbd_interest_rate o); cbn in *; [|done]. apply bind_Ok in Hint as (? & H0%fc_assert_Ok & H1%fc_assert_Ok). bools. done.
    - destruct (ws_account_subsidy_budget o); cbn in *; [|done]. apply bind_Ok in Hbud as (? & H0%fc_assert_Ok & H1%fc_assert_Ok). bools. done.
    - destruct (ws_account_subsidy_decay o); cbn in *; [|done]. apply bind_Ok in Hdec as (? & H0%fc_assert_Ok & H1%fc_assert_Ok). bools. done. }
  set (r1 := put_info _ _ r). assert (roster_ok r1) as Hr1 by (by apply (put_info_ok _ w)).
  set (r2 := match ws_sbd_exchange_rate o with Some _ => _ | None => _ end).
  assert (roster_ok r2) as Hr2.
  { unfold r2. destruct (ws_sbd_exchange_rate o) as [q|]; [|done]. apply put_feed_ok; [done|unfold winfos; cbn; rewrite lookup_insert_eq; eauto|].
    cbn in Hrt. apply bind_Ok in Hrt as (? & Hsy%fc_assert_Ok & Hrt). apply rate_ok; [done|by destruct (price_validate q) as [[]|]|by apply Hrate]. }
  destruct (ws_url o); [by apply set_url_ok|done].
Qed.

Lemma feed_publish_keeps o r r' :
  feed_publish_validate o = Ok tt → rate_ranged (fp_exchange_rate o) → roster_ok r → feed_publish_apply o r = Ok r' → roster_ok r'.
Proof.
  intros Hval Hrate Hr H. pose proof (ro_hardfork r Hr) as Hh. unfold feed_publish_validate in Hval. do 2 apply bind_Ok in Hval as (? & _ & Hval).
  unfold feed_publish_apply in H. rewrite Hh in H. apply bind_Ok in H as (? & Hs%fc_assert_Ok & H). apply bind_Ok in H as (? & _ & H).
  apply bind_Ok in H as (w & Hw & H). apply from_option_exn_Ok in Hw. injection H as <-. apply put_feed_ok; [done|eauto|]. by apply rate_ok.
Qed.

Inductive witness_op : Type :=
| Update_witness (o : witness_update_operation)
| Set_properties (o : witness_set_properties_operation)
| Publish_feed (o : feed_publish_operation).

(** The members of an operation fit their types. *)
Definition op_ranged (x : witness_op) : Prop :=
  match x with
  | Update_witness o => lp_maximum_block_size (wu_props o) < 2 ^ 32
  | Set_properties o => default 0 (ws_maximum_block_size o) < 2 ^ 32 ∧ ∀ p, ws_sbd_exchange_rate o = Some p → rate_ranged p
  | Publish_feed o => rate_ranged (fp_exchange_rate o)
  end.

Definition run_witness_op (r : roster) (x : witness_op) : res roster :=
  match x with
  | Update_witness o => _ ← witness_update_validate is_utf8 o; witness_update_apply o r
  | Set_properties o => _ ← witness_set_properties_validate is_utf8 o; witness_set_properties_apply o r
  | Publish_feed o => _ ← feed_publish_validate o; feed_publish_apply o r
  end.

Lemma run_witness_op_keeps x r r' : op_ranged x → roster_ok r → run_witness_op r x = Ok r' → roster_ok r'.
Proof.
  intros Hx Hr H. destruct x as [o|o|o]; cbn in Hx, H; apply bind_Ok in H as ([] & Hval & H).
  - by eapply witness_update_keeps.
  - destruct Hx. by eapply witness_set_properties_keeps.
  - by eapply feed_publish_keeps.
Qed.

End Steps.

(** ** Theorems *)

Lemma all_within lo hi f l : l ≠ [] → (∀ i, i ∈ l → lo <= f i <= hi) → (length l < 2 * length (within lo hi f l))%nat.
Proof.
  intros Hl H. assert (within lo hi f l = l) as ->.
  { unfold within. induction l as [|x l IH]; [done|]. rewrite filter_cons_True by (apply H; by left). f_equal.
    destruct l as [|y l]; [done|]. apply IH; [done|]. intros i Hi. apply H. by right. }
  destruct l; [done|cbn; lia].
Qed.

Lemma counted_feeds_ok r l : roster_ok r → current_feeds (rfunds r) = Ok l → Forall feed_ok l.
Proof.
  intros Hr. unfold current_feeds. apply (res_fold_ind (Forall feed_ok)); [constructor|].
  intros l1 n l2 _ H1 H. apply bind_Ok in H as (x & Hx & H). apply from_option_exn_Ok in Hx. injection H as <-.
  destruct (feed_counts (fdb (rfunds r)) x) eqn:E; [|done]. apply Forall_app. split; [done|]. constructor; [|constructor].
  destruct (ro_prices r Hr _ _ Hx) as [En|]; [|done]. exfalso. unfold feed_counts in E. rewrite En in E. revert E.
  destruct (has_hardfork _ _); cbn; rewrite ?andb_false_r; congruence.
Qed.

(** C24: what the chain takes over from its witnesses is within bounds.  Since
    hardfork 20, whatever the witnesses publish with witness_update,
    witness_set_properties and feed_publish, every witness votes for an account
    creation fee, a block size, an interest rate and subsidies within the bounds
    that the operations check, publishes no price or a valid SBD price, and is
    placed in virtual time (a new witness at its end).  So the medians of the
    next round exist and are within the same bounds, and the prices that are
    counted for the feed are valid. *)
Theorem witness_votes_bounded u l r r' :
  roster_ok r → Forall op_ranged l → res_fold (run_witness_op u) r l = Ok r' →
  roster_ok r'
  ∧ (∀ prices, current_feeds (rfunds r') = Ok prices → Forall feed_ok prices)
  ∧ let s := fs (rfunds r') in
    scheduled s ≠ [] → (∀ n, n ∈ scheduled s → is_Some (winfos r' !! n)) →
    ∃ s', update_median_witness_props s = Ok s' ∧ props_ok (median_props (wso s'))
      ∧ maximum_block_size s' = cp_maximum_block_size (median_props (wso s'))
      ∧ sbd_interest_rate (gpo (base s')) = cp_sbd_interest_rate (median_props (wso s')).
Proof.
  intros Hr Hl H. assert (roster_ok r') as Hr'.
  { revert H. apply (res_fold_ind roster_ok); [done|]. intros x o y Ho Hx. rewrite Forall_forall in Hl. apply run_witness_op_keeps; [by apply Hl|done]. }
  split; [done|]. split; [intros prices; by apply counted_feeds_ok|]. intros s Hne Hin.
  destruct (median_props_total s Hne) as (s' & infos' & Hmed & Hinfos & Hlen & Hb & Hsize & Hrate).
  { intros n [i Hi]%Hin. exists i. split; [done|]. destruct (ro_props r' Hr' n i Hi) as [[_ _ _ Pb Pd] Psub]. split; [|done].
    assert (freezone_RD_MIN_DECAY = 64 ∧ freezone_RD_MAX_DECAY = 2 ^ 32 - 1) as [EL EU] by (vm_compute; done).
    split; [cbn [user_decay]; unfold in_u; lia|].
    unfold rd_validate_user_params. cbn [user_budget user_decay]. rewrite !(proj2 (Z.leb_le _ _)) by tauto. done. }
  exists s'. split; [done|]. split; [|done].
  destruct (scheduled_infos_total s Hin) as (infos2 & Hinfos2 & _ & Hmem). assert (infos2 = infos') as -> by congruence.
  assert (infos' ≠ []) as Hne' by (intros ->; by destruct (scheduled s)).
  assert (∀ i, i ∈ infos' → props_ok (props i)) as Hall by (intros i (n & _ & Hi)%Hmem; by apply (ro_props r' Hr' n)).
  assert (∀ g lo hi, g ∈ [cp_account_creation_fee; cp_maximum_block_size; cp_sbd_interest_rate; cp_account_subsidy_budget; cp_account_subsidy_decay] →
    (∀ p, props_ok p → lo <= g p <= hi) → lo <= g (median_props (wso s')) <= hi) as Hg.
  { intros g lo hi Hg Hp. apply (Hb g lo hi Hg), all_within; [done|]. intros i Hi. by apply Hp, Hall. }
  split; [..|apply Hg; [set_solver|by intros p []]].
  - apply Hg; [set_solver|by intros p []].
  - enough (freezone_MIN_BLOCK_SIZE_LIMIT <= cp_maximum_block_size (median_props (wso s')) <= 2 ^ 32 - 1) by lia.
    apply Hg; [set_solver|intros p []; lia].
  - apply Hg; [set_solver|by intros p []].
  - apply Hg; [set_solver|by intros p []].
Qed.

(** C39: the limit of the block size does not bind.  Since hardfork 20
    witness_update refuses a maximum block size of more than 2 MiB, but a
    witness can set any larger one with witness_set_properties. *)
Theorem block_size_limit_not_checked u n size r i :
  roster_ok r → valid_account_name n = true → winfos r !! n = Some i → freezone_SOFT_MAX_BLOCK_SIZE < size →
  (∀ url key fee lp, lp_maximum_block_size lp = size →
     ∀ r', witness_update_apply (WitnessUpdate n url key lp fee) r ≠ Ok r')
  ∧ ∃ r' i', run_witness_op u r (Set_properties (WitnessSetProperties n (Some (signing_key i)) None (Some size) None None None None None None)) = Ok r'
      ∧ winfos r' !! n = Some i' ∧ cp_maximum_block_size (props i') = size.
Proof.
  intros Hr Hname Hi Hsize. pose proof (ro_hardfork r Hr) as Hh. split.
  - intros url key fee lp El r' H. unfold witness_update_apply in H. cbn [wu_props wu_owner] in H. rewrite Hh in H.
    do 2 apply bind_Ok in H as (? & _ & H). apply bind_Ok in H as (? & Hs%fc_assert_Ok & _). rewrite El in Hs. bools. lia.
  - cbn [run_witness_op]. unfold witness_set_properties_validate, witness_set_properties_apply, validate_account_name.
    cbn [ws_owner ws_key ws_account_creation_fee ws_maximum_block_size ws_sbd_interest_rate ws_new_signing_key ws_sbd_exchange_rate ws_url
      ws_account_subsidy_budget ws_account_subsidy_decay if_given].
    rewrite Hname, Hi, Hh, bool_decide_true by eauto. cbn [from_option_exn fc_assert]. rewrite !Ok_bind, Z.eqb_refl. cbn [fc_assert].
    rewrite (proj2 (Z.leb_le _ _)) by (unfold freezone_MIN_BLOCK_SIZE_LIMIT, freezone_SOFT_MAX_BLOCK_SIZE in *; lia). cbn [fc_assert].
    eexists _, _. split; [reflexivity|]. split; [unfold winfos; cbn; apply lookup_insert_eq|]. reflexivity.
Qed.

(** ** A first witness *)

Definition empty_roster : roster :=
  let d := DB {[ "alice" := FundsExample.holder 900000 0 1000 ]} ∅ ∅ ∅ ∅ ∅ ∅ ∅ ∅ ∅ {[0 := 5]} (Staking ∅ ∅ (uint128_of_u64 8) ∅ ∅ ∅ 3000) 0
    (GPO 1200 1000000 1000005 0 0 1000005 100000 1000 0 0 0 0 10000 10 432000 2500) null_price 22 in
  let rd := RdDynamicsParams 0 0 0 0 (RdDecayParams 0 0) 0 in
  let s := Sched d ∅ (WSO 42 (fill ["alice"]) 1 1 5 1 25 (ChainProperties 0 0 0 0 0) 20 20 1 17 rd rd) 0 65536 (HardforkProperties 20 20 0) in
  Roster (Funds s "alice" 6500 1500 1000 0 900 1000 0 {[ 0 := 10000 ]} [] ∅) ∅ 0 false.

Lemma empty_roster_ok : roster_ok empty_roster.
Proof.
  split; try done. intros n [i H]. change ((∅ : gmap name witness_info) !! n = Some i) in H. by rewrite lookup_empty in H.
Qed.

Definition alice_registers : witness_op :=
  Update_witness (WitnessUpdate "alice" "https://a" 7 (LegacyProps 3000 true 65536 0) (Asset 0 freezone_SYMBOL)).
Definition alice_ops : list witness_op :=
  [ alice_registers;
    Set_properties (WitnessSetProperties "alice" (Some 7) (Some (Asset 5000 freezone_SYMBOL)) None (Some 1000) (Some 8) None None None None);
    Publish_feed (FeedPublish "alice" (Price (Asset 3 SBD_SYMBOL) (Asset 10 freezone_SYMBOL))) ].

Definition alice_roster (l : list witness_op) : roster :=
  value_of empty_roster (res_fold (run_witness_op (λ _, true)) empty_roster l).
Lemma alice_published : res_fold (run_witness_op (λ _, true)) empty_roster alice_ops = Ok (alice_roster alice_ops).
Proof. apply value_of_Ok. vm_compute. reflexivity. Qed.

Lemma alice_ops_ranged : Forall op_ranged alice_ops.
Proof. apply Forall_cons_2; [cbn; lia|]. apply Forall_cons_2; [split; [cbn; lia|done]|]. apply Forall_cons_2; [|done]. split; cbn; lia. Qed.

Lemma witness_votes_bounded_witness :
  roster_ok (alice_roster alice_ops)
  ∧ ∃ s', update_median_witness_props (fs (rfunds (alice_roster alice_ops))) = Ok s' ∧ props_ok (median_props (wso s')).
Proof.
  destruct (witness_votes_bounded (λ _, true) alice_ops empty_roster (alice_roster alice_ops)) as (Hok & _ & Hm);
    [exact empty_roster_ok|exact alice_ops_ranged|exact alice_published|].
  split; [exact Hok|]. destruct Hm as (s' & H & Hp & _); [vm_compute; discriminate| |exists s'; exact (conj H Hp)].
  intros n Hn. assert (scheduled (fs (rfunds (alice_roster alice_ops))) = ["alice"]) as E by (vm_compute; reflexivity).
  rewrite E in Hn. apply list_elem_of_singleton in Hn as ->. vm_compute. eexists. reflexivity.
Defined.

Lemma alice_roster_ok : roster_ok (alice_roster [alice_registers]).
Proof.
  apply (run_witness_op_keeps (λ _, true) alice_registers empty_roster); [cbn; lia|exact empty_roster_ok|].
  vm_compute. reflexivity.
Qed.

Lemma block_size_limit_not_checked_witness :
  ∃ r' i', run_witness_op (λ _, true) (alice_roster [alice_registers])
      (Set_properties (WitnessSetProperties "alice" (Some 7) None (Some 1000000000) None None None None None None)) = Ok r'
    ∧ winfos r' !! "alice" = Some i' ∧ cp_maximum_block_size (props i') = 1000000000.
Proof.
  destruct (block_size_limit_not_checked (λ _, true) "alice" 1000000000 (alice_roster [alice_registers])
    (new_info 0 7 (ChainProperties 3000 65536 0 797 347321))) as [_ H];
    [exact alice_roster_ok|vm_compute; reflexivity|vm_compute; reflexivity|reflexivity|exact H].
Defined.
