(* ===== verification/Blocks.v ===== *)
(** * Transactions and the application of blocks

    database.cpp: [_apply_transaction], [clear_expired_transactions],
    [create_block_summary], [process_header_extensions] and [_apply_block], which
    calls the checks and the bookkeeping of Slots.v, the transactions of the
    block, and the steps that end every block; transaction.cpp
    ([transaction::validate]).

    The evaluators and the steps at the end of a block are behind an interface,
    [Evaluators]; most of them are modelled one by one in the other files, over
    the part of the state each of them uses.  [EvaluatorLaws] says what the
    proofs need: an evaluator or a step does not move the head of the chain.
    [block_step] lists the steps in the order in which the code calls them.

    Block application is in turn what ForkSwitch.v assumes of a chain: the last
    section gives it as an instance of [Chain], with [ChainLaws] proved. *)

From S2P Require Import Prelude Config AccountName Uint128 SafeInt AssetSymbol Asset Manabar ResourceDynamics MapSum State Ledger Votes.
From stdpp Require Import gmap strings sorting.
From S2P Require Import ForkDatabase ForkSwitch WitnessSchedule Rounds Slots.
#[local] Open Scope Z_scope.

(** ** Transactions and the state *)

Record transaction (Op : Type) : Type := Transaction {
  ref_block_num : Z;                    (* uint16_t *)
  ref_block_prefix : Z;                 (* uint32_t *)
  expiration : Z;                       (* time_point_sec *)
  operations : list Op;
  signatures : list Z
}.
#[global] Arguments Transaction {Op}.
#[global] Arguments ref_block_num {Op}.
#[global] Arguments ref_block_prefix {Op}.
#[global] Arguments expiration {Op}.
#[global] Arguments operations {Op}.
#[global] Arguments signatures {Op}.

(** The state that evaluators see: the head of the chain and the witnesses
    ([slots]), and everything else. *)
Record world (W : Type) : Type := World {
  wslots : slots;
  rest : W
}.
#[global] Arguments World {W}.
#[global] Arguments wslots {W}.
#[global] Arguments rest {W}.

(** The tables that only this file uses: the transactions that have not expired
    (transaction_object, by id: its expiration), and the ids of the last 65536
    blocks (block_summary_object). *)
Record chain (W : Type) : Type := ChainState {
  cw : world W;
  dedupe : gmap Z Z;
  summaries : gmap Z block_id
}.
#[global] Arguments ChainState {W}.
#[global] Arguments cw {W}.
#[global] Arguments dedupe {W}.
#[global] Arguments summaries {W}.

Inductive block_step : Type :=
| s_clear_expired_orders
| s_clear_expired_delegations
| s_update_witness_schedule
| s_update_median_feed
| s_update_virtual_supply
| s_clear_null_account_balance
| s_process_funds
| s_process_conversions
| s_process_comment_cashout
| s_process_vesting_withdrawals
| s_process_savings_withdraws
| s_process_subsidized_accounts
| s_pay_liquidity_reward
| s_account_recovery_processing
| s_expire_escrow_ratification
| s_process_decline_voting_rights
| s_process_proposals
| s_generate_required_actions
| s_generate_optional_actions
| s_process_required_actions (l : list Z)
| s_process_optional_actions (l : list Z)
| s_process_hardforks.

(** What block application calls.  [tx_id] and [merkle_root] are hashes and
    [pack_size] is the size of a serialized block; nothing is assumed of them.
    [known_merkle] is the table of blocks with a wrong Merkle root. *)
Class Evaluators (Op W : Type) : Type := {
  tx_id : transaction Op → Z;
  merkle_root : list (transaction Op) → Z;
  pack_size : signed_block body → list (transaction Op) → Z;
  known_merkle : Z → option Z;
  genesis_hardforks : signed_block body → world W → res (world W);
  set_current_witness : name → W → W;
  operation_validate : Op → res unit;
  verify_authority : transaction Op → world W → res unit;
  apply_operation : world W → Op → res (world W);
  run_step : world W → block_step → res (world W)
}.

Record tx_flags : Type := TxFlags {
  skip_validate : bool;
  skip_transaction_dupe_check : bool;
  skip_authority_check : bool;          (* or skip_transaction_signatures *)
  skip_tapos_check : bool;
  skip_merkle_check : bool;
  skip_header : Slots.skip_flags
}.

(** The index [by_expiration].  Transactions of the same expiration are removed
    together, so their order does not matter. *)
Definition by_expiration (x y : Z * Z) : Prop := x.2 <= y.2.
#[global] Instance by_expiration_dec x y : Decision (by_expiration x y).
Proof. unfold by_expiration. apply _. Defined.

Section Apply.

Context {Op W : Type} `{Evaluators Op W} `{Signee} `{BlockHash body} (skip : tx_flags).

Definition sched_of (c : chain W) : sched := sc (wslots (cw c)).
Definition chain_db (c : chain W) : State.db := base (sched_of c).
Definition chain_num (c : chain W) : Z := head_num (wslots (cw c)).
Definition chain_time (c : chain W) : Z := head_time (wslots (cw c)).

Definition set_world (w : world W) (c : chain W) : chain W := ChainState w (dedupe c) (summaries c).
Definition set_slots (n : slots) (c : chain W) : chain W := set_world (World n (rest (cw c))) c.
Definition set_dedupe f (c : chain W) : chain W := ChainState (cw c) (f (dedupe c)) (summaries c).

(** ** A transaction *)

Definition transaction_validate (t : transaction Op) : res unit :=
  _ ← fc_assert (negb (bool_decide (length (operations t) = 0%nat)));
  res_fold (λ _ o, operation_validate o) tt (operations t).

(** The word [_hash[1]] of a block id, the lowest of the words kept. *)
Definition id_word (x : block_id) : Z := u32 x.2.

(** TaPoS: the transaction refers to a block of this chain. *)
Definition check_tapos (t : transaction Op) (c : chain W) : res unit :=
  x ← from_option_exn out_of_range (summaries c !! ref_block_num t);
  check transaction_tapos_exception (ref_block_prefix t =? id_word x).

Definition check_expiration (t : transaction Op) (c : chain W) : res unit :=
  let now := chain_time c in
  _ ← check transaction_expiration_exception (expiration t <=? now + freezone_MAX_TIME_UNTIL_EXPIRATION);
  _ ← (if has_hardfork freezone_HARDFORK_0_9 (chain_db c) then check transaction_expiration_exception (now <? expiration t) else mret tt);
  check transaction_expiration_exception (now <=? expiration t).

(** A missing active authority is forgiven in the blocks of the Merkle table. *)
Definition authorize (t : transaction Op) (c : chain W) : res unit :=
  match verify_authority t (cw c) with
  | Throw tx_missing_active_auth =>
      if decide (is_Some (known_merkle (u32 (chain_num c + 1)))) then mret tt else Throw tx_missing_active_auth
  | r => r
  end.

Definition apply_transaction (c : chain W) (t : transaction Op) : res (chain W) :=
  let id := tx_id t in
  _ ← (if skip_validate skip then mret tt else transaction_validate t);
  _ ← fc_assert (skip_transaction_dupe_check skip || bool_decide (dedupe c !! id = None));
  _ ← (if skip_authority_check skip then mret tt else authorize t c);
  _ ← (if 0 <? chain_num c then
         _ ← (if skip_tapos_check skip then mret tt else check_tapos t c);
         check_expiration t c
       else mret tt);
  let c := if skip_transaction_dupe_check skip then c else set_dedupe <[id := expiration t]> c in
  w ← res_fold apply_operation (cw c) (operations t);
  mret (set_world w c).

(** ** A block *)

Abbreviation block := (signed_block (body * list (transaction Op))).

Definition header (b : block) : signed_block body := SignedBlock (previous b) (content b).1.
Definition txs (b : block) : list (transaction Op) := (content b).2.

Definition check_merkle (b : block) : res unit :=
  let root := merkle_root (txs b) in
  if transaction_merkle_root (content b).1 =? root then mret tt
  else if decide (known_merkle (block_num b) = Some root) then mret tt
  else Throw assert_exception.

Definition set_versions (running vote time : Z) (w : witness_info) : witness_info :=
  WitnessInfo (wi_id w) (pow_worker w) (signing_key w) (props w) (schedule w) running vote time
    (available_witness_account_subsidies w) (last_confirmed_block_num w) (last_aslot w) (total_missed w).

(** One extension of the header, with the actions collected so far. *)
Definition visit_extension (witness : name) (x : slots * list Z * list Z) (e : header_extension) : res (slots * list Z * list Z) :=
  let '(n, req, opt) := x in
  let put running vote time (w : witness_info) := (set_sc (set_infos <[witness := set_versions running vote time w]> (sc n)) n, req, opt) in
  match e with
  | ext_void => mret x
  | ext_version v =>
      w ← get_info witness (sc n);
      mret (if v =? running_version w then x else put v (hardfork_version_vote w) (hardfork_time_vote w) w)
  | ext_hardfork_vote v t =>
      w ← get_info witness (sc n);
      mret (if (v =? hardfork_version_vote w) && (t =? hardfork_time_vote w) then x else put (running_version w) v t w)
  | ext_required_actions l =>
      _ ← fc_assert (has_hardfork freezone_SST_HARDFORK (base (sc n)));
      mret (n, req ++ l, opt)
  | ext_optional_actions l =>
      _ ← fc_assert (has_hardfork freezone_SST_HARDFORK (base (sc n)));
      mret (n, req, opt ++ l)
  end.

Definition process_header_extensions (h : signed_block body) (n : slots) : res (slots * list Z * list Z) :=
  res_fold (visit_extension (block_witness (content h))) (n, [], []) (extensions (content h)).

Definition create_block_summary (h : signed_block body) (c : chain W) : res (chain W) :=
  let sid := Z.land (block_num h) 0xffff in
  _ ← from_option_exn out_of_range (summaries c !! sid);
  mret (ChainState (cw c) (dedupe c) (<[sid := block_id_of h]> (summaries c))).

Fixpoint drop_expired (now : Z) (l : list (Z * Z)) (m : gmap Z Z) : gmap Z Z :=
  match l with
  | [] => m
  | x :: l => if x.2 <? now then drop_expired now l (delete x.1 m) else m
  end.

Definition clear_expired_transactions (c : chain W) : chain W :=
  set_dedupe (λ m, drop_expired (chain_time c) (merge_sort by_expiration (map_to_list m)) m) c.

(** What ends every block. *)
Definition block_steps (req opt : list Z) : list block_step :=
  [ s_clear_expired_orders; s_clear_expired_delegations; s_update_witness_schedule; s_update_median_feed; s_update_virtual_supply;
    s_clear_null_account_balance; s_process_funds; s_process_conversions; s_process_comment_cashout; s_process_vesting_withdrawals;
    s_process_savings_withdraws; s_process_subsidized_accounts; s_pay_liquidity_reward; s_update_virtual_supply;
    s_account_recovery_processing; s_expire_escrow_ratification; s_process_decline_voting_rights; s_process_proposals;
    s_generate_required_actions; s_generate_optional_actions; s_process_required_actions req; s_process_optional_actions opt;
    s_process_hardforks ].

Definition apply_block (b : block) (c : chain W) : res (chain W) :=
  let h := header b in
  let witness := block_witness (content h) in
  c ← (if block_num h =? 1 then w ← genesis_hardforks h (cw c); mret (set_world w c) else mret c);
  _ ← (if skip_merkle_check skip then mret tt else check_merkle b);
  _ ← validate_block_header (skip_header skip) h (wslots (cw c));
  _ ← (if has_hardfork freezone_HARDFORK_0_12 (chain_db c)
       then fc_assert (pack_size h (txs b) <=? maximum_block_size (sched_of c)) else mret tt);
  let c := set_world (World (wslots (cw c)) (set_current_witness witness (rest (cw c)))) c in
  '(n, req, opt) ← process_header_extensions h (wslots (cw c));
  let c := set_slots n c in
  _ ← (if has_hardfork freezone_HARDFORK_0_5 (chain_db c) then
         w ← get_info witness (sched_of c);
         fc_assert (current_hardfork_version (hfp (sched_of c)) <=? running_version w)
       else mret tt);
  c ← res_fold apply_transaction c (txs b);
  n ← update_global_dynamic_data (skip_header skip) h (wslots (cw c));
  n ← update_signing_witness witness h n;
  n ← update_last_irreversible_block n;
  c ← create_block_summary h (set_slots n c);
  let c := clear_expired_transactions c in
  w ← res_fold run_step (cw c) (block_steps req opt);
  mret (set_world w c).

End Apply.

(** ** Laws *)

(** From one world to the other the head of the chain is the same, and no
    witness has confirmed a block that none had confirmed. *)
Record head_kept {W} (x y : world W) : Prop := HeadKept {
  hk_id : head_block_id (wslots y) = head_block_id (wslots x);
  hk_num : head_num (wslots y) = head_num (wslots x);
  hk_time : head_time (wslots y) = head_time (wslots x);
  hk_lib : last_irreversible_block_num (wslots y) = last_irreversible_block_num (wslots x);
  hk_confirmed : ∀ n i, infos (sc (wslots y)) !! n = Some i →
    last_confirmed_block_num i = 0 ∨ ∃ m j, infos (sc (wslots x)) !! m = Some j ∧ last_confirmed_block_num i = last_confirmed_block_num j
}.

Class EvaluatorLaws (Op W : Type) `{Evaluators Op W} : Prop := {
  genesis_kept b x y : genesis_hardforks b x = Ok y → head_kept x y;
  operation_kept o x y : apply_operation x o = Ok y → head_kept x y;
  step_kept s x y : run_step x s = Ok y → head_kept x y
}.

#[global] Instance head_kept_refl {W} : Reflexive (@head_kept W).
Proof. intros x. split; eauto. Qed.
#[global] Instance head_kept_trans {W} : Transitive (@head_kept W).
Proof.
  intros x y z [I1 N1 T1 L1 C1] [I2 N2 T2 L2 C2]. split; try congruence.
  intros n i [?|(m & j & Hj & E)]%C2; [by left|]. apply C1 in Hj as [E'|(m' & j' & Hj' & E')]; [left; congruence|].
  right. exists m', j'. split; [done|congruence].
Qed.

Lemma fold_kept {W A} (f : world W → A → res (world W)) x l y :
  (∀ x a y, f x a = Ok y → head_kept x y) → res_fold f x l = Ok y → head_kept x y.
Proof.
  intros Hf. apply (res_fold_ind (λ z, head_kept x z)); [done|]. intros z a z' _ Hz Hz'. etrans; [exact Hz|]. by eapply Hf.
Qed.

(** Writes of one witness that keep its confirmation. *)
Definition info_kept (n n' : slots) : Prop :=
  ∀ w i, infos (sc n') !! w = Some i → ∃ j, infos (sc n) !! w = Some j ∧ last_confirmed_block_num i = last_confirmed_block_num j.

Lemma info_kept_put n w i j :
  infos (sc n) !! w = Some j → last_confirmed_block_num i = last_confirmed_block_num j →
  info_kept n (set_sc (set_infos <[w := i]> (sc n)) n).
Proof.
  intros Hj E v x Hx. cbn in Hx. destruct (decide (v = w)) as [->|]; [|rewrite lookup_insert_ne in Hx by done; eauto].
  rewrite lookup_insert_eq in Hx. injection Hx as <-. eauto.
Qed.

#[local] Instance info_kept_refl : Reflexive info_kept.
Proof. intros n w i Hi. eauto. Qed.
#[local] Instance info_kept_trans : Transitive info_kept.
Proof. intros x y z H1 H2 w i (j & Hj & E)%H2. apply H1 in Hj as (j' & ? & ?). exists j'. split; [done|congruence]. Qed.

Lemma visit_extension_kept w x e y :
  visit_extension w x e = Ok y →
  info_kept x.1.1 y.1.1 ∧ ∃ m, y.1.1 = set_sc (set_infos (λ _, m) (sc x.1.1)) x.1.1.
Proof.
  assert (∀ n : slots, n = set_sc (set_infos (λ _, infos (sc n)) (sc n)) n) as Hid by (by intros [[] ? ? ? ? ?]).
  destruct x as [[n req] opt]. destruct e as [|v|v t|l|l]; cbn [visit_extension]; intros H.
  - injection H as <-. split; [done|]. eexists. apply Hid.
  - apply bind_Ok in H as (i & Hi & H). apply from_option_exn_Ok in Hi. destruct (_ =? _); injection H as <-; cbn.
    + split; [done|]. eexists. apply Hid.
    + split; [by eapply info_kept_put|by eexists].
  - apply bind_Ok in H as (i & Hi & H). apply from_option_exn_Ok in Hi. destruct (_ && _); injection H as <-; cbn.
    + split; [done|]. eexists. apply Hid.
    + split; [by eapply info_kept_put|by eexists].
  - apply bind_Ok in H as (? & _ & H). injection H as <-. split; [done|]. eexists. apply Hid.
  - apply bind_Ok in H as (? & _ & H). injection H as <-. split; [done|]. eexists. apply Hid.
Qed.

Lemma process_extensions_kept {W} h n n' req opt (r : W) :
  process_header_extensions h n = Ok (n', req, opt) → head_kept (World n r) (World n' r).
Proof.
  intros H. unfold process_header_extensions in H.
  assert (info_kept n n' ∧ ∃ m, n' = set_sc (set_infos (λ _, m) (sc n)) n) as [Hk (m & ->)].
  { change n' with ((n', req, opt).1.1). revert H.
    apply (res_fold_ind (λ x, info_kept n x.1.1 ∧ ∃ m, x.1.1 = set_sc (set_infos (λ _, m) (sc n)) n)).
    - split; [done|]. exists (infos (sc n)). by destruct n as [[] ? ? ? ? ?].
    - intros x e y _ [Hk (m & E)] [Hy (m' & E')]%visit_extension_kept. split; [by etrans|]. exists m'. by rewrite E', E. }
  split; try done. intros w i (j & Hj & E)%Hk. right. eauto.
Qed.

Lemma miss_slots_kept b l n n' : res_fold (miss_slot b) n l = Ok n' → info_kept n n'.
Proof.
  apply (res_fold_ind (info_kept n)); [done|]. intros x i y _ Hx H. etrans; [exact Hx|]. unfold miss_slot in H.
  apply bind_Ok in H as (m & _ & H). apply bind_Ok in H as (w & Hw & H). apply from_option_exn_Ok in Hw. cbv zeta in H.
  destruct (bool_decide _); injection H as <-; [done|]. by eapply info_kept_put.
Qed.

Lemma scheduled_infos_elem s l i : scheduled_infos s = Ok l → i ∈ l → ∃ n, infos s !! n = Some i.
Proof.
  intros H. revert i. unfold scheduled_infos in H. revert H. apply (res_fold_ind (λ l, ∀ i, i ∈ l → ∃ n, infos s !! n = Some i)).
  - intros i Hi. by apply not_elem_of_nil in Hi.
  - intros l1 n l2 _ Hl H i Hi. apply bind_Ok in H as (j & Hj & H). apply from_option_exn_Ok in Hj. injection H as <-.
    apply elem_of_app in Hi as [Hi|Hi%list_elem_of_singleton]; [by apply Hl|]. subst. eauto.
Qed.

(** ** The state between blocks *)

Record chain_inv {W} (c : chain W) : Prop := ChainInv {
  ci_num : num_from_id (head_block_id (wslots (cw c))) = chain_num c;
  ci_lib : 0 <= last_irreversible_block_num (wslots (cw c)) <= chain_num c;
  ci_early : chain_num c < freezone_START_MINER_VOTING_BLOCK →
    last_irreversible_block_num (wslots (cw c)) <= Z.max 0 (chain_num c - freezone_MAX_WITNESSES);
  ci_confirmed : ∀ n i, infos (sched_of c) !! n = Some i → 0 <= last_confirmed_block_num i <= chain_num c;
  ci_range : chain_num c < 2 ^ 32
}.

Lemma update_lib_spec n n' :
  (∀ w i, infos (sc n) !! w = Some i → 0 <= last_confirmed_block_num i <= head_num n) → head_num n < 2 ^ 32 →
  0 <= last_irreversible_block_num n <= head_num n →
  (head_num n < freezone_START_MINER_VOTING_BLOCK → last_irreversible_block_num n <= Z.max 0 (head_num n - freezone_MAX_WITNESSES)) →
  update_last_irreversible_block n = Ok n' →
  n' = set_irreversible (last_irreversible_block_num n') n
  ∧ last_irreversible_block_num n <= last_irreversible_block_num n' <= head_num n
  ∧ (head_num n < freezone_START_MINER_VOTING_BLOCK → last_irreversible_block_num n' <= Z.max 0 (head_num n - freezone_MAX_WITNESSES)).
Proof.
  intros Hc Hr Hl He H. assert (∀ x : slots, x = set_irreversible (last_irreversible_block_num x) x) as Hid by (by intros []).
  unfold update_last_irreversible_block in H. destruct (Z.ltb_spec (head_num n) freezone_START_MINER_VOTING_BLOCK) as [Hs|Hs].
  - injection H as <-. specialize (He Hs). change freezone_MAX_WITNESSES with 21 in *. destruct (Z.ltb_spec 21 (head_num n)); cbn [set_irreversible last_irreversible_block_num].
    + split; [done|]. split; [lia|]. lia.
    + split; [apply Hid|]. split; [lia|done].
  - apply bind_Ok in H as (l & Hl' & H). apply bind_Ok in H as (v & Hv & H). cbv zeta in H. injection H as <-.
    apply from_option_exn_Ok, list_elem_of_lookup_2 in Hv. rewrite merge_sort_Permutation in Hv. apply list_elem_of_fmap in Hv as (i & -> & Hi).
    apply (scheduled_infos_elem _ _ _ Hl') in Hi as (w & Hw%Hc). unfold u32. rewrite wrapu_small by (unfold in_u; lia).
    destruct (Z.ltb_spec (last_irreversible_block_num n) (last_confirmed_block_num i)); cbn [set_irreversible last_irreversible_block_num].
    + split; [done|]. split; [lia|lia].
    + split; [apply Hid|]. split; [lia|lia].
Qed.

Section Laws.

Context {Op W : Type} {EV : Evaluators Op W} {EL : EvaluatorLaws Op W} {SG : Signee} {BH : BlockHash body} (skip : tx_flags).

Abbreviation block := (signed_block (body * list (transaction Op))).
Implicit Types (c : chain W) (b : block) (t : transaction Op).

Lemma apply_transaction_kept c t c' :
  apply_transaction skip c t = Ok c' → head_kept (cw c) (cw c') ∧ summaries c' = summaries c
    ∧ dedupe c' = if skip_transaction_dupe_check skip then dedupe c else <[tx_id t := expiration t]> (dedupe c).
Proof.
  unfold apply_transaction. intros Ht. do 4 apply bind_Ok in Ht as (? & _ & Ht). apply bind_Ok in Ht as (w & Hw & Ht). injection Ht as <-.
  apply (fold_kept apply_operation) in Hw; [|intros ? o ?; apply operation_kept].
  destruct (skip_transaction_dupe_check skip); split_and!; done.
Qed.

Lemma apply_transactions_kept c l c' :
  res_fold (apply_transaction skip) c l = Ok c' → head_kept (cw c) (cw c') ∧ summaries c' = summaries c.
Proof.
  apply (res_fold_ind (λ x, head_kept (cw c) (cw x) ∧ summaries x = summaries c)); [done|].
  intros x t y _ [Hx Ex] (Hy & Ey & _)%apply_transaction_kept. split; [by etrans|congruence].
Qed.

(** The parts of a block: the checks, the transactions, the bookkeeping, the
    steps. *)
Lemma apply_block_parts b c c' :
  apply_block skip b c = Ok c' →
  previous b = head_block_id (wslots (cw c)) ∧ chain_time c < timestamp (content b).1 ∧
  ∃ c1 c2 n1 n2 n3 c3 w req opt,
    head_kept (cw c) (cw c1) ∧ dedupe c1 = dedupe c ∧ summaries c1 = summaries c
    ∧ res_fold (apply_transaction skip) c1 (txs b) = Ok c2
    ∧ update_global_dynamic_data (skip_header skip) (header b) (wslots (cw c2)) = Ok n1
    ∧ update_signing_witness (block_witness (content b).1) (header b) n1 = Ok n2
    ∧ update_last_irreversible_block n2 = Ok n3
    ∧ create_block_summary (header b) (set_slots n3 c2) = Ok c3
    ∧ res_fold run_step (cw (clear_expired_transactions c3)) (block_steps req opt) = Ok w
    ∧ c' = set_world w (clear_expired_transactions c3).
Proof.
  unfold apply_block. cbv zeta. intros Hb. apply bind_Ok in Hb as (c0 & H0 & Hb). apply bind_Ok in Hb as (? & _ & Hb).
  apply bind_Ok in Hb as (wi & Hv & Hb). apply bind_Ok in Hb as (? & _ & Hb). apply bind_Ok in Hb as ([[n req] opt] & He & Hb).
  apply bind_Ok in Hb as (? & _ & Hb). apply bind_Ok in Hb as (c2 & H2 & Hb). apply bind_Ok in Hb as (n1 & Hn1 & Hb).
  apply bind_Ok in Hb as (n2 & Hn2 & Hb). apply bind_Ok in Hb as (n3 & Hn3 & Hb). apply bind_Ok in Hb as (c3 & H3 & Hb).
  apply bind_Ok in Hb as (w & Hw & Hb). injection Hb as <-.
  assert (head_kept (cw c) (cw c0) ∧ dedupe c0 = dedupe c ∧ summaries c0 = summaries c) as (K0 & D0 & S0).
  { destruct (_ =? 1); [|by injection H0 as <-]. apply bind_Ok in H0 as (w0 & Hw0%genesis_kept & H0). by injection H0 as <-. }
  assert (previous b = head_block_id (wslots (cw c)) ∧ chain_time c < timestamp (content b).1) as [Hp Ht].
  { unfold validate_block_header in Hv. apply bind_Ok in Hv as (? & Hid%fc_assert_Ok & Hv). apply bind_Ok in Hv as (? & Hlt%fc_assert_Ok & _).
    bools. cbn [header previous content] in *. rewrite (hk_id _ _ K0) in Hid. rewrite (hk_time _ _ K0) in Hlt. by split. }
  split; [done|]. split; [done|]. match type of H2 with res_fold _ ?x _ = _ => exists x, c2, n1, n2, n3, c3, w, req, opt end.
  split_and!; [|exact D0|exact S0|exact H2|done..].
  etrans; [exact K0|]. cbn [cw set_slots set_world wslots rest] in *. etrans; [|by eapply process_extensions_kept].
  by split; eauto.
Qed.

Lemma u32_next x : 0 <= x < 2 ^ 32 → u32 (x + 1) ≠ 0 → u32 (x + 1) = x + 1.
Proof. intros Hx Hn. unfold u32, wrapu in *. mlia. Qed.

(** The bookkeeping of a block. *)
Lemma bookkeeping_spec c b n1 n2 n3 :
  chain_inv c → skip_undo_history_check (skip_header skip) = false → previous b = head_block_id (wslots (cw c)) → block_num b ≠ 0 →
  update_global_dynamic_data (skip_header skip) (header b) (wslots (cw c)) = Ok n1 →
  update_signing_witness (block_witness (content b).1) (header b) n1 = Ok n2 →
  update_last_irreversible_block n2 = Ok n3 →
  chain_inv (set_slots n3 c) ∧ head_block_id n3 = block_id_of (header b) ∧ head_num n3 = block_num b ∧ head_num n3 = chain_num c + 1
  ∧ head_time n3 = timestamp (content b).1
  ∧ last_irreversible_block_num (wslots (cw c)) <= last_irreversible_block_num n3
  ∧ head_num n3 < last_irreversible_block_num n3 + freezone_MAX_UNDO_HISTORY.
Proof.
  intros [Hnum Hlib Hearly Hconf Hrange] Hskip Hprev Hnz H1 H2 H3.
  destruct (update_global_frame (skip_header skip) (header b) _ n1 _ H1 eq_refl) as (_ & Et1 & En1 & Ei1 & _ & El1).
  assert (block_num (header b) = chain_num c + 1) as Enum.
  { unfold block_num in *. cbn [header previous]. rewrite Hprev, Hnum in *. apply u32_next; [lia|done]. }
  assert (info_kept (wslots (cw c)) n1 ∧ u32 (head_num n1 - last_irreversible_block_num n1) < freezone_MAX_UNDO_HISTORY) as [Hk Hundo].
  { unfold update_global_dynamic_data in H1. cbv zeta in H1. rewrite Hskip in H1. apply bind_Ok in H1 as (x & Hx%miss_slots_kept & H1).
    apply bind_Ok in H1 as (y & (f & k & ->)%fill_slots_frame & H1). apply bind_Ok in H1 as (? & Hc%check_Ok & H1). injection H1 as <-. bools. done. }
  unfold update_signing_witness in H2. apply bind_Ok in H2 as (wi & Hwi & H2). apply from_option_exn_Ok in Hwi. injection H2 as <-. set (n2 := set_sc _ n1) in *.
  assert (head_num n2 = chain_num c + 1 ∧ last_irreversible_block_num n2 = last_irreversible_block_num (wslots (cw c))) as [En2 El2].
  { split; [change (head_num n2) with (head_num n1); lia|exact El1]. }
  assert (chain_num c + 1 < 2 ^ 32) as Hr'.
  { rewrite <- Enum. unfold block_num, u32, wrapu. apply Z.mod_pos_bound. lia. }
  destruct (update_lib_spec n2 n3) as (E3 & Hl3 & He3); [|lia|lia| |done|].
  { intros w i Hi. cbn in Hi. rewrite En2. destruct (decide (w = block_witness (content b).1)) as [->|].
    - rewrite lookup_insert_eq in Hi. injection Hi as <-. cbn. lia.
    - rewrite lookup_insert_ne in Hi by done. apply Hk in Hi as (j & Hj%Hconf & ->). lia. }
  { intros Hs. rewrite En2 in *. rewrite El2. specialize (Hearly ltac:(lia)). lia. }
  assert (head_num n3 = chain_num c + 1) as En3 by (rewrite E3; exact En2).
  assert (head_block_id n3 = block_id_of (header b)) as Ei3 by (rewrite E3; exact Ei1).
  split_and!; [|done|by rewrite En3|done|rewrite E3; exact Et1|lia|].
  - split; unfold chain_num, sched_of; cbn [set_slots set_world cw wslots].
    + by rewrite Ei3, num_from_block_id, Enum.
    + lia.
    + rewrite En3. rewrite En2 in He3. done.
    + intros w i Hi. rewrite E3 in Hi. cbn in Hi. rewrite En3. destruct (decide (w = block_witness (content b).1)) as [->|].
      * rewrite lookup_insert_eq in Hi. injection Hi as <-. cbn. lia.
      * rewrite lookup_insert_ne in Hi by done. apply Hk in Hi as (j & Hj%Hconf & ->). lia.
    + lia.
  - rewrite En1, El1, Enum in Hundo. unfold u32 in Hundo. rewrite wrapu_small in Hundo by (unfold in_u; lia). lia.
Qed.

Lemma kept_inv c c' : chain_inv c → head_kept (cw c) (cw c') → chain_inv c'.
Proof.
  intros [Hn Hl He Hc Hr] [I N T L C]. unfold chain_num, sched_of in *.
  split; unfold chain_num, sched_of; rewrite ?I, ?N, ?L; try done.
  intros n i [E|(m & j & Hj & ->)]%C; [lia|by eapply Hc].
Qed.

(** The transactions of the table that are removed are those that expired before
    [now]. *)
Definition unexpired (now : Z) (x : option Z) : option Z := e ← x; if e <? now then None else Some e.

Lemma drop_expired_lookup now l (m : gmap Z Z) k :
  StronglySorted by_expiration l → NoDup l.*1 → (∀ x, x ∈ l → m !! x.1 = Some x.2) →
  (∀ i e, m !! i = Some e → e < now → (i, e) ∈ l) →
  drop_expired now l m !! k = unexpired now (m !! k).
Proof.
  revert m. induction l as [|[i e] l IH]; intros m Hs Hnd Hm Hl; cbn [drop_expired fst snd].
  { destruct (m !! k) as [e|] eqn:E; [|done]. cbn. destruct (Z.ltb_spec e now) as [Hlt|]; [|done]. by destruct (not_elem_of_nil _ (Hl _ _ E Hlt)). }
  apply StronglySorted_cons in Hs as [Hf Hs]. cbn in Hnd. apply NoDup_cons in Hnd as [Hi Hnd].
  destruct (Z.ltb_spec e now) as [Hlt|Hge].
  - rewrite IH; [|done|done| |].
    + destruct (decide (k = i)) as [->|Hne]; [|by rewrite lookup_delete_ne by done].
      pose proof (Hm (i, e) ltac:(by left)) as E. cbn in E. rewrite lookup_delete_eq, E. cbn. by rewrite (proj2 (Z.ltb_lt _ _) Hlt).
    + intros [i' e'] Hx. cbn. rewrite lookup_delete_ne; [apply (Hm (i', e')); by right|]. intros ->. apply Hi.
      change i' with ((i', e').1). by apply list_elem_of_fmap_2.
    + intros i' e' [Hne E]%lookup_delete_Some Hlt'. apply (Hl _ _ E) in Hlt'. apply elem_of_cons in Hlt' as [[= -> ->]|]; done.
  - destruct (m !! k) as [e'|] eqn:E; [|done]. cbn. destruct (Z.ltb_spec e' now) as [Hlt'|]; [|done].
    apply (Hl _ _ E) in Hlt' as Hin. apply elem_of_cons in Hin as [[= -> ->]|Hin]; [lia|]. rewrite Forall_forall in Hf. apply Hf in Hin. unfold by_expiration in Hin. cbn in Hin. lia.
Qed.

#[local] Instance by_expiration_total : Total by_expiration.
Proof. intros x y. unfold by_expiration. lia. Qed.
#[local] Instance by_expiration_trans : Transitive by_expiration.
Proof. intros x y z. unfold by_expiration. lia. Qed.

Lemma clear_expired_lookup c k :
  dedupe (clear_expired_transactions c) !! k = unexpired (chain_time c) (dedupe c !! k).
Proof.
  cbn [clear_expired_transactions set_dedupe dedupe]. apply drop_expired_lookup.
  - apply (StronglySorted_merge_sort by_expiration).
  - rewrite merge_sort_Permutation. apply NoDup_fst_map_to_list.
  - intros [i e]. by rewrite merge_sort_Permutation, elem_of_map_to_list.
  - intros i e He _. by rewrite merge_sort_Permutation, elem_of_map_to_list.
Qed.

Lemma create_block_summary_Ok h c c' :
  create_block_summary h c = Ok c' → c' = ChainState (cw c) (dedupe c) (<[Z.land (block_num h) 0xffff := block_id_of h]> (summaries c)).
Proof.
  unfold create_block_summary. cbv zeta. generalize (<[Z.land (block_num h) 0xffff := block_id_of h]> (summaries c)) as m.
  intros m Hc. apply bind_Ok in Hc as (? & _ & Hc). by injection Hc.
Qed.

(** What a block does to the head, and to the tables of transactions and of
    blocks. *)
Lemma apply_block_spec b c c' :
  chain_inv c → skip_undo_history_check (skip_header skip) = false → block_num b ≠ 0 → apply_block skip b c = Ok c' →
  chain_inv c' ∧ previous b = head_block_id (wslots (cw c)) ∧ head_block_id (wslots (cw c')) = block_id_of (header b)
  ∧ chain_num c' = block_num b ∧ chain_num c' = chain_num c + 1 ∧ chain_time c < chain_time c' ∧ chain_time c' = timestamp (content b).1
  ∧ last_irreversible_block_num (wslots (cw c)) <= last_irreversible_block_num (wslots (cw c'))
  ∧ chain_num c' < last_irreversible_block_num (wslots (cw c')) + freezone_MAX_UNDO_HISTORY
  ∧ summaries c' = <[Z.land (block_num b) 0xffff := block_id_of (header b)]> (summaries c)
  ∧ ∃ c1 c2, head_kept (cw c) (cw c1) ∧ dedupe c1 = dedupe c ∧ summaries c1 = summaries c
      ∧ res_fold (apply_transaction skip) c1 (txs b) = Ok c2
      ∧ ∀ k, dedupe c' !! k = unexpired (chain_time c') (dedupe c2 !! k).
Proof.
  intros Hinv Hskip Hnz Hb. apply apply_block_parts in Hb as (Hp & Ht & c1 & c2 & n1 & n2 & n3 & c3 & w & req & opt & K1 & D1 & S1 & H2 & Hn1 & Hn2 & Hn3 & H3 & Hw & ->).
  destruct (apply_transactions_kept c1 (txs b) c2 H2) as [K2 S2]. assert (head_kept (cw c) (cw c2)) as K by (by etrans).
  destruct (bookkeeping_spec c2 b n1 n2 n3) as (I3 & Ei & En & En' & Et & Hl & Hu); [by eapply kept_inv|done|by rewrite (hk_id _ _ K)|done..|].
  apply create_block_summary_Ok in H3 as ->. set (c3 := ChainState _ _ _) in *.
  assert (head_kept (cw c3) w) as Kw by (eapply (fold_kept run_step); [intros ? s ?; apply step_kept|exact Hw]).
  assert (chain_num c2 = chain_num c) as E2 by apply K.
  assert (chain_time (set_world w (clear_expired_transactions c3)) = head_time n3) as Etime by apply (hk_time _ _ Kw).
  split_and!.
  - apply (kept_inv (set_slots n3 c2)); [done|exact Kw].
  - done.
  - rewrite <- Ei. apply (hk_id _ _ Kw).
  - rewrite <- En. apply (hk_num _ _ Kw).
  - unfold chain_num at 1. cbn [set_world cw]. rewrite (hk_num _ _ Kw). change (head_num (wslots (cw c3))) with (head_num n3). lia.
  - rewrite Etime, Et. done.
  - by rewrite Etime.
  - cbn [set_world cw]. rewrite (hk_lib _ _ Kw). change (last_irreversible_block_num (wslots (cw c3))) with (last_irreversible_block_num n3).
    rewrite <- (hk_lib _ _ K). done.
  - unfold chain_num. cbn [set_world cw]. rewrite (hk_num _ _ Kw), (hk_lib _ _ Kw). exact Hu.
  - cbn. by rewrite S2, S1.
  - exists c1, c2. split_and!; [done..|]. intros k. change (dedupe (set_world w (clear_expired_transactions c3)) !! k) with (dedupe (clear_expired_transactions c3) !! k).
    rewrite clear_expired_lookup, Etime. done.
Qed.

(** ** Every transaction once *)

Hypothesis dupe_checked : skip_transaction_dupe_check skip = false.
Hypothesis tapos_checked : skip_tapos_check skip = false.
Hypothesis undo_checked : skip_undo_history_check (skip_header skip) = false.

(** The transactions [L] are in the table, or can no longer be applied. *)
Definition seen (L : list (transaction Op)) c : Prop :=
  ∀ t, t ∈ L → dedupe c !! tx_id t = Some (expiration t) ∨ 0 < chain_num c ∧ expiration t < chain_time c.

(** The table of block ids holds the latest of the blocks [bs] of each slot. *)
Definition summarized (bs : list block) c : Prop :=
  ∀ k b, last (filter (λ x, Z.land (block_num x) 0xffff = k) bs) = Some b → summaries c !! k = Some (block_id_of (header b)).

(** A transaction of the main chain: its expiration and the block it names. *)
Definition timely c t : Prop :=
  0 < chain_num c →
  chain_time c <= expiration t <= chain_time c + freezone_MAX_TIME_UNTIL_EXPIRATION
  ∧ ∃ x, summaries c !! ref_block_num t = Some x ∧ ref_block_prefix t = id_word x.

Lemma timely_kept c c' t : head_kept (cw c) (cw c') → summaries c' = summaries c → timely c' t → timely c t.
Proof. intros K S. unfold timely, chain_num, chain_time. by rewrite (hk_num _ _ K), (hk_time _ _ K), S. Qed.

Lemma apply_transaction_checks c t c' :
  apply_transaction skip c t = Ok c' → dedupe c !! tx_id t = None ∧ timely c t.
Proof.
  unfold apply_transaction. rewrite dupe_checked, tapos_checked. intros Ht. apply bind_Ok in Ht as (? & _ & Ht).
  apply bind_Ok in Ht as (? & Hd%fc_assert_Ok & Ht). apply bind_Ok in Ht as (? & _ & Ht). apply bind_Ok in Ht as (? & Hc & _).
  cbn [orb] in Hd. bools. split; [done|]. intros Hn. rewrite (proj2 (Z.ltb_lt _ _) Hn) in Hc. apply bind_Ok in Hc as (? & Hp & He).
  unfold check_tapos in Hp. apply bind_Ok in Hp as (y & Hx%from_option_exn_Ok & Hp%check_Ok).
  unfold check_expiration in He. cbv zeta in He. apply bind_Ok in He as (? & He1%check_Ok & He). apply bind_Ok in He as (? & _ & He%check_Ok).
  bools. split; [lia|]. by exists y.
Qed.

Lemma apply_transactions_once l c c' L :
  seen L c → NoDup L → res_fold (apply_transaction skip) c l = Ok c' →
  seen (L ++ l) c' ∧ NoDup (L ++ l) ∧ Forall (timely c) l.
Proof.
  revert c L. induction l as [|t l IH]; intros c L Hs Hd H; cbn in H.
  { injection H as <-. by rewrite app_nil_r. }
  apply bind_Ok in H as (c1 & H1 & H). destruct (apply_transaction_checks _ _ _ H1) as [Hfresh Ht].
  destruct (apply_transaction_kept _ _ _ H1) as (K & S & D). rewrite dupe_checked in D.
  destruct (IH c1 (L ++ [t])) as (Hs' & Hd' & Hf); [| |done|].
  - intros x [Hx| ->%list_elem_of_singleton]%elem_of_app; rewrite D; [|left; apply lookup_insert_eq].
    unfold chain_num, chain_time. rewrite (hk_num _ _ K), (hk_time _ _ K). destruct (Hs x Hx) as [E|E]; [left|by right].
    rewrite lookup_insert_ne; [done|]. congruence.
  - apply NoDup_app. split_and!; [done| |apply NoDup_singleton]. intros x Hx ->%list_elem_of_singleton.
    destruct (Hs t Hx) as [E|[Hn He]]; [congruence|]. destruct (Ht Hn) as [? _]. lia.
  - rewrite <- app_assoc in Hs', Hd'. split; [exact Hs'|]. split; [exact Hd'|]. constructor; [done|]. apply (Forall_impl _ _ _ Hf). intros x. by apply timely_kept.
Qed.

(** One more block. *)
Lemma apply_block_once bs b c c' L :
  chain_inv c → seen L c → NoDup L → summarized bs c → block_num b ≠ 0 → apply_block skip b c = Ok c' →
  chain_inv c' ∧ 0 < chain_num c' ∧ chain_time c' = timestamp (content b).1 ∧ seen (L ++ txs b) c' ∧ NoDup (L ++ txs b)
  ∧ summarized (bs ++ [b]) c' ∧ Forall (timely c) (txs b).
Proof.
  intros Hinv Hs Hd Hsum Hnz Hb.
  destruct (apply_block_spec b c c') as (Hinv' & _ & _ & En & En' & Ht & Et & _ & _ & Esum & c1 & c2 & K & D & S & H2 & Hd2); [done..|].
  destruct (apply_transactions_once (txs b) c1 c2 L) as (Hs2 & Hnd & Hf); [|done..|].
  { intros t Hx. unfold chain_num, chain_time. rewrite D, (hk_num _ _ K), (hk_time _ _ K). by apply Hs. }
  assert (0 <= chain_num c) as Hn by (destruct Hinv; lia). destruct (apply_transactions_kept _ _ _ H2) as [K2 _].
  split_and!; [done|lia|done| |done| |].
  - intros t Hx. rewrite Hd2. destruct (Hs2 t Hx) as [->|[? He]].
    + cbn. destruct (Z.ltb_spec (expiration t) (chain_time c')); [right; lia|by left].
    + right. unfold chain_time in *. rewrite (hk_time _ _ K2), (hk_time _ _ K) in He. lia.
  - intros k x Hx. rewrite filter_app in Hx. rewrite Esum.
    destruct (decide (Z.land (block_num b) 0xffff = k)) as [Hk|Hk].
    + rewrite filter_cons_True, filter_nil, last_snoc in Hx by done. injection Hx as <-. rewrite Hk. apply lookup_insert_eq.
    + rewrite filter_cons_False, filter_nil, app_nil_r in Hx by done. rewrite lookup_insert_ne by done. by apply Hsum.
  - apply (Forall_impl _ _ _ Hf). intros t. by apply timely_kept.
Qed.

Definition apply_blocks c (bs : list block) : res (chain W) := res_fold (λ c b, apply_block skip b c) c bs.

Lemma apply_blocks_once bs c c' pre L :
  chain_inv c → seen L c → NoDup L → summarized pre c → Forall (λ b, block_num b ≠ 0) bs → apply_blocks c bs = Ok c' →
  chain_inv c' ∧ NoDup (L ++ concat (txs <$> bs))
  ∧ ∀ l b0 b r t, bs = l ++ b0 :: b :: r → t ∈ txs b →
    timestamp (content b0).1 <= expiration t <= timestamp (content b0).1 + freezone_MAX_TIME_UNTIL_EXPIRATION
    ∧ ∀ x, last (filter (λ x, Z.land (block_num x) 0xffff = ref_block_num t) (pre ++ l ++ [b0])) = Some x →
      ref_block_prefix t = id_word (block_id_of (header x)).
Proof.
  unfold apply_blocks. revert c pre L. induction bs as [|b bs IH]; intros c pre L Hinv Hs Hd Hsum Hnz H; cbn in H.
  { injection H as <-. rewrite app_nil_r. split_and!; [done..|]. by intros [] *. }
  apply bind_Ok in H as (c1 & H1 & H). apply Forall_cons in Hnz as [Hb Hnz].
  destruct (apply_block_once pre b c c1 L) as (Hinv1 & Hn1 & Et & Hs1 & Hd1 & Hsum1 & _); [done..|].
  destruct (IH c1 (pre ++ [b]) (L ++ txs b)) as (Hinv' & Hd' & Hall); [done..|].
  split_and!; [done|rewrite fmap_cons; cbn [concat]; by rewrite app_assoc|].
  intros [|b' l] b0 b2 r t E Ht; injection E as -> ->; cycle 1.
  { destruct (Hall l b0 b2 r t) as [He Hp]; [done..|]. split; [done|]. intros x Hx. apply Hp. by rewrite <- app_assoc. }
  cbn in H. apply bind_Ok in H as (c2 & H2 & _). apply Forall_cons in Hnz as [Hb2 _].
  destruct (apply_block_once (pre ++ [b0]) b2 c1 c2 (L ++ txs b0)) as (_ & _ & _ & _ & _ & _ & Hf); [done..|].
  rewrite Forall_forall in Hf. destruct (Hf t Ht Hn1) as (He & y & Hy & Ep). rewrite Et in He. split; [done|].
  intros x Hx%Hsum1. congruence.
Qed.

(** C6: a transaction is applied once, on the chain it was signed for.  Whatever
    blocks are applied one after the other with the duplicate, TaPoS and undo
    history checks on (they are skipped below a checkpoint), from a state with the
    chain invariant, none of their transactions is in them twice: after its
    expiration it is no longer in the table of known transactions, but then it is
    rejected as expired.  A transaction of a block expires between the time of
    the block before and an hour later, and the block that it names by number and
    prefix is the latest of these blocks with that number (modulo
    65536), if there is one.  Assumed: no 32-bit block number has wrapped to 0, and the operations
    and the steps at the end of a block keep the head and the last irreversible
    block and give no witness a confirmation that none had (EvaluatorLaws).
    Nothing is assumed of the hash of a transaction. *)
Theorem transactions_applied_once c bs c' :
  chain_inv c → Forall (λ b, block_num b ≠ 0) bs → apply_blocks c bs = Ok c' →
  chain_inv c' ∧ NoDup (concat (txs <$> bs))
  ∧ ∀ l b0 b r t, bs = l ++ b0 :: b :: r → t ∈ txs b →
    timestamp (content b0).1 <= expiration t <= timestamp (content b0).1 + freezone_MAX_TIME_UNTIL_EXPIRATION
    ∧ ∀ x, last (filter (λ x, Z.land (block_num x) 0xffff = ref_block_num t) (l ++ [b0])) = Some x →
      ref_block_prefix t = id_word (block_id_of (header x)).
Proof.
  intros Hinv Hnz H. apply (apply_blocks_once bs c c' [] []); [done| |apply NoDup_nil_2| |done..].
  - intros t Ht. by apply not_elem_of_nil in Ht.
  - intros k b Hb. by rewrite filter_nil in Hb.
Qed.

(** ** The chain of ForkSwitch.v *)

#[local] Instance block_hash : BlockHash (body * list (transaction Op)) := λ b, hash_words (header b).

#[local] Instance block_chain : Chain (body * list (transaction Op)) (chain W) (transaction Op) := {|
  chain_hash := block_hash;
  execute := apply_block skip;
  ForkSwitch.head_block_id c := head_block_id (wslots (cw c));
  chain_head_num := chain_num;
  last_irreversible c := last_irreversible_block_num (wslots (cw c));
  transactions := snd;
  state_ok := chain_inv
|}.

Lemma apply_block_laws : ChainLaws (body * list (transaction Op)) (chain W) (transaction Op).
Proof.
  split; intros b c c' Hc Hn H; change (apply_block skip b c = Ok c') in H;
    destruct (apply_block_spec b c c') as (Hc' & Hp & Hi & En & _ & _ & _ & Hl & Hu & _); try done.
  change (chain_inv c) in Hc. destruct Hc, Hc'. cbn. split; lia.
Qed.

(** C7: block application keeps what pushing and switching blocks rely on.  From
    a state with the chain invariant, a block whose 32-bit number has not wrapped
    to 0 and that is applied follows the head; then it is the head, its number
    the head number, and the invariant holds again.  The last irreversible block
    never goes back, is not after the head, and is less than the undo history
    behind it.  Conditions: the check of the undo history is not skipped (it is below a
    checkpoint), and the operations, the hardforks of the first block and the steps at
    the end of a block keep the head (id, number, time) and the last irreversible
    block, and give no witness a confirmation that no witness had (EvaluatorLaws). *)
Theorem block_application_is_a_chain : ChainLaws (body * list (transaction Op)) (chain W) (transaction Op).
Proof. exact apply_block_laws. Qed.

End Laws.

(** ** Two blocks *)

Module BlocksExample.
Import SlotsExample.

(** Operations are amounts that are added to a total; negative ones fail. *)
#[export] Instance sample_evaluators : Evaluators Z Z := {|
  tx_id t := expiration t * 1000 + foldr Z.add 0 (operations t);
  merkle_root l := Z.of_nat (length l);
  pack_size _ l := 200 + 100 * Z.of_nat (length l);
  known_merkle _ := None;
  genesis_hardforks _ w := Ok w;
  set_current_witness _ r := r;
  operation_validate o := fc_assert (0 <=? o);
  verify_authority t _ := fc_assert (bool_decide (signatures t = [1]));
  apply_operation w o := Ok (World (wslots w) (rest w + o));
  run_step w s := Ok w
|}.

#[export] Instance sample_evaluator_laws : EvaluatorLaws Z Z.
Proof. split; cbn; intros; simplify_eq; split; cbn; eauto. Qed.

Definition strict : tx_flags := TxFlags false false false false false sample_skip.

Definition before : chain Z :=
  ChainState (World (Slots (sample_sched true) (endian_reverse_u32 42, 7) 100 (uint128_of_u64 1) 1 20) 0) ∅
    {[ 42 := (endian_reverse_u32 42, 7); 43 := (0, 0); 44 := (0, 0) ]}.

Definition pay (num prefix amount : Z) : transaction Z := Transaction num prefix 1001000 [amount] [1].
Definition block43 : signed_block (body * list (transaction Z)) :=
  SignedBlock (endian_reverse_u32 42, 7) (Body 1000006 "alice" 11 1 [ext_version 22], [pay 42 7 5]).
Definition block44 (ts : list (transaction Z)) : signed_block (body * list (transaction Z)) :=
  SignedBlock (block_id_of (header block43)) (Body 1000008 "bob" 12 (Z.of_nat (length ts)) [], ts).

Definition two_blocks : list (signed_block (body * list (transaction Z))) := [block43; block44 [pay 43 1000006 6; pay 43 1000006 7]].

Lemma before_inv : chain_inv before.
Proof.
  split; [by vm_compute|by split; vm_compute|by vm_compute| |by vm_compute].
  intros n i Hi%sample_infos. destruct Hi as [[_ ->]|[[_ ->]|[_ ->]]]; cbn; by split.
Qed.

(** A transaction of block 43 is rejected in block 44, and so is one that names
    another block. *)
Example replayed : is_ok (apply_blocks strict before [block43; block44 [pay 42 7 5]]) = false.
Proof. by vm_compute. Qed.
Example other_fork : is_ok (apply_blocks strict before [block43; block44 [pay 43 7 6]]) = false.
Proof. by vm_compute. Qed.

Lemma transactions_applied_once_witness :
  ∃ c', apply_blocks strict before two_blocks = Ok c' ∧ rest (cw c') = 18 ∧ chain_num c' = 44 ∧ NoDup (concat (txs <$> two_blocks)).
Proof.
  exists (value_of before (apply_blocks strict before two_blocks)).
  assert (apply_blocks strict before two_blocks = Ok (value_of before (apply_blocks strict before two_blocks))) as H
    by (apply value_of_Ok; by vm_compute).
  split_and!; [exact H|by vm_compute|by vm_compute|].
  destruct (transactions_applied_once strict eq_refl eq_refl eq_refl before two_blocks (value_of before (apply_blocks strict before two_blocks)) before_inv) as (_ & Hnd & _);
    [by repeat constructor; vm_compute|exact H|exact Hnd].
Defined.

Lemma block_application_is_a_chain_witness : ChainLaws (body * list (transaction Z)) (chain Z) (transaction Z) (H := block_chain strict).
Proof. apply block_application_is_a_chain; reflexivity. Defined.

End BlocksExample.
