(* ===== verification/Heads.v ===== *)
(** * Who moves the head of the chain

    The number and the time of the head block, and the number of the last block
    that each witness confirmed, are written by the bookkeeping of a block only
    (Slots.v).  This file shows it for every operation and every step of a block
    that the other files model, function by function. *)

From stdpp Require Import gmap strings sorting.
From S2P Require Import Prelude Config AccountName Uint128 SafeInt AssetSymbol Asset Manabar ResourceDynamics Reward MapSum State Ledger Votes Vesting Payouts Delegation Claims Staking Market Transfers WitnessSchedule Rounds Slots Funds Content Voting Cashout Burn Accounts Recovery Proposals Witnesses.
#[local] Open Scope Z_scope.

(** ** Anchors *)

(** A head, and the block numbers that witnesses may have confirmed. *)
Record anchor : Type := Anchor {
  an_num : Z;
  an_time : Z;
  an_confirmed : Z → Prop
}.

Class Anchored (X : Type) : Type := anchored : anchor → X → Prop.

#[global] Instance anchored_gpo : Anchored global_properties := λ k g, head_block_number g = an_num k ∧ head_block_time g = an_time k.
#[global] Instance anchored_db : Anchored db := λ k d, anchored k (gpo d).
#[global] Instance anchored_info : Anchored witness_info := λ k i, last_confirmed_block_num i = 0 ∨ an_confirmed k (last_confirmed_block_num i).
#[global] Instance anchored_infos : Anchored (gmap name witness_info) := λ k m, ∀ n i, m !! n = Some i → anchored k i.
#[global] Instance anchored_sched : Anchored sched := λ k s, anchored k (base s) ∧ anchored k (infos s).
#[global] Instance anchored_funds : Anchored funds := λ k f, anchored k (fs f).
#[global] Instance anchored_registry : Anchored registry := λ k r, anchored k (rf r).
#[global] Instance anchored_roster : Anchored roster := λ k r, anchored k (rfunds r).
#[global] Instance anchored_social : Anchored social := λ k s, anchored k (core s).
#[global] Instance anchored_dao : Anchored dao := λ k s, anchored k (ds s).
#[global] Instance anchored_snd {A B} `{Anchored B} : Anchored (A * B) | 1 := λ k x, anchored k x.2.
#[global] Instance anchored_fst {A B} `{Anchored A} : Anchored (A * B) | 2 := λ k x, anchored k x.1.

(** A computation that ends, if it does not throw, in a state of the anchor. *)
Definition stays {X} `{Anchored X} (k : anchor) (m : res X) : Prop := ∀ x, m = Ok x → anchored k x.

Section Stays.

Context {X : Type} {AX : Anchored X} (k : anchor).

Lemma stays_ret x : anchored k x → stays k (Ok x).
Proof. intros H y Hy. by injection Hy as <-. Qed.
Lemma stays_throw e : stays k (Throw e : res X).
Proof. by intros x. Qed.
Lemma stays_bind {Y} {AY : Anchored Y} (m : res Y) (f : Y → res X) :
  stays k m → (∀ y, anchored k y → stays k (f y)) → stays k (m ≫= f).
Proof. intros Hm Hf x Hx. apply bind_Ok in Hx as (y & Hy & Hx). by apply (Hf y); [apply Hm|]. Qed.
Lemma stays_skip {Y} (m : res Y) (f : Y → res X) : (∀ y, stays k (f y)) → stays k (m ≫= f).
Proof. intros Hf x Hx. apply bind_Ok in Hx as (y & _ & Hx). by apply (Hf y). Qed.
Lemma stays_fold {A} (f : X → A → res X) x l : (∀ x a, anchored k x → stays k (f x a)) → anchored k x → stays k (res_fold f x l).
Proof. intros Hf Hx y. apply (res_fold_ind (anchored k)); [done|]. intros z a z' _ Hz Hz'. by eapply Hf. Qed.

End Stays.

(** Writes of the table of witnesses. *)
Lemma anchored_insert k n (i : witness_info) (m : gmap name witness_info) : anchored k i → anchored k m → anchored k (<[n := i]> m).
Proof. intros Hi Hm n' i' Hx. destruct (decide (n' = n)) as [->|]; [rewrite lookup_insert_eq in Hx|rewrite lookup_insert_ne in Hx by done; by eapply Hm]. by injection Hx as <-. Qed.

Lemma anchored_alters {A} k (f : witness_info → witness_info) (g : A → name) l (m : gmap name witness_info) :
  (∀ i, last_confirmed_block_num (f i) = last_confirmed_block_num i) → anchored k m → anchored k (foldl (λ m x, alter f (g x) m) m l).
Proof.
  intros Hf. revert m. induction l as [|x l IH]; intros m Hm; [done|]. apply IH. intros n i Hi. apply lookup_alter_Some in Hi as [(_ & j & Hj & ->)|[_ Hj]]; [|by eapply Hm].
  unfold anchored, anchored_info. rewrite Hf. by eapply Hm.
Qed.
Lemma anchored_mark k t l m : anchored k m → anchored k (mark t l m).
Proof. by apply anchored_alters. Qed.
Lemma anchored_leave k l m : anchored k m → anchored k (leave_queue l m).
Proof. by apply anchored_alters. Qed.

Lemma stays_lookup k n (m : gmap name witness_info) e : anchored k m → stays k (from_option_exn e (m !! n)).
Proof. intros H i Hi%from_option_exn_Ok. by eapply H. Qed.

Create HintDb still.
Create HintDb still_writes.
#[export] Hint Resolve stays_lookup : still.

(** The value of a record write is anchored by conversion. *)
Ltac still_leaf :=
  lazymatch goal with
  | |- anchored ?k (match ?x with _ => _ end) => destruct x; still_leaf
  | |- anchored ?k (?a, ?b) => first [change (anchored k b)|change (anchored k a)]; still_leaf
  | |- anchored ?k ?x =>
    match goal with
    | H : anchored k _ |- _ => exact H
    | H : anchored k _ |- _ => exact (proj1 H)
    | H : anchored k _ |- _ => exact (proj2 H)
    | |- _ => first [apply anchored_insert|apply anchored_mark|apply anchored_leave|split]; still_leaf
    | |- _ => solve [eauto 3 with still_writes]
    | |- context [match ?y with _ => _ end] => destruct y; still_leaf
    end
  end.

#[export] Hint Extern 1 (anchored _ _) => still_leaf : still.
#[export] Hint Extern 1 (anchored ?k _) => match goal with H : anchored k _ |- _ => exact H end : still_writes.

Ltac unfold_head m :=
  lazymatch m with
  | ?f _ => unfold_head f
  | _ => unfold m
  end.

Ltac still_step :=
  lazymatch goal with
  | |- stays _ (mret _) => apply stays_ret
  | |- stays _ (Ok _) => apply stays_ret
  | |- stays _ (Throw _) => apply stays_throw
  | |- stays _ (let x := _ in _) => cbv zeta
  | |- stays _ (_ ≫= _) =>
      first [ eapply stays_bind; [solve [still]|intros ? ?] | apply stays_skip; intros ? ]
  | |- stays _ (res_fold _ _ _) => apply stays_fold; [intros ? ? ?|]
  | |- stays _ (match ?x with _ => _ end) => destruct x
  | |- stays _ ?m => first [solve [eauto 2 with still]|unfold_head m]
  | |- anchored _ _ => still_leaf
  end
with still := repeat still_step.

(** ** The ledger *)

Lemma rests_adjust_supply k delta v d : anchored k d → stays k (adjust_supply delta v d).
Proof. intros H. still. Qed.
#[export] Hint Resolve rests_adjust_supply : still.

Lemma rests_modify_sbd k delta c s d : anchored k d → stays k (modify_sbd delta c s d).
Proof. intros H. still. Qed.
#[export] Hint Resolve rests_modify_sbd : still.

Lemma rests_adjust_balance k n x d : anchored k d → stays k (adjust_balance n x d).
Proof. intros H. still. Qed.
Lemma rests_adjust_savings k n x d : anchored k d → stays k (adjust_savings_balance n x d).
Proof. intros H. still. Qed.
Lemma rests_adjust_reward k n v s b d : anchored k d → stays k (adjust_reward_balance n v s b d).
Proof. intros H. still. Qed.
#[export] Hint Resolve rests_adjust_balance rests_adjust_savings rests_adjust_reward : still.

Lemma rests_create_sbd k n x b d : anchored k d → stays k (create_sbd n x b d).
Proof. intros H. still. Qed.
#[export] Hint Resolve rests_create_sbd : still.

(** ** Witness votes and vesting *)

Lemma rests_adjust_witness_vote k w x d : anchored k d → stays k (adjust_witness_vote w x d).
Proof. intros H. still. Qed.
#[export] Hint Resolve rests_adjust_witness_vote : still.

Lemma rests_push_one k l n x d : anchored k d → stays k (adjust_proxied_witness_votes_one l n x d).
Proof. revert n d. induction l as [|l IH]; intros n d H; cbn [adjust_proxied_witness_votes_one]; still. Qed.
Lemma rests_push k l n x d : anchored k d → stays k (adjust_proxied_witness_votes l n x d).
Proof. revert n x d. induction l as [|l IH]; intros n x d H; cbn [adjust_proxied_witness_votes]; still. Qed.
#[export] Hint Resolve rests_push_one rests_push : still.

Lemma rests_create_vesting k n x b d : anchored k d → stays k (create_vesting n x b d).
Proof. intros H. still. Qed.
#[export] Hint Resolve rests_create_vesting : still.

Lemma rests_withdraw_tokens k fuel i d : anchored k d → stays k (withdraw_tokens fuel i d).
Proof. revert i d. induction fuel as [|fuel IH]; intros i d H; cbn [withdraw_tokens]; still. Qed.
#[export] Hint Resolve rests_withdraw_tokens : still.

Lemma rests_withdraw_account k n d : anchored k d → stays k (withdraw_account n d).
Proof. intros H. still. Qed.
#[export] Hint Resolve rests_withdraw_account : still.
Lemma rests_withdraw_accounts k fuel i d : anchored k d → stays k (withdraw_accounts fuel i d).
Proof. revert i d. induction fuel as [|fuel IH]; intros i d H; cbn [withdraw_accounts]; still. Qed.
#[export] Hint Resolve rests_withdraw_accounts : still.

Lemma rests_vesting_withdrawals k d : anchored k d → stays k (process_vesting_withdrawals d).
Proof. intros H. still. Qed.

Lemma rests_return_delegation k i o d : anchored k d → stays k (return_delegation i o d).
Proof. intros H. still. Qed.
#[export] Hint Resolve rests_return_delegation : still.
Lemma rests_return_delegations k fuel d : anchored k d → stays k (return_delegations fuel d).
Proof. revert d. induction fuel as [|fuel IH]; intros d H; cbn [return_delegations]; still. Qed.
#[export] Hint Resolve rests_vesting_withdrawals rests_return_delegations : still.

Lemma rests_clear_delegations k d : anchored k d → stays k (clear_expired_delegations d).
Proof. intros H. still. Qed.
#[export] Hint Resolve rests_clear_delegations : still.

(** ** The market and transfers *)

Lemma rests_fill_order k o p r d : anchored k d → stays k (fill_order o p r d).
Proof. intros H. still. Qed.
#[export] Hint Resolve rests_fill_order : still.
Lemma rests_match_orders k n o p d : anchored k d → stays k (match_orders n o p d).
Proof. intros H. still. Qed.
#[export] Hint Resolve rests_match_orders : still.
Lemma rests_match_loop k n l d : anchored k d → stays k (match_loop n l d).
Proof. revert d. induction l as [|o l IH]; intros d H; cbn [match_loop]; still. Qed.
#[export] Hint Resolve rests_match_loop : still.

Lemma rests_clear_orders k d : anchored k d → stays k (clear_expired_orders d).
Proof. intros H. still. Qed.
Lemma rests_expire_escrow k d : anchored k d → stays k (expire_escrow_ratification d).
Proof. intros H. still. Qed.
Lemma rests_conversions k d : anchored k d → stays k (process_conversions d).
Proof. intros H. still. Qed.
Lemma rests_savings_withdraws k d : anchored k d → stays k (process_savings_withdraws d).
Proof. intros H. still. Qed.
Lemma rests_clear_null k d : anchored k d → stays k (clear_null_account_balance d).
Proof. intros H. still. Qed.
#[export] Hint Resolve rests_clear_orders rests_expire_escrow rests_conversions rests_savings_withdraws rests_clear_null : still.

(** ** Funds and the witness schedule *)

Lemma rests_process_funds k f : anchored k f → stays k (process_funds f).
Proof. intros H. still. Qed.
Lemma rests_update_median_feed k f : anchored k f → stays k (update_median_feed f).
Proof. intros H. still. Qed.
Lemma rests_virtual_supply k f : anchored k f → stays k (update_virtual_supply f).
Proof. intros H. still. Qed.
Lemma rests_subsidized_accounts k f : anchored k f → stays k (process_subsidized_accounts f).
Proof. intros H. still. Qed.
Lemma rests_median_props k (s : sched) : anchored k s → stays k (update_median_witness_props s).
Proof. intros H. still. Qed.
#[export] Hint Resolve rests_median_props : still.
Lemma rests_witness_schedule k (s : sched) : anchored k s → stays k (update_witness_schedule s).
Proof. intros H. still. Qed.
#[export] Hint Resolve rests_process_funds rests_update_median_feed rests_virtual_supply rests_subsidized_accounts rests_witness_schedule : still.

(** ** Comments, votes and payouts *)

Lemma rests_count_replies k fuel g i s : anchored k s → stays k (count_replies fuel g i s).
Proof. revert i s. induction fuel as [|fuel IH]; intros i s H; cbn [count_replies]; still. Qed.
#[export] Hint Resolve rests_count_replies : still.

Lemma rests_comment k u g o s : anchored k s → stays k (comment_apply u g o s).
Proof. intros H. still. Qed.
Lemma rests_delete_comment k o s : anchored k s → stays k (delete_comment_apply o s).
Proof. intros H. still. Qed.
Lemma rests_comment_options k o s : anchored k s → stays k (comment_options_apply o s).
Proof. intros H. still. Qed.
Lemma rests_spend_vote k v b u s : anchored k s → stays k (spend_vote v b u s).
Proof. intros H. still. Qed.
#[export] Hint Resolve rests_comment rests_delete_comment rests_comment_options rests_spend_vote : still.

Lemma rests_hf20_vote k g o s : anchored k s → stays k (hf20_vote_evaluator g o s).
Proof. intros H. still. Qed.
Lemma rests_generic_vote k g c v r s : anchored k s → stays k (generic_vote_evaluator g c v r s).
Proof. intros H. still. Qed.
#[export] Hint Resolve rests_hf20_vote rests_generic_vote : still.
Lemma rests_vote2 k g o s : anchored k s → stays k (vote2_apply g o s).
Proof. intros H. still. Qed.
Lemma rests_vote_with_mana k g o s : anchored k s → stays k (vote_with_mana g o s).
Proof. intros H. still. Qed.
#[export] Hint Resolve rests_vote2 rests_vote_with_mana : still.

Lemma rests_pay_reward k i x b s : anchored k s → stays k (pay_reward i x b s).
Proof. intros H. still. Qed.
#[export] Hint Resolve rests_pay_reward : still.
Lemma rests_cashout_helper k g t f p b i s : anchored k s → stays k (cashout_comment_helper g t f p b i s).
Proof. intros H. still. Qed.
#[export] Hint Resolve rests_cashout_helper : still.
Lemma rests_cashout_loop k g fuel p x : anchored k x → stays k (cashout_loop g fuel p x).
Proof. revert x. induction fuel as [|fuel IH]; intros x H; cbn [cashout_loop]; still. Qed.
Lemma anchored_close_votes k i y s : anchored k s → anchored k (close_token_votes i y s).
Proof. intros H. unfold close_token_votes. by destruct (clear_votes s). Qed.
#[export] Hint Resolve anchored_close_votes : still_writes.
Lemma rests_reward_comment k g i y r o t s : anchored k s → stays k (reward_comment g i y r o t s).
Proof. intros H. still. Qed.
#[export] Hint Resolve rests_cashout_loop rests_reward_comment : still.
Lemma rests_token_cashout_loop k g fuel p x : anchored k x → stays k (token_cashout_loop g fuel p x).
Proof. revert x. induction fuel as [|fuel IH]; intros x H; cbn [token_cashout_loop]; still. Qed.
#[export] Hint Resolve rests_token_cashout_loop : still.
Lemma rests_comment_cashout k g s : anchored k s → stays k (process_comment_cashout g s).
Proof. intros H. still. Qed.
#[export] Hint Resolve rests_comment_cashout : still.

(** ** Accounts, proposals and witnesses *)

Lemma rests_create_account k n y e v j o a p r : anchored k r → stays k (create_account n y e v j o a p r).
Proof. intros H. still. Qed.
#[export] Hint Resolve rests_create_account : still.

Lemma rests_recovery_processing k r : anchored k r → stays k (account_recovery_processing r).
Proof. intros H. still. Qed.
Lemma rests_decline_one k n d : anchored k d → stays k (decline_one n d).
Proof. intros H. still. Qed.
#[export] Hint Resolve rests_recovery_processing rests_decline_one : still.
Lemma rests_declined_rights k r : anchored k r → stays k (process_decline_voting_rights r).
Proof. intros H. still. Qed.
#[export] Hint Resolve rests_declined_rights : still.

(** The removal of proposals does not throw. *)
Lemma removed_core i (x : reducer * dao) : ds (remove_proposal i x).2 = ds x.2.
Proof. unfold remove_proposal. destruct (erase_votes _ _ _) as [[r v] []]; [done|]. by destruct (stop _). Qed.

Lemma remove_ended_core l (x : reducer * dao) : ds (remove_ended l x) = ds x.2.
Proof.
  revert x. induction l as [|i l IH]; intros x; cbn [remove_ended]; [done|].
  destruct (stop _); [apply removed_core|]. rewrite IH. apply removed_core.
Qed.

Lemma rests_remove_owned k n l (x : reducer * dao) : anchored k x → stays k (remove_owned n l x).
Proof.
  revert x. induction l as [|i l IH]; intros x H; cbn [remove_owned]; [by apply stays_ret|]. destruct (proposals x.2 !! i) as [p|]; [|auto].
  assert (anchored k (remove_proposal i x)) as H' by (change (anchored k (ds (remove_proposal i x).2)); by rewrite removed_core).
  apply stays_skip. intros _. destruct (stop _); [by apply stays_ret|auto].
Qed.
#[export] Hint Resolve rests_remove_owned : still.

Lemma anchored_votes k n b l (x : dao) : anchored k x → anchored k (foldl (update_vote n b) x l).
Proof. revert x. induction l as [|i l IH]; intros x H; [done|]. apply IH. unfold update_vote. still. Qed.
Lemma anchored_marks k l (x : dao) : anchored k x → anchored k (foldl mark_removed x l).
Proof. revert x. induction l as [|i l IH]; intros x H; [done|]. apply IH. unfold mark_removed. still. Qed.
#[export] Hint Resolve anchored_votes anchored_marks : still_writes.

Lemma rests_pay_loop k q l b (x : dao) : anchored k x → stays k (pay_loop q l b x).
Proof. revert b x. induction l as [|i l IH]; intros b x H; cbn [pay_loop]; still. Qed.
#[export] Hint Resolve rests_pay_loop : still.

Lemma anchored_funding k t (x : dao) : anchored k x → anchored k (record_funding t (remove_old_proposals t x)).
Proof.
  intros H. assert (anchored k (remove_old_proposals t x)) as H'.
  { change (anchored k (ds (remove_old_proposals t x))). unfold remove_old_proposals. by rewrite remove_ended_core. }
  unfold record_funding. still.
Qed.
#[export] Hint Resolve anchored_funding : still_writes.

Lemma rests_calculate_votes k l (x : dao) : anchored k x → stays k (calculate_votes l x).
Proof. intros H. still. Qed.
#[export] Hint Resolve rests_calculate_votes : still.
Lemma rests_make_payments k t (x : dao) : anchored k x → stays k (make_payments t x).
Proof. intros H. still. Qed.
#[export] Hint Resolve rests_make_payments : still.
Lemma rests_proposals k t (x : dao) : anchored k x → stays k (process_proposals t x).
Proof. intros H. still. Qed.
#[export] Hint Resolve rests_proposals : still.

Lemma rests_witness_update k o (r : roster) : anchored k r → stays k (witness_update_apply o r).
Proof.
  intros H. unfold witness_update_apply. do 3 (apply stays_skip; intros _). destruct (winfos r !! wu_owner o) as [i|] eqn:Ei.
  - assert (anchored k i) as Hi by (apply H in Ei; exact Ei). still.
  - apply stays_skip. intros p. apply stays_ret. split; [exact (proj1 H)|]. apply anchored_insert; [by left|exact (proj2 H)].
Qed.
#[export] Hint Resolve rests_witness_update : still.
