(* ===== verification/Node.v ===== *)
(** * The node: all operations and steps on one state

    The state of the whole chain is the [world] of Blocks.v with the tables of
    accounts, witnesses, comments and proposals as the rest.  An operation or a
    step sees the part of it that its own file models, and writes it back;
    [operation], [operation_validate] and [node_apply] are the operations of
    protocol/operations.hpp, their validation and the evaluators that
    [database::initialize_evaluators] registers, [node_step] the steps of
    [_apply_block].

    What is not modelled is behind the interface [Beyond]: custom operations,
    proof of work, tokens, votes before hardfork 20, automated actions and
    hardforks.  The operations and the steps together implement the interface of
    Blocks.v. *)

From stdpp Require Import gmap strings sorting.
From S2P Require Import Prelude Config AccountName Uint128 SafeInt AssetSymbol Asset Manabar ResourceDynamics Reward MapSum State Ledger Votes Vesting Payouts Delegation Claims Staking Market Transfers ForkDatabase ForkSwitch WitnessSchedule Rounds Slots Funds Content Voting Cashout Burn Accounts Recovery Proposals Witnesses Blocks Heads.
#[local] Open Scope Z_scope.

Definition freezone_LIQUIDITY_REWARD_BLOCKS : Z := 60 * 60 / freezone_BLOCK_INTERVAL.
Definition freezone_LIQUIDITY_APR_PERCENT : Z := 750.
Definition freezone_MIN_LIQUIDITY_REWARD : Z := 1000 * freezone_LIQUIDITY_REWARD_BLOCKS.
Definition freezone_APR_PERCENT_MULTIPLY_PER_HOUR : Z := Z.lor (Z.shiftl 0x6cc1 0x20) (Z.lor (Z.shiftl 0x39a1 0x10) 0x5cbd).
Definition freezone_APR_PERCENT_SHIFT_PER_HOUR : Z := 77.
Definition freezone_COMMENT_TITLE_LIMIT : Z := 256.
Definition SST_MAX_VOTABLE_ASSETS : Z := 2.

(** ** One state *)

(** The values keep tables of their own; the copies of the chain state inside
    them are stale, and every view below puts the current one there. *)
Record tables : Type := Tables {
  people : registry;
  board : roster;
  house : dao
}.

Abbreviation node := (world tables).

Definition view_db (w : node) : db := base (sc (wslots w)).
Definition view_sched (w : node) : sched := sc (wslots w).
Definition view_funds (w : node) : funds := set_fs (view_sched w) (rf (people (rest w))).
Definition view_registry (w : node) : registry := set_rf (view_funds w) (people (rest w)).
Definition view_roster (w : node) : roster := set_rfunds (view_funds w) (board (rest w)).
Definition view_social (w : node) : social := set_core (view_db w) (ds (house (rest w))).

(** The ledger of the proposal fund is a member of the global properties that
    inflation and the proposal system both use. *)
Definition view_dao (w : node) : dao :=
  let h := house (rest w) in
  Dao (view_social w) (proposals h) (proposal_votes h) (next_proposal_id h) (Funds.sps_interval_ledger (view_funds w))
    (next_maintenance_time h) (last_budget_time h) (sps_remove_threshold h).

Definition put_sched (s : sched) (w : node) : node := World (set_sc s (wslots w)) (rest w).
Definition put_db (d : db) (w : node) : node := put_sched (set_base d (view_sched w)) w.
Definition put_registry (r : registry) (w : node) : node :=
  World (set_sc (fs (rf r)) (wslots w)) (Tables r (board (rest w)) (house (rest w))).
Definition put_funds (f : funds) (w : node) : node := put_registry (set_rf f (people (rest w))) w.
Definition put_roster (x : roster) (w : node) : node :=
  let w := put_funds (rfunds x) w in
  World (wslots w) (Tables (people (rest w)) x (house (rest w))).
Definition put_dao (x : dao) (w : node) : node :=
  let w := put_db (dcore x) (put_funds (set_ledger (Proposals.sps_interval_ledger x) (view_funds w)) w) in
  World (wslots w) (Tables (people (rest w)) (board (rest w)) x).
Definition put_social (s : social) (w : node) : node :=
  let x := view_dao w in
  put_dao (Dao s (proposals x) (proposal_votes x) (next_proposal_id x) (Proposals.sps_interval_ledger x) (next_maintenance_time x)
             (last_budget_time x) (sps_remove_threshold x)) w.

Definition on {X} (view : node → X) (put : X → node → node) (f : X → res X) (w : node) : res node :=
  x ← f (view w);
  mret (put x w).

Definition on_db : (db → res db) → node → res node := on view_db put_db.
Definition on_sched : (sched → res sched) → node → res node := on view_sched put_sched.
Definition on_funds : (funds → res funds) → node → res node := on view_funds put_funds.
Definition on_registry : (registry → res registry) → node → res node := on view_registry put_registry.
Definition on_roster : (roster → res roster) → node → res node := on view_roster put_roster.
Definition on_social : (social → res social) → node → res node := on view_social put_social.
Definition on_dao : (dao → res dao) → node → res node := on view_dao put_dao.

(** A new account object also has the members that posting and voting use. *)
Definition add_poster (n : name) (s : social) : social :=
  let id := Z.of_nat (base.size (posters s)) in
  let s := put_poster n (Poster id 0 0 0 0 0 0 0 0) s in
  Social (core s) (posters s) (<[id := n]> (account_names s)) (comments s) (permlinks s) (contents s) (cvotes s) (sst_beneficiaries s)
    (fund_names s) (fund_infos s) (token_infos s) (token_last_vote s) (reverse_auction_seconds s) (total_reward_shares2 s)
    (next_comment_id s) (clear_votes s) (Content.producing s).

Definition on_new_account (n : name) (f : registry → res registry) (w : node) : res node :=
  w ← on_registry f w;
  on_social (λ s, mret (add_poster n s)) w.

(** ** Liquidity rewards, before hardfork 12 *)

Definition get_liquidity_reward (d : db) : res Z :=
  if has_hardfork freezone_HARDFORK_0_12 d then mret 0
  else
    percent ← calc_percent_reward freezone_LIQUIDITY_APR_PERCENT freezone_APR_PERCENT_MULTIPLY_PER_HOUR freezone_APR_PERCENT_SHIFT_PER_HOUR
                (virtual_supply (gpo d));
    mret (Z.max percent freezone_MIN_LIQUIDITY_REWARD).

(** The index [by_volume_weight]: the greatest weight, then the oldest account. *)
Definition by_volume_weight (s : social) (x y : name * liquidity_reward) : Prop :=
  let id (n : name) := from_option ac_id 0 (posters s !! n) in
  to_Z (weight y.2) < to_Z (weight x.2) ∨ to_Z (weight x.2) = to_Z (weight y.2) ∧ id x.1 <= id y.1.
#[global] Instance by_volume_weight_dec s x y : Decision (by_volume_weight s x y).
Proof. unfold by_volume_weight. apply _. Defined.

Definition volume_weight (r : liquidity_reward) : Z := u128 (i64 (i64 (freezone_volume r * sbd_volume r) * is_positive r)).

Definition pay_liquidity_reward (s : social) : res social :=
  let d := core s in
  if negb (head_block_number (gpo d) mod freezone_LIQUIDITY_REWARD_BLOCKS =? 0) then mret s
  else
    reward ← get_liquidity_reward d;
    if reward =? 0 then mret s
    else
      match merge_sort (by_volume_weight s) (map_to_list (liquidity d)) with
      | (n, r) :: _ =>
          if 0 <? volume_weight r then
            d ← adjust_supply (Asset reward freezone_SYMBOL) true d;
            d ← adjust_balance n (Asset reward freezone_SYMBOL) d;
            mret (set_core (set_liquidity <[n := LiquidityReward 0 0 (U128 0 0) (now d)]> d) s)
          else mret s
      | [] => mret s
      end.

(** ** Operations *)

Inductive operation (Other : Type) : Type :=
| op_vote (o : vote_operation)
| op_comment (o : comment_operation)
| op_transfer (o : transfer_operation)
| op_transfer_to_vesting (o : transfer_to_vesting_operation)
| op_withdraw_vesting (o : withdraw_vesting_operation)
| op_limit_order_create (o : limit_order_create_operation)
| op_limit_order_cancel (owner : name) (orderid : Z)
| op_feed_publish (o : feed_publish_operation)
| op_convert (o : convert_operation)
| op_account_create (o : account_create_operation)
| op_account_update (o : account_update_operation)
| op_witness_update (o : witness_update_operation)
| op_account_witness_vote (o : account_witness_vote_operation)
| op_account_witness_proxy (o : account_witness_proxy_operation)
| op_delete_comment (o : delete_comment_operation)
| op_comment_options (o : comment_options_operation)
| op_set_withdraw_vesting_route (o : set_withdraw_vesting_route_operation)
| op_limit_order_create2 (o : limit_order_create2_operation)
| op_claim_account (o : claim_account_operation)
| op_create_claimed_account (o : create_claimed_account_operation)
| op_request_account_recovery (o : request_account_recovery_operation)
| op_recover_account (o : recover_account_operation)
| op_change_recovery_account (o : change_recovery_account_operation)
| op_escrow_transfer (o : escrow_transfer_operation)
| op_escrow_dispute (o : escrow_dispute_operation)
| op_escrow_release (o : escrow_release_operation)
| op_escrow_approve (o : escrow_approve_operation)
| op_transfer_to_savings (o : savings_operation)
| op_transfer_from_savings (o : savings_operation)
| op_cancel_transfer_from_savings (from : name) (request_id : Z)
| op_decline_voting_rights (o : decline_voting_rights_operation)
| op_claim_reward_balance (o : claim_reward_balance_operation)
| op_delegate_vesting_shares (o : delegate_vesting_shares_operation)
| op_account_create_with_delegation (o : account_create_with_delegation_operation)
| op_witness_set_properties (o : witness_set_properties_operation)
| op_account_update2 (o : account_update2_operation)
| op_create_proposal (o : create_proposal_operation)
| op_update_proposal_votes (o : update_proposal_votes_operation)
| op_remove_proposal (o : remove_proposal_operation)
| op_claim_reward_balance2 (o : claim_reward_balance2_operation)
| op_vote2 (o : vote2_operation)
| op_other (o : Other).
#[global] Arguments op_other {Other}.

(** The code that is not modelled, and the functions of libraries: UTF-8 and
    JSON tests, patches of a text, the highest bit of a word, the offset of an
    expiration (a word of the hash of the head block), and cryptography. *)
Class Beyond (Other : Type) : Type := {
  other_validate : Other → res unit;
  other_apply : node → Other → res node;
  other_step : node → block_step → res node;
  other_vote : vote_operation → social → res social;
  other_genesis : signed_block body → node → res node;
  is_utf8 : string → bool;
  json_is_valid : string → bool;
  apply_patch : string → string → string;
  find_msb64 : Z → Z;
  rand_offset : node → Z;
  other_tx_id : transaction (operation Other) → Z;
  other_merkle_root : list (transaction (operation Other)) → Z;
  other_pack_size : signed_block body → list (transaction (operation Other)) → Z;
  other_known_merkle : Z → option Z;
  other_authority : transaction (operation Other) → node → res unit
}.

Section Node.

Context {Other : Type} `{Beyond Other}.

Definition vote_validate (o : vote_operation) : res unit :=
  _ ← validate_account_name (vo_voter o);
  _ ← validate_account_name (vo_author o);
  _ ← fc_assert (Z.abs (vo_weight o) <=? freezone_100_PERCENT);
  validate_permlink is_utf8 (vo_permlink o).

Definition vote2_validate (o : vote2_operation) : res unit :=
  _ ← validate_account_name (v2_voter o);
  _ ← validate_account_name (v2_author o);
  _ ← validate_permlink is_utf8 (v2_permlink o);
  _ ← fc_assert (0 <? Z.of_nat (length (v2_rshares o)));
  fc_assert (Z.of_nat (length (v2_rshares o)) <=? SST_MAX_VOTABLE_ASSETS + 1).

Definition comment_validate (o : comment_operation) : res unit :=
  _ ← fc_assert (Content.size (co_title o) <? freezone_COMMENT_TITLE_LIMIT);
  _ ← fc_assert (is_utf8 (co_title o));
  _ ← fc_assert (0 <? Content.size (co_body o));
  _ ← fc_assert (is_utf8 (co_body o));
  _ ← (if Content.size (co_parent_author o) =? 0 then mret tt else validate_account_name (co_parent_author o));
  _ ← validate_account_name (co_author o);
  _ ← validate_permlink is_utf8 (co_parent_permlink o);
  _ ← validate_permlink is_utf8 (co_permlink o);
  if 0 <? Content.size (co_json_metadata o) then fc_assert (json_is_valid (co_json_metadata o)) else mret tt.

Definition delete_comment_validate (o : delete_comment_operation) : res unit :=
  _ ← validate_permlink is_utf8 (dc_permlink o);
  validate_account_name (dc_author o).

Definition node_validate (o : operation Other) : res unit :=
  match o with
  | op_vote _ o => vote_validate o
  | op_comment _ o => comment_validate o
  | op_transfer _ o => transfer_validate is_utf8 o
  | op_transfer_to_vesting _ o => transfer_to_vesting_validate o
  | op_withdraw_vesting _ o => withdraw_vesting_validate o
  | op_limit_order_create _ o => limit_order_create_validate o
  | op_limit_order_cancel _ n _ => validate_account_name n
  | op_feed_publish _ o => feed_publish_validate o
  | op_convert _ o => convert_validate o
  | op_account_create _ o => account_create_validate is_utf8 json_is_valid o
  | op_account_update _ o => account_update_validate is_utf8 json_is_valid o
  | op_witness_update _ o => witness_update_validate is_utf8 o
  | op_account_witness_vote _ o => account_witness_vote_validate o
  | op_account_witness_proxy _ o => account_witness_proxy_validate o
  | op_delete_comment _ o => delete_comment_validate o
  | op_comment_options _ o => comment_options_validate is_utf8 o
  | op_set_withdraw_vesting_route _ o => set_withdraw_vesting_route_validate o
  | op_limit_order_create2 _ o => limit_order_create2_validate o
  | op_claim_account _ o => claim_account_validate o
  | op_create_claimed_account _ o => create_claimed_account_validate is_utf8 json_is_valid o
  | op_request_account_recovery _ o => request_account_recovery_validate o
  | op_recover_account _ o => recover_account_validate o
  | op_change_recovery_account _ o => change_recovery_account_validate o
  | op_escrow_transfer _ o => escrow_transfer_validate is_utf8 json_is_valid o
  | op_escrow_dispute _ o => escrow_dispute_validate o
  | op_escrow_release _ o => escrow_release_validate o
  | op_escrow_approve _ o => escrow_approve_validate o
  | op_transfer_to_savings _ o => savings_validate is_utf8 o
  | op_transfer_from_savings _ o => savings_validate is_utf8 o
  | op_cancel_transfer_from_savings _ n _ => validate_account_name n
  | op_decline_voting_rights _ o => decline_voting_rights_validate o
  | op_claim_reward_balance _ o => claim_reward_balance_validate o
  | op_delegate_vesting_shares _ o => delegate_vesting_shares_validate o
  | op_account_create_with_delegation _ o => account_create_with_delegation_validate is_utf8 json_is_valid o
  | op_witness_set_properties _ o => witness_set_properties_validate is_utf8 o
  | op_account_update2 _ o => account_update2_validate is_utf8 json_is_valid o
  | op_create_proposal _ o => create_proposal_validate is_utf8 o
  | op_update_proposal_votes _ o => update_proposal_votes_validate o
  | op_remove_proposal _ o => remove_proposal_validate o
  | op_claim_reward_balance2 _ o => claim_reward_balance2_validate o
  | op_vote2 _ o => vote2_validate o
  | op_other o => other_validate o
  end.

Definition vote_apply (o : vote_operation) (s : social) : res social :=
  if hf freezone_SST_HARDFORK s then vote_with_mana find_msb64 o s
  else if hf freezone_HARDFORK_0_20 s then hf20_vote_evaluator find_msb64 o s
  else other_vote o s.

Definition node_apply (w : node) (o : operation Other) : res node :=
  match o with
  | op_vote _ o => on_social (vote_apply o) w
  | op_comment _ o => on_social (comment_apply is_utf8 apply_patch o) w
  | op_transfer _ o => on_db (transfer_apply o) w
  | op_transfer_to_vesting _ o => on_db (transfer_to_vesting_apply o) w
  | op_withdraw_vesting _ o => on_db (withdraw_vesting_apply o) w
  | op_limit_order_create _ o => on_db (limit_order_create_apply (rand_offset w) o) w
  | op_limit_order_cancel _ n i => on_db (limit_order_cancel_apply n i) w
  | op_feed_publish _ o => on_roster (feed_publish_apply o) w
  | op_convert _ o => on_db (convert_apply o) w
  | op_account_create _ o => on_new_account (ac_new_account_name o) (account_create_apply o) w
  | op_account_update _ o => on_registry (account_update_apply o) w
  | op_witness_update _ o => on_roster (witness_update_apply o) w
  | op_account_witness_vote _ o => on_db (account_witness_vote_apply o) w
  | op_account_witness_proxy _ o => on_db (account_witness_proxy_apply o) w
  | op_delete_comment _ o => on_social (delete_comment_apply o) w
  | op_comment_options _ o => on_social (comment_options_apply o) w
  | op_set_withdraw_vesting_route _ o => on_db (set_withdraw_vesting_route_apply o) w
  | op_limit_order_create2 _ o => on_db (limit_order_create2_apply o) w
  | op_claim_account _ o => on_registry (claim_account_apply o) w
  | op_create_claimed_account _ o => on_new_account (cca_new_account_name o) (create_claimed_account_apply o) w
  | op_request_account_recovery _ o => on_registry (request_account_recovery_apply o) w
  | op_recover_account _ o => on_registry (recover_account_apply o) w
  | op_change_recovery_account _ o => on_registry (change_recovery_account_apply o) w
  | op_escrow_transfer _ o => on_db (escrow_transfer_apply o) w
  | op_escrow_dispute _ o => on_db (escrow_dispute_apply o) w
  | op_escrow_release _ o => on_db (escrow_release_apply o) w
  | op_escrow_approve _ o => on_db (escrow_approve_apply o) w
  | op_transfer_to_savings _ o => on_db (transfer_to_savings_apply o) w
  | op_transfer_from_savings _ o => on_db (transfer_from_savings_apply o) w
  | op_cancel_transfer_from_savings _ n i => on_db (cancel_transfer_from_savings_apply n i) w
  | op_decline_voting_rights _ o => on_registry (decline_voting_rights_apply o) w
  | op_claim_reward_balance _ o => on_db (claim_reward_balance_apply o) w
  | op_delegate_vesting_shares _ o => on_db (delegate_vesting_shares_apply o) w
  | op_account_create_with_delegation _ o => on_new_account (acd_new_account_name o) (account_create_with_delegation_apply o) w
  | op_witness_set_properties _ o => on_roster (witness_set_properties_apply o) w
  | op_account_update2 _ o => on_registry (account_update2_apply o) w
  | op_create_proposal _ o => on_dao (create_proposal_apply o) w
  | op_update_proposal_votes _ o => on_dao (update_proposal_votes_apply o) w
  | op_remove_proposal _ o => on_dao (remove_proposal_apply o) w
  | op_claim_reward_balance2 _ o => on_db (claim_reward_balance2_apply o) w
  | op_vote2 _ o => on_social (vote2_apply find_msb64 o) w
  | op_other o => other_apply w o
  end.

(** ** The steps of a block *)

Definition node_step (w : node) (s : block_step) : res node :=
  match s with
  | s_clear_expired_orders => on_db clear_expired_orders w
  | s_clear_expired_delegations => on_db clear_expired_delegations w
  | s_update_witness_schedule => on_sched update_witness_schedule w
  | s_update_median_feed => on_funds update_median_feed w
  | s_update_virtual_supply => on_funds update_virtual_supply w
  | s_clear_null_account_balance => on_db clear_null_account_balance w
  | s_process_funds => on_funds process_funds w
  | s_process_conversions => on_db process_conversions w
  | s_process_comment_cashout => on_social (process_comment_cashout find_msb64) w
  | s_process_vesting_withdrawals => on_db process_vesting_withdrawals w
  | s_process_savings_withdraws => on_db process_savings_withdraws w
  | s_process_subsidized_accounts => on_funds process_subsidized_accounts w
  | s_pay_liquidity_reward => on_social pay_liquidity_reward w
  | s_account_recovery_processing => on_registry account_recovery_processing w
  | s_expire_escrow_ratification => on_db expire_escrow_ratification w
  | s_process_decline_voting_rights => on_registry process_decline_voting_rights w
  | s_process_proposals => on_dao (process_proposals (head_time (wslots w))) w
  | _ => other_step w s
  end.

#[global] Instance node_evaluators : Evaluators (operation Other) tables := {|
  tx_id := other_tx_id;
  merkle_root := other_merkle_root;
  pack_size := other_pack_size;
  known_merkle := other_known_merkle;
  genesis_hardforks := other_genesis;
  set_current_witness n t := Tables (set_rf (Funds (fs (rf (people t))) n (content_reward_percent (rf (people t)))
      (vesting_reward_percent (rf (people t))) (sps_fund_percent (rf (people t))) (Funds.sps_interval_ledger (rf (people t)))
      (sbd_start_percent (rf (people t))) (sbd_stop_percent (rf (people t))) (available_account_subsidies (rf (people t)))
      (percent_content_rewards (rf (people t))) (price_history (rf (people t))) (feeds (rf (people t)))) (people t)) (board t) (house t);
  operation_validate := node_validate;
  verify_authority := other_authority;
  apply_operation := node_apply;
  run_step := node_step
|}.

End Node.

(** ** The head *)

Class BeyondLaws (Other : Type) `{Beyond Other} : Prop := {
  other_apply_kept o w w' : other_apply w o = Ok w' → head_kept w w';
  other_step_kept s w w' : other_step w s = Ok w' → head_kept w w';
  other_genesis_kept b w w' : other_genesis b w = Ok w' → head_kept w w';
  other_vote_stays k o s : anchored k s → stays k (other_vote o s)
}.

Definition anchor_of (w : node) : anchor :=
  Anchor (head_num (wslots w)) (head_time (wslots w)) (λ v, ∃ n j, infos (sc (wslots w)) !! n = Some j ∧ v = last_confirmed_block_num j).

Lemma anchored_view w : anchored (anchor_of w) (sc (wslots w)).
Proof. split; [by split|]. intros n i Hi. right. by exists n, i. Qed.

Lemma head_kept_put w s t : anchored (anchor_of w) s → head_kept w (World (set_sc s (wslots w)) t).
Proof. intros [[Hn Ht] Hi]. split; [done|exact Hn|exact Ht|done|]. exact Hi. Qed.

(** What a view sees, and what is put back. *)
Lemma on_kept {X} `{Anchored X} view put f w w' :
  (∀ w, anchored (anchor_of w) (view w)) →
  (∀ x w, anchored (anchor_of w) x → head_kept w (put x w)) →
  (∀ k x, anchored k x → stays k (f x)) → on view put f w = Ok w' → head_kept w w'.
Proof.
  intros Hv Hp Hf Hw. apply bind_Ok in Hw as (x & Hx & Hw). injection Hw as <-. apply Hp. by apply (Hf _ (view w)).
Qed.

Lemma head_kept_db w d t : anchored (anchor_of w) d → head_kept w (World (set_sc (set_base d (sc (wslots w))) (wslots w)) t).
Proof. intros Hd. apply head_kept_put. split; [exact Hd|]. apply (anchored_view w). Qed.

Lemma on_db_kept f w w' : (∀ k d, anchored k d → stays k (f d)) → on_db f w = Ok w' → head_kept w w'.
Proof. apply (on_kept view_db put_db); [intros v; apply (anchored_view v)|intros; by apply head_kept_db]. Qed.
Lemma on_sched_kept f w w' : (∀ k s, anchored k s → stays k (f s)) → on_sched f w = Ok w' → head_kept w w'.
Proof. apply (on_kept view_sched put_sched); [apply anchored_view|intros; by apply head_kept_put]. Qed.
Lemma on_funds_kept f w w' : (∀ k s, anchored k s → stays k (f s)) → on_funds f w = Ok w' → head_kept w w'.
Proof. apply (on_kept view_funds put_funds); [apply anchored_view|intros; by apply head_kept_put]. Qed.
Lemma on_registry_kept f w w' : (∀ k s, anchored k s → stays k (f s)) → on_registry f w = Ok w' → head_kept w w'.
Proof. apply (on_kept view_registry put_registry); [apply anchored_view|intros; by apply head_kept_put]. Qed.
Lemma on_roster_kept f w w' : (∀ k s, anchored k s → stays k (f s)) → on_roster f w = Ok w' → head_kept w w'.
Proof. apply (on_kept view_roster put_roster); [apply anchored_view|intros; by apply head_kept_put]. Qed.
Lemma on_social_kept f w w' : (∀ k s, anchored k s → stays k (f s)) → on_social f w = Ok w' → head_kept w w'.
Proof. apply (on_kept view_social put_social); [intros v; apply (anchored_view v)|intros x v Hx; exact (head_kept_db v (core x) _ Hx)]. Qed.
Lemma on_dao_kept f w w' : (∀ k s, anchored k s → stays k (f s)) → on_dao f w = Ok w' → head_kept w w'.
Proof. apply (on_kept view_dao put_dao); [intros v; apply (anchored_view v)|intros x v Hx; exact (head_kept_db v (dcore x) _ Hx)]. Qed.

Lemma on_new_account_kept n f w w' : (∀ k s, anchored k s → stays k (f s)) → on_new_account n f w = Ok w' → head_kept w w'.
Proof.
  intros Hf Hw. apply bind_Ok in Hw as (w1 & H1 & Hw). etrans; [by eapply on_registry_kept|]. eapply on_social_kept; [|exact Hw].
  intros k s Hs. by apply stays_ret.
Qed.

Ltac kept :=
  lazymatch goal with
  | H : on_db _ _ = Ok _ |- _ => eapply on_db_kept; [|exact H]
  | H : on_sched _ _ = Ok _ |- _ => eapply on_sched_kept; [|exact H]
  | H : on_funds _ _ = Ok _ |- _ => eapply on_funds_kept; [|exact H]
  | H : on_registry _ _ = Ok _ |- _ => eapply on_registry_kept; [|exact H]
  | H : on_roster _ _ = Ok _ |- _ => eapply on_roster_kept; [|exact H]
  | H : on_social _ _ = Ok _ |- _ => eapply on_social_kept; [|exact H]
  | H : on_dao _ _ = Ok _ |- _ => eapply on_dao_kept; [|exact H]
  | H : on_new_account _ _ _ = Ok _ |- _ => eapply on_new_account_kept; [|exact H]
  end; intros ? ? ?; still.

Section Kept.

Context {Other : Type} {BY : Beyond Other} {BL : BeyondLaws Other}.

Lemma vote_stays k o s : anchored k s → stays k (vote_apply o s).
Proof. intros Hs. unfold vote_apply. repeat case_match; [eauto with still..|]. by apply other_vote_stays. Qed.

Lemma node_step_kept s w w' : node_step w s = Ok w' → head_kept w w'.
Proof. intros Hw. destruct s; cbn [node_step] in Hw; try kept; by eapply other_step_kept. Qed.

Lemma node_apply_kept o w w' : node_apply w o = Ok w' → head_kept w w'.
Proof.
  intros Hw. destruct o; cbn [node_apply] in Hw; try (by eapply other_apply_kept); try (eapply on_social_kept; [|exact Hw]; intros ? ? ?; by apply vote_stays); kept.
Qed.

#[global] Instance node_laws : EvaluatorLaws (operation Other) tables.
Proof. split; [apply other_genesis_kept|apply node_apply_kept|apply node_step_kept]. Qed.

End Kept.

(** C8: the operations and the steps of the node leave the head of the chain
    alone.  On one state with all tables, every modelled operation (with the
    validation and the evaluator that the node registers for it) and every
    modelled step at the end of a block keeps the id, the number and the time of
    the head block and the number of the last irreversible block, and gives no
    witness a confirmation that no witness had; so block application on this
    state, with the check of the undo history on, satisfies the chain laws that
    pushing blocks and switching forks rely on.  The same is assumed of what
    is not modelled ([BeyondLaws]: custom operations, mining, setup of tokens, votes
    before hardfork 20, automated actions, hardforks). *)
Theorem node_is_a_chain {Other : Type} {BY : Beyond Other} {BL : BeyondLaws Other} {SG : Signee} {BH : BlockHash body} (skip : tx_flags) :
  skip_undo_history_check (skip_header skip) = false →
  EvaluatorLaws (operation Other) tables
  ∧ ChainLaws (body * list (transaction (operation Other))) (chain tables) (transaction (operation Other)) (H := block_chain skip).
Proof. intros Hskip. split; [apply node_laws|by apply apply_block_laws]. Qed.

(** ** A node *)

Module NodeExample.
Import SlotsExample.

(** Nothing beyond the modelled operations. *)
#[export] Instance nothing_else : Beyond Empty_set := {|
  other_validate := λ o : Empty_set, match o with end;
  other_apply := λ (w : node) (o : Empty_set), match o with end;
  other_step w s := Ok w;
  other_vote o s := Throw assert_exception;
  other_genesis b w := Ok w;
  is_utf8 _ := true;
  json_is_valid _ := true;
  apply_patch body patch := patch;
  find_msb64 := Z.log2;
  rand_offset w := 0;
  other_tx_id t := expiration t;
  other_merkle_root l := Z.of_nat (length l);
  other_pack_size b l := 200;
  other_known_merkle n := None;
  other_authority t w := Ok tt
|}.

#[export] Instance nothing_else_laws : BeyondLaws Empty_set.
Proof. split; cbn; try done; intros; simplify_eq; done. Qed.

Definition sample_node : node :=
  World (set_sc (set_base dao_db (sample_sched true)) sample_slots)
    (Tables RecoveryExample.sample_registry empty_roster (sample_dao 2 200000000)).

Definition sample_operations : list (operation Empty_set) :=
  [ op_transfer _ (Transfer "alice" "bob" (Asset 1500 SBD_SYMBOL) "");
    op_create_proposal _ (CreateProposal "bob" "alice" 99000000 150000000 (Asset 1000 SBD_SYMBOL) "more" "plan");
    op_update_proposal_votes _ (UpdateProposalVotes "bob" {[3; 2]} true) ].

(** The operations work on the same accounts. *)
Example sample_operations_run :
  (w ← res_fold node_apply sample_node sample_operations;
   mret ((λ n, sbd_balance ∘ sbd <$> accounts (view_db w) !! n) <$> ["alice"; "bob"], next_proposal_id (house (rest w))))
  = Ok ([Some 48500; Some 41500], 4).
Proof. vm_compute. reflexivity. Qed.

Lemma node_is_a_chain_witness :
  EvaluatorLaws (operation Empty_set) tables ∧
  ∀ w, res_fold node_apply sample_node sample_operations = Ok w → head_kept sample_node w.
Proof.
  destruct (node_is_a_chain (Other := Empty_set) (TxFlags false false false false false sample_skip) eq_refl) as [HE _].
  split; [exact HE|]. intros w Hw. apply (fold_kept node_apply _ _ _ (λ x (o : operation Empty_set) y, @operation_kept _ _ _ HE o x y) Hw).
Defined.

End NodeExample.
